(* ===== verification/_CoqProject ===== *)
-Q . S2P
Prelude.v
Memory.v
Frames.v
Vpages.v
Bits.v
PageTree.v
VpagesMap.v
VpagesPages.v
VpagesIsolation.v
VpagesWrite.v
VpagesKernel.v
VpagesExamples.v
VpagesFree.v
VpagesTheorems.v
VpagesDestroy.v
VpagesClone.v
VpagesFork.v
KernelMemory.v
Kmalloc.v
KmallocProofs.v
VpagesHeap.v
KmallocTheorems.v
Bbuf.v
Links.v
Kernel.v
KernelInstance.v
RoundRobin.v
TaskQueue.v
TaskQueueProofs.v
KernelExample.v
SchedTheorems.v
ProcessTree.v
ProcessTreeProofs.v
ProcessTreeTheorems.v
Mutex.v
MutexProofs.v
MutexSystem.v
MutexTheorems.v
Multitask.v
ProcessSyscalls.v
WaitProofs.v
WaitTheorems.v
ExitProofs.v
ExitTheorems.v
Bytes.v
Fork.v
Vfs.v
Ext2.v
Ext2Proofs.v
Ext2File.v
FsExample.v
Ext2Read.v
Ext2Inode.v
Ext2Dir.v
Ext2Lookup.v
MbrTheorems.v
Md5.v
Md5Theorems.v
Md5File.v
Elf64.v
ElfProofs.v
ElfTheorems.v
Vga.v
Interrupts.v
InterruptTheorems.v
Serial.v
Stdio.v
Ata.v
AtaTheorems.v
IsrAsm.v
Syscalls.v
SyscallTheorems.v
Userlib.v
Keyboard.v
Mount.v
AtaProbe.v
Storage.v
Boot.v
Counter.v
Programs.v
