(* ===== verification/Prelude.v ===== *)
(** * A verification of the jams_os kernel

    jams_os is a 64-bit kernel in C with preemptive threads, user processes with their own
    address spaces, system calls, mutexes, an ext2 file system on an ATA disk, and
    two consoles.  This library models it by shallow embedding: a C function is a Rocq function of the same name on the
    state it works on, in the state monad [M] below, whose outcome is a result with
    the new state, a halted machine ([hlt], or a memory fault nobody handles), or a
    loop that used up the fuel of the model.  Integers are [Z] with the wrap-around of
    their C types written out ([u8] ... [i64]).  File names are those of the repository.

    ** The parts and their files

    - The C library: [Memory] ([klibc/string.c], with byte memory), [Stdio] ([klibc/stdio.c]).
    - Memory: [Frames] ([src/x86_64/memory/frames.c], state [mst]); [Vpages] ([vpages.c], on the same
      state: page tables are words of physical memory); [Bits] and [PageTree], the
      specification of a tree of tables; [VpagesMap] to [VpagesFork], its proofs operation by
      operation; [KernelMemory] (class), [Kmalloc], [KmallocProofs], [KmallocTheorems]
      ([kmalloc.c]) and [VpagesHeap], the instance of the class.
    - Multitasking: [Links]; [Kernel] (state [kst]: threads and processes by address,
      the queues, the scheduler; heap, page tables and interrupt flag are the class [KernelEnv], and
      [KernelInstance] gives the one on [Kmalloc] and [Vpages]); [RoundRobin] ([round_robin.c]);
      [TaskQueue], [ProcessTree], [Multitask] ([multitask.c]); [Mutex]
      ([mutex_syscalls.c]) and [MutexSystem], the transition system of threads that use mutexes;
      [ProcessSyscalls] ([process_syscalls.c]); proofs in the files of the same prefix and in
      [SchedTheorems], [WaitTheorems], [ExitTheorems], and [Fork], over the class [SpawnView] of what a fork sees
      of the heap and the address spaces.
    - Files: [Bytes]; [Vfs] ([block_dev.c], [vfs.c], [mbr.c], state [fss]); [MbrTheorems]; [Ext2] ([ext2.c])
      with [Ext2Proofs], [Ext2File], [Ext2Read], [Ext2Inode], [Ext2Dir], [Ext2Lookup]; [Md5], [Md5Theorems],
      [Md5File] ([md5.c]); [Elf64], [ElfProofs], [ElfTheorems] ([elf64.c]).  The disk and
      the heap are the class [FsEnv], the address spaces the class [UserEnv].  [Mount] and
      [Storage] are the thread [ata_test_thread] of [main.c] that mounts the disk, lists it and
      loads the first program.
    - Devices and interrupts: [Bbuf] ([bbuf.c]); [Vga] ([vga.c]); [Serial] ([serial_out.c]); [Ata],
      [AtaTheorems], [AtaProbe] ([ata.c]); [Keyboard] ([ps2_kbd.c], and [kernel_init] of [main.c]); [Interrupts], [InterruptTheorems] ([pic.c],
      [idt_tss.c], [interrupts.c]); [IsrAsm] ([interrupt_asm.asm], [generated_interrupts.asm]); [Syscalls],
      [SyscallTheorems] ([syscalls.c] and the system call instruction of the user library); [Userlib]
      ([userspace/lib/syscall.c]).  Chips are classes with their ports as operations, and their
      documented behaviour as laws: [PicDev], [UartDev], [AtaDev] (with [IdentLaws] for its
      identification), [Ps2Dev].
    - The whole: [Boot] ([kernel_main] and the idle loop of [main.c], [pit.c], [MMU_init]), on a
      state that has all the parts; [Counter] (the counter threads of [userspace/init.c] as a transition system on
      [MutexSystem]) and [Programs] ([init.c], [echo.c], [crt0.c], and the calls [sys_getc] and
      [sys_putc]).

    Interfaces between the parts are type classes of operations with a class of laws;
    theorems of a client are proved from the laws, and each law class has an instance
    ([VpagesHeap], [KernelInstance], or a small concrete one in the example files
    [KernelExample], [FsExample], [VpagesExamples] and at the ends of [Fork] and of the device files) on which the
    witnesses run.

    ** What the theorems show

    - Address spaces: reserving, demand paging, writing from another space, freeing,
      destroying and copying change exactly the pages they should, lose and share no frame,
      and say what a failure leaves behind; a store through a mapping changes one byte and is not disturbed by the page faults it takes.
    - Heap and frames: blocks are disjoint and keep their contents; boot leaves no frame of
      the kernel image in the pool.
    - Threads: the scheduler is a rotating queue and each runnable thread has its turn; blocking and
      waking lose no thread; the process tree is a forest; [fork] makes a child with a copy of its parent's
      memory and stack, or leaves nothing behind; [wait] and [exit] do what they promise; a mutex has one holder at a time, is handed over, and its calls return.
    - Files: reads give the bytes of the file, directory searches the inode of the first match,
      partitions the sectors of the disk; MD5 is that of RFC 1321; the loader builds
      exactly the address space of the program, or none.
    - Start: from zeroed variables and the multiboot structure, [kernel_main] comes to its first
      thread with every table, the frames, the heap, the scheduler, the consoles and the timer in the states the theorems of the
      parts start from; the storage thread then ends with the root of the ext2 volume that
      is on the disk, having printed its tree.
    - Programs: the counter under the mutex counts every increment in every interleaving, the one
      without loses some; [echo] shows what is typed up to the q.
    - Devices: a read of the keyboard gets the oldest character or blocks on an empty buffer, and
      its handler wakes the first that waits; the disk queue is served in order under every interleaving; the serial
      console loses and reorders nothing; the text console is a ring of cells and stays in its
      memory; [printk] prints what a reference formatter prints, within its buffers.
    - Interrupts and system calls: the tables are well formed, a handler runs for its vector only, an interrupt is
      invisible to the interrupted code, and a system call reaches its handler with its
      arguments and brings the answer back.

    ** Bounds and fuel

    Loops over arrays and trees of fixed depth are structural.  Loops along linked lists have the
    size of the store as fuel, which a list without repetitions does not exceed.  Loops
    over bytes and pages have the length of the range.  Polling loops have a fuel argument;
    the theorems ask for one turn, or for the bound [ai_bound] of a drive that identifies itself, which the laws
    of the device make enough.  The loop over the multiboot tags takes one turn per tag, the echo program one per
    character typed, the listing one per level of the tree; the theorems ask for as many.  The digit loops
    have 65 and 22 turns for numbers of 64 bits.  Every theorem about such a function
    states that it returns.

    ** Not modelled

    - Output of [printk] outside [Stdio], the boot message, the listing and [sys_putc]: the other
      functions leave their messages out.
    - [MMU_test] and [frames_stress_test]: self tests that nothing calls.
    - [kexit] at the end of the two threads of [main.c], which are modelled up to there; it is the system
      call [exit].
    - The handlers of the vectors 8 and 13, which print and halt.
    - The boot code: mode switches before C runs.
    - Caches, the TLB, and more than one processor. *)

From stdpp Require Export base tactics numbers list gmap.
From Stdlib Require Export ZArith Lia.

#[export] Set Default Goal Selector "!".
Global Open Scope Z_scope.

(** ** Machine-width integers

    A C integer of width [w] is a [Z]; every place where the C arithmetic can
    wrap applies one of these functions to the mathematical result. *)

Definition u8 (z : Z) : Z := z mod 2 ^ 8.
Definition u16 (z : Z) : Z := z mod 2 ^ 16.
Definition u32 (z : Z) : Z := z mod 2 ^ 32.
Definition u64 (z : Z) : Z := z mod 2 ^ 64.

(** Conversion to a signed 32-bit [int] (two's complement). *)
Definition i32 (z : Z) : Z := (z + 2 ^ 31) mod 2 ^ 32 - 2 ^ 31.

(** Conversion to a signed 64-bit integer. *)
Definition i64 (z : Z) : Z := (z + 2 ^ 63) mod 2 ^ 64 - 2 ^ 63.

Arguments u8 : simpl never.
Arguments u16 : simpl never.
Arguments u32 : simpl never.
Arguments u64 : simpl never.
Arguments i32 : simpl never.
Arguments i64 : simpl never.

(** ** Hint databases of the development

    [cint] closes range side conditions on machine integers, [kmem] is the
    rewrite database of the memory model (filled in [Memory]). *)
Create HintDb cint.

(** ** Outcomes and the state monad

    Kernel code threads the machine state through many calls, and some paths
    end in [hlt] with interrupts off.  [M S A] is a state transformer whose
    outcome is a result with the new state, a halted machine, or the model
    running out of the fuel given to an unbounded loop. *)

Inductive outcome (A : Type) : Type :=
  | Ret (a : A)
  | Halt
  | NoFuel.
Arguments Ret {A} a.
Arguments Halt {A}.
Arguments NoFuel {A}.

Definition M (S A : Type) : Type := S → outcome (A * S).

Definition ret {S A} (a : A) : M S A := λ s, Ret (a, s).

Definition bind {S A B} (c : M S A) (k : A → M S B) : M S B := λ s,
  match c s with
  | Ret (a, s') => k a s'
  | Halt => Halt
  | NoFuel => NoFuel
  end.

Definition halt {S A} : M S A := λ _, Halt.
Definition no_fuel {S A} : M S A := λ _, NoFuel.
Definition gets {S A} (f : S → A) : M S A := λ s, Ret (f s, s).
Definition modify {S} (f : S → S) : M S unit := λ s, Ret (tt, f s).

Declare Scope c_scope.
Delimit Scope c_scope with c.
Notation "x <- c ;; k" := (bind c (λ x, k))
  (at level 100, c at next level, right associativity) : c_scope.
Notation "c ;; k" := (bind c (λ _, k))
  (at level 100, right associativity) : c_scope.
Global Open Scope c_scope.

(** [for (i in l) body], without and with an early [return] of the enclosing
    function: the body answers [Some r] to return [r]. *)
Fixpoint for_each {S A} (l : list A) (body : A → M S unit) : M S unit :=
  match l with
  | [] => ret tt
  | i :: l => body i ;; for_each l body
  end.

Fixpoint for_ret {S A R} (l : list A) (body : A → M S (option R)) : M S (option R) :=
  match l with
  | [] => ret None
  | i :: l =>
      r <- body i ;;
      match r with
      | Some r => ret (Some r)
      | None => for_ret l body
      end
  end.

(** ** Total-correctness assertions

    [wp c s Q]: from [s] the computation [c] returns, and its result and
    final state satisfy [Q]. *)

Definition wp {S A} (c : M S A) (s : S) (Q : A → S → Prop) : Prop :=
  match c s with
  | Ret (a, s') => Q a s'
  | _ => False
  end.

Section wp_rules.
Context {S A B : Type}.
Implicit Types (s : S).

Lemma wp_ret (a : A) s Q : Q a s → wp (ret a) s Q.
Proof. done. Qed.

Lemma wp_bind (c : M S A) (k : A → M S B) s Q :
  wp c s (λ a s', wp (k a) s' Q) → wp (bind c k) s Q.
Proof. unfold wp, bind. by destruct (c s) as [[a s']| |]. Qed.

Lemma wp_gets (f : S → A) s Q : Q (f s) s → wp (gets f) s Q.
Proof. done. Qed.

Lemma wp_modify (f : S → S) s Q : Q tt (f s) → wp (modify f) s Q.
Proof. done. Qed.

Lemma wp_mono (c : M S A) s (P Q : A → S → Prop) :
  wp c s P → (∀ a s', P a s' → Q a s') → wp c s Q.
Proof. unfold wp. destruct (c s) as [[a s']| |]; naive_solver. Qed.

(** A computation satisfies [wp] iff it returns a result satisfying it. *)
Lemma wp_iff (c : M S A) s Q :
  wp c s Q ↔ ∃ a s', c s = Ret (a, s') ∧ Q a s'.
Proof.
  unfold wp. destruct (c s) as [[a s']| |]; split.
  - eauto.
  - by intros (?&?&[= <- <-]&?).
  - done.
  - by intros (?&?&?&?).
  - done.
  - by intros (?&?&?&?).
Qed.

Lemma wp_result (c : M S A) s Q a s' :
  wp c s Q → c s = Ret (a, s') → Q a s'.
Proof. unfold wp. intros H E. by rewrite E in H. Qed.

Lemma wp_of_eq (c : M S A) s Q a s' :
  c s = Ret (a, s') → Q a s' → wp c s Q.
Proof. unfold wp. by intros ->. Qed.

Lemma wp_eq (c : M S A) s a s' : wp c s (λ r t, r = a ∧ t = s') → c s = Ret (a, s').
Proof. unfold wp. destruct (c s) as [[r t]| |]; [by intros [-> ->]|done..]. Qed.

Lemma bind_ret (c : M S A) (k : A → M S B) s a s' :
  c s = Ret (a, s') → bind c k s = k a s'.
Proof. unfold bind. by intros ->. Qed.

Lemma bind_ret_inv (c : M S A) (k : A → M S B) s r :
  bind c k s = Ret r → ∃ a s', c s = Ret (a, s') ∧ k a s' = Ret r.
Proof. unfold bind. destruct (c s) as [[a s']| |]; naive_solver. Qed.
Lemma wp_assoc {C} (c : M S A) (k : A → M S B) (h : B → M S C) s Q :
  wp (bind c (λ a, bind (k a) h)) s Q → wp (bind (bind c k) h) s Q.
Proof. unfold wp, bind. by destruct (c s) as [[a s']| |]. Qed.

(** A known pair of steps followed by the rest. *)
Lemma wp_seq {C} (c : M S A) (k : A → M S B) (h : B → M S C) s Q :
  wp (bind c k) s (λ b s', wp (h b) s' Q) → wp (bind c (λ a, bind (k a) h)) s Q.
Proof. unfold wp, bind. destruct (c s) as [[a s']| |]; try done. by destruct (k a s') as [[b s'']| |]. Qed.
End wp_rules.

(** Loop rules: the invariant is indexed by the part of the index list already
    visited and the part still to visit. *)
Lemma wp_for_each {S A} (Inv : list A → list A → S → Prop)
    (l : list A) (body : A → M S unit) s :
  Inv [] l s →
  (∀ done i rest s, l = done ++ i :: rest → Inv done (i :: rest) s →
     wp (body i) s (λ _ s', Inv (done ++ [i]) rest s')) →
  wp (for_each l body) s (λ _ s', Inv l [] s').
Proof.
  intros H0 Hstep.
  cut (∀ rest done s, l = done ++ rest → Inv done rest s →
    wp (for_each rest body) s (λ _ s', Inv l [] s')).
  { intros H. apply (H l []); done. }
  induction rest as [|i rest IH]; intros done' s' Hl HI; simpl.
  { apply wp_ret. rewrite app_nil_r in Hl. by subst. }
  apply wp_bind. eapply wp_mono; [by apply Hstep|].
  intros a s'' HI'. apply (IH (done' ++ [i])); [|done].
  by rewrite <-app_assoc.
Qed.

Lemma wp_for_ret {S A R} (Inv : list A → list A → S → Prop) (Q : option R → S → Prop)
    (l : list A) (body : A → M S (option R)) s :
  Inv [] l s →
  (∀ done i rest s, l = done ++ i :: rest → Inv done (i :: rest) s →
     wp (body i) s (λ r s', match r with
                            | Some r => Q (Some r) s'
                            | None => Inv (done ++ [i]) rest s'
                            end)) →
  (∀ s', Inv l [] s' → Q None s') →
  wp (for_ret l body) s Q.
Proof.
  intros H0 Hstep Hend.
  cut (∀ rest done s, l = done ++ rest → Inv done rest s →
    wp (for_ret rest body) s Q).
  { intros H. apply (H l []); done. }
  induction rest as [|i rest IH]; intros done' s' Hl HI; simpl.
  { apply wp_ret. rewrite app_nil_r in Hl. subst. auto. }
  apply wp_bind. eapply wp_mono; [by apply Hstep|].
  intros [r|] s'' HI'; [by apply wp_ret|]. apply (IH (done' ++ [i])); [|done].
  by rewrite <-app_assoc.
Qed.

(** Symbolic execution of the straight-line monadic prefix of a goal. *)
Ltac wp_step :=
  match goal with
  | |- wp (bind _ _) _ _ => apply wp_bind
  | |- wp (ret _) _ _ => apply wp_ret
  | |- wp (gets _) _ _ => apply wp_gets
  | |- wp (modify _) _ _ => apply wp_modify
  | |- wp (let '(_, _) := ?x in _) _ _ => destruct x eqn:?
  end; cbv beta.
Ltac wp_steps := repeat wp_step.

(** Case analysis on the boolean tests of the code, with their arithmetic
    meaning as a hypothesis. *)
Ltac case_bool :=
  match goal with
  | |- context [ if ?b then _ else _ ] => destruct b eqn:?
  | |- context [ match ?b with true => _ | false => _ end ] => destruct b eqn:?
  end.

Ltac bool_prop :=
  repeat match goal with
  | H : (_ && _)%bool = true |- _ => apply andb_true_iff in H as [? ?]
  | H : (_ || _)%bool = false |- _ => apply orb_false_iff in H as [? ?]
  | H : negb _ = true |- _ => apply negb_true_iff in H
  | H : negb _ = false |- _ => apply negb_false_iff in H
  | H : (_ =? _) = true |- _ => apply Z.eqb_eq in H
  | H : (_ =? _) = false |- _ => apply Z.eqb_neq in H
  | H : (_ <? _) = true |- _ => apply Z.ltb_lt in H
  | H : (_ <? _) = false |- _ => apply Z.ltb_ge in H
  | H : (_ <=? _) = true |- _ => apply Z.leb_le in H
  | H : (_ <=? _) = false |- _ => apply Z.leb_gt in H
  end.

(** ** Arithmetic of widths, masks and alignment *)

Lemma u8_range z : 0 ≤ u8 z < 2 ^ 8.
Proof. apply Z.mod_pos_bound; lia. Qed.
Lemma u32_range z : 0 ≤ u32 z < 2 ^ 32.
Proof. apply Z.mod_pos_bound; lia. Qed.
Lemma u64_range z : 0 ≤ u64 z < 2 ^ 64.
Proof. apply Z.mod_pos_bound; lia. Qed.
Lemma u8_small z : 0 ≤ z < 2 ^ 8 → u8 z = z.
Proof. apply Z.mod_small. Qed.
Lemma u32_small z : 0 ≤ z < 2 ^ 32 → u32 z = z.
Proof. apply Z.mod_small. Qed.
Lemma u64_small z : 0 ≤ z < 2 ^ 64 → u64 z = z.
Proof. apply Z.mod_small. Qed.
Lemma i32_small z : - 2 ^ 31 ≤ z < 2 ^ 31 → i32 z = z.
Proof. intros. unfold i32. rewrite Z.mod_small; lia. Qed.
#[export] Hint Resolve u8_range u32_range u64_range : cint.

(** Clearing the low [k] bits of a [w]-bit word. *)
Lemma land_high_mask w k x :
  0 ≤ k ≤ w → 0 ≤ x < 2 ^ w →
  Z.land x (Z.shiftl (Z.ones (w - k)) k) = x / 2 ^ k * 2 ^ k.
Proof.
  intros Hk Hx. rewrite <-Z.shiftr_div_pow2, <-Z.shiftl_mul_pow2 by lia.
  apply Z.bits_inj'. intros n Hn.
  rewrite Z.land_spec, !Z.shiftl_spec by lia.
  destruct (decide (n < k)) as [Hnk|Hnk].
  { rewrite !(Z.testbit_neg_r _ (n - k)) by lia. apply andb_false_r. }
  rewrite Z.shiftr_spec by lia.
  replace (n - k + k) with n by lia.
  destruct (decide (n < w)) as [Hnw|Hnw].
  { rewrite Z.ones_spec_low by lia. apply andb_true_r. }
  rewrite Z.ones_spec_high by lia. rewrite andb_false_r. symmetry.
  destruct (decide (x = 0)) as [->|Hx0]; [apply Z.bits_0|].
  apply Z.bits_above_log2; [lia|].
  apply Z.log2_lt_pow2; [lia|]. apply Z.lt_le_trans with (2 ^ w); [lia|].
  apply Z.pow_le_mono_r; lia.
Qed.

Lemma land_low_mask k x : 0 ≤ k → Z.land x (Z.ones k) = x mod 2 ^ k.
Proof. intros. by apply Z.land_ones. Qed.

(** ** Lists *)

Lemma foldl_ext {A B} (f g : A → B → A) (a : A) (l : list B) :
  (∀ x y, f x y = g x y) → foldl f a l = foldl g a l.
Proof. intros H. revert a. induction l as [|y l IH]; intros a; simpl; [done|]. by rewrite H. Qed.

(** The index a counting loop is at, from the part of the range it has
    visited. *)
Lemma seqZ_split_index a n done i rest :
  seqZ a n = done ++ i :: rest → i = a + Z.of_nat (length done) ∧ a ≤ i < a + n.
Proof.
  intros Hl. assert (seqZ a n !! length done = Some i) as Hi.
  { rewrite Hl, lookup_app_r by lia. by rewrite Nat.sub_diag. }
  apply lookup_seqZ in Hi. lia.
Qed.

Lemma perm_replace {A} (l1 l2 x x' c c' : list A) :
  x' ++ c ≡ₚ x ++ c' → (l1 ++ x' ++ l2) ++ c ≡ₚ (l1 ++ x ++ l2) ++ c'.
Proof.
  intros H. transitivity (l1 ++ l2 ++ (x' ++ c)); [solve_Permutation|].
  rewrite H. solve_Permutation.
Qed.

(** Linear arithmetic with division and modulo by constants. *)
Ltac dlia := Z.div_mod_to_equations; lia.
