(* ===== verification/Memory.v ===== *)
(** * Byte-addressed memory and the kernel C library

    Physical memory, the little-endian accesses the compiler emits for the
    kernel's structures, and the routines of [klibc/string.c].  Memory is a
    finite map from addresses to bytes; an address the map does not mention
    reads as zero, so that every content of a finite memory is represented. *)

From S2P Require Import Prelude.

Abbreviation mem := (gmap Z Z).

(** ** Accesses *)

Definition rd8 (m : mem) (a : Z) : Z := u8 (default 0 (m !! a)).
Definition wr8 (m : mem) (a v : Z) : mem := <[a := u8 v]> m.

(** Little-endian accesses of [n] bytes. *)
Fixpoint rd (n : nat) (m : mem) (a : Z) : Z :=
  match n with
  | O => 0
  | S n => rd8 m a + 256 * rd n m (a + 1)
  end.

Fixpoint wr (n : nat) (m : mem) (a v : Z) : mem :=
  match n with
  | O => m
  | S n => wr n (wr8 m a v) (a + 1) (v / 256)
  end.

Abbreviation rd16 := (rd 2).
Abbreviation rd32 := (rd 4).
Abbreviation rd64 := (rd 8).
Abbreviation wr16 := (wr 2).
Abbreviation wr32 := (wr 4).
Abbreviation wr64 := (wr 8).

(** ** klibc/string.c *)

Definition memset (m : mem) (s c n : Z) : mem :=
  foldl (λ m i, wr8 m (s + i) c) m (seqZ 0 n).

Definition memcpy (m : mem) (dest src n : Z) : mem :=
  foldl (λ m i, wr8 m (dest + i) (rd8 m (src + i))) m (seqZ 0 n).

Definition memmove (m : mem) (dest src n : Z) : mem :=
  if dest <? src then
    foldl (λ m i, wr8 m (dest + i) (rd8 m (src + i))) m (seqZ 0 n)
  else
    foldl (λ m i, wr8 m (dest + i - 1) (rd8 m (src + i - 1))) m (reverse (seqZ 1 n)).

(** [while (s[len] != 0) len++], with fuel bounding the number of tests. *)
Fixpoint strlen_from (fuel : nat) (m : mem) (s len : Z) : option Z :=
  match fuel with
  | O => None
  | S fuel =>
      if rd8 m (s + len) =? 0 then Some len
      else strlen_from fuel m s (len + 1)
  end.
Definition strlen (fuel : nat) (m : mem) (s : Z) : option Z := strlen_from fuel m s 0.

(** The copying loop of [strncpy]: it stops at [n] or at the terminator and
    leaves the index the padding loop starts from. *)
Fixpoint strncpy_copy (fuel : nat) (m : mem) (dest src n i : Z) : mem * Z :=
  match fuel with
  | O => (m, i)
  | S fuel =>
      if (i <? n) && negb (rd8 m (src + i) =? 0)
      then strncpy_copy fuel (wr8 m (dest + i) (rd8 m (src + i))) dest src n (i + 1)
      else (m, i)
  end.
Definition strncpy (m : mem) (dest src n : Z) : mem :=
  let '(m1, i) := strncpy_copy (Z.to_nat n) m dest src n 0 in
  foldl (λ m j, wr8 m (dest + j) 0) m1 (seqZ i (n - i)).

Fixpoint strcmp (fuel : nat) (m : mem) (s1 s2 : Z) : option Z :=
  match fuel with
  | O => None
  | S fuel =>
      let c1 := rd8 m s1 in
      let c2 := rd8 m s2 in
      if negb (c1 =? 0) && (c1 =? c2) then strcmp fuel m (s1 + 1) (s2 + 1)
      else Some (c1 - c2)
  end.

(** The pointer to the first occurrence, or 0 for [NULL]. *)
Fixpoint strchr (fuel : nat) (m : mem) (s c : Z) : option Z :=
  match fuel with
  | O => None
  | S fuel =>
      let uc := u8 c in
      if negb (rd8 m s =? uc) && negb (rd8 m s =? 0) then strchr fuel m (s + 1) c
      else if rd8 m s =? uc then Some s else Some 0
  end.

(** The NUL-terminated string [l] stored at [a]. *)
Fixpoint cstr (m : mem) (a : Z) (l : list Z) : Prop :=
  match l with
  | [] => rd8 m a = 0
  | c :: l => rd8 m a = c ∧ c ≠ 0 ∧ cstr m (a + 1) l
  end.

(** ** Single bytes *)

Lemma rd8_range m a : 0 ≤ rd8 m a < 2 ^ 8.
Proof. apply u8_range. Qed.

Lemma rd8_wr8 m a b v : rd8 (wr8 m a v) b = if decide (a = b) then u8 v else rd8 m b.
Proof.
  unfold rd8, wr8. rewrite lookup_insert. case_decide; [|done]. simpl.
  unfold u8. by rewrite Z.mod_mod.
Qed.

Lemma rd8_wr8_eq m a v : rd8 (wr8 m a v) a = u8 v.
Proof. rewrite rd8_wr8. by case_decide. Qed.

Lemma rd8_wr8_ne m a b v : a ≠ b → rd8 (wr8 m a v) b = rd8 m b.
Proof. intros. rewrite rd8_wr8. by case_decide. Qed.

(** ** Wide accesses *)

Lemma rd_ext n m m' a b :
  (∀ i, 0 ≤ i < Z.of_nat n → rd8 m (a + i) = rd8 m' (b + i)) → rd n m a = rd n m' b.
Proof.
  revert a b. induction n as [|n IH]; intros a b H; [done|]. cbn [rd].
  pose proof (H 0 ltac:(lia)) as H0. rewrite !Z.add_0_r in H0. rewrite H0.
  do 2 f_equal. apply IH. intros i Hi.
  replace (a + 1 + i) with (a + (i + 1)) by lia.
  replace (b + 1 + i) with (b + (i + 1)) by lia. apply H. lia.
Qed.

Lemma rd_range n m a : 0 ≤ rd n m a < 2 ^ (8 * Z.of_nat n).
Proof.
  revert a. induction n as [|n IH]; intros a; cbn [rd]; [lia|].
  specialize (IH (a + 1)). pose proof (rd8_range m a).
  replace (8 * Z.of_nat (S n)) with (8 + 8 * Z.of_nat n) by lia.
  rewrite Z.pow_add_r by lia. lia.
Qed.

Lemma rd64_range m a : 0 ≤ rd64 m a < 2 ^ 64.
Proof. apply (rd_range 8). Qed.
Lemma rd32_range m a : 0 ≤ rd32 m a < 2 ^ 32.
Proof. apply (rd_range 4). Qed.
#[export] Hint Resolve rd8_range rd64_range rd32_range : cint.

Lemma rd8_wr_out n m a v b :
  b < a ∨ a + Z.of_nat n ≤ b → rd8 (wr n m a v) b = rd8 m b.
Proof.
  revert m a v. induction n as [|n IH]; intros m a v H; cbn [wr]; [done|].
  rewrite IH by lia. apply rd8_wr8_ne. lia.
Qed.

Lemma rd_wr_eq n m a v : rd n (wr n m a v) a = v mod 2 ^ (8 * Z.of_nat n).
Proof.
  revert m a v. induction n as [|n IH]; intros m a v; cbn [rd wr].
  { by rewrite Z.mod_1_r. }
  rewrite IH, rd8_wr_out, rd8_wr8_eq by lia. unfold u8.
  replace (8 * Z.of_nat (S n)) with (8 + 8 * Z.of_nat n) by lia.
  assert (0 < 2 ^ (8 * Z.of_nat n)) by (apply Z.pow_pos_nonneg; lia).
  rewrite Z.pow_add_r, Z.rem_mul_r by lia. done.
Qed.

Lemma rd_wr_out k n m a v b :
  b + Z.of_nat k ≤ a ∨ a + Z.of_nat n ≤ b → rd k (wr n m a v) b = rd k m b.
Proof. intros H. apply rd_ext. intros i Hi. apply rd8_wr_out. lia. Qed.

Lemma rd64_wr64_eq m a v : rd64 (wr64 m a v) a = u64 v.
Proof. apply (rd_wr_eq 8). Qed.

Lemma rd64_wr64_ne m a v b : b + 8 ≤ a ∨ a + 8 ≤ b → rd64 (wr64 m a v) b = rd64 m b.
Proof. apply (rd_wr_out 8 8). Qed.

(** ** Block operations *)

Lemma seqZ_snoc_0 (k : nat) : seqZ 0 (Z.of_nat (S k)) = seqZ 0 (Z.of_nat k) ++ [Z.of_nat k].
Proof. rewrite seqZ_S. done. Qed.

Lemma rd8_memset m s c n a :
  rd8 (memset m s c n) a = if decide (s ≤ a < s + n) then u8 c else rd8 m a.
Proof.
  unfold memset. destruct (decide (n ≤ 0)) as [Hn|Hn].
  { rewrite seqZ_nil by lia. case_decide; [lia|done]. }
  replace n with (Z.of_nat (Z.to_nat n)) by lia. clear Hn.
  induction (Z.to_nat n) as [|k IH].
  { simpl. case_decide; [lia|done]. }
  rewrite seqZ_snoc_0, foldl_snoc, rd8_wr8, IH.
  repeat case_decide; done || lia.
Qed.

Lemma memset_shift m d c i k :
  foldl (λ m j, wr8 m (d + j) c) m (seqZ i k) = memset m (d + i) c k.
Proof.
  unfold memset. replace (seqZ i k) with (Z.add i <$> seqZ 0 k).
  2: { rewrite fmap_add_seqZ. f_equal. lia. }
  rewrite foldl_fmap. apply foldl_ext. intros mm j. f_equal. lia.
Qed.

Lemma rd_memset_out k m s c n a :
  a + Z.of_nat k ≤ s ∨ s + n ≤ a → rd k (memset m s c n) a = rd k m a.
Proof.
  intros H. apply rd_ext. intros i Hi. rewrite rd8_memset. case_decide; [lia|done].
Qed.

Lemma rd_memset_0 k m s n a :
  s ≤ a → a + Z.of_nat k ≤ s + n → rd k (memset m s 0 n) a = 0.
Proof.
  revert a. induction k as [|k IH]; intros a H1 H2; cbn [rd]; [done|].
  rewrite IH by lia. rewrite rd8_memset. case_decide; [done|lia].
Qed.

(** The forward copying loop, after [k] iterations. *)
Lemma rd8_copy_fwd m d s (k : nat) a :
  (∀ i j, 0 ≤ i < j → j < Z.of_nat k → d + i ≠ s + j) →
  rd8 (foldl (λ m i, wr8 m (d + i) (rd8 m (s + i))) m (seqZ 0 (Z.of_nat k))) a
  = if decide (d ≤ a < d + Z.of_nat k) then rd8 m (s + (a - d)) else rd8 m a.
Proof.
  revert a. induction k as [|k IH]; intros a H.
  { simpl. case_decide; [lia|done]. }
  rewrite seqZ_snoc_0, foldl_snoc, rd8_wr8, !IH by (intros; apply H; lia).
  rewrite (decide_False (P := d ≤ s + Z.of_nat k < d + Z.of_nat k)).
  - repeat case_decide; try lia; try done.
    subst a. unfold u8. rewrite Z.mod_small by apply rd8_range. f_equal. lia.
  - intros ?. apply (H (s + Z.of_nat k - d) (Z.of_nat k)); lia.
Qed.

(** Two address ranges of [n] bytes that do not overlap. *)
Definition ranges_disjoint (d s n : Z) : Prop := d + n ≤ s ∨ s + n ≤ d.

Lemma rd8_memcpy m d s n a :
  ranges_disjoint d s n →
  rd8 (memcpy m d s n) a = if decide (d ≤ a < d + n) then rd8 m (s + (a - d)) else rd8 m a.
Proof.
  intros H. unfold memcpy. destruct (decide (n ≤ 0)) as [Hn|Hn].
  { rewrite seqZ_nil by lia. case_decide; [lia|done]. }
  replace n with (Z.of_nat (Z.to_nat n)) in * by lia.
  apply rd8_copy_fwd. unfold ranges_disjoint in H. lia.
Qed.

Lemma rd_memcpy_out k m d s n a :
  ranges_disjoint d s n →
  a + Z.of_nat k ≤ d ∨ d + n ≤ a → rd k (memcpy m d s n) a = rd k m a.
Proof.
  intros Hd H. apply rd_ext. intros i Hi.
  rewrite rd8_memcpy by done. case_decide; [lia|done].
Qed.

(** The backward copying loop, after [k] iterations from the top. *)
Lemma rd8_copy_bwd m d s n (k : nat) a :
  Z.of_nat k ≤ n → s ≤ d →
  rd8 (foldl (λ m i, wr8 m (d + i - 1) (rd8 m (s + i - 1))) m
         (reverse (seqZ (n - Z.of_nat k + 1) (Z.of_nat k)))) a
  = if decide (d + n - Z.of_nat k ≤ a < d + n) then rd8 m (s + (a - d)) else rd8 m a.
Proof.
  intros Hk Hsd. revert a. induction k as [|k IH]; intros a.
  { simpl. case_decide; [lia|done]. }
  rewrite seqZ_cons by lia. rewrite reverse_cons, foldl_snoc.
  replace (Z.succ (n - Z.of_nat (S k) + 1)) with (n - Z.of_nat k + 1) by lia.
  replace (Z.pred (Z.of_nat (S k))) with (Z.of_nat k) by lia.
  rewrite rd8_wr8, !IH by lia.
  repeat case_decide; try lia; try done.
  subst a. unfold u8. rewrite Z.mod_small by apply rd8_range. f_equal. lia.
Qed.

(** [memmove] copies the [n] bytes the source held before the call,
    for every overlap of the two ranges, and writes nothing else. *)
Theorem memmove_correct m d s n a :
  rd8 (memmove m d s n) a = if decide (d ≤ a < d + n) then rd8 m (s + (a - d)) else rd8 m a.
Proof.
  unfold memmove. destruct (decide (n ≤ 0)) as [Hn|Hn].
  { rewrite !seqZ_nil by lia. destruct (d <? s); case_decide; done || lia. }
  case_bool; bool_prop.
  - replace n with (Z.of_nat (Z.to_nat n)) in * by lia. apply rd8_copy_fwd. lia.
  - pose proof (rd8_copy_bwd m d s n (Z.to_nat n) a) as H.
    replace (Z.of_nat (Z.to_nat n)) with n in H by lia.
    replace (n - n + 1) with 1 in H by lia. replace (d + n - n) with d in H by lia.
    apply H; lia.
Qed.

(** ** NUL-terminated strings *)

Lemma cstr_chars m a l : cstr m a l → Forall (λ c, 0 < c < 2 ^ 8) l.
Proof.
  revert a. induction l as [|c l IH]; intros a; [done|]. intros (Hc & Hnz & Hl).
  constructor; [|by eapply IH]. pose proof (rd8_range m a). lia.
Qed.

Lemma cstr_lookup m a l i :
  cstr m a l → 0 ≤ i < Z.of_nat (length l) → l !! Z.to_nat i = Some (rd8 m (a + i)).
Proof.
  revert a i. induction l as [|c l IH]; intros a i; simpl; [lia|].
  intros (Hc & Hnz & Hl) Hi. destruct (decide (i = 0)) as [->|Hi0].
  { simpl. rewrite Z.add_0_r. by f_equal. }
  replace (Z.to_nat i) with (S (Z.to_nat (i - 1))) by lia. simpl.
  rewrite (IH (a + 1)) by (done || lia). do 2 f_equal. lia.
Qed.

Lemma cstr_end m a l : cstr m a l → rd8 m (a + Z.of_nat (length l)) = 0.
Proof.
  revert a. induction l as [|c l IH]; intros a; simpl.
  { by rewrite Z.add_0_r. }
  intros (_ & _ & Hl). rewrite <-(IH (a + 1) Hl). f_equal. lia.
Qed.

Lemma cstr_nonzero m a l i :
  cstr m a l → 0 ≤ i < Z.of_nat (length l) → rd8 m (a + i) ≠ 0.
Proof.
  intros Hs Hi. pose proof (cstr_lookup _ _ _ _ Hs Hi) as Hl.
  apply cstr_chars in Hs. eapply Forall_lookup_1 in Hs; [|done]. simpl in Hs. lia.
Qed.

(** [strlen] returns the length of the string at its argument. *)
Lemma strlen_correct m s l fuel :
  cstr m s l → (length l < fuel)%nat → strlen fuel m s = Some (Z.of_nat (length l)).
Proof.
  intros Hs Hf. unfold strlen.
  cut (∀ k len, (k < fuel)%nat → len + Z.of_nat k = Z.of_nat (length l) → 0 ≤ len →
         ∀ f, (k < f)%nat → strlen_from f m s len = Some (Z.of_nat (length l))).
  { intros H. apply (H (length l)); lia. }
  induction k as [|k IH]; intros len _ Hlen H0 [|f] Hk; try lia; cbn [strlen_from].
  - replace len with (Z.of_nat (length l)) by lia. by rewrite cstr_end.
  - case_bool; bool_prop.
    + exfalso. by eapply (cstr_nonzero m s l len); [|lia|].
    + apply IH; lia.
Qed.

(** The lexicographic order of byte strings, shorter first. *)
Fixpoint lex_lt (l1 l2 : list Z) : Prop :=
  match l1, l2 with
  | _, [] => False
  | [], _ :: _ => True
  | c1 :: l1, c2 :: l2 => c1 < c2 ∨ (c1 = c2 ∧ lex_lt l1 l2)
  end.

(** On NUL-terminated strings [strcmp] returns; its result is zero
    exactly for equal strings and negative exactly when the first precedes the
    second in the byte-wise lexicographic order. *)
Theorem strcmp_correct m s1 s2 l1 l2 fuel :
  cstr m s1 l1 → cstr m s2 l2 → (length l1 < fuel)%nat →
  ∃ r, strcmp fuel m s1 s2 = Some r ∧ (r = 0 ↔ l1 = l2) ∧ (r < 0 ↔ lex_lt l1 l2).
Proof.
  revert s1 s2 l2 fuel. induction l1 as [|c1 l1 IH]; intros s1 s2 l2 [|fuel] H1 H2 Hf;
    simpl in Hf; try lia; cbn [strcmp].
  - cbn [cstr] in H1. rewrite H1. cbn. exists (0 - rd8 m s2). split; [done|].
    destruct l2 as [|c2 l2].
    { cbn [cstr] in H2. rewrite H2. cbn. naive_solver lia. }
    pose proof (cstr_chars _ _ _ H2) as Hc. apply Forall_cons_1 in Hc as [Hc _].
    destruct H2 as (-> & _). simpl. split; split; intros; try done; lia.
  - pose proof (cstr_chars _ _ _ H1) as Hc. apply Forall_cons_1 in Hc as [Hc _].
    destruct H1 as (-> & Hnz & Hl1). rewrite (proj2 (Z.eqb_neq c1 0)) by done. simpl.
    destruct l2 as [|c2 l2].
    { cbn [cstr] in H2. rewrite H2, (proj2 (Z.eqb_neq c1 0)) by done.
      exists (c1 - 0). simpl. split; [done|]. split; split; intros; try done; lia. }
    destruct H2 as (-> & Hnz2 & Hl2). case_bool; bool_prop.
    + subst c2. destruct (IH (s1 + 1) (s2 + 1) l2 fuel) as (r & -> & Heq & Hlt);
        [done|done|lia|].
      exists r. split; [done|]. split; [rewrite Heq; naive_solver|].
      rewrite Hlt. simpl. naive_solver lia.
    + exists (c1 - c2). split; [done|]. simpl. split; split; intros; simplify_eq; lia.
Qed.

(** [strchr] returns a pointer to the first occurrence of the character, or
    [NULL] when the string does not contain it. *)
Lemma strchr_correct m s c l fuel :
  cstr m s l → (length l < fuel)%nat → u8 c ≠ 0 →
  strchr fuel m s c =
    match list_find (λ x, x = u8 c) l with
    | Some (i, _) => Some (s + Z.of_nat i)
    | None => Some 0
    end.
Proof.
  intros Hs Hf Hc. revert s fuel Hs Hf.
  induction l as [|x l IH]; intros s [|fuel] Hs Hf; simpl in Hf; try lia; cbn [strchr].
  - cbn [cstr] in Hs. rewrite Hs. destruct (Z.eqb_spec 0 (u8 c)); [congruence|done].
  - destruct Hs as (-> & Hx & Hl). rewrite (proj2 (Z.eqb_neq x 0)) by done.
    rewrite andb_true_r. cbn [list_find]. destruct (Z.eqb_spec x (u8 c)); simpl.
    + rewrite decide_True by done. f_equal. lia.
    + rewrite decide_False by done. rewrite (IH (s + 1)) by (done || lia).
      destruct (list_find _ l) as [[i y]|]; simpl; [f_equal; lia|done].
Qed.

(** The copying loop of [strncpy] stops at [n] or at the end of the string. *)
Lemma strncpy_copy_spec m d s n l k i f :
  cstr m s l → ranges_disjoint d s (n `max` (Z.of_nat (length l) + 1)) →
  k = Z.to_nat (n `min` Z.of_nat (length l) - i) → 0 ≤ i ≤ n `min` Z.of_nat (length l) →
  (Z.to_nat (n - i) ≤ f)%nat →
  ∀ m1, (∀ a, rd8 m1 a = if decide (d ≤ a < d + i) then rd8 m (s + (a - d)) else rd8 m a) →
  ∃ m2, strncpy_copy f m1 d s n i = (m2, n `min` Z.of_nat (length l)) ∧
    (∀ a, rd8 m2 a = if decide (d ≤ a < d + n `min` Z.of_nat (length l))
                     then rd8 m (s + (a - d)) else rd8 m a).
Proof.
  intros Hs Hd. revert i f. induction k as [|k IH]; intros i f Hk Hi Hf m1 Hm1.
  - replace i with (n `min` Z.of_nat (length l)) in * by lia. exists m1. split; [|done].
    destruct f as [|f]; [done|]. cbn [strncpy_copy].
    destruct (decide (n ≤ Z.of_nat (length l))) as [Hc|Hc].
    { by rewrite (proj2 (Z.ltb_ge _ _)) by lia. }
    rewrite Z.min_r by lia. rewrite Hm1.
    rewrite decide_False by (unfold ranges_disjoint in *; lia).
    by rewrite (cstr_end m s l), andb_false_r.
  - destruct f as [|f]; [lia|]. cbn [strncpy_copy].
    rewrite (proj2 (Z.ltb_lt i n)) by lia.
    assert (rd8 m1 (s + i) = rd8 m (s + i)) as Hrd.
    { rewrite Hm1. rewrite decide_False by (unfold ranges_disjoint in *; lia). done. }
    rewrite Hrd. rewrite (proj2 (Z.eqb_neq _ _)) by (apply (cstr_nonzero m s l); [done|lia]).
    simpl. apply IH; [lia|lia|lia|]. intros a. rewrite rd8_wr8, Hm1.
    repeat case_decide; try lia; try done. subst a.
    unfold u8. rewrite Z.mod_small by apply rd8_range. f_equal. lia.
Qed.

(** [strncpy] copies at most [n] characters and fills the rest of the [n]
    bytes with NULs; a source of [n] or more characters leaves no terminator. *)
Lemma strncpy_correct m d s n l a :
  cstr m s l → ranges_disjoint d s (n `max` (Z.of_nat (length l) + 1)) → 0 ≤ n →
  rd8 (strncpy m d s n) a =
    if decide (d ≤ a < d + n) then default 0 (l !! Z.to_nat (a - d)) else rd8 m a.
Proof.
  intros Hs Hd Hn. unfold strncpy.
  destruct (strncpy_copy_spec m d s n l _ 0 (Z.to_nat n) Hs Hd eq_refl) with (m1 := m)
    as (m2 & -> & Hm2); [lia|lia| |].
  { intros b. case_decide; [lia|done]. }
  set (i := n `min` Z.of_nat (length l)) in *.
  rewrite memset_shift.
  rewrite rd8_memset, Hm2. repeat case_decide; try lia; try done.
  - rewrite lookup_ge_None_2 by lia. done.
  - rewrite (cstr_lookup m s l (a - d)) by (done || lia). done.
Qed.

#[global] Arguments rd : simpl never.
#[global] Arguments wr : simpl never.
#[global] Arguments rd8 : simpl never.
#[global] Arguments wr8 : simpl never.
#[global] Arguments memset : simpl never.
#[global] Arguments memcpy : simpl never.

(** ** Writes over writes *)

Lemma rd_S n m a : rd (S n) m a = rd8 m a + 256 * rd n m (a + 1).
Proof. done. Qed.

Lemma wr_S n m a v : wr (S n) m a v = wr n (wr8 m a v) (a + 1) (v / 256).
Proof. done. Qed.

Lemma wr_wr8_comm n m a v b u :
  b < a ∨ a + Z.of_nat n ≤ b → wr8 (wr n m a v) b u = wr n (wr8 m b u) a v.
Proof.
  revert m a v. induction n as [|n IH]; intros m a v Hb; [done|]. rewrite !wr_S.
  rewrite IH by lia. f_equal. unfold wr8. apply insert_insert_ne. lia.
Qed.

Lemma wr_comm n k m a v b u :
  a + Z.of_nat n ≤ b ∨ b + Z.of_nat k ≤ a → wr k (wr n m a v) b u = wr n (wr k m b u) a v.
Proof.
  revert m b u. induction k as [|k IH]; intros m b u Hd; [done|]. rewrite !wr_S.
  destruct (decide (n = 0%nat)) as [->|Hn]; [done|].
  rewrite wr_wr8_comm by lia. apply IH. lia.
Qed.

Lemma wr_wr n m a v u : wr n (wr n m a v) a u = wr n m a u.
Proof.
  revert m a v u. induction n as [|n IH]; intros m a v u; [done|]. rewrite !wr_S.
  rewrite wr_wr8_comm by lia. rewrite IH. f_equal. unfold wr8. apply insert_insert_eq.
Qed.

(** Clearing a word with [memset]. *)
Lemma memset_entry m e : memset m e 0 8 = wr64 m e 0.
Proof.
  unfold memset. change (seqZ 0 8) with [0; 1; 2; 3; 4; 5; 6; 7]. cbn [foldl].
  unfold wr. rewrite <-!Z.add_assoc. by rewrite Z.add_0_r.
Qed.

(** ** Concrete instances *)

Definition two_strings : mem := wr64 (wr64 ∅ 0x100 0x0000646362) 0x200 0x0000656362.

Lemma strcmp_witness :
  ∃ r, strcmp 10 two_strings 0x100 0x200 = Some r ∧
    (r = 0 ↔ [0x62; 0x63; 0x64] = [0x62; 0x63; 0x65]) ∧
    (r < 0 ↔ lex_lt [0x62; 0x63; 0x64] [0x62; 0x63; 0x65]).
Proof.
  apply (strcmp_correct two_strings 0x100 0x200 _ _ 10).
  - vm_compute. repeat split; discriminate.
  - vm_compute. repeat split; discriminate.
  - simpl. lia.
Defined.

#[global] Opaque rd wr memset memcpy.
