(* ===== verification/Frames.v ===== *)
(** * The physical frame allocator ([src/x86_64/memory/frames.c])

    The state of the memory subsystem, the multiboot parser that builds the
    table of usable regions, and the frame allocator proper: frames that were
    freed form a linked list threaded through the frames themselves, the others
    are carved out of the region table.

    The abstraction of the allocator is its pool, the list of the frames it can
    hand out in the order in which it hands them out: [frames_inv st p]. *)

From S2P Require Import Prelude Memory.

Abbreviation PAGE_SIZE := 4096.
(** [~(PAGE_SIZE - 1)] at 64 bits. *)
Abbreviation PAGE_MASK := 0xFFFFFFFFFFFFF000.
Abbreviation MAX_REGIONS := 64.
Abbreviation INVALID_FRAME_ADDR := 0xDEADBEEF.
Abbreviation TAG_TYPE_MMAP := 6.
Abbreviation TAG_TYPE_ELF := 9.
Abbreviation REGION_OS_USE := 1.

(** ** State *)

(** [struct mem_region]. *)
Record mem_region := MemRegion { rg_addr : Z; rg_size : Z; rg_valid : bool }.

#[export] Instance mem_region_eq_dec : EqDecision mem_region.
Proof. solve_decision. Defined.
#[export] Instance mem_region_inhabited : Inhabited mem_region :=
  populate (MemRegion 0 0 false).

(** The machine and the static variables of the memory subsystem: physical
    memory, [usable_regions] and [free_frames] of [frames.c], [kernel_cr3] and
    [kernel_va] of [vpages.c], the registers [cr2] and [cr3], and the
    interrupt flag of [rflags]. *)
Record mst := Mst {
  pmem : mem;
  usable_regions : list mem_region;
  free_frames : Z;
  kernel_cr3 : Z;
  kernel_va : Z;
  cr2 : Z;
  cr3 : Z;
  int_flag : bool
}.

Definition set_pmem (m : mem) (s : mst) : mst :=
  Mst m (usable_regions s) (free_frames s) (kernel_cr3 s) (kernel_va s) (cr2 s) (cr3 s) (int_flag s).
Definition set_regions (r : list mem_region) (s : mst) : mst :=
  Mst (pmem s) r (free_frames s) (kernel_cr3 s) (kernel_va s) (cr2 s) (cr3 s) (int_flag s).
Definition set_free_frames (f : Z) (s : mst) : mst :=
  Mst (pmem s) (usable_regions s) f (kernel_cr3 s) (kernel_va s) (cr2 s) (cr3 s) (int_flag s).
Definition set_kernel_cr3 (v : Z) (s : mst) : mst :=
  Mst (pmem s) (usable_regions s) (free_frames s) v (kernel_va s) (cr2 s) (cr3 s) (int_flag s).
Definition set_kernel_va (v : Z) (s : mst) : mst :=
  Mst (pmem s) (usable_regions s) (free_frames s) (kernel_cr3 s) v (cr2 s) (cr3 s) (int_flag s).
Definition set_cr2 (v : Z) (s : mst) : mst :=
  Mst (pmem s) (usable_regions s) (free_frames s) (kernel_cr3 s) (kernel_va s) v (cr3 s) (int_flag s).
Definition set_cr3 (v : Z) (s : mst) : mst :=
  Mst (pmem s) (usable_regions s) (free_frames s) (kernel_cr3 s) (kernel_va s) (cr2 s) v (int_flag s).
Definition set_int_flag (b : bool) (s : mst) : mst :=
  Mst (pmem s) (usable_regions s) (free_frames s) (kernel_cr3 s) (kernel_va s) (cr2 s) (cr3 s) b.

(** Loads and stores through the identity map. *)
Definition load8 (a : Z) : M mst Z := gets (λ s, rd8 (pmem s) a).
Definition load32 (a : Z) : M mst Z := gets (λ s, rd32 (pmem s) a).
Definition load64 (a : Z) : M mst Z := gets (λ s, rd64 (pmem s) a).
Definition store8 (a v : Z) : M mst unit := modify (λ s, set_pmem (wr8 (pmem s) a v) s).
Definition store64 (a v : Z) : M mst unit := modify (λ s, set_pmem (wr64 (pmem s) a v) s).
Definition memset_at (a c n : Z) : M mst unit := modify (λ s, set_pmem (memset (pmem s) a c n) s).
Definition memcpy_at (d a n : Z) : M mst unit := modify (λ s, set_pmem (memcpy (pmem s) d a n) s).

(** ** The region table *)

(** [usable_regions[i]], read and written inside its bounds. *)
Definition region_at (i : Z) : M mst mem_region :=
  gets (λ s, usable_regions s !!! Z.to_nat i).
Definition set_region (i : Z) (r : mem_region) : M mst unit :=
  modify (λ s, set_regions (<[Z.to_nat i := r]> (usable_regions s)) s).

Definition page_up (a : Z) : Z := Z.land (u64 (a + PAGE_SIZE - 1)) PAGE_MASK.
Definition page_down (a : Z) : Z := Z.land a PAGE_MASK.

Definition add_usable_region (addr size entry : Z) : M mst unit :=
  let start := page_up addr in
  let stop := page_down (u64 (addr + size)) in
  if stop <=? start then ret tt
  else if MAX_REGIONS <=? entry then ret tt
  else set_region entry (MemRegion start (u64 (stop - start)) true).

(** The first slot of the table that is not in use, for the right half of a
    region that is split. *)
Definition add_in_free_slot (addr size : Z) : M mst unit :=
  _ <- for_ret (seqZ 0 MAX_REGIONS) (λ j,
    r <- region_at j ;;
    if negb (rg_valid r) then
      add_usable_region addr size j ;; ret (Some tt)
    else ret None) ;;
  ret tt.

(** The body of the loop of [remove_region] for slot [i], on the page-aligned
    range [start, stop). *)
Definition remove_from_slot (start stop i : Z) : M mst unit :=
  r <- region_at i ;;
  if negb (rg_valid r) then ret tt else
  let reg_start := rg_addr r in
  let reg_end := u64 (reg_start + rg_size r) in
  if (stop <=? reg_start) || (reg_end <=? start) then ret tt
  else if (start <=? reg_start) && (reg_end <=? stop) then
    set_region i (MemRegion reg_start (rg_size r) false)
  else if (start <=? reg_start) && (stop <? reg_end) then
    set_region i (MemRegion stop (u64 (reg_end - stop)) true)
  else if (reg_start <? start) && (reg_end <=? stop) then
    set_region i (MemRegion reg_start (u64 (start - reg_start)) true)
  else
    set_region i (MemRegion reg_start (u64 (start - reg_start)) true) ;;
    add_in_free_slot stop (u64 (reg_end - stop)).

Definition remove_region (start stop : Z) : M mst unit :=
  let start := page_down start in
  let stop := page_up stop in
  for_each (seqZ 0 MAX_REGIONS) (remove_from_slot start stop).

(** ** Multiboot tags *)

(** [struct mmap_tag] is 16 bytes long and its entries ([struct mmap_entry])
    24; a zero [entry_size] faults in the division. *)
Definition parse_mmap_tag (tag : Z) : M mst unit :=
  tag_size <- load32 (tag + 4) ;;
  entry_size <- load32 (tag + 8) ;;
  if entry_size =? 0 then halt else
  let num := i32 (u64 (tag_size - 16) / entry_size) in
  for_each (seqZ 0 num) (λ i,
    let e := tag + 16 + i * 24 in
    type <- load32 (e + 16) ;;
    if type =? REGION_OS_USE then
      addr <- load64 e ;;
      size <- load64 (e + 8) ;;
      add_usable_region addr size i
    else ret tt).

(** [struct elf_tag] is 20 bytes long, [struct sect_head] 64. *)
Definition parse_elf_tag (tag : Z) : M mst unit :=
  num_sect <- load32 (tag + 8) ;;
  for_each (seqZ 0 num_sect) (λ i,
    let h := tag + 20 + i * 64 in
    start <- load64 (h + 16) ;;
    size <- load64 (h + 32) ;;
    remove_region start (u64 (start + size))).

Definition next_tag (tag_addr tag_size : Z) : Z :=
  tag_addr + Z.land (u32 (tag_size + 7)) 0xFFFFFFF8.

Fixpoint parse_tags (fuel : nat) (tag_addr end_addr : Z) : M mst unit :=
  match fuel with
  | O => no_fuel
  | S fuel =>
      if negb (tag_addr <? end_addr) then ret tt else
      type <- load32 tag_addr ;;
      tag_size <- load32 (tag_addr + 4) ;;
      (if type =? TAG_TYPE_MMAP then parse_mmap_tag tag_addr
       else if type =? TAG_TYPE_ELF then parse_elf_tag tag_addr
       else ret tt) ;;
      parse_tags fuel (next_tag tag_addr tag_size) end_addr
  end.

Definition parse_mboot_tags (fuel : nat) (mboot_header : Z) : M mst unit :=
  total_size <- load32 mboot_header ;;
  parse_tags fuel (mboot_header + 8) (mboot_header + total_size).

(** ** Allocation *)

Definition MMU_pf_alloc : M mst Z :=
  head <- gets free_frames ;;
  if negb (head =? INVALID_FRAME_ADDR) then
    next <- load64 head ;;
    modify (set_free_frames next) ;;
    ret head
  else
    r <- for_ret (seqZ 0 MAX_REGIONS) (λ i,
      r <- region_at i ;;
      if negb (rg_valid r) then ret None
      else if rg_size r =? PAGE_SIZE then
        set_region i (MemRegion (rg_addr r) (rg_size r) false) ;;
        ret (Some (rg_addr r))
      else
        set_region i (MemRegion (u64 (rg_addr r + PAGE_SIZE))
                                (u64 (rg_size r - PAGE_SIZE)) true) ;;
        ret (Some (rg_addr r))) ;;
    ret (default INVALID_FRAME_ADDR r).

Definition MMU_pf_free (pf : Z) : M mst unit :=
  if pf =? INVALID_FRAME_ADDR then ret tt else
  head <- gets free_frames ;;
  store64 pf head ;;
  modify (set_free_frames pf).

(** The walk over the free list, with fuel bounding its length. *)
Fixpoint count_free_list (fuel : nat) (node count : Z) : M mst Z :=
  match fuel with
  | O => no_fuel
  | S fuel =>
      if node =? INVALID_FRAME_ADDR then ret count else
      next <- load64 node ;;
      count_free_list fuel next (u64 (count + 1))
  end.

Definition MMU_pf_free_count (fuel : nat) : M mst Z :=
  rs <- gets usable_regions ;;
  head <- gets free_frames ;;
  let in_regions :=
    foldl (λ count i, let r := rs !!! Z.to_nat i in
                      if rg_valid r then u64 (count + rg_size r / PAGE_SIZE) else count)
          0 (seqZ 0 MAX_REGIONS) in
  count_free_list fuel head in_regions.

(** The self test of the allocator, returning the six frames it allocates. *)
Definition frames_sequence_test : M mst (list Z) :=
  p1 <- MMU_pf_alloc ;;
  p2 <- MMU_pf_alloc ;;
  p3 <- MMU_pf_alloc ;;
  MMU_pf_free p2 ;;
  p4 <- MMU_pf_alloc ;;
  p5 <- MMU_pf_alloc ;;
  MMU_pf_free p1 ;;
  p6 <- MMU_pf_alloc ;;
  MMU_pf_free p3 ;;
  MMU_pf_free p4 ;;
  MMU_pf_free p5 ;;
  MMU_pf_free p6 ;;
  ret [p1; p2; p3; p4; p5; p6].

(** ** Specification: the pool *)

(** A frame address: page aligned and inside the 52-bit physical space. *)
Definition frame_ok (f : Z) : Prop := 0 ≤ f ∧ f mod PAGE_SIZE = 0 ∧ f + PAGE_SIZE ≤ 2 ^ 52.

Definition region_ok (r : mem_region) : Prop :=
  rg_valid r = true →
  0 ≤ rg_addr r ∧ rg_addr r mod PAGE_SIZE = 0 ∧
  0 < rg_size r ∧ rg_size r mod PAGE_SIZE = 0 ∧ rg_addr r + rg_size r ≤ 2 ^ 52.

Definition region_frames (r : mem_region) : list Z :=
  if rg_valid r then (λ k, rg_addr r + PAGE_SIZE * k) <$> seqZ 0 (rg_size r / PAGE_SIZE) else [].

Definition regions_frames (rs : list mem_region) : list Z := rs ≫= region_frames.

(** The list [l] of freed frames starts at [head] and is linked by the first
    word of each frame. *)
Fixpoint free_list (m : mem) (head : Z) (l : list Z) : Prop :=
  match l with
  | [] => head = INVALID_FRAME_ADDR
  | f :: l => head = f ∧ free_list m (rd64 m f) l
  end.

Definition table_ok (rs : list mem_region) : Prop :=
  length rs = Z.to_nat MAX_REGIONS ∧ Forall region_ok rs.

(** The allocator can hand out exactly the frames [p], in this order. *)
Definition frames_inv (st : mst) (p : list Z) : Prop :=
  ∃ l, free_list (pmem st) (free_frames st) l ∧
       table_ok (usable_regions st) ∧
       p = l ++ regions_frames (usable_regions st) ∧
       NoDup p ∧ Forall frame_ok p.

(** ** Alignment *)

Lemma page_down_spec a : 0 ≤ a < 2 ^ 64 → page_down a = a / PAGE_SIZE * PAGE_SIZE.
Proof. intros Ha. apply (land_high_mask 64 12); [lia|done]. Qed.

Lemma page_up_spec a :
  0 ≤ a → a + PAGE_SIZE - 1 < 2 ^ 64 →
  page_up a = (a + PAGE_SIZE - 1) / PAGE_SIZE * PAGE_SIZE.
Proof.
  intros. unfold page_up. rewrite u64_small by lia. apply (land_high_mask 64 12); lia.
Qed.

Lemma frame_ok_valid f : frame_ok f → f ≠ INVALID_FRAME_ADDR.
Proof. intros (_ & Hf & _) ->. done. Qed.

Lemma frame_ok_aligned_page_down f : frame_ok f → page_down f = f.
Proof.
  intros (H0 & Hf & Hb). rewrite page_down_spec by lia.
  pose proof (Z.div_mod f PAGE_SIZE). lia.
Qed.

Lemma frames_apart f g : frame_ok f → frame_ok g → f ≠ g → f + PAGE_SIZE ≤ g ∨ g + PAGE_SIZE ≤ f.
Proof.
  intros (_ & Hf & _) (_ & Hg & _) Hne.
  pose proof (Z.div_mod f PAGE_SIZE). pose proof (Z.div_mod g PAGE_SIZE). lia.
Qed.
#[export] Hint Resolve frame_ok_valid : cint.

(** ** Frames of regions *)

Lemma elem_of_region_frames r f :
  region_ok r →
  f ∈ region_frames r ↔
    rg_valid r = true ∧ rg_addr r ≤ f < rg_addr r + rg_size r ∧ f mod PAGE_SIZE = 0.
Proof.
  intros Hr. unfold region_frames, region_ok in *. destruct (rg_valid r).
  2: { split; [intros ?%elem_of_nil; done|naive_solver]. }
  specialize (Hr eq_refl). rewrite list_elem_of_fmap. setoid_rewrite elem_of_seqZ.
  pose proof (Z.div_mod (rg_addr r) PAGE_SIZE). pose proof (Z.div_mod (rg_size r) PAGE_SIZE).
  split.
  - intros (k & -> & Hk). split; [done|]. split; [lia|].
    rewrite Z.mul_comm, Z.mod_add; lia.
  - intros (_ & Hf & Hmod). pose proof (Z.div_mod f PAGE_SIZE).
    exists ((f - rg_addr r) / PAGE_SIZE).
    replace (f - rg_addr r) with ((f / PAGE_SIZE - rg_addr r / PAGE_SIZE) * PAGE_SIZE) by lia.
    rewrite Z.div_mul by lia. lia.
Qed.

Lemma region_frames_ok r : region_ok r → Forall frame_ok (region_frames r).
Proof.
  intros Hr. apply Forall_forall. intros f Hf.
  apply elem_of_region_frames in Hf as (Hv & Hf & Hm); [|done].
  destruct (Hr Hv) as (? & ? & ? & ? & ?). repeat split; [lia|done|].
  pose proof (Z.div_mod f PAGE_SIZE). pose proof (Z.div_mod (rg_addr r) PAGE_SIZE).
  pose proof (Z.div_mod (rg_size r) PAGE_SIZE). lia.
Qed.

Lemma regions_frames_cons r rs :
  regions_frames (r :: rs) = region_frames r ++ regions_frames rs.
Proof. done. Qed.

Lemma regions_frames_ok rs : Forall region_ok rs → Forall frame_ok (regions_frames rs).
Proof.
  induction 1; [constructor|]. cbn. apply Forall_app. split; [by apply region_frames_ok|done].
Qed.

Lemma region_frames_NoDup r : NoDup (region_frames r).
Proof.
  unfold region_frames. destruct (rg_valid r); [|constructor].
  apply NoDup_fmap_2; [|apply NoDup_seqZ]. intros x y. lia.
Qed.

Lemma elem_of_regions_frames rs f :
  f ∈ regions_frames rs ↔ ∃ i r, rs !! i = Some r ∧ f ∈ region_frames r.
Proof.
  unfold regions_frames. rewrite list_elem_of_bind. split.
  - intros (r & Hf & [i Hi]%list_elem_of_lookup). eauto.
  - intros (i & r & Hi & Hf). exists r. split; [done|]. by eapply list_elem_of_lookup_2.
Qed.

(** ** Allocating from the region table *)

(** The effect of the scan of [MMU_pf_alloc] on the table. *)
Definition shrink_region (r : mem_region) : mem_region :=
  if rg_size r =? PAGE_SIZE then MemRegion (rg_addr r) (rg_size r) false
  else MemRegion (u64 (rg_addr r + PAGE_SIZE)) (u64 (rg_size r - PAGE_SIZE)) true.

Fixpoint take_frame (rs : list mem_region) : option (Z * list mem_region) :=
  match rs with
  | [] => None
  | r :: rs =>
      if rg_valid r then Some (rg_addr r, shrink_region r :: rs)
      else match take_frame rs with
           | Some (f, rs') => Some (f, r :: rs')
           | None => None
           end
  end.

Lemma shrink_region_spec r :
  region_ok r → rg_valid r = true →
  region_ok (shrink_region r) ∧ region_frames r = rg_addr r :: region_frames (shrink_region r).
Proof.
  intros Hr Hv. specialize (Hr Hv) as (H0 & Ha & Hs & Hsm & Hb).
  pose proof (Z.div_mod (rg_size r) PAGE_SIZE).
  unfold shrink_region. destruct (Z.eqb_spec (rg_size r) PAGE_SIZE) as [E|E].
  - split; [done|]. unfold region_frames. rewrite Hv, E. simpl. f_equal. lia.
  - rewrite !u64_small by lia. split.
    + intros _. simpl. repeat split; dlia.
    + unfold region_frames. rewrite Hv. cbn [rg_addr rg_size rg_valid].
      replace (rg_size r - PAGE_SIZE) with (rg_size r + (-1) * PAGE_SIZE) by lia.
      rewrite Z.div_add by lia. rewrite seqZ_cons by lia.
      rewrite fmap_cons. f_equal; [lia|].
      replace (Z.succ 0) with (1 + 0) by lia. rewrite <-fmap_add_seqZ.
      replace (Z.pred (rg_size r / PAGE_SIZE)) with (rg_size r / PAGE_SIZE + -1) by lia.
      rewrite <-list_fmap_compose. apply list_fmap_ext. intros _ k _. simpl. lia.
Qed.

Lemma take_frame_Some rs f rs' :
  Forall region_ok rs → take_frame rs = Some (f, rs') →
  Forall region_ok rs' ∧ length rs' = length rs ∧
  regions_frames rs = f :: regions_frames rs'.
Proof.
  revert rs'. induction rs as [|r rs IH]; intros rs' Hok; simpl; [done|].
  apply Forall_cons_1 in Hok as [Hr Hok]. destruct (rg_valid r) eqn:Hv.
  - intros [= <- <-]. destruct (shrink_region_spec r Hr Hv) as [Hr' Hf].
    split; [by constructor|]. split; [done|].
    unfold regions_frames. cbn. by rewrite Hf.
  - destruct (take_frame rs) as [[g rs1]|] eqn:E; [|done]. intros [= <- <-].
    destruct (IH rs1 Hok eq_refl) as (Hok' & Hlen & Hf).
    split; [by constructor|]. split; [simpl; lia|].
    unfold regions_frames in *. cbn. rewrite Hf. unfold region_frames. by rewrite Hv.
Qed.

Lemma take_frame_None rs : take_frame rs = None → regions_frames rs = [].
Proof.
  induction rs as [|r rs IH]; [done|]. simpl. destruct (rg_valid r) eqn:Hv; [done|].
  destruct (take_frame rs) as [[??]|]; [done|]. intros _. unfold regions_frames. cbn.
  unfold region_frames at 1. rewrite Hv. by apply IH.
Qed.

(** The loop body of [MMU_pf_alloc]. *)
Definition alloc_from_slot (i : Z) : M mst (option Z) :=
  r <- region_at i ;;
  if negb (rg_valid r) then ret None
  else if rg_size r =? PAGE_SIZE then
    set_region i (MemRegion (rg_addr r) (rg_size r) false) ;;
    ret (Some (rg_addr r))
  else
    set_region i (MemRegion (u64 (rg_addr r + PAGE_SIZE))
                            (u64 (rg_size r - PAGE_SIZE)) true) ;;
    ret (Some (rg_addr r)).

Lemma set_regions_id st : set_regions (usable_regions st) st = st.
Proof. by destruct st. Qed.

Lemma alloc_scan rs1 rs2 st :
  usable_regions st = rs1 ++ rs2 →
  for_ret (seqZ (Z.of_nat (length rs1)) (Z.of_nat (length rs2))) alloc_from_slot st =
    match take_frame rs2 with
    | Some (f, rs2') => Ret (Some f, set_regions (rs1 ++ rs2') st)
    | None => Ret (None, st)
    end.
Proof.
  revert rs1. induction rs2 as [|r rs2 IH]; intros rs1 Hst; [done|].
  rewrite seqZ_cons by (simpl; lia). cbn [for_ret take_frame].
  assert (usable_regions st !!! Z.to_nat (Z.of_nat (length rs1)) = r) as Hr.
  { rewrite Hst, Nat2Z.id, lookup_total_app_r by lia. by rewrite Nat.sub_diag. }
  assert (∀ r', <[Z.to_nat (Z.of_nat (length rs1)) := r']> (usable_regions st)
                = rs1 ++ r' :: rs2) as Hins.
  { intros r'. rewrite Hst, Nat2Z.id, insert_app_r_alt, Nat.sub_diag by lia. done. }
  unfold alloc_from_slot at 1, region_at, set_region, gets, modify, bind. rewrite Hr.
  destruct (rg_valid r); simpl.
  - unfold shrink_region. destruct (rg_size r =? PAGE_SIZE); cbn; by rewrite Hins.
  - specialize (IH (rs1 ++ [r])). rewrite <-app_assoc in IH. specialize (IH Hst).
    rewrite length_app in IH. cbn [length] in IH.
    replace (Z.succ (Z.of_nat (length rs1))) with (Z.of_nat (length rs1 + 1)) by lia.
    replace (Z.pred (Z.of_nat (S (length rs2)))) with (Z.of_nat (length rs2)) by lia.
    rewrite IH. destruct (take_frame rs2) as [[f rs2']|]; [|done].
    by rewrite <-app_assoc.
Qed.

Lemma alloc_regions st :
  length (usable_regions st) = Z.to_nat MAX_REGIONS →
  for_ret (seqZ 0 MAX_REGIONS) alloc_from_slot st =
    match take_frame (usable_regions st) with
    | Some (f, rs') => Ret (Some f, set_regions rs' st)
    | None => Ret (None, st)
    end.
Proof.
  intros Hlen. pose proof (alloc_scan [] (usable_regions st) st eq_refl) as H.
  rewrite Hlen in H. exact H.
Qed.

(** ** Functional correctness of allocation *)

Lemma frames_inv_NoDup st p : frames_inv st p → NoDup p.
Proof. by intros (l & _ & _ & _ & ? & _). Qed.

Lemma frames_inv_ok st p : frames_inv st p → Forall frame_ok p.
Proof. by intros (l & _ & _ & _ & _ & ?). Qed.

(** The state as it is after handing out a frame: only the two allocator
    variables change. *)
Definition alloc_frame_state (st st' : mst) : Prop :=
  st' = set_free_frames (free_frames st') (set_regions (usable_regions st') st).

Lemma pf_alloc_spec st p :
  frames_inv st p →
  wp MMU_pf_alloc st (λ f st',
    alloc_frame_state st st' ∧
    match p with
    | [] => f = INVALID_FRAME_ADDR ∧ st' = st
    | x :: p' => f = x ∧ frames_inv st' p'
    end).
Proof.
  intros (l & Hl & [Hlen Hok] & Hp & Hnd & Hfok). unfold MMU_pf_alloc. wp_steps.
  destruct l as [|x l].
  - cbn in Hl. rewrite Hl, Z.eqb_refl. cbn [negb]. apply wp_bind.
    pose proof (alloc_regions st Hlen) as Hscan. unfold alloc_from_slot in Hscan.
    simpl in Hp. destruct (take_frame (usable_regions st)) as [[f rs']|] eqn:Htf.
    + eapply wp_of_eq; [exact Hscan|]. apply wp_ret. cbn.
      destruct (take_frame_Some _ _ _ Hok Htf) as (Hok' & Hlen' & Hfr).
      rewrite Hp, Hfr. rewrite Hp, Hfr in Hnd, Hfok.
      apply NoDup_cons in Hnd as [_ Hnd]. apply Forall_cons_1 in Hfok as [_ Hfok].
      split; [by destruct st|]. split; [done|].
      exists []. split; [done|]. split; [|done]. split; [|done]. cbn. congruence.
    + eapply wp_of_eq; [exact Hscan|]. apply wp_ret. cbn.
      rewrite Hp, (take_frame_None _ Htf). split; [by destruct st|done].
  - destruct Hl as [Hhead Hl]. subst p. cbn [app] in *.
    assert (frame_ok x) as Hx by (by apply Forall_cons_1 in Hfok as [? _]).
    rewrite Hhead. rewrite (proj2 (Z.eqb_neq x _)) by auto with cint. cbn [negb].
    wp_steps. cbn. split; [by destruct st|]. split; [done|].
    exists l. apply NoDup_cons in Hnd as [_ Hnd]. apply Forall_cons_1 in Hfok as [_ Hfok].
    done.
Qed.

(** Writes outside the freed frames leave the free list in place. *)
Lemma free_list_agree m m' head l :
  (∀ f, f ∈ l → rd64 m' f = rd64 m f) → free_list m head l → free_list m' head l.
Proof.
  revert head. induction l as [|f l IH]; intros head Hag; [done|].
  intros [-> Hl]. split; [done|]. rewrite Hag by left. apply IH; [|done].
  intros g Hg. apply Hag. by right.
Qed.

Lemma pf_free_spec st p f :
  frames_inv st p → frame_ok f → f ∉ p →
  wp (MMU_pf_free f) st (λ _ st',
    st' = set_free_frames f (set_pmem (wr64 (pmem st) f (free_frames st)) st) ∧
    frames_inv st' (f :: p)).
Proof.
  intros (l & Hl & Htab & Hp & Hnd & Hfok) Hf Hnin. unfold MMU_pf_free.
  rewrite (proj2 (Z.eqb_neq f _)) by auto with cint. wp_steps. split; [done|].
  exists (f :: l). subst p. split; [|split; [done|]; split; [done|];
    split; [by apply NoDup_cons|by constructor]].
  split; [done|]. cbn. rewrite rd64_wr64_eq.
  assert (u64 (free_frames st) = free_frames st) as ->.
  { apply u64_small. destruct l as [|g l]; [cbn in Hl; lia|].
    destruct Hl as [-> _]. apply Forall_cons_1 in Hfok as [(? & ? & ?) _]. lia. }
  eapply free_list_agree; [|exact Hl]. intros g Hg. apply rd64_wr64_ne.
  assert (frame_ok g) by (eapply Forall_forall; [exact Hfok|]; apply elem_of_app; auto).
  destruct (frames_apart f g) as [?|?]; auto; [|lia|lia].
  intros ->. apply Hnin, elem_of_app. by left.
Qed.

(** [MMU_pf_alloc] hands out the first frame of the pool and keeps
    the rest, or answers [INVALID_FRAME_ADDR] and changes nothing when the pool
    is empty; it never writes to memory. *)
Theorem MMU_pf_alloc_correct st p :
  frames_inv st p →
  ∃ f st', MMU_pf_alloc st = Ret (f, st') ∧ pmem st' = pmem st ∧
    match p with
    | [] => f = INVALID_FRAME_ADDR ∧ st' = st
    | x :: p' => f = x ∧ (f ∉ p') ∧ frames_inv st' p'
    end.
Proof.
  intros Hinv. pose proof (frames_inv_NoDup _ _ Hinv) as Hnd.
  apply pf_alloc_spec, wp_iff in Hinv as (f & st' & -> & Hst' & H).
  exists f, st'. split; [done|]. split; [by rewrite Hst'|].
  destruct p as [|x p]; [done|]. destruct H as [-> H].
  by apply NoDup_cons in Hnd as [? _].
Qed.

(** Freeing a frame the allocator does not own puts it in front of
    the pool, and the next allocation returns that very frame. *)
Theorem MMU_pf_free_alloc st p f :
  frames_inv st p → frame_ok f → f ∉ p →
  ∃ st1 st2, MMU_pf_free f st = Ret (tt, st1) ∧ frames_inv st1 (f :: p) ∧
    MMU_pf_alloc st1 = Ret (f, st2) ∧ frames_inv st2 p.
Proof.
  intros Hinv Hf Hnin.
  destruct (proj1 (wp_iff _ _ _) (pf_free_spec _ _ _ Hinv Hf Hnin))
    as ([] & st1 & E1 & _ & H1).
  destruct (proj1 (wp_iff _ _ _) (pf_alloc_spec _ _ H1)) as (g & st2 & E2 & _ & -> & H2).
  eauto 10.
Qed.

(** ** Counting the pool *)

Lemma regions_frames_length_scan rs1 rs2 c :
  Forall region_ok rs2 → 0 ≤ c →
  c + Z.of_nat (length (regions_frames rs2)) < 2 ^ 64 →
  foldl (λ count i, let r := (rs1 ++ rs2) !!! Z.to_nat i in
                    if rg_valid r then u64 (count + rg_size r / PAGE_SIZE) else count)
        c (seqZ (Z.of_nat (length rs1)) (Z.of_nat (length rs2)))
  = c + Z.of_nat (length (regions_frames rs2)).
Proof.
  revert rs1 c. induction rs2 as [|r rs2 IH]; intros rs1 c Hok Hc Hb.
  { simpl. by rewrite Z.add_0_r. }
  apply Forall_cons_1 in Hok as [Hr Hok].
  rewrite seqZ_cons by (simpl; lia). cbn [foldl].
  rewrite lookup_total_app_r, Nat2Z.id, Nat.sub_diag by lia.
  replace (Z.succ (Z.of_nat (length rs1))) with (Z.of_nat (length (rs1 ++ [r])))
    by (rewrite length_app; simpl; lia).
  replace (Z.pred (Z.of_nat (length (r :: rs2)))) with (Z.of_nat (length rs2)) by (simpl; lia).
  replace (rs1 ++ r :: rs2) with ((rs1 ++ [r]) ++ rs2) by (by rewrite <-app_assoc).
  assert (length (regions_frames (r :: rs2)) =
          length (region_frames r) + length (regions_frames rs2))%nat as Hl
    by by rewrite regions_frames_cons, length_app.
  change ((r :: rs2) !!! 0%nat) with r.
  unfold region_frames in Hl. destruct (rg_valid r) eqn:Hv.
  - specialize (Hr Hv) as (? & ? & ? & ? & ?). rewrite length_fmap, length_seqZ in Hl.
    assert (0 ≤ rg_size r / PAGE_SIZE) by dlia.
    rewrite Hl in *. rewrite u64_small by lia. rewrite IH by (done || lia). lia.
  - cbn [length Nat.add] in Hl. rewrite Hl in *. by rewrite IH by (done || lia).
Qed.

Lemma count_free_list_spec st l node c fuel :
  free_list (pmem st) node l → Forall frame_ok l → (length l < fuel)%nat →
  0 ≤ c → c + Z.of_nat (length l) < 2 ^ 64 →
  count_free_list fuel node c st = Ret (c + Z.of_nat (length l), st).
Proof.
  revert node c fuel. induction l as [|f l IH]; intros node c [|fuel] Hl Hok Hf Hc Hb;
    cbn [length] in *; try lia; cbn [count_free_list].
  - cbn in Hl. rewrite Hl, Z.eqb_refl. unfold ret. do 2 f_equal. lia.
  - destruct Hl as [-> Hl]. apply Forall_cons_1 in Hok as [Hfo Hok].
    rewrite (proj2 (Z.eqb_neq _ _)) by auto with cint.
    unfold load64, gets, bind. rewrite u64_small by lia.
    rewrite IH by (done || lia). do 2 f_equal. lia.
Qed.

(** [MMU_pf_free_count] is the number of frames in the pool; a fuel
    above that number is enough for its walk of the free list. *)
Theorem MMU_pf_free_count_correct st p fuel :
  frames_inv st p → Z.of_nat (length p) < 2 ^ 64 → (length p < fuel)%nat →
  MMU_pf_free_count fuel st = Ret (Z.of_nat (length p), st).
Proof.
  intros (l & Hl & [Hlen Hok] & -> & _ & Hfok) Hb Hfuel. rewrite length_app in *.
  unfold MMU_pf_free_count, gets, bind.
  pose proof (regions_frames_length_scan [] (usable_regions st) 0 Hok) as Hs.
  cbn [length app] in Hs. rewrite Hlen in Hs.
  change (Z.of_nat (Z.to_nat MAX_REGIONS)) with MAX_REGIONS in Hs.
  change (Z.of_nat 0) with 0 in Hs. rewrite Hs by lia.
  rewrite (count_free_list_spec st l) by (done || lia || by apply Forall_app in Hfok as [? _]).
  do 2 f_equal. lia.
Qed.

(** With at least four frames in the pool the self test observes
    what it prints: the fourth allocation returns the second frame again and
    the sixth the first; all four frames are back in the pool at its end. *)
Theorem frames_sequence_test_correct st a b c d p :
  frames_inv st (a :: b :: c :: d :: p) →
  ∃ st', frames_sequence_test st = Ret ([a; b; c; b; d; a], st') ∧
         frames_inv st' (a :: d :: b :: c :: p).
Proof.
  intros Hinv. pose proof (frames_inv_ok _ _ Hinv) as Hok.
  pose proof (frames_inv_NoDup _ _ Hinv) as Hnd.
  rewrite !NoDup_cons in Hnd. rewrite !Forall_cons in Hok.
  destruct Hok as (Ha & Hb & Hc & Hd & _).
  destruct Hnd as (Hna & Hnb & Hnc & Hnd & _). set_unfold in Hna. set_unfold in Hnb.
  set_unfold in Hnc. set_unfold in Hnd.
  cut (wp frames_sequence_test st (λ r st',
    r = [a; b; c; b; d; a] ∧ frames_inv st' (a :: d :: b :: c :: p))).
  { intros H. apply wp_iff in H as (r & st' & E & -> & H). eauto. }
  unfold frames_sequence_test.
  repeat match goal with
  | |- wp (bind MMU_pf_alloc _) _ _ =>
      apply wp_bind; eapply wp_mono; [eapply pf_alloc_spec; eassumption|];
      intros ? ? (_ & -> & ?)
  | |- wp (bind (MMU_pf_free _) _) _ _ =>
      apply wp_bind; eapply wp_mono;
      [eapply pf_free_spec; [eassumption|assumption|set_solver]|];
      intros ? ? (_ & ?)
  end.
  by apply wp_ret.
Qed.

(** ** Removing a range from the region table *)

(** The addresses a region, and the whole table, make available. *)
Definition rg_in (r : mem_region) (a : Z) : Prop :=
  rg_valid r = true ∧ rg_addr r ≤ a < rg_addr r + rg_size r.
Definition table_in (rs : list mem_region) (a : Z) : Prop :=
  ∃ i r, rs !! i = Some r ∧ rg_in r a.
Definition regions_disj (rs : list mem_region) : Prop :=
  ∀ i j ri rj a, rs !! i = Some ri → rs !! j = Some rj → rg_in ri a → rg_in rj a → i = j.
Definition has_free_slot (rs : list mem_region) : Prop :=
  ∃ j r, rs !! j = Some r ∧ rg_valid r = false.

Lemma elem_of_frames_table rs f :
  Forall region_ok rs → f ∈ regions_frames rs ↔ table_in rs f ∧ f mod PAGE_SIZE = 0.
Proof.
  intros Hok. rewrite elem_of_regions_frames. unfold table_in, rg_in. split.
  - intros (i & r & Hi & Hf). apply elem_of_region_frames in Hf; [naive_solver|].
    by eapply Forall_lookup_1.
  - intros ((i & r & Hi & Hv & Ha) & Hm). exists i, r. split; [done|].
    apply elem_of_region_frames; [by eapply Forall_lookup_1|done].
Qed.

Lemma regions_disj_NoDup rs :
  Forall region_ok rs → regions_disj rs → NoDup (regions_frames rs).
Proof.
  induction 1 as [|r rs Hr Hok IH]; intros Hd; [constructor|].
  rewrite regions_frames_cons. apply NoDup_app. split; [apply region_frames_NoDup|]. split.
  - intros f Hf Hf'. apply elem_of_frames_table in Hf' as [(j & rj & Hj & Hin) _]; [|done].
    apply elem_of_region_frames in Hf as (Hv & Ha & _); [|done].
    by specialize (Hd 0%nat (S j) r rj f eq_refl Hj (conj Hv Ha) Hin).
  - apply IH. intros i j ri rj a Hi Hj H1 H2.
    specialize (Hd (S i) (S j) ri rj a Hi Hj H1 H2). lia.
Qed.

Lemma NoDup_regions_index rs i j ri rj f :
  NoDup (regions_frames rs) → rs !! i = Some ri → rs !! j = Some rj →
  f ∈ region_frames ri → f ∈ region_frames rj → i = j.
Proof.
  revert i j. induction rs as [|r rs IH]; intros i j Hnd Hi Hj Hfi Hfj; [done|].
  rewrite regions_frames_cons in Hnd. apply NoDup_app in Hnd as (_ & Hx & Hnd).
  destruct i as [|i], j as [|j]; simplify_eq/=; [done| | |].
  - exfalso. apply (Hx f Hfi). apply elem_of_regions_frames. eauto.
  - exfalso. apply (Hx f Hfj). apply elem_of_regions_frames. eauto.
  - f_equal. by eapply IH.
Qed.

Lemma rg_in_frame r a : region_ok r → rg_in r a → a / PAGE_SIZE * PAGE_SIZE ∈ region_frames r.
Proof.
  intros Hr [Hv Ha]. apply elem_of_region_frames; [done|].
  destruct (Hr Hv) as (? & ? & ? & ? & ?). split; [done|]. dlia.
Qed.

Lemma NoDup_regions_disj rs :
  Forall region_ok rs → NoDup (regions_frames rs) → regions_disj rs.
Proof.
  intros Hok Hnd i j ri rj a Hi Hj Hai Haj.
  eapply NoDup_regions_index; [done|exact Hi|exact Hj| |];
    apply rg_in_frame; try done; by eapply Forall_lookup_1.
Qed.

(** The pure counterpart of one iteration of the loop of [remove_region]. *)
Definition add_pure (addr size : Z) (j : nat) (rs : list mem_region) : list mem_region :=
  let start := page_up addr in
  let stop := page_down (u64 (addr + size)) in
  if stop <=? start then rs else <[j := MemRegion start (u64 (stop - start)) true]> rs.

Definition remove_slot (start stop : Z) (i : nat) (rs : list mem_region) : list mem_region :=
  let r := rs !!! i in
  if negb (rg_valid r) then rs else
  let reg_start := rg_addr r in
  let reg_end := u64 (reg_start + rg_size r) in
  if (stop <=? reg_start) || (reg_end <=? start) then rs
  else if (start <=? reg_start) && (reg_end <=? stop) then
    <[i := MemRegion reg_start (rg_size r) false]> rs
  else if (start <=? reg_start) && (stop <? reg_end) then
    <[i := MemRegion stop (u64 (reg_end - stop)) true]> rs
  else if (reg_start <? start) && (reg_end <=? stop) then
    <[i := MemRegion reg_start (u64 (start - reg_start)) true]> rs
  else
    let rs' := <[i := MemRegion reg_start (u64 (start - reg_start)) true]> rs in
    match list_find (λ r, rg_valid r = false) rs' with
    | Some (j, _) => add_pure stop (u64 (reg_end - stop)) j rs'
    | None => rs'
    end.

Lemma add_usable_region_pure addr size j st :
  (j < Z.to_nat MAX_REGIONS)%nat →
  add_usable_region addr size (Z.of_nat j) st =
    Ret (tt, set_regions (add_pure addr size j (usable_regions st)) st).
Proof.
  intros Hj. unfold add_usable_region, add_pure. case_bool.
  { by rewrite set_regions_id. }
  rewrite (proj2 (Z.leb_gt _ _)) by lia.
  unfold set_region, modify. by rewrite Nat2Z.id.
Qed.

Lemma add_in_free_slot_scan addr size rs1 rs2 st :
  usable_regions st = rs1 ++ rs2 → Forall (λ r, rg_valid r = true) rs1 →
  (length rs1 + length rs2 ≤ Z.to_nat MAX_REGIONS)%nat →
  ∃ o, for_ret (seqZ (Z.of_nat (length rs1)) (Z.of_nat (length rs2))) (λ j,
         r <- region_at j ;;
         if negb (rg_valid r) then
           add_usable_region addr size j ;; ret (Some tt)
         else ret None) st =
    Ret (o, match list_find (λ r, rg_valid r = false) rs2 with
            | Some (j, _) =>
                set_regions (add_pure addr size (length rs1 + j) (usable_regions st)) st
            | None => st
            end).
Proof.
  revert rs1. induction rs2 as [|r rs2 IH]; intros rs1 Hst Hv Hlen; [by exists None|].
  rewrite seqZ_cons by (simpl; lia). cbn [for_ret list_find].
  assert (usable_regions st !!! Z.to_nat (Z.of_nat (length rs1)) = r) as Hr.
  { rewrite Hst, Nat2Z.id, lookup_total_app_r by lia. by rewrite Nat.sub_diag. }
  unfold region_at at 1, gets at 1. unfold bind at 1 2. rewrite Hr.
  destruct (rg_valid r) eqn:Hvr; cbn [negb].
  - rewrite decide_False by congruence. cbn [ret].
    destruct (IH (rs1 ++ [r])) as [o Ho].
    { by rewrite <-app_assoc. }
    { apply Forall_app. auto. }
    { rewrite length_app. simpl in *. lia. }
    exists o. rewrite length_app in Ho. cbn [length] in Ho.
    replace (Z.succ (Z.of_nat (length rs1))) with (Z.of_nat (length rs1 + 1)) by lia.
    replace (Z.pred (Z.of_nat (length (r :: rs2)))) with (Z.of_nat (length rs2)) by (simpl; lia).
    rewrite Ho. destruct (list_find _ rs2) as [[j x]|]; [|done]. simpl.
    by replace (length rs1 + S j)%nat with (length rs1 + 1 + j)%nat by lia.
  - rewrite decide_True by done. exists (Some tt).
    erewrite bind_ret by (apply add_usable_region_pure; simpl in *; lia).
    unfold ret. by rewrite Nat.add_0_r.
Qed.

Lemma remove_from_slot_pure start stop i st :
  length (usable_regions st) = Z.to_nat MAX_REGIONS →
  remove_from_slot start stop i st =
    Ret (tt, set_regions (remove_slot start stop (Z.to_nat i) (usable_regions st)) st).
Proof.
  intros Hlen. unfold remove_from_slot, remove_slot, region_at, gets, bind at 1.
  repeat (case_bool; [by rewrite ?set_regions_id|]).
  erewrite bind_ret by reflexivity.
  set (st1 := set_regions _ st).
  destruct (add_in_free_slot_scan stop
    (u64 (u64 (rg_addr (usable_regions st !!! Z.to_nat i) + rg_size (usable_regions st !!! Z.to_nat i)) - stop))
    [] (usable_regions st1) st1 eq_refl) as [o Ho].
  { constructor. }
  { cbn. rewrite length_insert, Hlen. lia. }
  replace (Z.of_nat (length (usable_regions st1))) with MAX_REGIONS in Ho
    by (cbn; rewrite length_insert, Hlen; done).
  unfold add_in_free_slot. erewrite bind_ret by exact Ho. unfold ret.
  subst st1. cbn. destruct (list_find _ _) as [[j x]|]; [|done]. by destruct st.
Qed.

Lemma page_up_aligned a : 0 ≤ a < 2 ^ 63 → a mod PAGE_SIZE = 0 → page_up a = a.
Proof. intros. rewrite page_up_spec by lia. dlia. Qed.

Lemma page_down_aligned a : 0 ≤ a < 2 ^ 64 → a mod PAGE_SIZE = 0 → page_down a = a.
Proof. intros. rewrite page_down_spec by lia. dlia. Qed.

Lemma add_pure_aligned a n j rs :
  0 ≤ a → 0 < n → a + n ≤ 2 ^ 52 → a mod PAGE_SIZE = 0 → n mod PAGE_SIZE = 0 →
  add_pure a n j rs = <[j := MemRegion a n true]> rs.
Proof.
  intros. unfold add_pure. rewrite page_up_aligned by (done || lia).
  rewrite (u64_small (a + n)) by lia. rewrite page_down_aligned by (lia || dlia).
  rewrite (proj2 (Z.leb_gt _ _)) by lia. rewrite u64_small by lia.
  by replace (a + n - a) with n by lia.
Qed.

(** Replacing one slot by a region that offers fewer addresses. *)
Lemma shrink_slot_disj rs i r r' :
  rs !! i = Some r → (∀ a, rg_in r' a → rg_in r a) →
  regions_disj rs → regions_disj (<[i := r']> rs).
Proof.
  intros Hi Hsub Hd k1 k2 r1 r2 a H1 H2 Ha1 Ha2.
  apply list_lookup_insert_Some in H1 as [(<- & <- & _)|[Hk1 H1]];
    apply list_lookup_insert_Some in H2 as [(<- & <- & _)|[Hk2 H2]]; eauto.
Qed.

(** The region lies entirely outside the range: the test with which the code
    skips a slot. *)
Definition rg_clear (start stop : Z) (r : mem_region) : Prop :=
  rg_valid r = true → stop ≤ rg_addr r ∨ rg_addr r + rg_size r ≤ start.
Definition table_clear (start stop : Z) (rs : list mem_region) : Prop :=
  ∀ k r, rs !! k = Some r → rg_clear start stop r.

(** What one iteration of [remove_region] achieves on the table [rs]. *)
Record slot_removed (start stop : Z) (i : nat) (rs rs' : list mem_region) : Prop := {
  sr_ok : table_ok rs';
  sr_disj : regions_disj rs';
  sr_sub : ∀ a, table_in rs' a → table_in rs a;
  sr_clean : ∀ k r, rs' !! k = Some r → rg_clear start stop r ∨ (k ≠ i ∧ rs !! k = Some r);
  sr_keep : has_free_slot rs ∨ table_clear start stop rs →
            ∀ a, table_in rs a → ¬ (start ≤ a < stop) → table_in rs' a;
  sr_slot : has_free_slot rs ∨ table_clear start stop rs →
            has_free_slot rs' ∨ table_clear start stop rs'
}.

(** Replacing the slot by the part of its region outside the range. *)
Lemma slot_removed_shrink start stop i rs r r' :
  table_ok rs → regions_disj rs → rs !! i = Some r →
  region_ok r' → rg_valid r = true → rg_clear start stop r' →
  (∀ a, rg_in r' a ↔ rg_in r a ∧ ¬ (start ≤ a < stop)) →
  slot_removed start stop i rs (<[i := r']> rs).
Proof.
  intros [Hlen Hok] Hd Hi Hr' Hv Hcl Hin. pose proof (lookup_lt_Some _ _ _ Hi) as Hlt. split.
  - split; [by rewrite length_insert|]. by apply Forall_insert.
  - eapply shrink_slot_disj; [done| |done]. intros a Ha. by apply Hin in Ha as [? _].
  - intros a (k & rk & Hk & Ha).
    apply list_lookup_insert_Some in Hk as [(<- & <- & _)|[Hne Hk]]; [|by exists k, rk].
    exists i, r. by apply Hin in Ha as [? _].
  - intros k rk Hk.
    apply list_lookup_insert_Some in Hk as [(<- & <- & _)|[Hne Hk]]; [by left|by right].
  - intros _ a (k & rk & Hk & Ha) Hr. destruct (decide (k = i)) as [->|Hne].
    + exists i, r'. rewrite list_lookup_insert_eq, Hin by done.
      assert (rk = r) as <- by congruence. done.
    + exists k, rk. by rewrite list_lookup_insert_ne.
  - intros [(j & rj & Hj & Hvj)|Hall]; [left; exists j, rj|right].
    + rewrite list_lookup_insert_ne; [done|]. intros ->. congruence.
    + intros k rk Hk.
      apply list_lookup_insert_Some in Hk as [(<- & <- & _)|[Hne Hk]]; [done|by eapply Hall].
Qed.

(** Splitting the region of slot [i] around the range, the right part going to
    the unused slot [j], or nowhere when every slot is in use. *)
Section split_slot.
Context (start stop : Z) (i : nat) (rs : list mem_region) (r : mem_region).
Hypothesis Htab : table_ok rs.
Hypothesis Hd : regions_disj rs.
Hypothesis Hi : rs !! i = Some r.
Hypothesis Hv : rg_valid r = true.
Hypothesis Hstart : rg_addr r < start.
Hypothesis Hle : start ≤ stop.
Hypothesis Hstop : stop < rg_addr r + rg_size r.
Hypothesis Hsm : start mod PAGE_SIZE = 0.
Hypothesis Htm : stop mod PAGE_SIZE = 0.

Let rl := MemRegion (rg_addr r) (start - rg_addr r) true.
Let rr := MemRegion stop (rg_addr r + rg_size r - stop) true.

Lemma split_ok : region_ok r ∧ region_ok rl ∧ region_ok rr.
Proof.
  destruct Htab as [_ Hok]. pose proof (Forall_lookup_1 _ _ _ _ Hok Hi) as Hr.
  split; [done|]. destruct (Hr Hv) as (? & ? & ? & ? & ?).
  split; intros _; simpl; dlia.
Qed.

Lemma split_in_l a : rg_in rl a ↔ rg_in r a ∧ a < start.
Proof. unfold rg_in. simpl. rewrite Hv. lia. Qed.
Lemma split_in_r a : rg_in rr a ↔ rg_in r a ∧ stop ≤ a.
Proof. unfold rg_in. simpl. rewrite Hv. lia. Qed.

(** The owner of an address after the split, found from the side of the
    range it lies on. *)
Lemma split_owner j k rk :
  <[j := rr]> (<[i := rl]> rs) !! k = Some rk →
  (k = j ∧ rk = rr) ∨ (k = i ∧ rk = rl) ∨
  (k ≠ i ∧ k ≠ j ∧ rs !! k = Some rk ∧ (∀ a, rg_in rk a → ¬ rg_in r a)).
Proof.
  intros Hk. apply list_lookup_insert_Some in Hk as [(<- & <- & _)|[Hnej Hk]]; [by left|].
  apply list_lookup_insert_Some in Hk as [(<- & <- & _)|[Hnei Hk]]; right; [by left|].
  right. repeat split; try done. intros a Ha Hra. apply Hnei. by eapply Hd.
Qed.

(** The regions that do not meet the split one do not meet the range. *)
Lemma split_other_clear k rk :
  rs !! k = Some rk → (∀ a, rg_in rk a → ¬ rg_in r a) → rg_clear start stop rk.
Proof.
  intros Hk Hno Hvk. destruct Htab as [_ Hok].
  destruct (Forall_lookup_1 _ _ _ _ Hok Hk Hvk) as (? & ? & ? & ? & ?).
  pose proof (Hno (rg_addr rk)) as Hp. pose proof (Hno (rg_addr r)) as Hq.
  unfold rg_in in *. rewrite Hv, Hvk in *. lia.
Qed.

Lemma split_clear_l : rg_clear start stop rl.
Proof. intros _. simpl. lia. Qed.
Lemma split_clear_r : rg_clear start stop rr.
Proof. intros _. simpl. lia. Qed.

Lemma split_clear j : table_clear start stop (<[j := rr]> (<[i := rl]> rs)).
Proof.
  intros k rk Hk. apply split_owner in Hk as [[-> ->]|[[-> ->]|(_ & _ & Hk & Hno)]].
  - apply split_clear_r.
  - apply split_clear_l.
  - by eapply split_other_clear.
Qed.

Lemma split_into_disj j : j ≠ i → regions_disj (<[j := rr]> (<[i := rl]> rs)).
Proof.
  intros Hji k1 k2 r1 r2 a H1 H2 Ha1 Ha2.
  apply split_owner in H1 as [[-> ->]|[[-> ->]|(Hi1 & Hj1 & E1 & Hn1)]];
    apply split_owner in H2 as [[-> ->]|[[-> ->]|(Hi2 & Hj2 & E2 & Hn2)]];
    rewrite ?split_in_l, ?split_in_r in *; try done; try lia; try naive_solver.
Qed.

Lemma slot_removed_split_into j rj :
  rs !! j = Some rj → rg_valid rj = false →
  slot_removed start stop i rs (<[j := rr]> (<[i := rl]> rs)).
Proof.
  intros Hj Hvj. destruct Htab as [Hlen Hok]. destruct split_ok as (Hr & Hrl & Hrr).
  assert (j ≠ i) as Hji by (intros ->; congruence).
  pose proof (lookup_lt_Some _ _ _ Hi). pose proof (lookup_lt_Some _ _ _ Hj). split.
  - split; [by rewrite !length_insert|]. by repeat apply Forall_insert.
  - by apply split_into_disj.
  - intros a (k & rk & Hk & Ha).
    apply split_owner in Hk as [[-> ->]|[[-> ->]|(_ & _ & Hk & _)]]; [| |by exists k, rk].
    + exists i, r. by apply split_in_r in Ha as [? _].
    + exists i, r. by apply split_in_l in Ha as [? _].
  - intros k rk Hk. left. by eapply split_clear.
  - intros _ a (k & rk & Hk & Ha) Hrg. destruct (decide (k = i)) as [->|Hki].
    + assert (rk = r) as -> by congruence. destruct (decide (a < start)).
      * exists i, rl. rewrite list_lookup_insert_ne, list_lookup_insert_eq by done.
        by rewrite split_in_l.
      * exists j, rr. rewrite list_lookup_insert_eq by (by rewrite length_insert).
        rewrite split_in_r. auto with lia.
    + exists k, rk. destruct Ha as [Hva Ha].
      by rewrite !list_lookup_insert_ne by congruence.
  - intros _. right. apply split_clear.
Qed.

Lemma slot_removed_split_lost :
  ¬ has_free_slot rs → slot_removed start stop i rs (<[i := rl]> rs).
Proof.
  intros Hnofree. destruct Htab as [Hlen Hok]. destruct split_ok as (Hr & Hrl & Hrr).
  assert (¬ table_clear start stop rs) as Hncl.
  { intros Hcl. destruct (Hcl i r Hi Hv); lia. }
  split; [| | | |tauto|tauto].
  - split; [by rewrite length_insert|]. by apply Forall_insert.
  - eapply shrink_slot_disj; [done| |done]. intros a Ha. by apply split_in_l in Ha as [? _].
  - intros a (k & rk & Hk & Ha).
    apply list_lookup_insert_Some in Hk as [(<- & <- & _)|[Hki Hk]]; [|by exists k, rk].
    exists i, r. by apply split_in_l in Ha as [? _].
  - intros k rk Hk.
    apply list_lookup_insert_Some in Hk as [(<- & <- & _)|[Hki Hk]]; [|by right].
    left. apply split_clear_l.
Qed.

Lemma slot_removed_split :
  slot_removed start stop i rs
    (match list_find (λ r, rg_valid r = false) (<[i := rl]> rs) with
     | Some (j, _) => <[j := rr]> (<[i := rl]> rs)
     | None => <[i := rl]> rs
     end).
Proof.
  destruct (list_find _ _) as [[j rj]|] eqn:Hfind.
  - apply list_find_Some in Hfind as (Hj & Hvj & _).
    apply list_lookup_insert_Some in Hj as [(_ & <- & _)|[_ Hj]]; [done|].
    by eapply slot_removed_split_into.
  - apply slot_removed_split_lost. intros (k & rk & Hk & Hvk).
    destruct (decide (k = i)) as [->|Hki]; [congruence|].
    apply list_find_None in Hfind. eapply (Forall_lookup_1 _ _ k rk) in Hfind; [done|].
    by rewrite list_lookup_insert_ne.
Qed.
End split_slot.

Lemma slot_removed_refl start stop i rs :
  table_ok rs → regions_disj rs →
  (∀ r, rs !! i = Some r → rg_clear start stop r) →
  slot_removed start stop i rs rs.
Proof.
  intros Htab Hd Hi. split; try done.
  intros k r Hk. destruct (decide (k = i)) as [->|Hne]; [left; by apply Hi|by right].
Qed.

Lemma remove_slot_spec start stop i rs :
  table_ok rs → regions_disj rs → (i < Z.to_nat MAX_REGIONS)%nat →
  0 ≤ start ≤ stop → stop < 2 ^ 64 → start mod PAGE_SIZE = 0 → stop mod PAGE_SIZE = 0 →
  slot_removed start stop i rs (remove_slot start stop i rs).
Proof.
  intros Htab Hd Hlt Hs0 Hst Hsm Htm. pose proof Htab as [Hlen Hok].
  destruct (lookup_lt_is_Some_2 rs i) as [r Hi]; [lia|].
  pose proof (Forall_lookup_1 _ _ _ _ Hok Hi) as Hr.
  unfold remove_slot. rewrite (list_lookup_total_correct _ _ _ Hi).
  destruct (rg_valid r) eqn:Hv; cbn [negb].
  2: { apply slot_removed_refl; [done|done|]. intros r' Hi' Hv'. congruence. }
  destruct (Hr Hv) as (Ha0 & Ham & Hz0 & Hzm & Hend). rewrite u64_small by lia.
  repeat case_bool; bool_prop.
  1: { apply slot_removed_refl; [done|done|]. intros r' Hi' Hv'.
       assert (r' = r) as -> by congruence.
       apply orb_true_iff in Heqb as [?|?]; bool_prop; lia. }
  1-3: rewrite ?u64_small by lia; apply (slot_removed_shrink _ _ _ _ r);
       first [done | unfold rg_clear; simpl; lia
             | intros a; unfold rg_in; simpl; rewrite Hv; lia
             | intros ?; simpl in *; dlia].
  apply andb_false_iff in Heqb0, Heqb1, Heqb2.
  assert (rg_addr r < start ∧ stop < rg_addr r + rg_size r) as [? ?].
  { destruct Heqb0, Heqb1, Heqb2; bool_prop; lia. }
  rewrite !u64_small by lia.
  pose proof (slot_removed_split start stop i rs r) as H'.
  destruct (list_find _ _) as [[j rj]|]; [rewrite add_pure_aligned by (lia || dlia)|];
    apply H'; done || lia.
Qed.

(** The loop of [remove_region] over all slots. *)
Lemma remove_loop_spec start stop st :
  table_ok (usable_regions st) → regions_disj (usable_regions st) →
  0 ≤ start ≤ stop → stop < 2 ^ 64 → start mod PAGE_SIZE = 0 → stop mod PAGE_SIZE = 0 →
  wp (for_each (seqZ 0 MAX_REGIONS) (remove_from_slot start stop)) st (λ _ st',
    let rs := usable_regions st in
    let rs' := usable_regions st' in
    st' = set_regions rs' st ∧ table_ok rs' ∧ regions_disj rs' ∧
    (∀ a, table_in rs' a → table_in rs a) ∧ table_clear start stop rs' ∧
    (has_free_slot rs → ∀ a, table_in rs a → ¬ (start ≤ a < stop) → table_in rs' a)).
Proof.
  intros Htab Hd Hs Ht Hsm Htm.
  eapply wp_mono; [apply (wp_for_each (λ done rest s,
    let rs := usable_regions st in
    let rs' := usable_regions s in
    s = set_regions rs' st ∧ table_ok rs' ∧ regions_disj rs' ∧
    (∀ a, table_in rs' a → table_in rs a) ∧
    (∀ k r, rs' !! k = Some r → rg_clear start stop r ∨ (length done ≤ k)%nat) ∧
    (has_free_slot rs → (has_free_slot rs' ∨ table_clear start stop rs') ∧
      ∀ a, table_in rs a → ¬ (start ≤ a < stop) → table_in rs' a)))|].
  - cbn. rewrite set_regions_id. split_and!; try done; [|by auto].
    intros k r _. right. lia.
  - intros done i rest s Hl (Hst & Htab' & Hd' & Hsub & Hcl & Hkeep).
    destruct (seqZ_split_index _ _ _ _ _ Hl) as [-> Hlt]. rewrite Z.add_0_l in *.
    eapply wp_of_eq; [apply remove_from_slot_pure, Htab'|]. rewrite Nat2Z.id. cbn.
    destruct (remove_slot_spec start stop (length done) (usable_regions s))
      as [Hok1 Hd1 Hsub1 Hcl1 Hkeep1 Hslot1]; try done; [lia|].
    split_and!; try done.
    + by rewrite Hst.
    + intros a Ha. by apply Hsub, Hsub1.
    + intros k r Hk. destruct (Hcl1 k r Hk) as [?|[Hne Hk']]; [by left|].
      destruct (Hcl k r Hk') as [?|?]; [by left|right]. rewrite length_app. simpl. lia.
    + intros Hf. destruct (Hkeep Hf) as [Hslot Hk]. split; [by apply Hslot1|].
      intros a Ha Hr. apply Hkeep1; auto.
  - cbn. intros _ s' (Hst & Htab' & Hd' & Hsub & Hcl & Hkeep). split_and!; try done.
    + intros k r Hk. destruct (Hcl k r Hk) as [?|Hlen]; [done|].
      apply lookup_lt_Some in Hk. destruct Htab' as [Hlen' _]. rewrite length_seqZ in Hlen. lia.
    + intros Hf. by apply Hkeep.
Qed.

(** A frame overlaps the byte range [lo, hi). *)
Definition frame_overlaps (lo hi f : Z) : Prop := lo < f + PAGE_SIZE ∧ f < hi.

Lemma frames_inv_regions st :
  free_frames st = INVALID_FRAME_ADDR → table_ok (usable_regions st) →
  regions_disj (usable_regions st) → frames_inv st (regions_frames (usable_regions st)).
Proof.
  intros Hf Htab Hd. exists []. split; [done|]. split; [done|]. split; [done|].
  destruct Htab as [_ Hok]. split; [by apply regions_disj_NoDup|by apply regions_frames_ok].
Qed.

Lemma frames_inv_regions_inv st p :
  free_frames st = INVALID_FRAME_ADDR → frames_inv st p →
  p = regions_frames (usable_regions st) ∧ table_ok (usable_regions st) ∧
  regions_disj (usable_regions st).
Proof.
  intros Hf (l & Hl & Htab & Hp & Hnd & Hok). destruct l as [|x l].
  - split; [done|]. split; [done|]. subst p. destruct Htab. by apply NoDup_regions_disj.
  - exfalso. destruct Hl as [Hx _]. rewrite Hp in Hok. apply Forall_cons_1 in Hok as [Hok _].
    apply frame_ok_valid in Hok. congruence.
Qed.

Lemma remove_region_spec st p start stop :
  frames_inv st p → free_frames st = INVALID_FRAME_ADDR →
  0 ≤ start ≤ stop → stop + PAGE_SIZE - 1 < 2 ^ 64 →
  wp (remove_region start stop) st (λ _ st', ∃ p',
    st' = set_regions (usable_regions st') st ∧ frames_inv st' p' ∧
    (∀ f, f ∈ p' → f ∈ p ∧ ¬ frame_overlaps start stop f) ∧
    (has_free_slot (usable_regions st) →
     ∀ f, f ∈ p → ¬ (page_down start ≤ f < page_up stop) → f ∈ p')).
Proof.
  intros Hinv Hff Hs Ht.
  apply frames_inv_regions_inv in Hinv as (-> & Htab & Hd); [|done].
  unfold remove_region. rewrite page_down_spec, page_up_spec by lia.
  eapply wp_mono; [apply remove_loop_spec; try done; dlia|].
  cbn. intros _ st' (Hst & Htab' & Hd' & Hsub & Hcl & Hkeep).
  exists (regions_frames (usable_regions st')). split; [done|].
  split; [apply frames_inv_regions; [by rewrite Hst|done|done]|].
  destruct Htab as [_ Hok]. pose proof Htab' as [_ Hok'].
  setoid_rewrite elem_of_frames_table; try done. split.
  - intros f [Hf Hm]. split; [auto|]. unfold frame_overlaps.
    destruct Hf as (k & r & Hk & Hv & Hf).
    pose proof (Forall_lookup_1 _ _ _ _ Hok' Hk Hv). destruct (Hcl k r Hk Hv); dlia.
  - intros Hslot f [Hf Hm] Hr. split; [|done]. by apply Hkeep.
Qed.

(** C39: [remove_region] takes out of the pool every frame that overlaps
    the range and adds none; while a slot of the table is unused, it keeps
    every frame outside the page-aligned hull of the range. *)
Theorem remove_region_correct st p start stop :
  frames_inv st p → free_frames st = INVALID_FRAME_ADDR →
  0 ≤ start ≤ stop → stop + PAGE_SIZE - 1 < 2 ^ 64 →
  ∃ st' p', remove_region start stop st = Ret (tt, st') ∧ frames_inv st' p' ∧
    (∀ f, f ∈ p' → f ∈ p ∧ ¬ frame_overlaps start stop f) ∧
    (has_free_slot (usable_regions st) →
     ∀ f, f ∈ p → ¬ (page_down start ≤ f < page_up stop) → f ∈ p').
Proof.
  intros H1 H2 H3 H4.
  destruct (proj1 (wp_iff _ _ _) (remove_region_spec st p start stop H1 H2 H3 H4))
    as ([] & st' & E & p' & _ & H). eauto.
Qed.

(** ** Parsing the multiboot information *)

Section mboot.
Context (m : mem).

Definition sect_start (tag i : Z) : Z := rd64 m (tag + 20 + i * 64 + 16).
Definition sect_end (tag i : Z) : Z := sect_start tag i + rd64 m (tag + 20 + i * 64 + 32).
Definition sect_count (tag : Z) : Z := rd32 m (tag + 8).

(** The section headers describe ranges of the address space. *)
Definition sections_ok (tag : Z) : Prop :=
  ∀ i, 0 ≤ i < sect_count tag → sect_end tag i + PAGE_SIZE - 1 < 2 ^ 64.

Lemma parse_elf_tag_spec st p tag :
  pmem st = m → frames_inv st p → free_frames st = INVALID_FRAME_ADDR → sections_ok tag →
  wp (parse_elf_tag tag) st (λ _ st', ∃ p',
    st' = set_regions (usable_regions st') st ∧ frames_inv st' p' ∧
    (∀ f, f ∈ p' → f ∈ p ∧
      ∀ i, 0 ≤ i < sect_count tag → ¬ frame_overlaps (sect_start tag i) (sect_end tag i) f)).
Proof.
  intros Hm Hinv Hff Hsec. unfold parse_elf_tag, load32, load64. wp_steps. rewrite Hm.
  fold (sect_count tag).
  eapply wp_mono; [apply (wp_for_each (λ done rest s, ∃ p',
    s = set_regions (usable_regions s) st ∧ frames_inv s p' ∧
    (∀ f, f ∈ p' → f ∈ p ∧
      ∀ i, i ∈ done → ¬ frame_overlaps (sect_start tag i) (sect_end tag i) f)))|].
  - exists p. rewrite set_regions_id. split_and!; try done. intros f Hf. split; [done|].
    by intros i ?%elem_of_nil.
  - intros done i rest s Hl (p' & Hst & Hinv' & Hsub). wp_steps.
    destruct (seqZ_split_index _ _ _ _ _ Hl) as [_ Hi].
    assert (pmem s = m) as -> by (by rewrite Hst).
    specialize (Hsec i Hi). unfold sect_end, sect_start in *.
    pose proof (rd64_range m (tag + 20 + i * 64 + 16)).
    pose proof (rd64_range m (tag + 20 + i * 64 + 32)).
    rewrite u64_small by lia.
    eapply wp_mono; [apply (remove_region_spec s p'); try done; [by rewrite Hst|lia]|].
    cbn. intros _ s' (p'' & Hst' & Hinv'' & Hsub' & _). exists p''. split_and!; try done.
    { by rewrite Hst', Hst. }
    intros f Hf. apply Hsub' in Hf as [Hf Hno]. apply Hsub in Hf as [Hf Hall].
    split; [done|]. intros j [Hj|Hj%list_elem_of_singleton]%elem_of_app; [by apply Hall|by subst j].
  - cbn. intros _ s' (p' & Hst & Hinv' & Hsub). exists p'. split_and!; try done.
    intros f Hf. destruct (Hsub f Hf) as [? Hall]. split; [done|].
    intros i Hi. apply Hall. apply elem_of_seqZ. lia.
Qed.

Definition ent_addr (tag i : Z) : Z := rd64 m (tag + 16 + i * 24).
Definition ent_size (tag i : Z) : Z := rd64 m (tag + 16 + i * 24 + 8).
Definition ent_type (tag i : Z) : Z := rd32 m (tag + 16 + i * 24 + 16).
Definition ent_count (tag : Z) : Z :=
  i32 (u64 (rd32 m (tag + 4) - 16) / rd32 m (tag + 8)).

(** The usable entries of the memory map lie in the physical address space
    and do not overlap. *)
Definition mmap_ok (tag : Z) : Prop :=
  rd32 m (tag + 8) ≠ 0 ∧
  (∀ i, 0 ≤ i < ent_count tag → ent_type tag i = REGION_OS_USE →
     ent_addr tag i + ent_size tag i ≤ 2 ^ 52) ∧
  (∀ i j, 0 ≤ i < ent_count tag → 0 ≤ j < ent_count tag → i ≠ j →
     ent_type tag i = REGION_OS_USE → ent_type tag j = REGION_OS_USE →
     ent_addr tag i + ent_size tag i ≤ ent_addr tag j ∨
     ent_addr tag j + ent_size tag j ≤ ent_addr tag i).

(** Byte [a] lies in a page that entry [i] covers completely. *)
Definition ent_page (tag i a : Z) : Prop :=
  ent_type tag i = REGION_OS_USE ∧
  ent_addr tag i ≤ a / PAGE_SIZE * PAGE_SIZE ∧
  a / PAGE_SIZE * PAGE_SIZE + PAGE_SIZE ≤ ent_addr tag i + ent_size tag i.

(** The table after the entries [done] of the memory map: slot [k] is the
    page-aligned interior of entry [k]. *)
Definition mmap_table (tag : Z) (n : nat) (rs : list mem_region) : Prop :=
  table_ok rs ∧
  (∀ k r, rs !! k = Some r → rg_valid r = true → (k < n)%nat) ∧
  (∀ k r a, rs !! k = Some r →
     rg_in r a ↔ (k < n)%nat ∧ ent_page tag (Z.of_nat k) a).

Lemma mmap_table_skip tag n rs :
  mmap_table tag n rs → (∀ a, (n < Z.to_nat MAX_REGIONS)%nat → ¬ ent_page tag (Z.of_nat n) a) →
  mmap_table tag (S n) rs.
Proof.
  intros (Htab & Hv & Hin) Hno. split; [done|]. split.
  - intros k r Hk Hvk. specialize (Hv k r Hk Hvk). lia.
  - intros k r a Hk. rewrite (Hin k r a Hk). split; [intros []; auto with lia|].
    intros [Hkn Hp]. split; [|done]. destruct (decide (k = n)) as [->|]; [|lia].
    exfalso. apply (Hno a); [|done]. destruct Htab as [<- _]. by eapply lookup_lt_Some.
Qed.

Lemma add_entry_spec st tag n :
  pmem st = m → mmap_table tag n (usable_regions st) →
  ent_type tag (Z.of_nat n) = REGION_OS_USE →
  ent_addr tag (Z.of_nat n) + ent_size tag (Z.of_nat n) ≤ 2 ^ 52 →
  wp (add_usable_region (ent_addr tag (Z.of_nat n)) (ent_size tag (Z.of_nat n)) (Z.of_nat n)) st
    (λ _ st', st' = set_regions (usable_regions st') st ∧
              mmap_table tag (S n) (usable_regions st')).
Proof.
  intros Hm Ht Hty Hb. unfold add_usable_region.
  pose proof (rd64_range m (tag + 16 + Z.of_nat n * 24)) as H1.
  pose proof (rd64_range m (tag + 16 + Z.of_nat n * 24 + 8)) as H2.
  fold (ent_addr tag (Z.of_nat n)) in H1. fold (ent_size tag (Z.of_nat n)) in H2.
  rewrite page_up_spec, (u64_small (_ + _)), page_down_spec by lia.
  case_bool; bool_prop; [|case_bool; bool_prop].
  - apply wp_ret. split; [by rewrite set_regions_id|]. apply mmap_table_skip; [done|].
    intros a _ (_ & Hp1 & Hp2). dlia.
  - apply wp_ret. split; [by rewrite set_regions_id|]. apply mmap_table_skip; [done|]. lia.
  - unfold set_region. apply wp_modify. split; [done|]. cbn. rewrite Nat2Z.id.
    rewrite u64_small by dlia. destruct Ht as ([Hlen Hok] & Hv & Hin). split_and!.
    + split; [by rewrite length_insert|]. apply Forall_insert; [done|].
      intros _. simpl. dlia.
    + intros k r Hk Hvk.
      apply list_lookup_insert_Some in Hk as [(<- & <- & _)|[Hne Hk]]; [lia|].
      specialize (Hv k r Hk Hvk). lia.
    + intros k r a Hk. apply list_lookup_insert_Some in Hk as [(<- & <- & _)|[Hne Hk]].
      * unfold rg_in, ent_page. simpl. rewrite Hty.
        split; [intros [_ ?]|intros (_ & _ & ?)]; (split_and!; [done || lia|done || dlia|..]); dlia.
      * rewrite (Hin k r a Hk). split; intros []; auto with lia.
Qed.

Lemma mmap_table_disj tag rs :
  mmap_ok tag → mmap_table tag (Z.to_nat (ent_count tag)) rs → regions_disj rs.
Proof.
  intros (_ & _ & Hdis) (_ & _ & Hin) i j ri rj a Hi Hj Hai Haj.
  apply (Hin i ri a Hi) in Hai as (Hin1 & Ht1 & Hp1 & Hq1).
  apply (Hin j rj a Hj) in Haj as (Hin2 & Ht2 & Hp2 & Hq2).
  destruct (decide (i = j)) as [|Hne]; [done|].
  destruct (Hdis (Z.of_nat i) (Z.of_nat j)); try done; lia.
Qed.

(** An allocator without frames has a table without valid regions. *)
Lemma mmap_table_init st tag :
  free_frames st = INVALID_FRAME_ADDR → frames_inv st [] →
  mmap_table tag 0 (usable_regions st).
Proof.
  intros Hff Hinv. apply frames_inv_regions_inv in Hinv as (Hp & [Hlen Hok] & _); [|done].
  assert (∀ k r, usable_regions st !! k = Some r → rg_valid r = false) as Hnov.
  { intros k r Hk. destruct (rg_valid r) eqn:Hv; [|done].
    destruct (Forall_lookup_1 _ _ _ _ Hok Hk Hv) as (? & ? & ? & ? & ?).
    assert (rg_addr r ∈ regions_frames (usable_regions st)) as Hin.
    { apply elem_of_frames_table; [done|]. split; [|done].
      exists k, r. split; [done|]. split; [done|lia]. }
    rewrite <-Hp in Hin. by apply elem_of_nil in Hin. }
  split; [done|]. split.
  - intros k r Hk Hv. rewrite (Hnov k r Hk) in Hv. done.
  - intros k r a Hk. split; [|lia]. intros [Hv _]. rewrite (Hnov k r Hk) in Hv. done.
Qed.

Lemma mmap_table_frames tag rs f :
  mmap_table tag (Z.to_nat (ent_count tag)) rs →
  f ∈ regions_frames rs ↔ f mod PAGE_SIZE = 0 ∧
    ∃ i, 0 ≤ i < ent_count tag `min` MAX_REGIONS ∧ ent_page tag i f.
Proof.
  intros ([Hlen Hok] & _ & Hin). rewrite elem_of_frames_table by done. split.
  - intros [(k & r & Hk & Ha) Hmod]. split; [done|]. exists (Z.of_nat k).
    apply (Hin k r f Hk) in Ha as [Hn Hp]. split; [|done].
    apply lookup_lt_Some in Hk. lia.
  - intros (Hmod & i & Hi & Hp). split; [|done].
    destruct (lookup_lt_is_Some_2 rs (Z.to_nat i)) as [r Hr]; [lia|].
    exists (Z.to_nat i), r. split; [done|]. apply (Hin _ _ _ Hr).
    rewrite Z2Nat.id by lia. split; [lia|done].
Qed.

Lemma parse_mmap_tag_spec st tag :
  pmem st = m → free_frames st = INVALID_FRAME_ADDR → frames_inv st [] → mmap_ok tag →
  wp (parse_mmap_tag tag) st (λ _ st', ∃ p,
    st' = set_regions (usable_regions st') st ∧ frames_inv st' p ∧
    ∀ f, f ∈ p ↔ f mod PAGE_SIZE = 0 ∧
      ∃ i, 0 ≤ i < ent_count tag `min` MAX_REGIONS ∧ ent_page tag i f).
Proof.
  intros Hm Hff Hinv Hmm. pose proof Hmm as (Hes & Hb & _).
  unfold parse_mmap_tag, load32, load64. wp_steps. rewrite Hm.
  rewrite (proj2 (Z.eqb_neq _ 0)) by done. fold (ent_count tag).
  eapply wp_mono; [apply (wp_for_each (λ done rest s,
    s = set_regions (usable_regions s) st ∧
    mmap_table tag (length done) (usable_regions s)))|].
  - rewrite set_regions_id. split; [done|]. by apply mmap_table_init.
  - intros done i rest s Hl (Hst & Ht).
    destruct (seqZ_split_index _ _ _ _ _ Hl) as [-> Hi]. rewrite !Z.add_0_l in *.
    assert (pmem s = m) as Hms by (by rewrite Hst).
    rewrite length_app, Nat.add_1_r. wp_steps. rewrite Hms.
    fold (ent_type tag (Z.of_nat (length done))). case_bool; bool_prop.
    + wp_steps. rewrite Hms.
      eapply wp_mono; [apply add_entry_spec; auto|].
      cbn. intros _ s' [Hst' Ht']. split; [by rewrite Hst', Hst|done].
    + apply wp_ret. split; [done|]. apply mmap_table_skip; [done|].
      intros a _ (Hty & _). done.
  - cbn. intros _ s' (Hst & Ht). rewrite length_seqZ in Ht.
    exists (regions_frames (usable_regions s')). split; [done|]. split.
    + apply frames_inv_regions; [by rewrite Hst|apply Ht|by eapply mmap_table_disj].
    + intros f. by apply mmap_table_frames.
Qed.
End mboot.

(** The tags (type and address) found from [a] up to [stop]. *)
Fixpoint tag_seq (m : mem) (a stop : Z) (ts : list (Z * Z)) : Prop :=
  match ts with
  | [] => stop ≤ a
  | (ty, t) :: ts =>
      a < stop ∧ t = a ∧ ty = rd32 m a ∧ tag_seq m (next_tag a (rd32 m (a + 4))) stop ts
  end.

(** A tag the parser skips. *)
Definition other_tag (tag : Z * Z) : Prop := tag.1 ≠ TAG_TYPE_MMAP ∧ tag.1 ≠ TAG_TYPE_ELF.

Lemma parse_tags_other st ts1 ts2 fuel a stop :
  tag_seq (pmem st) a stop (ts1 ++ ts2) → Forall other_tag ts1 →
  (length ts1 + length ts2 < fuel)%nat →
  ∃ fuel' a', (length ts2 < fuel')%nat ∧ tag_seq (pmem st) a' stop ts2 ∧
    parse_tags fuel a stop st = parse_tags fuel' a' stop st.
Proof.
  revert a fuel. induction ts1 as [|[ty t] ts1 IH]; intros a [|fuel] Ht Hoth Hf;
    simpl in Hf; try lia; [by exists (S fuel), a|].
  destruct Ht as (Hlt & -> & Hty & Ht). apply Forall_cons_1 in Hoth as [[H1 H2] Hoth].
  destruct (IH _ fuel Ht Hoth) as (fuel' & a' & Hf' & Ht' & E); [lia|].
  exists fuel', a'. split; [done|]. split; [done|]. rewrite <-E. cbn [parse_tags].
  rewrite (proj2 (Z.ltb_lt _ _)) by lia. unfold load32, gets, bind. cbn [negb].
  simpl in H1, H2. rewrite Hty in H1, H2.
  by rewrite (proj2 (Z.eqb_neq _ TAG_TYPE_MMAP)), (proj2 (Z.eqb_neq _ TAG_TYPE_ELF)) by done.
Qed.

Lemma parse_tags_done st ts fuel a stop :
  tag_seq (pmem st) a stop ts → Forall other_tag ts → (length ts < fuel)%nat →
  parse_tags fuel a stop st = Ret (tt, st).
Proof.
  intros Ht Hoth Hf. rewrite <-(app_nil_r ts) in Ht.
  destruct (parse_tags_other st ts [] fuel a stop Ht Hoth) as (fuel' & a' & Hf' & Ht' & ->).
  { simpl. lia. }
  simpl in Ht', Hf'. destruct fuel' as [|fuel']; [lia|]. cbn [parse_tags].
  by rewrite (proj2 (Z.ltb_ge _ _)) by lia.
Qed.

Lemma wp_parse_tags_skip st ts1 ts2 fuel a stop Q :
  tag_seq (pmem st) a stop (ts1 ++ ts2) → Forall other_tag ts1 →
  (length ts1 + length ts2 < fuel)%nat →
  (∀ fuel' a', (length ts2 < fuel')%nat → tag_seq (pmem st) a' stop ts2 →
     wp (parse_tags fuel' a' stop) st Q) →
  wp (parse_tags fuel a stop) st Q.
Proof.
  intros Ht Hoth Hf H.
  destruct (parse_tags_other st ts1 ts2 fuel a stop Ht Hoth Hf) as (f' & a' & Hf' & Ht' & E).
  unfold wp. rewrite E. by apply H.
Qed.

(** One iteration of the tag loop on a tag the parser handles. *)
Lemma wp_parse_tags_cons st fuel a stop ty t ts Q :
  tag_seq (pmem st) a stop ((ty, t) :: ts) → (length ts < fuel)%nat →
  wp (if ty =? TAG_TYPE_MMAP then parse_mmap_tag t
      else if ty =? TAG_TYPE_ELF then parse_elf_tag t else ret tt) st
     (λ _ st', pmem st' = pmem st ∧
        ∀ a', tag_seq (pmem st') a' stop ts → wp (parse_tags fuel a' stop) st' Q) →
  wp (parse_tags (S fuel) a stop) st Q.
Proof.
  intros (Hlt & -> & -> & Ht) Hf Hwp. cbn [parse_tags].
  rewrite (proj2 (Z.ltb_lt _ _)) by lia. cbn [negb]. unfold load32. wp_steps.
  eapply wp_mono; [exact Hwp|]. cbn. intros [] st' [Hm H]. apply H. by rewrite Hm.
Qed.

(** Only the region table changes, and the pool is the usable pages outside the sections. *)
Lemma parse_mboot_tags_spec st h pre mm mid el post fuel :
  let m := pmem st in
  let ts := pre ++ (TAG_TYPE_MMAP, mm) :: mid ++ (TAG_TYPE_ELF, el) :: post in
  free_frames st = INVALID_FRAME_ADDR → frames_inv st [] →
  tag_seq m (h + 8) (h + rd32 m h) ts →
  Forall other_tag (pre ++ mid ++ post) → mmap_ok m mm → sections_ok m el →
  (length ts < fuel)%nat →
  wp (parse_mboot_tags fuel h) st (λ _ st', st' = set_regions (usable_regions st') st ∧ ∃ p, frames_inv st' p ∧
    ∀ f, f ∈ p → (∃ i, 0 ≤ i < ent_count m mm ∧ ent_page m mm i f) ∧
      ∀ i, 0 ≤ i < sect_count m el →
        ¬ frame_overlaps (sect_start m el i) (sect_end m el i) f).
Proof.
  intros m ts Hff Hinv Hts Hoth Hmm Hsec Hf.
  rewrite !Forall_app in Hoth. destruct Hoth as (Hpre & Hmid & Hpost).
  unfold ts in Hf. rewrite length_app in Hf. cbn [length] in Hf.
  rewrite length_app in Hf. cbn [length] in Hf.
  unfold parse_mboot_tags, load32. wp_steps. fold m.
  eapply wp_parse_tags_skip; [exact Hts|done|cbn [length]; rewrite length_app; cbn [length]; lia|].
  cbn [length]. rewrite length_app. cbn [length]. intros [|f1] a1 Hf1 Ht1; [lia|].
  eapply wp_parse_tags_cons; [exact Ht1|rewrite length_app; cbn [length]; lia|]. cbn [Z.eqb Pos.eqb].
  eapply wp_mono; [by apply (parse_mmap_tag_spec m)|]. cbn. intros _ s1 (p1 & Hs1 & Hinv1 & Hp1).
  assert (pmem s1 = m) as Hm1 by (by rewrite Hs1). split; [done|]. intros a2 Ht2.
  eapply wp_parse_tags_skip; [exact Ht2|done|cbn [length]; lia|].
  cbn [length]. intros [|f3] a3 Hf3 Ht3; [lia|].
  eapply wp_parse_tags_cons; [exact Ht3|lia|]. cbn [Z.eqb Pos.eqb].
  eapply wp_mono; [apply (parse_elf_tag_spec m _ p1); try done; by rewrite Hs1|].
  cbn. intros _ s2 (p2 & Hs2 & Hinv2 & Hp2).
  split; [by rewrite Hs2|]. intros a4 Ht4.
  eapply wp_of_eq; [by eapply parse_tags_done; [exact Ht4|..]; try done; lia|].
  split; [by rewrite Hs2, Hs1|]. exists p2. split; [done|]. intros f Hf2. apply Hp2 in Hf2 as [Hf2 Hno]. split; [|done].
  apply Hp1 in Hf2 as (_ & i & Hi & Hpg). exists i. split; [lia|done].
Qed.


(** ** Concrete instances *)

Definition unused_region : mem_region := MemRegion 0 0 false.

(** A machine at boot: memory [m], a region table with the single entry [r]. *)
Definition boot_mst (m : mem) (r : mem_region) : mst :=
  Mst m (r :: replicate 63 unused_region) INVALID_FRAME_ADDR 0 0 0 0 false.

Lemma boot_mst_inv m r : region_ok r → frames_inv (boot_mst m r) (region_frames r).
Proof.
  intros Hr.
  assert (∀ k r', (r :: replicate 63 unused_region) !! k = Some r' →
            (k = 0%nat ∧ r' = r) ∨ r' = unused_region) as Hcases.
  { intros [|k] r' Hk; [left; naive_solver|right].
    by apply lookup_replicate_1 in Hk as [-> _]. }
  replace (region_frames r) with (regions_frames (r :: replicate 63 unused_region))
    by (rewrite regions_frames_cons; apply app_nil_r).
  apply (frames_inv_regions (boot_mst m r)); [done| |].
  - split; [done|]. apply Forall_cons. split; [done|]. by apply Forall_replicate.
  - intros i j ri rj a Hi Hj [Hvi _] [Hvj _].
    destruct (Hcases _ _ Hi) as [[-> ->]| ->], (Hcases _ _ Hj) as [[-> ->]| ->]; done.
Qed.

(** Five frames from 1 MiB on. *)
Definition five_frames : mst := boot_mst ∅ (MemRegion 0x100000 0x5000 true).

Lemma five_frames_inv :
  frames_inv five_frames [0x100000; 0x101000; 0x102000; 0x103000; 0x104000].
Proof. apply (boot_mst_inv ∅ (MemRegion 0x100000 0x5000 true)). by vm_compute. Qed.

Lemma MMU_pf_alloc_witness :
  ∃ f st', MMU_pf_alloc five_frames = Ret (f, st') ∧ pmem st' = ∅ ∧
    f = 0x100000 ∧ (f ∉ [0x101000; 0x102000; 0x103000; 0x104000]) ∧
    frames_inv st' [0x101000; 0x102000; 0x103000; 0x104000].
Proof. exact (MMU_pf_alloc_correct five_frames _ five_frames_inv). Defined.

Lemma MMU_pf_free_witness :
  ∃ st1 st2, MMU_pf_free 0x200000 five_frames = Ret (tt, st1) ∧
    frames_inv st1 [0x200000; 0x100000; 0x101000; 0x102000; 0x103000; 0x104000] ∧
    MMU_pf_alloc st1 = Ret (0x200000, st2) ∧
    frames_inv st2 [0x100000; 0x101000; 0x102000; 0x103000; 0x104000].
Proof.
  apply (MMU_pf_free_alloc five_frames _ 0x200000 five_frames_inv).
  - repeat split; done.
  - rewrite !not_elem_of_cons. repeat split; try lia. apply not_elem_of_nil.
Defined.

Lemma MMU_pf_free_count_witness : MMU_pf_free_count 10 five_frames = Ret (5, five_frames).
Proof. apply (MMU_pf_free_count_correct five_frames _ 10 five_frames_inv); simpl; lia. Defined.

Lemma frames_sequence_test_witness :
  ∃ st', frames_sequence_test five_frames =
    Ret ([0x100000; 0x101000; 0x102000; 0x101000; 0x103000; 0x100000], st') ∧
    frames_inv st' [0x100000; 0x103000; 0x101000; 0x102000; 0x104000].
Proof. exact (frames_sequence_test_correct five_frames _ _ _ _ _ five_frames_inv). Defined.

Lemma remove_region_witness :
  ∃ st' p', remove_region 0x101800 0x102001 five_frames = Ret (tt, st') ∧ frames_inv st' p' ∧
    (∀ f, f ∈ p' → f ∈ [0x100000; 0x101000; 0x102000; 0x103000; 0x104000] ∧
                   ¬ frame_overlaps 0x101800 0x102001 f) ∧
    (has_free_slot (usable_regions five_frames) →
     ∀ f, f ∈ [0x100000; 0x101000; 0x102000; 0x103000; 0x104000] →
          ¬ (page_down 0x101800 ≤ f < page_up 0x102001) → f ∈ p').
Proof. apply (remove_region_correct five_frames _ _ _ five_frames_inv); [done|lia|lia]. Defined.

(** A multiboot structure with one usable region of 16 KiB at 1 MiB and a
    kernel section in its second page; the two tags in either order. *)
Definition put_mmap_tag (a : Z) (m : mem) : mem :=
  wr32 (wr64 (wr64 (wr32 (wr32 (wr32 m a TAG_TYPE_MMAP) (a + 4) 40) (a + 8) 24)
    (a + 16) 0x100000) (a + 24) 0x4000) (a + 32) REGION_OS_USE.
Definition put_elf_tag (a : Z) (m : mem) : mem :=
  wr64 (wr64 (wr32 (wr32 (wr32 m a TAG_TYPE_ELF) (a + 4) 84) (a + 8) 1)
    (a + 36) 0x101000) (a + 52) 0x800.
Definition mboot_mem : mem := put_elf_tag 0x9030 (put_mmap_tag 0x9008 (wr32 ∅ 0x9000 136)).
Definition mboot_mem_swapped : mem := put_mmap_tag 0x9060 (put_elf_tag 0x9008 (wr32 ∅ 0x9000 136)).


(** The parser depends on the order of the tags: when the ELF tag precedes the
    memory map, the second frame handed out is the one that holds the kernel
    section. *)
Theorem parse_mboot_tags_order :
  match (parse_mboot_tags 5 0x9000 ;; MMU_pf_alloc ;; MMU_pf_alloc)
          (boot_mst mboot_mem_swapped unused_region) with
  | Ret (f, _) => frame_overlaps (sect_start mboot_mem_swapped 0x9008 0)
                                 (sect_end mboot_mem_swapped 0x9008 0) f
  | _ => False
  end.
Proof. vm_compute. split; reflexivity. Qed.
