(* ===== verification/Vpages.v ===== *)
(** * The virtual memory manager ([src/x86_64/memory/vpages.c]): definitions

    Page-table entries are 64-bit words in physical memory, read and written
    through the identity map (slot 0 of every P4); a bit-field assignment of the
    C code is a read-modify-write of the word.  [PageTree] gives the
    specification of the tables, and the files from [VpagesMap] on the theorems. *)

From S2P Require Import Prelude Memory Frames.

(** ** Bit fields *)

(** A bit field of [struct p1_entry] ... [struct p4_entry]: first bit and
    length.  The four levels agree on the fields the code uses. *)
Record bitfield := BitField { bf_lo : Z; bf_len : Z }.

Definition F_present := BitField 0 1.
Definition F_rw := BitField 1 1.
Definition F_us := BitField 2 1.
Definition F_big_page := BitField 7 1.
Definition F_allocated := BitField 9 1.
Definition F_demand := BitField 9 1.
Definition F_addr := BitField 12 40.

Definition get_bits (f : bitfield) (w : Z) : Z :=
  Z.land (Z.shiftr w (bf_lo f)) (Z.ones (bf_len f)).
Definition set_bits (f : bitfield) (w v : Z) : Z :=
  Z.lor (Z.ldiff w (Z.shiftl (Z.ones (bf_len f)) (bf_lo f)))
        (Z.shiftl (Z.land v (Z.ones (bf_len f))) (bf_lo f)).

(** [e->f] and [e->f = v] for the entry at address [e]. *)
Definition get_field (f : bitfield) (e : Z) : M mst Z :=
  w <- load64 e ;; ret (get_bits f w).
Definition set_field (f : bitfield) (e v : Z) : M mst unit :=
  w <- load64 e ;; store64 e (set_bits f w v).

(** ** Addresses *)

Abbreviation VA_PHYS_BASE := 0x000000000000 (only parsing).
Abbreviation VA_KHEAP_BASE := 0x010000000000.
Abbreviation VA_KSTACK_BASE := 0x0F0000000000.
Abbreviation VA_USER_BASE := 0x100000000000.
Abbreviation VA_USTACK_BASE := 0x110000000000.

Definition PML4_INDEX (va : Z) : Z := Z.land (Z.shiftr va 39) 0x1FF.
Definition PDP_INDEX (va : Z) : Z := Z.land (Z.shiftr va 30) 0x1FF.
Definition PD_INDEX (va : Z) : Z := Z.land (Z.shiftr va 21) 0x1FF.
Definition PT_INDEX (va : Z) : Z := Z.land (Z.shiftr va 12) 0x1FF.

Definition phys_to_pfn (phys_addr : Z) : Z := Z.shiftr phys_addr 12.
Definition pfn_to_phys (pfn : Z) : Z := u64 (Z.shiftl pfn 12).
Definition phys_to_virt (phys_addr : Z) : Z := VA_PHYS_BASE + phys_addr.

(** The addresses the linker gives to the static tables of the kernel. *)
Class KLayout := {
  ptable_p4 : Z;
  ptable_p3_identity : Z
}.

(** ** Interrupt flag and control registers *)

Definition are_interrupts_enabled : M mst bool := gets int_flag.
Definition CLI : M mst unit := modify (set_int_flag false).
Definition STI : M mst unit := modify (set_int_flag true).
(** [if (ints_enabled) { STI(); }]. *)
Definition restore_ints (ints_enabled : bool) : M mst unit :=
  if ints_enabled then STI else ret tt.

Definition MMU_get_kernel_p4 : M mst Z := gets kernel_cr3.
Definition MMU_current_p4 : M mst Z := gets cr3.
Definition MMU_switch_p4 (v : Z) : M mst unit := modify (set_cr3 v).

(** ** Walking and extending the tables *)

Definition b2z (b : bool) : Z := if b then 1 else 0.

Definition get_or_alloc_PDPT_entry (e4 : Z) (user : bool) : M mst Z :=
  let pdpt :=
    p3_addr <- get_field F_addr e4 ;;
    ret (phys_to_virt (pfn_to_phys p3_addr)) in
  present <- get_field F_present e4 ;;
  if present =? 0 then
    frame <- MMU_pf_alloc ;;
    if frame =? INVALID_FRAME_ADDR then ret INVALID_FRAME_ADDR else
    memset_at frame 0 PAGE_SIZE ;;
    set_field F_addr e4 (phys_to_pfn frame) ;;
    set_field F_present e4 1 ;;
    set_field F_rw e4 1 ;;
    set_field F_us e4 (b2z user) ;;
    set_field F_allocated e4 1 ;;
    pdpt
  else pdpt.

Definition get_or_alloc_PD_entry (e3 : Z) (user : bool) : M mst Z :=
  let pd :=
    p2_addr <- get_field F_addr e3 ;;
    ret (phys_to_virt (pfn_to_phys p2_addr)) in
  present <- get_field F_present e3 ;;
  if present =? 0 then
    frame <- MMU_pf_alloc ;;
    if frame =? INVALID_FRAME_ADDR then ret INVALID_FRAME_ADDR else
    memset_at frame 0 PAGE_SIZE ;;
    set_field F_addr e3 (phys_to_pfn frame) ;;
    set_field F_present e3 1 ;;
    set_field F_rw e3 1 ;;
    set_field F_us e3 (b2z user) ;;
    set_field F_big_page e3 0 ;;
    set_field F_allocated e3 1 ;;
    pd
  else pd.

Definition get_or_alloc_PT_entry (e2 : Z) (user : bool) : M mst Z :=
  let pt :=
    p1_addr <- get_field F_addr e2 ;;
    ret (phys_to_virt (pfn_to_phys p1_addr)) in
  present <- get_field F_present e2 ;;
  if present =? 0 then
    frame <- MMU_pf_alloc ;;
    if frame =? INVALID_FRAME_ADDR then ret INVALID_FRAME_ADDR else
    memset_at frame 0 PAGE_SIZE ;;
    set_field F_addr e2 (phys_to_pfn frame) ;;
    set_field F_present e2 1 ;;
    set_field F_rw e2 1 ;;
    set_field F_us e2 (b2z user) ;;
    set_field F_big_page e2 0 ;;
    set_field F_allocated e2 1 ;;
    pt
  else pt.

Abbreviation CREATE_MODE := true (only parsing).
Abbreviation WALK_MODE := false (only parsing).

(** The three stages of [travel_pagetable_in], innermost first: from a page
    directory, from a page-directory-pointer table, and from the P4. *)
Definition travel_p2 (pd va : Z) (create is_user : bool) : M mst Z :=
  let found pt := ret (pt + 8 * PT_INDEX va) in
  let e2 := pd + 8 * PD_INDEX va in
  present <- get_field F_present e2 ;;
  big_page <- get_field F_big_page e2 ;;
  if negb (present =? 0) && negb (big_page =? 0) then ret INVALID_FRAME_ADDR else
  if present =? 0 then
    if create then
      pt <- get_or_alloc_PT_entry e2 is_user ;;
      if pt =? INVALID_FRAME_ADDR then ret INVALID_FRAME_ADDR else found pt
    else ret INVALID_FRAME_ADDR
  else
    pt <- get_or_alloc_PT_entry e2 is_user ;;
    found pt.

Definition travel_p3 (pdpt va : Z) (create is_user : bool) : M mst Z :=
  let e3 := pdpt + 8 * PDP_INDEX va in
  present <- get_field F_present e3 ;;
  big_page <- get_field F_big_page e3 ;;
  if negb (present =? 0) && negb (big_page =? 0) then ret INVALID_FRAME_ADDR else
  if present =? 0 then
    if create then
      pd <- get_or_alloc_PD_entry e3 is_user ;;
      if pd =? INVALID_FRAME_ADDR then ret INVALID_FRAME_ADDR
      else travel_p2 pd va create is_user
    else ret INVALID_FRAME_ADDR
  else
    pd <- get_or_alloc_PD_entry e3 is_user ;;
    travel_p2 pd va create is_user.

Definition travel_pagetable_in (cr3 va : Z) (create : bool) : M mst Z :=
  let is_user := VA_USER_BASE <=? va in
  let curr_p4_table := phys_to_virt (page_down cr3) in
  let e4 := curr_p4_table + 8 * PML4_INDEX va in
  present <- get_field F_present e4 ;;
  if present =? 0 then
    if create then
      pdpt <- get_or_alloc_PDPT_entry e4 is_user ;;
      if pdpt =? INVALID_FRAME_ADDR then ret INVALID_FRAME_ADDR
      else travel_p3 pdpt va create is_user
    else ret INVALID_FRAME_ADDR
  else
    pdpt <- get_or_alloc_PDPT_entry e4 is_user ;;
    travel_p3 pdpt va create is_user.

Definition travel_pagetable (va : Z) (create : bool) : M mst Z :=
  cr3 <- MMU_current_p4 ;;
  travel_pagetable_in cr3 va create.

(** ** Reserving pages *)

Definition demand_page_in (cr3 va : Z) : M mst Z :=
  p1 <- travel_pagetable_in cr3 va CREATE_MODE ;;
  if p1 =? INVALID_FRAME_ADDR then ret (-1) else
  demand <- get_field F_demand p1 ;;
  present <- get_field F_present p1 ;;
  if negb (demand =? 0) || negb (present =? 0) then ret (-1) else
  set_field F_demand p1 1 ;;
  set_field F_present p1 0 ;;
  set_field F_addr p1 0 ;;
  ret 0.

Definition demand_page (va : Z) : M mst Z :=
  cr3 <- MMU_current_p4 ;;
  demand_page_in cr3 va.

Definition reserve_pages_at (cr3 vaddr size : Z) : M mst Z :=
  let base := page_down vaddr in
  let stop := page_down (u64 (vaddr + size + PAGE_SIZE - 1)) in
  let num_pages := i32 (u64 (stop - base) / PAGE_SIZE) in
  r <- for_ret (seqZ 0 num_pages) (λ i,
    e <- demand_page_in cr3 (u64 (base + i * PAGE_SIZE)) ;;
    ret (if e <? 0 then Some 0 else None)) ;;
  ret (default base r).

Definition reserve_pages_checked (cr3 vaddr size : Z) : M mst Z :=
  reserve_pages_at cr3 vaddr size.

Definition MMU_alloc_page : M mst Z :=
  ints_enabled <- are_interrupts_enabled ;;
  CLI ;;
  va <- gets kernel_va ;;
  e <- demand_page va ;;
  if e <? 0 then restore_ints ints_enabled ;; ret 0 else
  modify (set_kernel_va (u64 (va + PAGE_SIZE))) ;;
  restore_ints ints_enabled ;;
  ret va.

Definition MMU_alloc_pages (num : Z) : M mst Z :=
  ints_enabled <- are_interrupts_enabled ;;
  CLI ;;
  base <- gets kernel_va ;;
  r <- for_ret (seqZ 0 num) (λ i,
    e <- demand_page (u64 (base + i * PAGE_SIZE)) ;;
    ret (if e <? 0 then Some tt else None)) ;;
  match r with
  | Some _ => restore_ints ints_enabled ;; ret 0
  | None =>
      modify (set_kernel_va (u64 (base + u64 num * PAGE_SIZE))) ;;
      restore_ints ints_enabled ;;
      ret base
  end.

Definition MMU_alloc_at (vaddr size : Z) : M mst Z :=
  ints_enabled <- are_interrupts_enabled ;;
  CLI ;;
  cr3 <- MMU_current_p4 ;;
  base <- reserve_pages_checked cr3 vaddr size ;;
  restore_ints ints_enabled ;;
  ret base.

Definition MMU_alloc_at_as (cr3 vaddr size : Z) : M mst Z :=
  ints_enabled <- are_interrupts_enabled ;;
  CLI ;;
  base <- reserve_pages_checked cr3 vaddr size ;;
  restore_ints ints_enabled ;;
  ret base.

(** ** Demand paging *)

Definition make_page_present (p1 va : Z) : M mst Z :=
  if p1 =? INVALID_FRAME_ADDR then ret (-1) else
  present <- get_field F_present p1 ;;
  if negb (present =? 0) then ret 0 else
  demand <- get_field F_demand p1 ;;
  if demand =? 0 then ret (-1) else
  phys_frame <- MMU_pf_alloc ;;
  if phys_frame =? INVALID_FRAME_ADDR then ret (-1) else
  memset_at (phys_to_virt phys_frame) 0 PAGE_SIZE ;;
  set_field F_addr p1 (phys_to_pfn phys_frame) ;;
  set_field F_present p1 1 ;;
  set_field F_rw p1 1 ;;
  set_field F_us p1 (b2z (VA_USER_BASE <=? va)) ;;
  set_field F_demand p1 0 ;;
  ret 0.

(** The handler of vector 14; the unrecoverable paths end in [cli; hlt]. *)
Definition ISR14_PAGE_FAULT_HANDLER : M mst unit :=
  fault_va <- gets cr2 ;;
  p1 <- travel_pagetable fault_va WALK_MODE ;;
  if p1 =? INVALID_FRAME_ADDR then halt else
  demand <- get_field F_demand p1 ;;
  present <- get_field F_present p1 ;;
  if negb (demand =? 0) && (present =? 0) then
    e <- make_page_present p1 fault_va ;;
    if e <? 0 then halt else ret tt
  else halt.

(** ** Accesses by virtual address

    The translation of the processor: four levels, with 1 GiB and 2 MiB pages.
    [None] is a page fault.  The TLB is not modelled: the translation always
    reads the tables. *)

Definition present (w : Z) : bool := negb (get_bits F_present w =? 0).
Definition big_page (w : Z) : bool := negb (get_bits F_big_page w =? 0).
Definition demand (w : Z) : bool := negb (get_bits F_demand w =? 0).
Definition user_page (w : Z) : bool := negb (get_bits F_us w =? 0).
(** The physical address in an entry. *)
Definition addr_of (w : Z) : Z := pfn_to_phys (get_bits F_addr w).

Definition translate (m : mem) (cr3 va : Z) : option Z :=
  let w4 := rd64 m (page_down cr3 + 8 * PML4_INDEX va) in
  if negb (present w4) then None else
  let w3 := rd64 m (addr_of w4 + 8 * PDP_INDEX va) in
  if negb (present w3) then None else
  if big_page w3 then Some (addr_of w3 / 2 ^ 30 * 2 ^ 30 + va mod 2 ^ 30) else
  let w2 := rd64 m (addr_of w3 + 8 * PD_INDEX va) in
  if negb (present w2) then None else
  if big_page w2 then Some (addr_of w2 / 2 ^ 21 * 2 ^ 21 + va mod 2 ^ 21) else
  let w1 := rd64 m (addr_of w2 + 8 * PT_INDEX va) in
  if negb (present w1) then None else Some (addr_of w1 + va mod PAGE_SIZE).

(** The physical address of a kernel access at [va]: a fault runs the handler
    and the instruction is executed again; a second fault cannot be recovered
    from, because the entry is not a reservation any more. *)
Definition access (va : Z) : M mst Z :=
  pa <- gets (λ s, translate (pmem s) (cr3 s) va) ;;
  match pa with
  | Some pa => ret pa
  | None =>
      modify (set_cr2 va) ;;
      ISR14_PAGE_FAULT_HANDLER ;;
      pa <- gets (λ s, translate (pmem s) (cr3 s) va) ;;
      match pa with
      | Some pa => ret pa
      | None => halt
      end
  end.

Definition vload8 (va : Z) : M mst Z := pa <- access va ;; load8 pa.
Definition vstore8 (va v : Z) : M mst unit := pa <- access va ;; store8 pa v.

(** ** Writing to another address space *)

(** [memcpy(phys_to_virt(phys), src, n)]: the destination is in the identity
    map, the source any kernel buffer. *)
Definition memcpy_from (phys src n : Z) : M mst unit :=
  for_each (seqZ 0 n) (λ i,
    b <- vload8 (src + i) ;;
    store8 (phys_to_virt phys + i) b).

(** The loop of [write_user_range_as]; every iteration but the first and the
    last handles a whole page. *)
Fixpoint write_user_loop (fuel : nat) (cr3 dst src len : Z) (zero : bool) (done : Z) : M mst Z :=
  match fuel with
  | O => no_fuel
  | S fuel =>
      if negb (done <? len) then ret 0 else
      let va := u64 (dst + done) in
      let page_offset := Z.land va (PAGE_SIZE - 1) in
      let chunk := PAGE_SIZE - page_offset in
      let chunk := if len - done <? chunk then len - done else chunk in
      p1 <- travel_pagetable_in cr3 va WALK_MODE ;;
      e <- make_page_present p1 va ;;
      if e <? 0 then ret (-1) else
      pfn <- get_field F_addr p1 ;;
      let phys := pfn_to_phys pfn + page_offset in
      (if zero then memset_at (phys_to_virt phys) 0 chunk
       else memcpy_from phys (src + done) chunk) ;;
      write_user_loop fuel cr3 dst src len zero (done + chunk)
  end.

Definition write_user_range_as (fuel : nat) (cr3 dst src len : Z) (zero : bool) : M mst Z :=
  if negb zero && (src =? 0) && negb (len =? 0) then ret (-1)
  else write_user_loop fuel cr3 dst src len zero 0.

Definition MMU_copy_to_user_as (fuel : nat) (cr3 dst src len : Z) : M mst Z :=
  ints_enabled <- are_interrupts_enabled ;;
  CLI ;;
  r <- write_user_range_as fuel cr3 dst src len false ;;
  restore_ints ints_enabled ;;
  ret r.

Definition MMU_zero_user_as (fuel : nat) (cr3 dst len : Z) : M mst Z :=
  ints_enabled <- are_interrupts_enabled ;;
  CLI ;;
  r <- write_user_range_as fuel cr3 dst 0 len true ;;
  restore_ints ints_enabled ;;
  ret r.

(** ** Freeing pages *)

Definition page_table_empty (table : Z) : M mst bool :=
  r <- for_ret (seqZ 0 512) (λ i,
    w <- load64 (table + 8 * i) ;;
    ret (if negb (w =? 0) then Some false else None)) ;;
  ret (default true r).

(** [if (page_table_empty(table)) { MMU_pf_free(phys); memset(e, 0, 8); }]. *)
Definition free_if_empty (table e : Z) : M mst unit :=
  empty <- page_table_empty (phys_to_virt table) ;;
  if empty : bool then MMU_pf_free table ;; memset_at e 0 8 else ret tt.

Definition free_empty_tables (va : Z) : M mst unit :=
  cr3 <- MMU_current_p4 ;;
  let p4 := phys_to_virt (page_down cr3) in
  let e4 := p4 + 8 * PML4_INDEX va in
  w4 <- load64 e4 ;;
  if negb (present w4) || (get_bits F_allocated w4 =? 0) then ret tt else
  let pdpt_phys := pfn_to_phys (get_bits F_addr w4) in
  let e3 := phys_to_virt pdpt_phys + 8 * PDP_INDEX va in
  w3 <- load64 e3 ;;
  if negb (present w3) || big_page w3 || (get_bits F_allocated w3 =? 0) then ret tt else
  let pd_phys := pfn_to_phys (get_bits F_addr w3) in
  let e2 := phys_to_virt pd_phys + 8 * PD_INDEX va in
  w2 <- load64 e2 ;;
  if negb (present w2) || big_page w2 || (get_bits F_allocated w2 =? 0) then ret tt else
  let pt_phys := pfn_to_phys (get_bits F_addr w2) in
  free_if_empty pt_phys e2 ;;
  free_if_empty pd_phys e3 ;;
  free_if_empty pdpt_phys e4.

Definition MMU_free_page (vaddr : Z) : M mst unit :=
  let va := page_down vaddr in
  p1 <- travel_pagetable va WALK_MODE ;;
  if p1 =? INVALID_FRAME_ADDR then ret tt else
  present <- get_field F_present p1 ;;
  (if negb (present =? 0) then
     pfn <- get_field F_addr p1 ;;
     MMU_pf_free (pfn_to_phys pfn)
   else ret tt) ;;
  memset_at p1 0 8 ;;
  free_empty_tables va.

Definition MMU_free_pages (vaddr num : Z) : M mst unit :=
  let base := page_down vaddr in
  for_each (seqZ 0 num) (λ i, MMU_free_page (u64 (base + i * PAGE_SIZE))).

(** ** Address spaces *)

Section layout.
Context `{KLayout}.

Definition make_identity_map : M mst unit :=
  memset_at ptable_p4 0 PAGE_SIZE ;;
  memset_at ptable_p3_identity 0 PAGE_SIZE ;;
  for_each (seqZ 0 512) (λ i,
    let phys1gb := Z.shiftl i 30 in
    let e := ptable_p3_identity + 8 * i in
    set_field F_present e 1 ;;
    set_field F_rw e 1 ;;
    set_field F_us e 0 ;;
    set_field F_big_page e 1 ;;
    set_field F_addr e (phys_to_pfn phys1gb) ;;
    set_field F_allocated e 1) ;;
  set_field F_addr ptable_p4 (phys_to_pfn ptable_p3_identity) ;;
  set_field F_present ptable_p4 1 ;;
  set_field F_rw ptable_p4 1 ;;
  set_field F_us ptable_p4 0 ;;
  set_field F_allocated ptable_p4 1 ;;
  modify (set_kernel_cr3 ptable_p4) ;;
  modify (set_cr3 ptable_p4).

Definition MMU_create_user_p4 : M mst Z :=
  p4 <- MMU_pf_alloc ;;
  if p4 =? INVALID_FRAME_ADDR then ret 0 else
  let new_p4 := phys_to_virt p4 in
  memset_at new_p4 0 PAGE_SIZE ;;
  for_each (seqZ 0 (PML4_INDEX VA_USER_BASE)) (λ i,
    w <- load64 (ptable_p4 + 8 * i) ;;
    store64 (new_p4 + 8 * i) w) ;;
  ret p4.

Definition destroy_userspace_PT (pt : Z) : M mst unit :=
  for_each (seqZ 0 512) (λ i,
    let e := pt + 8 * i in
    w <- load64 e ;;
    if negb (present w) && negb (demand w) then ret tt else
    (if present w then MMU_pf_free (pfn_to_phys (get_bits F_addr w)) else ret tt) ;;
    memset_at e 0 8).

Definition destroy_userspace_PD (pd : Z) : M mst unit :=
  for_each (seqZ 0 512) (λ i,
    let e := pd + 8 * i in
    w <- load64 e ;;
    if negb (present w) then ret tt else
    if big_page w then CLI ;; halt else
    let pt_phys := pfn_to_phys (get_bits F_addr w) in
    destroy_userspace_PT (phys_to_virt pt_phys) ;;
    MMU_pf_free pt_phys ;;
    memset_at e 0 8).

Definition destroy_userspace_PDPT (pdpt : Z) : M mst unit :=
  for_each (seqZ 0 512) (λ i,
    let e := pdpt + 8 * i in
    w <- load64 e ;;
    if negb (present w) then ret tt else
    if big_page w then CLI ;; halt else
    let pd_phys := pfn_to_phys (get_bits F_addr w) in
    destroy_userspace_PD (phys_to_virt pd_phys) ;;
    MMU_pf_free pd_phys ;;
    memset_at e 0 8).

Definition MMU_destroy_userspace (cr3 : Z) : M mst unit :=
  ints_enabled <- are_interrupts_enabled ;;
  CLI ;;
  current_cr3 <- MMU_current_p4 ;;
  kernel_cr3 <- MMU_get_kernel_p4 ;;
  if page_down cr3 =? 0 then restore_ints ints_enabled else
  if page_down cr3 =? page_down kernel_cr3 then restore_ints ints_enabled else
  if page_down cr3 =? page_down current_cr3 then restore_ints ints_enabled else
  let p4_phys := page_down cr3 in
  let p4 := phys_to_virt p4_phys in
  for_each (seqZ (PML4_INDEX VA_USER_BASE) (512 - PML4_INDEX VA_USER_BASE)) (λ i,
    let e := p4 + 8 * i in
    w <- load64 e ;;
    if negb (present w) then ret tt else
    let pdpt_phys := pfn_to_phys (get_bits F_addr w) in
    destroy_userspace_PDPT (phys_to_virt pdpt_phys) ;;
    MMU_pf_free pdpt_phys ;;
    memset_at e 0 8) ;;
  MMU_pf_free p4_phys ;;
  restore_ints ints_enabled.

Definition clone_userspace_PT (dst src : Z) : M mst Z :=
  r <- for_ret (seqZ 0 512) (λ i,
    let d := dst + 8 * i in
    w <- load64 (src + 8 * i) ;;
    if negb (present w) && negb (demand w) then ret None else
    store64 d w ;;
    if present w then
      new_frame <- MMU_pf_alloc ;;
      if new_frame =? INVALID_FRAME_ADDR then
        memset_at d 0 8 ;;
        ret (Some (-1))
      else
        let src_phys := pfn_to_phys (get_bits F_addr w) in
        memcpy_at (phys_to_virt new_frame) (phys_to_virt src_phys) PAGE_SIZE ;;
        set_field F_addr d (phys_to_pfn new_frame) ;;
        ret None
    else ret None) ;;
  ret (default 0 r).

Definition clone_userspace_PD (dst src : Z) : M mst Z :=
  r <- for_ret (seqZ 0 512) (λ i,
    let d := dst + 8 * i in
    w <- load64 (src + 8 * i) ;;
    if negb (present w) then ret None else
    if big_page w then ret (Some (-1)) else
    pt_frame <- MMU_pf_alloc ;;
    if pt_frame =? INVALID_FRAME_ADDR then ret (Some (-1)) else
    memset_at (phys_to_virt pt_frame) 0 PAGE_SIZE ;;
    store64 d w ;;
    set_field F_addr d (phys_to_pfn pt_frame) ;;
    let src_pt_phys := pfn_to_phys (get_bits F_addr w) in
    e <- clone_userspace_PT (phys_to_virt pt_frame) (phys_to_virt src_pt_phys) ;;
    ret (if e <? 0 then Some (-1) else None)) ;;
  ret (default 0 r).

Definition clone_userspace_PDPT (dst src : Z) : M mst Z :=
  r <- for_ret (seqZ 0 512) (λ i,
    let d := dst + 8 * i in
    w <- load64 (src + 8 * i) ;;
    if negb (present w) then ret None else
    if big_page w then ret (Some (-1)) else
    pd_frame <- MMU_pf_alloc ;;
    if pd_frame =? INVALID_FRAME_ADDR then ret (Some (-1)) else
    memset_at (phys_to_virt pd_frame) 0 PAGE_SIZE ;;
    store64 d w ;;
    set_field F_addr d (phys_to_pfn pd_frame) ;;
    let src_pd_phys := pfn_to_phys (get_bits F_addr w) in
    e <- clone_userspace_PD (phys_to_virt pd_frame) (phys_to_virt src_pd_phys) ;;
    ret (if e <? 0 then Some (-1) else None)) ;;
  ret (default 0 r).

Definition MMU_clone_userspace (cr3 : Z) : M mst Z :=
  ints_enabled <- are_interrupts_enabled ;;
  CLI ;;
  kernel_cr3 <- MMU_get_kernel_p4 ;;
  if (page_down cr3 =? 0) || (page_down cr3 =? page_down kernel_cr3) then
    restore_ints ints_enabled ;; ret 0
  else
  child_cr3 <- MMU_create_user_p4 ;;
  if child_cr3 =? 0 then restore_ints ints_enabled ;; ret 0 else
  let src_p4 := phys_to_virt (page_down cr3) in
  let dst_p4 := phys_to_virt (page_down child_cr3) in
  r <- for_ret (seqZ (PML4_INDEX VA_USER_BASE) (512 - PML4_INDEX VA_USER_BASE)) (λ i,
    let d := dst_p4 + 8 * i in
    w <- load64 (src_p4 + 8 * i) ;;
    if negb (present w) then ret None else
    pdpt_frame <- MMU_pf_alloc ;;
    if pdpt_frame =? INVALID_FRAME_ADDR then
      MMU_destroy_userspace child_cr3 ;;
      restore_ints ints_enabled ;;
      ret (Some 0)
    else
    memset_at (phys_to_virt pdpt_frame) 0 PAGE_SIZE ;;
    store64 d w ;;
    set_field F_addr d (phys_to_pfn pdpt_frame) ;;
    let src_pdpt_phys := pfn_to_phys (get_bits F_addr w) in
    e <- clone_userspace_PDPT (phys_to_virt pdpt_frame) (phys_to_virt src_pdpt_phys) ;;
    if e <? 0 then
      MMU_destroy_userspace child_cr3 ;;
      restore_ints ints_enabled ;;
      ret (Some 0)
    else ret None) ;;
  match r with
  | Some v => ret v
  | None => restore_ints ints_enabled ;; ret child_cr3
  end.

End layout.
