(* ===== verification/Bits.v ===== *)
(** * Bit fields of page-table entries

    Laws of [get_bits] and [set_bits], the entry words built by the virtual
    memory manager, and the collapse of a sequence of bit-field assignments to
    one entry into a single store. *)

From S2P Require Import Prelude Memory Frames Vpages.

(** ** Reading a field that was written *)

Definition bf_ok (f : bitfield) : bool :=
  (0 <=? bf_lo f) && (0 <? bf_len f) && (bf_lo f + bf_len f <=? 64).
Definition bf_disjoint (f g : bitfield) : bool :=
  (bf_lo f + bf_len f <=? bf_lo g) || (bf_lo g + bf_len g <=? bf_lo f).

Lemma set_bits_spec f w v n :
  bf_ok f = true → 0 ≤ n →
  Z.testbit (set_bits f w v) n =
    if (bf_lo f <=? n) && (n <? bf_lo f + bf_len f)
    then Z.testbit v (n - bf_lo f) else Z.testbit w n.
Proof.
  unfold bf_ok, set_bits. intros Hf Hn. bool_prop.
  rewrite Z.lor_spec, Z.ldiff_spec, !Z.shiftl_spec, Z.land_spec by lia.
  destruct (Z.leb_spec (bf_lo f) n) as [Hlo|Hlo]; simpl.
  2: { rewrite !(Z.testbit_neg_r _ (n - bf_lo f)) by lia. simpl.
       by rewrite andb_true_r, orb_false_r. }
  destruct (Z.ltb_spec n (bf_lo f + bf_len f)).
  - rewrite Z.ones_spec_low by lia. simpl. by rewrite andb_false_r, andb_true_r.
  - rewrite Z.ones_spec_high by lia. simpl. by rewrite andb_true_r, andb_false_r, orb_false_r.
Qed.

Lemma get_bits_spec f w n :
  bf_ok f = true → 0 ≤ n →
  Z.testbit (get_bits f w) n = Z.testbit w (n + bf_lo f) && (n <? bf_len f).
Proof.
  unfold bf_ok, get_bits. intros Hf Hn. bool_prop.
  rewrite Z.land_spec, Z.shiftr_spec by lia. f_equal.
  destruct (Z.ltb_spec n (bf_len f)); [apply Z.ones_spec_low|apply Z.ones_spec_high]; lia.
Qed.

Lemma get_set_same f w v : bf_ok f = true → get_bits f (set_bits f w v) = v mod 2 ^ bf_len f.
Proof.
  intros Hf. rewrite <-Z.land_ones by (unfold bf_ok in Hf; bool_prop; lia).
  apply Z.bits_inj'. intros n Hn. rewrite get_bits_spec, set_bits_spec, Z.land_spec by (done || unfold bf_ok in Hf; bool_prop; lia).
  unfold bf_ok in Hf. bool_prop. replace (n + bf_lo f - bf_lo f) with n by lia.
  destruct (Z.ltb_spec n (bf_len f)).
  - rewrite Z.ones_spec_low, (proj2 (Z.leb_le _ _)), (proj2 (Z.ltb_lt _ _)) by lia. done.
  - rewrite Z.ones_spec_high by lia. by rewrite !andb_false_r.
Qed.

Lemma get_set_other f g w v :
  bf_ok f = true → bf_ok g = true → bf_disjoint f g = true →
  get_bits g (set_bits f w v) = get_bits g w.
Proof.
  intros Hf Hg Hd. apply Z.bits_inj'. intros n Hn. rewrite !get_bits_spec by done.
  rewrite set_bits_spec by (done || unfold bf_ok in Hg; bool_prop; lia).
  destruct (Z.ltb_spec n (bf_len g)); [|by rewrite !andb_false_r].
  unfold bf_disjoint, bf_ok in *. bool_prop.
  destruct (Z.leb_spec (bf_lo f) (n + bf_lo g)), (Z.ltb_spec (n + bf_lo g) (bf_lo f + bf_len f));
    simpl; try done. apply orb_true_iff in Hd as [Hd|Hd]; bool_prop; lia.
Qed.

Lemma Z_bits_below w k : 0 ≤ k → (∀ n, k ≤ n → Z.testbit w n = false) → 0 ≤ w < 2 ^ k.
Proof.
  intros Hk H. assert (w = w mod 2 ^ k) as ->; [|apply Z.mod_pos_bound; lia].
  rewrite <-Z.land_ones by lia. apply Z.bits_inj'. intros n Hn. rewrite Z.land_spec.
  destruct (decide (n < k)).
  - by rewrite Z.ones_spec_low, andb_true_r by lia.
  - rewrite H by lia. done.
Qed.

Lemma set_bits_range f w v :
  bf_ok f = true → 0 ≤ w < 2 ^ 64 → 0 ≤ set_bits f w v < 2 ^ 64.
Proof.
  intros Hf Hw. apply Z_bits_below; [lia|]. intros n Hn. rewrite set_bits_spec by (done || lia).
  unfold bf_ok in Hf. bool_prop. rewrite (proj2 (Z.ltb_ge n _)) by lia. rewrite andb_false_r.
  destruct (decide (w = 0)) as [->|]; [apply Z.bits_0|].
  apply Z.bits_above_log2; [lia|]. apply Z.lt_le_trans with 64; [|lia].
  apply Z.log2_lt_pow2; lia.
Qed.

Lemma get_bits_range f w : bf_ok f = true → 0 ≤ get_bits f w < 2 ^ bf_len f.
Proof.
  unfold bf_ok, get_bits. intros. bool_prop. rewrite Z.land_ones by lia.
  apply Z.mod_pos_bound. lia.
Qed.

Lemma get_bits_0 f : get_bits f 0 = 0.
Proof. unfold get_bits. by rewrite Z.shiftr_0_l, Z.land_0_l. Qed.

Create Rewrite HintDb bits.
#[export] Hint Rewrite get_set_same using reflexivity : bits.
#[export] Hint Rewrite get_set_other using reflexivity : bits.
#[export] Hint Rewrite get_bits_0 : bits.
#[export] Hint Resolve set_bits_range : cint.
#[global] Opaque get_bits set_bits.

(** ** Addresses in entries *)

Lemma addr_of_ok w : frame_ok (addr_of w).
Proof.
  unfold addr_of, pfn_to_phys. pose proof (get_bits_range F_addr w eq_refl) as Hr. simpl in Hr.
  rewrite Z.shiftl_mul_pow2 by lia. rewrite u64_small by lia.
  split; [lia|]. split; [by rewrite Z.mod_mul|lia].
Qed.

Lemma pfn_round_trip f : frame_ok f → pfn_to_phys (phys_to_pfn f mod 2 ^ 40) = f.
Proof.
  intros (H0 & Hm & Hb). unfold pfn_to_phys, phys_to_pfn.
  rewrite Z.shiftr_div_pow2, Z.shiftl_mul_pow2 by lia.
  rewrite Z.mod_small by dlia. rewrite u64_small by dlia. dlia.
Qed.

Lemma addr_of_set w f : frame_ok f → addr_of (set_bits F_addr w (phys_to_pfn f)) = f.
Proof.
  intros Hf. unfold addr_of. rewrite get_set_same by done. by apply pfn_round_trip.
Qed.

Lemma addr_of_other f w v :
  bf_ok f = true → bf_disjoint f F_addr = true → addr_of (set_bits f w v) = addr_of w.
Proof. intros. unfold addr_of. by rewrite get_set_other. Qed.

(** [present], [big_page] and the like of a word built field by field. *)
Ltac entry_bits :=
  unfold present, big_page, demand, user_page;
  autorewrite with bits; try reflexivity.

Lemma present_0 : present 0 = false.
Proof. by entry_bits. Qed.
Lemma demand_0 : demand 0 = false.
Proof. by entry_bits. Qed.

(** ** One store per sequence of assignments *)

Definition put_word (e w : Z) (s : mst) : mst := set_pmem (wr64 (pmem s) e w) s.

Lemma put_word_put_word e w w' s : put_word e w' (put_word e w s) = put_word e w' s.
Proof. unfold put_word, set_pmem. simpl. by rewrite wr_wr. Qed.

Lemma wp_get_field f e s Q : Q (get_bits f (rd64 (pmem s) e)) s → wp (get_field f e) s Q.
Proof. done. Qed.

Lemma wp_set_field f e v s Q :
  Q tt (put_word e (set_bits f (rd64 (pmem s) e) v) s) → wp (set_field f e v) s Q.
Proof. done. Qed.

(** An assignment to the entry that was just written. *)
Lemma wp_set_field_put f e w v s Q :
  0 ≤ w < 2 ^ 64 →
  Q tt (put_word e (set_bits f w v) s) → wp (set_field f e v) (put_word e w s) Q.
Proof.
  intros Hw HQ. apply wp_set_field. rewrite put_word_put_word. unfold put_word at 2. simpl.
  by rewrite rd64_wr64_eq, u64_small.
Qed.

(** Symbolic execution that also reads entries. *)
Ltac fld_step :=
  lazymatch goal with
  | |- wp (get_field _ _) _ _ => apply wp_get_field; cbv beta
  | |- wp (load64 _) _ _ => apply wp_gets; cbv beta
  | _ => wp_step
  end.
Ltac fld_steps := repeat fld_step.

(** [set_fields] runs a whole block of assignments to one entry. *)
Ltac set_fields :=
  lazymatch goal with
  | |- wp (bind (set_field _ _ _) _) _ _ => apply wp_bind; set_fields
  | |- wp (set_field _ ?e _) (put_word ?e _ _) _ =>
      apply wp_set_field_put; [solve [repeat apply set_bits_range; auto with cint]|]; cbv beta
  | |- wp (set_field _ _ _) _ _ => apply wp_set_field; cbv beta
  end.
