(* ===== verification/PageTree.v ===== *)
(** * Trees of page tables

    The specification side of the virtual memory manager: the frames reachable
    from a table ([entries], [nodes]), the entry a virtual address is mapped by
    ([walk], [leaf]), and how both change when one entry is overwritten.  Levels
    are numbered as in the code: a node of level 4 is a P4, 3 a PDPT, 2 a page
    directory, 1 a page table and 0 a data page. *)

From S2P Require Import Prelude Memory Frames Vpages Bits.

Implicit Types (m : mem) (k d e : nat).

(** ** Definitions *)

(** An entry [w] of a level-[k] table points to a node of the level below. *)
Definition links (k : nat) (w : Z) : bool :=
  present w && negb (match k with 2%nat | 3%nat => big_page w | _ => false end).

(** The index of [va] in a table of level [k]. *)
Definition tindex (k : nat) (va : Z) : Z := va / 2 ^ (3 + 9 * Z.of_nat k) mod 512.

(** All nodes below and including the one of level [k] at frame [f]. *)
Fixpoint nodes (k : nat) (m : mem) (f : Z) : list (nat * Z) :=
  (k, f) :: match k with
            | O => []
            | S k' => seqZ 0 512 ≫= λ i,
                let w := rd64 m (f + 8 * i) in
                if links k w then nodes k' m (addr_of w) else []
            end.

(** The nodes below one entry, and below [n] consecutive entries. *)
Definition child (k : nat) (m : mem) (w : Z) : list (nat * Z) :=
  if links k w then nodes (pred k) m (addr_of w) else [].
Definition entries (k : nat) (m : mem) (f lo n : Z) : list (nat * Z) :=
  seqZ lo n ≫= λ i, child k m (rd64 m (f + 8 * i)).

(** The address of the entry for [va] that is [d] levels below the table. *)
Fixpoint walk (d k : nat) (m : mem) (f va : Z) : option Z :=
  let a := f + 8 * tindex k va in
  match d with
  | O => Some a
  | S d => let w := rd64 m a in
           if links k w then walk d (pred k) m (addr_of w) va else None
  end.

(** The entry itself, 0 where a table is missing; [leaf_of] is the entry seen
    through a word of a level-[k] table. *)
Definition leaf (d k : nat) (m : mem) (f va : Z) : Z :=
  match walk d k m f va with
  | Some a => rd64 m a
  | None => 0
  end.
Definition leaf_of (e k : nat) (m : mem) (w va : Z) : Z :=
  match e with
  | O => w
  | S e => if links k w then leaf e (pred k) m (addr_of w) va else 0
  end.

(** Two memories agree on the tables among [ns], but for the word at [a]. *)
Definition agree_but (a : option Z) (ns : list (nat * Z)) (m m' : mem) : Prop :=
  ∀ k g i, (S k, g) ∈ ns → 0 ≤ i < 512 → a ≠ Some (g + 8 * i) →
    rd64 m' (g + 8 * i) = rd64 m (g + 8 * i).

(** No table of level 2 or 3 maps a huge page. *)
Definition no_big (m : mem) (ns : list (nat * Z)) : Prop :=
  ∀ k g i, (k, g) ∈ ns → k = 2%nat ∨ k = 3%nat → 0 ≤ i < 512 →
    present (rd64 m (g + 8 * i)) = true → big_page (rd64 m (g + 8 * i)) = false.

(** ** Indices and addresses *)

Lemma tindex_range k va : 0 ≤ tindex k va < 512.
Proof. unfold tindex. apply Z.mod_pos_bound. lia. Qed.
#[export] Hint Resolve tindex_range : cint.

Lemma index_tindex s k va :
  s = 3 + 9 * Z.of_nat k → Z.land (Z.shiftr va s) 0x1FF = tindex k va.
Proof.
  intros ->. unfold tindex. rewrite Z.shiftr_div_pow2 by lia.
  apply (Z.land_ones _ 9). lia.
Qed.
Lemma PML4_tindex va : PML4_INDEX va = tindex 4 va.
Proof. unfold PML4_INDEX. apply (index_tindex 39 4). reflexivity. Qed.
Lemma PDP_tindex va : PDP_INDEX va = tindex 3 va.
Proof. unfold PDP_INDEX. apply (index_tindex 30 3). reflexivity. Qed.
Lemma PD_tindex va : PD_INDEX va = tindex 2 va.
Proof. unfold PD_INDEX. apply (index_tindex 21 2). reflexivity. Qed.
Lemma PT_tindex va : PT_INDEX va = tindex 1 va.
Proof. unfold PT_INDEX. apply (index_tindex 12 1). reflexivity. Qed.

Lemma entry_addr_inj f g i j :
  frame_ok f → frame_ok g → 0 ≤ i < 512 → 0 ≤ j < 512 →
  f + 8 * i = g + 8 * j → f = g ∧ i = j.
Proof.
  intros Hf Hg Hi Hj E. destruct (decide (f = g)) as [->|Hne]; [lia|].
  destruct (frames_apart f g Hf Hg Hne); lia.
Qed.

(** ** Unfolding *)

Lemma nodes_S k m f : nodes (S k) m f = (S k, f) :: entries (S k) m f 0 512.
Proof. reflexivity. Qed.

Lemma nodes_0 m f : nodes 0 m f = [(0%nat, f)].
Proof. reflexivity. Qed.

Lemma leaf_leaf_of d k m f va :
  leaf d k m f va = leaf_of d k m (rd64 m (f + 8 * tindex k va)) va.
Proof. destruct d; unfold leaf; simpl; [done|]. by destruct (links _ _). Qed.

Lemma child_links k m w : links k w = true → child k m w = nodes (pred k) m (addr_of w).
Proof. unfold child. by intros ->. Qed.

Lemma child_nil k m w : links k w = false → child k m w = [].
Proof. unfold child. by intros ->. Qed.

Lemma entries_split k m f lo n i :
  lo ≤ i < lo + n →
  entries k m f lo n =
    entries k m f lo (i - lo) ++ child k m (rd64 m (f + 8 * i)) ++
    entries k m f (i + 1) (lo + n - i - 1).
Proof.
  intros Hi. unfold entries.
  replace n with ((i - lo) + (1 + (lo + n - i - 1))) at 1 by lia.
  rewrite seqZ_app, bind_app by lia. f_equal.
  replace (lo + (i - lo)) with i by lia. rewrite seqZ_cons by lia. cbn.
  by replace (Z.succ i) with (i + 1) by lia;
    replace (Z.pred (1 + (lo + n - i - 1))) with (lo + n - i - 1) by lia.
Qed.

Lemma entries_nil k m f lo n : n ≤ 0 → entries k m f lo n = [].
Proof. intros Hn. unfold entries. by rewrite seqZ_nil. Qed.

Lemma elem_of_entries k m f lo n x :
  x ∈ entries k m f lo n ↔ ∃ i, lo ≤ i < lo + n ∧ x ∈ child k m (rd64 m (f + 8 * i)).
Proof.
  unfold entries. rewrite list_elem_of_bind. setoid_rewrite elem_of_seqZ.
  split; intros (i & ? & ?); exists i; done.
Qed.

Lemma child_frame_ok k m w : Forall frame_ok (child k m w).*2.
Proof.
  unfold child. destruct (links k w); [|constructor].
  assert (∀ j w, Forall frame_ok (nodes j m (addr_of w)).*2) as H; [|apply H].
  induction j as [|j IH]; intros w'; (constructor; [apply addr_of_ok|]); [constructor|].
  apply Forall_forall. intros x ((j' & g) & -> & Hx)%list_elem_of_fmap.
  apply elem_of_entries in Hx as (i & _ & Hx). unfold child in Hx.
  destruct (links _ _); [|by apply elem_of_nil in Hx].
  eapply Forall_forall; [apply IH|]. by apply (list_elem_of_fmap_2 snd) in Hx.
Qed.

Lemma entries_frame_ok k m f lo n j g : (j, g) ∈ entries k m f lo n → frame_ok g.
Proof.
  intros (i & _ & Hx)%elem_of_entries.
  eapply Forall_forall; [apply child_frame_ok|]. by apply (list_elem_of_fmap_2 snd) in Hx.
Qed.

Lemma node_frame_ok k m f lo n j g :
  frame_ok f → (j, g) ∈ (k, f) :: entries k m f lo n → frame_ok g.
Proof. intros Hf [[= -> ->]|Hx]%elem_of_cons; [done|]. by eapply entries_frame_ok. Qed.

(** Nodes with the same frame are the same node. *)
Lemma NoDup_node (ns : list (nat * Z)) j j' g :
  NoDup ns.*2 → (j, g) ∈ ns → (j', g) ∈ ns → j = j'.
Proof.
  induction ns as [|[j0 g0] ns IH]; cbn; [by intros _ ?%elem_of_nil|].
  intros [Hnin Hnd]%NoDup_cons H1 H2.
  rewrite elem_of_cons in H1, H2. destruct H1 as [H1|H1], H2 as [H2|H2].
  - congruence.
  - simplify_eq. by apply (list_elem_of_fmap_2 snd) in H2.
  - simplify_eq. by apply (list_elem_of_fmap_2 snd) in H1.
  - by apply IH.
Qed.

(** ** Memories that agree on a tree *)

Lemma bind_ext_in {A B} (f g : A → list B) (l : list A) :
  (∀ x, x ∈ l → f x = g x) → l ≫= f = l ≫= g.
Proof.
  induction l as [|x l IH]; intros H; [done|]. cbn. f_equal; [apply H; left|].
  apply IH. intros y Hy. apply H. by right.
Qed.

Lemma agree_but_sub a ns ns' m m' :
  (∀ k g, (S k, g) ∈ ns' → (S k, g) ∈ ns) → agree_but a ns m m' → agree_but a ns' m m'.
Proof. intros Hsub H k g i Hg Hi Ha. apply (H k); auto. Qed.

Lemma nodes_agree k m m' f :
  agree_but None (nodes k m f) m m' → nodes k m' f = nodes k m f.
Proof.
  revert f. induction k as [|k IH]; intros f Hag; [done|]. rewrite !nodes_S in *. f_equal.
  apply bind_ext_in. intros i Hi%elem_of_seqZ.
  rewrite (Hag k f i) by (by left || done || lia).
  assert (∀ x, x ∈ child (S k) m (rd64 m (f + 8 * i)) → x ∈ entries (S k) m f 0 512) as Hsub.
  { intros x Hx. apply elem_of_entries. exists i. split; [lia|done]. }
  unfold child in *. destruct (links (S k) _); [|done]. apply IH.
  eapply agree_but_sub; [|exact Hag]. intros j g Hg. right. by apply Hsub.
Qed.

Lemma child_agree k m m' w :
  agree_but None (child k m w) m m' → child k m' w = child k m w.
Proof. unfold child. destruct (links k w); [|done]. apply nodes_agree. Qed.

Lemma entries_agree k m m' f lo n :
  (∀ i, lo ≤ i < lo + n → rd64 m' (f + 8 * i) = rd64 m (f + 8 * i)) →
  agree_but None (entries k m f lo n) m m' → entries k m' f lo n = entries k m f lo n.
Proof.
  intros Hw Hag. apply bind_ext_in. intros i Hi%elem_of_seqZ. rewrite Hw by lia.
  apply child_agree. eapply agree_but_sub; [|exact Hag].
  intros j g Hg. apply elem_of_entries. exists i. split; [lia|done].
Qed.

(** The address a walk arrives at lies in a table of the tree. *)
Lemma walk_node d k m f lo n va a :
  (d < k)%nat → walk d k m f va = Some a → lo ≤ tindex k va < lo + n →
  ∃ g, (k - d, g)%nat ∈ (k, f) :: entries k m f lo n ∧ a = g + 8 * tindex (k - d) va.
Proof.
  revert k f lo n. induction d as [|d IH]; intros k f lo n Hd Hw Hi.
  { simpl in Hw. simplify_eq. exists f. rewrite Nat.sub_0_r. split; [left|done]. }
  simpl in Hw. destruct (links k _) eqn:Hl; [|done].
  destruct k as [|k]; [lia|]. cbn [pred] in Hw.
  destruct (IH k _ 0 512 ltac:(lia) Hw (tindex_range _ _)) as (g & Hg & ->).
  exists g. split; [|done]. right. apply elem_of_entries. exists (tindex (S k) va).
  split; [done|]. unfold child. rewrite Hl. cbn [pred].
  destruct k as [|k]; [lia|]. rewrite nodes_S. by destruct d.
Qed.

(** A walk that ends in a link finds a node of the tree. *)
Lemma walk_leaf_child d k m f va a :
  (d < k)%nat → walk d k m f va = Some a → links (k - d) (rd64 m a) = true →
  (pred (k - d), addr_of (rd64 m a)) ∈ child k m (rd64 m (f + 8 * tindex k va)).
Proof.
  revert k f. induction d as [|d IH]; intros k f Hd Hw Hl.
  - simpl in Hw. simplify_eq. rewrite Nat.sub_0_r in *. rewrite child_links by done.
    destruct k as [|k]; [lia|]. by destruct k; left.
  - simpl in Hw. destruct (links k _) eqn:Hk; [|done]. rewrite child_links by done.
    destruct k as [|[|k]]; [lia|lia|]. cbn [pred] in *. rewrite nodes_S. right.
    replace (S (S k) - S d)%nat with (S k - d)%nat in * by lia.
    apply elem_of_entries. eexists. split; [apply tindex_range|]. apply IH; [lia|done|done].
Qed.

Lemma walk_leaf_node d k m f lo n va a :
  (d < k)%nat → lo ≤ tindex k va < lo + n → walk d k m f va = Some a →
  links (k - d) (rd64 m a) = true → (pred (k - d), addr_of (rd64 m a)) ∈ entries k m f lo n.
Proof.
  intros Hd Hi Hw Hl. apply elem_of_entries. exists (tindex k va). split; [done|].
  by apply (walk_leaf_child d k m f va a).
Qed.

Lemma walk_child d k m f va a :
  (S d < k)%nat → walk (S d) k m f va = Some a →
  ∃ g j, g ∈ (child k m (rd64 m (f + 8 * tindex k va))).*2 ∧ frame_ok g ∧ 0 ≤ j < 512 ∧
         a = g + 8 * j.
Proof.
  intros Hd Hw. simpl in Hw. destruct (links k _) eqn:Hl; [|done].
  destruct k as [|[|k]]; [lia|lia|]. cbn [pred] in Hw.
  destruct (walk_node d (S k) m _ 0 512 va a ltac:(lia) Hw (tindex_range _ _)) as (g & Hg & ->).
  exists g, (tindex (S k - d) va). split; [|split; [|split; [apply tindex_range|done]]].
  - unfold child. rewrite Hl. cbn [pred]. rewrite nodes_S. by apply (list_elem_of_fmap_2 snd) in Hg.
  - eapply node_frame_ok; [apply addr_of_ok|exact Hg].
Qed.

Lemma walk_snoc d k m f va a :
  walk d k m f va = Some a → links (k - d) (rd64 m a) = true →
  walk (S d) k m f va = Some (addr_of (rd64 m a) + 8 * tindex (k - S d) va).
Proof.
  revert k f. induction d as [|d IH]; intros k f Hw Hl.
  - simpl in Hw. simplify_eq. rewrite Nat.sub_0_r in Hl. simpl. rewrite Hl.
    by replace (k - 1)%nat with (pred k) by lia.
  - cbn [walk] in Hw |- *. destruct (links k _) eqn:Hk; [|done].
    replace (k - S d)%nat with (pred k - d)%nat in Hl by lia.
    specialize (IH _ _ Hw Hl). cbn [walk] in IH. rewrite IH.
    by replace (pred k - S d)%nat with (k - S (S d))%nat by lia.
Qed.

Lemma leaf_walk d e k m f va a :
  walk d k m f va = Some a → leaf (d + e) k m f va = leaf_of e (k - d) m (rd64 m a) va.
Proof.
  revert k f. induction d as [|d IH]; intros k f Hw.
  - simpl in Hw. simplify_eq. by rewrite Nat.sub_0_r, Nat.add_0_l, leaf_leaf_of.
  - rewrite leaf_leaf_of. cbn [Nat.add leaf_of walk] in *. destruct (links k _) eqn:Hk; [|done].
    rewrite (IH _ _ Hw). by replace (pred k - d)%nat with (k - S d)%nat by lia.
Qed.

(** A walk only reads the words of the levels it goes through. *)
Lemma walk_agree d k m m' f lo n va :
  (d < k)%nat → lo ≤ tindex k va < lo + n →
  (∀ j g i, (j, g) ∈ (k, f) :: entries k m f lo n → (k - d < j)%nat → 0 ≤ i < 512 →
     rd64 m' (g + 8 * i) = rd64 m (g + 8 * i)) →
  walk d k m' f va = walk d k m f va.
Proof.
  revert k f lo n. induction d as [|d IH]; intros k f lo n Hd Hi Hag; [done|]. simpl.
  rewrite (Hag k f) by (by left || lia || apply tindex_range).
  destruct (links k _) eqn:Hl; [|done]. destruct k as [|[|k]]; [lia|lia|]. cbn [pred].
  apply (IH _ _ 0 512); [lia|apply tindex_range|]. intros j g i Hg Hj. apply (Hag j); [|lia].
  right. apply elem_of_entries. exists (tindex (S (S k)) va). split; [done|].
  unfold child. rewrite Hl. cbn [pred]. by rewrite nodes_S.
Qed.

Lemma leaf_agree d k m m' f lo n va :
  (d < k)%nat → lo ≤ tindex k va < lo + n →
  agree_but None ((k, f) :: entries k m f lo n) m m' → leaf d k m' f va = leaf d k m f va.
Proof.
  intros Hd Hi Hag. unfold leaf. rewrite (walk_agree d k m m' f lo n); [|done|done|].
  2: { intros [|j] g i Hg Hj Hr; [lia|]. by apply (Hag j). }
  destruct (walk d k m f va) as [a|] eqn:Hw; [|done].
  destruct (walk_node _ _ _ _ lo n _ _ Hd Hw Hi) as (g & Hg & ->).
  destruct (k - d)%nat as [|j] eqn:E; [lia|].
  apply (Hag j g); [done|apply tindex_range|done].
Qed.

Lemma leaf_of_agree e k m m' w va :
  (e < k)%nat → agree_but None (child k m w) m m' → leaf_of e k m' w va = leaf_of e k m w va.
Proof.
  intros He Hag. destruct e as [|e]; [done|]. cbn [leaf_of].
  destruct (links k w) eqn:Hl; [|done]. rewrite (child_links _ _ _ Hl) in Hag.
  destruct k as [|[|k]]; [lia|lia|]. cbn [pred] in *. rewrite nodes_S in Hag.
  apply (leaf_agree _ _ _ _ _ 0 512); [lia|apply tindex_range|done].
Qed.

(** The page a leaf maps is a node of the tree. *)
Lemma leaf_node k m f lo n va :
  lo ≤ tindex (S k) va < lo + n → present (leaf k (S k) m f va) = true →
  (0%nat, addr_of (leaf k (S k) m f va)) ∈ entries (S k) m f lo n.
Proof.
  intros Hi Hp. unfold leaf in *. destruct (walk k (S k) m f va) as [a|] eqn:Hw; [|by rewrite present_0 in Hp].
  pose proof (walk_leaf_node k (S k) m f lo n va a ltac:(lia) Hi Hw) as Hn.
  replace (S k - k)%nat with 1%nat in Hn by lia. apply Hn. unfold links. by rewrite Hp.
Qed.

(** ** Overwriting one entry *)

Lemma entries_disjoint k m f lo n i j g :
  NoDup (entries k m f lo n).*2 → lo ≤ i < lo + n → lo ≤ j < lo + n → i ≠ j →
  g ∈ (child k m (rd64 m (f + 8 * i))).*2 → g ∈ (child k m (rd64 m (f + 8 * j))).*2 → False.
Proof.
  intros Hnd Hi Hj Hne.
  assert (∀ i j, lo ≤ i < j → j < lo + n → g ∈ (child k m (rd64 m (f + 8 * i))).*2 →
            g ∈ (child k m (rd64 m (f + 8 * j))).*2 → False) as H.
  { clear i j Hi Hj Hne. intros i j Hi Hj Hgi Hgj.
    rewrite (entries_split k m f lo n i), !fmap_app in Hnd by lia.
    apply NoDup_app in Hnd as (_ & _ & Hnd). apply NoDup_app in Hnd as (_ & Hnd & _).
    apply (Hnd g Hgi). apply list_elem_of_fmap in Hgj as (x & -> & Hx).
    apply list_elem_of_fmap_2, elem_of_entries. exists j. split; [lia|done]. }
  destruct (decide (i < j)); intros Hgi Hgj; [apply (H i j)|apply (H j i)]; done || lia.
Qed.

(** Distinctness below a link. *)
Lemma entries_child_NoDup k m f lo n i :
  NoDup (entries k m f lo n).*2 → lo ≤ i < lo + n → NoDup (child k m (rd64 m (f + 8 * i))).*2.
Proof.
  intros Hnd Hi. rewrite (entries_split _ _ _ _ _ _ Hi), !fmap_app in Hnd.
  apply NoDup_app in Hnd as (_ & _ & Hnd). by apply NoDup_app in Hnd as (Hnd & _ & _).
Qed.

Lemma entries_below_NoDup k m f lo n i :
  NoDup (entries (S (S k)) m f lo n).*2 → lo ≤ i < lo + n →
  links (S (S k)) (rd64 m (f + 8 * i)) = true →
  NoDup (entries (S k) m (addr_of (rd64 m (f + 8 * i))) 0 512).*2.
Proof.
  intros Hnd Hi Hl. apply entries_child_NoDup with (i := i) in Hnd; [|done].
  rewrite (child_links _ _ _ Hl) in Hnd. cbn [pred] in Hnd. rewrite nodes_S in Hnd.
  by apply NoDup_cons in Hnd as [_ Hnd].
Qed.

(** Two addresses that lead to the same entry agree on the indices used. *)
Lemma walk_same_slot d k m f lo n va va' a :
  (S d < k)%nat → NoDup (entries k m f lo n).*2 →
  lo ≤ tindex k va < lo + n → lo ≤ tindex k va' < lo + n →
  walk (S d) k m f va = Some a → walk (S d) k m f va' = Some a → tindex k va = tindex k va'.
Proof.
  intros Hd Hnd Hs Hs' Hw Hw'. destruct (decide (tindex k va = tindex k va')) as [|Hne]; [done|].
  destruct (walk_child _ _ _ _ _ _ Hd Hw) as (g & j & Hg & Hok & Hj & ->).
  destruct (walk_child _ _ _ _ _ _ Hd Hw') as (g' & j' & Hg' & Hok' & Hj' & E).
  apply entry_addr_inj in E as [-> _]; [|done..].
  by destruct (entries_disjoint k m f lo n (tindex k va) (tindex k va') g').
Qed.

Lemma walk_inj d k m f lo n va va' a :
  (d < k)%nat → NoDup (entries k m f lo n).*2 →
  lo ≤ tindex k va < lo + n → lo ≤ tindex k va' < lo + n →
  walk d k m f va = Some a → walk d k m f va' = Some a →
  ∀ j, (k - d ≤ j ≤ k)%nat → tindex j va = tindex j va'.
Proof.
  revert k f lo n. induction d as [|d IH]; intros k f lo n Hd Hnd Hs Hs' Hw Hw' j Hj.
  { simpl in Hw, Hw'. simplify_eq. replace j with k by lia. lia. }
  pose proof (walk_same_slot _ _ _ _ _ _ _ _ _ Hd Hnd Hs Hs' Hw Hw') as Hi.
  destruct (decide (j = k)) as [->|Hjk]; [done|].
  cbn [walk] in Hw, Hw'. rewrite <-Hi in Hw'. destruct (links k _) eqn:Hl; [|done].
  destruct k as [|[|k]]; [lia|lia|]. cbn [pred] in *.
  eapply (IH (S k) _ 0 512); [lia| |apply tindex_range..|exact Hw|exact Hw'|lia].
  by eapply entries_below_NoDup.
Qed.

(** Two entries that point to the same frame are the same entry. *)
Lemma walk_leaf_inj d k m f lo n va va' a a' :
  (d < k)%nat → NoDup (entries k m f lo n).*2 →
  lo ≤ tindex k va < lo + n → lo ≤ tindex k va' < lo + n →
  walk d k m f va = Some a → walk d k m f va' = Some a' →
  links (k - d) (rd64 m a) = true → links (k - d) (rd64 m a') = true →
  addr_of (rd64 m a) = addr_of (rd64 m a') → a = a'.
Proof.
  revert k f lo n. induction d as [|d IH]; intros k f lo n Hd Hnd Hs Hs' Hw Hw' Hl Hl' Ha.
  all: destruct (decide (tindex k va = tindex k va')) as [Hi|Hi];
    [|destruct (entries_disjoint k m f lo n (tindex k va) (tindex k va') (addr_of (rd64 m a)) Hnd Hs Hs' Hi);
       [|rewrite Ha]; apply list_elem_of_fmap; (eexists; split; [|by eapply (walk_leaf_child _ k)]); done].
  - simpl in Hw, Hw'. simplify_eq. by rewrite Hi.
  - cbn [walk] in Hw, Hw'. rewrite <-Hi in Hw'. destruct (links k _) eqn:Hk; [|done].
    destruct k as [|[|k]]; [lia|lia|]. cbn [pred] in *.
    replace (S (S k) - S d)%nat with (S k - d)%nat in * by lia.
    eapply (IH (S k) _ 0 512); [lia| |apply tindex_range..|exact Hw|exact Hw'|done|done|done].
    by eapply entries_below_NoDup.
Qed.

Lemma walk_same_index d k m f va va' :
  (∀ j, (k - d ≤ j ≤ k)%nat → tindex j va = tindex j va') →
  walk d k m f va = walk d k m f va'.
Proof.
  revert k f. induction d as [|d IH]; intros k f Hj; cbn [walk]; rewrite (Hj k) by lia; [done|].
  destruct (links k _); [|done]. apply IH. intros j Hjk. apply Hj. lia.
Qed.

(** The number of the page that holds [va], among the 2^36 of an address
    space. *)
Definition vpn (va : Z) : Z := va / 2 ^ 12 mod 2 ^ 36.

Lemma vpn_tindex va : vpn va = tindex 1 va + 2 ^ 9 * tindex 2 va + 2 ^ 18 * tindex 3 va + 2 ^ 27 * tindex 4 va.
Proof.
  unfold vpn, tindex.
  change (3 + 9 * Z.of_nat 1) with 12. change (3 + 9 * Z.of_nat 2) with (12 + 9).
  change (3 + 9 * Z.of_nat 3) with (12 + 9 + 9). change (3 + 9 * Z.of_nat 4) with (12 + 9 + 9 + 9).
  rewrite !Z.pow_add_r, <-!Z.div_div by lia.
  generalize (va / 2 ^ 12). intros v. dlia.
Qed.

Lemma vpn_eq va va' :
  vpn va = vpn va' ↔ ∀ j, (1 ≤ j ≤ 4)%nat → tindex j va = tindex j va'.
Proof.
  rewrite !vpn_tindex. split.
  - intros E. pose proof (tindex_range 1 va). pose proof (tindex_range 2 va).
    pose proof (tindex_range 3 va). pose proof (tindex_range 4 va).
    pose proof (tindex_range 1 va'). pose proof (tindex_range 2 va').
    pose proof (tindex_range 3 va'). pose proof (tindex_range 4 va').
    intros [|[|[|[|[|j]]]]] Hj; lia.
  - intros H. by rewrite !H by lia.
Qed.

Section update.
Context (m m' : mem) (va a : Z).

(** The tree hanging off slots [lo .. lo+n-1] of the table at [f], in which
    [va] leads to the entry at [a] after [d] levels, the only one that differs
    between the two memories. *)
Record one_entry (d k : nat) (f lo n : Z) : Prop := {
  oe_depth : (d < k)%nat;
  oe_walk : walk d k m f va = Some a;
  oe_slot : lo ≤ tindex k va < lo + n;
  oe_lo : 0 ≤ lo;
  oe_hi : lo + n ≤ 512;
  oe_frame : frame_ok f;
  oe_nodup : NoDup (f :: (entries k m f lo n).*2);
  oe_agree : agree_but (Some a) ((k, f) :: entries k m f lo n) m m'
}.

Lemma one_entry_word d k f lo n j :
  one_entry d k f lo n → lo ≤ j < lo + n → j ≠ tindex k va →
  rd64 m' (f + 8 * j) = rd64 m (f + 8 * j).
Proof.
  intros [Hd Hw Hs Hlo Hhi Hf Hnd Hag] Hj Hne. destruct k as [|k]; [lia|].
  apply (Hag k); [by left|lia|]. intros [= E].
  destruct (walk_node _ _ _ _ lo n _ _ Hd Hw Hs) as (g & Hg & Ea).
  rewrite Ea in E. apply entry_addr_inj in E as [-> E];
    [|by eapply node_frame_ok|done|apply tindex_range|lia].
  apply (NoDup_node ((S k, f) :: entries (S k) m f lo n) (S k)) in Hg; [|done|by left].
  by rewrite <-Hg in E.
Qed.

(** Nothing below another slot changes. *)
Lemma one_entry_sibling d k f lo n j :
  one_entry d k f lo n → lo ≤ j < lo + n → j ≠ tindex k va →
  agree_but None (child k m (rd64 m (f + 8 * j))) m m'.
Proof.
  intros [Hd Hw Hs Hlo Hhi Hf Hnd Hag] Hj Hne k' g' i Hg' Hi _.
  assert ((S k', g') ∈ entries k m f lo n) as Hin by (apply elem_of_entries; eauto).
  apply (Hag k'); [by right|done|]. intros [= E].
  assert (frame_ok g') as Hok by (by eapply entries_frame_ok).
  apply (list_elem_of_fmap_2 snd) in Hg'. cbn in Hg', Hnd. apply NoDup_cons in Hnd as [Hnf Hnd].
  destruct d as [|d].
  - injection Hw as Ea. rewrite <-Ea in E. apply entry_addr_inj in E as [<- _];
      [|done|done|apply tindex_range|done].
    apply Hnf. by apply (list_elem_of_fmap_2 snd) in Hin.
  - destruct (walk_child _ _ _ _ _ _ Hd Hw) as (g & j' & Hg & Hgok & Hj' & ->).
    apply entry_addr_inj in E as [-> _]; [|done..].
    by eapply (entries_disjoint k m f lo n (tindex k va) j g').
Qed.

Lemma one_entry_down d k f lo n :
  one_entry (S d) k f lo n →
  let w := rd64 m (f + 8 * tindex k va) in
  links k w = true ∧ rd64 m' (f + 8 * tindex k va) = w ∧
  one_entry d (pred k) (addr_of w) 0 512.
Proof.
  intros [Hd Hw Hs Hlo Hhi Hf Hnd Hag] w. subst w. simpl in Hw.
  destruct (links k _) eqn:Hl; [|done]. destruct k as [|[|k]]; [lia|lia|]. cbn [pred] in *.
  assert (∀ x, x ∈ (S k, addr_of (rd64 m (f + 8 * tindex (S (S k)) va)))
                 :: entries (S k) m (addr_of (rd64 m (f + 8 * tindex (S (S k)) va))) 0 512 →
               x ∈ entries (S (S k)) m f lo n) as Hsub.
  { intros x Hx. apply elem_of_entries. exists (tindex (S (S k)) va). split; [done|].
    unfold child. rewrite Hl. cbn [pred]. by rewrite nodes_S. }
  apply NoDup_cons in Hnd as [Hnf Hnd].
  split; [done|]. split.
  - apply (Hag (S k)); [by left|apply tindex_range|]. intros [= E].
    destruct (walk_child d (S (S k)) m f va a) as (g & j & Hg & Hok & Hj & ->); [done|by simpl; rewrite Hl|].
    apply entry_addr_inj in E as [-> _]; [|done|done|done|apply tindex_range].
    apply Hnf. rewrite (entries_split _ _ _ _ _ _ Hs), !fmap_app. set_solver.
  - split; try done; [lia|apply tindex_range|apply addr_of_ok| |].
    + apply entries_child_NoDup with (i := tindex (S (S k)) va) in Hnd; [|done].
      rewrite (child_links _ _ _ Hl) in Hnd. cbn [pred] in Hnd. by rewrite nodes_S in Hnd.
    + intros k' g i Hg. apply (Hag k'). right. by apply Hsub.
Qed.

Lemma one_entry_rest d k f lo n lo' n' :
  one_entry d k f lo n → lo ≤ lo' → lo' + n' ≤ lo + n →
  (∀ j, lo' ≤ j < lo' + n' → j ≠ tindex k va) →
  entries k m' f lo' n' = entries k m f lo' n'.
Proof.
  intros H Hlo Hhi Hne. apply entries_agree.
  - intros i Hi. eapply one_entry_word; [done|lia|auto].
  - intros k' g i (j & Hj & Hg)%elem_of_entries.
    apply (one_entry_sibling _ _ _ _ _ j H ltac:(lia) (Hne j Hj) k' g i Hg).
Qed.

(** The nodes of the tree change by those below the entry. *)
Lemma entries_update d k f lo n :
  one_entry d k f lo n →
  entries k m' f lo n ++ child (k - d) m (rd64 m a) ≡ₚ
  entries k m f lo n ++ child (k - d) m' (rd64 m' a).
Proof.
  revert k f lo n. induction d as [|d IH]; intros k f lo n H; pose proof (oe_slot _ _ _ _ _ H) as Hs.
  all: rewrite (entries_split k m f lo n _ Hs), (entries_split k m' f lo n _ Hs).
  all: rewrite (one_entry_rest _ _ _ _ _ lo (tindex k va - lo) H) by lia.
  all: rewrite (one_entry_rest _ _ _ _ _ (tindex k va + 1) (lo + n - tindex k va - 1) H) by lia.
  - pose proof (oe_walk _ _ _ _ _ H) as [= ->]. rewrite Nat.sub_0_r.
    apply perm_replace, Permutation_app_comm.
  - destruct (one_entry_down _ _ _ _ _ H) as (Hl & -> & Hd). specialize (IH _ _ _ _ Hd).
    rewrite !(child_links _ _ _ Hl). pose proof (oe_depth _ _ _ _ _ Hd).
    destruct k as [|[|k]]; cbn [pred] in *; [lia|lia|]. rewrite !nodes_S.
    replace (S (S k) - S d)%nat with (S k - d)%nat by lia.
    apply perm_replace. cbn [app]. by apply perm_skip.
Qed.

Lemma one_entry_leaf_sibling d c k f lo n va' :
  one_entry d k f lo n → (c < k)%nat → lo ≤ tindex k va' < lo + n →
  tindex k va' ≠ tindex k va → leaf c k m' f va' = leaf c k m f va'.
Proof.
  intros H Hc Hs' Hne. rewrite !leaf_leaf_of.
  rewrite (one_entry_word _ _ _ _ _ _ H Hs' Hne).
  apply leaf_of_agree; [done|]. by apply (one_entry_sibling _ _ _ _ _ _ H).
Qed.

(** The leaves change only for the addresses that lead through the entry. *)
Lemma leaf_update d e k f lo n va' :
  one_entry d k f lo n → (d + e < k)%nat → lo ≤ tindex k va' < lo + n →
  leaf (d + e) k m' f va' =
    if decide (walk d k m f va' = Some a) then leaf_of e (k - d) m' (rd64 m' a) va'
    else leaf (d + e) k m f va'.
Proof.
  revert k f lo n. induction d as [|d IH]; intros k f lo n H Hde Hs'.
  all: destruct (decide (tindex k va' = tindex k va)) as [Hi|Hi].
  - pose proof (oe_walk _ _ _ _ _ H) as [= E]. cbn [walk Nat.add].
    rewrite Hi, E, decide_True by done. by rewrite leaf_leaf_of, Hi, E, Nat.sub_0_r.
  - rewrite decide_False.
    + eapply one_entry_leaf_sibling; eauto.
    + pose proof (oe_walk _ _ _ _ _ H) as [= E]. intros [= E']. lia.
  - destruct (one_entry_down _ _ _ _ _ H) as (Hl & Hw & Hd).
    rewrite !leaf_leaf_of. cbn [leaf_of Nat.add walk]. rewrite Hi, Hw, Hl.
    rewrite (IH _ _ _ _ Hd) by (lia || apply tindex_range).
    pose proof (oe_depth _ _ _ _ _ H). by replace (pred k - d)%nat with (k - S d)%nat by lia.
  - rewrite decide_False.
    + eapply one_entry_leaf_sibling; eauto.
    + intros Hw'. pose proof (oe_nodup _ _ _ _ _ H) as [_ Hnd]%NoDup_cons.
      by eapply Hi, (walk_same_slot d k m f lo n); try apply H.
Qed.
End update.

(** ** Tables that were just cleared *)

Lemma nodes_zero k m f : (∀ i, 0 ≤ i < 512 → rd64 m (f + 8 * i) = 0) → nodes k m f = [(k, f)].
Proof.
  intros Hz. destruct k as [|k]; [done|]. rewrite nodes_S. f_equal.
  unfold entries. rewrite (bind_ext_in _ (λ _, [])).
  - generalize (seqZ 0 512). by induction l.
  - intros i Hi%elem_of_seqZ. rewrite Hz by lia. apply child_nil. unfold links.
    by rewrite present_0.
Qed.

Lemma leaf_of_zero e k m w va :
  (∀ i, 0 ≤ i < 512 → rd64 m (addr_of w + 8 * i) = 0) → leaf_of (S e) k m w va = 0.
Proof.
  intros Hz. cbn [leaf_of]. destruct (links k w); [|done]. rewrite leaf_leaf_of.
  rewrite Hz by apply tindex_range. destruct e as [|e]; [done|]. cbn [leaf_of].
  unfold links. by rewrite present_0.
Qed.

#[global] Opaque nodes entries child.
