(* ===== verification/VpagesMap.v ===== *)
(** * Mapping pages: walking, reserving and demand paging

    The abstraction of an address space is the function [pte]: the entry that
    maps a virtual address, 0 where there is none.  A range of slots of a P4 owns
    its tables and pages ([space]); the operations of [vpages.c] that extend the
    tables are described by what they do to [pte], to the pool of free frames and
    to the rest of memory. *)

From S2P Require Import Prelude Memory Frames Vpages Bits PageTree.

Implicit Types (m : mem) (st : mst) (p : list Z).

(** ** Specification vocabulary *)

Abbreviation pte := (leaf 3 4).
Abbreviation slots m root lo n := (entries 4 m root lo n).

(** The slots [lo .. lo+n-1] of the P4 at [root] are a tree of distinct
    frames, none of them in the pool [p] of the frame allocator, with 4 KiB pages
    only. *)
Record space (st : mst) (root lo n : Z) (p : list Z) : Prop := {
  sp_frames : frames_inv st p;
  sp_root : frame_ok root;
  sp_lo : 0 ≤ lo;
  sp_hi : lo + n ≤ 512;
  sp_nodup : NoDup (root :: (slots (pmem st) root lo n).*2 ++ p);
  sp_big : no_big (pmem st) (slots (pmem st) root lo n)
}.

(** The addresses mapped through these slots. *)
Definition in_slots (lo n va : Z) : Prop := lo ≤ tindex 4 va < lo + n.

(** Only bytes of the frames [fs] differ. *)
Definition unchanged (fs : list Z) (m m' : mem) : Prop :=
  ∀ x, (∀ g, g ∈ fs → x < g ∨ g + PAGE_SIZE ≤ x) → rd8 m' x = rd8 m x.

(** The registers and variables the frame and page operations leave alone. *)
Definition same_vars (st st' : mst) : Prop :=
  kernel_cr3 st' = kernel_cr3 st ∧ kernel_va st' = kernel_va st ∧
  cr3 st' = cr3 st ∧ int_flag st' = int_flag st.

(** What all the operations on a space guarantee: it stays well formed, no
    frame is lost or invented, and only its own frames and those of the pool are
    written. *)
Record evolves (root lo n : Z) (st : mst) (p : list Z) (st' : mst) (p' : list Z) : Prop := {
  ev_space : space st' root lo n p';
  ev_perm : (slots (pmem st') root lo n).*2 ++ p' ≡ₚ (slots (pmem st) root lo n).*2 ++ p;
  ev_unchanged : unchanged (root :: (slots (pmem st) root lo n).*2 ++ p) (pmem st) (pmem st');
  ev_vars : same_vars st st'
}.

(** The data pages of the space stay mapped and keep their contents. *)
Definition keeps (root lo n : Z) (m m' : mem) : Prop :=
  ∀ g, (0%nat, g) ∈ slots m root lo n →
    (0%nat, g) ∈ slots m' root lo n ∧ ∀ x, g ≤ x < g + PAGE_SIZE → rd8 m' x = rd8 m x.

(** ** Basic facts *)

Lemma same_vars_refl st : same_vars st st.
Proof. done. Qed.
Lemma same_vars_trans st1 st2 st3 : same_vars st1 st2 → same_vars st2 st3 → same_vars st1 st3.
Proof. intros (?&?&?&?) (?&?&?&?). repeat split; congruence. Qed.

Lemma unchanged_sub fs fs' m m' : (∀ g, g ∈ fs' → g ∈ fs) → unchanged fs' m m' → unchanged fs m m'.
Proof. intros Hsub H x Hx. apply H. intros g Hg. by apply Hx, Hsub. Qed.
Lemma unchanged_trans fs m1 m2 m3 : unchanged fs m1 m2 → unchanged fs m2 m3 → unchanged fs m1 m3.
Proof. intros H1 H2 x Hx. rewrite H2, H1; done. Qed.
Lemma unchanged_refl fs m : unchanged fs m m.
Proof. done. Qed.

Lemma evolves_refl root lo n st p : space st root lo n p → evolves root lo n st p st p.
Proof. by split. Qed.

Lemma evolves_trans root lo n st1 p1 st2 p2 st3 p3 :
  evolves root lo n st1 p1 st2 p2 → evolves root lo n st2 p2 st3 p3 →
  evolves root lo n st1 p1 st3 p3.
Proof.
  intros [_ P1 U1 V1] [S2 P2 U2 V2]. split; [done|by rewrite P2| |by eapply same_vars_trans].
  eapply unchanged_trans; [exact U1|]. eapply unchanged_sub; [|exact U2].
  intros g. by rewrite P1.
Qed.

Lemma keeps_refl root lo n m : keeps root lo n m m.
Proof. done. Qed.
Lemma keeps_trans root lo n m1 m2 m3 :
  keeps root lo n m1 m2 → keeps root lo n m2 m3 → keeps root lo n m1 m3.
Proof.
  intros H1 H2 g Hg. destruct (H1 g Hg) as [Hg2 E1]. destruct (H2 g Hg2) as [Hg3 E2].
  split; [done|]. intros x Hx. by rewrite E2, E1.
Qed.

Lemma unchanged_rd fs m m' (c : nat) x :
  unchanged fs m m' →
  (∀ g, g ∈ fs → x + Z.of_nat c ≤ g ∨ g + PAGE_SIZE ≤ x) → rd c m' x = rd c m x.
Proof.
  intros H Hx. apply rd_ext. intros i Hi. apply H. intros g Hg. destruct (Hx g Hg); lia.
Qed.

Lemma unchanged_word fs m m' g i :
  unchanged fs m m' → Forall frame_ok fs → frame_ok g → g ∉ fs → 0 ≤ i < 512 →
  rd64 m' (g + 8 * i) = rd64 m (g + 8 * i).
Proof.
  intros H Hfs Hg Hnin Hi. eapply unchanged_rd; [done|]. intros f Hf.
  destruct (frames_apart f g); [by eapply Forall_forall|done|congruence|lia|lia].
Qed.

Lemma unchanged_word_1 f m m' g i :
  unchanged [f] m m' → frame_ok f → frame_ok g → g ≠ f → 0 ≤ i < 512 →
  rd64 m' (g + 8 * i) = rd64 m (g + 8 * i).
Proof.
  intros H Hf Hg Hne. eapply unchanged_word; [exact H|by constructor|done|].
  by intros ->%list_elem_of_singleton.
Qed.

Lemma frames_inv_state st p st' :
  frames_inv st p → usable_regions st' = usable_regions st → free_frames st' = free_frames st →
  (∀ f, f ∈ p → rd64 (pmem st') f = rd64 (pmem st) f) → frames_inv st' p.
Proof.
  intros (l & Hl & Htab & Hp & Hnd & Hok) Hr Hf Hag. exists l. rewrite Hr, Hf.
  split; [|done]. eapply free_list_agree; [|exact Hl]. intros f Hfl. apply Hag.
  rewrite Hp. apply elem_of_app. by left.
Qed.

(** ** Walking

    The three table allocators as one function of the level of the entry. *)

Definition get_or_alloc (k : nat) : Z → bool → M mst Z :=
  match k with
  | 4%nat => get_or_alloc_PDPT_entry
  | 3%nat => get_or_alloc_PD_entry
  | _ => get_or_alloc_PT_entry
  end.

Lemma get_or_alloc_present k e user st :
  present (rd64 (pmem st) e) = true →
  get_or_alloc k e user st = Ret (addr_of (rd64 (pmem st) e), st).
Proof.
  unfold present. intros Hp%negb_true_iff. apply wp_eq.
  destruct k as [|[|[|[|[|k]]]]]; cbn [get_or_alloc];
    unfold get_or_alloc_PDPT_entry, get_or_alloc_PD_entry, get_or_alloc_PT_entry;
    fld_steps; rewrite Hp; fld_steps; (split; [apply Z.add_0_l|reflexivity]).
Qed.

(** [!e->present] and [e->present && e->big_page] on the word of the entry. *)
Lemma links_cases k w :
  (present w = false ∧ links k w = false ∧ (get_bits F_present w =? 0) = true) ∨
  (present w = true ∧ (get_bits F_present w =? 0) = false ∧
   links k w = negb (match k with 2%nat | 3%nat => big_page w | _ => false end)).
Proof. unfold links, present. destruct (_ =? 0); auto. Qed.

Lemma travel_p2_walk st pd va user :
  travel_p2 pd va WALK_MODE user st =
    Ret (default INVALID_FRAME_ADDR (walk 1 2 (pmem st) pd va), st).
Proof.
  apply wp_eq. unfold travel_p2. rewrite PD_tindex, PT_tindex. fld_steps. cbn [walk pred].
  destruct (links_cases 2 (rd64 (pmem st) (pd + 8 * tindex 2 va))) as [(_ & -> & ->)|(Hp & -> & ->)];
    cbn [negb andb default]; [by apply wp_ret|].
  unfold big_page. destruct (_ =? 0); cbn [negb default]; [|by apply wp_ret].
  apply wp_bind. eapply wp_of_eq; [by apply (get_or_alloc_present 2)|]. by apply wp_ret.
Qed.

Lemma travel_p3_walk st pdpt va user :
  travel_p3 pdpt va WALK_MODE user st =
    Ret (default INVALID_FRAME_ADDR (walk 2 3 (pmem st) pdpt va), st).
Proof.
  apply wp_eq. unfold travel_p3. rewrite PDP_tindex. fld_steps. cbn [walk pred].
  destruct (links_cases 3 (rd64 (pmem st) (pdpt + 8 * tindex 3 va))) as [(_ & -> & ->)|(Hp & -> & ->)];
    cbn [negb andb default]; [by apply wp_ret|].
  unfold big_page. destruct (_ =? 0); cbn [negb default]; [|by apply wp_ret].
  apply wp_bind. eapply wp_of_eq; [by apply (get_or_alloc_present 3)|].
  by eapply wp_of_eq; [apply travel_p2_walk|].
Qed.

Lemma travel_walk st cr3 va :
  travel_pagetable_in cr3 va WALK_MODE st =
    Ret (default INVALID_FRAME_ADDR (walk 3 4 (pmem st) (page_down cr3) va), st).
Proof.
  apply wp_eq. unfold travel_pagetable_in, phys_to_virt. rewrite PML4_tindex, Z.add_0_l.
  fld_steps. cbn [walk pred].
  destruct (links_cases 4 (rd64 (pmem st) (page_down cr3 + 8 * tindex 4 va)))
    as [(_ & -> & ->)|(Hp & -> & ->)]; cbn [negb default]; [by apply wp_ret|].
  apply wp_bind. eapply wp_of_eq; [by apply (get_or_alloc_present 4)|].
  by eapply wp_of_eq; [apply travel_p3_walk|].
Qed.

(** The entry of a page is never confused with the error address. *)
Lemma walk_valid d k m f va a : walk (S d) k m f va = Some a → a ≠ INVALID_FRAME_ADDR.
Proof.
  revert k f. induction d as [|d IH]; intros k f; simpl.
  - destruct (links _ _); [|done]. intros [= <-].
    destruct (addr_of_ok (rd64 m (f + 8 * tindex k va))) as (? & Hm & ?).
    intros E. dlia.
  - destruct (links k _); [|done]. apply IH.
Qed.

(** ** Overwriting one entry of a space *)

Lemma sp_node_ok st root lo n p k g :
  space st root lo n p → (k, g) ∈ (4%nat, root) :: slots (pmem st) root lo n → frame_ok g.
Proof. intros Hsp. apply node_frame_ok, Hsp. Qed.

Lemma sp_nodup_tree st root lo n p :
  space st root lo n p → NoDup ((4%nat, root) :: slots (pmem st) root lo n).*2.
Proof.
  intros Hsp. pose proof (sp_nodup _ _ _ _ _ Hsp) as Hnd.
  by apply (NoDup_app (root :: _)) in Hnd as (Hnd & _ & _).
Qed.

(** The frames of the pool are apart from those of the tree. *)
Lemma sp_fresh st root lo n p k g :
  space st root lo n p → (k, g) ∈ (4%nat, root) :: slots (pmem st) root lo n → g ∉ p.
Proof.
  intros Hsp Hg Hin. pose proof (sp_nodup _ _ _ _ _ Hsp) as Hnd.
  apply (NoDup_app (root :: _)) in Hnd as (_ & Hnd & _). apply (Hnd g); [|done].
  by apply (list_elem_of_fmap_2 snd) in Hg.
Qed.

Lemma sp_apart st root lo n p k g f :
  space st root lo n p → (k, g) ∈ (4%nat, root) :: slots (pmem st) root lo n → f ∈ p →
  frame_ok f ∧ (g + PAGE_SIZE ≤ f ∨ f + PAGE_SIZE ≤ g).
Proof.
  intros Hsp Hg Hf. assert (frame_ok f) as Hok.
  { eapply Forall_forall; [apply (frames_inv_ok st p), Hsp|done]. }
  split; [done|]. apply frames_apart; [by eapply sp_node_ok|done|].
  intros ->. by eapply sp_fresh.
Qed.

(** A store to the entry at [a], after changes confined to frames [fs] that
    are not tables, leaves the other entries alone. *)
Lemma agree_but_store ns fs m m1 g0 j w :
  (∀ k g, (S k, g) ∈ ns → frame_ok g ∧ g ∉ fs) → Forall frame_ok fs → unchanged fs m m1 →
  frame_ok g0 → 0 ≤ j < 512 →
  agree_but (Some (g0 + 8 * j)) ns m (wr64 m1 (g0 + 8 * j) w).
Proof.
  intros Hns Hfs Hun (_ & Hg0 & _) Hj k g i Hg Hi Hne. destruct (Hns k g Hg) as [Hok Hnin].
  rewrite rd64_wr64_ne; [by eapply unchanged_word|]. destruct Hok as (_ & Hgm & _).
  assert (g0 + 8 * j ≠ g + 8 * i) by congruence. dlia.
Qed.

Lemma sp_one_entry st root lo n p m' d va a :
  space st root lo n p → in_slots lo n va → (d < 4)%nat →
  walk d 4 (pmem st) root va = Some a →
  agree_but (Some a) ((4%nat, root) :: slots (pmem st) root lo n) (pmem st) m' →
  one_entry (pmem st) m' va a d 4 root lo n.
Proof.
  intros Hsp Hs Hd Hw Hag. split; try done; [apply Hsp..|].
  by apply sp_nodup_tree in Hsp.
Qed.

Lemma space_step st root lo n p st' p' d va a :
  space st root lo n p → in_slots lo n va → (d < 4)%nat →
  walk d 4 (pmem st) root va = Some a →
  agree_but (Some a) ((4%nat, root) :: slots (pmem st) root lo n) (pmem st) (pmem st') →
  let old := child (4 - d) (pmem st) (rd64 (pmem st) a) in
  let new := child (4 - d) (pmem st') (rd64 (pmem st') a) in
  frames_inv st' p' → new.*2 ++ p' ≡ₚ old.*2 ++ p → no_big (pmem st') new →
  ((4 - d = 2 ∨ 4 - d = 3)%nat →
     present (rd64 (pmem st') a) = true → big_page (rd64 (pmem st') a) = false) →
  space st' root lo n p' ∧
  (slots (pmem st') root lo n).*2 ++ p' ≡ₚ (slots (pmem st) root lo n).*2 ++ p ∧
  slots (pmem st') root lo n ++ old ≡ₚ slots (pmem st) root lo n ++ new.
Proof.
  intros Hsp Hs Hd Hw Hag old new Hfi Hperm Hbig Hword.
  pose proof (entries_update _ _ _ _ _ _ _ _ _ (sp_one_entry _ _ _ _ _ _ _ _ _ Hsp Hs Hd Hw Hag)) as Hup.
  fold old new in Hup.
  assert ((slots (pmem st') root lo n).*2 ++ p' ≡ₚ (slots (pmem st) root lo n).*2 ++ p) as HP.
  { apply (Permutation_app_inv_l old.*2). apply (fmap_Permutation snd) in Hup.
    rewrite !fmap_app in Hup. transitivity ((slots (pmem st) root lo n).*2 ++ (new.*2 ++ p')).
    - rewrite !app_assoc, <-Hup. solve_Permutation.
    - rewrite Hperm. solve_Permutation. }
  split; [|done]. split; try apply Hsp; [done|by rewrite HP; apply Hsp|].
  intros k g i Hg Hk Hi. assert ((k, g) ∈ slots (pmem st) root lo n ∨ (k, g) ∈ new) as [Hg'|Hg'].
  { apply elem_of_app. rewrite <-Hup. apply elem_of_app. by left. }
  2: { by apply (Hbig k). }
  destruct (decide (a = g + 8 * i)) as [->|Hne].
  - destruct (walk_node _ _ _ _ lo n _ _ Hd Hw Hs) as (g0 & Hg0 & E).
    apply entry_addr_inj in E as [-> ->];
      [|by eapply sp_node_ok; [|right]|by eapply sp_node_ok|done|apply tindex_range].
    apply Hword. rewrite <-(NoDup_node ((4%nat, root) :: slots (pmem st) root lo n) k (4 - d) g0); try done.
    + by eapply sp_nodup_tree.
    + by right.
  - destruct k as [|k]; [lia|].
    rewrite (Hag k g i) by (by right || done || congruence). by apply (sp_big _ _ _ _ _ Hsp (S k)).
Qed.

(** ** Adding a node

    [MMU_pf_alloc], [memset] of the frame and the assignments to the entry that
    is to point to it. *)

Definition link_state (st1 : mst) (f a w : Z) : mst :=
  put_word a w (set_pmem (memset (pmem st1) f 0 PAGE_SIZE) st1).

Lemma unchanged_memset m f : unchanged [f] m (memset m f 0 PAGE_SIZE).
Proof.
  intros x Hx. rewrite rd8_memset. destruct (Hx f) as [?|?]; [left|..]; case_decide; done || lia.
Qed.

Section add_node.
Context (st st1 : mst) (root lo n f : Z) (p : list Z) (d : nat) (va a w' : Z).
Hypothesis Hsp : space st root lo n (f :: p).
Hypothesis Hs : in_slots lo n va.
Hypothesis Hd : (d < 4)%nat.
Hypothesis Hw : walk d 4 (pmem st) root va = Some a.
Hypothesis Hold : links (4 - d) (rd64 (pmem st) a) = false.
Hypothesis Hnew : links (4 - d) w' = true.
Hypothesis Haddr : addr_of w' = f.
Hypothesis Hw64 : 0 ≤ w' < 2 ^ 64.
Hypothesis Hst1 : alloc_frame_state st st1.
Hypothesis Hfi : frames_inv st1 p.

Let st' := link_state st1 f a w'.

Lemma add_node_f_ok : frame_ok f.
Proof. by pose proof (frames_inv_ok _ _ (sp_frames _ _ _ _ _ Hsp)) as [? _]%Forall_cons_1. Qed.

Lemma add_node_fresh k g :
  (k, g) ∈ (4%nat, root) :: slots (pmem st) root lo n → frame_ok g ∧ g ∉ f :: p.
Proof.
  intros Hg. split; [by eapply sp_node_ok|by eapply sp_fresh].
Qed.

Lemma add_node_where : ∃ g j, (4 - d, g)%nat ∈ (4%nat, root) :: slots (pmem st) root lo n ∧
  0 ≤ j < 512 ∧ a = g + 8 * j.
Proof.
  destruct (walk_node _ _ _ _ lo n _ _ Hd Hw Hs) as (g & Hg & ->).
  exists g, (tindex (4 - d) va). split; [done|]. split; [apply tindex_range|done].
Qed.

Lemma add_node_pmem : pmem st' = wr64 (memset (pmem st) f 0 PAGE_SIZE) a w'.
Proof. unfold st'. cbn. by rewrite Hst1. Qed.

Lemma add_node_agree :
  agree_but (Some a) ((4%nat, root) :: slots (pmem st) root lo n) (pmem st) (pmem st').
Proof.
  destruct add_node_where as (g & j & Hg & Hj & E). rewrite add_node_pmem, E.
  destruct (add_node_fresh _ _ Hg). pose proof add_node_f_ok.
  apply (agree_but_store _ [f]); [|by constructor|apply unchanged_memset|done|done].
  intros k g' Hg'. destruct (add_node_fresh _ _ Hg') as [? Hnin]. split; [done|].
  intros ->%list_elem_of_singleton. apply Hnin. by left.
Qed.

Lemma add_node_word : rd64 (pmem st') a = w'.
Proof. rewrite add_node_pmem, rd64_wr64_eq. by apply u64_small. Qed.

(** The entry does not lie in the new frame or in another free one. *)
Lemma add_node_apart g : g ∈ f :: p → a + 8 ≤ g ∨ g + PAGE_SIZE ≤ a.
Proof.
  intros Hg. destruct add_node_where as (g0 & j & Hg0 & Hj & E). rewrite E.
  destruct (sp_apart _ _ _ _ _ _ _ _ Hsp Hg0 Hg) as [_ [?|?]]; lia.
Qed.

Lemma add_node_zero i : 0 ≤ i < 512 → rd64 (pmem st') (f + 8 * i) = 0.
Proof.
  intros Hi. destruct (add_node_apart f) as [?|?]; [left|..].
  all: rewrite add_node_pmem, rd64_wr64_ne by lia; apply (rd_memset_0 8); lia.
Qed.

Lemma add_node_child : child (4 - d) (pmem st') w' = [(3 - d, f)%nat].
Proof.
  rewrite child_links by done. rewrite Haddr.
  replace (pred (4 - d)) with (3 - d)%nat by lia. apply nodes_zero, add_node_zero.
Qed.

Lemma add_node_frames : frames_inv st' p.
Proof.
  eapply frames_inv_state; [exact Hfi|done|done|]. intros g Hg.
  rewrite add_node_pmem. rewrite Hst1. cbn.
  pose proof (frames_inv_ok _ _ (sp_frames _ _ _ _ _ Hsp)) as Hok.
  pose proof (frames_inv_NoDup _ _ (sp_frames _ _ _ _ _ Hsp)) as [Hnf _]%NoDup_cons.
  destruct (add_node_apart g) as [?|?]; [by right|..].
  all: rewrite rd64_wr64_ne by lia; apply (rd_memset_out 8).
  all: assert (frame_ok g) by (eapply Forall_forall; [exact Hok|by right]).
  all: destruct (frames_apart f g); [apply add_node_f_ok|done|congruence|lia|lia].
Qed.

Lemma add_node_unchanged : unchanged (root :: (slots (pmem st) root lo n).*2 ++ f :: p) (pmem st) (pmem st').
Proof.
  intros x Hx. rewrite add_node_pmem. destruct add_node_where as (g & j & Hg & Hj & E). rewrite E.
  rewrite rd8_wr_out.
  - apply unchanged_memset. intros g' ->%list_elem_of_singleton. apply Hx.
    right. apply elem_of_app. right. left.
  - apply (list_elem_of_fmap_2 snd) in Hg. destruct (Hx g); [|lia|lia].
    rewrite app_comm_cons. apply elem_of_app. by left.
Qed.

Lemma add_node_evolves :
  evolves root lo n st (f :: p) st' p ∧
  slots (pmem st') root lo n ≡ₚ (3 - d, f)%nat :: slots (pmem st) root lo n.
Proof.
  destruct (space_step st root lo n (f :: p) st' p d va a Hsp Hs Hd Hw) as (H1 & H2 & H3).
  - apply add_node_agree.
  - apply add_node_frames.
  - by rewrite add_node_word, add_node_child, (child_nil _ _ _ Hold).
  - rewrite add_node_word, add_node_child. intros k g i [= -> ->]%list_elem_of_singleton _ Hi.
    by rewrite add_node_zero, present_0.
  - rewrite add_node_word. intros Hk _. unfold links in Hnew.
    apply andb_true_iff in Hnew as [_ Hb]. by destruct Hk as [Hk|Hk]; rewrite Hk in Hb; apply negb_true_iff in Hb.
  - rewrite add_node_word, add_node_child, (child_nil _ _ _ Hold), app_nil_r in H3. split.
    + split; [done|done|apply add_node_unchanged|]. unfold same_vars. subst st'. cbn. by rewrite Hst1.
    + by rewrite H3, Permutation_app_comm.
Qed.

Lemma add_node_keeps : keeps root lo n (pmem st) (pmem st').
Proof.
  intros g Hg. destruct add_node_evolves as [_ Hp]. split; [rewrite Hp; by right|].
  intros x Hx. rewrite add_node_pmem. destruct add_node_where as (g0 & j & Hg0 & Hj & E).
  assert (g0 ≠ g) as Hne.
  { intros ->. apply (NoDup_node _ 0) in Hg0; [lia| |by right].
    by eapply sp_nodup_tree. }
  destruct (add_node_fresh 0 g) as [Hok Hnin]; [by right|].
  destruct (add_node_fresh _ _ Hg0) as [Hok0 _].
  rewrite rd8_wr_out, rd8_memset.
  - case_decide; [|done]. destruct (frames_apart f g); [apply add_node_f_ok|done| |lia|lia].
    intros ->. apply Hnin. left.
  - destruct (frames_apart g0 g); [done..|lia|lia].
Qed.

Lemma add_node_one_entry : one_entry (pmem st) (pmem st') va a d 4 root lo n.
Proof. eapply sp_one_entry; [exact Hsp|exact Hs|exact Hd|exact Hw|apply add_node_agree]. Qed.

(** A new table changes no mapping. *)
Lemma add_node_pte va' :
  (d < 3)%nat → in_slots lo n va' → pte (pmem st') root va' = pte (pmem st) root va'.
Proof.
  intros Hd3 Hs'. pose proof (leaf_update _ _ _ _ d (3 - d) 4 root lo n va' add_node_one_entry) as Hup.
  replace (d + (3 - d))%nat with 3%nat in Hup by lia. rewrite Hup; [|lia|exact Hs'].
  destruct (decide _) as [Hw'|]; [|done]. rewrite add_node_word.
  pose proof (leaf_walk d (3 - d) 4 _ _ _ _ Hw') as Hlw.
  replace (d + (3 - d))%nat with 3%nat in Hlw by lia. rewrite Hlw.
  replace (3 - d)%nat with (S (2 - d)) by lia. cbn [leaf_of]. rewrite Hold.
  apply (leaf_of_zero (2 - d) (4 - d) (pmem st') w' va').
  rewrite Haddr. apply add_node_zero.
Qed.

(** A new data page changes one mapping. *)
Lemma add_node_pte_page va' :
  d = 3%nat → in_slots lo n va' →
  pte (pmem st') root va' =
    if decide (walk 3 4 (pmem st) root va' = Some a) then w' else pte (pmem st) root va'.
Proof.
  intros Ed Hs'. pose proof (leaf_update _ _ _ _ d 0 4 root lo n va' add_node_one_entry) as Hup.
  rewrite Ed in Hup. cbn [Nat.add] in Hup. rewrite Hup; [|lia|exact Hs'].
  cbn [leaf_of]. by rewrite add_node_word.
Qed.

Lemma add_node_walk :
  walk d 4 (pmem st') root va = Some a ∧
  walk (S d) 4 (pmem st') root va = Some (f + 8 * tindex (3 - d) va).
Proof.
  assert (walk d 4 (pmem st') root va = Some a) as Hw'.
  { rewrite <-Hw. apply (walk_agree _ _ _ _ _ lo n); [done|done|].
    intros [|j] g i Hg Hj Hi; [lia|]. apply (add_node_agree j); [done|done|].
    destruct add_node_where as (g0 & j0 & Hg0 & Hj0 & E). rewrite E. intros [= E'].
    destruct (add_node_fresh _ _ Hg), (add_node_fresh _ _ Hg0).
    apply entry_addr_inj in E' as [-> _]; [|done..].
    apply (NoDup_node _ (S j)) in Hg0; [lia| |done].
    by eapply sp_nodup_tree. }
  split; [done|]. rewrite (walk_snoc _ _ _ _ _ _ Hw'); rewrite add_node_word; [|done].
  rewrite Haddr. by replace (4 - S d)%nat with (3 - d)%nat by lia.
Qed.
End add_node.

(** ** Creating missing tables *)

(** The entry that [get_or_alloc_PDPT_entry] and its siblings write. *)
Definition fresh_link (k : nat) (user : bool) (w f : Z) : Z :=
  let w := set_bits F_addr w (phys_to_pfn f) in
  let w := set_bits F_us (set_bits F_rw (set_bits F_present w 1) 1) (b2z user) in
  set_bits F_allocated (match k with 4%nat => w | _ => set_bits F_big_page w 0 end) 1.

Lemma fresh_link_range k user w f : 0 ≤ w < 2 ^ 64 → 0 ≤ fresh_link k user w f < 2 ^ 64.
Proof.
  intros Hw. unfold fresh_link. destruct k as [|[|[|[|[|k]]]]]; by repeat apply set_bits_range.
Qed.

Lemma fresh_link_links k user w f : (1 < k)%nat → links k (fresh_link k user w f) = true.
Proof.
  intros Hk. unfold links, fresh_link. destruct k as [|[|[|[|[|k]]]]]; try lia; by entry_bits.
Qed.

Lemma fresh_link_addr k user w f : frame_ok f → addr_of (fresh_link k user w f) = f.
Proof.
  intros Hf. unfold fresh_link. destruct k as [|[|[|[|[|k]]]]];
    repeat rewrite addr_of_other by reflexivity; by apply addr_of_set.
Qed.

Lemma get_or_alloc_absent k e user st p :
  frames_inv st p → (1 < k ≤ 4)%nat → present (rd64 (pmem st) e) = false →
  (∀ f, f ∈ p → e + 8 ≤ f ∨ f + PAGE_SIZE ≤ e) →
  wp (get_or_alloc k e user) st (λ r st',
    match p with
    | [] => r = INVALID_FRAME_ADDR ∧ st' = st
    | f :: p' => r = f ∧ ∃ st1, alloc_frame_state st st1 ∧ frames_inv st1 p' ∧
        st' = link_state st1 f e (fresh_link k user (rd64 (pmem st) e) f)
    end).
Proof.
  intros Hfi Hk Hp Hapart. apply negb_false_iff in Hp.
  destruct k as [|[|[|[|[|k]]]]]; try lia; cbn [get_or_alloc];
    unfold get_or_alloc_PDPT_entry, get_or_alloc_PD_entry, get_or_alloc_PT_entry;
    fld_steps; rewrite Hp; apply wp_bind; (eapply wp_mono; [by apply pf_alloc_spec|]);
    cbv beta; intros f st1 (Hst1 & Hpool);
    (destruct p as [|x p]; [by destruct Hpool as [-> ->]; apply wp_ret|]);
    destruct Hpool as [-> Hfi1];
    assert (frame_ok x) as Hok by (by apply frames_inv_ok, Forall_cons_1 in Hfi as [? _]);
    rewrite (proj2 (Z.eqb_neq x _)) by auto with cint;
    wp_step; unfold memset_at; wp_step; repeat set_fields; fld_steps;
    unfold link_state, put_word; cbn [pmem set_pmem];
    rewrite (rd_memset_out 8) by (destruct (Hapart x) as [?|?]; [left|lia|lia]);
    (assert (pmem st1 = pmem st) as Hpm by (by rewrite Hst1)); rewrite Hpm;
    (split; [|exists st1; by rewrite Hpm]);
    rewrite rd64_wr64_eq, u64_small by (repeat apply set_bits_range; auto with cint);
    autorewrite with bits; exact (pfn_round_trip x Hok).
Qed.

(** The tables were extended, if at all, without changing any mapping. *)
Record extended (root lo n : Z) (st : mst) (p : list Z) (st' : mst) (p' : list Z) : Prop := {
  ex_evolves : evolves root lo n st p st' p';
  ex_keeps : keeps root lo n (pmem st) (pmem st');
  ex_pte : ∀ va, in_slots lo n va → pte (pmem st') root va = pte (pmem st) root va
}.

Lemma extended_refl root lo n st p : space st root lo n p → extended root lo n st p st p.
Proof. intros. split; [by apply evolves_refl|apply keeps_refl|done]. Qed.

Lemma extended_trans root lo n st1 p1 st2 p2 st3 p3 :
  extended root lo n st1 p1 st2 p2 → extended root lo n st2 p2 st3 p3 →
  extended root lo n st1 p1 st3 p3.
Proof.
  intros [E1 K1 P1] [E2 K2 P2].
  split; [by eapply evolves_trans|by eapply keeps_trans|]. intros va Hs. by rewrite P2, P1.
Qed.

(** [e->present && e->big_page] is false for the entries of a space. *)
Lemma not_big_test w :
  (present w = true → big_page w = false) →
  negb (get_bits F_present w =? 0) && negb (get_bits F_big_page w =? 0) = false.
Proof. fold (present w) (big_page w). destruct (present w); [|done]. intros ->; done. Qed.

Section create.
Context (root lo n va : Z) (Hs : in_slots lo n va).

(** The result of a walk in [CREATE_MODE] that may add [c] tables: the entry, or the
    pool is empty. *)
Definition created (c : nat) (st : mst) (p : list Z) (r : Z) (st' : mst) : Prop :=
  ∃ p', extended root lo n st p st' p' ∧ (length p ≤ length p' + c)%nat ∧
    ((r = INVALID_FRAME_ADDR ∧ p' = []) ∨ walk 3 4 (pmem st') root va = Some r).

Lemma created_trans c st p st1 p1 r st' :
  extended root lo n st p st1 p1 → (length p ≤ length p1 + 1)%nat →
  created c st1 p1 r st' → created (S c) st p r st'.
Proof.
  intros H1 Hl (p' & H2 & Hl2 & Hr). exists p'. split; [by eapply extended_trans|]. split; [lia|done].
Qed.

(** One level: go down the entry at [a], adding a table when there is none. *)
Lemma stage_spec c d st p a user (K : Z → M mst Z) :
  (d < 3)%nat → space st root lo n p → walk d 4 (pmem st) root va = Some a →
  (present (rd64 (pmem st) a) = true → links (4 - d) (rd64 (pmem st) a) = true) →
  (∀ st' p' t, extended root lo n st p st' p' →
     walk (S d) 4 (pmem st') root va = Some (t + 8 * tindex (3 - d) va) →
     wp (K t) st' (created c st' p')) →
  wp (if get_bits F_present (rd64 (pmem st) a) =? 0 then
        t <- get_or_alloc (4 - d) a user ;;
        if t =? INVALID_FRAME_ADDR then ret INVALID_FRAME_ADDR else K t
      else
        t <- get_or_alloc (4 - d) a user ;; K t) st (created (S c) st p).
Proof.
  intros Hd Hsp Hw Hlink HK.
  destruct (links_cases (4 - d) (rd64 (pmem st) a)) as [(Hp & Hl & ->)|(Hp & -> & _)].
  - apply wp_bind. eapply wp_mono; [apply (get_or_alloc_absent _ _ _ _ p); [apply Hsp|lia|done|]|].
    { intros f Hf. destruct (walk_node d 4 (pmem st) root lo n va a) as (g & Hg & ->); [lia|done..|].
      pose proof (tindex_range (4 - d) va).
      destruct (sp_apart _ _ _ _ _ _ _ _ Hsp Hg Hf) as [_ [?|?]]; lia. }
    cbv beta. intros r st' Hr. destruct p as [|f p].
    + destruct Hr as [-> ->]. rewrite Z.eqb_refl. apply wp_ret. exists [].
      split; [by apply extended_refl|]. split; [lia|by left].
    + destruct Hr as (-> & st1 & Hst1 & Hfi1 & ->).
      assert (frame_ok f) as Hok by (eapply sp_apart; [exact Hsp|left..]).
      rewrite (proj2 (Z.eqb_neq f _)) by auto with cint.
      set (w' := fresh_link (4 - d) user (rd64 (pmem st) a) f).
      assert (links (4 - d) w' = true) by (apply fresh_link_links; lia).
      assert (addr_of w' = f) by (by apply fresh_link_addr).
      assert (0 ≤ w' < 2 ^ 64) by (apply fresh_link_range, rd64_range).
      assert (extended root lo n st (f :: p) (link_state st1 f a w') p) as Hext.
      { split.
        - apply (add_node_evolves st st1 root lo n f p d va a w'); assumption || lia.
        - apply (add_node_keeps st st1 root lo n f p d va a w'); assumption || lia.
        - intros va' Hs'. apply (add_node_pte st st1 root lo n f p d va a w'); assumption || lia. }
      eapply wp_mono; [|intros r st'; apply created_trans; [exact Hext|cbn; lia]].
      eapply HK; [done|].
      apply (add_node_walk st st1 root lo n f p d va a w'); assumption || lia.
  - apply wp_bind. eapply wp_of_eq; [by apply get_or_alloc_present|].
    eapply wp_mono; [|intros r st'; apply created_trans; [by apply extended_refl|lia]].
    apply (HK st p); [by apply extended_refl|].
    rewrite (walk_snoc _ _ _ _ _ _ Hw (Hlink Hp)).
    by replace (4 - S d)%nat with (3 - d)%nat by lia.
Qed.

(** An entry of a lower table, as found by a walk, is not a huge page. *)
Lemma walk_not_big d st p a :
  space st root lo n p → (d = 1 ∨ d = 2)%nat → walk d 4 (pmem st) root va = Some a →
  present (rd64 (pmem st) a) = true → big_page (rd64 (pmem st) a) = false.
Proof.
  intros Hsp Hd Hw. destruct (walk_node d 4 (pmem st) root lo n va a) as (g & Hg & ->); [lia|done..|].
  apply elem_of_cons in Hg as [[= E]|Hg]; [lia|].
  apply (sp_big _ _ _ _ _ Hsp _ _ _ Hg); [lia|apply tindex_range].
Qed.

Lemma not_big_links k w : (present w = true → big_page w = false) → present w = true → links k w = true.
Proof. unfold links. intros Hb Hp. rewrite Hp, (Hb Hp). by destruct k as [|[|[|[|]]]]. Qed.

Lemma travel_p2_create st p pd user :
  space st root lo n p → walk 2 4 (pmem st) root va = Some (pd + 8 * tindex 2 va) →
  wp (travel_p2 pd va CREATE_MODE user) st (created 1 st p).
Proof.
  intros Hsp Hw. unfold travel_p2. rewrite PD_tindex, PT_tindex. fld_steps.
  pose proof (walk_not_big 2 _ _ _ Hsp ltac:(lia) Hw) as Hb. rewrite (not_big_test _ Hb).
  apply (stage_spec 0 2 st p _ user (λ pt, ret (pt + 8 * tindex 1 va))); [lia|done|done|by apply not_big_links|].
  intros st' p' t Hext Hw'. apply wp_ret. exists p'.
  split; [apply extended_refl, Hext|]. split; [lia|by right].
Qed.

Lemma travel_p3_create st p pdpt user :
  space st root lo n p → walk 1 4 (pmem st) root va = Some (pdpt + 8 * tindex 3 va) →
  wp (travel_p3 pdpt va CREATE_MODE user) st (created 2 st p).
Proof.
  intros Hsp Hw. unfold travel_p3. rewrite PDP_tindex. fld_steps.
  pose proof (walk_not_big 1 _ _ _ Hsp ltac:(lia) Hw) as Hb. rewrite (not_big_test _ Hb).
  apply (stage_spec 1 1 st p _ user (λ pd, travel_p2 pd va CREATE_MODE user));
    [lia|done|done|by apply not_big_links|].
  intros st' p' t Hext Hw'. apply travel_p2_create; [apply Hext|done].
Qed.

Lemma travel_create st p :
  space st root lo n p →
  wp (travel_pagetable_in root va CREATE_MODE) st (created 3 st p).
Proof.
  intros Hsp. unfold travel_pagetable_in, phys_to_virt. rewrite PML4_tindex, Z.add_0_l.
  rewrite frame_ok_aligned_page_down by apply Hsp. fld_steps.
  apply (stage_spec 2 0 st p _ (VA_USER_BASE <=? va)
           (λ pdpt, travel_p3 pdpt va CREATE_MODE (VA_USER_BASE <=? va))); [lia|done|done| |].
  - unfold links. intros ->. done.
  - intros st' p' t Hext Hw'. apply travel_p3_create; [apply Hext|done].
Qed.
End create.
