(* ===== verification/VpagesPages.v ===== *)
(** * Pages of an address space

    Reserving pages ([demand_page_in], [reserve_pages_at], [MMU_alloc_*]), giving
    them a frame on the first access ([make_page_present], the page-fault handler),
    and the accesses themselves ([access], [write_user_range_as]).  Everything is
    stated on the abstract map [pte] of the space. *)

From S2P Require Import Prelude Memory Frames Vpages Bits PageTree VpagesMap.

Implicit Types (m : mem) (st : mst) (p : list Z).

(** The mapping of exactly the page of [va] becomes [w]. *)
Definition pte_set (root lo n : Z) (m m' : mem) (va w : Z) : Prop :=
  ∀ va', in_slots lo n va' →
    pte m' root va' = if decide (vpn va' = vpn va) then w else pte m root va'.

(** No mapping changes. *)
Definition pte_same (root lo n : Z) (m m' : mem) : Prop :=
  ∀ va, in_slots lo n va → pte m' root va = pte m root va.

(** The entry of a reserved page, and that of a page that was just given the
    frame [f]. *)
Definition reserved_word (w : Z) : Z := set_bits F_addr (set_bits F_present (set_bits F_demand w 1) 0) 0.
Definition present_word (user : bool) (w f : Z) : Z :=
  set_bits F_demand
    (set_bits F_us (set_bits F_rw (set_bits F_present (set_bits F_addr w (phys_to_pfn f)) 1) 1)
       (b2z user)) 0.

Lemma walk_page st root lo n p va va' a :
  space st root lo n p → in_slots lo n va → in_slots lo n va' →
  walk 3 4 (pmem st) root va = Some a →
  walk 3 4 (pmem st) root va' = Some a ↔ vpn va' = vpn va.
Proof.
  intros Hsp Hs Hs' Hw. rewrite vpn_eq. split.
  - intros Hw' j Hj. symmetry. pose proof (sp_nodup_tree _ _ _ _ _ Hsp) as [_ Hnd]%NoDup_cons.
    by apply (walk_inj 3 4 (pmem st) root lo n va va' a); try lia.
  - intros Hj. rewrite <-Hw. apply walk_same_index. intros j Hjk. apply Hj. lia.
Qed.

Lemma links_1 w : links 1 w = present w.
Proof. unfold links. apply andb_true_r. Qed.

(** ** Changing an entry that maps no page *)

Section set_leaf.
Context (st : mst) (root lo n : Z) (p : list Z) (va a w' : Z).
Hypothesis Hsp : space st root lo n p.
Hypothesis Hs : in_slots lo n va.
Hypothesis Hw : walk 3 4 (pmem st) root va = Some a.
Hypothesis Hold : present (rd64 (pmem st) a) = false.
Hypothesis Hnew : present w' = false.
Hypothesis Hw64 : 0 ≤ w' < 2 ^ 64.

Local Abbreviation st' := (put_word a w' st).

Lemma set_leaf_where : ∃ g j, (1%nat, g) ∈ (4%nat, root) :: slots (pmem st) root lo n ∧
  0 ≤ j < 512 ∧ a = g + 8 * j.
Proof.
  destruct (walk_node _ _ _ _ lo n _ _ (le_n 4) Hw Hs) as (g & Hg & ->).
  exists g, (tindex 1 va). split; [done|]. split; [apply tindex_range|done].
Qed.

Lemma set_leaf_agree :
  agree_but (Some a) ((4%nat, root) :: slots (pmem st) root lo n) (pmem st) (pmem st').
Proof.
  destruct set_leaf_where as (g & j & Hg & Hj & E). cbn. rewrite E.
  apply (agree_but_store _ []); [|constructor|apply unchanged_refl|by eapply sp_node_ok|done].
  intros k g' Hg'. split; [by eapply sp_node_ok|apply not_elem_of_nil].
Qed.

Lemma set_leaf_word : rd64 (pmem st') a = w'.
Proof. cbn. rewrite rd64_wr64_eq. by apply u64_small. Qed.

Lemma set_leaf_unchanged g j : a = g + 8 * j → 0 ≤ j < 512 → unchanged [g] (pmem st) (pmem st').
Proof.
  intros -> Hj x Hx. cbn. rewrite rd8_wr_out; [done|].
  destruct (Hx g); [left|lia|lia].
Qed.

Lemma set_leaf_evolves : evolves root lo n st p st' p ∧ keeps root lo n (pmem st) (pmem st').
Proof.
  destruct set_leaf_where as (g & j & Hg & Hj & E).
  pose proof (set_leaf_unchanged _ _ E Hj) as Hun.
  assert (frames_inv st' p) as Hfi.
  { eapply frames_inv_state; [apply Hsp|done|done|]. intros f Hf.
    destruct (sp_apart _ _ _ _ _ _ _ _ Hsp Hg Hf) as [_ ?].
    eapply unchanged_rd; [exact Hun|]. intros g' ->%list_elem_of_singleton. lia. }
  destruct (space_step st root lo n p st' p 3 va a Hsp Hs (le_n 4) Hw set_leaf_agree) as (H1 & H2 & H3).
  - done.
  - rewrite set_leaf_word, !child_nil by (by rewrite links_1). done.
  - rewrite set_leaf_word, child_nil by (by rewrite links_1). intros k g' i []%elem_of_nil.
  - lia.
  - rewrite set_leaf_word, !child_nil, !app_nil_r in H3 by (by rewrite links_1). split.
    + split; [done|done| |by repeat split]. eapply unchanged_sub; [|exact Hun].
      intros g' ->%list_elem_of_singleton. apply (list_elem_of_fmap_2 snd) in Hg.
      rewrite app_comm_cons. apply elem_of_app. by left.
    + intros f Hf. split; [by rewrite H3|]. intros x Hx. apply Hun.
      intros g' ->%list_elem_of_singleton.
      assert (g ≠ f) as Hne.
      { intros ->. apply (NoDup_node _ 0) in Hg; [lia|by eapply sp_nodup_tree|by right]. }
      destruct (frames_apart g f); [by eapply (sp_node_ok st)|eapply (sp_node_ok st); [done|by right]|done|lia|lia].
Qed.

Lemma set_leaf_pte : pte_set root lo n (pmem st) (pmem st') va w'.
Proof.
  intros va' Hs'.
  pose proof (leaf_update _ _ _ _ 3 0 4 root lo n va'
    (sp_one_entry _ _ _ _ _ _ _ _ _ Hsp Hs (le_n 4) Hw set_leaf_agree)) as Hup.
  cbn [Nat.add leaf_of] in Hup. rewrite Hup by (exact Hs' || lia). rewrite set_leaf_word.
  apply decide_ext. by eapply walk_page.
Qed.

Lemma set_leaf_slots : slots (pmem st') root lo n ≡ₚ slots (pmem st) root lo n.
Proof.
  pose proof (entries_update _ _ _ _ _ _ _ _ _
    (sp_one_entry _ _ _ _ _ _ _ _ _ Hsp Hs (le_n 4) Hw set_leaf_agree)) as Hup.
  by rewrite set_leaf_word, !child_nil, !app_nil_r in Hup by (by rewrite links_1).
Qed.
End set_leaf.

Lemma pte_walk m root va a : walk 3 4 m root va = Some a → pte m root va = rd64 m a.
Proof. unfold leaf. by intros ->. Qed.

(** ** Reserving one page *)

Lemma reserved_word_bits w :
  present (reserved_word w) = false ∧ demand (reserved_word w) = true ∧
  (0 ≤ w < 2 ^ 64 → 0 ≤ reserved_word w < 2 ^ 64).
Proof.
  unfold reserved_word. split; [by entry_bits|]. split; [by entry_bits|].
  intros. by repeat apply set_bits_range.
Qed.

Lemma demand_page_in_spec st root lo n p va :
  space st root lo n p → in_slots lo n va →
  wp (demand_page_in root va) st (λ r st', ∃ p', (length p ≤ length p' + 3)%nat ∧
    evolves root lo n st p st' p' ∧ keeps root lo n (pmem st) (pmem st') ∧
    let w := pte (pmem st) root va in
    ((r = 0 ∧ demand w = false ∧ present w = false ∧
      pte_set root lo n (pmem st) (pmem st') va (reserved_word w)) ∨
     (r = -1 ∧ pte_same root lo n (pmem st) (pmem st') ∧
      (p' = [] ∨ demand w = true ∨ present w = true)))).
Proof.
  intros Hsp Hs. unfold demand_page_in. apply wp_bind.
  eapply wp_mono; [by apply (travel_create root lo n va Hs)|]. cbv beta.
  intros r st1 (p1 & [He Hk Hpte] & Hlen & [[-> ->]|Hw]).
  { rewrite Z.eqb_refl. apply wp_ret. exists []. split; [done|]. split; [done|]. split; [done|]. right. auto. }
  rewrite (proj2 (Z.eqb_neq r _)) by (by eapply walk_valid). fld_steps.
  fold (demand (rd64 (pmem st1) r)) (present (rd64 (pmem st1) r)).
  pose proof (pte_walk _ _ _ _ Hw) as Hr. rewrite (Hpte va Hs) in Hr. rewrite <-Hr.
  destruct (demand _) eqn:Hdem, (present _) eqn:Hpres; cbn [orb].
  1-3: apply wp_ret; exists p1; do 3 (split; [done|]); right; auto.
  destruct (reserved_word_bits (rd64 (pmem st1) r)) as (Hnp & _ & Hrange).
  specialize (Hrange (rd64_range _ _)).
  repeat set_fields. fld_steps. fold (reserved_word (rd64 (pmem st1) r)).
  assert (present (rd64 (pmem st1) r) = false) as Hold by (by rewrite <-Hr).
  pose proof (ev_space _ _ _ _ _ _ _ He) as Hsp1.
  destruct (set_leaf_evolves st1 root lo n p1 va r _ Hsp1 Hs Hw Hold Hnp Hrange) as [He' Hk'].
  exists p1. split; [done|]. split; [by eapply evolves_trans|]. split; [by eapply keeps_trans|]. left.
  do 3 (split; [done|]). intros va' Hs'.
  rewrite (set_leaf_pte st1 root lo n p1 va r _ Hsp1 Hs Hw) by done.
  case_decide; [by rewrite Hr|by apply Hpte].
Qed.

(** ** Reserving a range of pages *)

(** The pages [b .. b+k-1] became reservations, and nothing else changed. *)
Definition pages_reserved (root lo n : Z) (m m' : mem) (b k : Z) : Prop :=
  ∀ va, in_slots lo n va →
    pte m' root va = if decide (b ≤ vpn va < b + k) then reserved_word (pte m root va)
                     else pte m root va.

Definition pages_free (root lo n : Z) (m : mem) (b k : Z) : Prop :=
  ∀ va, in_slots lo n va → b ≤ vpn va < b + k →
    demand (pte m root va) = false ∧ present (pte m root va) = false.

(** A range of pages that lies in the slots. *)
Definition span_ok (lo n b k : Z) : Prop := lo * 2 ^ 27 ≤ b ∧ b + k ≤ (lo + n) * 2 ^ 27.

(** The result of reserving [k] pages one after the other, failing at the
    first that is in use or when no frame is left for a table. *)
Definition reserve_result (root lo n b k : Z) (st : mst) (p : list Z) (ok : bool) (st' : mst) : Prop :=
  ∃ p' j, evolves root lo n st p st' p' ∧ keeps root lo n (pmem st) (pmem st') ∧
    Z.of_nat (length p) ≤ Z.of_nat (length p') + 3 * k ∧
    pages_reserved root lo n (pmem st) (pmem st') b j ∧ pages_free root lo n (pmem st) b j ∧
    if ok then j = k
    else 0 ≤ j < k ∧
      (p' = [] ∨ ∃ va, in_slots lo n va ∧ vpn va = b + j ∧
        (demand (pte (pmem st) root va) = true ∨ present (pte (pmem st) root va) = true)).

Lemma page_addr lo n b k i :
  0 ≤ lo → lo + n ≤ 512 → span_ok lo n b k → 0 ≤ i < k →
  let va := u64 (b * PAGE_SIZE + i * PAGE_SIZE) in in_slots lo n va ∧ vpn va = b + i.
Proof.
  intros Hlo Hhi [Hb Hk] Hi va. subst va. rewrite u64_small by lia.
  replace (b * PAGE_SIZE + i * PAGE_SIZE) with ((b + i) * PAGE_SIZE) by lia. unfold in_slots, vpn, tindex.
  change (3 + 9 * Z.of_nat 4) with (12 + 27). rewrite Z.pow_add_r, <-Z.div_div by lia.
  change (2 ^ 12) with PAGE_SIZE. rewrite Z.div_mul by lia.
  assert (lo ≤ (b + i) / 2 ^ 27 < lo + n) by dlia.
  split; [rewrite Z.mod_small; lia|]. apply Z.mod_small. lia.
Qed.

Lemma pages_reserved_snoc root lo n m m' m'' b j va :
  in_slots lo n va → vpn va = b + j → 0 ≤ j →
  pages_reserved root lo n m m' b j →
  pte_set root lo n m' m'' va (reserved_word (pte m' root va)) →
  pages_reserved root lo n m m'' b (j + 1).
Proof.
  intros Hs Hv Hj Hr Hset va' Hs'. rewrite (Hset va' Hs'). destruct (decide (vpn va' = vpn va)) as [E|E].
  - rewrite decide_True by lia. rewrite (Hr va Hs), decide_False by lia.
    unfold leaf. rewrite (walk_same_index 3 4 m root va va'); [done|].
    intros i Hi. symmetry. apply vpn_eq; [done|lia].
  - rewrite (Hr va' Hs'). apply decide_ext. lia.
Qed.

Lemma pages_free_snoc root lo n m m' b j va :
  in_slots lo n va → vpn va = b + j → 0 ≤ j →
  pages_reserved root lo n m m' b j → pages_free root lo n m b j →
  demand (pte m' root va) = false → present (pte m' root va) = false →
  pages_free root lo n m b (j + 1).
Proof.
  intros Hs Hv Hj Hr Hf Hd Hp va' Hs' Hr'. destruct (decide (vpn va' = vpn va)) as [E|E].
  - rewrite (Hr va Hs), decide_False in Hd, Hp by lia. unfold leaf in *.
    rewrite (walk_same_index 3 4 m root va' va); [done|]. intros i Hi. apply vpn_eq; [done|lia].
  - apply Hf; [done|lia].
Qed.

(** [dp] is [demand_page_in root], or [demand_page] while [root] is current. *)
Lemma reserve_loop {R} (x : R) (dp : Z → M mst Z) st root lo n p b k :
  (∀ va st', cr3 st' = cr3 st → dp va st' = demand_page_in root va st') →
  space st root lo n p → span_ok lo n b k →
  wp (for_ret (seqZ 0 k) (λ i,
        e <- dp (u64 (b * PAGE_SIZE + i * PAGE_SIZE)) ;;
        ret (if e <? 0 then Some x else None))) st
     (λ r st', reserve_result root lo n b (Z.max 0 k) st p (bool_decide (r = None)) st' ∧
               (r = None ∨ r = Some x)).
Proof.
  intros Hdp Hsp Hspan.
  apply (wp_for_ret (λ done _ st', ∃ p',
    evolves root lo n st p st' p' ∧ keeps root lo n (pmem st) (pmem st') ∧
    Z.of_nat (length p) ≤ Z.of_nat (length p') + 3 * Z.of_nat (length done) ∧
    pages_reserved root lo n (pmem st) (pmem st') b (Z.of_nat (length done)) ∧
    pages_free root lo n (pmem st) b (Z.of_nat (length done)))).
  - exists p. split; [by apply evolves_refl|]. split; [apply keeps_refl|]. split; [cbn; lia|]. split.
    + intros va Hs. rewrite decide_False by (simpl; lia). done.
    + intros va Hs Hv. simpl in Hv. lia.
  - intros done i rest st1 Hl (p1 & He & Hk & Hlen & Hr & Hf).
    apply seqZ_split_index in Hl as [-> Hi]. rewrite Z.add_0_l.
    pose proof (ev_space _ _ _ _ _ _ _ He) as Hsp1.
    destruct (page_addr lo n b k (Z.of_nat (length done)) (sp_lo _ _ _ _ _ Hsp) (sp_hi _ _ _ _ _ Hsp) Hspan)
      as [Hs Hv]; [lia|].
    apply wp_bind. unfold wp at 1. rewrite Hdp by apply (ev_vars _ _ _ _ _ _ _ He).
    eapply wp_mono; [by apply (demand_page_in_spec st1 root lo n p1)|]. cbv beta.
    intros e st2 (p2 & Hlen2 & He2 & Hk2 & [(-> & Hd & Hp & Hset)|(-> & Hsame & Hwhy)]); apply wp_ret; cbn.
    + exists p2. rewrite length_app. cbn [length]. rewrite Nat2Z.inj_add.
      split; [by eapply evolves_trans|]. split; [by eapply keeps_trans|]. split; [lia|].
      split; [by eapply pages_reserved_snoc; [| |lia|..]|by eapply pages_free_snoc; [| |lia|..]].
    + split; [|by right]. exists p2, (Z.of_nat (length done)).
      split; [by eapply evolves_trans|]. split; [by eapply keeps_trans|]. split; [lia|].
      split; [intros va' Hs'; rewrite Hsame by done; by apply Hr|]. split; [done|].
      split; [lia|]. destruct Hwhy as [->|Hwhy]; [by left|right]. eexists. split; [exact Hs|].
      split; [done|]. rewrite (Hr _ Hs), decide_False in Hwhy by lia. done.
  - intros st' (p' & He & Hk & Hlen & Hr & Hf). split; [|by left]. exists p', (Z.of_nat (length (seqZ 0 k))).
    do 2 (split; [done|]). rewrite length_seqZ in Hlen. split; [lia|]. do 2 (split; [done|]).
    cbn. rewrite length_seqZ. lia.
Qed.

(** ** The memory a program sees

    The byte at [va] of an address space: a reserved page reads as zeros before
    it has a frame. *)

Definition vmem (m : mem) (root va : Z) : option Z :=
  let w := pte m root va in
  if present w then Some (rd8 m (addr_of w + va mod PAGE_SIZE))
  else if demand w then Some 0 else None.

Definition vmem_same (root lo n : Z) (m m' : mem) : Prop :=
  ∀ va, in_slots lo n va → vmem m' root va = vmem m root va.

(** A present page is a node of the tree. *)
Lemma pte_node m root lo n va :
  in_slots lo n va → present (pte m root va) = true →
  (0%nat, addr_of (pte m root va)) ∈ slots m root lo n.
Proof.
  apply leaf_node.
Qed.

Lemma page_offset va : 0 ≤ va mod PAGE_SIZE < PAGE_SIZE.
Proof. apply Z.mod_pos_bound. lia. Qed.

Lemma vmem_keeps root lo n m m' va :
  in_slots lo n va → keeps root lo n m m' → pte m' root va = pte m root va →
  vmem m' root va = vmem m root va.
Proof.
  intros Hs Hk Hp. unfold vmem. rewrite Hp. destruct (present _) eqn:Hpres; [|done].
  destruct (Hk _ (pte_node _ _ _ _ _ Hs Hpres)) as [_ ->]; [done|].
  pose proof (page_offset va). lia.
Qed.

(** ** Giving a reserved page its frame *)

Lemma present_word_bits user w f :
  frame_ok f → 0 ≤ w < 2 ^ 64 →
  present (present_word user w f) = true ∧ demand (present_word user w f) = false ∧
  user_page (present_word user w f) = user ∧
  addr_of (present_word user w f) = f ∧ 0 ≤ present_word user w f < 2 ^ 64.
Proof.
  intros Hf Hw. unfold present_word. split; [by entry_bits|]. split; [by entry_bits|].
  split; [entry_bits; by destruct user|].
  split; [|by repeat apply set_bits_range].
  repeat rewrite addr_of_other by reflexivity. by apply addr_of_set.
Qed.

(** The page of [va] got the cleared frame [f] from the pool. *)
Definition page_filled (root lo n va : Z) (st : mst) (p : list Z) (st' : mst) : Prop :=
  ∃ f p', p = f :: p' ∧ evolves root lo n st p st' p' ∧ keeps root lo n (pmem st) (pmem st') ∧
    pte_set root lo n (pmem st) (pmem st') va
      (present_word (VA_USER_BASE <=? va) (pte (pmem st) root va) f) ∧
    walk 3 4 (pmem st') root va = walk 3 4 (pmem st) root va ∧
    (∀ x, f ≤ x < f + PAGE_SIZE → rd8 (pmem st') x = 0).

Lemma make_page_present_spec st root lo n p va a :
  space st root lo n p → in_slots lo n va → walk 3 4 (pmem st) root va = Some a →
  wp (make_page_present a va) st (λ r st',
    let w := pte (pmem st) root va in
    if present w then r = 0 ∧ st' = st
    else if demand w && negb (bool_decide (p = [])) then r = 0 ∧ page_filled root lo n va st p st'
    else r = -1 ∧ st' = st).
Proof.
  intros Hsp Hs Hw. unfold make_page_present.
  rewrite (proj2 (Z.eqb_neq a _)) by (by eapply walk_valid). fld_steps.
  rewrite <-(pte_walk _ _ _ _ Hw). fold (present (pte (pmem st) root va)).
  destruct (present _) eqn:Hp; [by apply wp_ret|]. fld_steps. rewrite <-(pte_walk _ _ _ _ Hw).
  unfold demand. destruct (_ =? 0) eqn:Hd; [by apply wp_ret|]. cbn [andb negb].
  apply wp_bind. eapply wp_mono; [apply pf_alloc_spec, Hsp|]. cbv beta.
  intros f st1 [Hst1 Hpool]. destruct p as [|x p]; [by destruct Hpool as [-> ->]; apply wp_ret|].
  destruct Hpool as [-> Hfi1]. assert (frame_ok x) as Hok by (eapply sp_apart; [exact Hsp|left..]).
  rewrite (proj2 (Z.eqb_neq x _)) by auto with cint.
  unfold phys_to_virt. rewrite Z.add_0_l. wp_step. unfold memset_at. wp_step.
  repeat set_fields. fld_steps. cbn [pmem set_pmem].
  destruct (walk_node _ _ _ _ lo n _ _ (le_n 4) Hw Hs) as (g & Hg & Ea).
  destruct (sp_apart _ _ _ _ _ _ _ x Hsp Hg) as [_ Hapart]; [left|].
  pose proof (tindex_range (4 - 3) va) as Hti.
  rewrite (rd_memset_out 8) by lia.
  assert (pmem st1 = pmem st) as Hpm by (by rewrite Hst1). rewrite Hpm, <-(pte_walk _ _ _ _ Hw).
  fold (present_word (VA_USER_BASE <=? va) (pte (pmem st) root va) x).
  rewrite bool_decide_false by done. split; [done|].
  set (w' := present_word _ _ _). rewrite <-Hpm. fold (link_state st1 x a w').
  destruct (present_word_bits (VA_USER_BASE <=? va) (pte (pmem st) root va) x Hok)
    as (Hp' & _ & _ & Ha' & Hr'); [rewrite (pte_walk _ _ _ _ Hw); apply rd64_range|]. fold w' in Hp', Ha', Hr'.
  assert (links (4 - 3) (rd64 (pmem st) a) = false) as Hl by (rewrite links_1, <-(pte_walk _ _ _ _ Hw); done).
  assert (links (4 - 3) w' = true) as Hl' by (by rewrite links_1).
  exists x, p. split; [done|].
  split; [by apply (add_node_evolves st st1 root lo n x p 3 va a w' Hsp Hs (le_n 4) Hw)|].
  split; [by apply (add_node_keeps st st1 root lo n x p 3 va a w' Hsp Hs (le_n 4) Hw)|]. split.
  - intros va' Hs'. rewrite (add_node_pte_page st st1 root lo n x p 3 va a w' Hsp Hs (le_n 4) Hw) by done.
    apply decide_ext. by eapply walk_page.
  - split.
    { rewrite Hw. by apply (add_node_walk st st1 root lo n x p 3 va a w' Hsp Hs (le_n 4) Hw). }
    intros y Hy. rewrite (add_node_pmem st st1 x a w' Hst1), rd8_wr_out, rd8_memset by lia.
    case_decide; [done|lia].
Qed.

Lemma pte_vpn m root va va' : vpn va = vpn va' → pte m root va = pte m root va'.
Proof.
  intros E. unfold leaf. rewrite (walk_same_index 3 4 m root va va'); [done|].
  intros j Hj. apply vpn_eq; [done|lia].
Qed.

(** Demand paging is invisible: the page reads as before. *)
Lemma page_filled_vmem root lo n va st p st' :
  space st root lo n p → in_slots lo n va → page_filled root lo n va st p st' →
  demand (pte (pmem st) root va) = true → present (pte (pmem st) root va) = false →
  vmem_same root lo n (pmem st) (pmem st') ∧ present (pte (pmem st') root va) = true.
Proof.
  intros Hsp Hs (f & p' & -> & He & Hk & Hset & _ & Hz) Hd Hp.
  assert (frame_ok f) as Hok by (eapply sp_apart; [exact Hsp|left..]).
  destruct (present_word_bits (VA_USER_BASE <=? va) (pte (pmem st) root va) f Hok)
    as (Hp' & _ & _ & Ha' & _).
  { unfold leaf. destruct (walk _ _ _ _ _); [apply rd64_range|lia]. }
  split.
  - intros va' Hs'. destruct (decide (vpn va' = vpn va)) as [E|E].
    + unfold vmem. rewrite (Hset va' Hs'), decide_True by done. rewrite Hp', Ha'.
      rewrite Hz by (pose proof (page_offset va'); lia).
      rewrite (pte_vpn (pmem st) root va' va E). by rewrite Hp, Hd.
    + apply (vmem_keeps root lo n); [done|done|]. by rewrite (Hset va' Hs'), decide_False.
  - by rewrite (Hset va Hs), decide_True.
Qed.

(** ** Translation and page faults *)

Lemma translate_spec st root lo n p va :
  space st root lo n p → in_slots lo n va →
  translate (pmem st) root va =
    let w := pte (pmem st) root va in
    if present w then Some (addr_of w + va mod PAGE_SIZE) else None.
Proof.
  intros Hsp Hs. unfold translate, leaf.
  rewrite frame_ok_aligned_page_down, PML4_tindex, PDP_tindex, PD_tindex, PT_tindex by apply Hsp.
  cbn [walk pred]. unfold links at 1. destruct (present (rd64 _ (root + _))) eqn:E4; cbn [negb andb].
  2: { by rewrite present_0. }
  set (w3 := rd64 _ (addr_of _ + 8 * tindex 3 va)).
  assert (walk 1 4 (pmem st) root va = Some (addr_of (rd64 (pmem st) (root + 8 * tindex 4 va)) + 8 * tindex 3 va)) as Hw1.
  { cbn. unfold links. by rewrite E4. }
  pose proof (walk_not_big root lo n va Hs 1 _ _ _ Hsp ltac:(lia) Hw1) as Hb3. fold w3 in Hb3.
  unfold links at 1. destruct (present w3) eqn:E3; cbn [negb andb]; [|by rewrite present_0].
  rewrite Hb3 by done. cbn [negb].
  set (w2 := rd64 _ (addr_of _ + 8 * tindex 2 va)).
  assert (walk 2 4 (pmem st) root va = Some (addr_of w3 + 8 * tindex 2 va)) as Hw2.
  { cbn. unfold links. rewrite E4. cbn. fold w3. by rewrite E3, Hb3. }
  pose proof (walk_not_big root lo n va Hs 2 _ _ _ Hsp ltac:(lia) Hw2) as Hb2. fold w2 in Hb2.
  unfold links. destruct (present w2) eqn:E2; cbn [negb andb]; [|by rewrite present_0].
  rewrite Hb2 by done. cbn [negb]. rewrite E4, E3, (Hb3 eq_refl). cbn [negb andb].
  by destruct (present (rd64 _ (addr_of w2 + _))).
Qed.

Lemma evolves_cr2 root lo n st p st' p' v :
  evolves root lo n (set_cr2 v st) p st' p' → evolves root lo n st p st' p'.
Proof. intros [H1 H2 H3 H4]. by split. Qed.

Lemma space_cr2 root lo n st p v : space st root lo n p → space (set_cr2 v st) root lo n p.
Proof. intros [H1 H2 H3 H4 H5 H6]. by split. Qed.

Lemma ISR14_unfold st :
  frame_ok (cr3 st) →
  ISR14_PAGE_FAULT_HANDLER st =
    match walk 3 4 (pmem st) (cr3 st) (cr2 st) with
    | Some a =>
        if demand (rd64 (pmem st) a) && negb (present (rd64 (pmem st) a)) then
          (e <- make_page_present a (cr2 st) ;; if e <? 0 then halt else ret tt) st
        else Halt
    | None => Halt
    end.
Proof.
  intros Hok. unfold ISR14_PAGE_FAULT_HANDLER, travel_pagetable, MMU_current_p4.
  erewrite bind_ret; [|done].
  erewrite bind_ret; [|erewrite bind_ret; [apply travel_walk|done]].
  rewrite frame_ok_aligned_page_down by done.
  destruct (walk 3 4 (pmem st) (cr3 st) (cr2 st)) as [a|] eqn:Hw; cbn [default]; [|done].
  rewrite (proj2 (Z.eqb_neq a _)) by (by eapply walk_valid).
  erewrite bind_ret; [|done]. erewrite bind_ret; [|done].
  unfold demand, present. rewrite negb_involutive. by destruct (_ && _).
Qed.

Lemma ISR14_spec st lo n p :
  space st (cr3 st) lo n p → in_slots lo n (cr2 st) →
  let w := pte (pmem st) (cr3 st) (cr2 st) in
  if demand w && negb (present w) && negb (bool_decide (p = []))
  then wp ISR14_PAGE_FAULT_HANDLER st (λ _ st', page_filled (cr3 st) lo n (cr2 st) st p st')
  else ISR14_PAGE_FAULT_HANDLER st = Halt.
Proof.
  intros Hsp Hs w. subst w. unfold wp. rewrite (ISR14_unfold st (sp_root _ _ _ _ _ Hsp)).
  destruct (walk 3 4 (pmem st) (cr3 st) (cr2 st)) as [a|] eqn:Hw.
  2: { unfold leaf. by rewrite Hw, demand_0. }
  pose proof (make_page_present_spec st (cr3 st) lo n p (cr2 st) a Hsp Hs Hw) as Hm.
  cbv zeta in Hm. rewrite (pte_walk _ _ _ _ Hw) in Hm |- *.
  destruct (demand (rd64 (pmem st) a)), (present (rd64 (pmem st) a)); cbn [andb negb] in *; try done.
  apply wp_iff in Hm as (r & st1 & E & Hm). rewrite (bind_ret _ _ _ _ _ E).
  destruct (bool_decide (p = [])); cbn [negb] in *; by destruct Hm as [-> Hm].
Qed.

(** ** Writing to a data page *)

Lemma pte_page_inj st root lo n p va va' :
  space st root lo n p → in_slots lo n va → in_slots lo n va' →
  present (pte (pmem st) root va) = true → present (pte (pmem st) root va') = true →
  addr_of (pte (pmem st) root va) = addr_of (pte (pmem st) root va') → vpn va = vpn va'.
Proof.
  intros Hsp Hs Hs' Hp Hp' Ha. unfold leaf in *.
  destruct (walk 3 4 _ _ va) as [a|] eqn:Hw; [|by rewrite present_0 in Hp].
  destruct (walk 3 4 _ _ va') as [a'|] eqn:Hw'; [|by rewrite present_0 in Hp'].
  pose proof (sp_nodup_tree _ _ _ _ _ Hsp) as [_ Hnd]%NoDup_cons.
  assert (a = a') as ->.
  { by apply (walk_leaf_inj 3 4 (pmem st) root lo n va va'); rewrite ?links_1; try lia. }
  symmetry. by apply (walk_page st root lo n p va va' a').
Qed.

Section data_write.
Context (st : mst) (root lo n : Z) (p : list Z) (va : Z) (m' : mem).
Hypothesis Hsp : space st root lo n p.
Hypothesis Hs : in_slots lo n va.
Hypothesis Hpres : present (pte (pmem st) root va) = true.

Local Abbreviation g := (addr_of (pte (pmem st) root va)).
Hypothesis Hun : unchanged [g] (pmem st) m'.

Lemma data_write_node : (0%nat, g) ∈ slots (pmem st) root lo n.
Proof. by apply pte_node. Qed.

Lemma data_write_agree :
  agree_but None ((4%nat, root) :: slots (pmem st) root lo n) (pmem st) m'.
Proof.
  intros k f i Hf Hi _. eapply unchanged_word; [exact Hun| |by eapply sp_node_ok| |done].
  - constructor; [apply addr_of_ok|constructor].
  - intros ->%list_elem_of_singleton.
    apply (NoDup_node _ 0) in Hf; [done|by eapply sp_nodup_tree|]. right. apply data_write_node.
Qed.

Lemma data_write_slots : slots m' root lo n = slots (pmem st) root lo n.
Proof.
  pose proof (sp_lo _ _ _ _ _ Hsp). pose proof (sp_hi _ _ _ _ _ Hsp).
  apply entries_agree.
  - intros i Hi. apply (data_write_agree 3%nat); [left|lia|done].
  - intros k f i Hf. apply (data_write_agree k). by right.
Qed.

Lemma data_write_evolves : evolves root lo n st p (set_pmem m' st) p.
Proof.
  assert (∀ f, f ∈ p → rd64 m' f = rd64 (pmem st) f) as Hpool.
  { intros f Hf. assert ((0%nat, g) ∈ (4%nat, root) :: slots (pmem st) root lo n) as Hg
      by (right; apply data_write_node).
    destruct (sp_apart _ _ _ _ _ _ _ _ Hsp Hg Hf) as [_ ?].
    eapply unchanged_rd; [exact Hun|]. intros g' ->%list_elem_of_singleton. lia. }
  split; cbn; rewrite ?data_write_slots; [|done| |done].
  - split; cbn; rewrite ?data_write_slots; try apply Hsp.
    + by eapply frames_inv_state; [apply Hsp|..].
    + intros k f i Hf Hk Hi. destruct k as [|k]; [lia|].
      rewrite (data_write_agree k f i) by (by right || done). by apply (sp_big _ _ _ _ _ Hsp (S k)).
  - eapply unchanged_sub; [|exact Hun]. intros g' ->%list_elem_of_singleton. right.
    apply elem_of_app. left. apply list_elem_of_fmap. by exists (0%nat, g); split; [|apply data_write_node].
Qed.

Lemma data_write_pte : pte_same root lo n (pmem st) m'.
Proof. intros va' Hs'. apply (leaf_agree 3 4 _ _ _ lo n); [lia|done|apply data_write_agree]. Qed.

Lemma data_write_vmem va' :
  in_slots lo n va' →
  vmem m' root va' =
    if decide (vpn va' = vpn va) then Some (rd8 m' (g + va' mod PAGE_SIZE)) else vmem (pmem st) root va'.
Proof.
  intros Hs'. unfold vmem. rewrite (data_write_pte va' Hs'). case_decide as E.
  - by rewrite (pte_vpn _ _ _ _ E), Hpres.
  - destruct (present (pte (pmem st) root va')) eqn:Hp'; [|done]. f_equal. apply Hun.
    intros g' ->%list_elem_of_singleton. pose proof (page_offset va').
    destruct (frames_apart g (addr_of (pte (pmem st) root va'))); [apply addr_of_ok..| |lia|lia].
    intros Ha. apply E. symmetry. by eapply pte_page_inj.
Qed.
End data_write.

(** ** Kernel accesses by virtual address *)

Lemma vmem_cases m root va :
  is_Some (vmem m root va) → present (pte m root va) = false → demand (pte m root va) = true.
Proof. unfold vmem. intros [b Hb] Hp. rewrite Hp in Hb. by destruct (demand _). Qed.

(** An access that found or was given a frame at the physical address [pa]. *)
Record accessed (root lo n va : Z) (st : mst) (p : list Z) (pa : Z) (st' : mst) (p' : list Z) : Prop := {
  ac_evolves : evolves root lo n st p st' p';
  ac_vmem : vmem_same root lo n (pmem st) (pmem st');
  ac_present : present (pte (pmem st') root va) = true;
  ac_pa : pa = addr_of (pte (pmem st') root va) + va mod PAGE_SIZE;
  ac_kept : ∀ va', in_slots lo n va' → present (pte (pmem st) root va') = true →
    present (pte (pmem st') root va') = true;
  ac_pool : if present (pte (pmem st) root va) then st' = st ∧ p' = p else ∃ f, p = f :: p'
}.

Lemma access_spec st lo n p va :
  space st (cr3 st) lo n p → in_slots lo n va → is_Some (vmem (pmem st) (cr3 st) va) →
  present (pte (pmem st) (cr3 st) va) = true ∨ p ≠ [] →
  wp (access va) st (λ pa st', ∃ p', accessed (cr3 st) lo n va st p pa st' p').
Proof.
  intros Hsp Hs Hv Hfree. unfold access. wp_steps. rewrite (translate_spec _ _ _ _ _ _ Hsp Hs). cbv zeta.
  destruct (present (pte (pmem st) (cr3 st) va)) eqn:Hp.
  { apply wp_ret. exists p. split; [by apply evolves_refl|done|done|done|done|by rewrite Hp]. }
  destruct Hfree as [?|Hfree]; [done|]. pose proof (vmem_cases _ _ _ Hv Hp) as Hd.
  wp_steps. pose proof (ISR14_spec (set_cr2 va st) lo n p (space_cr2 _ _ _ _ _ _ Hsp) Hs) as H14.
  cbn in H14. rewrite Hd, Hp, bool_decide_false in H14 by done. cbn [andb negb] in H14.
  eapply wp_mono; [exact H14|]. cbv beta. intros _ st' Hfill.
  destruct (page_filled_vmem _ _ _ _ _ _ _ (space_cr2 _ _ _ _ _ va Hsp) Hs Hfill Hd Hp) as [Hvm Hp'].
  destruct Hfill as (f & p' & -> & He & _ & Hset & _).
  assert (cr3 st' = cr3 st) as Hcr by apply (ev_vars _ _ _ _ _ _ _ He).
  wp_steps. rewrite Hcr, (translate_spec _ _ _ _ _ _ (ev_space _ _ _ _ _ _ _ He) Hs). cbv zeta.
  rewrite Hp'. apply wp_ret. exists p'. split; [by eapply evolves_cr2|done|done|done| |by rewrite Hp; exists f].
  intros va' Hs' Hpv. destruct (decide (vpn va' = vpn va)) as [E|E]; [by rewrite (pte_vpn _ _ _ _ E)|].
  rewrite (Hset va' Hs'), decide_False by done. done.
Qed.

Lemma same_byte va va' :
  vpn va' = vpn va ∧ va' mod PAGE_SIZE = va mod PAGE_SIZE ↔ va' mod 2 ^ 48 = va mod 2 ^ 48.
Proof. unfold vpn. change PAGE_SIZE with (2 ^ 12). split; [intros [? ?]|intros ?; split]; dlia. Qed.

Lemma vload8_spec st lo n p va :
  space st (cr3 st) lo n p → in_slots lo n va → is_Some (vmem (pmem st) (cr3 st) va) →
  present (pte (pmem st) (cr3 st) va) = true ∨ p ≠ [] →
  wp (vload8 va) st (λ b st', vmem (pmem st) (cr3 st) va = Some b ∧
    ∃ p', evolves (cr3 st) lo n st p st' p' ∧ vmem_same (cr3 st) lo n (pmem st) (pmem st')).
Proof.
  intros Hsp Hs Hv Hfree. unfold vload8. apply wp_bind.
  eapply wp_mono; [by apply (access_spec st lo n p)|]. cbv beta.
  intros pa st' (p' & [He Hvm Hp -> _ _]). apply wp_gets. split; [|by eauto].
  rewrite <-(Hvm va Hs). unfold vmem. by rewrite Hp.
Qed.

Lemma vstore8_spec st lo n p va v :
  space st (cr3 st) lo n p → in_slots lo n va → is_Some (vmem (pmem st) (cr3 st) va) →
  present (pte (pmem st) (cr3 st) va) = true ∨ p ≠ [] →
  wp (vstore8 va v) st (λ _ st', ∃ p', evolves (cr3 st) lo n st p st' p' ∧
    ∀ va', in_slots lo n va' → vmem (pmem st') (cr3 st) va' =
      if decide (va' mod 2 ^ 48 = va mod 2 ^ 48) then Some (u8 v) else vmem (pmem st) (cr3 st) va').
Proof.
  intros Hsp Hs Hv Hfree. unfold vstore8. apply wp_bind.
  eapply wp_mono; [by apply (access_spec st lo n p)|]. cbv beta.
  intros pa st1 (p1 & [He Hvm Hp -> _ _]). apply wp_modify. exists p1.
  pose proof (ev_space _ _ _ _ _ _ _ He) as Hsp1. set (g := addr_of _) in *.
  pose proof (page_offset va) as Hoff.
  assert (unchanged [g] (pmem st1) (wr8 (pmem st1) (g + va mod PAGE_SIZE) v)) as Hun.
  { intros x Hx. apply rd8_wr8_ne. destruct (Hx g); [left|lia|lia]. }
  split; [eapply evolves_trans; [exact He|]; by eapply data_write_evolves|].
  intros va' Hs'. cbn [pmem set_pmem]. rewrite (data_write_vmem st1 (cr3 st) lo n p1 va _ Hsp1 Hs Hp Hun va' Hs').
  fold g. rewrite rd8_wr8. pose proof (same_byte va va') as Hb. pose proof (page_offset va').
  destruct (decide (vpn va' = vpn va)) as [Ev|Ev]; [destruct (decide (va' mod PAGE_SIZE = va mod PAGE_SIZE)) as [Eo|Eo]|].
  - rewrite !decide_True by (tauto || lia). done.
  - rewrite !decide_False by (tauto || lia). rewrite <-(Hvm va' Hs').
    unfold vmem. by rewrite (pte_vpn _ _ _ _ Ev), Hp.
  - rewrite decide_False by tauto. by apply Hvm.
Qed.

(** ** Operations with interrupts disabled *)

Lemma wp_restore_ints b st (Q : unit → mst → Prop) :
  int_flag st = false → Q tt (set_int_flag b st) → wp (restore_ints b) st Q.
Proof.
  intros Hi HQ. unfold restore_ints, STI. destruct b; wp_steps; [done|].
  by destruct st; cbn in *; subst.
Qed.

Lemma with_ints {A} (c : M mst A) st Q :
  wp c (set_int_flag false st)
    (λ r st1, int_flag st1 = false ∧ Q r (set_int_flag (int_flag st) st1)) →
  wp (ints_enabled <- are_interrupts_enabled ;; CLI ;;
      r <- c ;; restore_ints ints_enabled ;; ret r) st Q.
Proof.
  intros Hc. unfold are_interrupts_enabled, CLI. wp_steps. eapply wp_mono; [exact Hc|]. cbv beta.
  intros r st1 [Hi HQ]. wp_step. by apply wp_restore_ints.
Qed.

Lemma evolves_int_flag root lo n st p st' p' b :
  evolves root lo n (set_int_flag b st) p st' p' →
  evolves root lo n st p (set_int_flag (int_flag st) st') p' ∧ int_flag st' = b.
Proof.
  intros [[H1 H2 H3 H4 H5 H6] H7 H8 (V1 & V2 & V3 & V4)]. split; [|done].
  split; [by split|done..].
Qed.

Lemma space_int_flag root lo n st p b : space st root lo n p → space (set_int_flag b st) root lo n p.
Proof. intros [H1 H2 H3 H4 H5 H6]. by split. Qed.

Lemma reserve_result_int_flag root lo n b k st p ok st' f :
  reserve_result root lo n b k (set_int_flag f st) p ok st' →
  reserve_result root lo n b k st p ok (set_int_flag (int_flag st) st') ∧ int_flag st' = f.
Proof.
  intros (p' & j & He & H). apply evolves_int_flag in He as [He Hi]. split; [|done].
  by exists p', j.
Qed.

(** ** [reserve_pages_at] *)

Lemma reserve_pages_at_spec st root lo n p vaddr size :
  space st root lo n p → 1 ≤ lo → lo * 2 ^ 39 ≤ vaddr → 0 < size ≤ 2 ^ 42 →
  vaddr + size ≤ (lo + n) * 2 ^ 39 →
  let b := vaddr / PAGE_SIZE in
  wp (reserve_pages_at root vaddr size) st (λ r st',
    reserve_result root lo n b ((vaddr + size + PAGE_SIZE - 1) / PAGE_SIZE - b) st p
      (negb (r =? 0)) st' ∧ (r = 0 ∨ r = b * PAGE_SIZE)).
Proof.
  intros Hsp Hlo1 Hlo Hsize Hhi b. pose proof (sp_hi _ _ _ _ _ Hsp) as Hn.
  unfold reserve_pages_at. rewrite (page_down_spec vaddr) by lia. fold b.
  rewrite (u64_small (vaddr + size + PAGE_SIZE - 1)) by lia. rewrite page_down_spec by lia.
  set (e := (vaddr + size + PAGE_SIZE - 1) / PAGE_SIZE).
  assert (1 ≤ e - b ≤ 2 ^ 30 + 1) as Hk by (subst e b; dlia).
  assert (0 ≤ b < 2 ^ 52) by (subst b; dlia).
  rewrite (u64_small (e * PAGE_SIZE - b * PAGE_SIZE)) by lia.
  replace (e * PAGE_SIZE - b * PAGE_SIZE) with ((e - b) * PAGE_SIZE) by lia.
  rewrite Z.div_mul, i32_small by lia. apply wp_bind.
  eapply wp_mono; [apply (reserve_loop 0 (demand_page_in root) st root lo n p b (e - b)); [done|done|]|].
  { split; subst e b; dlia. }
  cbv beta. intros r st' [Hr Hcase]. apply wp_ret. rewrite Z.max_r in Hr by lia.
  assert (b * PAGE_SIZE ≠ 0) by (subst b; dlia).
  destruct Hcase as [->| ->]; cbn [default].
  - rewrite (proj2 (Z.eqb_neq _ 0)) by done. split; [done|by right].
  - split; [done|by left].
Qed.
