(* ===== verification/VpagesIsolation.v ===== *)
(** * Other address spaces, and concrete ones

    An operation on one address space leaves the others alone; how a space is
    checked to be well formed on a concrete machine state. *)

From S2P Require Import Prelude Memory Frames Vpages Bits PageTree VpagesMap VpagesPages.

Implicit Types (m : mem) (st : mst) (p : list Z).

(** ** Isolation *)

(** The frames of the slots [loB ..] of [rootB] are not those of another space. *)
Definition apart (m : mem) (rootA loA nA rootB loB nB : Z) : Prop :=
  ∀ g, g ∈ rootB :: (slots m rootB loB nB).*2 → g ∉ rootA :: (slots m rootA loA nA).*2.

Section isolation.
Context (rootA loA nA rootB loB nB : Z) (st st' : mst) (p p' : list Z).
Hypothesis Hev : evolves rootA loA nA st p st' p'.
Hypothesis HspA : space st rootA loA nA p.
Hypothesis HspB : space st rootB loB nB p.
Hypothesis Hap : apart (pmem st) rootA loA nA rootB loB nB.

Lemma isolation_frame k g :
  (k, g) ∈ (4%nat, rootB) :: slots (pmem st) rootB loB nB →
  frame_ok g ∧ g ∉ rootA :: (slots (pmem st) rootA loA nA).*2 ++ p.
Proof.
  intros Hg. split; [by eapply sp_node_ok|].
  pose proof (sp_fresh _ _ _ _ _ _ _ HspB Hg) as Hp.
  apply (list_elem_of_fmap_2 snd) in Hg. specialize (Hap g Hg).
  rewrite app_comm_cons. by intros [?|?]%elem_of_app.
Qed.

Lemma isolation_ok : Forall frame_ok (rootA :: (slots (pmem st) rootA loA nA).*2 ++ p).
Proof.
  apply Forall_forall. intros g Hg. rewrite app_comm_cons in Hg. apply elem_of_app in Hg as [Hg|Hg].
  - change (rootA :: _) with ((4%nat, rootA) :: slots (pmem st) rootA loA nA).*2 in Hg.
    apply list_elem_of_fmap in Hg as ([k g'] & -> & Hg). by eapply (sp_node_ok st rootA).
  - eapply Forall_forall; [apply (frames_inv_ok st p), HspA|done].
Qed.

Lemma isolation_agree :
  agree_but None ((4%nat, rootB) :: slots (pmem st) rootB loB nB) (pmem st) (pmem st').
Proof.
  intros k g i Hg Hi _. destruct (isolation_frame _ _ Hg).
  eapply unchanged_word; [apply (ev_unchanged _ _ _ _ _ _ _ Hev)|apply isolation_ok|done..].
Qed.

Lemma isolation_slots : slots (pmem st') rootB loB nB = slots (pmem st) rootB loB nB.
Proof.
  pose proof (sp_lo _ _ _ _ _ HspB). pose proof (sp_hi _ _ _ _ _ HspB). apply entries_agree.
  - intros i Hi. apply (isolation_agree 3%nat); [left|lia|done].
  - intros k f i Hf. apply (isolation_agree k). by right.
Qed.

Lemma isolation_page g x :
  (0%nat, g) ∈ slots (pmem st) rootB loB nB → g ≤ x < g + PAGE_SIZE →
  rd8 (pmem st') x = rd8 (pmem st) x.
Proof.
  intros Hg Hx. destruct (isolation_frame 0 g) as [Hok Hnin]; [by right|].
  apply (ev_unchanged _ _ _ _ _ _ _ Hev). intros g' Hg'.
  destruct (frames_apart g' g); [eapply Forall_forall; [apply isolation_ok|done]|done|congruence|lia|lia].
Qed.

Lemma isolation_pte : pte_same rootB loB nB (pmem st) (pmem st').
Proof. intros va Hs. apply (leaf_agree 3 4 _ _ _ loB nB); [lia|done|apply isolation_agree]. Qed.

Lemma isolation_vmem : vmem_same rootB loB nB (pmem st) (pmem st').
Proof.
  intros va Hs. apply (vmem_keeps rootB loB nB); [done| |by apply isolation_pte].
  intros g Hg. split; [by rewrite isolation_slots|]. intros x Hx. by apply (isolation_page g).
Qed.

Lemma isolation_space : space st' rootB loB nB p'.
Proof.
  pose proof (ev_space _ _ _ _ _ _ _ Hev) as HspA'.
  split; rewrite ?isolation_slots; try apply HspB; [apply HspA'| |].
  - rewrite app_comm_cons. apply NoDup_app. split; [by apply sp_nodup_tree in HspB|].
    split; [|by apply (frames_inv_NoDup st'), HspA'].
    intros g Hg Hp'. assert (g ∈ (slots (pmem st) rootA loA nA).*2 ++ p) as Hin.
    { rewrite <-(ev_perm _ _ _ _ _ _ _ Hev). apply elem_of_app. by right. }
    change (rootB :: _) with ((4%nat, rootB) :: slots (pmem st) rootB loB nB).*2 in Hg.
    apply list_elem_of_fmap in Hg as ([k g'] & -> & Hg).
    destruct (isolation_frame _ _ Hg) as [_ Hnin]. apply Hnin. by right.
  - intros k g i Hg Hk Hi. destruct k as [|k]; [lia|].
    rewrite (isolation_agree k g i) by (by right || done). by apply (sp_big _ _ _ _ _ HspB (S k)).
Qed.

Lemma isolation_apart : apart (pmem st') rootA loA nA rootB loB nB.
Proof.
  intros g Hg Hg'. rewrite isolation_slots in Hg.
  change (rootB :: _) with ((4%nat, rootB) :: slots (pmem st) rootB loB nB).*2 in Hg.
  apply list_elem_of_fmap in Hg as ([k h] & -> & Hg). destruct (isolation_frame _ _ Hg) as [_ Hnin]. apply Hnin.
  cbn in Hg'. apply elem_of_cons in Hg' as [Hg'|Hg']; [rewrite Hg'; left|right]. rewrite <-(ev_perm _ _ _ _ _ _ _ Hev).
  apply elem_of_app. by left.
Qed.
End isolation.

(** ** Fresh address spaces *)

(** A P4 whose slots are clear owns no frame but its own. *)
Lemma space_empty st root lo n p :
  frames_inv st p → frame_ok root → root ∉ p → 0 ≤ lo → lo + n ≤ 512 →
  (∀ i, lo ≤ i < lo + n → rd64 (pmem st) (root + 8 * i) = 0) →
  slots (pmem st) root lo n = [] ∧ space st root lo n p ∧
  ∀ va, in_slots lo n va → pte (pmem st) root va = 0 ∧ vmem (pmem st) root va = None.
Proof.
  intros Hfi Hok Hnin Hlo Hhi Hz.
  assert (slots (pmem st) root lo n = []) as Hnil.
  { destruct (slots (pmem st) root lo n) as [|x l] eqn:E; [done|].
    assert (x ∈ slots (pmem st) root lo n) as Hx by (rewrite E; left).
    apply elem_of_entries in Hx as (i & Hi & Hx). rewrite Hz in Hx by done.
    rewrite child_nil in Hx by done. by apply elem_of_nil in Hx. }
  split; [done|]. split.
  - split; try done; rewrite Hnil.
    + apply NoDup_cons. split; [done|]. by eapply frames_inv_NoDup.
    + intros k g i []%elem_of_nil.
  - intros va Hs. assert (pte (pmem st) root va = 0) as Hp.
    { rewrite leaf_leaf_of. rewrite Hz by done. done. }
    split; [done|]. unfold vmem. by rewrite Hp, present_0, demand_0.
Qed.

(** ** Checking a concrete space *)

#[export] Instance frame_ok_dec f : Decision (frame_ok f).
Proof. unfold frame_ok. apply _. Defined.
#[export] Instance region_ok_dec r : Decision (region_ok r).
Proof. unfold region_ok. apply _. Defined.

Definition no_big_b (m : mem) (ns : list (nat * Z)) : bool :=
  forallb (λ '(k, g),
    match k with
    | 2%nat | 3%nat => forallb (λ i, negb (present (rd64 m (g + 8 * i)) && big_page (rd64 m (g + 8 * i))))
                         (seqZ 0 512)
    | _ => true
    end) ns.

Lemma no_big_check m ns : no_big_b m ns = true → no_big m ns.
Proof.
  unfold no_big_b. rewrite forallb_forall. intros H k g i Hg Hk Hi Hp.
  apply list_elem_of_In in Hg. specialize (H _ Hg). cbn in H.
  assert (forallb (λ i, negb (present (rd64 m (g + 8 * i)) && big_page (rd64 m (g + 8 * i))))
            (seqZ 0 512) = true) as H' by (by destruct Hk as [->| ->]).
  rewrite forallb_forall in H'. specialize (H' i). rewrite Hp in H'.
  apply negb_true_iff, H', list_elem_of_In, elem_of_seqZ. lia.
Qed.

(** The state of a machine none of whose frames was freed yet. *)
Definition space_b (st : mst) (root lo n : Z) : bool :=
  let p := regions_frames (usable_regions st) in
  (free_frames st =? INVALID_FRAME_ADDR) && bool_decide (length (usable_regions st) = 64%nat) &&
  bool_decide (Forall region_ok (usable_regions st)) && bool_decide (Forall frame_ok p) &&
  bool_decide (frame_ok root) && (0 <=? lo) && (lo + n <=? 512) &&
  bool_decide (NoDup (root :: (slots (pmem st) root lo n).*2 ++ p)) &&
  no_big_b (pmem st) (slots (pmem st) root lo n).

Lemma space_check st root lo n :
  space_b st root lo n = true → space st root lo n (regions_frames (usable_regions st)).
Proof.
  unfold space_b. rewrite !andb_true_iff, !bool_decide_eq_true, !Z.leb_le, Z.eqb_eq.
  intros ((((((((Hf & Hlen) & Hreg) & Hok) & Hroot) & Hlo) & Hhi) & Hnd) & Hbig).
  split; [|done|done|done|done|by apply no_big_check].
  exists []. split; [done|]. split; [done|]. split; [done|]. split; [|done].
  rewrite app_comm_cons in Hnd. by apply NoDup_app in Hnd as (_ & _ & Hnd).
Qed.
