(* ===== verification/VpagesWrite.v ===== *)
(** * Writing to another address space

    [write_user_range_as] fills a range of user memory, page by page, giving
    frames to the reserved pages it meets; [MMU_copy_to_user_as] and
    [MMU_zero_user_as] wrap it.  The theorems say what a program in that space
    reads afterwards ([vmem]). *)

From S2P Require Import Prelude Memory Frames Vpages Bits PageTree VpagesMap VpagesPages.

Implicit Types (m : mem) (st : mst) (p : list Z).

(** The bytes [dst .. dst+k-1] were set to [sb 0 .. sb (k-1)]. *)
Definition bytes_at (root lo n dst k : Z) (sb : Z → Z) (m m' : mem) : Prop :=
  ∀ va, in_slots lo n va →
    vmem m' root va =
      if decide (dst ≤ va mod 2 ^ 48 < dst + k) then Some (sb (va mod 2 ^ 48 - dst))
      else vmem m root va.

(** The kernel buffer at [src] holds the bytes [sb]: it is mapped, resident,
    and reached without going through the frames [fs]. *)
Definition src_ok (st : mst) (fs : list Z) (src len : Z) (sb : Z → Z) : Prop :=
  ∀ st' i, cr3 st' = cr3 st → unchanged fs (pmem st) (pmem st') → 0 ≤ i < len →
    vload8 (src + i) st' = Ret (sb i, st').

(** The number of pages a range touches. *)
Definition pages_of (dst len : Z) : Z := (dst + len - 1) / PAGE_SIZE - dst / PAGE_SIZE + 1.

Definition write_result (root lo n dst len : Z) (sb : Z → Z)
    (st : mst) (p : list Z) (r : Z) (st' : mst) : Prop :=
  ∃ p' k, evolves root lo n st p st' p' ∧ bytes_at root lo n dst k sb (pmem st) (pmem st') ∧
    ((r = 0 ∧ k = len) ∨
     (r = -1 ∧ 0 ≤ k < len ∧ p' = [] ∧ Z.of_nat (length p) < pages_of dst len)).

(** ** One page *)

(** Bytes [off .. off+c-1] of the frame [g] were set. *)
Definition chunk_written (g off c : Z) (sb : Z → Z) (m m' : mem) : Prop :=
  unchanged [g] m m' ∧
  ∀ x, g ≤ x < g + PAGE_SIZE →
    rd8 m' x = if decide (g + off ≤ x < g + off + c) then sb (x - g - off) else rd8 m x.

Lemma vload8_range va st b st' : vload8 va st = Ret (b, st') → 0 ≤ b < 2 ^ 8.
Proof.
  intros (pa & st1 & _ & [= <- _])%bind_ret_inv. apply rd8_range.
Qed.

Lemma memset_chunk m g off c :
  0 ≤ off → off + c ≤ PAGE_SIZE → chunk_written g off c (λ _, 0) m (memset m (g + off) 0 c).
Proof.
  intros Ho Hc. split.
  - intros x Hx. rewrite rd8_memset. destruct (Hx g) as [?|?]; [left|..]; case_decide; done || lia.
  - intros x Hx. rewrite rd8_memset. by case_decide.
Qed.

Lemma unchanged_wr8 m g x v : g ≤ x < g + PAGE_SIZE → unchanged [g] m (wr8 m x v).
Proof. intros Hx y Hy. apply rd8_wr8_ne. destruct (Hy g); [left|lia|lia]. Qed.

Lemma memcpy_chunk st0 st fs g off c src sb :
  src_ok st0 fs src c sb → cr3 st = cr3 st0 → unchanged fs (pmem st0) (pmem st) → g ∈ fs →
  0 ≤ off → off + c ≤ PAGE_SIZE →
  wp (memcpy_from (g + off) src c) st (λ _ st', ∃ m',
    st' = set_pmem m' st ∧ chunk_written g off c sb (pmem st) m').
Proof.
  intros Hsrc Hcr Hun Hg Ho Hc. unfold memcpy_from, phys_to_virt. rewrite Z.add_0_l.
  eapply wp_mono. 1: apply (wp_for_each (λ done _ st', ∃ m', st' = set_pmem m' st ∧
    chunk_written g off (Z.of_nat (length done)) sb (pmem st) m')).
  - exists (pmem st). split; [by destruct st|]. split; [apply unchanged_refl|].
    intros x Hx. cbn. by rewrite decide_False by lia.
  - intros done i rest st1 Hl (m1 & -> & Hun1 & Hch). apply seqZ_split_index in Hl as [-> Hi].
    rewrite Z.add_0_l. set (i := Z.of_nat (length done)) in *. wp_step.
    assert (vload8 (src + i) (set_pmem m1 st) = Ret (sb i, set_pmem m1 st)) as Hld.
    { apply Hsrc; [done| |lia]. eapply unchanged_trans; [exact Hun|].
      eapply unchanged_sub; [|exact Hun1]. by intros g' ->%list_elem_of_singleton. }
    eapply wp_of_eq; [exact Hld|]. apply wp_modify. pose proof (vload8_range _ _ _ _ Hld) as Hb.
    exists (wr8 m1 (g + off + i) (sb i)). split; [done|]. rewrite length_app, Nat2Z.inj_add. fold i.
    split.
    + eapply unchanged_trans; [exact Hun1|]. apply unchanged_wr8. lia.
    + intros x Hx. rewrite rd8_wr8. cbn [length]. change (Z.of_nat 1) with 1.
      destruct (decide (g + off + i = x)) as [<-|Hne].
      * rewrite decide_True by lia. rewrite u8_small by done. f_equal. lia.
      * rewrite (Hch x Hx). apply decide_ext. lia.
  - cbv beta. intros _ st' (m' & -> & Hch). exists m'. split; [done|].
    rewrite length_seqZ in Hch. destruct (decide (0 ≤ c)) as [Hc0|Hc0].
    + by rewrite Z2Nat.id in Hch by lia.
    + replace (Z.of_nat (Z.to_nat c)) with 0 in Hch by lia. destruct Hch as [H1 H2].
      split; [done|]. intros x Hx. rewrite (H2 x Hx). apply decide_ext. lia.
Qed.

Lemma va_split va : va mod 2 ^ 48 = vpn va * PAGE_SIZE + va mod PAGE_SIZE.
Proof. unfold vpn. change PAGE_SIZE with (2 ^ 12). dlia. Qed.

Lemma chunk_bytes st0 st root lo n p dst done c sb m' :
  space st root lo n p → let va := dst + done in
  0 ≤ dst → 0 ≤ done → va + c ≤ 2 ^ 48 → 0 < c → in_slots lo n va →
  present (pte (pmem st) root va) = true → va mod PAGE_SIZE + c ≤ PAGE_SIZE →
  bytes_at root lo n dst done sb (pmem st0) (pmem st) →
  chunk_written (addr_of (pte (pmem st) root va)) (va mod PAGE_SIZE) c
    (λ i, sb (done + i)) (pmem st) m' →
  bytes_at root lo n dst (done + c) sb (pmem st0) m'.
Proof.
  intros Hsp va Hdst Hdone Hmax Hc0 Hs Hp Hc Hb [Hun Hch] va' Hs'.
  rewrite (data_write_vmem st root lo n p va m' Hsp Hs Hp Hun va' Hs').
  pose proof (va_split va) as Ha. pose proof (va_split va') as Ha'.
  rewrite Z.mod_small in Ha by lia.
  pose proof (page_offset va). pose proof (page_offset va').
  destruct (decide (vpn va' = vpn va)) as [E|E].
  - rewrite Hch by lia. rewrite E in Ha'.
    destruct (decide (va ≤ va' mod 2 ^ 48 < va + c)) as [Hin|Hout].
    + rewrite !decide_True by lia. f_equal. f_equal. lia.
    + rewrite decide_False by lia. rewrite (pte_vpn _ _ va va') by done.
      assert (vmem (pmem st) root va' = Some (rd8 (pmem st) (addr_of (pte (pmem st) root va') + va' mod PAGE_SIZE))) as Hv.
      { unfold vmem. by rewrite (pte_vpn _ _ _ _ E), Hp. }
      rewrite <-Hv, (Hb va' Hs'). apply decide_ext. lia.
  - rewrite (Hb va' Hs'). apply decide_ext.
    assert (vpn va' < vpn va ∨ vpn va < vpn va') by lia. lia.
Qed.

(** ** The loop *)

Lemma ensure_present st root lo n p va :
  space st root lo n p → in_slots lo n va → is_Some (vmem (pmem st) root va) →
  ∃ a, walk 3 4 (pmem st) root va = Some a ∧
  wp (make_page_present a va) st (λ r st',
    (r = 0 ∧ ∃ p', evolves root lo n st p st' p' ∧ vmem_same root lo n (pmem st) (pmem st') ∧
       present (pte (pmem st') root va) = true ∧ rd64 (pmem st') a = pte (pmem st') root va ∧
       (length p ≤ S (length p'))%nat) ∨
    (r = -1 ∧ st' = st ∧ p = [])).
Proof.
  intros Hsp Hs Hv. destruct (walk 3 4 (pmem st) root va) as [a|] eqn:Hw.
  2: { destruct Hv as [b Hb]. unfold vmem, leaf in Hb. by rewrite Hw, present_0, demand_0 in Hb. }
  exists a. split; [done|]. eapply wp_mono; [by apply (make_page_present_spec st root lo n p)|].
  cbv zeta beta. intros r st' Hr. destruct (present (pte (pmem st) root va)) eqn:Hp.
  - destruct Hr as [-> ->]. left. split; [done|]. exists p. split; [by apply evolves_refl|].
    split; [done|]. split; [done|]. split; [by rewrite (pte_walk _ _ _ _ Hw)|lia].
  - pose proof (vmem_cases _ _ _ Hv Hp) as Hd. rewrite Hd in Hr. cbn [andb] in Hr.
    destruct (bool_decide_reflect (p = [])) as [->|Hne]; cbn [negb] in Hr; destruct Hr as [-> Hr].
    + right. done.
    + left. split; [done|].
      destruct (page_filled_vmem _ _ _ _ _ _ _ Hsp Hs Hr Hd Hp) as [Hvm Hp'].
      destruct Hr as (f & p' & -> & He & _ & _ & Hw' & _). exists p'.
      split; [done|]. split; [done|]. split; [done|]. split; [|done].
      rewrite Hw in Hw'. by rewrite (pte_walk _ _ _ _ Hw').
Qed.

Lemma bytes_at_same root lo n dst k sb m0 m m' :
  bytes_at root lo n dst k sb m0 m → vmem_same root lo n m m' → bytes_at root lo n dst k sb m0 m'.
Proof. intros Hb Hv va Hs. rewrite (Hv va Hs). by apply Hb. Qed.

Section write_loop.
Context (root lo n dst src len : Z) (zero : bool) (sb : Z → Z) (st0 : mst) (p0 : list Z).
Hypothesis Hsp0 : space st0 root lo n p0.
Hypothesis Hlo : lo * 2 ^ 39 ≤ dst.
Hypothesis Hhi : dst + len ≤ (lo + n) * 2 ^ 39.
Hypothesis Hmapped : ∀ i, 0 ≤ i < len → is_Some (vmem (pmem st0) root (dst + i)).
Hypothesis Hsrc :
  if zero then ∀ i, sb i = 0
  else src_ok st0 (root :: (slots (pmem st0) root lo n).*2 ++ p0) src len sb.

Lemma write_in_slots i : 0 ≤ i < len → in_slots lo n (dst + i) ∧ 0 ≤ dst + i < 2 ^ 48.
Proof.
  intros Hi. pose proof (sp_lo _ _ _ _ _ Hsp0). pose proof (sp_hi _ _ _ _ _ Hsp0).
  unfold in_slots, tindex. change (3 + 9 * Z.of_nat 4) with 39.
  assert (lo ≤ (dst + i) / 2 ^ 39 < lo + n) by dlia.
  rewrite Z.mod_small by lia. lia.
Qed.

Lemma bytes_at_mapped st k i :
  bytes_at root lo n dst k sb (pmem st0) (pmem st) → 0 ≤ i < len →
  is_Some (vmem (pmem st) root (dst + i)).
Proof.
  intros Hb Hi. destruct (write_in_slots i Hi) as [Hs Hr]. rewrite (Hb _ Hs).
  case_decide; [done|by apply Hmapped].
Qed.

(** One chunk, written by either of the two branches of the loop body. *)
Lemma write_chunk st p done c :
  evolves root lo n st0 p0 st p → 0 ≤ done → 0 < c → done + c ≤ len →
  let va := dst + done in
  va mod PAGE_SIZE + c ≤ PAGE_SIZE → present (pte (pmem st) root va) = true →
  bytes_at root lo n dst done sb (pmem st0) (pmem st) →
  let phys := addr_of (pte (pmem st) root va) + va mod PAGE_SIZE in
  wp (if zero then memset_at (phys_to_virt phys) 0 c else memcpy_from phys (src + done) c) st
    (λ _ st', evolves root lo n st0 p0 st' p ∧
              bytes_at root lo n dst (done + c) sb (pmem st0) (pmem st')).
Proof.
  intros He Hdone Hc Hlen va Hpage Hp Hb phys.
  pose proof (ev_space _ _ _ _ _ _ _ He) as Hsp.
  destruct (write_in_slots done ltac:(lia)) as [Hs Hr]. fold va in Hs, Hr.
  destruct (write_in_slots (done + c - 1) ltac:(lia)) as [_ Hr'].
  pose proof (page_offset va).
  assert (∀ m', chunk_written (addr_of (pte (pmem st) root va)) (va mod PAGE_SIZE) c
            (λ i, sb (done + i)) (pmem st) m' →
          evolves root lo n st0 p0 (set_pmem m' st) p ∧
          bytes_at root lo n dst (done + c) sb (pmem st0) m') as Hout.
  { intros m' Hch. pose proof Hch as [Hun _]. split.
    - eapply evolves_trans; [exact He|]. by eapply data_write_evolves.
    - pose proof (sp_lo _ _ _ _ _ Hsp0). eapply (chunk_bytes st0 st); try done; subst va; lia. }
  unfold phys, phys_to_virt. rewrite Z.add_0_l. destruct zero.
  - apply wp_modify. cbn. apply Hout. destruct (memset_chunk (pmem st) (addr_of (pte (pmem st) root va))
      (va mod PAGE_SIZE) c) as [H1 H2]; [lia|lia|]. split; [done|].
    intros x Hx. rewrite (H2 x Hx), Hsrc. done.
  - eapply wp_mono; [eapply (memcpy_chunk st0 st)|].
    + intros st' i E Hun Hi. rewrite <-Z.add_assoc.
      apply (Hsrc st' (done + i)); [done|exact Hun|lia].
    + apply (ev_vars _ _ _ _ _ _ _ He).
    + apply (ev_unchanged _ _ _ _ _ _ _ He).
    + pose proof (pte_node _ _ _ _ _ Hs Hp) as Hnode. apply (list_elem_of_fmap_2 snd) in Hnode.
      right. rewrite <-(ev_perm _ _ _ _ _ _ _ He). apply elem_of_app. by left.
    + lia.
    + lia.
    + cbv beta. intros _ st' (m' & -> & Hch). by apply Hout.
Qed.

Lemma write_user_loop_spec fuel st p done :
  evolves root lo n st0 p0 st p → bytes_at root lo n dst done sb (pmem st0) (pmem st) →
  0 ≤ done ≤ len → (done = 0 ∨ done = len ∨ (dst + done) mod PAGE_SIZE = 0) →
  (if done <? len then pages_of (dst + done) (len - done) else 0) < Z.of_nat fuel →
  Z.of_nat (length p0) ≤ Z.of_nat (length p) + ((dst + done) / PAGE_SIZE - dst / PAGE_SIZE) ∨ done = len →
  wp (write_user_loop fuel root dst src len zero done) st
    (write_result root lo n dst len sb st0 p0).
Proof.
  revert st p done. induction fuel as [|fuel IH]; intros st p done He Hb Hdone Hal Hfuel Hpool.
  { unfold pages_of in Hfuel. cbn in Hfuel. destruct (Z.ltb_spec done len); dlia. }
  cbn [write_user_loop]. destruct (Z.ltb_spec done len) as [Hlt|Hge]; cbn [negb].
  2: { apply wp_ret. exists p, done. split; [done|]. split; [done|]. left. split; [done|lia]. }
  destruct (write_in_slots done ltac:(lia)) as [Hs Hr].
  pose proof (ev_space _ _ _ _ _ _ _ He) as Hsp. rewrite u64_small by lia.
  change (PAGE_SIZE - 1) with (Z.ones 12). rewrite land_low_mask by lia. change (2 ^ 12) with PAGE_SIZE.
  set (va := dst + done) in *. set (chunk := if _ <? _ then _ else _).
  pose proof (page_offset va) as Hoff.
  assert (0 < chunk ∧ done + chunk ≤ len ∧ va mod PAGE_SIZE + chunk ≤ PAGE_SIZE ∧
          (done + chunk = len ∨ va mod PAGE_SIZE + chunk = PAGE_SIZE)) as (Hc0 & Hcl & Hcp & Hce).
  { subst chunk. destruct (Z.ltb_spec (len - done) (PAGE_SIZE - va mod PAGE_SIZE)); lia. }
  destruct (ensure_present _ _ _ _ _ _ Hsp Hs (bytes_at_mapped st done done Hb ltac:(lia))) as (a & Hw & Hmp).
  wp_step. eapply wp_of_eq; [apply travel_walk|].
  rewrite frame_ok_aligned_page_down by apply Hsp. rewrite Hw. cbn [default].
  wp_step. eapply wp_mono; [exact Hmp|]. cbv beta.
  intros r st1 [(-> & p1 & He1 & Hvm & Hp & Hrd & Hlen)|(-> & -> & ->)].
  2: { cbn. apply wp_ret. exists [], done. split; [done|]. split; [done|]. right.
       split; [done|]. split; [lia|]. split; [done|]. cbn in Hpool. unfold pages_of. subst va. dlia. }
  cbn. fld_steps. rewrite Hrd. fold (addr_of (pte (pmem st1) root va)).
  eapply wp_mono.
  { apply (write_chunk st1 p1 done chunk);
      [by eapply evolves_trans|lia|lia|lia|done|done|by eapply bytes_at_same]. }
  cbv beta. intros _ st2 [He2 Hb2]. apply (IH st2 p1); [done|done|lia| | |].
  - right. destruct Hce as [?|Hce]; [by left|right]. subst va. dlia.
  - unfold pages_of in *. subst va. destruct (Z.ltb_spec (done + chunk) len); [|dlia].
    destruct Hce; dlia.
  - destruct Hce as [?|Hce]; [by right|left]. destruct Hpool as [Hpool|?]; [|lia].
    subst va. dlia.
Qed.
End write_loop.
