(* ===== verification/VpagesKernel.v ===== *)
(** * The kernel mapping

    The identity map set up at boot, and the P4 of a new process, which shares
    the kernel slots and has empty user slots. *)

From S2P Require Import Prelude Memory Frames Vpages Bits PageTree VpagesMap VpagesPages.
From S2P Require Import VpagesIsolation VpagesWrite.

Implicit Types (m : mem) (st : mst) (p : list Z).

(** Slot 0 of the P4 at [root] maps the first [g] GiB to themselves with 1 GiB
    pages; the kernel maps all 512 of the slot. *)
Definition identity_mapped (g : Z) (m : mem) (root : Z) : Prop :=
  present (rd64 m root) = true ∧
  ∀ i, 0 ≤ i < g →
    let w := rd64 m (addr_of (rd64 m root) + 8 * i) in
    present w = true ∧ big_page w = true ∧ addr_of w = i * 2 ^ 30.

Lemma identity_translate g m root va :
  g ≤ 512 → frame_ok root → identity_mapped g m root → 0 ≤ va < g * 2 ^ 30 → translate m root va = Some va.
Proof.
  intros Hg Hok [Hp4 Hp3] Hva. unfold translate.
  rewrite frame_ok_aligned_page_down, PML4_tindex, PDP_tindex by done.
  replace (tindex 4 va) with 0.
  2: { unfold tindex. change (3 + 9 * Z.of_nat 4) with 39. by rewrite Z.div_small by lia. }
  rewrite Z.mul_0_r, Z.add_0_r, Hp4. cbn [negb].
  assert (tindex 3 va = va / 2 ^ 30) as E.
  { unfold tindex. change (3 + 9 * Z.of_nat 3) with 30. apply Z.mod_small. dlia. }
  destruct (Hp3 (tindex 3 va)) as (-> & -> & ->); [rewrite E; dlia|]. cbn [negb].
  rewrite Z.div_mul by lia. f_equal. rewrite E. dlia.
Qed.

Lemma identity_unchanged g fs m m' root :
  g ≤ 512 → frame_ok root → identity_mapped g m root → unchanged fs m m' → Forall frame_ok fs →
  root ∉ fs → addr_of (rd64 m root) ∉ fs → identity_mapped g m' root.
Proof.
  intros Hg Hok [Hp4 Hp3] Hun Hfs Hr Ha.
  assert (rd64 m' root = rd64 m root) as E.
  { pose proof (unchanged_word fs m m' root 0 Hun Hfs Hok Hr ltac:(lia)) as E.
    by rewrite Z.mul_0_r, Z.add_0_r in E. }
  split; rewrite E; [done|]. intros i Hi. cbv zeta.
  rewrite (unchanged_word fs m m') by (done || apply addr_of_ok || lia). by apply Hp3.
Qed.

(** A buffer in identity-mapped memory, apart from the frames that may be
    written, is a source in the sense of [src_ok]. *)
Lemma src_ok_identity g st fs src len :
  g ≤ 512 → frame_ok (cr3 st) → identity_mapped g (pmem st) (cr3 st) → Forall frame_ok fs →
  cr3 st ∉ fs → addr_of (rd64 (pmem st) (cr3 st)) ∉ fs → 0 ≤ src → src + len ≤ g * 2 ^ 30 →
  (∀ i g, 0 ≤ i < len → g ∈ fs → src + i < g ∨ g + PAGE_SIZE ≤ src + i) →
  src_ok st fs src len (λ i, rd8 (pmem st) (src + i)).
Proof.
  intros Hg Hok Hid Hfs Hr Ha H0 Hlen Hap st' i Hcr Hun Hi.
  unfold vload8, access. erewrite bind_ret; [|erewrite bind_ret; [|done]]; cbv beta.
  2: { rewrite Hcr, (identity_translate g); [done|done|done|by eapply identity_unchanged|lia]. }
  unfold load8, gets. rewrite Hun; [done|]. intros f Hf. by apply Hap.
Qed.

(** ** The identity map *)

(** The words [make_identity_map] writes to the P3 and to slot 0 of the P4. *)
Definition identity_word (i : Z) : Z :=
  set_bits F_allocated (set_bits F_addr (set_bits F_big_page (set_bits F_us (set_bits F_rw
    (set_bits F_present 0 1) 1) 0) 1) (phys_to_pfn (Z.shiftl i 30))) 1.
Definition identity_link (f : Z) : Z :=
  set_bits F_allocated (set_bits F_us (set_bits F_rw (set_bits F_present
    (set_bits F_addr 0 (phys_to_pfn f)) 1) 1) 0) 1.

Lemma identity_word_bits i :
  0 ≤ i < 512 →
  present (identity_word i) = true ∧ big_page (identity_word i) = true ∧
  user_page (identity_word i) = false ∧ addr_of (identity_word i) = i * 2 ^ 30 ∧
  0 ≤ identity_word i < 2 ^ 64.
Proof.
  intros Hi. unfold identity_word. do 3 (split; [by entry_bits|]). rewrite Z.shiftl_mul_pow2 by lia.
  split; [|repeat apply set_bits_range; done || lia].
  rewrite addr_of_other by reflexivity. apply addr_of_set. repeat split; dlia.
Qed.

Lemma identity_link_bits f :
  frame_ok f →
  present (identity_link f) = true ∧ user_page (identity_link f) = false ∧
  addr_of (identity_link f) = f ∧ 0 ≤ identity_link f < 2 ^ 64.
Proof.
  intros Hf. unfold identity_link. do 2 (split; [by entry_bits|]).
  split; [|repeat apply set_bits_range; done || lia].
  repeat rewrite addr_of_other by reflexivity. by apply addr_of_set.
Qed.

Section layout.
Context `{KLayout}.

(** The static tables are page aligned, in physical memory, and distinct. *)
Record layout_ok : Prop := {
  lay_p4 : frame_ok ptable_p4;
  lay_p3 : frame_ok ptable_p3_identity;
  lay_ne : ptable_p4 ≠ ptable_p3_identity
}.

(** The P3 after the first [k] iterations. *)
Definition identity_upto (k : Z) (m m' : mem) : Prop :=
  unchanged [ptable_p3_identity] m m' ∧
  ∀ i, 0 ≤ i < 512 →
    rd64 m' (ptable_p3_identity + 8 * i) =
      if decide (i < k) then identity_word i else rd64 m (ptable_p3_identity + 8 * i).

Lemma identity_loop st :
  layout_ok → (∀ i, 0 ≤ i < 512 → rd64 (pmem st) (ptable_p3_identity + 8 * i) = 0) →
  wp (for_each (seqZ 0 512) (λ i,
        let phys1gb := Z.shiftl i 30 in
        let e := ptable_p3_identity + 8 * i in
        set_field F_present e 1 ;;
        set_field F_rw e 1 ;;
        set_field F_us e 0 ;;
        set_field F_big_page e 1 ;;
        set_field F_addr e (phys_to_pfn phys1gb) ;;
        set_field F_allocated e 1)) st
     (λ _ st', ∃ m', st' = set_pmem m' st ∧ identity_upto 512 (pmem st) m').
Proof.
  intros Hlay Hz. eapply wp_mono. 1: apply (wp_for_each (λ done _ st', ∃ m',
    st' = set_pmem m' st ∧ identity_upto (Z.of_nat (length done)) (pmem st) m')).
  - exists (pmem st). split; [by destruct st|]. split; [apply unchanged_refl|].
    intros i Hi. by rewrite decide_False by (cbn; lia).
  - intros done i rest st1 Hl (m1 & -> & Hun & Hw). apply seqZ_split_index in Hl as [-> Hi].
    rewrite Z.add_0_l in *. set (i := Z.of_nat (length done)) in *. cbv zeta.
    repeat set_fields. cbn [pmem set_pmem]. rewrite Hw, decide_False, Hz by lia.
    exists (wr64 m1 (ptable_p3_identity + 8 * i) (identity_word i)). split; [done|].
    rewrite length_app, Nat2Z.inj_add. fold i. cbn [length]. split.
    + intros x Hx. rewrite rd8_wr_out; [by apply Hun|]. destruct (Hx ptable_p3_identity); [left|lia|lia].
    + intros j Hj. destruct (decide (j = i)) as [->|Hne].
      * rewrite rd64_wr64_eq, u64_small, decide_True by (lia || by apply identity_word_bits). done.
      * rewrite rd64_wr64_ne, Hw by lia. apply decide_ext. lia.
  - cbv beta. rewrite length_seqZ. by intros _ st'.
Qed.

Lemma make_identity_map_spec st :
  layout_ok →
  wp make_identity_map st (λ _ st',
    unchanged [ptable_p4; ptable_p3_identity] (pmem st) (pmem st') ∧
    identity_mapped 512 (pmem st') ptable_p4 ∧ user_page (rd64 (pmem st') ptable_p4) = false ∧
    (∀ i, 1 ≤ i < 512 → rd64 (pmem st') (ptable_p4 + 8 * i) = 0) ∧
    cr3 st' = ptable_p4 ∧ kernel_cr3 st' = ptable_p4 ∧ kernel_va st' = kernel_va st ∧
    free_frames st' = free_frames st ∧ usable_regions st' = usable_regions st).
Proof.
  intros Hlay. pose proof (frames_apart _ _ (lay_p4 Hlay) (lay_p3 Hlay) (lay_ne Hlay)) as Hap.
  unfold make_identity_map, memset_at. wp_steps. cbn [pmem set_pmem].
  eapply wp_mono; [apply identity_loop; [done|]; intros i Hi; cbn; apply (rd_memset_0 8); lia|].
  cbv beta. intros _ st1 (m1 & -> & Hun & Hw). cbn in Hun, Hw.
  assert (∀ i, 0 ≤ i < 512 → rd64 m1 (ptable_p4 + 8 * i) = 0) as Hz.
  { intros i Hi. rewrite (unchanged_rd _ _ _ 8 _ Hun) by (intros g ->%list_elem_of_singleton; lia).
    rewrite (rd_memset_out 8) by lia. apply (rd_memset_0 8); lia. }
  pose proof (Hz 0 ltac:(lia)) as Hz0. rewrite Z.mul_0_r, Z.add_0_r in Hz0.
  repeat set_fields. unfold put_word. wp_steps. cbn. rewrite Hz0. fold (identity_link ptable_p3_identity).
  destruct (identity_link_bits _ (lay_p3 Hlay)) as (L1 & L2 & L3 & L4).
  rewrite rd64_wr64_eq, u64_small by done.
  split; [|split; [split; rewrite rd64_wr64_eq, u64_small by done; [done|]|split; [done|split; [|done]]]].
  - intros x Hx. pose proof (Hx ptable_p4 ltac:(left)) as Hx4.
    pose proof (Hx ptable_p3_identity ltac:(right; left)) as Hx3.
    rewrite rd8_wr_out, Hun by (lia || by intros g ->%list_elem_of_singleton).
    by rewrite !rd8_memset, !decide_False by lia.
  - intros i Hi. cbv zeta. rewrite L3, rd64_wr64_ne, Hw, decide_True by lia.
    destruct (identity_word_bits i Hi) as (? & ? & _ & ? & _). done.
  - intros i Hi. rewrite rd64_wr64_ne by lia. apply Hz. lia.
Qed.

(** ** The P4 of a new process *)

Lemma copy_slots_loop st new k :
  frame_ok new → frame_ok ptable_p4 → new ≠ ptable_p4 → 0 ≤ k ≤ 512 →
  wp (for_each (seqZ 0 k) (λ i,
        w <- load64 (ptable_p4 + 8 * i) ;; store64 (new + 8 * i) w)) st
    (λ _ st', ∃ m', st' = set_pmem m' st ∧ unchanged [new] (pmem st) m' ∧
      ∀ i, 0 ≤ i < 512 → rd64 m' (new + 8 * i) =
        if decide (i < k) then rd64 (pmem st) (ptable_p4 + 8 * i) else rd64 (pmem st) (new + 8 * i)).
Proof.
  intros Hn Hp Hne Hk. eapply wp_mono. 1: apply (wp_for_each (λ done _ st', ∃ m',
    st' = set_pmem m' st ∧ unchanged [new] (pmem st) m' ∧
    ∀ i, 0 ≤ i < 512 → rd64 m' (new + 8 * i) =
      if decide (i < Z.of_nat (length done)) then rd64 (pmem st) (ptable_p4 + 8 * i)
      else rd64 (pmem st) (new + 8 * i))).
  - exists (pmem st). split; [by destruct st|]. split; [apply unchanged_refl|].
    intros i Hi. by rewrite decide_False by (cbn; lia).
  - intros done i rest st1 Hl (m1 & -> & Hun & Hw). apply seqZ_split_index in Hl as [-> Hi].
    rewrite Z.add_0_l in *. set (i := Z.of_nat (length done)) in *. unfold store64. fld_steps. cbn [pmem set_pmem].
    rewrite (unchanged_word_1 new (pmem st) m1 ptable_p4 i Hun) by (done || lia).
    eexists. split; [done|]. rewrite length_app, Nat2Z.inj_add. fold i. cbn [length]. split.
    + intros x Hx. rewrite rd8_wr_out; [by apply Hun|]. destruct (Hx new); [left|lia|lia].
    + intros j Hj. destruct (decide (j = i)) as [->|Hne'].
      * rewrite rd64_wr64_eq, u64_small, decide_True by (lia || apply rd64_range). done.
      * rewrite rd64_wr64_ne, Hw by lia. apply decide_ext. lia.
  - cbv beta. intros _ st' Hout. by rewrite length_seqZ, Z2Nat.id in Hout by lia.
Qed.

Lemma MMU_create_user_p4_spec st p :
  frames_inv st p → frame_ok ptable_p4 → ptable_p4 ∉ p →
  wp MMU_create_user_p4 st (λ r st',
    match p with
    | [] => r = 0 ∧ st' = st
    | f :: p' => r = f ∧ frames_inv st' p' ∧ unchanged [f] (pmem st) (pmem st') ∧ same_vars st st' ∧
        ∀ i, 0 ≤ i < 512 → rd64 (pmem st') (f + 8 * i) =
          if decide (i < 32) then rd64 (pmem st) (ptable_p4 + 8 * i) else 0
    end).
Proof.
  intros Hfi Hok4 Hnin. unfold MMU_create_user_p4. wp_step. eapply wp_mono; [by apply pf_alloc_spec|].
  cbv beta. intros f st1 [Hst1 Hpool]. destruct p as [|x p]; [by destruct Hpool as [-> ->]; apply wp_ret|].
  destruct Hpool as [-> Hfi1]. pose proof (frames_inv_ok _ _ Hfi) as [Hok Hpok]%Forall_cons_1.
  pose proof (frames_inv_NoDup _ _ Hfi) as [Hxp _]%NoDup_cons.
  rewrite (proj2 (Z.eqb_neq x _)) by auto with cint. unfold phys_to_virt, memset_at. rewrite !Z.add_0_l.
  wp_steps. change (PML4_INDEX VA_USER_BASE) with 32.
  assert (x ≠ ptable_p4) as Hne by (intros ->; apply Hnin; left).
  eapply wp_mono; [by apply copy_slots_loop|]. cbv beta. cbn [pmem set_pmem].
  assert (pmem st1 = pmem st) as Hpm by (by rewrite Hst1). rewrite Hpm.
  intros _ st2 (m2 & -> & Hun & Hw). apply wp_ret. cbn [pmem set_pmem].
  assert (unchanged [x] (pmem st) m2) as Hun2.
  { eapply unchanged_trans; [apply unchanged_memset|exact Hun]. }
  split; [done|]. split; [|split; [done|split]].
  - eapply frames_inv_state; [exact Hfi1|done|done|]. intros g Hg. cbn. rewrite Hpm.
    eapply unchanged_rd; [exact Hun2|]. intros g' ->%list_elem_of_singleton.
    destruct (frames_apart x g); [done|by eapply Forall_forall|congruence|lia|lia].
  - rewrite Hst1. by repeat split.
  - intros i Hi. rewrite Hw by done. case_decide.
    + apply (unchanged_word_1 x); [apply unchanged_memset|done|done|done|lia].
    + apply (rd_memset_0 8); lia.
Qed.
End layout.
