(* ===== verification/VpagesExamples.v ===== *)
(** * Concrete machines

    Small machine states on which the theorems on address spaces are instantiated:
    sixteen free frames, the kernel's tables at 0x90000, and one process. *)

From S2P Require Import Prelude Memory Frames Vpages Bits PageTree VpagesMap VpagesPages.
From S2P Require Import VpagesIsolation VpagesWrite VpagesKernel.

Definition final {A} (c : M mst A) (st : mst) : mst :=
  match c st with Ret (_, s) => s | _ => st end.

Definition result {A} (c : M mst A) (st : mst) : option A :=
  match c st with Ret (r, _) => Some r | _ => None end.

(** The memory with the given words and zeros elsewhere. *)
Definition words (l : list (Z * Z)) : mem := foldr (λ '(a, w) m, wr64 m a w) ∅ l.

(** The entries of an address space at 0x80000 whose tables for the P4 slot [i] are
    the frames 0x81000, 0x82000 and 0x83000, and whose first pages have the given
    entries: 0x200 is a reserved page, 0x84007 one with the frame 0x84000. *)
Definition path (i : Z) (ptes : list Z) : list (Z * Z) :=
  (0x80000 + 8 * i, 0x81207) :: (0x81000, 0x82207) :: (0x82000, 0x83207) ::
  imap (λ j w, (0x83000 + 8 * Z.of_nat j, w)) ptes.

(** Sixteen free frames from 1 MiB on. *)
Definition machine (m : mem) : mst := boot_mst m (MemRegion 0x100000 0x10000 true).

(** A P4 whose user slots are clear, one with a page reserved, and the same machine
    faulting on an address of that page. *)
Definition user_root : Z := 0x80000.
Definition user_boot : mst := set_cr3 user_root (machine ∅).
Definition user_reserved : mst := set_cr3 user_root (machine (words (path 32 [0x200]))).
Definition user_fault : mst := set_cr2 (VA_USER_BASE + 0x123) user_reserved.


Lemma user_boot_space : space user_boot user_root 32 480 (regions_frames (usable_regions user_boot)).
Proof. apply space_check. by vm_compute. Qed.
Lemma user_reserved_space :
  space user_reserved (cr3 user_reserved) 32 480 (regions_frames (usable_regions user_reserved)).
Proof. apply space_check. by vm_compute. Qed.
Lemma user_fault_space :
  space user_fault (cr3 user_fault) 32 480 (regions_frames (usable_regions user_fault)).
Proof. apply space_cr2, user_reserved_space. Qed.

(** A kernel with its heap pointer at the start of the heap; the same with the second
    page of the heap in use, and after a request for two pages, which fails. *)
Definition heap_boot : mst := set_kernel_va VA_KHEAP_BASE (set_cr3 user_root (machine ∅)).
Definition heap_used : mst :=
  set_kernel_va VA_KHEAP_BASE (set_cr3 user_root (machine (words (path 2 [0; 0x200])))).
Definition heap_failed : mst := final (MMU_alloc_pages 2) heap_used.

(** A heap whose first page has two blocks of 2048 bytes: the first one is in use, for
    2000 bytes, the second one is the free list of its pool. *)
Definition heap_live : mst :=
  set_kernel_va (VA_KHEAP_BASE + 0x1000) (set_cr3 user_root (machine (words
    (path 2 [0x84007] ++ [(0x84000, 0x93050); (0x84008, 2000); (0x84800, 0)])))).

Lemma heap_boot_full : space heap_boot (cr3 heap_boot) 2 28 (regions_frames (usable_regions heap_boot)).
Proof. apply space_check. by vm_compute. Qed.
Lemma heap_live_full : space heap_live (cr3 heap_live) 2 28 (regions_frames (usable_regions heap_live)).
Proof. apply space_check. by vm_compute. Qed.
Lemma heap_live_page :
  present (pte (pmem heap_live) (cr3 heap_live) VA_KHEAP_BASE) = true ∧
  addr_of (pte (pmem heap_live) (cr3 heap_live) VA_KHEAP_BASE) = 0x84000 ∧
  rd64 (pmem heap_live) 0x84000 = 0x93050 ∧ rd64 (pmem heap_live) 0x84008 = 2000 ∧
  rd64 (pmem heap_live) 0x84800 = 0.
Proof. repeat split; vm_compute; reflexivity. Qed.
Lemma heap_live_vars : kernel_va heap_live = VA_KHEAP_BASE + 0x1000 ∧
  length (regions_frames (usable_regions heap_live)) = 16%nat ∧ kernel_va heap_boot = VA_KHEAP_BASE ∧
  length (regions_frames (usable_regions heap_boot)) = 16%nat.
Proof. repeat split; vm_compute; reflexivity. Qed.

Lemma heap_boot_space : space heap_boot (cr3 heap_boot) 2 1 (regions_frames (usable_regions heap_boot)).
Proof. apply space_check. by vm_compute. Qed.
Lemma heap_failed_space : space heap_failed (cr3 heap_failed) 2 1 (regions_frames (usable_regions heap_failed)).
Proof. apply space_check. by vm_compute. Qed.

(** ** A kernel and a process

    The kernel's P4 is 0x90000, with the first GiB identity mapped and three bytes
    in a buffer at 0x92000; the process has a page it has written to and a reserved one. *)

Definition demo_layout : KLayout := {| ptable_p4 := 0x90000; ptable_p3_identity := 0x91000 |}.

Definition proc_root : Z := 0x80000.
Definition proc_va : Z := VA_USER_BASE + 0x3000.
Definition proc_state : mst :=
  set_kernel_cr3 0x90000 (set_cr3 0x90000 (machine (words
    (path 32 [0; 0; 0; 0x84007; 0x200] ++
     [(0x84FF8, 0x41000000000000); (0x90000, 0x91203); (0x91000, 0x283); (0x92000, 0x090807)])))).

Lemma proc_state_space :
  space proc_state proc_root 32 480 (regions_frames (usable_regions proc_state)).
Proof. apply space_check. by vm_compute. Qed.

Lemma proc_state_identity : identity_mapped 1 (pmem proc_state) (cr3 proc_state).
Proof.
  split; [by vm_compute|]. intros i Hi. assert (i = 0) as -> by lia.
  split; [|split]; vm_compute; reflexivity.
Qed.

Lemma proc_state_vmem :
  vmem (pmem proc_state) proc_root (proc_va + 0xFFE) = Some 0x41 ∧
  vmem (pmem proc_state) proc_root (proc_va + 0x1000) = Some 0 ∧
  vmem (pmem proc_state) proc_root (proc_va + 0x2000) = None.
Proof. split; [|split]; vm_compute; reflexivity. Qed.

#[global] Opaque user_boot user_reserved user_fault heap_boot heap_used heap_failed heap_live proc_state.
