(* ===== verification/VpagesFree.v ===== *)
(** * Giving pages back

    [MMU_free_page] unmaps one page, returns its frame and the frames of the
    tables that became empty. *)

From S2P Require Import Prelude Memory Frames Vpages Bits PageTree VpagesMap VpagesPages.
From S2P Require Import VpagesIsolation VpagesWrite VpagesKernel VpagesExamples.

Implicit Types (m : mem) (st : mst) (p : list Z).

(** ** The path above a changed entry *)

Section path.
Context (m m' : mem) (va a : Z).

Lemma one_entry_path c d k f lo n :
  one_entry m m' va a d k f lo n → (c ≤ d)%nat →
  walk c k m' f va = walk c k m f va ∧
  ((c < d)%nat → ∀ b, walk c k m f va = Some b → rd64 m' b = rd64 m b).
Proof.
  revert d k f lo n. induction c as [|c IH]; intros d k f lo n H Hc.
  - split; [done|]. intros Hd b [= <-]. destruct d as [|d]; [lia|].
    by destruct (one_entry_down _ _ _ _ _ _ _ _ _ H) as (_ & -> & _).
  - destruct d as [|d]; [lia|]. destruct (one_entry_down _ _ _ _ _ _ _ _ _ H) as (Hl & Hw & Hd).
    cbn [walk]. rewrite Hw, Hl. destruct (IH _ _ _ _ _ Hd ltac:(lia)) as [Hwalk Hword].
    split; [done|]. intros Hlt. apply Hword. lia.
Qed.
End path.

(** ** Dropping a node without children *)

(** The node [g], reached by the entry at [a] that is [d] levels down on the way to
    [va], went back to the pool. *)
Record dropped (root lo n va a g : Z) (d : nat) (st : mst) (p : list Z) (st' : mst) : Prop := {
  dr_evolves : evolves root lo n st p st' (g :: p);
  dr_slots : slots (pmem st) root lo n ≡ₚ ((3 - d, g)%nat :: slots (pmem st') root lo n);
  dr_contents : ∀ f x, (0%nat, f) ∈ slots (pmem st') root lo n → f ≤ x < f + PAGE_SIZE →
    rd8 (pmem st') x = rd8 (pmem st) x;
  dr_pte : ∀ va', in_slots lo n va' → pte (pmem st') root va' =
    if decide (walk d 4 (pmem st) root va' = Some a) then 0 else pte (pmem st) root va';
  dr_walk : ∀ c, (c ≤ d)%nat → walk c 4 (pmem st') root va = walk c 4 (pmem st) root va;
  dr_word : ∀ c b, (c < d)%nat → walk c 4 (pmem st) root va = Some b → rd64 (pmem st') b = rd64 (pmem st) b;
  dr_gone : rd64 (pmem st') a = 0
}.

Section drop_node.
Context (st : mst) (root lo n g : Z) (p : list Z) (d : nat) (va a w : Z).
Hypothesis Hsp : space st root lo n p.
Hypothesis Hs : in_slots lo n va.
Hypothesis Hd : (d < 4)%nat.
Hypothesis Hw : walk d 4 (pmem st) root va = Some a.
Hypothesis Hword : rd64 (pmem st) a = w.
Hypothesis Hl : links (4 - d) w = true.
Hypothesis Hg : addr_of w = g.
Hypothesis Hempty : nodes (3 - d) (pmem st) g = [(3 - d, g)%nat].

(** The state with the entry cleared, and with the frame on the free list too. *)
Local Abbreviation m1 := (wr64 (pmem st) a 0).
Local Abbreviation st' := (put_word a 0
  (set_free_frames g (set_pmem (wr64 (pmem st) g (free_frames st)) st))).

Lemma drop_child : child (4 - d) (pmem st) w = [(3 - d, g)%nat].
Proof. rewrite child_links by done. replace (pred (4 - d)) with (3 - d)%nat by lia. by rewrite Hg. Qed.

Lemma drop_in : (3 - d, g)%nat ∈ slots (pmem st) root lo n.
Proof.
  pose proof (walk_leaf_node d 4 (pmem st) root lo n va a Hd Hs Hw) as Hin.
  rewrite Hword, Hg in Hin. replace (3 - d)%nat with (pred (4 - d)) by lia. by apply Hin.
Qed.

Lemma drop_ok : frame_ok g ∧ (g ∉ p) ∧ g ≠ root.
Proof.
  pose proof drop_in as Hin. split; [by eapply (sp_node_ok st); [|right]|].
  split; [by eapply sp_fresh; [|right]|]. intros E. pose proof (sp_nodup_tree _ _ _ _ _ Hsp) as Hnd.
  apply NoDup_cons in Hnd as [Hn _]. apply Hn. rewrite E in Hin. by apply (list_elem_of_fmap_2 snd) in Hin.
Qed.

(** The entry lies in a table other than the dropped node. *)
Lemma drop_where : ∃ h j, (4 - d, h)%nat ∈ (4%nat, root) :: slots (pmem st) root lo n ∧
  frame_ok h ∧ 0 ≤ j < 512 ∧ a = h + 8 * j ∧ h ≠ g.
Proof.
  destruct (walk_node _ _ _ _ lo n _ _ Hd Hw Hs) as (h & Hh & E).
  exists h, (tindex (4 - d) va). split; [done|]. split; [by eapply sp_node_ok|].
  split; [apply tindex_range|]. split; [done|]. intros Eh. rewrite Eh in Hh. pose proof drop_in as Hin.
  apply (NoDup_node _ (3 - d)) in Hh; [lia|by eapply sp_nodup_tree|by right].
Qed.

Lemma drop_agree1 : agree_but (Some a) ((4%nat, root) :: slots (pmem st) root lo n) (pmem st) m1.
Proof.
  destruct drop_where as (h & j & Hh & Hok & Hj & E & _). rewrite E.
  apply (agree_but_store _ []); [|constructor|apply unchanged_refl|done|done].
  intros k g' Hg'. split; [by eapply sp_node_ok|apply not_elem_of_nil].
Qed.

Lemma drop_one_entry : one_entry (pmem st) m1 va a d 4 root lo n.
Proof. by eapply sp_one_entry; [..|apply drop_agree1]. Qed.

Lemma drop_word1 : rd64 m1 a = 0.
Proof. by rewrite rd64_wr64_eq. Qed.

Lemma drop_slots1 : slots (pmem st) root lo n ≡ₚ ((3 - d, g)%nat :: slots m1 root lo n).
Proof.
  pose proof (entries_update _ _ _ _ _ _ _ _ _ drop_one_entry) as Hup.
  rewrite Hword, drop_child, drop_word1, (child_nil (4 - d) m1 0), app_nil_r in Hup by done.
  by rewrite <-Hup, Permutation_app_comm.
Qed.

Lemma drop_pmem : pmem st' = wr64 m1 g (free_frames st).
Proof.
  destruct drop_where as (h & j & _ & Hok & Hj & E & Hne). destruct drop_ok as (Hgok & _ & _). cbn.
  apply wr_comm. destruct (frames_apart h g); [done..|lia|lia].
Qed.

Lemma drop_unchanged : unchanged [g] m1 (pmem st').
Proof.
  intros x Hx. rewrite drop_pmem. apply rd8_wr_out. destruct (Hx g); [left|lia|lia].
Qed.

(** The remaining tables are as with only the entry cleared. *)
Lemma drop_agree : agree_but None ((4%nat, root) :: slots m1 root lo n) m1 (pmem st').
Proof.
  destruct drop_ok as (Hgok & _ & Hgr). intros k h i Hh Hi _.
  pose proof (sp_nodup_tree _ _ _ _ _ Hsp) as Hnd. cbn in Hnd. rewrite drop_slots1 in Hnd.
  apply (unchanged_word_1 g); [apply drop_unchanged|done| | |done].
  - apply elem_of_cons in Hh as [[= -> ->]|Hh]; [apply Hsp|by eapply entries_frame_ok].
  - apply (list_elem_of_fmap_2 snd) in Hh. clear -Hnd Hh Hgr. cbn in *. rewrite !NoDup_cons in Hnd. set_solver.
Qed.

Lemma drop_slots : slots (pmem st') root lo n = slots m1 root lo n.
Proof.
  pose proof (sp_lo _ _ _ _ _ Hsp). pose proof (sp_hi _ _ _ _ _ Hsp). apply entries_agree.
  - intros i Hi. apply (drop_agree 3%nat); [left|lia|done].
  - eapply agree_but_sub; [|apply drop_agree]. intros k h Hh. by right.
Qed.

Lemma drop_unchanged_both h j : a = h + 8 * j → 0 ≤ j < 512 → unchanged [h; g] (pmem st) (pmem st').
Proof.
  intros E Hj x Hx. rewrite drop_pmem, !rd8_wr_out; [done|..].
  - rewrite E. destruct (Hx h); [left|lia|lia].
  - destruct (Hx g); [right; left|lia|lia].
Qed.

Lemma drop_frames :
  frames_inv (set_free_frames g (set_pmem (wr64 (pmem st) g (free_frames st)) st)) (g :: p) →
  frames_inv st' (g :: p).
Proof.
  intros Hfi. eapply frames_inv_state; [exact Hfi|done|done|]. intros f Hf. cbn. apply rd64_wr64_ne.
  destruct drop_where as (h & j & Hh & Hok & Hj & E & Hne). destruct drop_ok as (Hgok & _).
  apply elem_of_cons in Hf as [->|Hf].
  - destruct (frames_apart h g); [done..|lia|lia].
  - destruct (sp_apart _ _ _ _ _ _ _ _ Hsp Hh Hf) as [_ ?]. lia.
Qed.

Lemma drop_perm : (slots (pmem st') root lo n).*2 ++ g :: p ≡ₚ (slots (pmem st) root lo n).*2 ++ p.
Proof. rewrite drop_slots, drop_slots1. cbn. solve_Permutation. Qed.

Lemma drop_no_big : no_big (pmem st') (slots (pmem st') root lo n).
Proof.
  rewrite drop_slots. intros k h i Hh Hk Hi. destruct k as [|k]; [lia|].
  rewrite (drop_agree k h i) by (done || by right).
  destruct (decide (a = h + 8 * i)) as [E|Hne]; [rewrite <-E, drop_word1; by rewrite present_0|].
  rewrite (drop_agree1 k h i); [|right|done|congruence].
  - apply (sp_big _ _ _ _ _ Hsp (S k)); [|done..]. rewrite drop_slots1. by right.
  - rewrite drop_slots1. by right.
Qed.

Lemma drop_evolves :
  frames_inv (set_free_frames g (set_pmem (wr64 (pmem st) g (free_frames st)) st)) (g :: p) →
  evolves root lo n st p st' (g :: p).
Proof.
  intros Hfi. destruct drop_where as (h & j & Hh & Hok & Hj & E & Hne). pose proof drop_in as Hin. split.
  - split; [by apply drop_frames|apply Hsp..| |apply drop_no_big]. rewrite drop_perm. apply Hsp.
  - apply drop_perm.
  - eapply unchanged_sub; [|by apply (drop_unchanged_both h j)].
    apply (list_elem_of_fmap_2 snd) in Hh, Hin. cbn in Hh, Hin. clear -Hh Hin. set_solver.
  - by repeat split.
Qed.

(** The data pages that stay keep their contents. *)
Lemma drop_contents x k' :
  (0%nat, k') ∈ slots (pmem st') root lo n → k' ≤ x < k' + PAGE_SIZE → rd8 (pmem st') x = rd8 (pmem st) x.
Proof.
  rewrite drop_slots. intros Hk Hx. destruct drop_where as (h & j & Hh & Hok & Hj & E & Hne).
  assert ((0%nat, k') ∈ slots (pmem st) root lo n) as Hk' by (rewrite drop_slots1; by right).
  pose proof (sp_nodup_tree _ _ _ _ _ Hsp) as Hnd.
  apply (drop_unchanged_both h j E Hj). intros f Hf.
  assert (frame_ok k') by (by eapply (sp_node_ok st); [|right]). destruct drop_ok as (Hgok & _).
  apply elem_of_cons in Hf as [->|Hf%list_elem_of_singleton].
  - assert (h ≠ k') as Hhk.
    { intros ->. apply (NoDup_node _ 0) in Hh; [lia|done|by right]. }
    destruct (frames_apart h k'); [done..|lia|lia].
  - rewrite Hf. assert (g ≠ k') as Hgk.
    { cbn in Hnd. rewrite drop_slots1 in Hnd. apply (list_elem_of_fmap_2 snd) in Hk. cbn in Hk, Hnd.
      clear -Hk Hnd. rewrite !NoDup_cons in Hnd. set_solver. }
    destruct (frames_apart g k'); [done..|lia|lia].
Qed.

Lemma drop_pte va' :
  in_slots lo n va' →
  pte (pmem st') root va' =
    if decide (walk d 4 (pmem st) root va' = Some a) then 0 else pte (pmem st) root va'.
Proof.
  intros Hs'. pose proof (leaf_update _ _ _ _ d (3 - d) 4 root lo n va' drop_one_entry ltac:(lia) Hs') as Hup.
  replace (d + (3 - d))%nat with 3%nat in Hup by lia. rewrite drop_word1 in Hup.
  rewrite (leaf_agree 3 4 m1 (pmem st') root lo n); [|lia|exact Hs'|apply drop_agree].
  rewrite Hup. case_decide; [|done]. destruct (3 - d)%nat; [done|]. cbn [leaf_of].
  unfold links. by rewrite present_0.
Qed.

(** The way to the entry stays as it was. *)
Lemma drop_path c :
  (c ≤ d)%nat → walk c 4 (pmem st') root va = walk c 4 (pmem st) root va ∧
  ((c < d)%nat → ∀ b, walk c 4 (pmem st) root va = Some b → rd64 (pmem st') b = rd64 (pmem st) b).
Proof.
  intros Hc. destruct (one_entry_path _ _ _ _ c d 4 root lo n drop_one_entry Hc) as [H1 H2].
  split.
  - rewrite <-H1. apply (walk_agree c 4 m1 (pmem st') root lo n); [lia|exact Hs|].
    intros [|j] h i Hh Hj Hi; [lia|]. by apply (drop_agree j).
  - intros Hlt b Hb. rewrite <-(H2 Hlt b Hb).
    destruct (walk_node c 4 m1 root lo n va b) as (h & Hh & Eb); [lia|by rewrite H1|exact Hs|].
    rewrite Eb. destruct (4 - c)%nat as [|k] eqn:Ek; [lia|]. apply (drop_agree k); [done|apply tindex_range|done].
Qed.

Lemma drop_spec : wp (MMU_pf_free g ;; memset_at a 0 8) st (λ _ st2, dropped root lo n va a g d st p st2).
Proof.
  destruct drop_ok as (Hok & Hnin & _). wp_step.
  eapply wp_mono; [by apply pf_free_spec; [apply Hsp|..]|]. cbv beta. intros _ st1 [-> Hfi].
  unfold memset_at. apply wp_modify. rewrite memset_entry.
  fold (put_word a 0 (set_free_frames g (set_pmem (wr64 (pmem st) g (free_frames st)) st))). split.
  - by apply drop_evolves.
  - rewrite drop_slots. apply drop_slots1.
  - intros f x. apply drop_contents.
  - apply drop_pte.
  - intros c Hc. by apply drop_path.
  - intros c b Hc. apply drop_path; [lia|done].
  - cbn. by rewrite rd64_wr64_eq.
Qed.
End drop_node.

(** ** Empty tables *)

Definition table_clear (m : mem) (t : Z) : Prop := Forall (λ i, rd64 m (t + 8 * i) = 0) (seqZ 0 512).

Lemma table_clear_word m t i : table_clear m t → 0 ≤ i < 512 → rd64 m (t + 8 * i) = 0.
Proof. unfold table_clear. rewrite Forall_forall. intros Hc Hi. apply Hc, elem_of_seqZ. lia. Qed.

Lemma page_table_empty_spec st t :
  page_table_empty t st = Ret (bool_decide (table_clear (pmem st) t), st).
Proof.
  apply wp_eq. unfold page_table_empty. wp_step.
  apply (wp_for_ret (λ done _ st', st' = st ∧ Forall (λ i, rd64 (pmem st) (t + 8 * i) = 0) done)).
  - split; [done|constructor].
  - intros done i rest st' E [-> Hd]. wp_step. apply wp_gets. apply wp_ret.
    destruct (Z.eqb_spec (rd64 (pmem st) (t + 8 * i)) 0) as [Hz|Hz]; cbn.
    + split; [done|]. apply Forall_app. by split; [|constructor].
    + apply wp_ret. split; [|done]. symmetry. apply bool_decide_eq_false. unfold table_clear. rewrite E.
      intros [_ [Hi _]%Forall_cons_1]%Forall_app. done.
  - intros st' [-> Hd]. apply wp_ret. split; [|done]. symmetry. by apply bool_decide_eq_true.
Qed.

(** The steps that only remove empty tables at or above depth [d] of the way
    to [va]. *)
Record kept (root lo n va : Z) (d : nat) (st : mst) (p : list Z) (st' : mst) (p' : list Z) : Prop := {
  kp_evolves : evolves root lo n st p st' p';
  kp_keeps : keeps root lo n (pmem st) (pmem st');
  kp_pte : pte_same root lo n (pmem st) (pmem st');
  kp_walk : ∀ c, (c ≤ d)%nat → walk c 4 (pmem st') root va = walk c 4 (pmem st) root va;
  kp_word : ∀ c b, (c < d)%nat → walk c 4 (pmem st) root va = Some b → rd64 (pmem st') b = rd64 (pmem st) b;
  kp_pool : p ⊆ p'
}.

Lemma kept_refl root lo n va d st p : space st root lo n p → kept root lo n va d st p st p.
Proof. intros Hsp. split; [by apply evolves_refl|apply keeps_refl|done..]. Qed.

Lemma kept_trans root lo n va d d' st1 p1 st2 p2 st3 p3 :
  kept root lo n va d st1 p1 st2 p2 → kept root lo n va d' st2 p2 st3 p3 → (d' ≤ d)%nat →
  kept root lo n va d' st1 p1 st3 p3.
Proof.
  intros [E1 K1 P1 W1 V1 S1] [E2 K2 P2 W2 V2 S2] Hd. split.
  - by eapply evolves_trans.
  - by eapply keeps_trans.
  - intros va' Hs. by rewrite P2, P1.
  - intros c Hc. by rewrite W2, W1 by lia.
  - intros c b Hc Hb. rewrite (V2 c), (V1 c) by (lia || done || (rewrite W1 by lia; done)). done.
  - set_solver.
Qed.

Lemma free_if_empty_spec st root lo n p va d a :
  space st root lo n p → in_slots lo n va → (d < 3)%nat →
  walk d 4 (pmem st) root va = Some a → links (4 - d) (rd64 (pmem st) a) = true →
  let g := addr_of (rd64 (pmem st) a) in
  wp (free_if_empty g a) st (λ _ st', ∃ p', kept root lo n va d st p st' p' ∧
    if decide (table_clear (pmem st) g) then rd64 (pmem st') a = 0 else st' = st).
Proof.
  intros Hsp Hs Hd Hw Hl g. unfold free_if_empty, phys_to_virt. rewrite Z.add_0_l. wp_step.
  eapply wp_of_eq; [apply page_table_empty_spec|].
  destruct (decide (table_clear (pmem st) g)) as [Hz|Hz].
  2: { rewrite bool_decide_false by done. apply wp_ret. exists p. split; [by apply kept_refl|done]. }
  rewrite bool_decide_true by done.
  eapply wp_mono; [apply (drop_spec st root lo n g p d va a (rd64 (pmem st) a)); [done|done|lia|done|reflexivity|done|reflexivity|]|].
  { apply nodes_zero. intros i. by apply table_clear_word. }
  cbv beta. intros _ st' [He Hsl Hc Hp Hwk Hwd Hgone]. exists (g :: p). split; [|done]. split; try done.
  - intros g' Hg'. rewrite Hsl in Hg'. apply elem_of_cons in Hg' as [[= E _]|Hg']; [lia|].
    split; [done|]. intros x Hx. by apply (Hc g').
  - intros va' Hs'. rewrite Hp by done. case_decide as Hw'; [|done]. symmetry.
    pose proof (leaf_walk d (S (2 - d)) 4 (pmem st) root va' a Hw') as Hlf.
    replace (d + S (2 - d))%nat with 3%nat in Hlf by lia. rewrite Hlf.
    apply leaf_of_zero. intros i. by apply table_clear_word.
  - set_solver.
Qed.

(** The entries on the way to the page table of [va] carry the bit that marks
    tables taken from the frame allocator. *)
Definition path_allocated (m : mem) (root va : Z) : Prop :=
  ∀ c b, (c < 3)%nat → walk c 4 m root va = Some b → get_bits F_allocated (rd64 m b) ≠ 0.

Lemma walk_stop d c k m f va a :
  walk d k m f va = Some a → links (k - d) (rd64 m a) = false → (d < c)%nat → walk c k m f va = None.
Proof.
  revert c k f. induction d as [|d IH]; intros c k f Hw Hl Hc; destruct c as [|c]; try lia; cbn [walk] in *.
  - injection Hw as ->. rewrite Nat.sub_0_r in Hl. by rewrite Hl.
  - destruct (links k _); [|done]. apply IH; [done| |lia]. by replace (pred k - d)%nat with (k - S d)%nat by lia.
Qed.

Lemma cleared_stop d c m f va a :
  walk d 4 m f va = Some a → rd64 m a = 0 → (d < c)%nat → walk c 4 m f va = None.
Proof. intros Hw Hz. apply (walk_stop d c 4 m f va a Hw). unfold links. by rewrite Hz, present_0. Qed.

(** What [free_empty_tables] promises. *)
Definition tables_freed (root lo n va : Z) (st : mst) (p : list Z) (st' : mst) : Prop :=
  ∃ p', kept root lo n va 0 st p st' p' ∧
    (path_allocated (pmem st) root va →
     ∀ b, walk 2 4 (pmem st) root va = Some b → table_clear (pmem st) (addr_of (rd64 (pmem st) b)) →
       walk 3 4 (pmem st') root va = None).

(** The early returns: the entry at depth [d] has no table of its own. *)
Lemma table_guard st root lo n p va d a (guard : bool) (next : M mst unit) :
  space st root lo n p → (d < 3)%nat → walk d 4 (pmem st) root va = Some a →
  guard = negb (links (4 - d) (rd64 (pmem st) a)) || (get_bits F_allocated (rd64 (pmem st) a) =? 0) →
  (links (4 - d) (rd64 (pmem st) a) = true → wp next st (λ _ st', tables_freed root lo n va st p st')) →
  wp (if guard then ret tt else next) st (λ _ st', tables_freed root lo n va st p st').
Proof.
  intros Hsp Hd Hw -> Hnext. destruct (links _ _) eqn:Hl; cbn [negb orb].
  - destruct (Z.eqb_spec (get_bits F_allocated (rd64 (pmem st) a)) 0) as [Ha|Ha]; [|by apply Hnext].
    apply wp_ret. exists p. split; [by apply kept_refl|]. intros Hpa. by destruct (Hpa d a).
  - apply wp_ret. exists p. split; [by apply kept_refl|]. intros _ b _ _. by apply (walk_stop d 3 4 _ _ _ a).
Qed.

Lemma links_guard k w : k = 2%nat ∨ k = 3%nat → negb (present w) || big_page w = negb (links k w).
Proof. unfold links. by intros [-> | ->]; destruct (present w), (big_page w). Qed.

Lemma free_empty_tables_spec st root lo n p va :
  space st root lo n p → in_slots lo n va → page_down (cr3 st) = root →
  wp (free_empty_tables va) st (λ _ st', tables_freed root lo n va st p st').
Proof.
  intros Hsp Hs Hcr. unfold free_empty_tables, MMU_current_p4, phys_to_virt. wp_step. apply wp_gets.
  rewrite Hcr, PML4_tindex, PDP_tindex, PD_tindex, !Z.add_0_l. cbv zeta.
  set (e4 := root + 8 * tindex 4 va). wp_step. apply wp_gets.
  assert (walk 0 4 (pmem st) root va = Some e4) as W0 by done.
  apply (table_guard _ _ _ _ _ _ 0 e4); [done|lia|done|unfold links; cbn; by rewrite andb_true_r|]. intros L4.
  rewrite !Z.add_0_l. fold (addr_of (rd64 (pmem st) e4)). set (e3 := addr_of (rd64 (pmem st) e4) + 8 * tindex 3 va). wp_step. apply wp_gets.
  assert (walk 1 4 (pmem st) root va = Some e3) as W1 by exact (walk_snoc 0 4 (pmem st) root va e4 W0 L4).
  apply (table_guard _ _ _ _ _ _ 1 e3); [done|lia|done|by rewrite (links_guard 3) by (by right)|]. intros L3.
  rewrite !Z.add_0_l. fold (addr_of (rd64 (pmem st) e3)). set (e2 := addr_of (rd64 (pmem st) e3) + 8 * tindex 2 va). wp_step. apply wp_gets.
  assert (walk 2 4 (pmem st) root va = Some e2) as W2 by exact (walk_snoc 1 4 (pmem st) root va e3 W1 L3).
  apply (table_guard _ _ _ _ _ _ 2 e2); [done|lia|done|by rewrite (links_guard 2) by (by left)|]. intros L2.
  fold (addr_of (rd64 (pmem st) e2)).
  wp_step. eapply wp_mono; [by apply (free_if_empty_spec st root lo n p va 2 e2); [..|lia|done|done]|].
  cbv beta. intros _ st1 (p1 & K1 & C1).
  pose proof (kp_word _ _ _ _ _ _ _ _ _ K1) as Hwd1. pose proof (kp_walk _ _ _ _ _ _ _ _ _ K1) as Hwk1.
  rewrite <-(Hwd1 1%nat e3) by (lia || done).
  wp_step. eapply wp_mono.
  { apply (free_if_empty_spec st1 root lo n p1 va 1 e3); [apply K1|done|lia|by rewrite Hwk1 by lia|].
    by rewrite (Hwd1 1%nat) by (lia || done). }
  cbv beta. intros _ st2 (p2 & K2 & C2).
  pose proof (kept_trans _ _ _ _ _ _ _ _ _ _ _ _ K1 K2 ltac:(lia)) as K12.
  pose proof (kp_word _ _ _ _ _ _ _ _ _ K12) as Hwd2. pose proof (kp_walk _ _ _ _ _ _ _ _ _ K12) as Hwk2.
  rewrite <-(Hwd2 0%nat e4) by (lia || done).
  eapply wp_mono.
  { apply (free_if_empty_spec st2 root lo n p2 va 0 e4); [apply K2|done|lia|by rewrite Hwk2 by lia|].
    by rewrite (Hwd2 0%nat) by (lia || done). }
  cbv beta. intros _ st3 (p3 & K3 & C3).
  exists p3. split; [by eapply kept_trans; [exact K12|exact K3|lia]|].
  intros _ b Hb Hclear. rewrite W2 in Hb. injection Hb as <-.
  rewrite decide_True in C1 by done.
  assert (walk 3 4 (pmem st1) root va = None) as N1
    by (apply (cleared_stop 2 3 _ _ _ e2); [by rewrite Hwk1|exact C1|lia]).
  assert (walk 3 4 (pmem st2) root va = None) as N2.
  { destruct (decide (table_clear (pmem st1) (addr_of (rd64 (pmem st1) e3)))); [|by rewrite C2]. apply (cleared_stop 1 3 _ _ _ e3); [by rewrite Hwk2|exact C2|lia]. }
  case_decide; [|by rewrite C3]. by apply (cleared_stop 0 3 _ _ _ e4); [|exact C3|lia].
Qed.

(** ** One page *)

(** The page of [va] was unmapped and everything else in the space reads as before. *)
Record page_freed (root lo n va : Z) (st : mst) (p : list Z) (st' : mst) (p' : list Z) : Prop := {
  pf_evolves : evolves root lo n st p st' p';
  pf_pte : pte_set root lo n (pmem st) (pmem st') va 0;
  pf_vmem : ∀ va', in_slots lo n va' →
    vmem (pmem st') root va' = if decide (vpn va' = vpn va) then None else vmem (pmem st) root va';
  pf_pool : p ⊆ p';
  pf_frame : present (pte (pmem st) root va) = true → addr_of (pte (pmem st) root va) ∈ p';
  pf_tables : path_allocated (pmem st) root va →
    (∀ va', in_slots lo n va' → (∀ k, (1 < k ≤ 4)%nat → tindex k va' = tindex k va) →
       vpn va' ≠ vpn va → pte (pmem st) root va' = 0) →
    walk 3 4 (pmem st') root va = None
}.

(** The address with index [i] in the page table of [va]. *)
Definition sibling (va i : Z) : Z := va / 2 ^ 21 * 2 ^ 21 + i * 2 ^ 12.

Lemma sibling_tindex va i k :
  0 ≤ i < 512 → tindex 1 (sibling va i) = i ∧ ((1 < k)%nat → tindex k (sibling va i) = tindex k va).
Proof.
  intros Hi. unfold tindex, sibling. split.
  - change (3 + 9 * Z.of_nat 1) with 12.
    replace (va / 2 ^ 21 * 2 ^ 21 + i * 2 ^ 12) with ((va / 2 ^ 21 * 512 + i) * 2 ^ 12) by lia.
    rewrite Z.div_mul by lia. rewrite Z.add_comm, Z.mod_add by lia. by apply Z.mod_small.
  - intros Hk. f_equal. replace (3 + 9 * Z.of_nat k) with (21 + 9 * (Z.of_nat k - 2)) by lia.
    rewrite Z.pow_add_r, <-!Z.div_div by lia. f_equal.
    rewrite Z.add_comm, Z.div_add by lia. rewrite (Z.div_small (i * 2 ^ 12)) by lia. lia.
Qed.

Lemma page_table_clear m root lo n va b :
  in_slots lo n va → walk 2 4 m root va = Some b → links 2 (rd64 m b) = true →
  (∀ va', in_slots lo n va' → (∀ k, (1 < k ≤ 4)%nat → tindex k va' = tindex k va) → pte m root va' = 0) →
  table_clear m (addr_of (rd64 m b)).
Proof.
  intros Hs Hb Hl Hz. apply Forall_forall. intros i Hi%elem_of_seqZ.
  destruct (sibling_tindex va i 4 ltac:(lia)) as [E1 E4].
  specialize (Hz (sibling va i)). rewrite <-Hz.
  - rewrite (pte_walk m root (sibling va i) (addr_of (rd64 m b) + 8 * i)); [done|].
    rewrite <-E1 at 2. apply (walk_snoc 2 4); [|done]. rewrite <-Hb. apply walk_same_index.
    intros j Hj. apply sibling_tindex; lia.
  - unfold in_slots. rewrite E4 by lia. exact Hs.
  - intros k Hk. apply sibling_tindex; lia.
Qed.

(** The entry was cleared, and the frame of a present page freed. *)
Record unmapped (root lo n va a : Z) (st : mst) (p : list Z) (st' : mst) (p' : list Z) : Prop := {
  um_evolves : evolves root lo n st p st' p';
  um_pte : pte_set root lo n (pmem st) (pmem st') va 0;
  um_contents : ∀ f x, (0%nat, f) ∈ slots (pmem st') root lo n → f ≤ x < f + PAGE_SIZE →
    rd8 (pmem st') x = rd8 (pmem st) x;
  um_pool : p ⊆ p';
  um_frame : present (rd64 (pmem st) a) = true → addr_of (rd64 (pmem st) a) ∈ p';
  um_walk : ∀ c, (c ≤ 3)%nat → walk c 4 (pmem st') root va = walk c 4 (pmem st) root va;
  um_word : ∀ c b, (c < 3)%nat → walk c 4 (pmem st) root va = Some b → rd64 (pmem st') b = rd64 (pmem st) b
}.

Lemma unmap_entry st root lo n p va a (next : M mst unit) Q :
  space st root lo n p → in_slots lo n va → walk 3 4 (pmem st) root va = Some a →
  (∀ st' p', unmapped root lo n va a st p st' p' → wp next st' Q) →
  wp (present <- get_field F_present a ;;
      (if negb (present =? 0) then
         pfn <- get_field F_addr a ;; MMU_pf_free (pfn_to_phys pfn)
       else ret tt) ;;
      memset_at a 0 8 ;; next) st Q.
Proof.
  intros Hsp Hs Hw Hnext. apply wp_bind, wp_get_field. fold (present (rd64 (pmem st) a)).
  destruct (present (rd64 (pmem st) a)) eqn:Hp.
  - apply wp_assoc, wp_bind, wp_get_field. fold (addr_of (rd64 (pmem st) a)). apply wp_seq.
    eapply wp_mono; [apply (drop_spec st root lo n (addr_of (rd64 (pmem st) a)) p 3 va a (rd64 (pmem st) a));
      [done|done|lia|done|reflexivity|by rewrite links_1|reflexivity|apply nodes_0]|].
    cbv beta. intros _ st' [He Hsl Hc Hpt Hwk Hwd _].
    apply (Hnext st' (addr_of (rd64 (pmem st) a) :: p)). split; [done| |done|set_solver|left|done|done].
    intros va' Hs'. rewrite Hpt by done. apply decide_ext. by eapply walk_page.
  - apply wp_bind, wp_ret, wp_bind, wp_modify. rewrite memset_entry. fold (put_word a 0 st).
    destruct (set_leaf_evolves st root lo n p va a 0 Hsp Hs Hw Hp present_0 ltac:(lia)) as [He Hk].
    pose proof (sp_one_entry _ _ _ _ _ _ _ _ _ Hsp Hs (le_n 4) Hw (set_leaf_agree st root lo n p va a 0 Hsp Hs Hw Hp)) as Hone.
    apply (Hnext _ p). split; [done|by apply (set_leaf_pte st root lo n p va a 0 Hsp Hs Hw)| |done|congruence|..].
    + intros f x Hf Hx. rewrite (set_leaf_slots st root lo n p va a 0 Hsp Hs Hw Hp present_0) in Hf by lia.
      by apply (Hk f Hf).
    + intros c Hc. by apply (one_entry_path _ _ _ _ c 3 4 root lo n Hone Hc).
    + intros c b Hc. by apply (one_entry_path _ _ _ _ c 3 4 root lo n Hone); [lia|].
Qed.

(** Nothing is mapped there. *)
Lemma page_freed_none st root lo n p va :
  space st root lo n p → in_slots lo n va → walk 3 4 (pmem st) root va = None →
  page_freed root lo n va st p st p.
Proof.
  intros Hsp Hs Hw. assert (∀ va', vpn va' = vpn va → pte (pmem st) root va' = 0) as Hz.
  { intros va' E. unfold leaf. rewrite (walk_same_index 3 4 _ _ va' va), Hw; [done|].
    intros j Hj. apply vpn_eq; [done|lia]. }
  split; [by apply evolves_refl| | |done| |done].
  - intros va' Hs'. case_decide; [by apply Hz|done].
  - intros va' Hs'. case_decide as E; [|done]. unfold vmem. by rewrite Hz, present_0, demand_0.
  - rewrite Hz by done. by rewrite present_0.
Qed.

(** The two steps together. *)
Lemma page_freed_steps st root lo n p va a st1 p1 st2 :
  space st root lo n p → in_slots lo n va → walk 3 4 (pmem st) root va = Some a →
  unmapped root lo n va a st p st1 p1 → tables_freed root lo n va st1 p1 st2 →
  ∃ p2, page_freed root lo n va st p st2 p2.
Proof.
  intros Hsp Hs Hw [E1 P1 C1 S1 F1 W1 V1] (p2 & [E2 K2 P2 W2 V2 S2] & T2). exists p2.
  pose proof (pte_walk _ _ _ _ Hw) as Hpte. split.
  - by eapply evolves_trans.
  - intros va' Hs'. rewrite (P2 va' Hs'). by apply P1.
  - intros va' Hs'. rewrite (vmem_keeps root lo n (pmem st1)); [|done|done|by apply P2].
    unfold vmem. cbv zeta. rewrite (P1 va' Hs'). case_decide; [by rewrite present_0, demand_0|].
    destruct (present (pte (pmem st) root va')) eqn:Hp; [|done]. f_equal. apply (C1 (addr_of (pte (pmem st) root va'))).
    + assert (pte (pmem st1) root va' = pte (pmem st) root va') as E by (rewrite (P1 va' Hs'); by rewrite decide_False).
      rewrite <-E. apply pte_node; [done|by rewrite E].
    + pose proof (page_offset va'). lia.
  - set_solver.
  - rewrite Hpte. intros Hp. by apply S2, F1.
  - intros Hpa Hz. destruct (walk 2 4 (pmem st) root va) as [b|] eqn:Hb.
    + apply (T2) with (b := b).
      * intros c b' Hc Hb'. rewrite W1 in Hb' by lia. rewrite (V1 c b') by done. by apply (Hpa c).
      * by rewrite W1 by lia.
      * apply (page_table_clear _ root lo n va); [done|by rewrite W1 by lia|..].
        -- rewrite (V1 2%nat) by (lia || done). destruct (links 2 _) eqn:Hl; [done|].
           by rewrite (walk_stop 2 3 4 _ _ _ b Hb Hl) in Hw by lia.
        -- intros va' Hs' Hk. rewrite (P1 va' Hs'). case_decide; [done|]. by apply Hz.
    + exfalso. clear -Hw Hb. cbn [walk pred] in *. repeat (case_match; try done).
Qed.

Lemma MMU_free_page_spec st lo n p vaddr :
  space st (cr3 st) lo n p → let va := page_down vaddr in in_slots lo n va →
  wp (MMU_free_page vaddr) st (λ _ st', ∃ p', page_freed (cr3 st) lo n va st p st' p').
Proof.
  intros Hsp va Hs. set (root := cr3 st) in *. unfold MMU_free_page, travel_pagetable, MMU_current_p4.
  fold va. wp_step. wp_step. apply wp_gets. fold root. eapply wp_of_eq; [apply travel_walk|].
  rewrite frame_ok_aligned_page_down by apply Hsp.
  destruct (walk 3 4 (pmem st) root va) as [a|] eqn:Hw; cbn [default].
  2: { rewrite Z.eqb_refl. apply wp_ret. exists p. by apply page_freed_none. }
  rewrite (proj2 (Z.eqb_neq a _)) by (by eapply walk_valid).
  apply (unmap_entry st root lo n p va a); [done..|]. intros st1 p1 H1.
  assert (cr3 st1 = root) as Hcr by apply (um_evolves _ _ _ _ _ _ _ _ _ H1).
  eapply wp_mono; [apply (free_empty_tables_spec st1 root lo n p1); [apply H1|done|]|].
  { rewrite Hcr. apply frame_ok_aligned_page_down, Hsp. }
  cbv beta. intros _ st2 H2. by eapply page_freed_steps.
Qed.

(** C11: [MMU_free_page] unmaps the page of the address and no other, gives its frame
    back, and leaves every other byte of the address space readable as before; a page
    table that holds nothing any more is given back too. *)
Theorem MMU_free_page_correct st lo n p vaddr :
  space st (cr3 st) lo n p → in_slots lo n (page_down vaddr) →
  ∃ st' p', MMU_free_page vaddr st = Ret (tt, st') ∧
    page_freed (cr3 st) lo n (page_down vaddr) st p st' p'.
Proof.
  intros Hsp Hs. pose proof (MMU_free_page_spec st lo n p vaddr Hsp Hs) as H.
  apply wp_iff in H as ([] & st' & E & p' & Hr). by exists st', p'.
Qed.

Lemma MMU_free_page_witness :
  ∃ st' p', MMU_free_page (VA_USER_BASE + 0x10) user_reserved = Ret (tt, st') ∧
    page_freed (cr3 user_reserved) 32 480 (page_down (VA_USER_BASE + 0x10)) user_reserved
      (regions_frames (usable_regions user_reserved)) st' p'.
Proof.
  apply (MMU_free_page_correct user_reserved 32 480 _ (VA_USER_BASE + 0x10) user_reserved_space).
  vm_compute. split; [discriminate|reflexivity].
Defined.
