(* ===== verification/VpagesTheorems.v ===== *)
(** * Theorems on the pages of an address space

    Demand paging, reservations, kernel accesses by virtual address, copying
    to another address space and isolation, with concrete instances. *)

From S2P Require Import Prelude Memory Frames Vpages Bits PageTree VpagesMap VpagesPages.
From S2P Require Import VpagesIsolation VpagesWrite VpagesKernel VpagesExamples VpagesFree.

Implicit Types (m : mem) (st : mst) (p : list Z).

(** ** Demand paging *)

(** C2: on a page fault at a reserved page the handler maps the first free frame,
    cleared, with the user bit set exactly for user addresses, and no program can
    tell ([vmem] is unchanged); on any other fault, or without a free frame, it
    stops the machine. *)
Theorem ISR14_correct st lo n p :
  space st (cr3 st) lo n p → in_slots lo n (cr2 st) →
  let w := pte (pmem st) (cr3 st) (cr2 st) in
  if demand w && negb (present w) && negb (bool_decide (p = [])) then
    ∃ st' f p', ISR14_PAGE_FAULT_HANDLER st = Ret (tt, st') ∧ p = f :: p' ∧
      evolves (cr3 st) lo n st p st' p' ∧ vmem_same (cr3 st) lo n (pmem st) (pmem st') ∧
      translate (pmem st') (cr3 st) (cr2 st) = Some (f + cr2 st mod PAGE_SIZE) ∧
      user_page (pte (pmem st') (cr3 st) (cr2 st)) = (VA_USER_BASE <=? cr2 st)
  else ISR14_PAGE_FAULT_HANDLER st = Halt.
Proof.
  intros Hsp Hs w. pose proof (ISR14_spec st lo n p Hsp Hs) as H. cbv zeta in H. fold w in H.
  destruct (demand w && negb (present w) && negb (bool_decide (p = []))) eqn:Hc; [|done].
  apply andb_true_iff in Hc as [Hc _]. apply andb_true_iff in Hc as [Hd Hp%negb_true_iff].
  apply wp_iff in H as ([] & st' & E & Hfill).
  destruct (page_filled_vmem _ _ _ _ _ _ _ Hsp Hs Hfill Hd Hp) as [Hvm Hp'].
  destruct Hfill as (f & p' & -> & He & _ & Hset & _). exists st', f, p'. do 4 (split; [done|]).
  rewrite (translate_spec _ _ _ _ _ _ (ev_space _ _ _ _ _ _ _ He) Hs). cbv zeta. rewrite Hp'.
  assert (frame_ok f) as Hok by (eapply sp_apart; [exact Hsp|left..]).
  rewrite (Hset _ Hs), decide_True by done. fold w.
  destruct (present_word_bits (VA_USER_BASE <=? cr2 st) w f Hok) as (_ & _ & Hu & Ha & _); [|by rewrite Ha].
  subst w. unfold leaf. destruct (walk _ _ _ _ _); [apply rd64_range|lia].
Qed.

Lemma ISR14_witness :
  let st := user_fault in let p := regions_frames (usable_regions st) in
  ∃ st' f p', ISR14_PAGE_FAULT_HANDLER st = Ret (tt, st') ∧ p = f :: p' ∧
    evolves (cr3 st) 32 480 st p st' p' ∧ vmem_same (cr3 st) 32 480 (pmem st) (pmem st') ∧
    translate (pmem st') (cr3 st) (cr2 st) = Some (f + cr2 st mod PAGE_SIZE) ∧
    user_page (pte (pmem st') (cr3 st) (cr2 st)) = (VA_USER_BASE <=? cr2 st).
Proof.
  assert (in_slots 32 480 (cr2 user_fault)) as Hs by (by vm_compute).
  pose proof (ISR14_correct user_fault 32 480 _ user_fault_space Hs) as H. cbv zeta in H |- *.
  assert (demand (pte (pmem user_fault) (cr3 user_fault) (cr2 user_fault)) &&
    negb (present (pte (pmem user_fault) (cr3 user_fault) (cr2 user_fault))) &&
    negb (bool_decide (regions_frames (usable_regions user_fault) = [])) = true) as Hc by (vm_compute; reflexivity).
  rewrite Hc in H. exact H.
Defined.

(** ** Reservations *)

(** C15: [MMU_alloc_at_as] reserves exactly the pages of the range, all of them
    free before, and answers the first one; or it answers NULL because a page was in
    use or no frame was left for a table, with only pages in front of that one
    reserved.  No page is lost and nothing else is mapped or unmapped. *)
Theorem MMU_alloc_at_as_correct st root lo n p vaddr size :
  space st root lo n p → 1 ≤ lo → lo * 2 ^ 39 ≤ vaddr → 0 < size ≤ 2 ^ 42 →
  vaddr + size ≤ (lo + n) * 2 ^ 39 →
  let b := vaddr / PAGE_SIZE in
  ∃ r st', MMU_alloc_at_as root vaddr size st = Ret (r, st') ∧
    reserve_result root lo n b ((vaddr + size + PAGE_SIZE - 1) / PAGE_SIZE - b) st p
      (negb (r =? 0)) st' ∧ (r = 0 ∨ r = b * PAGE_SIZE).
Proof.
  intros Hsp H1 Hlo Hsize Hhi b. apply wp_iff. apply with_ints.
  eapply wp_mono; [by apply (reserve_pages_at_spec (set_int_flag false st) root lo n p);
    [apply space_int_flag|..]|]. cbv beta.
  intros r st' [Hr Hcase]. apply reserve_result_int_flag in Hr as [Hr Hi]. done.
Qed.

Lemma MMU_alloc_at_as_witness :
  ∃ r st', MMU_alloc_at_as user_root (VA_USER_BASE + 0x800) 0x2000 user_boot = Ret (r, st') ∧
    reserve_result user_root 32 480 0x100000000 3 user_boot
      (regions_frames (usable_regions user_boot)) (negb (r =? 0)) st' ∧
    (r = 0 ∨ r = VA_USER_BASE).
Proof.
  apply (MMU_alloc_at_as_correct user_boot user_root 32 480 _ (VA_USER_BASE + 0x800) 0x2000 user_boot_space);
    lia.
Defined.

(** ** Accesses by virtual address *)

(** C16: a kernel store through a mapping changes the byte at that address and no
    other, whether the page already has a frame or is only reserved. *)
Theorem vstore8_correct st lo n p va v :
  space st (cr3 st) lo n p → in_slots lo n va → is_Some (vmem (pmem st) (cr3 st) va) →
  present (pte (pmem st) (cr3 st) va) = true ∨ p ≠ [] →
  ∃ st' p', vstore8 va v st = Ret (tt, st') ∧ evolves (cr3 st) lo n st p st' p' ∧
    ∀ va', in_slots lo n va' → vmem (pmem st') (cr3 st) va' =
      if decide (va' mod 2 ^ 48 = va mod 2 ^ 48) then Some (u8 v) else vmem (pmem st) (cr3 st) va'.
Proof.
  intros Hsp Hs Hv Hfree. pose proof (vstore8_spec st lo n p va v Hsp Hs Hv Hfree) as H.
  apply wp_iff in H as ([] & st' & E & p' & He & Hvm). by exists st', p'.
Qed.

Lemma vstore8_witness :
  ∃ st' p', vstore8 (VA_USER_BASE + 5) 0x41 user_reserved = Ret (tt, st') ∧
    evolves (cr3 user_reserved) 32 480 user_reserved (regions_frames (usable_regions user_reserved)) st' p' ∧
    ∀ va', in_slots 32 480 va' → vmem (pmem st') (cr3 user_reserved) va' =
      if decide (va' mod 2 ^ 48 = (VA_USER_BASE + 5) mod 2 ^ 48) then Some (u8 0x41)
      else vmem (pmem user_reserved) (cr3 user_reserved) va'.
Proof.
  apply (vstore8_correct user_reserved 32 480 _ (VA_USER_BASE + 5) 0x41 user_reserved_space).
  - vm_compute. split; [discriminate|reflexivity].
  - exists 0. vm_compute. reflexivity.
  - right. vm_compute. discriminate.
Defined.

(** ** Copying to another address space *)

Lemma write_user_range fuel st root lo n p dst src len (zero : bool) (sb : Z → Z) :
  space st root lo n p → lo * 2 ^ 39 ≤ dst → 0 ≤ len → dst + len ≤ (lo + n) * 2 ^ 39 →
  (∀ i, 0 ≤ i < len → is_Some (vmem (pmem st) root (dst + i))) →
  (if zero then ∀ i, sb i = 0 else src_ok st (root :: (slots (pmem st) root lo n).*2 ++ p) src len sb) →
  pages_of dst len < Z.of_nat fuel → (0 < fuel)%nat →
  wp (write_user_loop fuel root dst src len zero 0) (set_int_flag false st) (λ r st1,
    int_flag st1 = false ∧ write_result root lo n dst len sb st p r (set_int_flag (int_flag st) st1)).
Proof.
  intros Hsp Hlo Hlen Hhi Hmap Hsrc Hfuel Hf0. set (st0 := set_int_flag false st).
  eapply wp_mono; [apply (write_user_loop_spec root lo n dst src len zero sb st0 p)
    with (p := p); try done|].
  - by apply space_int_flag.
  - apply evolves_refl. by apply space_int_flag.
  - intros va Hs. by rewrite decide_False by lia.
  - by left.
  - destruct (Z.ltb_spec 0 len); [|lia]. by rewrite Z.add_0_r, Z.sub_0_r.
  - left. rewrite Z.add_0_r. lia.
  - cbv beta. intros r st' (p' & k & He & H). apply evolves_int_flag in He as [He Hi].
    split; [done|]. by exists p', k.
Qed.

(** C14: [MMU_copy_to_user_as] terminates; on 0 the program of that address space
    reads the source bytes in the whole range and what it read before elsewhere; on -1
    the free frames ran out, which needs fewer of them than pages in the range. *)
Theorem MMU_copy_to_user_as_correct fuel st root lo n p dst src len sb :
  space st root lo n p → lo * 2 ^ 39 ≤ dst → 0 ≤ len → dst + len ≤ (lo + n) * 2 ^ 39 →
  (∀ i, 0 ≤ i < len → is_Some (vmem (pmem st) root (dst + i))) → src ≠ 0 →
  src_ok st (root :: (slots (pmem st) root lo n).*2 ++ p) src len sb →
  pages_of dst len < Z.of_nat fuel → (0 < fuel)%nat →
  ∃ r st', MMU_copy_to_user_as fuel root dst src len st = Ret (r, st') ∧
    write_result root lo n dst len sb st p r st'.
Proof.
  intros Hsp Hlo Hlen Hhi Hmap Hsrc0 Hsrc Hfuel Hf0. apply wp_iff, with_ints. unfold write_user_range_as.
  rewrite (proj2 (Z.eqb_neq src 0)) by done. cbn [negb andb].
  by apply write_user_range.
Qed.

Lemma MMU_copy_to_user_as_witness :
  ∃ r st', MMU_copy_to_user_as 4 proc_root (proc_va + 0xFFE) 0x92000 3 proc_state = Ret (r, st') ∧
    write_result proc_root 32 480 (proc_va + 0xFFE) 3 (λ i, rd8 (pmem proc_state) (0x92000 + i))
      proc_state (regions_frames (usable_regions proc_state)) r st'.
Proof.
  apply (MMU_copy_to_user_as_correct 4 proc_state proc_root 32 480 _ (proc_va + 0xFFE) 0x92000 3);
    [exact proc_state_space|vm_compute; discriminate|lia|vm_compute; discriminate| |lia| |vm_compute; reflexivity|lia].
  - intros i Hi. assert (i = 0 ∨ i = 1 ∨ i = 2) as [-> | [-> | ->]] by lia; eexists; vm_compute; reflexivity.
  - apply (src_ok_identity 1); [lia|apply (bool_decide_unpack _); vm_compute; reflexivity|exact proc_state_identity| | | |lia|lia|].
    + apply (bool_decide_unpack _). vm_compute. reflexivity.
    + apply (bool_decide_unpack _). vm_compute. reflexivity.
    + apply (bool_decide_unpack _). vm_compute. reflexivity.
    + intros i g Hi Hg. assert (Forall (λ g, 0x93000 ≤ g ∨ g + 0x1000 ≤ 0x92000) (proc_root ::
        (slots (pmem proc_state) proc_root 32 480).*2 ++ regions_frames (usable_regions proc_state))) as Hf.
      { apply (bool_decide_unpack _). vm_compute. reflexivity. }
      rewrite Forall_forall in Hf. specialize (Hf g Hg). lia.
Defined.

(** [MMU_zero_user_as] is the same with zeros for the source bytes. *)
Theorem MMU_zero_user_as_correct fuel st root lo n p dst len :
  space st root lo n p → lo * 2 ^ 39 ≤ dst → 0 ≤ len → dst + len ≤ (lo + n) * 2 ^ 39 →
  (∀ i, 0 ≤ i < len → is_Some (vmem (pmem st) root (dst + i))) →
  pages_of dst len < Z.of_nat fuel → (0 < fuel)%nat →
  ∃ r st', MMU_zero_user_as fuel root dst len st = Ret (r, st') ∧
    write_result root lo n dst len (λ _, 0) st p r st'.
Proof.
  intros Hsp Hlo Hlen Hhi Hmap Hfuel Hf0. apply wp_iff, with_ints. unfold write_user_range_as. cbn [negb andb].
  by apply write_user_range.
Qed.

Lemma MMU_zero_user_as_witness :
  ∃ r st', MMU_zero_user_as 4 proc_root (proc_va + 0xFFE) 3 proc_state = Ret (r, st') ∧
    write_result proc_root 32 480 (proc_va + 0xFFE) 3 (λ _, 0)
      proc_state (regions_frames (usable_regions proc_state)) r st'.
Proof.
  apply (MMU_zero_user_as_correct 4 proc_state proc_root 32 480 _ (proc_va + 0xFFE) 3);
    [exact proc_state_space|vm_compute; discriminate|lia|vm_compute; discriminate| |vm_compute; reflexivity|lia].
  intros i Hi. assert (i = 0 ∨ i = 1 ∨ i = 2) as [-> | [-> | ->]] by lia; eexists; vm_compute; reflexivity.
Defined.

(** ** The kernel's page allocator *)

(** Once the page at the heap pointer is reserved, as a failed [MMU_alloc_pages]
    leaves it, [MMU_alloc_page] answers NULL, however many frames are free, and the
    heap pointer and the reservation stay, so that every later call fails too. *)
Theorem MMU_alloc_page_stuck st lo n p :
  space st (cr3 st) lo n p → in_slots lo n (kernel_va st) →
  demand (pte (pmem st) (cr3 st) (kernel_va st)) = true →
  ∃ st' p', MMU_alloc_page st = Ret (0, st') ∧ evolves (cr3 st) lo n st p st' p' ∧
    demand (pte (pmem st') (cr3 st') (kernel_va st')) = true.
Proof.
  intros Hsp Hs Hd. cut (wp MMU_alloc_page st (λ r st', r = 0 ∧ ∃ p', evolves (cr3 st) lo n st p st' p' ∧
    demand (pte (pmem st') (cr3 st') (kernel_va st')) = true)).
  { intros (r & st' & E & -> & p' & H)%wp_iff. by exists st', p'. }
  unfold MMU_alloc_page, are_interrupts_enabled, CLI, demand_page, MMU_current_p4.
  do 5 (wp_step; try (apply wp_gets || apply wp_modify)). cbn [kernel_va cr3 set_int_flag].
  eapply wp_mono; [apply (demand_page_in_spec (set_int_flag false st) (cr3 st) lo n p); [by apply space_int_flag|done]|].
  cbv beta zeta. intros r st1 (p1 & _ & He & _ & [(_ & Hd' & _)|(-> & Hsame & _)]); [cbn in Hd'; congruence|].
  apply evolves_int_flag in He as [He Hi]. cbn [Z.ltb Z.compare]. wp_step.
  apply wp_restore_ints; [done|]. apply wp_ret. split; [done|]. exists p1. split; [done|].
  destruct (ev_vars _ _ _ _ _ _ _ He) as (_ & V2 & V3 & _). rewrite V2, V3. cbn. rewrite Hsame by done. done.
Qed.

Lemma MMU_alloc_page_stuck_witness :
  result (MMU_alloc_pages 2) heap_used = Some 0 ∧
  ∃ st' p', MMU_alloc_page heap_failed = Ret (0, st') ∧
    evolves (cr3 heap_failed) 2 1 heap_failed (regions_frames (usable_regions heap_failed)) st' p' ∧
    demand (pte (pmem st') (cr3 st') (kernel_va st')) = true.
Proof.
  split; [vm_compute; reflexivity|].
  apply (MMU_alloc_page_stuck heap_failed 2 1 _ heap_failed_space); vm_compute; [split; [discriminate|reflexivity]|reflexivity].
Defined.
