(* ===== verification/VpagesDestroy.v ===== *)
(** * Tearing down an address space

    [MMU_destroy_userspace] gives every frame of the user slots, and the P4
    itself, back to the frame allocator. *)

From S2P Require Import Prelude Memory Frames Vpages Bits PageTree VpagesMap VpagesPages.
From S2P Require Import VpagesExamples.

Implicit Types (m : mem) (st : mst) (p : list Z) (k : nat).

(** The nodes [ns] were given back to the pool, and only their frames and
    the table [f] that pointed to them were written. *)
Record released (f : Z) (ns : list (nat * Z)) (st : mst) (p : list Z) (st' : mst) (p' : list Z) : Prop := {
  rl_frames : frames_inv st' p';
  rl_perm : p' ≡ₚ ns.*2 ++ p;
  rl_unchanged : unchanged (f :: ns.*2) (pmem st) (pmem st');
  rl_vars : same_vars st st'
}.

(** ** Memory outside the table being emptied *)

Lemma unchanged_nodes_agree fs m m' ns :
  unchanged fs m m' → Forall frame_ok fs → Forall frame_ok ns.*2 →
  (∀ g, g ∈ ns.*2 → g ∉ fs) → agree_but None ns m m'.
Proof.
  intros Hun Hfs Hns Hd k g i Hg Hi _. apply (list_elem_of_fmap_2 snd) in Hg.
  eapply unchanged_word; [exact Hun|done| |by apply Hd|done]. by eapply Forall_forall in Hns.
Qed.

Lemma entries_Forall_ok k m f lo n : Forall frame_ok (entries k m f lo n).*2.
Proof.
  apply Forall_forall. intros g ([k' g'] & -> & Hg)%list_elem_of_fmap. by eapply entries_frame_ok.
Qed.

Lemma entries_app k m f lo a b :
  0 ≤ a → 0 ≤ b → entries k m f lo (a + b) = entries k m f lo a ++ entries k m f (lo + a) b.
Proof.
  intros Ha Hb. destruct (decide (b = 0)) as [->|Hb0].
  { rewrite Z.add_0_r. by rewrite (entries_nil k m f (lo + a)), app_nil_r by lia. }
  rewrite (entries_split k m f lo (a + b) (lo + a)) by lia.
  rewrite (entries_split k m f (lo + a) b (lo + a)) by lia.
  rewrite (entries_nil k m f (lo + a) (lo + a - (lo + a))) by lia.
  cbn [app]. f_equal; [|f_equal]; f_equal; lia.
Qed.

Lemma no_big_agree m m' ns ns' :
  no_big m ns → (∀ x, x ∈ ns' → x ∈ ns) → agree_but None ns' m m' → no_big m' ns'.
Proof.
  intros Hb Hsub Hag k g i Hg Hk Hi. destruct k as [|k]; [lia|].
  rewrite (Hag k g i) by done. by apply (Hb (S k)); [apply Hsub|..].
Qed.

Lemma released_app f A B st p st1 p1 st2 p2 :
  released f A st p st1 p1 → released f B st1 p1 st2 p2 → released f (A ++ B) st p st2 p2.
Proof.
  intros [F1 P1 U1 V1] [F2 P2 U2 V2]. split; [done| | |by eapply same_vars_trans].
  - rewrite P2, P1, fmap_app. solve_Permutation.
  - eapply unchanged_trans; (eapply unchanged_sub; [|eassumption]); rewrite fmap_app; set_solver.
Qed.

(** ** The loop over the entries of a table *)

Section destroy_loop.
Context (k : nat) (f lo n : Z) (body : Z → M mst unit).
Hypothesis Hf : frame_ok f.
Hypothesis Hlo : 0 ≤ lo.
Hypothesis Hhi : lo + n ≤ 512.

(** The nodes below entry [i], ready to be released. *)
Definition entry_ready (st : mst) (p : list Z) (i : Z) (ns : list (nat * Z)) : Prop :=
  child k (pmem st) (rd64 (pmem st) (f + 8 * i)) = ns ∧
  frames_inv st p ∧ NoDup (f :: ns.*2 ++ p) ∧ no_big (pmem st) ns ∧
  ((k = 2 ∨ k = 3)%nat → present (rd64 (pmem st) (f + 8 * i)) = true →
     big_page (rd64 (pmem st) (f + 8 * i)) = false).

(** What one iteration does to the nodes below its entry. *)
Hypothesis Hbody : ∀ st p i ns,
  lo ≤ i < lo + n → entry_ready st p i ns →
  wp (body i) st (λ _ st', ∃ p', released f ns st p st' p' ∧
    ∀ j, 0 ≤ j < 512 → j ≠ i → rd64 (pmem st') (f + 8 * j) = rd64 (pmem st) (f + 8 * j)).

(** The entries before [i] are done and the others untouched. *)
Definition emptied (i : Z) (st : mst) (p : list Z) (st1 : mst) (p1 : list Z) : Prop :=
  released f (entries k (pmem st) f lo (i - lo)) st p st1 p1 ∧
  ∀ j, i ≤ j < lo + n → rd64 (pmem st1) (f + 8 * j) = rd64 (pmem st) (f + 8 * j).

Lemma emptied_ready i st p st1 p1 :
  NoDup (f :: (entries k (pmem st) f lo n).*2 ++ p) →
  no_big (pmem st) ((k, f) :: entries k (pmem st) f lo n) →
  lo ≤ i < lo + n → emptied i st p st1 p1 →
  entry_ready st1 p1 i (child k (pmem st) (rd64 (pmem st) (f + 8 * i))).
Proof.
  intros Hnd Hbig Hi [[Hfi1 Hp1 Hun1 Hv1] Hw1].
  pose proof (entries_split k (pmem st) f lo n i Hi) as Es.
  set (ns := child k (pmem st) (rd64 (pmem st) (f + 8 * i))) in *.
  rewrite Es, !fmap_app in Hnd.
  assert (agree_but None ns (pmem st) (pmem st1)) as Hag.
  { apply (unchanged_nodes_agree _ _ _ _ Hun1); [|apply child_frame_ok|].
    - constructor; [done|apply entries_Forall_ok].
    - clear -Hnd. rewrite NoDup_cons, !NoDup_app in Hnd. set_solver. }
  split; [|split; [done|split; [|split]]].
  - rewrite Hw1 by lia. by apply child_agree.
  - rewrite Hp1. clear -Hnd. rewrite !NoDup_cons, !NoDup_app in *. set_solver.
  - eapply no_big_agree; [exact Hbig| |exact Hag]. rewrite Es. set_solver.
  - rewrite Hw1 by lia. intros Hk. apply (Hbig k f i); [left|done|lia].
Qed.

Lemma destroy_loop st p :
  frames_inv st p → NoDup (f :: (entries k (pmem st) f lo n).*2 ++ p) →
  no_big (pmem st) ((k, f) :: entries k (pmem st) f lo n) →
  wp (for_each (seqZ lo n) body) st (λ _ st', ∃ p',
    released f (entries k (pmem st) f lo n) st p st' p').
Proof.
  intros Hfi Hnd Hbig.
  eapply wp_mono. 1: apply (wp_for_each (λ done _ st', ∃ p',
    emptied (lo + Z.of_nat (length done)) st p st' p')).
  - exists p. cbn [length]. split; [|done]. rewrite entries_nil by lia. by split.
  - intros done i rest st1 Hl (p1 & Hem). apply seqZ_split_index in Hl as [-> Hi].
    rewrite length_app, Nat2Z.inj_add, Z.add_assoc. cbn [length]. change (Z.of_nat 1) with 1.
    set (i := lo + Z.of_nat (length done)) in *.
    eapply wp_mono; [apply Hbody; [done|by apply (emptied_ready i st p)]|].
    cbv beta. intros _ st2 (p2 & Hr & Hw2). destruct Hem as [Hrl Hw1].
    exists p2. split.
    + rewrite (entries_split k (pmem st) f lo (i + 1 - lo) i) by lia.
      rewrite app_assoc, (entries_nil _ _ _ (i + 1)), app_nil_r by lia.
      by eapply released_app.
    + intros j Hj. by rewrite Hw2, Hw1 by lia.
  - cbv beta. rewrite length_seqZ. intros _ st' (p' & Hr & _). exists p'.
    destruct (decide (n ≤ 0)).
    + rewrite !entries_nil in * by lia. done.
    + by replace (lo + Z.of_nat (Z.to_nat n) - lo) with n in Hr by lia.
Qed.
End destroy_loop.

(** ** The steps of an iteration *)

Lemma unchanged_weaken fs fs' m m' : unchanged fs m m' → fs ⊆ fs' → unchanged fs' m m'.
Proof. intros H Hsub. by eapply unchanged_sub; [|exact H]. Qed.

Lemma clear_entry st p f i :
  frames_inv st p → frame_ok f → f ∉ p → 0 ≤ i < 512 →
  wp (memset_at (f + 8 * i) 0 8) st (λ _ st', released f [] st p st' p ∧
    ∀ j, 0 ≤ j < 512 → j ≠ i → rd64 (pmem st') (f + 8 * j) = rd64 (pmem st) (f + 8 * j)).
Proof.
  intros Hfi Hf Hnin Hi. apply wp_modify. rewrite memset_entry.
  assert (unchanged [f] (pmem st) (wr64 (pmem st) (f + 8 * i) 0)) as Hun.
  { intros x Hx. apply rd8_wr_out. destruct (Hx f); [left|lia|lia]. }
  split; [split|].
  - eapply frames_inv_state; [exact Hfi|done|done|]. intros g Hg. cbn.
    eapply unchanged_rd; [exact Hun|]. intros g' ->%list_elem_of_singleton.
    destruct (frames_apart f g); [done| |congruence|lia|lia].
    eapply Forall_forall; [by eapply frames_inv_ok|done].
  - done.
  - done.
  - by repeat split.
  - intros j Hj Hne. cbn. apply rd64_wr64_ne. lia.
Qed.

Lemma free_node st p k g :
  frames_inv st p → frame_ok g → g ∉ p →
  wp (MMU_pf_free g) st (λ _ st', released g [(k, g)] st p st' (g :: p)).
Proof.
  intros Hfi Hg Hnin. eapply wp_mono; [by apply pf_free_spec|]. cbv beta.
  intros _ st' [-> Hfi']. split; [done|done| |by repeat split]. cbn.
  intros x Hx. apply rd8_wr_out. destruct (Hx g); [left|lia|lia].
Qed.

(** Releasing below a table other than the one that holds the entry keeps the
    entries of the latter. *)
Lemma released_below f g ns st p st' p' :
  released g ns st p st' p' → frame_ok f → f ∉ g :: ns.*2 → Forall frame_ok (g :: ns.*2) →
  ∀ j, 0 ≤ j < 512 → rd64 (pmem st') (f + 8 * j) = rd64 (pmem st) (f + 8 * j).
Proof. intros [_ _ Hun _] Hf Hnin Hok j Hj. by eapply unchanged_word. Qed.

Lemma released_weaken f g ns st p st' p' :
  released g ns st p st' p' → g ∈ f :: ns.*2 → released f ns st p st' p'.
Proof.
  intros [F P U V] Hg. split; try done. eapply unchanged_weaken; [exact U|]. set_solver.
Qed.

(** Free the frame an entry points to, then clear the entry. *)
Lemma free_and_clear st p f g k i :
  frames_inv st p → frame_ok f → frame_ok g → NoDup (f :: g :: p) → 0 ≤ i < 512 →
  wp (MMU_pf_free g ;; memset_at (f + 8 * i) 0 8) st (λ _ st', ∃ p',
    released f [(k, g)] st p st' p' ∧
    ∀ j, 0 ≤ j < 512 → j ≠ i → rd64 (pmem st') (f + 8 * j) = rd64 (pmem st) (f + 8 * j)).
Proof.
  intros Hfi Hf Hg Hnd Hi. rewrite !NoDup_cons in Hnd. destruct Hnd as (Hfn & Hgn & _).
  wp_step. eapply wp_mono; [by apply (free_node st p k g)|]. cbv beta. intros _ st1 H1.
  eapply wp_mono; [apply clear_entry; [apply H1|done|done|done]|]. cbv beta. intros _ st2 [H2 Hw].
  exists (g :: p). split.
  - eapply (released_app f [(k, g)] []); [|exact H2]. eapply released_weaken; [exact H1|]. set_solver.
  - intros j Hj Hne. rewrite Hw by done.
    eapply released_below; [exact H1|done|set_solver|by constructor; [|constructor]|done].
Qed.

(** [dest] empties a table of level [k]. *)
Definition destroys (k : nat) (dest : Z → M mst unit) : Prop :=
  ∀ st p f, frame_ok f → frames_inv st p →
    NoDup (f :: (entries k (pmem st) f 0 512).*2 ++ p) →
    no_big (pmem st) ((k, f) :: entries k (pmem st) f 0 512) →
    wp (dest f) st (λ _ st', ∃ p', released f (entries k (pmem st) f 0 512) st p st' p').

Lemma destroy_below k dest f st p i ns :
  destroys (S k) dest → frame_ok f → 0 ≤ i < 512 → entry_ready (S (S k)) f st p i ns →
  links (S (S k)) (rd64 (pmem st) (f + 8 * i)) = true →
  let g := addr_of (rd64 (pmem st) (f + 8 * i)) in
  wp (dest (phys_to_virt g) ;; MMU_pf_free g ;; memset_at (f + 8 * i) 0 8) st (λ _ st', ∃ p',
    released f ns st p st' p' ∧
    ∀ j, 0 ≤ j < 512 → j ≠ i → rd64 (pmem st') (f + 8 * j) = rd64 (pmem st) (f + 8 * j)).
Proof.
  intros Hdest Hf Hi (<- & Hfi & Hnd & Hbig & _) Hl g.
  rewrite (child_links _ _ _ Hl) in *. cbn [pred] in *. fold g in Hnd, Hbig |- *.
  rewrite nodes_S in *. cbn [fmap list_fmap snd] in Hnd. unfold phys_to_virt. rewrite Z.add_0_l.
  pose proof (addr_of_ok (rd64 (pmem st) (f + 8 * i))) as Hg. fold g in Hg.
  set (ns := entries (S k) (pmem st) g 0 512) in *. change ((S k, g) :: ns).*2 with (g :: ns.*2) in Hnd.
  wp_step. eapply wp_mono; [apply Hdest; [done|done| |done]|].
  { by apply NoDup_cons in Hnd as [_ Hnd]. }
  cbv beta. intros _ st1 (p1 & H1).
  eapply wp_mono; [apply (free_and_clear st1 p1 f g (S k) i); [apply H1|done|done| |done]|].
  { rewrite (rl_perm _ _ _ _ _ _ H1). exact Hnd. }
  cbv beta. intros _ st2 (p2 & H2 & Hw). exists p2. split.
  - split; [apply H2| | |eapply same_vars_trans; [apply H1|apply H2]].
    + rewrite (rl_perm _ _ _ _ _ _ H2), (rl_perm _ _ _ _ _ _ H1). done.
    + eapply unchanged_trans; eapply unchanged_weaken; [apply H1| |apply H2|]; cbn; set_solver.
  - intros j Hj Hne. rewrite Hw by done. eapply released_below; [exact H1|done| | |done].
    + clear -Hnd. rewrite !NoDup_cons, !NoDup_app in *. set_solver.
    + constructor; [done|apply entries_Forall_ok].
Qed.

(** ** The three levels and the P4 *)

Lemma released_nil f st p : frames_inv st p → released f [] st p st p.
Proof. by split. Qed.

Lemma destroy_PT_spec : destroys 1 destroy_userspace_PT.
Proof.
  intros st p f Hf Hfi Hnd Hbig. apply destroy_loop; try done || lia.
  clear st p Hfi Hnd Hbig. intros st p i ns Hi (<- & Hfi & Hnd & _ & _). cbv beta zeta. fld_steps.
  set (w := rd64 (pmem st) (f + 8 * i)) in *. fold (addr_of w).
  assert (f ∉ p) as Hfp by (apply NoDup_cons in Hnd as [? _]; set_solver).
  destruct (present w) eqn:Hp; cbn [negb andb].
  - rewrite child_links in * by (by rewrite links_1). fold w. cbn [pred] in *.
    change (nodes 0 (pmem st) (addr_of w)) with [(0%nat, addr_of w)] in *.
    apply (free_and_clear st p f (addr_of w) 0 i); [done|done|apply addr_of_ok|done|lia].
  - rewrite child_nil in * by (by rewrite links_1). destruct (demand w); cbn [negb].
    + wp_steps. eapply wp_mono; [by apply (clear_entry st p f i); [| | |lia]|]. cbv beta.
      intros _ st' H. by exists p.
    + apply wp_ret. exists p. split; [by apply released_nil|done].
Qed.

(** The body shared by the page directory and the PDPT. *)
Lemma destroy_dir_spec k dest :
  (S (S k) = 2 ∨ S (S k) = 3)%nat → destroys (S k) dest →
  destroys (S (S k)) (λ pd,
    for_each (seqZ 0 512) (λ i,
      let e := pd + 8 * i in
      w <- load64 e ;;
      if negb (present w) then ret tt else
      if big_page w then CLI ;; halt else
      let pt_phys := pfn_to_phys (get_bits F_addr w) in
      dest (phys_to_virt pt_phys) ;;
      MMU_pf_free pt_phys ;;
      memset_at e 0 8)).
Proof.
  intros Hk Hdest st p f Hf Hfi Hnd Hbig. apply destroy_loop; try done || lia.
  clear st p Hfi Hnd Hbig. intros st p i ns Hi Hready. cbv beta zeta. fld_steps.
  set (w := rd64 (pmem st) (f + 8 * i)) in *. fold (addr_of w).
  pose proof Hready as (Hc & Hfi & Hnd & _ & Hnb). specialize (Hnb Hk). fold w in Hc, Hnb.
  destruct (present w) eqn:Hp; cbn [negb].
  - rewrite (Hnb eq_refl).
    assert (links (S (S k)) w = true) as Hl by (apply not_big_links; auto).
    by apply (destroy_below k dest f st p i ns); [| |lia|..].
  - assert (links (S (S k)) w = false) as Hl by (unfold links; by rewrite Hp).
    rewrite child_nil in Hc by done. subst ns. apply wp_ret. exists p.
    split; [by apply released_nil|done].
Qed.

Lemma destroy_PD_spec : destroys 2 destroy_userspace_PD.
Proof. apply (destroy_dir_spec 0 destroy_userspace_PT); [by left|apply destroy_PT_spec]. Qed.

Lemma destroy_PDPT_spec : destroys 3 destroy_userspace_PDPT.
Proof. apply (destroy_dir_spec 1 destroy_userspace_PD); [by right|apply destroy_PD_spec]. Qed.

(** A user address space that may be destroyed: neither empty, nor the
    kernel's, nor the current one. *)
Definition destroyable (st : mst) (root : Z) : Prop :=
  root ≠ 0 ∧ root ≠ page_down (kernel_cr3 st) ∧ root ≠ page_down (cr3 st).

Lemma MMU_destroy_userspace_spec st root p :
  space st root 32 480 p → destroyable st root →
  wp (MMU_destroy_userspace root) st (λ _ st', ∃ p',
    released root ((4%nat, root) :: slots (pmem st) root 32 480) st p st' p').
Proof.
  intros Hsp (H0 & Hk & Hc). unfold MMU_destroy_userspace, MMU_current_p4, MMU_get_kernel_p4.
  apply wp_bind, wp_gets. unfold CLI. wp_steps. cbn [cr3 kernel_cr3 set_int_flag].
  rewrite frame_ok_aligned_page_down by apply Hsp.
  rewrite !(proj2 (Z.eqb_neq root _)) by done. unfold phys_to_virt. rewrite Z.add_0_l.
  change (PML4_INDEX VA_USER_BASE) with 32. change (512 - 32) with 480.
  set (st0 := set_int_flag false st).
  pose proof (space_int_flag _ _ _ _ _ false Hsp) as Hsp0. fold st0 in Hsp0.
  wp_step. eapply wp_mono; [apply (destroy_loop 4 root 32 480) with (p := p)|].
  - apply Hsp.
  - lia.
  - lia.
  - intros st1 p1 i ns Hi Hready. cbv beta zeta. fld_steps. set (w := rd64 (pmem st1) (root + 8 * i)) in *.
    fold (addr_of w). pose proof Hready as (Hcd & Hfi & Hnd & _). fold w in Hcd.
    destruct (present w) eqn:Hp; cbn [negb].
    + assert (links 4 w = true) as Hl by (unfold links; by rewrite Hp).
      apply (destroy_below 2 destroy_userspace_PDPT root st1 p1 i ns);
        [apply destroy_PDPT_spec|apply Hsp|lia|done|done].
    + rewrite child_nil in Hcd by (unfold links; by rewrite Hp). subst ns. apply wp_ret. exists p1.
      split; [by apply released_nil|done].
  - apply Hsp0.
  - apply Hsp0.
  - intros k g i [[= -> ->]|Hg]%elem_of_cons Hk'; [lia|]. by apply (sp_big _ _ _ _ _ Hsp0 k).
  - cbv beta. intros _ st1 (p1 & H1). wp_step.
    eapply wp_mono; [apply (free_node st1 p1 4 root); [apply H1|apply Hsp|]|].
    { rewrite (rl_perm _ _ _ _ _ _ H1). by pose proof (sp_nodup _ _ _ _ _ Hsp) as [? _]%NoDup_cons. }
    cbv beta. intros _ st2 H2. pose proof (released_app root _ _ _ _ _ _ _ _ H1 H2) as [F P U V].
    assert (released root ((4%nat, root) :: slots (pmem st) root 32 480) st p
              (set_int_flag (int_flag st) st2) (root :: p1)) as Hr.
    { split; [done| | |].
      - rewrite (rl_perm _ _ _ _ _ _ H1). done.
      - eapply unchanged_weaken; [exact U|]. rewrite fmap_app. cbn. set_solver.
      - destruct V as (V1 & V2 & V3 & V4). by repeat split. }
    apply wp_restore_ints; [apply V|by exists (root :: p1)].
Qed.

Lemma restore_ints_id st : restore_ints (int_flag st) (set_int_flag false st) = Ret (tt, st).
Proof. destruct st as [? ? ? ? ? ? ? []]; done. Qed.

(** C10: [MMU_destroy_userspace] gives back the P4 and every frame of the user
    slots, each exactly once, writes nothing but those frames and restores the
    interrupt flag; for the null, the kernel's and the current P4 it does nothing. *)
Theorem MMU_destroy_userspace_correct st root p :
  space st root 32 480 p →
  (destroyable st root →
   ∃ st' p', MMU_destroy_userspace root st = Ret (tt, st') ∧ frames_inv st' p' ∧
     p' ≡ₚ root :: (slots (pmem st) root 32 480).*2 ++ p ∧
     unchanged (root :: (slots (pmem st) root 32 480).*2) (pmem st) (pmem st') ∧
     same_vars st st') ∧
  (¬ destroyable st root → MMU_destroy_userspace root st = Ret (tt, st)).
Proof.
  intros Hsp. split.
  - intros Hd. pose proof (MMU_destroy_userspace_spec st root p Hsp Hd) as H.
    apply wp_iff in H as ([] & st' & E & p' & [F P U V]). exists st', p'.
    split; [done|]. split; [done|]. split; [done|]. split; [|done].
    eapply unchanged_weaken; [exact U|]. cbn. set_solver.
  - intros Hd. unfold MMU_destroy_userspace, are_interrupts_enabled, CLI, MMU_current_p4, MMU_get_kernel_p4.
    do 4 (erewrite bind_ret; [|reflexivity]). cbn [cr3 kernel_cr3 set_int_flag].
    rewrite frame_ok_aligned_page_down by apply Hsp.
    destruct (Z.eqb_spec root 0); [apply restore_ints_id|].
    destruct (Z.eqb_spec root (page_down (kernel_cr3 st))); [apply restore_ints_id|].
    destruct (Z.eqb_spec root (page_down (cr3 st))); [apply restore_ints_id|]. by destruct Hd.
Qed.

Lemma MMU_destroy_userspace_witness :
  ∃ st' p', MMU_destroy_userspace proc_root proc_state = Ret (tt, st') ∧ frames_inv st' p' ∧
     p' ≡ₚ proc_root :: (slots (pmem proc_state) proc_root 32 480).*2 ++ regions_frames (usable_regions proc_state) ∧
     unchanged (proc_root :: (slots (pmem proc_state) proc_root 32 480).*2) (pmem proc_state) (pmem st') ∧
     same_vars proc_state st'.
Proof.
  apply (MMU_destroy_userspace_correct proc_state proc_root _ proc_state_space).
  split; [discriminate|]. split; vm_compute; discriminate.
Defined.
