(* ===== verification/VpagesClone.v ===== *)
(** * Copying an address space

    [MMU_clone_userspace] builds a copy of the user slots of a process, as [fork]
    needs it: every program address reads the same in both, no frame is shared,
    and a failure half way gives every frame back. *)

From S2P Require Import Prelude Memory Frames Vpages Bits PageTree VpagesMap VpagesPages.
From S2P Require Import VpagesIsolation VpagesKernel VpagesDestroy.

Implicit Types (m : mem) (st : mst) (p : list Z) (k : nat).

(** ** What a copied entry is *)

(** The pages mapped by [w] in [m] and [w'] in [m'] look the same to a program:
    same access rights, same reservation, same contents. *)
Definition same_page (m : mem) (w : Z) (m' : mem) (w' : Z) : Prop :=
  present w' = present w ∧ demand w' = demand w ∧
  (present w = true → get_bits F_rw w' = get_bits F_rw w ∧ user_page w' = user_page w ∧
     ∀ x, 0 ≤ x < PAGE_SIZE → rd8 m' (addr_of w' + x) = rd8 m (addr_of w + x)).

(** The entries [lo .. hi-1] of the table at [src] were copied to the one at [dst]. *)
Definition copied (k : nat) (src dst lo hi : Z) (m m' : mem) : Prop :=
  ∀ va, lo ≤ tindex k va < hi → same_page m (leaf (pred k) k m src va) m' (leaf (pred k) k m' dst va).

(** The table at [dst] while it is being filled from frames of the pool: the
    entries from [j] on are still clear. *)
Record filling (k : nat) (dst lo n j : Z) (st0 : mst) (p0 : list Z) (st : mst) (p : list Z) : Prop := {
  fl_frames : frames_inv st p;
  fl_perm : (entries k (pmem st) dst lo n).*2 ++ p ≡ₚ p0;
  fl_clear : ∀ i, j ≤ i < lo + n → rd64 (pmem st) (dst + 8 * i) = 0;
  fl_outside : ∀ i, 0 ≤ i < 512 → i < lo ∨ lo + n ≤ i →
    rd64 (pmem st) (dst + 8 * i) = rd64 (pmem st0) (dst + 8 * i);
  fl_unchanged : unchanged (dst :: p0) (pmem st0) (pmem st);
  fl_vars : same_vars st0 st;
  fl_big : no_big (pmem st) ((k, dst) :: entries k (pmem st) dst lo n)
}.

(** One more entry: [w'] was stored at index [j], with nodes from the pool below. *)
Record filled_entry (k : nat) (dst j : Z) (w' : Z) (st : mst) (p : list Z) (st' : mst) (p' : list Z) : Prop := {
  fe_frames : frames_inv st' p';
  fe_word : rd64 (pmem st') (dst + 8 * j) = w';
  fe_words : ∀ i, 0 ≤ i < 512 → i ≠ j → rd64 (pmem st') (dst + 8 * i) = rd64 (pmem st) (dst + 8 * i);
  fe_perm : (child k (pmem st') w').*2 ++ p' ≡ₚ p;
  fe_unchanged : unchanged (dst :: p) (pmem st) (pmem st');
  fe_vars : same_vars st st';
  fe_big : no_big (pmem st') (child k (pmem st') w');
  fe_word_big : (k = 2 ∨ k = 3)%nat → present w' = true → big_page w' = false
}.

Section fill.
Context (k : nat) (dst lo n : Z) (st0 : mst) (p0 : list Z).
Hypothesis Hdst : frame_ok dst.
Hypothesis Hlo : 0 ≤ lo.
Hypothesis Hhi : lo + n ≤ 512.
Hypothesis Hnd0 : NoDup (dst :: p0).
Hypothesis Hok0 : Forall frame_ok p0.

Section step.
Context (j w' : Z) (st st' : mst) (p p' : list Z).
Hypothesis Hj : lo ≤ j < lo + n.
Hypothesis Hfl : filling k dst lo n j st0 p0 st p.
Hypothesis Hfe : filled_entry k dst j w' st p st' p'.

(** The nodes already below the table are not touched. *)
Lemma fill_agree : agree_but None (entries k (pmem st) dst lo n) (pmem st) (pmem st').
Proof.
  apply (unchanged_nodes_agree _ _ _ _ (fe_unchanged _ _ _ _ _ _ _ _ Hfe)).
  - constructor; [done|]. apply (frames_inv_ok st), Hfl.
  - apply entries_Forall_ok.
  - pose proof (fl_perm _ _ _ _ _ _ _ _ _ Hfl) as HP. rewrite <-HP in Hnd0. clear -Hnd0.
    rewrite NoDup_cons, NoDup_app in Hnd0. set_solver.
Qed.

Lemma fill_page g x :
  (0%nat, g) ∈ entries k (pmem st) dst lo n → g ≤ x < g + PAGE_SIZE →
  rd8 (pmem st') x = rd8 (pmem st) x.
Proof.
  intros Hg Hx. apply (fe_unchanged _ _ _ _ _ _ _ _ Hfe). intros g' Hg'.
  assert (frame_ok g) by (by eapply entries_frame_ok).
  assert (frame_ok g').
  { apply elem_of_cons in Hg' as [->|Hg']; [done|].
    eapply Forall_forall; [apply (frames_inv_ok st p), Hfl|done]. }
  destruct (frames_apart g' g); [done|done| |lia|lia]. intros ->.
  apply (list_elem_of_fmap_2 snd) in Hg. pose proof (fl_perm _ _ _ _ _ _ _ _ _ Hfl) as HP.
  rewrite <-HP in Hnd0. clear -Hnd0 Hg Hg'. rewrite NoDup_cons, NoDup_app in Hnd0. set_solver.
Qed.

Lemma fill_entries :
  entries k (pmem st') dst lo n ≡ₚ entries k (pmem st) dst lo n ++ child k (pmem st') w'.
Proof.
  rewrite (entries_split k (pmem st) dst lo n j Hj), (entries_split k (pmem st') dst lo n j Hj).
  rewrite (fl_clear _ _ _ _ _ _ _ _ _ Hfl j), (fe_word _ _ _ _ _ _ _ _ Hfe) by lia.
  rewrite (child_nil k (pmem st) 0) by done. cbn [app].
  assert (∀ lo' n', lo ≤ lo' → lo' + n' ≤ lo + n → (∀ i, lo' ≤ i < lo' + n' → i ≠ j) →
    entries k (pmem st') dst lo' n' = entries k (pmem st) dst lo' n') as Hsame.
  { intros lo' n' H1 H2 Hne. apply entries_agree.
    - intros i Hi. apply (fe_words _ _ _ _ _ _ _ _ Hfe); [lia|auto].
    - intros k' g i (i' & Hi' & Hg)%elem_of_entries. apply (fill_agree k').
      apply elem_of_entries. exists i'. split; [lia|done]. }
  rewrite !Hsame by lia. solve_Permutation.
Qed.

Lemma fill_step : filling k dst lo n (j + 1) st0 p0 st' p'.
Proof.
  pose proof fill_entries as HE. split.
  - apply Hfe.
  - rewrite HE, fmap_app, <-app_assoc, (fe_perm _ _ _ _ _ _ _ _ Hfe). apply Hfl.
  - intros i Hi. rewrite (fe_words _ _ _ _ _ _ _ _ Hfe) by lia. apply (fl_clear _ _ _ _ _ _ _ _ _ Hfl). lia.
  - intros i Hi Ho. rewrite (fe_words _ _ _ _ _ _ _ _ Hfe) by lia. by apply (fl_outside _ _ _ _ _ _ _ _ _ Hfl).
  - eapply unchanged_trans; [apply Hfl|]. eapply unchanged_weaken; [apply Hfe|].
    pose proof (fl_perm _ _ _ _ _ _ _ _ _ Hfl) as HP. intros g Hg. rewrite <-HP. set_solver.
  - eapply same_vars_trans; [apply Hfl|apply Hfe].
  - intros k' g i Hg Hk Hi. rewrite HE in Hg. rewrite elem_of_cons, elem_of_app in Hg.
    destruct Hg as [[= -> ->]|[Hg|Hg]]; [|..|by apply (fe_big _ _ _ _ _ _ _ _ Hfe k')].
    + destruct (decide (i = j)) as [->|Hne].
      * rewrite (fe_word _ _ _ _ _ _ _ _ Hfe). by apply (fe_word_big _ _ _ _ _ _ _ _ Hfe).
      * rewrite (fe_words _ _ _ _ _ _ _ _ Hfe) by done.
        by apply (fl_big _ _ _ _ _ _ _ _ _ Hfl k); [left|..].
    + destruct k' as [|k']; [lia|]. rewrite (fill_agree k' g i) by done.
      by apply (fl_big _ _ _ _ _ _ _ _ _ Hfl (S k')); [right|..].
Qed.

(** What was copied before stays copied. *)
Lemma fill_copied src m :
  (0 < k)%nat → copied k src dst lo j m (pmem st) →
  (∀ va, tindex k va = j →
     same_page m (leaf (pred k) k m src va) (pmem st') (leaf_of (pred k) k (pmem st') w' va)) →
  copied k src dst lo (j + 1) m (pmem st').
Proof.
  intros Hk Hc Hnew va Hva. destruct (decide (tindex k va = j)) as [E|E].
  { specialize (Hnew va E). rewrite (leaf_leaf_of _ _ (pmem st')), E.
    by rewrite (fe_word _ _ _ _ _ _ _ _ Hfe). }
  assert (leaf (pred k) k (pmem st') dst va = leaf (pred k) k (pmem st) dst va) as El.
  { rewrite !leaf_leaf_of. rewrite (fe_words _ _ _ _ _ _ _ _ Hfe) by (done || apply tindex_range).
    apply leaf_of_agree; [lia|]. eapply agree_but_sub; [|apply fill_agree].
    intros k' g Hg. apply elem_of_entries. exists (tindex k va). split; [lia|done]. }
  rewrite El. destruct (Hc va ltac:(lia)) as (H1 & H2 & H3). split; [done|]. split; [done|].
  intros Hp. destruct (H3 Hp) as (H4 & H5 & H6). split; [done|]. split; [done|].
  intros x Hx. rewrite <-H6 by done. apply (fill_page (addr_of (leaf (pred k) k (pmem st) dst va))); [|lia].
  pose proof (leaf_node (pred k) (pmem st) dst lo n va) as Hnode.
  rewrite Nat.succ_pred_pos in Hnode by lia. apply Hnode; [lia|congruence].
Qed.
End step.

(** ** The loop over the entries *)

Context (src : Z) (body : Z → M mst (option Z)) (Qf : Z → mst → Prop).
Hypothesis Hk : (0 < k)%nat.
Hypothesis Hfi0 : frames_inv st0 p0.
Hypothesis Hclear : ∀ i, lo ≤ i < lo + n → rd64 (pmem st0) (dst + 8 * i) = 0.
Hypothesis Hn : 0 ≤ n.

(** As many nodes were allocated as the entries before [j] have in the source. *)
Definition matched (j : Z) (st : mst) : Prop :=
  length (entries k (pmem st) dst lo n) = length (entries k (pmem st0) src lo (j - lo)).

Hypothesis Hbody : ∀ st p i,
  lo ≤ i < lo + n → filling k dst lo n i st0 p0 st p → matched i st →
  wp (body i) st (λ r st',
    match r with
    | None => ∃ p' w', filled_entry k dst i w' st p st' p' ∧
        length (child k (pmem st') w') = length (child k (pmem st0) (rd64 (pmem st0) (src + 8 * i))) ∧
        ∀ va, tindex k va = i →
          same_page (pmem st0) (leaf (pred k) k (pmem st0) src va)
                    (pmem st') (leaf_of (pred k) k (pmem st') w' va)
    | Some x => Qf x st'
    end).

Lemma clear_entries : entries k (pmem st0) dst lo n = [].
Proof.
  destruct (entries k (pmem st0) dst lo n) as [|x l] eqn:E; [done|].
  assert (x ∈ entries k (pmem st0) dst lo n) as Hx by (rewrite E; left).
  apply elem_of_entries in Hx as (i & Hi & Hx). rewrite Hclear in Hx by done.
  rewrite child_nil in Hx by done. by apply elem_of_nil in Hx.
Qed.

Lemma filling_start : no_big (pmem st0) [(k, dst)] → filling k dst lo n lo st0 p0 st0 p0.
Proof. intros Hb. split; rewrite ?clear_entries; done. Qed.

Lemma matched_step j w' st p st' p' :
  lo ≤ j < lo + n → filling k dst lo n j st0 p0 st p → filled_entry k dst j w' st p st' p' →
  matched j st →
  length (child k (pmem st') w') = length (child k (pmem st0) (rd64 (pmem st0) (src + 8 * j))) →
  matched (j + 1) st'.
Proof.
  intros Hj Hfl Hfe Hm Hlen. unfold matched in *.
  rewrite (fill_entries j w' st st' p p' Hj Hfl Hfe), length_app, Hm, Hlen.
  rewrite (entries_split k (pmem st0) src lo (j + 1 - lo) j) by lia.
  rewrite (entries_nil k (pmem st0) src (j + 1)), app_nil_r, length_app by lia. done.
Qed.

(** A partly copied entry leaves fewer nodes than the source has. *)
Lemma matched_short j w' st p st' p' :
  lo ≤ j < lo + n → filling k dst lo n j st0 p0 st p → filled_entry k dst j w' st p st' p' →
  matched j st →
  (length (child k (pmem st') w') < length (child k (pmem st0) (rd64 (pmem st0) (src + 8 * j))))%nat →
  (length (entries k (pmem st') dst lo n) < length (entries k (pmem st0) src lo n))%nat.
Proof.
  intros Hj Hfl Hfe Hm Hlen. unfold matched in *.
  rewrite (fill_entries j w' st st' p p' Hj Hfl Hfe), length_app, Hm.
  rewrite (entries_split k (pmem st0) src lo n j Hj), !length_app. lia.
Qed.

Lemma clone_loop :
  no_big (pmem st0) [(k, dst)] →
  wp (for_ret (seqZ lo n) body) st0 (λ r st',
    match r with
    | None => ∃ p', filling k dst lo n (lo + n) st0 p0 st' p' ∧ matched (lo + n) st' ∧
                    copied k src dst lo (lo + n) (pmem st0) (pmem st')
    | Some x => Qf x st'
    end).
Proof.
  intros Hb. apply (wp_for_ret (λ done _ st', ∃ p',
    filling k dst lo n (lo + Z.of_nat (length done)) st0 p0 st' p' ∧
    matched (lo + Z.of_nat (length done)) st' ∧
    copied k src dst lo (lo + Z.of_nat (length done)) (pmem st0) (pmem st'))).
  - exists p0. cbn [length]. rewrite Z.add_0_r. split; [by apply filling_start|]. split.
    + unfold matched. rewrite clear_entries, entries_nil by lia. done.
    + intros va Hva. lia.
  - intros done i rest st Hl (p & Hfl & Hm & Hc). apply seqZ_split_index in Hl as [-> Hi].
    eapply wp_mono; [by apply (Hbody st p)|]. cbv beta.
    intros [x|] st' Hr; [done|]. destruct Hr as (p' & w' & Hfe & Hlen & Hnew). exists p'.
    rewrite length_app, Nat2Z.inj_add, Z.add_assoc. cbn [length]. change (Z.of_nat 1) with 1.
    split; [by eapply fill_step|]. split; [by eapply matched_step|by eapply fill_copied].
  - intros st' (p' & H). rewrite length_seqZ, Z2Nat.id in H by lia. by exists p'.
Qed.
End fill.

(** ** The source stays as it was *)

(** The tree below the table [src] avoids the frames [fs]. *)
Definition source (k : nat) (src lo n : Z) (m : mem) (fs : list Z) : Prop :=
  frame_ok src ∧ Forall frame_ok fs ∧ ∀ g, g ∈ src :: (entries k m src lo n).*2 → g ∉ fs.

Section source.
Context (k : nat) (src lo n : Z) (m0 m : mem) (fs : list Z).
Hypothesis Hsrc : source k src lo n m0 fs.
Hypothesis Hun : unchanged fs m0 m.

Lemma source_word i : 0 ≤ i < 512 → rd64 m (src + 8 * i) = rd64 m0 (src + 8 * i).
Proof. destruct Hsrc as (Hok & Hfs & Hd). eapply unchanged_word; [done|done|done|]. apply Hd. left. Qed.

Lemma source_agree : agree_but None (entries k m0 src lo n) m0 m.
Proof.
  destruct Hsrc as (Hok & Hfs & Hd).
  apply (unchanged_nodes_agree fs); [done|done|apply entries_Forall_ok|]. intros g Hg. apply Hd. by right.
Qed.

Lemma source_page g x :
  (0%nat, g) ∈ entries k m0 src lo n → g ≤ x < g + PAGE_SIZE → rd8 m x = rd8 m0 x.
Proof.
  intros Hg Hx. destruct Hsrc as (Hok & Hfs & Hd). apply Hun. intros g' Hg'.
  assert (frame_ok g) by (by eapply entries_frame_ok).
  destruct (frames_apart g' g); [by eapply Forall_forall|done| |lia|lia].
  intros ->. apply (Hd g); [right|done]. by apply (list_elem_of_fmap_2 snd) in Hg.
Qed.

Lemma source_leaf_of i va :
  (0 < k)%nat → lo ≤ i < lo + n →
  leaf_of (pred k) k m (rd64 m0 (src + 8 * i)) va = leaf_of (pred k) k m0 (rd64 m0 (src + 8 * i)) va.
Proof.
  intros Hk Hi. apply leaf_of_agree; [lia|]. eapply agree_but_sub; [|apply source_agree].
  intros k' g Hg. apply elem_of_entries. by exists i.
Qed.

(** A copy of what the source is now is a copy of what it was. *)
Lemma source_same_page va m' w' :
  (0 < k)%nat → lo ≤ tindex k va < lo + n →
  let w := leaf (pred k) k m0 src va in
  same_page m w m' w' → same_page m0 w m' w'.
Proof.
  intros Hk Hi w (H1 & H2 & H3). split; [done|]. split; [done|]. intros Hp.
  destruct (H3 Hp) as (H4 & H5 & H6). split; [done|]. split; [done|]. intros x Hx.
  rewrite H6 by done. apply (source_page (addr_of w)); [|lia].
  pose proof (leaf_node (pred k) m0 src lo n va) as Hnode.
  rewrite Nat.succ_pred_pos in Hnode by lia. by apply Hnode.
Qed.
End source.

Lemma source_below k src lo n m0 m fs fs' i :
  source (S (S k)) src lo n m0 fs → unchanged fs m0 m → lo ≤ i < lo + n →
  links (S (S k)) (rd64 m0 (src + 8 * i)) = true → fs' ⊆ fs →
  source (S k) (addr_of (rd64 m0 (src + 8 * i))) 0 512 m fs'.
Proof.
  intros Hsrc Hun Hi Hl Hsub. pose proof (source_agree _ _ _ _ _ _ _ Hsrc Hun) as Hag.
  assert (∀ x, x ∈ nodes (S k) m0 (addr_of (rd64 m0 (src + 8 * i))) →
    x ∈ entries (S (S k)) m0 src lo n) as Hin.
  { intros x Hx. apply elem_of_entries. exists i. split; [done|]. by rewrite (child_links _ _ _ Hl). }
  destruct Hsrc as (Hok & Hfs & Hd). split; [apply addr_of_ok|]. split.
  { apply Forall_forall. intros g Hg. eapply Forall_forall in Hfs; [done|]. by apply Hsub. }
  rewrite nodes_S in Hin.
  rewrite (entries_agree (S k) m0 m).
  - intros g Hg Hg'. apply (Hd g); [|by apply Hsub]. right.
    change (_ :: _) with ((S k, addr_of (rd64 m0 (src + 8 * i)))
      :: entries (S k) m0 (addr_of (rd64 m0 (src + 8 * i))) 0 512).*2 in Hg.
    apply list_elem_of_fmap in Hg as (x & -> & Hx). by apply list_elem_of_fmap_2, Hin.
  - intros j Hj. apply (Hag k); [|lia|done]. apply Hin. left.
  - intros k' g j Hg. apply (Hag k'). apply Hin. by right.
Qed.

(** ** The levels *)

(** Why copying stops: the pool is empty with nodes still to copy, or the
    source has a huge page. *)
Definition stuck (k : nat) (src dst lo n : Z) (st : mst) (p' : list Z) (st' : mst) : Prop :=
  (p' = [] ∧ length (entries k (pmem st') dst lo n) < length (entries k (pmem st) src lo n))%nat ∨
  ¬ no_big (pmem st) ((k, src) :: entries k (pmem st) src lo n).

(** [cl] copies a table of level [k] into a clear one. *)
Definition clones (k : nat) (cl : Z → Z → M mst Z) : Prop :=
  ∀ st p dst src,
    frame_ok dst → frames_inv st p → NoDup (dst :: p) →
    (∀ i, 0 ≤ i < 512 → rd64 (pmem st) (dst + 8 * i) = 0) →
    source k src 0 512 (pmem st) (dst :: p) →
    wp (cl dst src) st (λ r st', ∃ p', filling k dst 0 512 512 st p st' p' ∧
      ((r = 0 ∧ copied k src dst 0 512 (pmem st) (pmem st') ∧
        length (entries k (pmem st') dst 0 512) = length (entries k (pmem st) src 0 512)) ∨
       (r = -1 ∧ stuck k src dst 0 512 st p' st'))).

(** The failure result of the loops of the three levels. *)
Definition clone_failed (k : nat) (src dst lo n : Z) (st : mst) (p : list Z) (x : Z) (st' : mst) : Prop :=
  x = -1 ∧ ∃ p', filling k dst lo n (lo + n) st p st' p' ∧ stuck k src dst lo n st p' st'.

Lemma filling_le k dst lo n j j' st0 p0 st p :
  filling k dst lo n j st0 p0 st p → j ≤ j' → filling k dst lo n j' st0 p0 st p.
Proof. intros [H1 H2 H3 H4 H5 H6 H7] Hj. split; try done. intros i Hi. apply H3. lia. Qed.

(** An entry that is skipped. *)
Lemma filled_skip k dst lo n j st0 p0 st p :
  filling k dst lo n j st0 p0 st p → lo ≤ j < lo + n → filled_entry k dst j 0 st p st p.
Proof.
  intros Hfl Hj. split; try done; rewrite ?(child_nil k _ 0) by done.
  - apply Hfl.
  - apply (fl_clear _ _ _ _ _ _ _ _ _ Hfl). lia.
  - intros k' g i []%elem_of_nil.
Qed.

(** Storing one entry, after changes to frames of the pool. *)
Lemma store_words dst j w' fs p m m1 m' :
  frame_ok dst → NoDup (dst :: p) → Forall frame_ok p → 0 ≤ j < 512 → 0 ≤ w' < 2 ^ 64 →
  unchanged fs m m1 → fs ⊆ p → m' = wr64 m1 (dst + 8 * j) w' →
  rd64 m' (dst + 8 * j) = w' ∧
  (∀ i, 0 ≤ i < 512 → i ≠ j → rd64 m' (dst + 8 * i) = rd64 m (dst + 8 * i)) ∧
  unchanged (dst :: p) m m'.
Proof.
  intros Hd Hnd Hok Hj Hw Hun Hsub ->. apply NoDup_cons in Hnd as [Hnin Hnd]. split; [|split].
  - rewrite rd64_wr64_eq. by apply u64_small.
  - intros i Hi Hne. rewrite rd64_wr64_ne by lia. eapply unchanged_word; [exact Hun| |done| |done].
    + apply Forall_forall. intros g Hg. eapply Forall_forall in Hok; [done|]. by apply Hsub.
    + intros Hin. by apply Hnin, Hsub.
  - intros x Hx. rewrite rd8_wr_out.
    + apply Hun. intros g Hg. apply Hx. right. by apply Hsub.
    + destruct (Hx dst); [left|lia|lia].
Qed.

(** A store to an entry of [dst] leaves the pool usable. *)
Lemma frames_inv_unchanged st st' p fs :
  frames_inv st p → usable_regions st' = usable_regions st → free_frames st' = free_frames st →
  unchanged fs (pmem st) (pmem st') → Forall frame_ok fs → (∀ g, g ∈ p → g ∉ fs) → frames_inv st' p.
Proof.
  intros Hfi Hr Hf Hun Hfs Hd. eapply frames_inv_state; [exact Hfi|done|done|]. intros g Hg.
  eapply unchanged_rd; [exact Hun|]. intros f Hff.
  destruct (frames_apart f g); [by eapply Forall_forall| | |lia|lia].
  - eapply Forall_forall; [by eapply frames_inv_ok|done].
  - intros ->. by apply (Hd g).
Qed.

(** An entry that maps no page is stored as it is. *)
Lemma filled_leaf dst j w st p :
  frame_ok dst → NoDup (dst :: p) → frames_inv st p → 0 ≤ j < 512 → 0 ≤ w < 2 ^ 64 →
  present w = false → filled_entry 1 dst j w st p (put_word (dst + 8 * j) w st) p.
Proof.
  intros Hd Hnd Hfi Hj Hw Hp. pose proof (frames_inv_ok _ _ Hfi) as Hok.
  destruct (store_words dst j w [] p (pmem st) (pmem st) (wr64 (pmem st) (dst + 8 * j) w))
    as (H1 & H2 & H3); try done; [set_solver|].
  assert (unchanged [dst] (pmem st) (wr64 (pmem st) (dst + 8 * j) w)) as Hun.
  { intros x Hx. apply rd8_wr_out. destruct (Hx dst); [left|lia|lia]. }
  split; cbn [pmem put_word set_pmem]; rewrite ?child_nil by (by rewrite links_1); try done.
  - eapply (frames_inv_unchanged st); [done|done|done|exact Hun|by constructor|].
    intros g Hg ->%list_elem_of_singleton. by apply NoDup_cons in Hnd as [? _].
  - intros k' g i []%elem_of_nil.
  - by intros [?|?].
Qed.

(** An entry that maps a page is stored with the address of the new frame. *)
Lemma filled_page dst j w x p st st' :
  frame_ok x → present w = true → let w' := set_bits F_addr w (phys_to_pfn x) in
  frames_inv st' p → same_vars st st' → unchanged (dst :: x :: p) (pmem st) (pmem st') →
  rd64 (pmem st') (dst + 8 * j) = w' →
  (∀ i, 0 ≤ i < 512 → i ≠ j → rd64 (pmem st') (dst + 8 * i) = rd64 (pmem st) (dst + 8 * i)) →
  filled_entry 1 dst j w' st (x :: p) st' p.
Proof.
  intros Hx Hp w' Hfi Hv Hun H1 H2.
  assert (links 1 w' = true) as Hl by (rewrite links_1; subst w'; by entry_bits).
  assert (addr_of w' = x) as Ha by (by apply addr_of_set).
  assert (child 1 (pmem st') w' = [(0%nat, x)]) as Hc by (rewrite (child_links _ _ _ Hl), Ha; done).
  split; rewrite ?Hc; try done.
  - intros k g i [= -> ->]%list_elem_of_singleton. by intros [?|?].
  - by intros [?|?].
Qed.

(** Memory after the page was copied and its entry written. *)
Lemma copy_page_words dst j w x a m :
  frame_ok dst → frame_ok x → frame_ok a → dst ≠ x → a ≠ x → a ≠ dst → 0 ≤ j < 512 → 0 ≤ w < 2 ^ 64 →
  let m1 := memcpy (wr64 m (dst + 8 * j) w) x a PAGE_SIZE in
  let w' := set_bits F_addr w (phys_to_pfn x) in
  let m' := wr64 m1 (dst + 8 * j) w' in
  rd64 m1 (dst + 8 * j) = w ∧ rd64 m' (dst + 8 * j) = w' ∧
  (∀ i, 0 ≤ i < 512 → i ≠ j → rd64 m' (dst + 8 * i) = rd64 m (dst + 8 * i)) ∧
  unchanged [dst; x] m m' ∧
  (∀ y, 0 ≤ y < PAGE_SIZE → rd8 m' (x + y) = rd8 m (a + y)).
Proof.
  intros Hd Hx Ha H1 H2 H3 Hj Hw m1 w' m'.
  pose proof (frames_apart dst x Hd Hx H1). pose proof (frames_apart a x Ha Hx H2).
  pose proof (frames_apart a dst Ha Hd H3).
  assert (ranges_disjoint x a PAGE_SIZE) as Hrd by (unfold ranges_disjoint; lia).
  subst m' m1. split; [|split; [|split; [|split]]].
  - rewrite rd_memcpy_out, rd64_wr64_eq by (done || lia). by apply u64_small.
  - rewrite rd64_wr64_eq. by apply u64_small, set_bits_range.
  - intros i Hi Hne. by rewrite rd64_wr64_ne, rd_memcpy_out, rd64_wr64_ne by (done || lia).
  - intros y Hy. pose proof (Hy dst ltac:(left)). pose proof (Hy x ltac:(right; left)).
    rewrite rd8_wr_out, rd8_memcpy, decide_False, rd8_wr_out by (done || lia). done.
  - intros y Hy. rewrite rd8_wr_out, rd8_memcpy, decide_True, rd8_wr_out by (done || lia).
    f_equal. lia.
Qed.

Lemma copy_page_filled dst j w x p st st1 :
  frame_ok dst → NoDup (dst :: x :: p) → frame_ok x → 0 ≤ j < 512 → 0 ≤ w < 2 ^ 64 →
  present w = true → addr_of w ∉ dst :: x :: p → frames_inv st1 p →
  alloc_frame_state (put_word (dst + 8 * j) w st) st1 →
  let m1 := memcpy (pmem st1) x (addr_of w) PAGE_SIZE in
  let w' := set_bits F_addr w (phys_to_pfn x) in
  let st' := put_word (dst + 8 * j) w' (set_pmem m1 st1) in
  rd64 m1 (dst + 8 * j) = w ∧ filled_entry 1 dst j w' st (x :: p) st' p ∧
  (∀ y, 0 ≤ y < PAGE_SIZE → rd8 (pmem st') (x + y) = rd8 (pmem st) (addr_of w + y)).
Proof.
  intros Hd Hnd Hx Hj Hw Hp Hnin Hfi1 Hst1 m1 w' st'.
  rewrite !NoDup_cons in Hnd. destruct Hnd as (Hdx & Hxp & Hnd).
  assert (pmem st1 = wr64 (pmem st) (dst + 8 * j) w) as Hpm by (by rewrite Hst1).
  assert (dst ≠ x ∧ addr_of w ≠ x ∧ addr_of w ≠ dst) as (N1 & N2 & N3) by (clear -Hdx Hnin; set_solver).
  destruct (copy_page_words dst j w x (addr_of w) (pmem st) Hd Hx (addr_of_ok w) N1 N2 N3 Hj Hw)
    as (E1 & E2 & E3 & E4 & E5).
  subst st' m1. rewrite Hpm. split; [done|]. cbn [pmem put_word set_pmem]. split; [|done].
  apply filled_page; cbn [pmem put_word set_pmem]; [exact Hx|exact Hp| | | |exact E2|exact E3].
  - eapply (frames_inv_unchanged st1 _ p [dst; x]);
      [exact Hfi1|reflexivity|reflexivity| |by constructor; [|constructor]|clear -Hdx Hxp; set_solver].
    cbn. rewrite Hpm. intros y Hy. pose proof (Hy dst ltac:(left)).
    rewrite E4 by exact Hy. by rewrite rd8_wr_out by lia.
  - rewrite Hst1. repeat split.
  - eapply unchanged_weaken; [exact E4|]. clear. set_solver.
Qed.

(** The pool while the table is filled. *)
Lemma filling_pool k dst lo n j st0 p0 st p :
  filling k dst lo n j st0 p0 st p → NoDup (dst :: p0) → Forall frame_ok p0 →
  NoDup (dst :: p) ∧ Forall frame_ok p ∧ p ⊆ p0.
Proof.
  intros Hfl Hnd Hok. pose proof (fl_perm _ _ _ _ _ _ _ _ _ Hfl) as HP.
  rewrite <-HP in Hnd, Hok. split; [|split].
  - clear -Hnd. rewrite !NoDup_cons, !NoDup_app in *. set_solver.
  - by apply Forall_app in Hok as [_ ?].
  - intros g Hg. rewrite <-HP. apply elem_of_app. by right.
Qed.

Lemma same_page_copy m w m' x :
  frame_ok x → present w = true →
  (∀ y, 0 ≤ y < PAGE_SIZE → rd8 m' (x + y) = rd8 m (addr_of w + y)) →
  same_page m w m' (set_bits F_addr w (phys_to_pfn x)).
Proof.
  intros Hx Hp Hc. split; [by entry_bits|]. split; [by entry_bits|].
  intros _. split; [by autorewrite with bits|]. split; [by entry_bits|]. by rewrite addr_of_set.
Qed.

Lemma present_set_addr w v : present (set_bits F_addr w v) = present w.
Proof. by entry_bits. Qed.

Lemma clone_PT_body st p dst src st1 p1 i :
  frame_ok dst → frames_inv st p → NoDup (dst :: p) → source 1 src 0 512 (pmem st) (dst :: p) →
  0 ≤ i < 512 → filling 1 dst 0 512 i st p st1 p1 → matched 1 dst 0 512 st src i st1 →
  let w := rd64 (pmem st) (src + 8 * i) in
  wp (if negb (present w) && negb (demand w) then ret None else
      store64 (dst + 8 * i) w ;;
      if present w then
        new_frame <- MMU_pf_alloc ;;
        if new_frame =? INVALID_FRAME_ADDR then
          memset_at (dst + 8 * i) 0 8 ;;
          ret (Some (-1))
        else
          memcpy_at (phys_to_virt new_frame) (phys_to_virt (pfn_to_phys (get_bits F_addr w))) PAGE_SIZE ;;
          set_field F_addr (dst + 8 * i) (phys_to_pfn new_frame) ;;
          ret None
      else ret None) st1 (λ r st',
    match r with
    | None => ∃ p' w', filled_entry 1 dst i w' st1 p1 st' p' ∧
        length (child 1 (pmem st') w') = length (child 1 (pmem st) w) ∧
        same_page (pmem st) w (pmem st') w'
    | Some x => clone_failed 1 src dst 0 512 st p x st'
    end).
Proof.
  intros Hd Hfi Hnd Hsrc Hi Hfl Hm w. pose proof (frames_inv_ok _ _ Hfi) as Hok.
  assert (∀ m w, length (child 1 m w) = if present w then 1%nat else 0%nat) as Hlen.
  { intros m v. destruct (present v) eqn:Hv.
    - by rewrite child_links by (by rewrite links_1).
    - by rewrite child_nil by (by rewrite links_1). }
  destruct (filling_pool _ _ _ _ _ _ _ _ _ Hfl Hnd Hok) as (Hnd1 & Hok1 & Hsub1).
  pose proof (rd64_range (pmem st) (src + 8 * i)) as Hw. fold w in Hw.
  destruct (present w) eqn:Hp; cbn [negb andb].
  2: { destruct (demand w) eqn:Hdem; cbn [negb].
    - apply wp_bind, wp_modify, wp_ret. exists p1, w. split; [by apply filled_leaf; [| |apply Hfl|..]|].
      split; [by rewrite !Hlen|]. split; [done|]. split; [done|]. by rewrite Hp.
    - apply wp_ret. exists p1, 0. split; [by eapply filled_skip|].
      split; [by rewrite !Hlen, Hp|]. split; [by rewrite Hp|]. split; [by rewrite Hdem|]. by rewrite Hp. }
  apply wp_bind, wp_modify. fold (put_word (dst + 8 * i) w st1). set (st2 := put_word (dst + 8 * i) w st1).
  assert (frames_inv st2 p1) as Hfi2.
  { eapply (frames_inv_unchanged st1 _ p1 [dst]); [apply Hfl|done|done| |by constructor|].
    - intros y Hy. apply rd8_wr_out. destruct (Hy dst); [left|lia|lia].
    - intros g Hg ->%list_elem_of_singleton. by apply NoDup_cons in Hnd1 as [? _]. }
  wp_step. eapply wp_mono; [by apply pf_alloc_spec|]. cbv beta. intros x st3 [Hst3 Hpool].
  destruct p1 as [|x1 p1].
  - destruct Hpool as [-> ->]. rewrite Z.eqb_refl. apply wp_bind, wp_modify, wp_ret. split; [done|].
    rewrite memset_entry. change (set_pmem _ st2) with (put_word (dst + 8 * i) 0 st2).
    unfold st2. rewrite put_word_put_word. exists [].
    assert (filled_entry 1 dst i 0 st1 [] (put_word (dst + 8 * i) 0 st1) []) as Hfe
      by (apply filled_leaf; [done|done|apply Hfl|lia|lia|apply present_0]).
    split; [apply (filling_le _ _ _ _ (i + 1)); [by eapply fill_step|lia]|].
    left. split; [done|]. 
    eapply (matched_short 1 dst 0 512 st p Hd ltac:(lia) ltac:(lia) Hnd src ltac:(lia) i 0 st1 []);
      [lia|done|exact Hfe|done|].
    fold w. rewrite !Hlen, Hp, present_0. lia.
  - destruct Hpool as [-> Hfi3]. pose proof (Forall_cons_1 _ _ _ Hok1) as [Hx1 _].
    rewrite (proj2 (Z.eqb_neq x1 _)) by auto with cint. unfold phys_to_virt. rewrite !Z.add_0_l.
    fold (addr_of w). apply wp_bind, wp_modify. apply wp_bind, wp_set_field, wp_ret.
    assert ((0%nat, addr_of w) ∈ entries 1 (pmem st) src 0 512) as Hnode.
    { apply elem_of_entries. exists i. split; [lia|]. fold w.
      rewrite child_links by (by rewrite links_1). cbn [pred]. rewrite nodes_0. left. }
    assert (addr_of w ∉ dst :: x1 :: p1) as Hnin.
    { intros Hin. destruct Hsrc as (_ & _ & Hdis). apply (Hdis (addr_of w)); [|set_solver].
      right. by apply (list_elem_of_fmap_2 snd) in Hnode. }
    destruct (copy_page_filled dst i w x1 p1 st1 st3 Hd Hnd1 Hx1 Hi Hw Hp Hnin Hfi3 Hst3) as (E & Hfe & Hc).
    cbn [pmem set_pmem]. rewrite E. exists p1, (set_bits F_addr w (phys_to_pfn x1)). split; [done|].
    split; [rewrite !Hlen, Hp, present_set_addr, Hp; reflexivity|]. apply same_page_copy; [done|done|]. intros y Hy. rewrite Hc by done.
    by apply (source_page _ _ _ _ _ _ _ Hsrc (fl_unchanged _ _ _ _ _ _ _ _ _ Hfl) (addr_of w)); [|lia].
Qed.

Lemma clone_PT_spec : clones 1 clone_userspace_PT.
Proof.
  intros st p dst src Hd Hfi Hnd Hz Hsrc. pose proof (frames_inv_ok _ _ Hfi) as Hok.
  unfold clone_userspace_PT. apply wp_bind.
  eapply wp_mono; [apply (clone_loop 1 dst 0 512 st p Hd ltac:(lia) ltac:(lia) Hnd Hok src _
    (clone_failed 1 src dst 0 512 st p))|].
  - lia.
  - done.
  - done.
  - lia.
  - intros st1 p1 i Hi Hfl Hm. cbv beta zeta. wp_step. apply wp_gets.
    rewrite (source_word _ _ _ _ _ _ _ Hsrc (fl_unchanged _ _ _ _ _ _ _ _ _ Hfl)) by lia.
    eapply wp_mono; [by apply (clone_PT_body st p dst src st1 p1 i)|]. cbv beta.
    intros [x|] st' Hr; [done|]. destruct Hr as (p' & w' & Hfe & Hlen & Hsame). exists p', w'.
    split; [done|]. split; [done|]. intros va <-. by rewrite leaf_leaf_of.
  - intros k g i [= -> ->]%list_elem_of_singleton. by intros [?|?].
  - cbv beta. intros [x|] st' Hr; apply wp_ret; cbn.
    + destruct Hr as (-> & p' & Hfl & Hwhy). exists p'. split; [done|by right].
    + destruct Hr as (p' & Hfl & Hm & Hc). exists p'. split; [done|]. left. done.
Qed.

(** ** Tables of tables *)

Section below.
Context (k : nat) (cl : Z → Z → M mst Z) (dst lo n src : Z) (st0 : mst) (p0 : list Z).
Context (st st1 : mst) (x : Z) (p1 : list Z) (i : Z).
Local Abbreviation K := (S (S k)).
Local Abbreviation w := (rd64 (pmem st0) (src + 8 * i)).
Local Abbreviation w' := (set_bits F_addr w (phys_to_pfn x)).
Local Abbreviation st2 := (link_state st1 x (dst + 8 * i) w').
Hypothesis Hcl : clones (S k) cl.
Hypothesis Hd : frame_ok dst.
Hypothesis Hnd : NoDup (dst :: p0).
Hypothesis Hfi : frames_inv st0 p0.
Hypothesis Hsrc : source K src lo n (pmem st0) (dst :: p0).
Hypothesis Hlo : 0 ≤ lo.
Hypothesis Hhi : lo + n ≤ 512.
Hypothesis Hi : lo ≤ i < lo + n.
Hypothesis Hfl : filling K dst lo n i st0 p0 st (x :: p1).
Hypothesis Hl : links K w = true.
Hypothesis Hst1 : alloc_frame_state st st1.
Hypothesis Hfi1 : frames_inv st1 p1.

Lemma below_pool : NoDup (dst :: x :: p1) ∧ frame_ok x ∧ Forall frame_ok p1 ∧ x :: p1 ⊆ p0.
Proof.
  destruct (filling_pool _ _ _ _ _ _ _ _ _ Hfl Hnd (frames_inv_ok _ _ Hfi)) as (H1 & H2 & H3).
  by apply Forall_cons_1 in H2 as [? ?].
Qed.

Lemma below_word : links K w' = true ∧ addr_of w' = x ∧ 0 ≤ w' < 2 ^ 64.
Proof.
  destruct below_pool as (_ & Hx & _). split; [|split; [by apply addr_of_set|apply set_bits_range; [done|apply rd64_range]]].
  unfold links in *. apply andb_true_iff in Hl as [Hp Hb].
  assert (present w' = present w) as -> by (by entry_bits).
  assert (big_page w' = big_page w) as -> by (by entry_bits). by rewrite Hp, Hb.
Qed.

Lemma below_pmem : pmem st2 = wr64 (memset (pmem st) x 0 PAGE_SIZE) (dst + 8 * i) w'.
Proof. cbn. by rewrite Hst1. Qed.

(** The table once the link is stored and the frame below it cleared. *)
Lemma below_words :
  rd64 (pmem st2) (dst + 8 * i) = w' ∧
  (∀ j, 0 ≤ j < 512 → j ≠ i → rd64 (pmem st2) (dst + 8 * j) = rd64 (pmem st) (dst + 8 * j)) ∧
  unchanged (dst :: x :: p1) (pmem st) (pmem st2) ∧
  (∀ j, 0 ≤ j < 512 → rd64 (pmem st2) (x + 8 * j) = 0) ∧ unchanged [dst; x] (pmem st) (pmem st2).
Proof.
  destruct below_pool as (Hnd1 & Hx & Hok & _). destruct below_word as (_ & _ & Hw).
  rewrite below_pmem.
  destruct (store_words dst i w' [x] (x :: p1) (pmem st) (memset (pmem st) x 0 PAGE_SIZE) _
    Hd Hnd1 (Forall_cons_2 _ _ _ Hx Hok) ltac:(lia) Hw (unchanged_memset _ _) ltac:(set_solver) eq_refl)
    as (H1 & H2 & H3).
  assert (dst ≠ x) as Hne by (clear -Hnd1; rewrite !NoDup_cons in Hnd1; set_solver).
  pose proof (frames_apart dst x Hd Hx Hne).
  split; [exact H1|]. split; [exact H2|]. split; [exact H3|]. split.
  - intros j Hj. rewrite rd64_wr64_ne by lia. apply (rd_memset_0 8); lia.
  - intros y Hy. pose proof (Hy dst ltac:(left)). pose proof (Hy x ltac:(right; left)).
    rewrite rd8_wr_out, rd8_memset, decide_False by lia. done.
Qed.

Lemma below_frames : frames_inv st2 p1.
Proof.
  destruct below_pool as (Hnd1 & Hx & Hok & _). destruct below_words as (_ & _ & _ & _ & Hun).
  assert (pmem st1 = pmem st) as Hpm by (by rewrite Hst1).
  eapply (frames_inv_unchanged st1 _ p1 [dst; x]);
    [exact Hfi1|reflexivity|reflexivity|by rewrite Hpm|by constructor; [|constructor]|].
  clear -Hnd1. rewrite !NoDup_cons in Hnd1. set_solver.
Qed.

Lemma below_unchanged : unchanged (dst :: p0) (pmem st0) (pmem st2).
Proof.
  destruct below_pool as (_ & _ & _ & Hsub). destruct below_words as (_ & _ & Hun & _).
  eapply unchanged_trans; [apply Hfl|]. eapply unchanged_weaken; [exact Hun|]. clear -Hsub. set_solver.
Qed.

Lemma below_source : source (S k) (addr_of w) 0 512 (pmem st2) (x :: p1).
Proof.
  destruct below_pool as (_ & _ & _ & Hsub).
  eapply source_below; [exact Hsrc|apply below_unchanged|done|done|]. clear -Hsub. set_solver.
Qed.

(** The new subtree, complete or not. *)
Lemma below_filled st3 p3 :
  filling (S k) x 0 512 512 st2 p1 st3 p3 → filled_entry K dst i w' st (x :: p1) st3 p3.
Proof.
  intros Hf. destruct below_pool as (Hnd1 & Hx & Hok & _). destruct below_word as (Hl' & Ha' & Hw).
  destruct below_words as (H1 & H2 & H3 & _).
  assert (∀ j, 0 ≤ j < 512 → rd64 (pmem st3) (dst + 8 * j) = rd64 (pmem st2) (dst + 8 * j)) as Hdw.
  { intros j Hj. eapply unchanged_word; [apply Hf|by constructor|done| |done].
    by apply NoDup_cons in Hnd1 as [? _]. }
  assert (child K (pmem st3) w' = (S k, x) :: entries (S k) (pmem st3) x 0 512) as Hc
    by (rewrite (child_links _ _ _ Hl'), Ha'; apply nodes_S).
  split; rewrite ?Hc; [apply Hf|by rewrite Hdw by lia| | | | |apply Hf|].
  - intros j Hj Hne. rewrite Hdw by lia. by apply H2.
  - cbn. by rewrite (fl_perm _ _ _ _ _ _ _ _ _ Hf).
  - eapply unchanged_trans; [exact H3|]. eapply unchanged_weaken; [apply Hf|]. clear. set_solver.
  - eapply same_vars_trans; [|apply (fl_vars _ _ _ _ _ _ _ _ _ Hf)]. rewrite Hst1. by repeat split.
  - intros Hk _. unfold links in Hl'. apply andb_true_iff in Hl' as [_ Hb].
    by destruct Hk as [[= Hk]|[= Hk]]; rewrite Hk in Hb; apply negb_true_iff in Hb.
Qed.

(** A copy of the subtree of the source is a copy of the entry. *)
Lemma below_copied m' :
  copied (S k) (addr_of w) x 0 512 (pmem st2) m' →
  ∀ va, tindex K va = i →
    same_page (pmem st0) (leaf (S k) K (pmem st0) src va) m' (leaf_of (S k) K m' w' va).
Proof.
  intros Hc va Hva. destruct below_word as (Hl' & Ha' & _). cbn [leaf_of]. rewrite Hl'. cbn [pred].
  rewrite Ha'. specialize (Hc va (tindex_range _ _)). cbn [pred] in Hc.
  eapply (source_same_page K src lo n (pmem st0) (pmem st2) _ Hsrc below_unchanged va); [lia|lia|].
  cbn [pred]. rewrite leaf_leaf_of, Hva.
  pose proof (source_leaf_of K src lo n (pmem st0) (pmem st2) _ Hsrc below_unchanged i va ltac:(lia) Hi) as Hlo'.
  cbn [pred] in Hlo'. rewrite <-Hlo'. cbn [leaf_of]. rewrite Hl. exact Hc.
Qed.

Lemma below_big :
  no_big (pmem st0) ((K, src) :: entries K (pmem st0) src lo n) →
  no_big (pmem st2) ((S k, addr_of w) :: entries (S k) (pmem st2) (addr_of w) 0 512).
Proof.
  intros Hb. pose proof (source_agree _ _ _ _ _ _ _ Hsrc below_unchanged) as Hag.
  assert (∀ y, y ∈ nodes (S k) (pmem st0) (addr_of w) → y ∈ entries K (pmem st0) src lo n) as Hin.
  { intros y Hy. apply elem_of_entries. exists i. split; [done|]. by rewrite (child_links _ _ _ Hl). }
  assert (agree_but None (nodes (S k) (pmem st0) (addr_of w)) (pmem st0) (pmem st2)) as Hag'.
  { intros k' g j Hg. apply (Hag k'). by apply Hin. }
  rewrite <-nodes_S, (nodes_agree _ _ _ _ Hag'). eapply no_big_agree; [exact Hb| |exact Hag'].
  intros y Hy. right. by apply Hin.
Qed.

(** The outcome of linking a new table and copying into it. *)
Definition linked (e : Z) (st' : mst) : Prop :=
  ∃ p', filled_entry K dst i w' st (x :: p1) st' p' ∧
    ((e = 0 ∧ length (child K (pmem st') w') = length (child K (pmem st0) w) ∧
      ∀ va, tindex K va = i →
        same_page (pmem st0) (leaf (S k) K (pmem st0) src va) (pmem st') (leaf_of (S k) K (pmem st') w' va)) ∨
     (e = -1 ∧
       ((p' = [] ∧ length (child K (pmem st') w') < length (child K (pmem st0) w))%nat ∨
        ¬ no_big (pmem st0) ((K, src) :: entries K (pmem st0) src lo n)))).

(** The nodes below the entry, in the source and in the copy. *)
Lemma below_lengths m' :
  length (child K m' w') = S (length (entries (S k) m' x 0 512)) ∧
  length (child K (pmem st0) w) = S (length (entries (S k) (pmem st2) (addr_of w) 0 512)).
Proof.
  destruct below_word as (Hl' & Ha' & _). rewrite (child_links _ _ _ Hl'), (child_links _ _ _ Hl), Ha'.
  cbn [pred]. split; [by rewrite nodes_S|].
  pose proof (source_agree _ _ _ _ _ _ _ Hsrc below_unchanged) as Hag.
  rewrite <-(nodes_agree (S k) (pmem st0) (pmem st2)); [by rewrite nodes_S|].
  intros k' g j Hg. apply (Hag k'). apply elem_of_entries. exists i. split; [done|].
  by rewrite (child_links _ _ _ Hl).
Qed.

Lemma link_below {A} (next : Z → M mst A) Q :
  (∀ e st', linked e st' → wp (next e) st' Q) →
  wp (memset_at (phys_to_virt x) 0 PAGE_SIZE ;;
      store64 (dst + 8 * i) w ;;
      set_field F_addr (dst + 8 * i) (phys_to_pfn x) ;;
      e <- cl (phys_to_virt x) (phys_to_virt (pfn_to_phys (get_bits F_addr w))) ;;
      next e) st1 Q.
Proof.
  intros Hnext. unfold phys_to_virt, memset_at, store64. rewrite !Z.add_0_l. wp_steps.
  fold (put_word (dst + 8 * i) w (set_pmem (memset (pmem st1) x 0 PAGE_SIZE) st1)).
  apply wp_set_field_put; [apply rd64_range|]. fold (link_state st1 x (dst + 8 * i) w'). fold (addr_of w).
  wp_step. destruct below_pool as (Hnd1 & Hx & _). destruct below_words as (_ & _ & _ & Hz & _).
  eapply wp_mono; [apply (Hcl st2 p1 x (addr_of w)); [done|apply below_frames| |done|apply below_source]|].
  { by apply NoDup_cons in Hnd1 as [_ ?]. }
  cbv beta. intros e st3 (p3 & Hf & Hcase). apply Hnext. exists p3. split; [by apply below_filled|].
  destruct (below_lengths (pmem st3)) as [-> ->].
  destruct Hcase as [(-> & Hc & Hlen)|(-> & [[-> Hlen]|Hb])]; [left|right|right].
  - split; [done|]. split; [by rewrite Hlen|]. by apply below_copied.
  - split; [done|left]. split; [done|lia].
  - split; [done|right]. intros Hb'. by apply Hb, below_big.
Qed.
End below.

Lemma clone_dir_spec k cl :
  (S (S k) = 2 ∨ S (S k) = 3)%nat → clones (S k) cl →
  clones (S (S k)) (λ dst src,
    r <- for_ret (seqZ 0 512) (λ i,
      let d := dst + 8 * i in
      w <- load64 (src + 8 * i) ;;
      if negb (present w) then ret None else
      if big_page w then ret (Some (-1)) else
      frame <- MMU_pf_alloc ;;
      if frame =? INVALID_FRAME_ADDR then ret (Some (-1)) else
      memset_at (phys_to_virt frame) 0 PAGE_SIZE ;;
      store64 d w ;;
      set_field F_addr d (phys_to_pfn frame) ;;
      let src_phys := pfn_to_phys (get_bits F_addr w) in
      e <- cl (phys_to_virt frame) (phys_to_virt src_phys) ;;
      ret (if e <? 0 then Some (-1) else None)) ;;
    ret (default 0 r)).
Proof.
  intros Hk Hcl st p dst src Hd Hfi Hnd Hz Hsrc. pose proof (frames_inv_ok _ _ Hfi) as Hok. apply wp_bind.
  eapply wp_mono; [apply (clone_loop (S (S k)) dst 0 512 st p Hd ltac:(lia) ltac:(lia) Hnd Hok src _
    (clone_failed (S (S k)) src dst 0 512 st p)); [lia|done|done|lia| |]|].
  - intros st1 p1 i Hi Hfl Hm. cbv beta zeta. wp_step. apply wp_gets.
    rewrite (source_word _ _ _ _ _ _ _ Hsrc (fl_unchanged _ _ _ _ _ _ _ _ _ Hfl)) by lia.
    set (w := rd64 (pmem st) (src + 8 * i)). destruct (present w) eqn:Hp; cbn [negb].
    2: { apply wp_ret. exists p1, 0. split; [by eapply filled_skip|].
         split; [by rewrite !child_nil by (done || unfold links; by rewrite Hp)|]. intros va Hva.
         rewrite leaf_leaf_of, Hva. fold w. cbn [leaf_of pred]. unfold links. by rewrite Hp, present_0. }
    destruct (big_page w) eqn:Hb.
    { apply wp_ret. split; [done|]. exists p1. split; [by apply (filling_le _ _ _ _ i); [|lia]|]. right.
      intros Hnb. assert (big_page w = false); [|congruence].
      apply (Hnb (S (S k)) src i); [left|done|lia|done]. }
    assert (links (S (S k)) w = true) as Hl by (apply not_big_links; auto).
    wp_step. eapply wp_mono; [apply pf_alloc_spec, Hfl|]. cbv beta. intros f st2 [Hst2 Hpool].
    destruct p1 as [|x p1].
    { destruct Hpool as [-> ->]. rewrite Z.eqb_refl. apply wp_ret. split; [done|]. exists [].
      split; [by apply (filling_le _ _ _ _ i); [|lia]|]. left. split; [done|].
      eapply (matched_short (S (S k)) dst 0 512 st p Hd ltac:(lia) ltac:(lia) Hnd src ltac:(lia) i 0 st1 []);
        [lia|done|by eapply filled_skip|done|].
      fold w. rewrite (child_nil _ _ 0), (child_links _ _ _ Hl) by done. cbn [pred]. rewrite nodes_S. cbn. lia. }
    destruct Hpool as [-> Hfi2].
    destruct (filling_pool _ _ _ _ _ _ _ _ _ Hfl Hnd Hok) as (_ & [Hx _]%Forall_cons_1 & _).
    rewrite (proj2 (Z.eqb_neq x _)) by auto with cint.
    apply (link_below k cl dst 0 512 src st p st1 st2 x p1 i); try done || lia.
    intros e st3 (p3 & Hfe & Hcase). apply wp_ret. destruct Hcase as [(-> & Hlen & Hc)|[-> Hwhy]]; cbn.
    + by exists p3, (set_bits F_addr w (phys_to_pfn x)).
    + split; [done|]. exists p3. split; [apply (filling_le _ _ _ _ (i + 1)); [by eapply fill_step|lia]|].
      destruct Hwhy as [[-> Hlen]|Hb']; [left|by right]. split; [done|].
      by eapply (matched_short (S (S k)) dst 0 512 st p Hd ltac:(lia) ltac:(lia) Hnd src ltac:(lia) i _ st1 (x :: p1)).
  - intros k' g i [= -> ->]%list_elem_of_singleton _ Hi. by rewrite Hz, present_0.
  - cbv beta. intros [x|] st' Hr; apply wp_ret; cbn.
    + destruct Hr as (-> & p' & Hfl & Hwhy). exists p'. split; [done|by right].
    + destruct Hr as (p' & Hfl & Hm & Hc). exists p'. split; [done|]. left. done.
Qed.

Lemma clone_PD_spec : clones 2 clone_userspace_PD.
Proof. apply (clone_dir_spec 0 clone_userspace_PT); [by left|apply clone_PT_spec]. Qed.

Lemma clone_PDPT_spec : clones 3 clone_userspace_PDPT.
Proof. apply (clone_dir_spec 1 clone_userspace_PD); [by right|apply clone_PD_spec]. Qed.
