(* ===== verification/VpagesFork.v ===== *)
(** * [MMU_clone_userspace]: the address space of a forked process *)

From S2P Require Import Prelude Memory Frames Vpages Bits PageTree VpagesMap VpagesPages.
From S2P Require Import VpagesIsolation VpagesKernel VpagesExamples VpagesDestroy VpagesClone.

Implicit Types (m : mem) (st : mst) (p : list Z) (k : nat).

Section fork.
Context `{KLayout}.

(** The parent may be copied: it is a user space, the frames in use by the
    kernel are not in the pool, and neither is the null frame. *)
Record forkable (st : mst) (root : Z) (p : list Z) : Prop := {
  fk_space : space st root 32 480 p;
  fk_p4 : frame_ok ptable_p4;
  fk_p4_used : ptable_p4 ∉ p;
  fk_root : root ≠ 0;
  fk_kernel : root ≠ page_down (kernel_cr3 st);
  fk_null : 0 ∉ p;
  fk_kernel_used : page_down (kernel_cr3 st) ∉ p;
  fk_current_used : page_down (cr3 st) ∉ p
}.

(** The child of a successful copy: its own frames, the kernel slots, and a
    program in it sees what the parent sees. *)
Record forked (st : mst) (root : Z) (p : list Z) (child : Z) (st' : mst) (p' : list Z) : Prop := {
  fd_child : space st' child 32 480 p';
  fd_parent : space st' root 32 480 p';
  fd_perm : child :: (slots (pmem st') child 32 480).*2 ++ p' ≡ₚ p;
  fd_count : length (slots (pmem st') child 32 480) = length (slots (pmem st) root 32 480);
  fd_apart : apart (pmem st') child 32 480 root 32 480;
  fd_kernel : ∀ i, 0 ≤ i < 32 → rd64 (pmem st') (child + 8 * i) = rd64 (pmem st) (ptable_p4 + 8 * i);
  fd_copied : ∀ va, in_slots 32 480 va →
    same_page (pmem st) (pte (pmem st) root va) (pmem st') (pte (pmem st') child va);
  fd_vmem_child : ∀ va, in_slots 32 480 va → vmem (pmem st') child va = vmem (pmem st) root va;
  fd_vmem_parent : vmem_same root 32 480 (pmem st) (pmem st');
  fd_vars : same_vars st st'
}.

(** A failed copy leaves the pool as it was, up to order, and touches only
    free frames. *)
Record fork_failed (st : mst) (root : Z) (p : list Z) (st' : mst) (p' : list Z) : Prop := {
  ff_frames : frames_inv st' p';
  ff_perm : p' ≡ₚ p;
  ff_unchanged : unchanged p (pmem st) (pmem st');
  ff_vars : same_vars st st';
  ff_why : (length p ≤ length (slots (pmem st) root 32 480))%nat
}.

Lemma filling_space dst lo n j st0 p0 st p :
  filling 4 dst lo n j st0 p0 st p → frame_ok dst → NoDup (dst :: p0) → 0 ≤ lo → lo + n ≤ 512 →
  space st dst lo n p.
Proof.
  intros Hfl Hd Hnd Hlo Hhi. split; try done; [apply Hfl| |].
  - pose proof (fl_perm _ _ _ _ _ _ _ _ _ Hfl) as HP. by rewrite HP.
  - intros k g i Hg. apply (fl_big _ _ _ _ _ _ _ _ _ Hfl). by right.
Qed.

Lemma same_page_vmem m root m' root' va :
  same_page m (pte m root va) m' (pte m' root' va) → vmem m' root' va = vmem m root va.
Proof.
  intros (H1 & H2 & H3). unfold vmem. rewrite H1, H2. destruct (present (pte m root va)) eqn:E; [|done].
  destruct (H3 eq_refl) as (_ & _ & H6). f_equal. apply H6, page_offset.
Qed.

(** ** After the P4 of the child was created *)

Section child.
Context (st : mst) (root f : Z) (p1 : list Z) (st1 : mst).
Hypothesis Hfk : forkable st root (f :: p1).
Hypothesis Hfi1 : frames_inv st1 p1.
Hypothesis Hun1 : unchanged [f] (pmem st) (pmem st1).
Hypothesis Hv1 : same_vars (set_int_flag false st) st1.
Hypothesis Hw1 : ∀ i, 0 ≤ i < 512 → rd64 (pmem st1) (f + 8 * i) =
  if decide (i < 32) then rd64 (pmem st) (ptable_p4 + 8 * i) else 0.

Lemma child_pool : NoDup (f :: p1) ∧ frame_ok f ∧ Forall frame_ok p1 ∧
  f ≠ 0 ∧ f ≠ page_down (kernel_cr3 st) ∧ f ≠ page_down (cr3 st).
Proof.
  pose proof (sp_frames _ _ _ _ _ (fk_space _ _ _ Hfk)) as Hfi.
  pose proof (frames_inv_ok _ _ Hfi) as [Hf Hok]%Forall_cons_1.
  split; [by eapply frames_inv_NoDup|]. split; [done|]. split; [done|].
  split; [|split]; intros E; destruct Hfk as [_ _ _ _ _ H1 H2 H3]; [apply H1|apply H2|apply H3]; rewrite <-E; left.
Qed.

Lemma child_source : source 4 root 32 480 (pmem st) (f :: p1).
Proof.
  destruct child_pool as (_ & Hf & Hok & _). pose proof (fk_space _ _ _ Hfk) as Hsp.
  split; [apply Hsp|]. split; [by constructor|]. intros g Hg.
  change (root :: _) with ((4%nat, root) :: slots (pmem st) root 32 480).*2 in Hg.
  apply list_elem_of_fmap in Hg as ([k g'] & -> & Hg). by eapply sp_fresh.
Qed.

Lemma child_unchanged : unchanged (f :: p1) (pmem st) (pmem st1).
Proof. eapply unchanged_weaken; [exact Hun1|]. set_solver. Qed.

Lemma child_slots m : unchanged (f :: p1) (pmem st) m → slots m root 32 480 = slots (pmem st) root 32 480.
Proof.
  intros Hun. apply entries_agree.
  - intros i Hi. eapply source_word; [apply child_source|done|lia].
  - eapply source_agree; [apply child_source|done].
Qed.

Lemma child_source1 : source 4 root 32 480 (pmem st1) (f :: p1).
Proof.
  destruct child_source as (H1 & H2 & H3). split; [done|]. split; [done|].
  by rewrite (child_slots _ child_unchanged).
Qed.

Lemma child_no_big : no_big (pmem st1) ((4%nat, root) :: slots (pmem st1) root 32 480).
Proof.
  rewrite (child_slots _ child_unchanged). intros k g i Hg Hk Hi.
  apply elem_of_cons in Hg as [[= -> ->]|Hg]; [lia|]. destruct k as [|k]; [lia|].
  rewrite (source_agree _ _ _ _ _ _ _ child_source child_unchanged k g i) by done.
  by apply (sp_big _ _ _ _ _ (fk_space _ _ _ Hfk) (S k)).
Qed.

(** What the pool and the memory are after giving up. *)
Lemma clone_abort stx (Q : option Z → mst → Prop) :
  filling 4 f 32 480 512 st1 p1 stx [] →
  (length (slots (pmem stx) f 32 480) < length (slots (pmem st) root 32 480))%nat →
  (∀ st', (∃ p', fork_failed st root (f :: p1) st' p') → Q (Some 0) st') →
  wp (MMU_destroy_userspace f ;; restore_ints (int_flag st) ;; ret (Some 0)) stx Q.
Proof.
  intros Hfl Hlen HQ. destruct child_pool as (Hnd & Hf & Hok & Hf0 & Hfk' & Hfc).
  pose proof (filling_space _ _ _ _ _ _ _ _ Hfl Hf Hnd ltac:(lia) ltac:(lia)) as Hspx.
  destruct (fl_vars _ _ _ _ _ _ _ _ _ Hfl) as (V1 & V2 & V3 & V4). destruct Hv1 as (W1 & W2 & W3 & W4).
  cbn in W1, W2, W3, W4. wp_step. eapply wp_mono; [apply (MMU_destroy_userspace_spec stx f [] Hspx)|].
  { split; [done|]. by rewrite V1, V3, W1, W3. }
  cbv beta. intros _ st2 (p2 & [F2 P2 U2 (X1 & X2 & X3 & X4)]). wp_step.
  apply wp_restore_ints; [congruence|]. apply wp_ret, HQ. exists p2.
  pose proof (fl_perm _ _ _ _ _ _ _ _ _ Hfl) as HP. rewrite app_nil_r in HP. split.
  - done.
  - rewrite P2. cbn. rewrite app_nil_r. by rewrite HP.
  - cbn. eapply unchanged_trans; [apply child_unchanged|].
    eapply unchanged_trans; [apply Hfl|]. eapply unchanged_weaken; [exact U2|].
    cbn. intros g. rewrite !elem_of_cons, HP. tauto.
  - repeat split; cbn; congruence.
  - cbn. rewrite <-HP. rewrite length_fmap. lia.
Qed.

(** One slot of the parent. *)
Lemma clone_p4_body stx px i :
  32 ≤ i < 512 → filling 4 f 32 480 i st1 p1 stx px → matched 4 f 32 480 st1 root i stx →
  wp (w <- load64 (root + 8 * i) ;;
      if negb (present w) then ret None else
      pdpt_frame <- MMU_pf_alloc ;;
      if pdpt_frame =? INVALID_FRAME_ADDR then
        MMU_destroy_userspace f ;; restore_ints (int_flag st) ;; ret (Some 0)
      else
      memset_at (phys_to_virt pdpt_frame) 0 PAGE_SIZE ;;
      store64 (f + 8 * i) w ;;
      set_field F_addr (f + 8 * i) (phys_to_pfn pdpt_frame) ;;
      e <- clone_userspace_PDPT (phys_to_virt pdpt_frame) (phys_to_virt (pfn_to_phys (get_bits F_addr w))) ;;
      if e <? 0 then MMU_destroy_userspace f ;; restore_ints (int_flag st) ;; ret (Some 0)
      else ret None) stx
    (λ r st', match r with
      | None => ∃ p' w', filled_entry 4 f i w' stx px st' p' ∧
          length (child 4 (pmem st') w') = length (child 4 (pmem st1) (rd64 (pmem st1) (root + 8 * i))) ∧
          ∀ va, tindex 4 va = i →
            same_page (pmem st1) (leaf 3 4 (pmem st1) root va) (pmem st') (leaf_of 3 4 (pmem st') w' va)
      | Some x => x = 0 ∧ ∃ p', fork_failed st root (f :: p1) st' p'
      end).
Proof.
  intros Hi Hfl Hm. destruct child_pool as (Hnd & Hf & Hok & _). pose proof child_source1 as Hsrc.
  wp_step. apply wp_gets.
  rewrite (source_word _ _ _ _ _ _ _ Hsrc (fl_unchanged _ _ _ _ _ _ _ _ _ Hfl)) by lia.
  set (w := rd64 (pmem st1) (root + 8 * i)). destruct (present w) eqn:Hp; cbn [negb].
  2: { apply wp_ret. exists px, 0. split; [by eapply filled_skip|].
       split; [by rewrite !child_nil by (done || unfold links; by rewrite Hp)|]. intros va Hva.
       rewrite leaf_leaf_of, Hva. fold w. cbn [leaf_of pred]. unfold links. by rewrite Hp, present_0. }
  assert (links 4 w = true) as Hl by (unfold links; by rewrite Hp).
  wp_step. eapply wp_mono; [apply pf_alloc_spec, Hfl|]. cbv beta. intros x st2 [Hst2 Hpool].
  destruct px as [|y px].
  { destruct Hpool as [-> ->]. rewrite Z.eqb_refl. apply clone_abort; [by apply (filling_le _ _ _ _ i); [|lia]| |by split].
    rewrite <-(child_slots _ child_unchanged).
    eapply (matched_short 4 f 32 480 st1 p1 Hf ltac:(lia) ltac:(lia) Hnd root ltac:(lia) i 0 stx []);
      [lia|done|by eapply filled_skip|done|].
    fold w. rewrite (child_nil _ _ 0), (child_links _ _ _ Hl) by done. cbn [pred]. rewrite nodes_S. cbn. lia. }
  destruct Hpool as [-> Hfi2].
  destruct (filling_pool _ _ _ _ _ _ _ _ _ Hfl Hnd Hok) as (_ & [Hx _]%Forall_cons_1 & _).
  rewrite (proj2 (Z.eqb_neq y _)) by auto with cint.
  apply (link_below 2 clone_userspace_PDPT f 32 480 root st1 p1 stx st2 y px i);
    [exact clone_PDPT_spec|done|done|done|done|lia|lia|lia|done|done|done|done|].
  intros e st3 (p3 & Hfe & Hcase). destruct Hcase as [(-> & Hlen & Hc)|[-> Hwhy]]; cbn [Z.ltb Z.compare].
  { apply wp_ret. by exists p3, (set_bits F_addr w (phys_to_pfn y)). }
  destruct Hwhy as [[-> Hlen]|Hb]; [|destruct Hb; apply child_no_big].
  apply clone_abort; [apply (filling_le _ _ _ _ (i + 1)); [by eapply fill_step|lia]| |by split].
  rewrite <-(child_slots _ child_unchanged).
  by eapply (matched_short 4 f 32 480 st1 p1 Hf ltac:(lia) ltac:(lia) Hnd root ltac:(lia) i _ stx (y :: px)).
Qed.

Lemma parent_pte m : unchanged (f :: p1) (pmem st) m → pte_same root 32 480 (pmem st) m.
Proof.
  intros Hun va Hs. rewrite !(leaf_leaf_of 3 4).
  rewrite (source_word _ _ _ _ _ _ _ child_source Hun) by apply tindex_range.
  apply (source_leaf_of _ _ _ _ _ _ _ child_source Hun); [lia|exact Hs].
Qed.

Lemma child_clear i : 32 ≤ i < 32 + 480 → rd64 (pmem st1) (f + 8 * i) = 0.
Proof. intros Hi. rewrite Hw1 by lia. by rewrite decide_False by lia. Qed.

(** The parent after its P4 was copied. *)
Lemma parent_space1 : space st1 root 32 480 p1.
Proof.
  pose proof (fk_space _ _ _ Hfk) as Hsp. split; [done|apply Hsp..| |].
  - rewrite (child_slots _ child_unchanged). pose proof (sp_nodup _ _ _ _ _ Hsp) as Hnd. clear -Hnd.
    rewrite NoDup_cons, NoDup_app, NoDup_cons in *. set_solver.
  - intros k g i Hg. apply child_no_big. by right.
Qed.

Lemma parent_vmem1 : vmem_same root 32 480 (pmem st) (pmem st1).
Proof.
  intros va Hs. apply (vmem_keeps root 32 480); [done| |].
  - intros g Hg. rewrite (child_slots _ child_unchanged). split; [done|]. intros x Hx.
    by apply (source_page _ _ _ _ _ _ _ child_source child_unchanged g).
  - apply (parent_pte _ child_unchanged va Hs).
Qed.

(** All slots were copied. *)
Lemma clone_done st' p' :
  filling 4 f 32 480 512 st1 p1 st' p' → copied 4 root f 32 512 (pmem st1) (pmem st') →
  matched 4 f 32 480 st1 root 512 st' →
  forked st root (f :: p1) f (set_int_flag (int_flag st) st') p'.
Proof.
  intros Hfl Hc Hm. destruct child_pool as (Hnd & Hf & Hok & _).
  pose proof (filling_space _ _ _ _ _ _ _ _ Hfl Hf Hnd ltac:(lia) ltac:(lia)) as Hspc.
  pose proof (fl_perm _ _ _ _ _ _ _ _ _ Hfl) as HP. pose proof child_clear as Hclear.
  assert (slots (pmem st1) f 32 480 = []) as Hnil by (by apply clear_entries).
  assert (evolves f 32 480 st1 p1 st' p') as Hev.
  { split; [done|by rewrite Hnil| |apply Hfl]. rewrite Hnil. apply Hfl. }
  assert (space st1 f 32 480 p1) as Hspf by 
    (apply space_empty; try done; [by apply NoDup_cons in Hnd as [? _]|lia..]).
  assert (apart (pmem st1) f 32 480 root 32 480) as Hap.
  { intros g Hg. rewrite Hnil, (child_slots _ child_unchanged) in *. intros ->%list_elem_of_singleton.
    destruct child_source as (_ & _ & Hd). apply (Hd f Hg). left. }
  pose proof (isolation_space _ _ _ _ _ _ _ _ _ _ Hev Hspf parent_space1 Hap) as Hspp.
  pose proof (isolation_vmem _ _ _ _ _ _ _ _ _ _ Hev Hspf parent_space1 Hap) as Hvm.
  assert (∀ va, in_slots 32 480 va → same_page (pmem st) (pte (pmem st) root va) (pmem st') (pte (pmem st') f va)) as Hcp.
  { intros va Hs.
    apply (source_same_page 4 root 32 480 (pmem st) (pmem st1) (f :: p1));
      [apply child_source|apply child_unchanged|lia|exact Hs|].
    cbn [pred]. rewrite <-(parent_pte _ child_unchanged va Hs). by apply Hc. }
  split.
  - by apply space_int_flag.
  - by apply space_int_flag.
  - cbn. by rewrite HP.
  - unfold matched in Hm. change (512 - 32) with 480 in Hm. by rewrite (child_slots _ child_unchanged) in Hm.
  - cbn. intros g Hg. rewrite (isolation_slots _ _ _ _ _ _ _ _ _ _ Hev Hspf parent_space1 Hap) in Hg.
    rewrite (child_slots _ child_unchanged) in Hg. destruct child_source as (_ & _ & Hd).
    specialize (Hd g Hg). intros Hg'. apply Hd. rewrite <-HP. set_solver.
  - intros i Hi. cbn. rewrite (fl_outside _ _ _ _ _ _ _ _ _ Hfl), Hw1 by lia. by rewrite decide_True by lia.
  - exact Hcp.
  - intros va Hs. cbn. by apply same_page_vmem, Hcp.
  - intros va Hs. cbn. rewrite Hvm by done. by apply parent_vmem1.
  - destruct (fl_vars _ _ _ _ _ _ _ _ _ Hfl) as (V1 & V2 & V3 & V4). destruct Hv1 as (W1 & W2 & W3 & W4).
    repeat split; cbn in *; congruence.
Qed.
End child.

Lemma MMU_clone_userspace_spec st root p :
  forkable st root p →
  wp (MMU_clone_userspace root) st (λ r st', ∃ p',
    (r ≠ 0 ∧ forked st root p r st' p') ∨ (r = 0 ∧ fork_failed st root p st' p')).
Proof.
  intros Hfk. pose proof (fk_space _ _ _ Hfk) as Hsp. unfold MMU_clone_userspace, are_interrupts_enabled, CLI, MMU_get_kernel_p4.
  do 3 (wp_step; apply wp_gets || apply wp_modify). cbn [kernel_cr3 set_int_flag].
  rewrite frame_ok_aligned_page_down by apply Hsp.
  rewrite (proj2 (Z.eqb_neq root 0)), (proj2 (Z.eqb_neq root _)) by apply Hfk. cbn [orb].
  wp_step. eapply wp_mono.
  { apply (MMU_create_user_p4_spec (set_int_flag false st) p); [|apply Hfk|apply Hfk].
    apply (space_int_flag _ _ _ _ _ false Hsp). }
  cbv beta. intros f st1 Hc. destruct p as [|x p1].
  { destruct Hc as [-> ->]. cbn [Z.eqb]. wp_step. apply wp_restore_ints; [done|]. apply wp_ret. exists [].
    right. split; [done|]. split; [by apply (space_int_flag _ _ _ _ _ _ Hsp)|done|done|by repeat split|cbn; lia]. }
  destruct Hc as (-> & Hfi1 & Hun1 & Hv1 & Hw1). cbn [pmem set_int_flag] in Hun1, Hw1.
  destruct (child_pool st root x p1 Hfk) as (Hnd & Hx & Hok & Hx0 & _).
  rewrite (proj2 (Z.eqb_neq x 0) Hx0), (frame_ok_aligned_page_down x) by done.
  change (PML4_INDEX VA_USER_BASE) with 32. change (512 - 32) with 480.
  unfold phys_to_virt at 1 2. rewrite !Z.add_0_l. wp_step.
  eapply wp_mono; [apply (clone_loop 4 x 32 480 st1 p1 Hx ltac:(lia) ltac:(lia) Hnd Hok root _
    (λ r st', r = 0 ∧ ∃ p', fork_failed st root (x :: p1) st' p')); [lia|done| |lia| |]|].
  - by apply (child_clear st x st1 Hw1).
  - intros stx px i Hi Hfl Hm. by apply (clone_p4_body st root x p1 st1 Hfk Hfi1 Hun1 Hv1 Hw1 stx px i).
  - intros k g i [= -> ->]%list_elem_of_singleton. lia.
  - cbv beta. intros [r|] st' Hr.
    + apply wp_ret. destruct Hr as (-> & p' & Hff). exists p'. by right.
    + destruct Hr as (p' & Hfl & Hm & Hcp). wp_step.
      apply wp_restore_ints; [destruct (fl_vars _ _ _ _ _ _ _ _ _ Hfl), Hv1; cbn in *; intuition congruence|].
      apply wp_ret. exists p'. left. split; [done|].
      by apply (clone_done st root x p1 st1 Hfk Hfi1 Hun1 Hv1 Hw1).
Qed.

(** C1: [MMU_clone_userspace], the address space of [fork]. When there are more
    free frames than the parent has tables and pages, it returns a new P4 that
    shares the kernel's slots and no frame with the parent, and in which every user
    address has the rights and the contents it has in the parent, whose own contents
    are unchanged. Otherwise it returns 0, and every frame it took is free again. *)
Theorem MMU_clone_userspace_correct st root p :
  forkable st root p →
  ∃ r st' p', MMU_clone_userspace root st = Ret (r, st') ∧
    if decide (length (slots (pmem st) root 32 480) < length p)%nat
    then r ≠ 0 ∧ forked st root p r st' p' else r = 0 ∧ fork_failed st root p st' p'.
Proof.
  intros Hfk. pose proof (MMU_clone_userspace_spec st root p Hfk) as Hc.
  apply wp_iff in Hc as (r & st' & E & p' & Hr). exists r, st', p'. split; [done|].
  destruct (decide _) as [Hlt|Hge], Hr as [[Hr Hf]|[Hr Hf]]; try done; exfalso.
  - pose proof (ff_why _ _ _ _ _ Hf). lia.
  - apply Hge. pose proof (fd_count _ _ _ _ _ _ Hf). pose proof (fd_perm _ _ _ _ _ _ Hf) as HP.
    apply Permutation_length in HP. cbn in HP. rewrite length_app, length_fmap in HP. lia.
Qed.
End fork.

Lemma proc_state_forkable :
  @forkable demo_layout proc_state proc_root (regions_frames (usable_regions proc_state)).
Proof.
  split; [exact proc_state_space|..]; try (apply (bool_decide_unpack _); vm_compute; reflexivity).
Qed.

Lemma MMU_clone_userspace_witness :
  ∃ r st' p', @MMU_clone_userspace demo_layout proc_root proc_state = Ret (r, st') ∧ r ≠ 0 ∧
    @forked demo_layout proc_state proc_root (regions_frames (usable_regions proc_state)) r st' p'.
Proof.
  pose proof (@MMU_clone_userspace_correct demo_layout proc_state proc_root _ proc_state_forkable)
    as (r & st' & p' & E & H).
  rewrite decide_True in H; [exists r, st', p'; exact (conj E H)|].
  apply (bool_decide_unpack _). vm_compute. reflexivity.
Defined.
