(* ===== verification/KernelMemory.v ===== *)
(** * What the kernel heap needs from the virtual memory manager

    [kmalloc] is a client of [MMU_alloc_page], [MMU_alloc_pages] and
    [MMU_free_pages], and of the loads and stores the processor executes for it.
    [KernelMemory] names these operations and [KernelMemoryLaws] states what they
    promise, word by word; [VpagesHeap] shows that the virtual memory manager of
    [Vpages] keeps the promise. *)

From S2P Require Import Prelude Memory Frames.

Class KernelMemory (S : Type) := {
  km_load64 : Z → M S Z;
  km_store64 : Z → Z → M S unit;
  km_alloc_page : M S Z;
  km_alloc_pages : Z → M S Z;
  km_free_pages : Z → Z → M S unit;
  km_ints : S → bool;
  km_set_ints : bool → S → S
}.

(** [km_word s a] is the word at the aligned address [a], [None] where nothing is
    mapped; [km_resident s a] says that the page of [a] has a frame, so that an
    access does not fault.  [km_inv s frames room] is the invariant with
    the number of free frames and the number of pages left in the heap range. *)
Class KernelMemoryLaws (S : Type) `{!KernelMemory S} := {
  km_inv : S → Z → Z → Prop;
  km_word : S → Z → option Z;
  km_resident : S → Z → Prop;

  km_word_range s k r a v : km_inv s k r → km_word s a = Some v → 0 ≤ v < 2 ^ 64;
  km_frames_nonneg s k r : km_inv s k r → 0 ≤ k;

  km_set_ints_inv s k r b : km_inv s k r → km_inv (km_set_ints b s) k r;
  km_set_ints_word s b a : km_word (km_set_ints b s) a = km_word s a;
  km_set_ints_resident s b a : km_resident (km_set_ints b s) a ↔ km_resident s a;
  km_ints_set s b : km_ints (km_set_ints b s) = b;

  (** Whether a page is resident only depends on the page. *)
  km_resident_page s a b : a / PAGE_SIZE = b / PAGE_SIZE → km_resident s a → km_resident s b;

  km_load s k r a v :
    km_inv s k r → a mod 8 = 0 → km_word s a = Some v → km_resident s a →
    km_load64 a s = Ret (v, s);

  km_store s k r a v w :
    km_inv s k r → a mod 8 = 0 → km_word s a = Some w → 0 ≤ v < 2 ^ 64 → km_resident s a ∨ 1 ≤ k →
    wp (km_store64 a v) s (λ _ s', ∃ k', km_inv s' k' r ∧ km_ints s' = km_ints s ∧
      (∀ b, b mod 8 = 0 → km_word s' b = if decide (b = a) then Some v else km_word s b) ∧
      (∀ b, km_resident s b ∨ b / PAGE_SIZE = a / PAGE_SIZE → km_resident s' b) ∧
      k - 1 ≤ k' ∧ (km_resident s a → k' = k));

  (** The pages of an allocation were not mapped before and read as zeros. *)
  km_alloc s k r n :
    km_inv s k r → 1 ≤ n ≤ r → n < 2 ^ 31 →
    wp (km_alloc_pages n) s (λ va s', ∃ k' r', km_inv s' k' r' ∧ km_ints s' = km_ints s ∧
      (∀ b, km_resident s b → km_resident s' b) ∧ k - 3 * n ≤ k' ∧
      ((va = 0 ∧ r' = r ∧ ∀ b v, b mod 8 = 0 → km_word s b = Some v → km_word s' b = Some v) ∨
       (0 < va ∧ va mod PAGE_SIZE = 0 ∧ va + n * PAGE_SIZE < 2 ^ 64 ∧ r' = r - n ∧
        ∀ b, b mod 8 = 0 → if decide (va ≤ b < va + n * PAGE_SIZE)
             then km_word s b = None ∧ km_word s' b = Some 0 else km_word s' b = km_word s b)));

  km_alloc_1 s k r : km_inv s k r → km_alloc_page s = km_alloc_pages 1 s;

  km_free s k r va n :
    km_inv s k r → va mod PAGE_SIZE = 0 → 0 ≤ n → 
    (∀ b, va ≤ b < va + n * PAGE_SIZE → b mod 8 = 0 → is_Some (km_word s b)) →
    wp (km_free_pages va n) s (λ _ s', ∃ k', km_inv s' k' r ∧ km_ints s' = km_ints s ∧ k ≤ k' ∧
      ∀ b, b mod 8 = 0 →
        (if decide (va ≤ b < va + n * PAGE_SIZE) then km_word s' b = None
         else km_word s' b = km_word s b ∧ (km_resident s b → km_resident s' b)))
}.
