(* ===== verification/Kmalloc.v ===== *)
(** * The kernel heap ([src/x86_64/memory/kmalloc.c])

    Six pools of blocks of a fixed size, each a free list threaded through its
    blocks, and whole pages for larger requests.  In front of every allocation a
    header names its pool. *)

From S2P Require Import Prelude Memory Frames KernelMemory.

(** [struct kmalloc_pool]; [struct free_list] and [struct kmalloc_extra] are words
    of the heap itself. *)
Record kmalloc_pool := Pool { max_size : Z; avail : Z; head : Z }.

Record heap (S : Type) := Heap { vm : S; pools : list kmalloc_pool }.
Arguments Heap {S}.
Arguments vm {S}.
Arguments pools {S}.

Definition NUM_POOLS : nat := 6.

Definition pools_init : list kmalloc_pool :=
  [Pool 32 0 0; Pool 64 0 0; Pool 128 0 0; Pool 512 0 0; Pool 1024 0 0; Pool 2048 0 0].

(** The size of [struct kmalloc_extra], and of an element of [pools]. *)
Definition extra_size : Z := 16.
Definition pool_bytes : Z := 16.

(** The address the linker gives to [pools]. *)
Class HeapLayout := { pools_addr : Z }.

Section kmalloc.
Context {S : Type} `{!KernelMemory S} `{!HeapLayout}.
Local Abbreviation MH := (M (heap S)).

Definition lift {A} (c : M S A) : MH A := λ h,
  match c (vm h) with
  | Ret (a, s) => Ret (a, Heap s (pools h))
  | Halt => Halt
  | NoFuel => NoFuel
  end.

Definition get_pool (i : nat) : MH kmalloc_pool := λ h,
  match pools h !! i with Some p => Ret (p, h) | None => Halt end.
Definition set_pool (i : nat) (p : kmalloc_pool) : MH unit :=
  modify (λ h, Heap (vm h) (<[i := p]> (pools h))).

Definition heap_ints : MH bool := gets (λ h, km_ints (vm h)).
Definition heap_cli : MH unit := lift (modify (km_set_ints false)).
Definition heap_restore (ints_enabled : bool) : MH unit :=
  if ints_enabled then lift (modify (km_set_ints true)) else ret tt.

(** [&pools[i]], and the pool a pointer points to. *)
Definition pool_ptr (i : nat) : Z := pools_addr + pool_bytes * Z.of_nat i.
Definition pool_at (p : Z) : nat := Z.to_nat ((p - pools_addr) / pool_bytes).

Definition expand_pool (i : nat) : MH unit :=
  page <- lift km_alloc_page ;;
  if page =? 0 then ret tt else
  pool <- get_pool i ;;
  let num_blocks := PAGE_SIZE / max_size pool in
  for_each (seqZ 0 num_blocks) (λ j,
    pool <- get_pool i ;;
    let block := page + j * max_size pool in
    lift (km_store64 block (head pool)) ;;
    set_pool i (Pool (max_size pool) (avail pool) block)) ;;
  pool <- get_pool i ;;
  set_pool i (Pool (max_size pool) (i32 (avail pool + num_blocks)) (head pool)).

(** The pool with the smallest blocks that fit. *)
Definition best_pool (total_size : Z) (ps : list kmalloc_pool) : option nat :=
  fst <$> list_find (λ p, total_size ≤ u64 (max_size p)) ps.

(** The header, and the address after it. *)
Definition finish_block (ints_enabled : bool) (block pool size : Z) : MH Z :=
  lift (km_store64 block pool) ;;
  lift (km_store64 (block + 8) size) ;;
  heap_restore ints_enabled ;;
  ret (block + extra_size).

Definition pop_block (i : nat) : MH Z :=
  pool <- get_pool i ;;
  let block := head pool in
  next <- lift (km_load64 block) ;;
  set_pool i (Pool (max_size pool) (i32 (avail pool - 1)) next) ;;
  ret block.

Definition kmalloc (size : Z) : MH Z :=
  if size =? 0 then ret 0 else
  ints_enabled <- heap_ints ;;
  heap_cli ;;
  let total_size := u64 (size + extra_size) in
  ps <- gets pools ;;
  match best_pool total_size ps with
  | Some i =>
      pool <- get_pool i ;;
      (if avail pool =? 0 then expand_pool i else ret tt) ;;
      pool <- get_pool i ;;
      if avail pool =? 0 then ret 0 else
      block <- pop_block i ;;
      finish_block ints_enabled block (pool_ptr i) size
  | None =>
      let num_pages := u64 (total_size + PAGE_SIZE - 1) / PAGE_SIZE in
      block <- lift (km_alloc_pages (i32 num_pages)) ;;
      if block =? 0 then ret 0 else
      finish_block ints_enabled block 0 size
  end.

Definition kfree (addr : Z) : MH unit :=
  if addr =? 0 then ret tt else
  ints_enabled <- heap_ints ;;
  heap_cli ;;
  let header := addr - extra_size in
  pool <- lift (km_load64 header) ;;
  (if negb (pool =? 0) then
     let i := pool_at pool in
     p <- get_pool i ;;
     lift (km_store64 header (head p)) ;;
     set_pool i (Pool (max_size p) (i32 (avail p + 1)) header)
   else
     size <- lift (km_load64 (header + 8)) ;;
     let total_size := u64 (size + extra_size) in
     let num_pages := u64 (total_size + PAGE_SIZE - 1) / PAGE_SIZE in
     lift (km_free_pages header (i32 num_pages))) ;;
  heap_restore ints_enabled.
End kmalloc.
