(* ===== verification/KmallocProofs.v ===== *)
(** * Correctness of the kernel heap

    Free and allocated blocks never overlap, the headers of the allocated ones and
    the links of the free ones are intact, and every allocation fits its block. *)

From S2P Require Import Prelude Memory Frames KernelMemory Kmalloc.

Implicit Types (fl : list (list Z)) (l : list Z).

(** ** The abstract heap *)

Definition sizes : list Z := [32; 64; 128; 512; 1024; 2048].
Definition size_of (i : nat) : Z := default 0 (sizes !! i).

(** The words of the block of [n] bytes at [a]. *)
Definition block_words (a n : Z) : list Z := (λ j, a + 8 * j) <$> seqZ 0 (n / 8).

(** An allocated block: its address (that of the header), its pool, the size asked for. *)
Record alloc := Alloc { al_block : Z; al_pool : option nat; al_size : Z }.

Definition pages_for (size : Z) : Z := (size + extra_size + PAGE_SIZE - 1) / PAGE_SIZE.
Definition al_len (al : alloc) : Z :=
  match al_pool al with Some i => size_of i | None => pages_for (al_size al) * PAGE_SIZE end.
Definition al_words (al : alloc) : list Z := block_words (al_block al) (al_len al).

(** The words of the free blocks of pool [i], of all free blocks, and of the heap. *)
Definition list_words (i : nat) (l : list Z) : list Z := l ≫= λ a, block_words a (size_of i).
Definition free_words (fl : list (list Z)) : list Z := concat (imap list_words fl).
Definition heap_words (fl : list (list Z)) (live : list alloc) : list Z :=
  free_words fl ++ (live ≫= al_words).

(** The free list starting at [h] is [l]. *)
Fixpoint chain (w : Z → option Z) (h : Z) (l : list Z) : Prop :=
  match l with
  | [] => h = 0
  | a :: l => h = a ∧ ∃ nx, w a = Some nx ∧ chain w nx l
  end.

Definition block_ok (a n : Z) : Prop := 0 < a ∧ a mod 32 = 0 ∧ a + n < 2 ^ 64.

Section layout.
Context `{!HeapLayout}.

Definition layout_ok : Prop := 0 < pools_addr ∧ pools_addr + 96 < 2 ^ 64.

Definition al_ptr (al : alloc) : Z := match al_pool al with Some i => pool_ptr i | None => 0 end.

Record live_ok (w : Z → option Z) (res : Z → Prop) (al : alloc) : Prop := {
  lv_block : block_ok (al_block al) (al_len al);
  lv_resident : res (al_block al);
  lv_pool : w (al_block al) = Some (al_ptr al);
  lv_size : w (al_block al + 8) = Some (al_size al);
  lv_fits : 0 < al_size al ∧ al_size al + extra_size ≤ al_len al;
  lv_kind : match al_pool al with
            | Some i => (i < 6)%nat
            | None => al_block al mod PAGE_SIZE = 0 ∧ pages_for (al_size al) < 2 ^ 31
            end
}.

Record heap_data (w : Z → option Z) (res : Z → Prop) (ps : list kmalloc_pool)
    (fl : list (list Z)) (live : list alloc) : Prop := {
  hd_length : length ps = 6%nat ∧ length fl = 6%nat;
  hd_pool : ∀ i l, fl !! i = Some l →
    ∃ h, ps !! i = Some (Pool (size_of i) (Z.of_nat (length l)) h) ∧ chain w h l;
  hd_nodup : NoDup (heap_words fl live);
  hd_mapped : ∀ a, a ∈ heap_words fl live → is_Some (w a);
  hd_free : ∀ i l a, fl !! i = Some l → a ∈ l → block_ok a (size_of i) ∧ res a;
  hd_live : Forall (live_ok w res) live
}.
End layout.

(** ** Words of blocks *)

Lemma elem_of_block_words x a n :
  0 ≤ n → n mod 8 = 0 → x ∈ block_words a n ↔ a ≤ x < a + n ∧ (x - a) mod 8 = 0.
Proof.
  intros Hn Hm. unfold block_words. rewrite list_elem_of_fmap. split.
  - intros (j & -> & Hj%elem_of_seqZ). dlia.
  - intros [H1 H2]. exists ((x - a) / 8). split; [dlia|]. apply elem_of_seqZ. dlia.
Qed.

Lemma size_of_cases i :
  size_of i = 0 ∨ ((i < 6)%nat ∧ 32 ≤ size_of i ≤ 2048 ∧ size_of i mod 32 = 0 ∧ PAGE_SIZE mod size_of i = 0).
Proof. unfold size_of. destruct i as [|[|[|[|[|[|i]]]]]]; cbn; auto; right; split; lia || done. Qed.

Lemma size_of_lt i : (i < 6)%nat → 32 ≤ size_of i ≤ 2048 ∧ size_of i mod 32 = 0 ∧ PAGE_SIZE mod size_of i = 0.
Proof. intros Hi. destruct (size_of_cases i) as [E|(_ & H)]; [|done]. by destruct i as [|[|[|[|[|[|i]]]]]]; [..|lia]. Qed.

Lemma chain_ext (w w' : Z → option Z) h l :
  (∀ a, a ∈ l → w' a = w a) → chain w h l → chain w' h l.
Proof.
  revert h. induction l as [|a l IH]; intros h Hw; [done|]. intros (-> & nx & Ha & Hc). split; [done|].
  exists nx. rewrite Hw by left. split; [done|]. apply IH; [|done]. intros b Hb. apply Hw. by right.
Qed.

Lemma block_words_NoDup a n : NoDup (block_words a n).
Proof. apply NoDup_fmap_2; [intros x y ?; lia|apply NoDup_seqZ]. Qed.

Lemma block_words_app a n n' :
  0 ≤ n → 0 ≤ n' → n mod 8 = 0 → n' mod 8 = 0 →
  block_words a (n + n') = block_words a n ++ block_words (a + n) n'.
Proof.
  intros Hn Hn' Hm Hm'. unfold block_words. replace ((n + n') / 8) with (n / 8 + n' / 8) by dlia.
  rewrite seqZ_app by dlia. rewrite fmap_app. f_equal. rewrite Z.add_0_l.
  rewrite <-(Z.add_0_r (n / 8)), <-fmap_add_seqZ, <-list_fmap_compose.
  apply list_fmap_ext. intros i x _. cbn. dlia.
Qed.

(** ** Exchanging the free list of one pool *)

Lemma free_words_insert fl i l l' :
  fl !! i = Some l → free_words (<[i := l']> fl) ++ list_words i l ≡ₚ free_words fl ++ list_words i l'.
Proof.
  intros Hi. unfold free_words. rewrite (insert_take_drop fl i l') by (by apply lookup_lt_Some in Hi).
  rewrite <-(take_drop_middle fl i l Hi) at 3.
  rewrite !imap_app, !concat_app. cbn. rewrite length_take_le by (apply lookup_lt_Some in Hi; lia).
  rewrite Nat.add_0_r. solve_Permutation.
Qed.

Lemma list_words_cons i a l : list_words i (a :: l) = block_words a (size_of i) ++ list_words i l.
Proof. done. Qed.

Lemma heap_words_pop fl live i a l :
  fl !! i = Some (a :: l) →
  heap_words fl live ≡ₚ block_words a (size_of i) ++ heap_words (<[i := l]> fl) live.
Proof.
  intros Hi. pose proof (free_words_insert fl i (a :: l) l Hi) as HP. rewrite list_words_cons in HP.
  unfold heap_words. rewrite app_assoc. apply Permutation_app_tail.
  apply (Permutation_app_inv_r (list_words i l)). rewrite <-HP. solve_Permutation.
Qed.

(** ** The operations *)

Section heap.
Context {S : Type} `{!KernelMemory S} `{!KernelMemoryLaws S} `{!HeapLayout}.
Implicit Types (h : heap S).

Definition word (h : heap S) : Z → option Z := km_word (vm h).
Definition resident (h : heap S) : Z → Prop := km_resident (vm h).
Definition ints (h : heap S) : bool := km_ints (vm h).

Definition heap_inv (h : heap S) (fl : list (list Z)) (live : list alloc) (k r : Z) : Prop :=
  km_inv (vm h) k r ∧ heap_data (word h) (resident h) (pools h) fl live.

Lemma wp_lift {A} (c : M S A) h Q :
  wp c (vm h) (λ a s, Q a (Heap s (pools h))) → wp (lift c) h Q.
Proof. unfold wp, lift. by destruct (c (vm h)) as [[a s]| |]. Qed.

Lemma wp_get_pool i p h Q : pools h !! i = Some p → Q p h → wp (get_pool i) h Q.
Proof. unfold wp, get_pool. by intros ->. Qed.

(** The first word of a free block, and the header of an allocated one, belong
    to the heap. *)
Lemma free_in_words fl live i l a : fl !! i = Some l → a ∈ l → (i < 6)%nat → a ∈ heap_words fl live.
Proof.
  intros Hi Ha H6. destruct (size_of_lt i H6) as (Hn & Hm & _).
  apply elem_of_app. left. unfold free_words. apply list_elem_of_In, in_concat.
  exists (list_words i l). split.
  - by apply list_elem_of_In, elem_of_lookup_imap_2.
  - apply list_elem_of_In. unfold list_words. apply list_elem_of_bind. exists a. split; [|done].
    apply elem_of_block_words; [lia|dlia|]. split; [lia|]. by rewrite Z.sub_diag.
Qed.

Lemma live_in_words fl live al x : al ∈ live → x ∈ al_words al → x ∈ heap_words fl live.
Proof. intros Ha Hx. apply elem_of_app. right. apply list_elem_of_bind. eauto. Qed.

Lemma live_len_ok (w : Z → option Z) res al : live_ok w res al → 32 ≤ al_len al ∧ al_len al mod 8 = 0.
Proof.
  intros [_ _ _ _ Hf Hk]. unfold al_len in *. destruct (al_pool al) as [i|].
  - destruct (size_of_lt i Hk) as (? & ? & _). split; [lia|dlia].
  - unfold pages_for, extra_size in *. split; dlia.
Qed.

Lemma live_header_in (w : Z → option Z) res al :
  live_ok w res al → al_block al ∈ al_words al ∧ al_block al + 8 ∈ al_words al.
Proof.
  intros Hl. destruct (live_len_ok _ _ _ Hl) as [Hn Hm]. unfold al_words.
  rewrite !elem_of_block_words by lia. split; (split; [lia|]); f_equal; [by rewrite Z.sub_diag|].
  by replace (al_block al + 8 - al_block al) with 8 by lia.
Qed.

(** Changes outside the heap keep it. *)
Lemma heap_data_frame (w w' : Z → option Z) (res res' : Z → Prop) ps fl live :
  heap_data w res ps fl live → (∀ a, a ∈ heap_words fl live → w' a = w a ∧ (res a → res' a)) →
  heap_data w' res' ps fl live.
Proof.
  intros [H1 H2 H3 H4 H5 H6] Hwr. split; try done.
  - intros i l Hi. destruct (H2 i l Hi) as (hd & Hp & Hc). exists hd. split; [done|].
    eapply chain_ext; [|exact Hc]. intros a Ha. apply Hwr. apply (free_in_words fl live i l); [done..|].
    apply lookup_lt_Some in Hi. lia.
  - intros a Ha. destruct (Hwr a Ha) as [-> _]. by apply H4.
  - intros i l a Hi Ha. destruct (H5 i l a Hi Ha). split; [done|]. apply Hwr; [|done].
    apply (free_in_words fl live i l); [done..|]. apply lookup_lt_Some in Hi. lia.
  - apply Forall_forall. intros al Hal. pose proof (proj1 (Forall_forall _ _) H6 al Hal) as Hlv.
    destruct (live_header_in _ _ _ Hlv) as [Hb Hb8].
    destruct (Hwr _ (live_in_words fl live al _ Hal Hb)) as [E Er].
    destruct (Hwr _ (live_in_words fl live al _ Hal Hb8)) as [E8 _].
    destruct Hlv. split; try done; [by apply Er|congruence..].
Qed.

Lemma chain_push (w w' : Z → option Z) hd a l :
  chain w hd l → (∀ b, b ∈ l → w' b = w b) → w' a = Some hd → chain w' a (a :: l).
Proof. intros Hc Hw Ha. split; [done|]. exists hd. split; [done|]. by eapply chain_ext. Qed.

(** ** Splitting a page into blocks *)

(** The blocks with the indices [js], the last one first. *)
Definition page_blocks (page n : Z) (js : list Z) : list Z := reverse ((λ j, page + j * n) <$> js).

Lemma page_blocks_snoc page n js j : page_blocks page n (js ++ [j]) = (page + j * n) :: page_blocks page n js.
Proof. unfold page_blocks. by rewrite fmap_app, reverse_app. Qed.

Lemma elem_of_page_blocks page n js x : x ∈ page_blocks page n js ↔ ∃ j, j ∈ js ∧ x = page + j * n.
Proof. unfold page_blocks. rewrite elem_of_reverse, list_elem_of_fmap. naive_solver. Qed.

(** The heap while a new page is being split: [done] blocks are on the list. *)
Record splitting (i : nat) (page : Z) (h0 : heap S) (k0 r0 : Z) (done : list Z) (h : heap S) : Prop := {
  sl_inv : ∃ k, km_inv (vm h) k r0 ∧ k0 - 1 ≤ k ∧ (done = [] → k = k0);
  sl_ints : ints h = ints h0;
  sl_pools : ∃ hd, pools h = <[i := Pool (size_of i) 0 hd]> (pools h0) ∧
    chain (word h) hd (page_blocks page (size_of i) done);
  sl_mapped : ∀ b, page ≤ b < page + PAGE_SIZE → b mod 8 = 0 → is_Some (word h b);
  sl_other : ∀ b, b mod 8 = 0 → b < page ∨ page + PAGE_SIZE ≤ b → word h b = word h0 b;
  sl_resident : ∀ b, resident h0 b ∨ (done ≠ [] ∧ b / PAGE_SIZE = page / PAGE_SIZE) → resident h b
}.

Lemma block_offset n j :
  32 ≤ n ≤ 2048 → n mod 32 = 0 → 0 ≤ j → j < PAGE_SIZE / n →
  0 ≤ j * n ∧ j * n + n ≤ PAGE_SIZE ∧ (j * n) mod 32 = 0.
Proof.
  intros Hn Hm Hj Hlt. split; [nia|]. split.
  - pose proof (Z.mul_div_le PAGE_SIZE n ltac:(lia)). nia.
  - by rewrite Z.mul_mod, Hm, Z.mul_0_r by lia.
Qed.

Lemma split_step i page h0 k0 r0 done h :
  let n := size_of i in let j := Z.of_nat (length done) in
  (i < 6)%nat → length (pools h0) = 6%nat → page mod PAGE_SIZE = 0 → 0 < page → page + PAGE_SIZE < 2 ^ 64 → 1 ≤ k0 →
  done = seqZ 0 j → j < PAGE_SIZE / n → splitting i page h0 k0 r0 done h →
  wp (pool <- get_pool i ;;
      let block := page + j * max_size pool in
      lift (km_store64 block (head pool)) ;;
      set_pool i (Pool (max_size pool) (avail pool) block)) h
    (λ _ h', splitting i page h0 k0 r0 (done ++ [j]) h').
Proof.
  intros n j Hi Hlen Hpage Hp0 Hp64 Hk0 Hdone Hj [(k & Hinv & Hk & Hk') Hints (hd & Hps & Hc) Hmap Hoth Hres].
  destruct (size_of_lt i Hi) as (Hn & Hn32 & Hdiv). fold n in Hn, Hn32, Hdiv, Hps, Hc.
  assert (pools h !! i = Some (Pool n 0 hd)) as Hpool by (rewrite Hps; apply list_lookup_insert_eq; lia).
  wp_step. eapply wp_get_pool; [exact Hpool|]. cbn [max_size head avail]. cbv zeta.
  assert (0 ≤ j) as Hjpos by lia. destruct (block_offset n j Hn Hn32 Hjpos Hj) as (Hj0 & Hj1 & Hj32).
  assert ((page + j * n) mod 8 = 0) as Hal by dlia.
  assert ((page + j * n) / PAGE_SIZE = page / PAGE_SIZE) as Hpg by dlia.
  assert (0 ≤ hd < 2 ^ 64) as Hhd.
  { rewrite Hdone in Hc. destruct done as [|x done'] using rev_ind; [cbn in Hc; rewrite Hc; lia|].
    rewrite <-Hdone, page_blocks_snoc in Hc. destruct Hc as [-> _].
    assert (x ∈ seqZ 0 j) as Hx%elem_of_seqZ by (rewrite <-Hdone; set_solver). nia. }
  destruct (Hmap (page + j * n)) as [w Hw]; [lia|done|].
  assert (k = k0 ∨ resident h (page + j * n)) as Hcase.
  { destruct done as [|x done']; [left; by apply Hk'|right]. apply Hres. by right. }
  wp_step. apply wp_lift.
  eapply wp_mono; [apply (km_store (vm h) k r0 _ hd w Hinv Hal Hw Hhd)|].
  { destruct Hcase as [->|?]; [by right|by left]. }
  cbv beta. intros _ s' (k' & Hinv' & Hints' & Hword & Hres' & Hk1 & Hk2). apply wp_modify. cbn.
  split; cbn.
  - exists k'. split; [done|]. split; [|by destruct done].
    destruct Hcase as [->|Hr]; [lia|]. by rewrite (Hk2 Hr).
  - unfold ints. cbn. by rewrite Hints'.
  - exists (page + j * n). rewrite Hps, list_insert_insert_eq. split; [done|].
    rewrite page_blocks_snoc. eapply chain_push; [exact Hc| |].
    + intros b (j' & Hj' & ->)%elem_of_page_blocks. unfold word. cbn.
      rewrite Hdone in Hj'. apply elem_of_seqZ in Hj'. rewrite Hword, decide_False; [done|nia|dlia].
    + unfold word. cbn. rewrite Hword by done. by rewrite decide_True.
  - intros b Hb Hb8. unfold word. cbn. rewrite Hword by done. case_decide; [eauto|]. by apply Hmap.
  - intros b Hb8 Hb. unfold word. cbn. rewrite Hword, decide_False by (done || lia). by apply Hoth.
  - intros b Hb. apply Hres'. destruct Hb as [Hb|[_ Hb]]; [left; apply Hres; by left|right; congruence].
Qed.

Lemma page_blocks_words i page m :
  (i < 6)%nat → 0 ≤ m →
  list_words i (page_blocks page (size_of i) (seqZ 0 m)) ≡ₚ block_words page (m * size_of i).
Proof.
  intros Hi. destruct (size_of_lt i Hi) as (Hn & Hn32 & _). revert m.
  apply (Wf_Z.natlike_ind (λ m, list_words i (page_blocks page (size_of i) (seqZ 0 m)) ≡ₚ
    block_words page (m * size_of i))); [done|].
  intros m Hm IH. rewrite <-Z.add_1_r, seqZ_app by lia. cbn [seqZ]. change (seqZ (0 + m) 1) with [0 + m].
  rewrite page_blocks_snoc, list_words_cons, IH, Z.add_0_l, Z.mul_add_distr_r, Z.mul_1_l.
  rewrite block_words_app; [|nia|lia| |dlia].
  - apply Permutation_app_comm.
  - rewrite Z.mul_mod by lia. replace (size_of i mod 8) with 0 by dlia. by rewrite Z.mul_0_r.
Qed.

(** Giving pool [i] another free list. *)
Lemma heap_data_set (w : Z → option Z) (res : Z → Prop) ps fl live live' i l hd :
  heap_data w res ps fl live → (i < 6)%nat → chain w hd l →
  NoDup (heap_words (<[i := l]> fl) live') → (∀ a, a ∈ heap_words (<[i := l]> fl) live' → is_Some (w a)) →
  (∀ a, a ∈ l → block_ok a (size_of i) ∧ res a) → Forall (live_ok w res) live' →
  heap_data w res (<[i := Pool (size_of i) (Z.of_nat (length l)) hd]> ps) (<[i := l]> fl) live'.
Proof.
  intros [[L1 L2] H2 _ _ H5 _] H6 Hc Hnd Hmap Hok Hlive. split; try done.
  - by rewrite !length_insert.
  - intros j l' Hj. destruct (decide (j = i)) as [->|Hne].
    + rewrite list_lookup_insert_eq in Hj by lia. injection Hj as <-. exists hd.
      rewrite list_lookup_insert_eq by lia. done.
    + rewrite list_lookup_insert_ne in Hj by done. rewrite list_lookup_insert_ne by done. by apply H2.
  - intros j l' a Hj Ha. destruct (decide (j = i)) as [->|Hne].
    + rewrite list_lookup_insert_eq in Hj by lia. injection Hj as <-. by apply Hok.
    + rewrite list_lookup_insert_ne in Hj by done. by apply (H5 j l').
Qed.

(** A heap with more free blocks in pool [i], all in words that were not part of it. *)
Lemma heap_data_grow (w w' : Z → option Z) (res res' : Z → Prop) ps fl live i l hd :
  heap_data w res ps fl live → fl !! i = Some [] → (i < 6)%nat →
  (∀ a, a ∈ heap_words fl live → w' a = w a) → (∀ a, res a → res' a) →
  chain w' hd l → NoDup (list_words i l) → (∀ a, a ∈ list_words i l → (a ∉ heap_words fl live) ∧ is_Some (w' a)) →
  (∀ a, a ∈ l → block_ok a (size_of i) ∧ res' a) →
  heap_data w' res' (<[i := Pool (size_of i) (Z.of_nat (length l)) hd]> ps) (<[i := l]> fl) live.
Proof.
  intros Hd Hi H6 Hw Hr Hc Hnd Hnew Hok. pose proof (heap_data_frame w w' res res' _ _ _ Hd (λ a Ha, conj (Hw a Ha) (Hr a))) as Hd'.
  assert (heap_words (<[i := l]> fl) live ≡ₚ list_words i l ++ heap_words fl live) as HP.
  { unfold heap_words. rewrite app_assoc. apply Permutation_app_tail.
    pose proof (free_words_insert fl i [] l Hi) as HP. cbn in HP. rewrite app_nil_r in HP.
    rewrite HP. apply Permutation_app_comm. }
  apply (heap_data_set _ _ _ _ live); try done.
  - rewrite HP. apply NoDup_app. split; [done|]. split; [|apply Hd']. intros a Ha. by apply Hnew.
  - intros a. rewrite HP. intros [Ha|Ha]%elem_of_app; [by apply Hnew|by apply (hd_mapped _ _ _ _ _ Hd')].
  - apply Hd'.
Qed.

(** Words of the heap are aligned. *)
Lemma heap_word_aligned (w : Z → option Z) res ps fl live a :
  heap_data w res ps fl live → a ∈ heap_words fl live → a mod 8 = 0.
Proof.
  intros [[L1 L2] _ _ _ H5 H6] [Ha|Ha]%elem_of_app.
  - unfold free_words in Ha. apply list_elem_of_In, in_concat in Ha as (ws & Hws%list_elem_of_In & Ha%list_elem_of_In).
    apply elem_of_lookup_imap in Hws as (i & l & -> & Hi). apply list_elem_of_bind in Ha as (b & Ha & Hb).
    destruct (size_of_lt i) as (Hn & Hm & _); [apply lookup_lt_Some in Hi; lia|].
    apply elem_of_block_words in Ha; [|lia|dlia]. destruct (H5 i l b Hi Hb) as [(_ & Hb32 & _) _]. dlia.
  - apply list_elem_of_bind in Ha as (al & Ha & Hal). rewrite Forall_forall in H6. specialize (H6 al Hal).
    destruct (live_len_ok _ _ _ H6) as [Hn Hm]. apply elem_of_block_words in Ha; [|lia|done].
    destruct (lv_block _ _ _ H6) as (_ & Hb32 & _). dlia.
Qed.

Lemma expand_pool_spec h fl live k r i :
  heap_inv h fl live k r → fl !! i = Some [] → 4 ≤ k → 1 ≤ r →
  wp (expand_pool i) h (λ _ h', ∃ l k' r', heap_inv h' (<[i := l]> fl) live k' r' ∧ ints h' = ints h ∧
    (length l ≤ 128)%nat ∧ ∀ a, a ∈ heap_words fl live → word h' a = word h a).
Proof.
  intros [Hinv Hd] Hi Hk Hr. destruct (hd_length _ _ _ _ _ Hd) as [L1 L2].
  assert (i < 6)%nat as H6 by (apply lookup_lt_Some in Hi; lia).
  destruct (size_of_lt i H6) as (Hn & Hn32 & Hdiv).
  unfold expand_pool. wp_step. apply wp_lift. unfold wp at 1. rewrite (km_alloc_1 _ _ _ Hinv).
  eapply wp_mono; [apply (km_alloc (vm h) k r 1 Hinv); lia|]. cbv beta.
  intros page s1 (k1 & r1 & Hinv1 & Hi1 & Hres1 & Hk1 & Hcase).
  destruct Hcase as [(-> & -> & Hw1)|(Hp0 & Hpal & Hp64 & -> & Hw1)].
  { cbn [Z.eqb]. apply wp_ret. exists [], k1, r. rewrite list_insert_id by done.
    assert (∀ a, a ∈ heap_words fl live → km_word s1 a = word h a) as Hsame.
    { intros a Ha. destruct (hd_mapped _ _ _ _ _ Hd a Ha) as [v Hv]. by rewrite (Hw1 a v (heap_word_aligned _ _ _ _ _ _ Hd Ha) Hv), Hv. }
    split; [split; [done|]|split; [done|split; [cbn; lia|done]]].
    eapply heap_data_frame; [exact Hd|]. intros a Ha. split; [by apply Hsame|apply Hres1]. }
  rewrite (proj2 (Z.eqb_neq page 0)) by lia.
  destruct (hd_pool _ _ _ _ _ Hd i [] Hi) as (hd & Hpool & Hc). cbn in Hc. subst hd.
  wp_step. eapply wp_get_pool; [exact Hpool|]. cbn [max_size]. set (n := size_of i) in *.
  assert (PAGE_SIZE / n * n = PAGE_SIZE) as Hpn by (pose proof (Z.div_exact PAGE_SIZE n ltac:(lia)); lia).
  set (h1 := Heap s1 (pools h)). wp_step.
  eapply wp_mono. 1: apply (wp_for_each (λ done _ h', splitting i page h1 k1 (r - 1) done h')).
  - split.
    + exists k1. split; [done|]. split; [lia|done].
    + done.
    + exists 0. cbn. split; [|done]. symmetry. by apply list_insert_id.
    + intros b Hb Hb8. specialize (Hw1 b Hb8). rewrite decide_True in Hw1 by lia. destruct Hw1 as [_ E].
      unfold word. cbn. by rewrite E.
    + done.
    + intros b [Hb|[? _]]; done.
  - intros done j rest h2 El Hsl. pose proof El as E2. apply seqZ_split_index in E2 as [-> Hj]. rewrite Z.add_0_l in *.
    apply (split_step i page h1 k1 (r - 1) done h2); try done; try lia; [|fold n; lia].
    apply (app_inj_1 _ _ (Z.of_nat (length done) :: rest) (seqZ (Z.of_nat (length done)) (PAGE_SIZE / n - Z.of_nat (length done)))).
    + rewrite length_seqZ. lia.
    + rewrite <-El. rewrite <-(Z.add_0_l (Z.of_nat (length done))) at 2. rewrite <-seqZ_app by lia. f_equal. lia.
  - cbv beta. intros _ h2 [(k2 & Hinv2 & _ & _) Hi2 (hd & Hps2 & Hc2) Hm2 Ho2 Hr2].
    set (l := page_blocks page (size_of i) (seqZ 0 (PAGE_SIZE / n))) in *.
    assert (length l = Z.to_nat (PAGE_SIZE / n)) as Hlen
      by (subst l; unfold page_blocks; by rewrite length_reverse, length_fmap, length_seqZ).
    assert (1 ≤ PAGE_SIZE / n ≤ 128) as Hnum by (split; [nia|apply Z.div_le_upper_bound; lia]).
    assert (∀ b, b mod 8 = 0 → page ≤ b < page + PAGE_SIZE → word h b = None) as Hnone.
    { intros b Hb8 Hb. specialize (Hw1 b Hb8). rewrite decide_True in Hw1 by lia. apply Hw1. }
    assert (∀ a, a ∈ heap_words fl live → a < page ∨ page + PAGE_SIZE ≤ a) as Hout.
    { intros a Ha. pose proof (heap_word_aligned _ _ _ _ _ _ Hd Ha) as Ha8.
      destruct (decide (page ≤ a < page + PAGE_SIZE)) as [Hin|]; [|lia].
      destruct (hd_mapped _ _ _ _ _ Hd a Ha) as [v Hv]. rewrite Hnone in Hv by done. done. }
    assert (∀ a, a ∈ heap_words fl live → word h2 a = word h a) as Hsame.
    { intros a Ha. pose proof (heap_word_aligned _ _ _ _ _ _ Hd Ha) as Ha8.
      rewrite (Ho2 a Ha8 (Hout a Ha)). specialize (Hw1 a Ha8). rewrite decide_False in Hw1; [exact Hw1|].
      specialize (Hout a Ha). lia. }
    pose proof (page_blocks_words i page (PAGE_SIZE / n) H6 ltac:(lia)) as Hwords.
    fold l n in Hwords. rewrite Hpn in Hwords.
    wp_step. eapply wp_get_pool; [rewrite Hps2; cbn; apply list_lookup_insert_eq; lia|]. cbn [max_size avail head].
    apply wp_modify. exists l, k2, (r - 1). rewrite Hps2, list_insert_insert_eq, Z.add_0_l, i32_small by lia. cbn.
    replace (PAGE_SIZE / n) with (Z.of_nat (length l)) by lia.
    split; [split; [done|]|split; [exact (eq_trans Hi2 Hi1)|split; [lia|done]]].
    apply (heap_data_grow (word h) _ (resident h)); [done|done|done|done| |done| | |].
    + intros a Ha. apply Hr2. left. by apply Hres1.
    + rewrite Hwords. apply block_words_NoDup.
    + intros a Ha. rewrite Hwords in Ha. apply elem_of_block_words in Ha; [|lia|done].
      assert (a mod 8 = 0) as Ha8 by dlia. split; [|apply Hm2; [lia|done]].
      intros Hin. specialize (Hout a Hin). lia.
    + intros a (j & Hj%elem_of_seqZ & ->)%elem_of_page_blocks. fold n.
      destruct (block_offset n j Hn Hn32 ltac:(lia) ltac:(lia)) as (Ho & Ho' & Ho32).
      split; [split; [lia|split; [dlia|lia]]|]. apply Hr2. right. split; [|dlia].
      rewrite seqZ_cons by lia. done.
Qed.

(** ** Handing out a block *)

(** The block of [al] is mapped and apart from the heap. *)
Definition outside (h : heap S) (fl : list (list Z)) (live : list alloc) (al : alloc) : Prop :=
  ∀ a, a ∈ al_words al → (a ∉ heap_words fl live) ∧ is_Some (word h a).

Definition al_wf (al : alloc) : Prop :=
  block_ok (al_block al) (al_len al) ∧ 0 < al_size al < 2 ^ 64 ∧ al_size al + extra_size ≤ al_len al ∧
  match al_pool al with
  | Some i => (i < 6)%nat
  | None => al_block al mod PAGE_SIZE = 0 ∧ pages_for (al_size al) < 2 ^ 31
  end.

Lemma al_wf_words al :
  al_wf al → al_block al ∈ al_words al ∧ al_block al + 8 ∈ al_words al ∧
    ∀ a, a ∈ al_words al → a mod 8 = 0.
Proof.
  intros ((_ & Hb & _) & Hs & Hf & Hk).
  assert (32 ≤ al_len al ∧ al_len al mod 8 = 0) as [Hn Hm].
  { unfold al_len in *. destruct (al_pool al) as [i|].
    - destruct (size_of_lt i Hk) as (? & ? & _). split; [lia|dlia].
    - unfold pages_for, extra_size in *. split; dlia. }
  unfold al_words. rewrite !elem_of_block_words by lia.
  split; [split; [lia|by rewrite Z.sub_diag]|].
  split; [split; [lia|by replace (al_block al + 8 - al_block al) with 8 by lia]|].
  intros a. rewrite elem_of_block_words by lia. dlia.
Qed.

Lemma heap_data_live (w w' : Z → option Z) (res res' : Z → Prop) ps fl live al :
  heap_data w res ps fl live → al_wf al →
  (∀ a, a ∈ al_words al → (a ∉ heap_words fl live) ∧ is_Some (w' a)) →
  (∀ a, a ∈ heap_words fl live → w' a = w a) → (∀ a, res a → res' a) →
  w' (al_block al) = Some (al_ptr al) → w' (al_block al + 8) = Some (al_size al) → res' (al_block al) →
  heap_data w' res' ps fl (al :: live).
Proof.
  intros Hd (Hb & Hs & Hf & Hk) Hout Hw Hr Hp Hsz Hra.
  pose proof (heap_data_frame w w' res res' _ _ _ Hd (λ a Ha, conj (Hw a Ha) (Hr a))) as [H1 H2 H3 H4 H5 H6].
  assert (heap_words fl (al :: live) ≡ₚ al_words al ++ heap_words fl live) as HP
    by (unfold heap_words; cbn; solve_Permutation).
  split; try done.
  - rewrite HP. apply NoDup_app. split; [apply block_words_NoDup|]. split; [|done]. intros a Ha. by apply Hout.
  - intros a. rewrite HP. intros [Ha|Ha]%elem_of_app; [by apply Hout|by apply H4].
  - constructor; [|done]. split; done || (split; [lia|done]).
Qed.

Lemma al_ptr_range al : layout_ok → al_wf al → 0 ≤ al_ptr al < 2 ^ 64.
Proof.
  intros [H1 H2] (_ & _ & _ & Hk). unfold al_ptr. destruct (al_pool al); [|lia].
  unfold pool_ptr, pool_bytes. lia.
Qed.

Lemma finish_block_spec h fl live k r b al :
  layout_ok → heap_inv h fl live k r → al_wf al → outside h fl live al →
  resident h (al_block al) ∨ 1 ≤ k → ints h = false →
  wp (finish_block b (al_block al) (al_ptr al) (al_size al)) h (λ p h',
    p = al_block al + extra_size ∧ ints h' = b ∧ (∃ k', heap_inv h' fl (al :: live) k' r) ∧
    ∀ a, a ∈ heap_words fl live → word h' a = word h a).
Proof.
  intros Hlay [Hinv Hd] Hwf Hout Hres Hi. destruct (al_wf_words al Hwf) as (Hb & Hb8 & Hal).
  destruct (Hout _ Hb) as [Hn [v Hv]]. destruct (Hout _ Hb8) as [Hn8 [v8 Hv8]].
  unfold finish_block. wp_step. apply wp_lift.
  eapply wp_mono; [apply (km_store _ k r _ _ v Hinv (Hal _ Hb) Hv); [by apply al_ptr_range|done]|].
  cbv beta. intros _ s1 (k1 & Hinv1 & Hi1 & Hw1 & Hr1 & _). wp_step. apply wp_lift. cbn [vm pools].
  eapply wp_mono; [apply (km_store s1 k1 r _ _ v8 Hinv1 (Hal _ Hb8))|].
  { by rewrite Hw1, decide_False by (lia || by apply Hal). }
  { destruct Hwf as (_ & ? & _). lia. }
  { left. apply Hr1. right. destruct Hwf as ((_ & ? & _) & _). dlia. }
  cbv beta. intros _ s2 (k2 & Hinv2 & Hi2 & Hw2 & Hr2 & _). cbn [vm pools].
  assert (∀ a, a mod 8 = 0 → km_word s2 a = if decide (a = al_block al + 8) then Some (al_size al) else
    if decide (a = al_block al) then Some (al_ptr al) else word h a) as Hw.
  { intros a Ha. rewrite Hw2 by done. case_decide; [done|]. by rewrite Hw1. }
  assert (∀ a, a ∈ heap_words fl live → km_word s2 a = word h a) as Hsame.
  { intros a Ha. rewrite Hw by (by eapply heap_word_aligned). rewrite !decide_False; [done|congruence..]. }
  assert (heap_data (km_word s2) (km_resident s2) (pools h) fl (al :: live)) as Hd2.
  { apply (heap_data_live (word h) _ (resident h)); [done|done| |done| | | |].
    - intros a Ha. split; [by apply Hout|]. rewrite Hw by auto. repeat case_decide; eauto. by apply Hout.
    - intros a Ha. apply Hr2. left. apply Hr1. by left.
    - rewrite Hw by auto. by rewrite decide_False, decide_True by lia.
    - rewrite Hw by auto. by rewrite decide_True.
    - apply Hr2. left. apply Hr1. by right. }
  wp_step. unfold heap_restore. destruct b.
  - apply wp_lift, wp_modify, wp_ret. cbn. split; [done|]. split; [apply km_ints_set|]. split.
    + exists k2. split; [by apply km_set_ints_inv|]. eapply heap_data_frame; [exact Hd2|]. intros a _. cbn.
      split; [apply km_set_ints_word|apply km_set_ints_resident].
    + intros a Ha. unfold word. cbn. rewrite km_set_ints_word. by apply Hsame.
  - apply wp_ret, wp_ret. split; [done|]. split; [unfold ints in *; cbn; congruence|]. split; [by exists k2|done].
Qed.

(** ** The theorems *)

Lemma best_pool_spec total ps fl live (w : Z → option Z) res :
  heap_data w res ps fl live → 0 < total →
  match best_pool total ps with
  | Some i => (i < 6)%nat ∧ total ≤ size_of i ∧ ∀ j, (j < i)%nat → size_of j < total
  | None => 2048 < total
  end.
Proof.
  intros [[L1 L2] H2 _ _ _ _] Ht. unfold best_pool.
  assert (∀ i p, ps !! i = Some p → (i < 6)%nat ∧ max_size p = size_of i) as Hsz.
  { intros i p Hp. assert (i < 6)%nat as H6 by (apply lookup_lt_Some in Hp; lia). split; [done|].
    destruct (lookup_lt_is_Some_2 fl i) as [l Hl]; [lia|]. destruct (H2 i l Hl) as (hd & Hp' & _). by simplify_eq. }
  assert (∀ i, (i < 6)%nat → u64 (size_of i) = size_of i) as Hu.
  { intros i Hi. destruct (size_of_lt i Hi) as [? _]. apply u64_small. lia. }
  destruct (list_find _ ps) as [[i p]|] eqn:E; cbn.
  - apply list_find_Some in E as (Hp & Hle & Hbefore). destruct (Hsz i p Hp) as [H6 Em].
    rewrite Em, Hu in Hle by done. split; [done|]. split; [done|]. intros j Hj.
    destruct (lookup_lt_is_Some_2 ps j) as [q Hq]; [lia|]. destruct (Hsz j q Hq) as [Hj6 Eq].
    specialize (Hbefore j q Hq Hj). rewrite Eq, Hu in Hbefore by done. lia.
  - apply list_find_None in E. destruct (lookup_lt_is_Some_2 ps 5) as [p Hp]; [lia|].
    destruct (Hsz 5%nat p Hp) as [_ Em]. rewrite Forall_lookup in E. specialize (E 5%nat p Hp). cbv beta in E.
    rewrite Em, Hu in E by lia. cbn in E. lia.
Qed.

(** Taking the first free block of a pool. *)
Lemma pop_block_spec h fl live k r i a l :
  heap_inv h fl live k r → fl !! i = Some (a :: l) → Z.of_nat (length l) < 2 ^ 31 - 1 →
  wp (pop_block i) h (λ b h', b = a ∧ heap_inv h' (<[i := l]> fl) live k r ∧ vm h' = vm h ∧
    block_ok a (size_of i) ∧ resident h a ∧ (∀ x, x ∈ heap_words (<[i := l]> fl) live → x ∈ heap_words fl live) ∧
    ∀ x, x ∈ block_words a (size_of i) → (x ∉ heap_words (<[i := l]> fl) live) ∧ is_Some (word h x)).
Proof.
  intros [Hinv Hd] Hi Hlen. destruct (Hd) as [[L1 L2] H2 H3 H4 H5 H7].
  assert (i < 6)%nat as H6 by (apply lookup_lt_Some in Hi; lia).
  destruct (H2 i _ Hi) as (hd & Hp & -> & nx & Ha & Hc). destruct (H5 i _ a Hi) as [Hbok Hres]; [left|].
  pose proof (heap_words_pop fl live i a l Hi) as HP.
  unfold pop_block. wp_step. eapply wp_get_pool; [exact Hp|]. cbn [head max_size avail].
  wp_step. apply wp_lift. eapply wp_of_eq; [apply (km_load _ k r a nx Hinv); [|done|done]|].
  { destruct Hbok as (_ & ? & _). dlia. }
  wp_step. apply wp_modify, wp_ret. split; [done|]. rewrite i32_small by (cbn [length]; lia).
  replace (Z.of_nat (length (a :: l)) - 1) with (Z.of_nat (length l)) by (cbn [length]; lia).
  split; [|split; [done|split; [done|split; [done|split]]]].
  - split; [done|]. apply (heap_data_set _ _ _ _ live); try done.
    + rewrite HP in H3. by apply NoDup_app in H3 as (_ & _ & H3).
    + intros x Hx. apply H4. rewrite HP. apply elem_of_app. by right.
    + intros x Hx. apply (H5 i (a :: l)); [done|by right].
  - intros x Hx. rewrite HP. apply elem_of_app. by right.
  - intros x Hx. rewrite HP in H3. apply NoDup_app in H3 as (_ & H3 & _). split; [by apply H3|].
    apply H4. rewrite HP. apply elem_of_app. by left.
Qed.

(** Turning interrupts off does not touch the heap. *)
Lemma heap_inv_cli h fl live k r :
  heap_inv h fl live k r → heap_inv (Heap (km_set_ints false (vm h)) (pools h)) fl live k r.
Proof.
  intros [Hinv Hd]. split; [by apply km_set_ints_inv|]. eapply heap_data_frame; [exact Hd|].
  intros a _. split; [apply km_set_ints_word|apply km_set_ints_resident].
Qed.

(** What a successful [kmalloc] returns. *)
Definition allocated (h : heap S) (live : list alloc) (size p : Z) (h' : heap S) : Prop :=
  ∃ fl' pool k' r', let al := Alloc (p - extra_size) pool size in
    heap_inv h' fl' (al :: live) k' r' ∧ p mod 16 = 0 ∧ ints h' = ints h ∧
    ∀ a, a ∈ live ≫= al_words → word h' a = word h a.

(** The number of pages a request may take from the page allocator. *)
Definition request_pages (size : Z) : Z := if decide (size + extra_size ≤ 2048) then 1 else pages_for size.

(** A request that is served from pool [i]. *)
Lemma ensure_blocks h fl live k r i l :
  heap_inv h fl live k r → fl !! i = Some l → Z.of_nat (length l) < 2 ^ 31 - 1 → 4 ≤ k → 1 ≤ r →
  wp (pool <- get_pool i ;; if avail pool =? 0 then expand_pool i else ret tt) h (λ _ h', ∃ l' k' r',
    heap_inv h' (<[i := l']> fl) live k' r' ∧ ints h' = ints h ∧ Z.of_nat (length l') < 2 ^ 31 - 1 ∧
    (l ≠ [] → l' = l) ∧ ∀ a, a ∈ heap_words fl live → word h' a = word h a).
Proof.
  intros Hh Hi Hlen Hk Hr. destruct (hd_pool _ _ _ _ _ (proj2 Hh) i l Hi) as (hd & Hp & Hc).
  wp_step. eapply wp_get_pool; [exact Hp|]. cbn [avail]. destruct l as [|x l]; cbn [length Z.of_nat Z.eqb].
  - eapply wp_mono; [by apply (expand_pool_spec h fl live k r i)|]. cbv beta.
    intros _ h' (l & k' & r' & Hh' & Hi' & Hl & Hw). exists l, k', r'. split; [done|]. split; [done|]. split; [lia|done].
  - apply wp_ret. exists (x :: l), k, r. rewrite list_insert_id by done. done.
Qed.

(** The first free block of a pool becomes an allocation. *)
Lemma take_block h fl live k r i a l size b :
  layout_ok → heap_inv h fl live k r → (i < 6)%nat → fl !! i = Some (a :: l) →
  Z.of_nat (length l) < 2 ^ 31 - 1 → 0 < size → size + extra_size ≤ size_of i → ints h = false →
  wp (block <- pop_block i ;; finish_block b block (pool_ptr i) size) h (λ p h',
    p = a + extra_size ∧ p ≠ 0 ∧ p mod 16 = 0 ∧ ints h' = b ∧
    (∃ k', heap_inv h' (<[i := l]> fl) (Alloc a (Some i) size :: live) k' r) ∧
    ∀ x, x ∈ heap_words (<[i := l]> fl) live → x ∈ heap_words fl live ∧ word h' x = word h x).
Proof.
  intros Hlay Hh H6 Hil Hlen Hs Hfit Hints. wp_step.
  eapply wp_mono; [apply (pop_block_spec h _ live k r i a l Hh Hil Hlen)|].
  cbv beta. intros ? h2 (-> & Hh2 & Hvm & Hbok & Hres & Hsub & Hout). destruct (size_of_lt i H6) as (Hn & _).
  eapply wp_mono; [apply (finish_block_spec h2 _ live k r b (Alloc a (Some i) size) Hlay Hh2)|].
  - split; [done|]. split; [unfold extra_size in *; cbn; lia|]. by split.
  - intros x Hx. unfold word. rewrite Hvm. by apply Hout.
  - left. unfold resident. by rewrite Hvm.
  - unfold ints in *. by rewrite Hvm.
  - cbv beta. cbn [al_block]. intros p h3 (-> & Hi3 & Hh3 & Hw3).
    destruct Hbok as (Ha0 & Ha32 & _). unfold extra_size. split; [done|]. split; [lia|]. split; [dlia|].
    split; [done|]. split; [done|]. intros x Hx. split; [by apply Hsub|].
    rewrite (Hw3 x Hx). unfold word. by rewrite Hvm.
Qed.

Lemma pool_request h fl live k r i size b :
  layout_ok → heap_inv h fl live k r → (i < 6)%nat → Forall (λ l, Z.of_nat (length l) < 2 ^ 31 - 1) fl →
  0 < size → size + extra_size ≤ size_of i → 4 ≤ k → 1 ≤ r → ints h = false →
  wp (pool <- get_pool i ;;
      (if avail pool =? 0 then expand_pool i else ret tt) ;;
      pool <- get_pool i ;;
      if avail pool =? 0 then ret 0 else
      block <- pop_block i ;;
      finish_block b block (pool_ptr i) size) h (λ p h',
    (p = 0 ∧ ints h' = false ∧ (∃ k' r', heap_inv h' fl live k' r') ∧
     ∀ a, a ∈ heap_words fl live → word h' a = word h a) ∨
    (∃ fl' k' r', p ≠ 0 ∧ p mod 16 = 0 ∧ ints h' = b ∧
     heap_inv h' fl' (Alloc (p - extra_size) (Some i) size :: live) k' r' ∧
     ∀ a, a ∈ live ≫= al_words → word h' a = word h a)).
Proof.
  intros Hlay Hh H6 Hsmall Hs Hfit Hk Hr Hints. destruct (hd_length _ _ _ _ _ (proj2 Hh)) as [L1 L2].
  destruct (lookup_lt_is_Some_2 fl i) as [l Hl]; [lia|]. rewrite Forall_lookup in Hsmall. specialize (Hsmall i l Hl).
  apply wp_seq. eapply wp_mono; [by apply (ensure_blocks h fl live k r i l)|]. cbv beta.
  intros _ h1 (l1 & k1 & r1 & Hh1 & Hi1 & Hlen1 & Hl1 & Hw1).
  assert (<[i := l1]> fl !! i = Some l1) as Hil by (apply list_lookup_insert_eq; lia).
  destruct (hd_pool _ _ _ _ _ (proj2 Hh1) i l1 Hil) as (hd & Hp & _).
  wp_step. eapply wp_get_pool; [exact Hp|]. cbn [avail]. destruct l1 as [|a l1].
  { apply wp_ret. left. split; [done|]. split; [congruence|]. split; [|done]. exists k1, r1.
    destruct l; [|by specialize (Hl1 ltac:(done))]. by rewrite list_insert_id in Hh1 by done. }
  rewrite (proj2 (Z.eqb_neq (Z.of_nat (length (a :: l1))) 0)) by (cbn [length]; lia).
  eapply wp_mono; [apply (take_block h1 (<[i := a :: l1]> fl) live k1 r1 i a l1 size b); try done; [cbn [length] in Hlen1; lia|congruence]|].
  cbv beta. intros p h3 (-> & Hp0 & Hp16 & Hi3 & (k3 & Hh3) & Hw3). right. rewrite list_insert_insert_eq in Hh3, Hw3.
  exists (<[i := l1]> fl), k3, r1. rewrite Z.add_simpl_r. repeat (split; [done|]). intros x Hx.
  destruct (Hw3 x) as [_ ->]; [apply elem_of_app; by right|]. apply Hw1, elem_of_app. by right.
Qed.

(** A request that is served with whole pages. *)
Lemma page_request h fl live k r size b :
  layout_ok → heap_inv h fl live k r → 0 < size < 2 ^ 64 - 2 * PAGE_SIZE → 2048 < size + extra_size →
  pages_for size ≤ r → pages_for size < 2 ^ 31 → 3 * pages_for size + 1 ≤ k → ints h = false →
  wp (block <- lift (km_alloc_pages (pages_for size)) ;;
      if block =? 0 then ret 0 else finish_block b block 0 size) h (λ p h',
    (p = 0 ∧ ints h' = false ∧ (∃ k' r', heap_inv h' fl live k' r') ∧
     ∀ a, a ∈ heap_words fl live → word h' a = word h a) ∨
    (∃ fl' k' r', p ≠ 0 ∧ p mod 16 = 0 ∧ ints h' = b ∧
     heap_inv h' fl' (Alloc (p - extra_size) None size :: live) k' r' ∧
     ∀ a, a ∈ live ≫= al_words → word h' a = word h a)).
Proof.
  intros Hlay [Hinv Hd] Hs Hbig Hr H31 Hk Hints.
  assert (1 ≤ pages_for size ∧ size + extra_size ≤ pages_for size * PAGE_SIZE) as [Hn Hfit]
    by (unfold pages_for, extra_size in *; dlia).
  wp_step. apply wp_lift. eapply wp_mono; [by apply (km_alloc (vm h) k r (pages_for size) Hinv)|]. cbv beta.
  intros va s1 (k1 & r1 & Hinv1 & Hi1 & Hres1 & Hk1 & Hcase).
  assert (∀ a, a ∈ heap_words fl live → km_word s1 a = word h a) as Hsame.
  { intros a Ha. destruct (hd_mapped _ _ _ _ _ Hd a Ha) as [v Hv].
    destruct Hcase as [(_ & _ & Hw)|(_ & _ & _ & _ & Hw)]; [by rewrite (Hw a v (heap_word_aligned _ _ _ _ _ _ Hd Ha) Hv), Hv|].
    specialize (Hw a (heap_word_aligned _ _ _ _ _ _ Hd Ha)). case_decide; [|done].
    destruct Hw as [Hnone _]. unfold word in Hv. congruence. }
  assert (heap_inv (Heap s1 (pools h)) fl live k1 r1) as Hh1.
  { split; [done|]. eapply heap_data_frame; [exact Hd|]. intros a Ha. split; [by apply Hsame|apply Hres1]. }
  destruct Hcase as [(-> & _ & _)|(Hp0 & Hpal & Hp64 & -> & Hw)].
  { apply wp_ret. left. split; [done|]. split; [unfold ints in *; cbn; congruence|]. eauto. }
  rewrite (proj2 (Z.eqb_neq va 0)) by lia.
  eapply wp_mono; [apply (finish_block_spec _ fl live k1 (r - pages_for size) b (Alloc va None size) Hlay Hh1)|].
  - split; [|split; [cbn; lia|by split]]. split; [done|]. split; [cbn [al_block]; clear -Hpal; dlia|done].
  - intros x Hx. unfold al_words, al_len in Hx. cbn [al_pool al_block al_size] in Hx.
    apply elem_of_block_words in Hx; [|lia|clear; generalize (pages_for size); intros; dlia].
    assert (x mod 8 = 0) as Hx8 by dlia. specialize (Hw x Hx8). rewrite decide_True in Hw by lia.
    destruct Hw as [Hnone Hsome]. split; [|unfold word; cbn; by rewrite Hsome].
    intros Hin. destruct (hd_mapped _ _ _ _ _ Hd x Hin) as [v Hv]. unfold word in Hv. congruence.
  - right. lia.
  - unfold ints in *. cbn. congruence.
  - cbv beta. cbn [al_block]. intros p h3 (-> & Hi3 & (k3 & Hh3) & Hw3). right. exists fl, k3, (r - pages_for size).
    unfold extra_size. split; [lia|]. split; [dlia|]. split; [done|].
    rewrite Z.add_simpl_r. split; [done|]. intros x Hx.
    assert (x ∈ heap_words fl live) as Hx1 by (apply elem_of_app; by right).
    rewrite (Hw3 x Hx1). by apply Hsame.
Qed.
(** Both kinds of request answer in the same way. *)
Lemma request_result h h0 fl live pool size p h' :
  (∀ a, word h0 a = word h a) →
  (p = 0 ∧ ints h' = false ∧ (∃ k' r', heap_inv h' fl live k' r') ∧
   ∀ a, a ∈ heap_words fl live → word h' a = word h0 a) ∨
  (∃ fl' k' r', p ≠ 0 ∧ p mod 16 = 0 ∧ ints h' = ints h ∧
   heap_inv h' fl' (Alloc (p - extra_size) pool size :: live) k' r' ∧
   ∀ a, a ∈ live ≫= al_words → word h' a = word h0 a) →
  (p ≠ 0 ∧ allocated h live size p h') ∨
  (p = 0 ∧ ints h' = false ∧ (∃ k' r', heap_inv h' fl live k' r') ∧
   ∀ a, a ∈ live ≫= al_words → word h' a = word h a).
Proof.
  intros Hw0 [(-> & Hi & Hh & Hw)|(fl' & k' & r' & Hp & Hm & Hi & Hh & Hw)].
  - right. split; [done|]. split; [done|]. split; [done|]. intros a Ha. rewrite Hw, Hw0; [done|].
    apply elem_of_app. by right.
  - left. split; [done|]. exists fl', pool, k', r'. split; [done|]. split; [done|]. split; [done|].
    intros a Ha. by rewrite Hw, Hw0.
Qed.

Lemma kmalloc_spec h fl live k r size :
  layout_ok → heap_inv h fl live k r → Forall (λ l, Z.of_nat (length l) < 2 ^ 31 - 1) fl →
  0 < size < 2 ^ 64 - 2 * PAGE_SIZE → request_pages size ≤ r → request_pages size < 2 ^ 31 →
  3 * request_pages size + 1 ≤ k →
  wp (kmalloc size) h (λ p h', (p ≠ 0 ∧ allocated h live size p h') ∨
    (p = 0 ∧ ints h' = false ∧ (∃ k' r', heap_inv h' fl live k' r') ∧
     ∀ a, a ∈ live ≫= al_words → word h' a = word h a)).
Proof.
  intros Hlay Hh Hsmall Hsize Hroom Hpages Hk. unfold kmalloc.
  rewrite (proj2 (Z.eqb_neq size 0)) by lia. wp_step. apply wp_gets. wp_step. apply wp_lift, wp_modify.
  pose proof (heap_inv_cli _ _ _ _ _ Hh) as H0. set (h0 := Heap _ (pools h)) in *.
  assert (ints h0 = false) as Hi0 by apply km_ints_set.
  assert (∀ a, word h0 a = word h a) as Hw0 by (intros a; apply km_set_ints_word).
  rewrite u64_small by (unfold extra_size; lia). wp_step. apply wp_gets.
  pose proof (best_pool_spec (size + extra_size) _ _ _ _ _ (proj2 H0) ltac:(unfold extra_size; lia)) as Hbest.
  destruct (best_pool _ (pools h0)) as [i|].
  - destruct Hbest as (H6 & Hfit & _).
    assert (request_pages size = 1) as Erp.
    { unfold request_pages. apply decide_True. destruct (size_of_lt i H6) as [? _]. lia. }
    eapply wp_mono; [apply (pool_request h0 fl live k r i size (ints h)); try done; lia|]. cbv beta.
    intros p h' Hcase. by apply (request_result h h0 fl live _ size p h' Hw0 Hcase).
  - assert (request_pages size = pages_for size) as Erp by (apply decide_False; lia).
    assert (1 ≤ pages_for size) by (unfold pages_for, extra_size in *; dlia).
    rewrite u64_small by (unfold extra_size; lia). fold (pages_for size). rewrite i32_small by lia.
    eapply wp_mono; [apply (page_request h0 fl live k r size (ints h)); try done; lia|]. cbv beta.
    intros p h' Hcase. by apply (request_result h h0 fl live _ size p h' Hw0 Hcase).
Qed.

(** Where a block goes when it is freed. *)
Definition push_free (al : alloc) (fl : list (list Z)) : list (list Z) :=
  match al_pool al with
  | Some i => alter (λ l, al_block al :: l) i fl
  | None => fl
  end.

Lemma pool_at_ptr i : (i < 6)%nat → pool_at (pool_ptr i) = i.
Proof.
  intros Hi. unfold pool_at, pool_ptr, pool_bytes.
  replace (pools_addr + 16 * Z.of_nat i - pools_addr) with (Z.of_nat i * 16) by lia.
  rewrite Z.div_mul by lia. apply Nat2Z.id.
Qed.

(** The heap without one of its allocations. *)
Lemma heap_data_unlive (w : Z → option Z) res ps fl al live :
  heap_data w res ps fl (al :: live) → heap_data w res ps fl live ∧ live_ok w res al ∧
    (∀ a, a ∈ al_words al → (a ∉ heap_words fl live) ∧ is_Some (w a)).
Proof.
  intros [H1 H2 H3 H4 H5 [H6 H7]%Forall_cons_1].
  assert (heap_words fl (al :: live) ≡ₚ al_words al ++ heap_words fl live) as HP
    by (unfold heap_words; cbn; solve_Permutation).
  rewrite HP in H3. apply NoDup_app in H3 as (_ & Hd & Hnd).
  split; [|split; [done|]].
  - split; try done. intros a Ha. apply H4. rewrite HP. apply elem_of_app. by right.
  - intros a Ha. split; [by apply Hd|]. apply H4. rewrite HP. apply elem_of_app. by left.
Qed.

(** The block of a pool goes to the front of its free list. *)
Lemma free_to_pool h fl live k r al i :
  heap_inv h fl (al :: live) k r → al_pool al = Some i →
  Forall (λ l, Z.of_nat (length l) < 2 ^ 31 - 1) fl →
  wp (p <- get_pool i ;;
      lift (km_store64 (al_block al) (head p)) ;;
      set_pool i (Pool (max_size p) (i32 (avail p + 1)) (al_block al))) h (λ _ h',
    heap_inv h' (push_free al fl) live k r ∧ ints h' = ints h ∧
    ∀ a, a ∈ live ≫= al_words → word h' a = word h a).
Proof.
  intros [Hinv Hd0] Hpool Hsmall. destruct (heap_data_unlive _ _ _ _ _ _ Hd0) as (Hd & Hlv & Hout).
  destruct (live_header_in _ _ _ Hlv) as [Hb _]. destruct (Hout _ Hb) as [Hnb [v Hv]].
  destruct (hd_length _ _ _ _ _ Hd) as [L1 L2]. pose proof (lv_kind _ _ _ Hlv) as H6. rewrite Hpool in H6.
  destruct (lookup_lt_is_Some_2 fl i) as [l Hl]; [lia|].
  pose proof (proj1 (Forall_lookup _ _) Hsmall i l Hl) as Hlen. cbv beta in Hlen.
  destruct (hd_pool _ _ _ _ _ Hd i l Hl) as (hd & Hp & Hc).
  destruct (lv_block _ _ _ Hlv) as (Hb0 & Hb32 & Hb64).
  assert (0 ≤ hd < 2 ^ 64) as Hhd.
  { destruct l as [|x l]; cbn in Hc; [lia|]. destruct Hc as [-> _].
    destruct (hd_free _ _ _ _ _ Hd i (x :: l) x Hl) as [(? & _ & ?) _]; [left|].
    destruct (size_of_lt i H6) as [? _]. lia. }
  wp_step. eapply wp_get_pool; [exact Hp|]. cbn [head max_size avail]. wp_step. apply wp_lift.
  eapply wp_mono; [apply (km_store _ k r _ hd v Hinv); [dlia|done|done|left; apply Hlv]|].
  cbv beta. intros _ s1 (k1 & Hinv1 & Hi1 & Hw1 & Hr1 & _ & Hk1). apply wp_modify. cbn [vm pools].
  rewrite (Hk1 (lv_resident _ _ _ Hlv)) in Hinv1. rewrite i32_small by lia. replace (Z.of_nat (length l) + 1) with (Z.of_nat (length (al_block al :: l))) by (cbn [length]; lia).
  assert (∀ a, a ∈ heap_words fl live → km_word s1 a = word h a) as Hsame.
  { intros a Ha. rewrite Hw1 by (by eapply heap_word_aligned). rewrite decide_False; [done|congruence]. }
  split; [split; [done|]|split; [done|]].
  - unfold push_free. rewrite Hpool. assert (alter (λ l, al_block al :: l) i fl = <[i := al_block al :: l]> fl) as ->.
    { apply list_eq. intros j. destruct (decide (j = i)) as [->|Hne].
      - rewrite list_lookup_alter_eq, Hl, list_lookup_insert_eq by lia. done.
      - by rewrite list_lookup_alter_ne, list_lookup_insert_ne. }
    assert (al_words al = block_words (al_block al) (size_of i)) as Ew by (unfold al_words, al_len; by rewrite Hpool).
    assert (heap_words (<[i := al_block al :: l]> fl) live ≡ₚ al_words al ++ heap_words fl live) as HP.
    { rewrite Ew. rewrite (heap_words_pop (<[i := al_block al :: l]> fl) live i (al_block al) l)
        by (apply list_lookup_insert_eq; lia).
      by rewrite list_insert_insert_eq, (list_insert_id fl i l Hl). }
    assert (heap_data (km_word s1) (km_resident s1) (pools h) fl live) as Hd1.
    { eapply heap_data_frame; [exact Hd|]. intros a Ha. split; [by apply Hsame|]. intros Hra. apply Hr1. by left. }
    apply (heap_data_set (km_word s1) (km_resident s1) _ _ live); try done; [| | | |apply Hd1].
    + eapply chain_push; [exact Hc| |rewrite Hw1 by dlia; by rewrite decide_True].
      intros b Hbl. apply Hsame. by apply (free_in_words fl live i l).
    + rewrite HP. apply NoDup_app. split; [apply block_words_NoDup|]. split; [|apply Hd]. intros a Ha. by apply Hout.
    + intros a. rewrite HP. intros [Ha|Ha]%elem_of_app; [|by apply (hd_mapped _ _ _ _ _ Hd1)].
      rewrite Hw1; [case_decide; [eauto|by apply Hout]|].
      destruct (live_len_ok _ _ _ Hlv). apply elem_of_block_words in Ha; [dlia|lia|done].
    + intros a [->|Ha]%elem_of_cons; [|by apply (hd_free _ _ _ _ _ Hd1 i l)].
      split; [|apply Hr1; by right]. unfold block_ok. unfold al_len in Hb64. rewrite Hpool in Hb64. done.
  - intros a Ha. apply Hsame. apply elem_of_app. by right.
Qed.

(** The pages of a large block go back to the virtual memory manager. *)
Lemma free_to_pages h fl live k r al :
  heap_inv h fl (al :: live) k r → al_pool al = None →
  wp (lift (km_free_pages (al_block al) (pages_for (al_size al)))) h (λ _ h', ∃ k',
    heap_inv h' (push_free al fl) live k' r ∧ k ≤ k' ∧ ints h' = ints h ∧
    (∀ a, a ∈ al_words al → word h' a = None) ∧ ∀ a, a ∈ live ≫= al_words → word h' a = word h a).
Proof.
  intros [Hinv Hd0] Hpool. destruct (heap_data_unlive _ _ _ _ _ _ Hd0) as (Hd & Hlv & Hout).
  destruct (live_len_ok _ _ _ Hlv) as [Hn Hm]. destruct (lv_block _ _ _ Hlv) as (Hb0 & Hb32 & Hb64).
  pose proof (lv_kind _ _ _ Hlv) as Hk. rewrite Hpool in Hk. destruct Hk as [Hal H31].
  assert (al_len al = pages_for (al_size al) * PAGE_SIZE) as El by (unfold al_len; by rewrite Hpool).
  assert (∀ b, b mod 8 = 0 → al_block al ≤ b < al_block al + pages_for (al_size al) * PAGE_SIZE ↔ b ∈ al_words al) as Hin.
  { intros b Hb8. unfold al_words. rewrite elem_of_block_words by lia. rewrite El.
    assert ((b - al_block al) mod 8 = 0) by dlia. tauto. }
  apply wp_lift. eapply wp_mono; [apply (km_free (vm h) k r (al_block al) (pages_for (al_size al)) Hinv Hal ltac:(lia))|].
  { intros b Hb Hb8. apply Hout. by apply Hin. }
  cbv beta. intros _ s1 (k1 & Hinv1 & Hi1 & Hk1 & Hw1). exists k1. unfold push_free. rewrite Hpool.
  assert (∀ a, a ∈ heap_words fl live → km_word s1 a = word h a ∧ (resident h a → km_resident s1 a)) as Hsame.
  { intros a Ha. pose proof (heap_word_aligned _ _ _ _ _ _ Hd Ha) as Ha8. specialize (Hw1 a Ha8).
    rewrite decide_False in Hw1; [exact Hw1|]. rewrite Hin by done. intros Hal'. by apply Hout in Hal' as [? _]. }
  split; [split; [done|by eapply heap_data_frame]|]. split; [done|]. split; [done|]. split.
  - intros a Ha. assert (a mod 8 = 0) as Ha8.
    { apply elem_of_block_words in Ha; [dlia|lia|done]. }
    specialize (Hw1 a Ha8). rewrite decide_True in Hw1 by (by apply Hin). done.
  - intros a Ha. apply Hsame, elem_of_app. by right.
Qed.

Lemma heap_restore_spec h fl live k r b :
  heap_inv h fl live k r → ints h = false →
  wp (heap_restore b) h (λ _ h', heap_inv h' fl live k r ∧ ints h' = b ∧ ∀ a, word h' a = word h a).
Proof.
  intros [Hinv Hd] Hi. unfold heap_restore. destruct b; [|by apply wp_ret].
  apply wp_lift, wp_modify. split; [|split; [apply km_ints_set|intros a; apply km_set_ints_word]].
  split; [by apply km_set_ints_inv|]. eapply heap_data_frame; [exact Hd|].
  intros a _. split; [apply km_set_ints_word|apply km_set_ints_resident].
Qed.

Lemma kfree_spec h fl live k r al :
  layout_ok → heap_inv h fl (al :: live) k r → Forall (λ l, Z.of_nat (length l) < 2 ^ 31 - 1) fl →
  wp (kfree (al_block al + extra_size)) h (λ _ h', ∃ k', heap_inv h' (push_free al fl) live k' r ∧ k ≤ k' ∧
    ints h' = ints h ∧ (∀ a, a ∈ live ≫= al_words → word h' a = word h a) ∧
    (al_pool al = None → ∀ a, a ∈ al_words al → word h' a = None)).
Proof.
  intros Hlay Hh Hsmall. destruct (heap_data_unlive _ _ _ _ _ _ (proj2 Hh)) as (_ & Hlv & _).
  destruct (lv_block _ _ _ Hlv) as (Hb0 & Hb32 & _). unfold kfree.
  rewrite (proj2 (Z.eqb_neq (al_block al + extra_size) 0)) by (unfold extra_size; lia).
  rewrite Z.add_simpl_r. wp_step. apply wp_gets. wp_step. apply wp_lift, wp_modify.
  pose proof (heap_inv_cli _ _ _ _ _ Hh) as H0. set (h0 := Heap _ (pools h)) in *.
  assert (ints h0 = false) as Hi0 by apply km_ints_set.
  assert (∀ a, word h0 a = word h a) as Hw0 by (intros a; apply km_set_ints_word).
  destruct (heap_data_unlive _ _ _ _ _ _ (proj2 H0)) as (_ & Hlv0 & _).
  wp_step. apply wp_lift. eapply wp_of_eq.
  { apply (km_load _ k r _ _ (proj1 H0)); [dlia|apply Hlv0|apply Hlv0]. }
  cbn [vm pools]. change (Heap _ _) with h0. unfold al_ptr. destruct (al_pool al) as [i|] eqn:Ep.
  - pose proof (lv_kind _ _ _ Hlv) as H6. rewrite Ep in H6.
    rewrite (proj2 (Z.eqb_neq (pool_ptr i) 0)) by (destruct Hlay; unfold pool_ptr, pool_bytes; lia). cbn [negb].
    rewrite pool_at_ptr by done. wp_step.
    eapply wp_mono; [by apply (free_to_pool h0 fl live k r al i)|]. cbv beta. intros _ h1 (Hh1 & Hi1 & Hw1).
    eapply wp_mono; [apply (heap_restore_spec h1 _ live k r (ints h) Hh1); congruence|].
    cbv beta. intros _ h2 (Hh2 & Hi2 & Hw2). exists k. split; [done|]. split; [done|]. split; [done|].
    split; [|done]. intros a Ha. by rewrite Hw2, Hw1, Hw0.
  - cbn [Z.eqb negb]. wp_step. wp_step. apply wp_lift. eapply wp_of_eq.
    { apply (km_load _ k r _ _ (proj1 H0)); [dlia|apply Hlv0|].
      eapply km_resident_page; [|apply (lv_resident _ _ _ Hlv0)]. dlia. }
    change (Heap _ _) with h0. destruct (lv_fits _ _ _ Hlv) as [Hs Hfit].
    pose proof (lv_kind _ _ _ Hlv) as Hk. rewrite Ep in Hk. destruct Hk as [_ H31].
    assert (0 ≤ pages_for (al_size al) ∧ al_size al + extra_size + PAGE_SIZE < 2 ^ 64) as [Hn H64]
      by (unfold pages_for, extra_size in *; dlia).
    rewrite (u64_small (al_size al + extra_size)) by (unfold extra_size in *; lia).
    rewrite u64_small by (unfold extra_size in *; lia). fold (pages_for (al_size al)). rewrite i32_small by lia.
    eapply wp_mono; [by apply (free_to_pages h0 fl live k r al)|]. cbv beta. intros _ h1 (k1 & Hh1 & Hk1 & Hi1 & Hn1 & Hw1).
    eapply wp_mono; [apply (heap_restore_spec h1 _ live k1 r (ints h) Hh1); congruence|].
    cbv beta. intros _ h2 (Hh2 & Hi2 & Hw2). exists k1. split; [done|]. split; [done|]. split; [done|].
    split; [intros a Ha; by rewrite Hw2, Hw1, Hw0|]. intros _ a Ha. by rewrite Hw2, Hn1.
Qed.

(** A request for which the right pool has a free block takes the first one. *)
Lemma kmalloc_hit h fl live k r i a l size :
  layout_ok → heap_inv h fl live k r → fl !! i = Some (a :: l) → Z.of_nat (length l) < 2 ^ 31 - 1 →
  0 < size → size + extra_size ≤ size_of i → (∀ j, (j < i)%nat → size_of j < size + extra_size) →
  wp (kmalloc size) h (λ p h', p = a + extra_size ∧ ints h' = ints h ∧
    ∃ k', heap_inv h' (<[i := l]> fl) (Alloc a (Some i) size :: live) k' r).
Proof.
  intros Hlay Hh Hi Hlen Hs Hfit Hleast.
  assert (i < 6)%nat as H6 by (pose proof (hd_length _ _ _ _ _ (proj2 Hh)); apply lookup_lt_Some in Hi; lia).
  destruct (size_of_lt i H6) as [Hn _].
  unfold kmalloc. rewrite (proj2 (Z.eqb_neq size 0)) by lia. wp_step. apply wp_gets. wp_step. apply wp_lift, wp_modify.
  pose proof (heap_inv_cli _ _ _ _ _ Hh) as H0. set (h0 := Heap _ (pools h)) in *.
  rewrite u64_small by (unfold extra_size in *; lia). wp_step. apply wp_gets.
  pose proof (best_pool_spec (size + extra_size) _ _ _ _ _ (proj2 H0) ltac:(unfold extra_size; lia)) as Hbest.
  destruct (best_pool _ (pools h0)) as [i'|]; [|lia]. destruct Hbest as (_ & Hfit' & Hleast').
  assert (i' = i) as ->.
  { destruct (lt_eq_lt_dec i' i) as [[Hlt|]|Hgt]; [specialize (Hleast i' Hlt); lia|done|specialize (Hleast' i Hgt); lia]. }
  destruct (hd_pool _ _ _ _ _ (proj2 H0) i _ Hi) as (hd & Hp & _).
  wp_step. eapply wp_get_pool; [exact Hp|]. cbn [avail].
  rewrite (proj2 (Z.eqb_neq (Z.of_nat (length (a :: l))) 0)) by (cbn [length]; lia). wp_step. apply wp_ret.
  wp_step. eapply wp_get_pool; [exact Hp|]. cbn [avail].
  rewrite (proj2 (Z.eqb_neq (Z.of_nat (length (a :: l))) 0)) by (cbn [length]; lia).
  eapply wp_mono; [apply (take_block h0 fl live k r i a l size (ints h)); try done; apply km_ints_set|].
  cbv beta. intros p h3 (-> & _ & _ & Hi3 & Hh3 & _). done.
Qed.
End heap.
