(* ===== verification/VpagesHeap.v ===== *)
(** * The virtual memory manager as the kernel heap sees it

    The promises of [KernelMemoryLaws] hold for [MMU_alloc_pages], [MMU_free_pages]
    and the accesses of [Vpages], over the P4 slots between the kernel heap
    and the kernel stacks. *)

From S2P Require Import Prelude Memory Frames Vpages Bits PageTree VpagesMap VpagesPages.
From S2P Require Import VpagesIsolation VpagesWrite VpagesKernel VpagesExamples VpagesFree.
From S2P Require Import KernelMemory Kmalloc KmallocProofs.

Implicit Types (m : mem) (st : mst) (p : list Z).

(** ** Allocating pages *)

Lemma alloc_pages_spec st lo n p num :
  space st (cr3 st) lo n p → let base := kernel_va st in
  base mod PAGE_SIZE = 0 → 0 ≤ num → lo * 2 ^ 39 ≤ base → base + num * PAGE_SIZE ≤ (lo + n) * 2 ^ 39 →
  ∃ ok st1, reserve_result (cr3 st) lo n (base / PAGE_SIZE) num st p ok st1 ∧
    MMU_alloc_pages num st =
      if ok then Ret (base, set_kernel_va (base + num * PAGE_SIZE) st1) else Ret (0, st1).
Proof.
  intros Hsp base Hal Hnum Hlo Hhi. pose proof (sp_lo _ _ _ _ _ Hsp). pose proof (sp_hi _ _ _ _ _ Hsp).
  assert (base = base / PAGE_SIZE * PAGE_SIZE) as Eb by dlia.
  assert (span_ok lo n (base / PAGE_SIZE) num) as Hspan by (split; dlia).
  set (st0 := set_int_flag false st).
  pose proof (reserve_loop tt demand_page st0 (cr3 st) lo n p (base / PAGE_SIZE) num) as Hloop.
  rewrite <-Eb in Hloop. destruct (proj1 (wp_iff _ _ _) (Hloop ltac:(intros va st' Hcr;
    unfold demand_page, MMU_current_p4; erewrite bind_ret by reflexivity; by rewrite Hcr)
    (space_int_flag _ _ _ _ _ false Hsp) Hspan)) as (r & st1 & E & Hr & Hcase).
  apply reserve_result_int_flag in Hr as [Hr Hi]. rewrite Z.max_r in Hr by done.
  exists (bool_decide (r = None)), (set_int_flag (int_flag st) st1). split; [done|].
  unfold MMU_alloc_pages, are_interrupts_enabled, CLI. do 3 (erewrite bind_ret; [|reflexivity]).
  cbn [kernel_va]. erewrite bind_ret; [|exact E].
  assert (∀ b s, int_flag s = false → restore_ints b s = Ret (tt, set_int_flag b s)) as Hri.
  { intros b s Hs. apply wp_eq. by apply wp_restore_ints. }
  destruct Hcase as [-> | ->]; cbn [bool_decide decide_rel].
  - erewrite bind_ret; [|reflexivity]. erewrite bind_ret; [|by apply Hri].
    change (kernel_va (set_int_flag false st)) with base.
    rewrite (u64_small num), u64_small by lia. rewrite bool_decide_true by done. done.
  - erewrite bind_ret; [|by apply Hri]. rewrite bool_decide_false by done. done.
Qed.

(** What a program sees of a reservation: the pages were not mapped and read as zeros
    now, everything else is as before. *)
Lemma reserve_vmem root lo n b k st p ok st' :
  reserve_result root lo n b k st p ok st' →
  ∃ j, (if ok then j = k else 0 ≤ j < k) ∧ ∀ va, in_slots lo n va →
    if decide (b ≤ vpn va < b + j)
    then vmem (pmem st) root va = None ∧ vmem (pmem st') root va = Some 0 ∧
         present (pte (pmem st) root va) = false
    else vmem (pmem st') root va = vmem (pmem st) root va ∧
         pte (pmem st') root va = pte (pmem st) root va.
Proof.
  intros (p' & j & He & Hk & _ & Hr & Hf & Hok). exists j. split; [destruct ok; lia|].
  intros va Hs. pose proof (Hr va Hs) as Hp. destruct (decide (b ≤ vpn va < b + j)) as [Hin|Hout].
  - destruct (Hf va Hs Hin) as [Hd Hpr]. unfold vmem. cbv zeta. rewrite Hp, Hpr, Hd.
    destruct (reserved_word_bits (pte (pmem st) root va)) as (-> & -> & _). done.
  - split; [|done]. by apply (vmem_keeps root lo n).
Qed.

Lemma space_kernel_va st root lo n p v : space st root lo n p → space (set_kernel_va v st) root lo n p.
Proof. intros [H1 H2 H3 H4 H5 H6]. by split. Qed.

(** The pages [b .. b+j-1] appeared, with zeros in them. *)
Definition pages_appear (root lo n b j : Z) (m m' : mem) : Prop :=
  ∀ va, in_slots lo n va →
    if decide (b ≤ vpn va < b + j) then vmem m root va = None ∧ vmem m' root va = Some 0
    else vmem m' root va = vmem m root va.

(** [MMU_alloc_pages] maps the next pages of the kernel heap, none of which was
    mapped and all of which read as zeros, and moves the heap pointer past them; or it
    answers NULL, leaves the heap pointer where it is, and only the pages before
    the one that failed appear. *)
Theorem MMU_alloc_pages_correct st lo n p num :
  space st (cr3 st) lo n p → let base := kernel_va st in
  base mod PAGE_SIZE = 0 → 0 ≤ num → lo * 2 ^ 39 ≤ base → base + num * PAGE_SIZE ≤ (lo + n) * 2 ^ 39 →
  ∃ r st' p', MMU_alloc_pages num st = Ret (r, st') ∧ space st' (cr3 st') lo n p' ∧
    ((r = base ∧ kernel_va st' = base + num * PAGE_SIZE ∧
      pages_appear (cr3 st) lo n (base / PAGE_SIZE) num (pmem st) (pmem st')) ∨
     (r = 0 ∧ kernel_va st' = base ∧ ∃ j, 0 ≤ j < num ∧
      pages_appear (cr3 st) lo n (base / PAGE_SIZE) j (pmem st) (pmem st'))).
Proof.
  intros Hsp base Hal Hnum Hlo Hhi.
  destruct (alloc_pages_spec st lo n p num Hsp Hal Hnum Hlo Hhi) as (ok & st1 & Hr & E). fold base in Hr, E.
  pose proof Hr as (p1 & _ & He & _). destruct (ev_vars _ _ _ _ _ _ _ He) as (_ & V2 & V3 & _).
  destruct (reserve_vmem _ _ _ _ _ _ _ _ _ Hr) as (j & Hj & Hv).
  assert (pages_appear (cr3 st) lo n (base / PAGE_SIZE) j (pmem st) (pmem st1)) as Ha.
  { intros va Hs. specialize (Hv va Hs). case_decide; naive_solver. }
  destruct ok.
  - eexists _, _, p1. split; [exact E|]. cbn. rewrite V3. split; [apply space_kernel_va, He|].
    left. split; [done|]. split; [done|]. by rewrite Hj in Ha.
  - eexists _, _, p1. split; [exact E|]. rewrite V3. split; [apply He|].
    right. split; [done|]. split; [done|]. by exists j.
Qed.

Lemma MMU_alloc_pages_witness :
  let st := heap_boot in let base := VA_KHEAP_BASE in
  ∃ r st' p', MMU_alloc_pages 3 st = Ret (r, st') ∧ space st' (cr3 st') 2 1 p' ∧
    ((r = base ∧ kernel_va st' = base + 3 * PAGE_SIZE ∧
      pages_appear (cr3 st) 2 1 (base / PAGE_SIZE) 3 (pmem st) (pmem st')) ∨
     (r = 0 ∧ kernel_va st' = base ∧ ∃ j, 0 ≤ j < 3 ∧
      pages_appear (cr3 st) 2 1 (base / PAGE_SIZE) j (pmem st) (pmem st'))).
Proof.
  apply (MMU_alloc_pages_correct heap_boot 2 1 _ 3 heap_boot_space); try lia; vm_compute; (reflexivity || discriminate).
Defined.

(** ** Words by virtual address *)

Definition vload64 (va : Z) : M mst Z := pa <- access va ;; load64 pa.
Definition vstore64 (va v : Z) : M mst unit := pa <- access va ;; store64 pa v.

(** [k] bytes of an address space, little endian. *)
Fixpoint vrd (k : nat) (m : mem) (root va : Z) : option Z :=
  match k with
  | O => Some 0
  | S k => b ← vmem m root va; r ← vrd k m root (va + 1); Some (b + 256 * r)
  end.

Lemma vrd_ext k m root m' root' va :
  (∀ i, 0 ≤ i < Z.of_nat k → vmem m' root' (va + i) = vmem m root (va + i)) →
  vrd k m' root' va = vrd k m root va.
Proof.
  revert va. induction k as [|k IH]; intros va H; [done|]. cbn [vrd].
  pose proof (H 0 ltac:(lia)) as H0. rewrite Z.add_0_r in H0. rewrite H0, IH; [done|].
  intros i Hi. replace (va + 1 + i) with (va + (i + 1)) by lia. apply H. lia.
Qed.

(** Addresses of one page. *)
Lemma same_page_next va i :
  0 ≤ i → va mod PAGE_SIZE + i < PAGE_SIZE →
  vpn (va + i) = vpn va ∧ (va + i) mod PAGE_SIZE = va mod PAGE_SIZE + i.
Proof.
  intros Hi Hlt. assert ((va + i) / 2 ^ 12 = va / 2 ^ 12) as E by (change PAGE_SIZE with (2 ^ 12) in Hlt; dlia).
  split; [unfold vpn; by rewrite E|]. change PAGE_SIZE with (2 ^ 12) in *. dlia.
Qed.

Lemma vrd_present k m root va :
  present (pte m root va) = true → va mod PAGE_SIZE + Z.of_nat k ≤ PAGE_SIZE →
  vrd k m root va = Some (rd k m (addr_of (pte m root va) + va mod PAGE_SIZE)).
Proof.
  revert va. induction k as [|k IH]; intros va Hp Hk; [done|]. cbn [vrd]. rewrite rd_S.
  assert (vmem m root va = Some (rd8 m (addr_of (pte m root va) + va mod PAGE_SIZE))) as ->
    by (unfold vmem; by rewrite Hp).
  cbn. destruct k as [|k]; [done|]. destruct (same_page_next va 1) as [Ev Em]; [lia|lia|].
  rewrite (IH (va + 1)); rewrite ?(pte_vpn _ _ _ _ Ev), ?Em; [|done|lia]. cbn. by rewrite Z.add_assoc.
Qed.

Lemma vrd_demand k m root va :
  present (pte m root va) = false → demand (pte m root va) = true →
  va mod PAGE_SIZE + Z.of_nat k ≤ PAGE_SIZE → vrd k m root va = Some 0.
Proof.
  revert va. induction k as [|k IH]; intros va Hp Hd Hk; [done|]. cbn [vrd].
  assert (vmem m root va = Some 0) as -> by (unfold vmem; by rewrite Hp, Hd).
  cbn. destruct k as [|k]; [done|]. destruct (same_page_next va 1) as [Ev Em]; [lia|lia|].
  rewrite (IH (va + 1)); rewrite ?(pte_vpn _ _ _ _ Ev), ?Em; [done|done|done|lia].
Qed.

Lemma vrd_vmem k m root va v : vrd (S k) m root va = Some v → is_Some (vmem m root va).
Proof. cbn. destruct (vmem m root va); [eauto|done]. Qed.

Lemma vrd_range k m root va v : vrd k m root va = Some v → 0 ≤ v < 256 ^ Z.of_nat k.
Proof.
  revert va v. induction k as [|k IH]; intros va v; cbn [vrd]; [intros [= <-]; lia|].
  destruct (vmem m root va) as [b|] eqn:Eb; [cbn|done].
  destruct (vrd k m root (va + 1)) as [r|] eqn:Er; [cbn|done]. intros [= <-]. specialize (IH _ _ Er).
  assert (0 ≤ b < 256).
  { unfold vmem in Eb. destruct (present _); [injection Eb as <-; apply rd8_range|].
    destruct (demand _); [injection Eb as <-; lia|done]. }
  rewrite Nat2Z.inj_succ, Z.pow_succ_r by lia. lia.
Qed.

(** ** The instance *)

(** The heap lies between [VA_KHEAP_BASE] and [VA_KSTACK_BASE]. *)
Definition in_heap (a : Z) : Prop := VA_KHEAP_BASE ≤ a < VA_KSTACK_BASE.

Lemma in_heap_slots a : in_heap a → in_slots 2 28 a.
Proof.
  intros [H1 H2]. unfold in_slots, tindex. change (3 + 9 * Z.of_nat 4) with 39.
  assert (2 ≤ a / 2 ^ 39 < 30) by dlia. rewrite Z.mod_small; lia.
Qed.

Lemma in_heap_mod a : in_heap a → a mod 2 ^ 48 = a.
Proof. intros [H1 H2]. change VA_KHEAP_BASE with (2 * 2 ^ 39) in *. change VA_KSTACK_BASE with (30 * 2 ^ 39) in *. dlia. Qed.

Lemma in_heap_word a i : in_heap a → a mod 8 = 0 → 0 ≤ i < 8 → in_heap (a + i).
Proof. unfold in_heap. intros. dlia. Qed.

#[export] Instance vpages_memory : KernelMemory mst := {|
  km_load64 := vload64;
  km_store64 := vstore64;
  km_alloc_page := MMU_alloc_page;
  km_alloc_pages := MMU_alloc_pages;
  km_free_pages := MMU_free_pages;
  km_ints := int_flag;
  km_set_ints := set_int_flag
|}.

Definition heap_space (st : mst) (k r : Z) : Prop :=
  ∃ p, space st (cr3 st) 2 28 p ∧ k = Z.of_nat (length p) ∧ kernel_va st mod PAGE_SIZE = 0 ∧
    0 ≤ r ∧ kernel_va st + r * PAGE_SIZE = VA_KSTACK_BASE ∧ VA_KHEAP_BASE ≤ kernel_va st.

Definition heap_word (st : mst) (a : Z) : option Z :=
  if decide (VA_KHEAP_BASE ≤ a < VA_KSTACK_BASE) then vrd 8 (pmem st) (cr3 st) a else None.

Definition heap_resident (st : mst) (a : Z) : Prop :=
  in_heap a ∧ present (pte (pmem st) (cr3 st) a) = true.

Lemma heap_word_inv st a v : heap_word st a = Some v → in_heap a ∧ vrd 8 (pmem st) (cr3 st) a = Some v.
Proof. unfold heap_word. case_decide; [by split|done]. Qed.

Lemma heap_word_in st a : in_heap a → heap_word st a = vrd 8 (pmem st) (cr3 st) a.
Proof. intros Ha. unfold heap_word. by rewrite decide_True. Qed.

(** Aligned words do not cross a page. *)
Lemma word_in_page a : a mod 8 = 0 → a mod PAGE_SIZE + Z.of_nat 8 ≤ PAGE_SIZE.
Proof. change PAGE_SIZE with (8 * 512). intros. dlia. Qed.

Lemma heap_page_vpn a b : a / PAGE_SIZE = b / PAGE_SIZE → vpn a = vpn b.
Proof. unfold vpn. change PAGE_SIZE with (2 ^ 12). by intros ->. Qed.

Lemma in_heap_page a b : in_heap a → b / PAGE_SIZE = a / PAGE_SIZE → in_heap b.
Proof.
  intros [H1 H2] E. change PAGE_SIZE with (2 ^ 12) in E. unfold in_heap.
  change VA_KHEAP_BASE with (2 ^ 28 * 2 ^ 12) in *. change VA_KSTACK_BASE with (30 * 2 ^ 27 * 2 ^ 12) in *. dlia.
Qed.

Lemma heap_word_same st st' a :
  in_heap a → a mod 8 = 0 → cr3 st' = cr3 st →
  (∀ i, 0 ≤ i < 8 → vmem (pmem st') (cr3 st) (a + i) = vmem (pmem st) (cr3 st) (a + i)) →
  heap_word st' a = heap_word st a.
Proof. intros Ha Ha8 Hcr H. rewrite !heap_word_in, Hcr by done. apply vrd_ext. exact H. Qed.

Lemma heap_load st k r a v :
  heap_space st k r → a mod 8 = 0 → heap_word st a = Some v → heap_resident st a →
  vload64 a st = Ret (v, st).
Proof.
  intros (p & Hsp & _) Ha Hv [Hin Hp]. apply heap_word_inv in Hv as [_ Hv]. apply wp_eq.
  unfold vload64, access. wp_step. wp_step. apply wp_gets.
  rewrite (translate_spec _ _ _ _ _ _ Hsp (in_heap_slots _ Hin)). cbv zeta. rewrite Hp. apply wp_ret, wp_gets.
  rewrite (vrd_present _ _ _ _ Hp (word_in_page _ Ha)) in Hv. injection Hv as <-. done.
Qed.

Lemma unchanged_wr64 m g x v : g ≤ x → x + 8 ≤ g + PAGE_SIZE → unchanged [g] m (wr64 m x v).
Proof. intros H1 H2 y Hy. apply (rd8_wr_out 8). destruct (Hy g); [left|lia|lia]. Qed.

(** The words after a store to a resident page. *)
Lemma heap_stored st p a v b :
  space st (cr3 st) 2 28 p → in_heap a → a mod 8 = 0 → b mod 8 = 0 → 0 ≤ v < 2 ^ 64 →
  present (pte (pmem st) (cr3 st) a) = true →
  let st' := set_pmem (wr64 (pmem st) (addr_of (pte (pmem st) (cr3 st) a) + a mod PAGE_SIZE) v) st in
  heap_word st' b = if decide (b = a) then Some v else heap_word st b.
Proof.
  intros Hsp Ha Ha8 Hb8 Hv Hp st'. set (g := addr_of (pte (pmem st) (cr3 st) a)) in *.
  pose proof (word_in_page a Ha8). pose proof (word_in_page b Hb8).
  pose proof (page_offset a). pose proof (page_offset b).
  assert (unchanged [g] (pmem st) (pmem st')) as Hun by (apply unchanged_wr64; lia).
  assert (∀ b', in_heap b' → pte (pmem st') (cr3 st) b' = pte (pmem st) (cr3 st) b') as Hpte.
  { intros b' Hb'. by apply (data_write_pte st _ 2 28 p a _ Hsp (in_heap_slots _ Ha) Hp Hun), in_heap_slots. }
  destruct (decide (b = a)) as [->|Hne].
  { rewrite heap_word_in by done. change (cr3 st') with (cr3 st).
    rewrite vrd_present by (rewrite ?Hpte; done). rewrite Hpte by done. fold g. f_equal. cbn [pmem st' set_pmem].
    change (rd 8) with rd64. by rewrite rd64_wr64_eq, u64_small. }
  unfold heap_word. case_decide as Hb; [|done]. change (cr3 st') with (cr3 st).
  destruct (decide (vpn b = vpn a)) as [E|E].
  - assert (pte (pmem st) (cr3 st) b = pte (pmem st) (cr3 st) a) as Ep by by apply pte_vpn.
    rewrite !vrd_present by (rewrite ?Hpte, ?Ep; done). rewrite Hpte, Ep by done. fold g. f_equal.
    change (rd 8) with rd64. cbn [pmem st' set_pmem]. apply rd64_wr64_ne.
    pose proof (va_split a) as Sa. pose proof (va_split b) as Sb. rewrite E in Sb.
    pose proof (in_heap_mod a Ha). pose proof (in_heap_mod b Hb).
    assert (a mod PAGE_SIZE mod 8 = 0) by (change PAGE_SIZE with (8 * 512); dlia).
    assert (b mod PAGE_SIZE mod 8 = 0) by (change PAGE_SIZE with (8 * 512); dlia). dlia.
  - apply vrd_ext. intros i Hi.
    rewrite (data_write_vmem st _ 2 28 p a _ Hsp (in_heap_slots _ Ha) Hp Hun); [|by apply in_heap_slots, in_heap_word].
    rewrite decide_False; [done|]. destruct (same_page_next b i) as [-> _]; [lia|lia|done].
Qed.

Lemma heap_space_evolves st k r p st' p' :
  heap_space st k r → evolves (cr3 st) 2 28 st p st' p' → heap_space st' (Z.of_nat (length p')) r.
Proof.
  intros (_ & _ & _ & H3 & H4 & H5 & H6) He. destruct (ev_vars _ _ _ _ _ _ _ He) as (_ & V2 & V3 & _).
  exists p'. rewrite V2, V3. split; [apply He|done].
Qed.

Lemma heap_store st k r a v w :
  heap_space st k r → a mod 8 = 0 → heap_word st a = Some w → 0 ≤ v < 2 ^ 64 →
  heap_resident st a ∨ 1 ≤ k →
  wp (vstore64 a v) st (λ _ st', ∃ k', heap_space st' k' r ∧ int_flag st' = int_flag st ∧
    (∀ b, b mod 8 = 0 → heap_word st' b = if decide (b = a) then Some v else heap_word st b) ∧
    (∀ b, heap_resident st b ∨ b / PAGE_SIZE = a / PAGE_SIZE → heap_resident st' b) ∧
    k - 1 ≤ k' ∧ (heap_resident st a → k' = k)).
Proof.
  intros Hsp Ha8 Hw Hv Hk. pose proof Hsp as (p & Hspace & -> & _).
  apply heap_word_inv in Hw as [Ha Hw]. pose proof (in_heap_slots _ Ha) as Hs.
  unfold vstore64. apply wp_bind. eapply wp_mono; [apply (access_spec st 2 28 p); [done|done| |]|].
  { by eapply vrd_vmem. }
  { destruct Hk as [[_ ?]|Hk]; [by left|right]. by intros ->. }
  cbv beta. intros pa st1 (p1 & [He Hvm Hp -> Hkept Hpool]). apply wp_modify.
  destruct (ev_vars _ _ _ _ _ _ _ He) as (_ & _ & V3 & V4).
  pose proof (heap_space_evolves _ _ _ _ _ _ Hsp He) as Hsp1. pose proof (ev_space _ _ _ _ _ _ _ He) as Hspace1.
  rewrite <-V3 in Hp, Hspace1 |- *. set (g := addr_of (pte (pmem st1) (cr3 st1) a)).
  pose proof (word_in_page a Ha8). pose proof (page_offset a).
  assert (unchanged [g] (pmem st1) (wr64 (pmem st1) (g + a mod PAGE_SIZE) v)) as Hun by (apply unchanged_wr64; lia).
  exists (Z.of_nat (length p1)). split; [|split; [done|split; [|split; [|split]]]].
  - by eapply (heap_space_evolves st1); [|by apply (data_write_evolves st1 _ 2 28 p1 a)].
  - intros b Hb. unfold g. rewrite (heap_stored st1 p1 a v b) by done. case_decide; [done|].
    unfold heap_word. case_decide as Hb'; [|done]. rewrite V3. apply vrd_ext.
    intros i Hi. by apply Hvm, in_heap_slots, in_heap_word.
  - intros b Hb. assert (in_heap b) as Hbi.
    { destruct Hb as [[? _]|Hb]; [done|]. by eapply in_heap_page. }
    split; [done|]. cbn. rewrite (data_write_pte st1 _ 2 28 p1 a _ Hspace1 Hs Hp Hun) by by apply in_heap_slots.
    destruct Hb as [[_ Hb]|Hb]; [rewrite V3; by apply Hkept; [apply in_heap_slots|]|].
    by rewrite (pte_vpn _ _ _ _ (heap_page_vpn _ _ Hb)).
  - destruct (present (pte (pmem st) (cr3 st) a)); [destruct Hpool as [_ ->]; lia|].
    destruct Hpool as [f ->]. cbn. lia.
  - intros [_ Hr]. rewrite Hr in Hpool. by destruct Hpool as [_ ->].
Qed.

Lemma vrd_zeros k m root va :
  (∀ i, 0 ≤ i < Z.of_nat k → vmem m root (va + i) = Some 0) → vrd k m root va = Some 0.
Proof.
  revert va. induction k as [|k IH]; intros va H; [done|]. cbn [vrd].
  pose proof (H 0 ltac:(lia)) as H0. rewrite Z.add_0_r in H0. rewrite H0. cbn.
  rewrite IH; [done|]. intros i Hi. rewrite <-Z.add_assoc. apply H. lia.
Qed.

Lemma heap_vpn a : in_heap a → vpn a = a / PAGE_SIZE.
Proof.
  intros Ha. unfold vpn. change PAGE_SIZE with (2 ^ 12). apply Z.mod_small.
  pose proof (in_heap_mod a Ha). dlia.
Qed.

(** The words of pages that appear. *)
Lemma heap_appear st st' p j ok n :
  space st (cr3 st) 2 28 p → cr3 st' = cr3 st → let base := kernel_va st in
  base mod PAGE_SIZE = 0 → VA_KHEAP_BASE ≤ base → 0 ≤ j ≤ n → base + n * PAGE_SIZE ≤ VA_KSTACK_BASE →
  (∀ va, in_slots 2 28 va →
    if decide (base / PAGE_SIZE ≤ vpn va < base / PAGE_SIZE + j)
    then vmem (pmem st) (cr3 st) va = None ∧ vmem (pmem st') (cr3 st) va = Some 0 ∧ ok va
    else vmem (pmem st') (cr3 st) va = vmem (pmem st) (cr3 st) va ∧
         pte (pmem st') (cr3 st) va = pte (pmem st) (cr3 st) va) →
  ∀ b, b mod 8 = 0 → if decide (base ≤ b < base + j * PAGE_SIZE)
    then heap_word st b = None ∧ heap_word st' b = Some 0 else heap_word st' b = heap_word st b.
Proof.
  intros Hsp Hcr base Hal Hlo Hj Hhi Hv b Hb8.
  destruct (decide (VA_KHEAP_BASE ≤ b < VA_KSTACK_BASE)) as [Hb|Hb].
  2: { rewrite decide_False by lia. unfold heap_word. by rewrite !decide_False. }
  rewrite !(heap_word_in _ _ Hb), Hcr. pose proof (heap_vpn b Hb) as Hvpn.
  pose proof (word_in_page b Hb8). pose proof (page_offset b).
  assert (∀ i, 0 ≤ i < 8 → in_slots 2 28 (b + i) ∧ vpn (b + i) = b / PAGE_SIZE) as Hi.
  { intros i Hi. rewrite <-Hvpn. split; [by apply in_heap_slots, in_heap_word|].
    apply same_page_next; lia. }
  destruct (decide (base ≤ b < base + j * PAGE_SIZE)) as [Hin|Hout].
  - split.
    + cbn. specialize (Hv b (in_heap_slots _ Hb)). rewrite decide_True in Hv by dlia. by destruct Hv as [-> _].
    + apply vrd_zeros. intros i Hi'. destruct (Hi i Hi') as [Hs E]. specialize (Hv _ Hs).
      rewrite E, decide_True in Hv by dlia. apply Hv.
  - apply vrd_ext. intros i Hi'. destruct (Hi i Hi') as [Hs E]. specialize (Hv _ Hs).
    rewrite E, decide_False in Hv by dlia. apply Hv.
Qed.

Lemma heap_alloc st k r n :
  heap_space st k r → 1 ≤ n ≤ r → n < 2 ^ 31 →
  wp (MMU_alloc_pages n) st (λ va st', ∃ k' r', heap_space st' k' r' ∧ int_flag st' = int_flag st ∧
    (∀ b, heap_resident st b → heap_resident st' b) ∧ k - 3 * n ≤ k' ∧
    ((va = 0 ∧ r' = r ∧ ∀ b v, b mod 8 = 0 → heap_word st b = Some v → heap_word st' b = Some v) ∨
     (0 < va ∧ va mod PAGE_SIZE = 0 ∧ va + n * PAGE_SIZE < 2 ^ 64 ∧ r' = r - n ∧
      ∀ b, b mod 8 = 0 → if decide (va ≤ b < va + n * PAGE_SIZE)
           then heap_word st b = None ∧ heap_word st' b = Some 0 else heap_word st' b = heap_word st b))).
Proof.
  intros Hh Hn _. pose proof Hh as (p & Hsp & -> & Hal & Hr & Hend & Hlo). set (base := kernel_va st) in *.
  change VA_KHEAP_BASE with (2 * 2 ^ 39) in *. change VA_KSTACK_BASE with ((2 + 28) * 2 ^ 39) in *.
  destruct (alloc_pages_spec st 2 28 p n Hsp Hal) as (ok & st1 & Hres & E); [lia|fold base; lia|fold base; lia|].
  fold base in Hres, E. pose proof Hres as (p1 & _ & He & _ & Hlen & _).
  destruct (ev_vars _ _ _ _ _ _ _ He) as (_ & V2 & V3 & V4).
  destruct (reserve_vmem _ _ _ _ _ _ _ _ _ Hres) as (j & Hj & Hv).
  assert (0 ≤ j ≤ n) as Hj' by (destruct ok; lia).
  pose proof (heap_appear st st1 p j _ n Hsp V3 Hal Hlo Hj' ltac:(lia) Hv) as Hw. fold base in Hw.
  assert (∀ b, heap_resident st b → heap_resident st1 b) as Hresi.
  { intros b [Hb Hp]. split; [done|]. specialize (Hv b (in_heap_slots _ Hb)). rewrite V3.
    case_decide; destruct Hv as [? Hv]; [|by rewrite Hv]. destruct Hv as [_ Hv]. by rewrite Hv in Hp. }
  pose proof (heap_space_evolves _ _ _ _ _ _ Hh He) as Hh1.
  destruct ok; (eapply wp_of_eq; [exact E|]); cbv beta.
  - exists (Z.of_nat (length p1)), (r - n). split; [|split; [done|split; [done|split; [lia|right]]]].
    + destruct Hh1 as (p2 & Hsp2 & Hl2 & _ & _ & _ & _). exists p2.
      split; [by apply space_kernel_va|]. split; [done|]. cbn. split; [dlia|]. lia.
    + subst j. repeat split; [lia|done|lia|done].
  - exists (Z.of_nat (length p1)), r. split; [done|]. split; [done|]. split; [done|]. split; [lia|left].
    split; [done|]. split; [done|]. intros b v Hb8 Hb. specialize (Hw b Hb8).
    case_decide; [|by rewrite Hw]. by destruct Hw as [Hw _]; rewrite Hw in Hb.
Qed.

(** [MMU_alloc_page] is [MMU_alloc_pages(1)]. *)
Lemma heap_alloc_1 st k r : heap_space st k r → MMU_alloc_page st = MMU_alloc_pages 1 st.
Proof.
  intros (p & _ & _ & Hal & Hr & Hend & Hlo). unfold MMU_alloc_page, MMU_alloc_pages, are_interrupts_enabled, CLI.
  change VA_KSTACK_BASE with (30 * 2 ^ 39) in Hend. change VA_KHEAP_BASE with (2 * 2 ^ 39) in Hlo.
  change (seqZ 0 1) with [0]. unfold for_ret, bind, gets, modify, ret. cbn [kernel_va set_int_flag].
  rewrite Z.mul_0_l, Z.add_0_r, (u64_small (kernel_va st)) by lia.
  destruct (demand_page (kernel_va st) _) as [[e s]| |]; [|done..]. by destruct (e <? 0).
Qed.

(** [MMU_free_pages] over the heap. *)
Lemma length_subseteq p p' : NoDup p → p ⊆ p' → (length p ≤ length p')%nat.
Proof. intros Hn Hs. apply submseteq_length, NoDup_submseteq; [done|]. intros x. apply Hs. Qed.

Definition freed_upto (st st' : mst) (va i : Z) : Prop :=
  ∀ a, in_heap a →
    if decide (va ≤ a < va + i * PAGE_SIZE) then vmem (pmem st') (cr3 st) a = None
    else vmem (pmem st') (cr3 st) a = vmem (pmem st) (cr3 st) a ∧
         pte (pmem st') (cr3 st) a = pte (pmem st) (cr3 st) a.

Lemma freed_next st st1 st2 va i p1 p2 :
  va mod PAGE_SIZE = 0 → 0 ≤ i → in_heap (va + i * PAGE_SIZE) → freed_upto st st1 va i →
  page_freed (cr3 st) 2 28 (va + i * PAGE_SIZE) st1 p1 st2 p2 → freed_upto st st2 va (i + 1).
Proof.
  intros Hal Hi Hh Hf Hpf a Ha. pose proof (in_heap_slots a Ha) as Hs. specialize (Hf a Ha).
  rewrite (pf_vmem _ _ _ _ _ _ _ _ Hpf a Hs), (pf_pte _ _ _ _ _ _ _ _ Hpf a Hs).
  rewrite !heap_vpn by done.
  destruct (decide (a / PAGE_SIZE = (va + i * PAGE_SIZE) / PAGE_SIZE)) as [E|E].
  - by rewrite decide_True by dlia.
  - destruct (decide (va ≤ a < va + i * PAGE_SIZE)).
    + by rewrite decide_True by lia.
    + by rewrite decide_False by dlia.
Qed.

Lemma free_pages_spec st p va n :
  space st (cr3 st) 2 28 p → va mod PAGE_SIZE = 0 → 0 ≤ n →
  (∀ i, 0 ≤ i < n → in_heap (va + i * PAGE_SIZE)) →
  wp (MMU_free_pages va n) st (λ _ st', ∃ p', evolves (cr3 st) 2 28 st p st' p' ∧
    (length p ≤ length p')%nat ∧ freed_upto st st' va n).
Proof.
  intros Hsp Hal Hn Hin. unfold MMU_free_pages. cbv zeta.
  eapply wp_mono. 1: apply (wp_for_each (λ done _ st', ∃ p', evolves (cr3 st) 2 28 st p st' p' ∧
    (length p ≤ length p')%nat ∧ freed_upto st st' va (Z.of_nat (length done)))).
  - exists p. split; [by apply evolves_refl|]. split; [done|]. intros a Ha. cbn. by rewrite decide_False by lia.
  - intros done i rest st1 Hl (p1 & He & Hlen & Hf). apply seqZ_split_index in Hl as [-> Hi].
    rewrite Z.add_0_l, length_app, Nat2Z.inj_add. set (i := Z.of_nat (length done)) in *. change (Z.of_nat (length [i])) with 1.
    pose proof (Hin 0 ltac:(lia)) as [H0 _]. pose proof (Hin i ltac:(lia)) as [Hi1 Hi2].
    assert (0 ≤ va) by (change VA_KHEAP_BASE with (2 ^ 40) in H0; lia).
    assert (va + i * PAGE_SIZE < 2 ^ 64) by (change VA_KSTACK_BASE with (30 * 2 ^ 39) in Hi2; lia).
    rewrite page_down_aligned, u64_small by (lia || done).
    assert (cr3 st1 = cr3 st) as Hcr by apply (ev_vars _ _ _ _ _ _ _ He).
    assert (page_down (va + i * PAGE_SIZE) = va + i * PAGE_SIZE) as Epd by (apply page_down_aligned; dlia).
    eapply wp_mono; [apply (MMU_free_page_spec st1 2 28 p1)|].
    + rewrite Hcr. apply He.
    + rewrite Epd. by apply in_heap_slots.
    + cbv beta. intros _ st2 (p2 & Hpf). rewrite Epd, Hcr in Hpf. exists p2.
      split; [eapply evolves_trans; [exact He|apply Hpf]|]. split.
      * etrans; [exact Hlen|]. apply length_subseteq; [|apply Hpf].
        apply (frames_inv_NoDup st1), (sp_frames _ _ _ _ _ (ev_space _ _ _ _ _ _ _ He)).
      * apply (freed_next st st1 st2 va i p1 p2); (done || lia).
  - cbv beta. intros _ st' (p' & He & Hlen & Hf). rewrite length_seqZ, Z2Nat.id in Hf by lia. eauto.
Qed.

Lemma heap_free st k r va n :
  heap_space st k r → va mod PAGE_SIZE = 0 → 0 ≤ n →
  (∀ b, va ≤ b < va + n * PAGE_SIZE → b mod 8 = 0 → is_Some (heap_word st b)) →
  wp (MMU_free_pages va n) st (λ _ st', ∃ k', heap_space st' k' r ∧ int_flag st' = int_flag st ∧ k ≤ k' ∧
    ∀ b, b mod 8 = 0 →
      (if decide (va ≤ b < va + n * PAGE_SIZE) then heap_word st' b = None
       else heap_word st' b = heap_word st b ∧ (heap_resident st b → heap_resident st' b))).
Proof.
  intros Hh Hal Hn Hmap. pose proof Hh as (p & Hsp & -> & _).
  eapply wp_mono; [apply (free_pages_spec st p va n Hsp Hal Hn)|].
  { intros i Hi. destruct (Hmap (va + i * PAGE_SIZE)) as [v Hv]; [lia|change PAGE_SIZE with (512 * 8) in *; dlia|].
    apply heap_word_inv in Hv as [Hv _]. exact Hv. }
  cbv beta. intros _ st' (p' & He & Hlen & Hf). destruct (ev_vars _ _ _ _ _ _ _ He) as (_ & _ & V3 & V4).
  exists (Z.of_nat (length p')). split; [by eapply heap_space_evolves|]. split; [done|]. split; [lia|].
  intros b Hb8. pose proof (word_in_page b Hb8). pose proof (page_offset b).
  destruct (decide (VA_KHEAP_BASE ≤ b < VA_KSTACK_BASE)) as [Hb|Hb].
  - rewrite !(heap_word_in _ _ Hb), V3. pose proof (Hf b Hb) as Hf0. case_decide as Hin.
    + cbn [vrd]. by rewrite Hf0.
    + split; [|intros [_ Hp]; split; [done|]; rewrite V3; by destruct Hf0 as [_ ->]].
      apply vrd_ext. intros i Hi. specialize (Hf (b + i) (in_heap_word b i Hb Hb8 Hi)).
      rewrite decide_False in Hf by dlia. apply Hf.
  - unfold heap_word, heap_resident, in_heap. rewrite !(decide_False (P := VA_KHEAP_BASE ≤ b < VA_KSTACK_BASE)) by done.
    case_decide; [done|]. split; [done|]. by intros [? _].
Qed.

#[export] Instance vpages_laws : KernelMemoryLaws mst.
Proof.
  refine {| km_inv := heap_space; km_word := heap_word; km_resident := heap_resident |}.
  - intros s k r a v _ [_ Hv]%heap_word_inv. by apply vrd_range in Hv.
  - intros s k r (p & _ & -> & _). lia.
  - intros s k r b (p & Hsp & H). exists p. split; [by apply (space_int_flag _ _ _ _ _ b) in Hsp|done].
  - done.
  - done.
  - done.
  - intros s a b E [Ha Hp]. assert (in_heap b) by (by eapply in_heap_page). split; [done|].
    by rewrite (pte_vpn _ _ _ _ (heap_page_vpn _ _ (eq_sym E))).
  - exact heap_load.
  - exact heap_store.
  - exact heap_alloc.
  - exact heap_alloc_1.
  - exact heap_free.
Defined.
