(* ===== verification/KmallocTheorems.v ===== *)
(** * The kernel heap: what its callers rely on

    The theorems hold over any memory that keeps the promises of
    [KernelMemoryLaws]; their witnesses run on the virtual memory manager. *)

From S2P Require Import Prelude Memory Frames Vpages PageTree VpagesMap VpagesPages VpagesExamples.
From S2P Require Import KernelMemory Kmalloc KmallocProofs VpagesHeap.

Section theorems.
Context {S : Type} `{!KernelMemory S, !KernelMemoryLaws S, !HeapLayout}.
Implicit Types (h : heap S) (fl : list (list Z)) (live : list alloc).

(** The counters of the pools do not overflow. *)
Definition counts_ok fl : Prop := Forall (λ l, Z.of_nat (length l) < 2 ^ 31 - 1) fl.

Lemma live_words_outside h fl live k r al a :
  heap_inv h fl (al :: live) k r → a ∈ al_words al → a ∉ live ≫= al_words.
Proof.
  intros [_ Hd] Ha Hl. pose proof (hd_nodup _ _ _ _ _ Hd) as Hn. unfold heap_words in Hn. cbn in Hn.
  rewrite !NoDup_app in Hn. destruct Hn as (_ & _ & _ & Hn & _). by apply (Hn a).
Qed.


(** C22: [kfree] takes back a block [kmalloc] answered: it goes to the front of its pool's
    list, or its pages are unmapped and their frames freed.  Nothing changes for
    the other blocks, the heap stays well formed and the interrupt flag is restored. *)
Theorem kfree_correct h fl live k r al :
  layout_ok → heap_inv h fl (al :: live) k r → counts_ok fl →
  ∃ h' k', kfree (al_block al + extra_size) h = Ret (tt, h') ∧ heap_inv h' (push_free al fl) live k' r ∧
    ints h' = ints h ∧ k ≤ k' ∧ (∀ a, a ∈ live ≫= al_words → word h' a = word h a) ∧
    (al_pool al = None → ∀ a, a ∈ al_words al → word h' a = None).
Proof.
  intros Hlay Hh Hc.
  destruct (proj1 (wp_iff _ _ _) (kfree_spec h fl live k r al Hlay Hh Hc)) as ([] & h' & E & k' & Hh' & Hk & Hi & Hw).
  by exists h', k'.
Qed.

(** A request for the size of the block freed last from its pool gets the same block
    back, needs no memory, and leaves the pools and the blocks in use as they were. *)
Theorem kfree_kmalloc h fl live k r al i :
  layout_ok → heap_inv h fl (al :: live) k r → counts_ok fl → al_pool al = Some i →
  (∀ j, (j < i)%nat → size_of j < al_size al + extra_size) →
  let p := al_block al + extra_size in
  ∃ h' k', (kfree p ;; kmalloc (al_size al)) h = Ret (p, h') ∧ ints h' = ints h ∧
    heap_inv h' fl (al :: live) k' r.
Proof.
  intros Hlay Hh Hc Hpool Hleast p.
  cut (wp (kfree p ;; kmalloc (al_size al)) h (λ q h', q = p ∧ ints h' = ints h ∧
    ∃ k', heap_inv h' fl (al :: live) k' r)).
  { intros (q & h' & E & -> & Hi & k' & Hh')%wp_iff. by exists h', k'. }
  pose proof (hd_live _ _ _ _ _ (proj2 Hh)) as Hl. apply Forall_cons in Hl as [Hlv _].
  destruct (lv_fits _ _ _ Hlv) as [Hs Hfit]. pose proof (lv_kind _ _ _ Hlv) as H6. rewrite Hpool in H6.
  destruct (hd_length _ _ _ _ _ (proj2 Hh)) as [_ L2].
  destruct (lookup_lt_is_Some_2 fl i) as [l Hil]; [lia|].
  pose proof (proj1 (Forall_lookup _ _) Hc i l Hil) as Hlen.
  wp_step. eapply wp_mono; [by apply (kfree_spec h fl live k r al)|]. cbv beta.
  intros _ h1 (k1 & Hh1 & _ & Hi1 & _). unfold push_free in Hh1. rewrite Hpool in Hh1.
  eapply wp_mono; [apply (kmalloc_hit h1 _ live k1 r i (al_block al) l _ Hlay Hh1); try done|].
  - by rewrite list_lookup_alter_eq, Hil.
  - unfold al_len in Hfit. by rewrite Hpool in Hfit.
  - cbv beta. intros q h2 (-> & Hi2 & k2 & Hh2). split; [done|]. split; [congruence|]. exists k2.
    assert (<[i := l]> (alter (λ l, al_block al :: l) i fl) = fl) as E.
    { apply list_eq. intros j. destruct (decide (j = i)) as [->|Hne].
      - rewrite list_lookup_insert_eq by (rewrite length_alter; lia). done.
      - by rewrite list_lookup_insert_ne, list_lookup_alter_ne. }
    rewrite E, <-Hpool in Hh2. by destruct al.
Qed.
End theorems.

(** ** A heap on the virtual memory manager *)

#[local] Instance demo_heap : HeapLayout := {| pools_addr := 0x93000 |}.

Lemma demo_layout_ok : layout_ok.
Proof. split; vm_compute; reflexivity. Qed.

(** The heap before the first request. *)
Lemma heap_data_init {HL : HeapLayout} (w : Z → option Z) (res : Z → Prop) : heap_data w res pools_init (replicate 6 []) [].
Proof.
  split; try done.
  - intros i l Hi. apply lookup_replicate in Hi as [-> Hi]. exists 0. split; [|done].
    by destruct i as [|[|[|[|[|[|i]]]]]]; [..|lia].
  - apply NoDup_nil_2.
  - intros a Ha. by apply elem_of_nil in Ha.
  - intros i l a [-> _]%lookup_replicate Ha. by apply elem_of_nil in Ha.
Qed.

Definition boot_heap : heap mst := Heap heap_boot pools_init.

Lemma boot_heap_inv : heap_inv boot_heap (replicate 6 []) [] 16 (28 * 2 ^ 27).
Proof.
  destruct heap_live_vars as (_ & _ & E & L). split; [|apply heap_data_init].
  eexists. split; [apply heap_boot_full|]. cbn [vm boot_heap]. rewrite E, L. repeat split; vm_compute; discriminate.
Qed.


(** A heap with a block in use. *)
Definition used_block : alloc := Alloc VA_KHEAP_BASE (Some 5%nat) 2000.
Definition used_free : list (list Z) := [[]; []; []; []; []; [VA_KHEAP_BASE + 2048]].
Definition used_heap : heap mst :=
  Heap heap_live [Pool 32 0 0; Pool 64 0 0; Pool 128 0 0; Pool 512 0 0; Pool 1024 0 0; Pool 2048 1 (VA_KHEAP_BASE + 2048)].

Lemma heap_live_word o :
  0 ≤ o < 4096 → o mod 8 = 0 →
  heap_resident heap_live (VA_KHEAP_BASE + o) ∧
  heap_word heap_live (VA_KHEAP_BASE + o) = Some (rd64 (pmem heap_live) (0x84000 + o)).
Proof.
  intros Ho H8. destruct heap_live_page as (Hp & Ha & _). change VA_KHEAP_BASE with (2 * 2 ^ 39) in *.
  destruct (same_page_next (2 * 2 ^ 39) o) as [Ev Em]; [lia|change PAGE_SIZE with 4096; change (2 * 2 ^ 39) with (2 ^ 28 * 4096); dlia|].
  assert (in_heap (2 * 2 ^ 39 + o)) as Hin by (unfold in_heap; change VA_KSTACK_BASE with (30 * 2 ^ 39); change VA_KHEAP_BASE with (2 * 2 ^ 39); lia).
  pose proof (pte_vpn (pmem heap_live) (cr3 heap_live) _ _ Ev) as Ep.
  split; [split; [done|by rewrite Ep]|]. rewrite heap_word_in by done.
  assert ((2 * 2 ^ 39 + o) mod 8 = 0) as H8' by dlia.
  rewrite (vrd_present 8 _ _ _ (eq_trans (f_equal present Ep) Hp) (word_in_page _ H8')). by rewrite Ep, Ha, Em.
Qed.

Lemma used_words : heap_words used_free [used_block] = block_words (VA_KHEAP_BASE + 2048) 2048 ++ block_words VA_KHEAP_BASE 2048.
Proof. unfold heap_words, free_words. cbn [imap used_free list_words concat]. by rewrite !app_nil_r. Qed.

Lemma used_heap_data (w : Z → option Z) (res : Z → Prop) :
  w VA_KHEAP_BASE = Some 0x93050 → w (VA_KHEAP_BASE + 8) = Some 2000 → w (VA_KHEAP_BASE + 2048) = Some 0 →
  (∀ o, 0 ≤ o < 4096 → o mod 8 = 0 → is_Some (w (VA_KHEAP_BASE + o))) →
  res VA_KHEAP_BASE → res (VA_KHEAP_BASE + 2048) → heap_data w res (pools used_heap) used_free [used_block].
Proof.
  intros W0 W8 W2 Hw R0 R2. split.
  - done.
  - intros i l Hi. exists (if decide (i = 5%nat) then VA_KHEAP_BASE + 2048 else 0).
    destruct i as [|[|[|[|[|[|i]]]]]]; [..|done]; injection Hi as <-; (split; [done|]); try done.
    split; [done|]. by exists 0.
  - rewrite used_words. apply NoDup_app. split; [apply block_words_NoDup|]. split; [|apply block_words_NoDup].
    intros x Hx Hx'. apply elem_of_block_words in Hx, Hx'; lia || done.
  - intros x. rewrite used_words. intros Hx.
    assert (0 ≤ x - VA_KHEAP_BASE < 4096 ∧ (x - VA_KHEAP_BASE) mod 8 = 0) as [H1 H2].
    { apply elem_of_app in Hx as [Hx|Hx]; apply elem_of_block_words in Hx; lia || done || dlia. }
    destruct (Hw _ H1 H2) as [v Hx']. rewrite Zplus_minus in Hx'. by exists v.
  - intros i l a Hi Ha. destruct i as [|[|[|[|[|[|i]]]]]]; [..|done]; injection Hi as <-;
      try (by apply elem_of_nil in Ha). apply list_elem_of_singleton in Ha as ->. done.
  - by repeat constructor.
Qed.

Lemma used_heap_inv : heap_inv used_heap used_free [used_block] 16 (28 * 2 ^ 27 - 1).
Proof.
  destruct heap_live_vars as (E & L & _). split.
  { eexists; split; [apply heap_live_full|]; cbn [vm used_heap]; rewrite E, L; repeat split; vm_compute; discriminate. }
  destruct heap_live_page as (_ & _ & W0 & W8 & W2). pose proof heap_live_word as Hw.
  destruct (Hw 0) as [R0 V0]; [split; reflexivity || discriminate|reflexivity|].
  destruct (Hw 8) as [R8 V8]; [split; reflexivity || discriminate|reflexivity|].
  destruct (Hw 2048) as [R2 V2]; [split; reflexivity || discriminate|reflexivity|].
  rewrite Z.add_0_r in R0, V0. apply used_heap_data.
  - exact (eq_trans V0 (f_equal Some W0)).
  - exact (eq_trans V8 (f_equal Some W8)).
  - exact (eq_trans V2 (f_equal Some W2)).
  - intros o Ho H8. eexists. apply (Hw o Ho H8).
  - exact R0.
  - exact R2.
Qed.

Lemma kfree_witness :
  let h := used_heap in
  ∃ h' k', kfree (al_block used_block + extra_size) h = Ret (tt, h') ∧
    heap_inv h' (push_free used_block used_free) [] k' (28 * 2 ^ 27 - 1) ∧ ints h' = ints h ∧ 16 ≤ k' ∧
    (∀ a, a ∈ [] ≫= al_words → word h' a = word h a) ∧
    (al_pool used_block = None → ∀ a, a ∈ al_words used_block → word h' a = None).
Proof.
  apply (kfree_correct used_heap used_free [] 16 (28 * 2 ^ 27 - 1) used_block demo_layout_ok used_heap_inv).
  by repeat constructor.
Defined.

Lemma kfree_kmalloc_witness :
  let p := al_block used_block + extra_size in
  ∃ h' k', (kfree p ;; kmalloc 2000) used_heap = Ret (p, h') ∧ ints h' = ints used_heap ∧
    heap_inv h' used_free [used_block] k' (28 * 2 ^ 27 - 1).
Proof.
  apply (kfree_kmalloc used_heap used_free [] 16 (28 * 2 ^ 27 - 1) used_block 5 demo_layout_ok used_heap_inv);
    [by repeat constructor|done|].
  intros j Hj. by destruct j as [|[|[|[|[|j]]]]]; [..|lia].
Defined.
