(* ===== verification/Bbuf.v ===== *)
(** * The bounded buffer ([src/kernel/bbuf.c])

    A ring of [size] cells between an interrupt handler and a thread, one cell of
    which is always free; the driver theorems use it as the FIFO queue of
    [bbuf_refines]. *)

From S2P Require Import Prelude.

(** [struct bbuf_st]: [buf] is the array behind the pointer. *)
Record bbuf_st := BBuf { buf : list Z; size : Z; head : Z; tail : Z }.

(** The buffer and the interrupt flag. *)
Record bbm := Bbm { bb : bbuf_st; bb_ints : bool }.

Definition set_bb (b : bbuf_st) (s : bbm) : bbm := Bbm b (bb_ints s).
Definition set_bb_ints (i : bool) (s : bbm) : bbm := Bbm (bb s) i.

(** [if (are_interrupts_enabled()) { enable_ints = 1; CLI(); }] ... [if (enable_ints) STI();] *)
Definition bb_cli : M bbm bool :=
  e <- gets bb_ints ;; (if e : bool then modify (set_bb_ints false) else ret tt) ;; ret e.
Definition bb_restore (enable_ints : bool) : M bbm unit :=
  if enable_ints then modify (set_bb_ints true) else ret tt.

Definition bbuf_init (array : list Z) (n : Z) : M bbm unit :=
  if n <? 2 then ret tt else modify (set_bb (BBuf array n 0 0)).

Definition bbuf_try_add (c : Z) : M bbm Z :=
  enable_ints <- bb_cli ;;
  st <- gets bb ;;
  let next := u64 (head st + 1) mod size st in
  r <- (if next =? tail st then ret (-1)
        else modify (set_bb (BBuf (<[Z.to_nat (head st) := c]> (buf st)) (size st) next (tail st))) ;; ret 0) ;;
  bb_restore enable_ints ;;
  ret r.

(** The answer, and what is stored to [*res]; [res] is NULL when [null] holds. *)
Definition bbuf_try_consume (null : bool) : M bbm (Z * option Z) :=
  if null then ret (-1, None) else
  enable_ints <- bb_cli ;;
  st <- gets bb ;;
  r <- (if head st =? tail st then ret (-1, None)
        else
          modify (set_bb (BBuf (buf st) (size st) (head st) (u64 (tail st + 1) mod size st))) ;;
          ret (0, buf st !! Z.to_nat (tail st))) ;;
  bb_restore enable_ints ;;
  ret r.

(** ** The queue it implements *)

Record bb_inv (st : bbuf_st) : Prop := {
  bi_size : 2 ≤ size st < 2 ^ 64;
  bi_buf : Z.of_nat (length (buf st)) = size st;
  bi_head : 0 ≤ head st < size st;
  bi_tail : 0 ≤ tail st < size st
}.

(** The characters stored and not yet consumed, oldest first. *)
Definition bb_len (st : bbuf_st) : Z := (head st - tail st) mod size st.
Definition bb_cell (st : bbuf_st) (i : Z) : Z := default 0 (buf st !! Z.to_nat ((tail st + i) mod size st)).
Definition bb_queue (st : bbuf_st) : list Z := bb_cell st <$> seqZ 0 (bb_len st).

Lemma bb_len_range st : bb_inv st → 0 ≤ bb_len st < size st.
Proof. intros [H _ _ _]. apply Z.mod_pos_bound. lia. Qed.

Lemma bb_queue_length st : bb_inv st → Z.of_nat (length (bb_queue st)) = bb_len st.
Proof. intros H. pose proof (bb_len_range st H). unfold bb_queue. rewrite length_fmap, length_seqZ. lia. Qed.

(** Successors in the ring. *)
Lemma ring_succ h n : 0 ≤ h < n → n < 2 ^ 64 → u64 (h + 1) mod n = if decide (h + 1 = n) then 0 else h + 1.
Proof.
  intros Hh Hn. rewrite u64_small by lia. case_decide as E; [by rewrite E, Z.mod_same by lia|].
  apply Z.mod_small. lia.
Qed.

(** [(a - b) mod n] for indices of the ring. *)
Lemma ring_sub a b n : 0 ≤ a < n → 0 ≤ b < n → (a - b) mod n = if decide (b ≤ a) then a - b else a - b + n.
Proof.
  intros Ha Hb. case_decide; [apply Z.mod_small; lia|].
  symmetry. apply (Z.mod_unique _ _ (-1)); lia.
Qed.

Lemma ring_add a i n : 0 ≤ a < n → 0 ≤ i < n → (a + i) mod n = if decide (a + i < n) then a + i else a + i - n.
Proof.
  intros Ha Hi. case_decide; [apply Z.mod_small; lia|].
  symmetry. apply (Z.mod_unique _ _ 1); lia.
Qed.

Lemma bb_init_inv array n :
  2 ≤ n < 2 ^ 64 → Z.of_nat (length array) = n →
  bb_inv (BBuf array n 0 0) ∧ bb_queue (BBuf array n 0 0) = [].
Proof. intros Hn Hl. split; [split; cbn; lia|]. unfold bb_queue, bb_len. cbn. by rewrite Z.mod_0_l by lia. Qed.

(** Adding when there is room. *)
Lemma bb_push st c :
  bb_inv st → let next := u64 (head st + 1) mod size st in next ≠ tail st →
  let st' := BBuf (<[Z.to_nat (head st) := c]> (buf st)) (size st) next (tail st) in
  bb_inv st' ∧ bb_queue st' = bb_queue st ++ [c].
Proof.
  intros Hinv next Hne st'. pose proof Hinv as [Hs Hb Hh Ht]. pose proof (bb_len_range st Hinv) as Hlen.
  assert (0 ≤ next < size st) as Hnext by (apply Z.mod_pos_bound; lia).
  split; [split; cbn; rewrite ?length_insert; lia|].
  assert (bb_len st' = bb_len st + 1) as El.
  { unfold bb_len. cbn [head tail size st']. rewrite !ring_sub by done. unfold next in *.
    rewrite ring_succ in * by lia. repeat case_decide; lia. }
  unfold bb_queue. rewrite El, seqZ_app by lia. cbn [seqZ]. rewrite fmap_app. f_equal.
  - apply list_fmap_ext. intros k i Hi%lookup_seqZ. unfold bb_cell. cbn [tail size st' buf]. f_equal.
    apply list_lookup_insert_ne. pose proof (ring_sub (head st) (tail st) (size st) Hh Ht) as Hd.
    fold (bb_len st) in Hd. rewrite ring_add by lia. repeat case_decide; lia.
  - change (seqZ (0 + bb_len st) 1) with [0 + bb_len st]. cbn [fmap list_fmap]. f_equal.
    unfold bb_cell. cbn [tail size st' buf].
    replace ((tail st + (0 + bb_len st)) mod size st) with (head st).
    + by rewrite list_lookup_insert_eq by lia.
    + unfold bb_len. rewrite ring_sub by done. case_decide; rewrite ring_add by lia; case_decide; lia.
Qed.

Lemma bb_full st : bb_inv st → u64 (head st + 1) mod size st = tail st ↔ bb_len st = size st - 1.
Proof.
  intros [Hs Hb Hh Ht]. unfold bb_len. rewrite ring_succ, ring_sub by lia. repeat case_decide; lia.
Qed.

Lemma bb_empty st : bb_inv st → head st = tail st ↔ bb_len st = 0.
Proof. intros [Hs Hb Hh Ht]. unfold bb_len. rewrite ring_sub by lia. case_decide; lia. Qed.

(** Consuming when there is something. *)
Lemma bb_pop st :
  bb_inv st → head st ≠ tail st →
  let st' := BBuf (buf st) (size st) (head st) (u64 (tail st + 1) mod size st) in
  ∃ c, buf st !! Z.to_nat (tail st) = Some c ∧ bb_inv st' ∧ bb_queue st = c :: bb_queue st'.
Proof.
  intros Hinv Hne st'. pose proof Hinv as [Hs Hb Hh Ht]. pose proof (bb_len_range st Hinv) as Hlen.
  assert (0 ≤ tail st' < size st) as Htl by (apply Z.mod_pos_bound; lia).
  destruct (lookup_lt_is_Some_2 (buf st) (Z.to_nat (tail st))) as [c Hc]; [lia|].
  exists c. split; [done|]. split; [by split|].
  assert (bb_len st = bb_len st' + 1) as El.
  { unfold bb_len. cbn [head tail size st']. rewrite !ring_sub by done.
    rewrite ring_succ in * by lia. repeat case_decide; lia. }
  assert (0 ≤ bb_len st') as Hl' by (apply Z.mod_pos_bound; cbn; lia).
  unfold bb_queue. rewrite El, Z.add_comm, seqZ_app by lia. change (seqZ 0 1) with [0]. cbn [fmap list_fmap app].
  f_equal.
  - unfold bb_cell. by rewrite Z.add_0_r, Z.mod_small, Hc by lia.
  - rewrite (Z.add_comm 0 1), <-fmap_add_seqZ. rewrite <-list_fmap_compose. apply list_fmap_ext. intros k i Hi%lookup_seqZ.
    unfold compose, bb_cell. cbn [tail size st' buf]. f_equal. f_equal. f_equal.
    rewrite u64_small by lia. rewrite Z.add_mod_idemp_l by lia. f_equal. lia.
Qed.

(** ** Refinement *)

Inductive bb_op := Add (c : Z) | Consume.

(** One call, with the answer its caller sees. *)
Definition bb_call (o : bb_op) : M bbm (Z * option Z) :=
  match o with
  | Add c => r <- bbuf_try_add c ;; ret (r, None)
  | Consume => bbuf_try_consume false
  end.

(** The same call on a queue of at most [n] characters. *)
Definition queue_call (n : Z) (o : bb_op) (q : list Z) : (Z * option Z) * list Z :=
  match o, q with
  | Add c, _ => if decide (Z.of_nat (length q) < n) then ((0, None), q ++ [c]) else ((-1, None), q)
  | Consume, [] => ((-1, None), [])
  | Consume, c :: q => ((0, Some c), q)
  end.

Fixpoint bb_run (ops : list bb_op) : M bbm (list (Z * option Z)) :=
  match ops with
  | [] => ret []
  | o :: ops => r <- bb_call o ;; rs <- bb_run ops ;; ret (r :: rs)
  end.

Fixpoint queue_run (n : Z) (ops : list bb_op) (q : list Z) : list (Z * option Z) * list Z :=
  match ops with
  | [] => ([], q)
  | o :: ops =>
      let '(r, q) := queue_call n o q in
      let '(rs, q) := queue_run n ops q in (r :: rs, q)
  end.

Lemma bb_restore_spec (b : bbuf_st) e Q :
  Q tt (Bbm b e) → wp (bb_restore e) (Bbm b false) Q.
Proof. by destruct e. Qed.

Lemma bb_cli_spec s Q : Q (bb_ints s) (Bbm (bb s) false) → wp bb_cli s Q.
Proof. destruct s as [b []]; intros H; exact H. Qed.

Lemma bb_call_spec o s :
  bb_inv (bb s) →
  wp (bb_call o) s (λ r s', bb_inv (bb s') ∧ size (bb s') = size (bb s) ∧ bb_ints s' = bb_ints s ∧
    queue_call (size (bb s) - 1) o (bb_queue (bb s)) = (r, bb_queue (bb s'))).
Proof.
  intros Hinv. pose proof (bb_queue_length _ Hinv) as Hlen. pose proof (bb_len_range _ Hinv).
  destruct o as [c|]; cbn [bb_call queue_call].
  - unfold bbuf_try_add. wp_step. wp_step. apply bb_cli_spec. wp_steps. cbn [bb].
    destruct (u64 (head (bb s) + 1) mod size (bb s) =? tail (bb s)) eqn:E; bool_prop; wp_steps;
      (apply bb_restore_spec || (unfold set_bb; cbn [bb_ints]; apply bb_restore_spec)); wp_steps; cbn [bb bb_ints].
    + apply bb_full in E; [|done]. by rewrite decide_False by lia.
    + destruct (bb_push _ c Hinv E) as [Hinv' Hq]. split; [done|]. split; [done|]. split; [done|].
      rewrite Hq, decide_True; [done|]. rewrite bb_full in E by done. lia.
  - unfold bbuf_try_consume. wp_step. apply bb_cli_spec. wp_steps. cbn [bb].
    destruct (head (bb s) =? tail (bb s)) eqn:E; bool_prop; wp_steps;
      (apply bb_restore_spec || (unfold set_bb; cbn [bb_ints]; apply bb_restore_spec)); wp_steps; cbn [bb bb_ints].
    + apply bb_empty in E; [|done]. split; [done|]. split; [done|]. split; [done|].
      destruct (bb_queue (bb s)); [done|cbn in Hlen; lia].
    + destruct (bb_pop _ Hinv E) as (c & Hc & Hinv' & Hq). split; [done|]. split; [done|]. split; [done|].
      by rewrite Hq, Hc.
Qed.

Lemma bb_run_spec ops s :
  bb_inv (bb s) →
  wp (bb_run ops) s (λ rs s', bb_inv (bb s') ∧ size (bb s') = size (bb s) ∧ bb_ints s' = bb_ints s ∧
    queue_run (size (bb s) - 1) ops (bb_queue (bb s)) = (rs, bb_queue (bb s'))).
Proof.
  revert s. induction ops as [|o ops IH]; intros s Hinv; cbn [bb_run queue_run]; [by apply wp_ret|].
  wp_step. eapply wp_mono; [by apply bb_call_spec|]. cbv beta. intros r s1 (Hinv1 & Hs1 & Hi1 & ->).
  wp_step. eapply wp_mono; [by apply IH|]. cbv beta. intros rs s2 (Hinv2 & Hs2 & Hi2 & Hr).
  wp_step. rewrite <-Hs1. rewrite Hr. split; [done|]. split; [congruence|]. split; [congruence|done].
Qed.

(** C32: after [bbuf_init] on an array of at least two cells, every sequence of adds and
    consumes answers what a FIFO queue of [size - 1] characters answers: each
    character comes out once, in order, an add to a full buffer and a consume of an
    empty one answer -1 and change nothing; the interrupt flag is left as it was. *)
Theorem bbuf_refines array ops s :
  let n := Z.of_nat (length array) in 2 ≤ n < 2 ^ 64 →
  ∃ s0 rs s', bbuf_init array n s = Ret (tt, s0) ∧ bb_run ops s0 = Ret (rs, s') ∧
    queue_run (n - 1) ops [] = (rs, bb_queue (bb s')) ∧ bb_inv (bb s') ∧ bb_ints s' = bb_ints s.
Proof.
  intros n Hn. destruct (bb_init_inv array n Hn eq_refl) as [Hinv Hq].
  exists (set_bb (BBuf array n 0 0) s).
  destruct (proj1 (wp_iff _ _ _) (bb_run_spec ops (set_bb (BBuf array n 0 0) s) Hinv))
    as (rs & s' & E & Hinv' & _ & Hi & Hr).
  change (bb (set_bb (BBuf array n 0 0) s)) with (BBuf array n 0 0) in Hr. rewrite Hq in Hr.
  exists rs, s'. split; [|done]. unfold bbuf_init. by rewrite (proj2 (Z.ltb_ge n 2)) by lia.
Qed.

Lemma bbuf_refines_witness :
  let ops := [Add 7; Consume; Add 8; Add 9; Add 10; Consume; Consume] in
  ∃ s0 rs s', bbuf_init [0; 0; 0] 3 (Bbm (BBuf [] 0 0 0) true) = Ret (tt, s0) ∧ bb_run ops s0 = Ret (rs, s') ∧
    queue_run 2 ops [] = (rs, bb_queue (bb s')) ∧ bb_inv (bb s') ∧ bb_ints s' = true.
Proof. apply (bbuf_refines [0; 0; 0] [Add 7; Consume; Add 8; Add 9; Add 10; Consume; Consume]). by vm_compute. Defined.
