(* ===== verification/Links.v ===== *)
(** * Singly linked lists in a store

    The process tree, the ready ring, the wait queues and the mutex list are linked
    through a field of their nodes.  [f p] is that field of the node at [p],
    [None] where there is no node; [lseg f h l e] says that following [f] from [h]
    visits the nodes [l] and arrives at [e]. *)

From S2P Require Import Prelude.

Fixpoint lseg (f : Z → option Z) (h : Z) (l : list Z) (e : Z) : Prop :=
  match l with
  | [] => h = e
  | p :: l => h = p ∧ p ≠ 0 ∧ ∃ n, f p = Some n ∧ lseg f n l e
  end.

Implicit Types (f g : Z → option Z) (l : list Z).

Lemma lseg_app f h l1 l2 e : lseg f h (l1 ++ l2) e ↔ ∃ m, lseg f h l1 m ∧ lseg f m l2 e.
Proof.
  revert h. induction l1 as [|p l1 IH]; intros h; cbn.
  - split; [eauto|by intros (m & -> & H)].
  - setoid_rewrite IH. naive_solver.
Qed.

Lemma lseg_snoc f h l p e : lseg f h (l ++ [p]) e ↔ lseg f h l p ∧ p ≠ 0 ∧ f p = Some e.
Proof. rewrite lseg_app. cbn. naive_solver. Qed.

Lemma lseg_ext f g h l e : (∀ p, p ∈ l → g p = f p) → lseg f h l e → lseg g h l e.
Proof.
  revert h. induction l as [|p l IH]; intros h Hfg; [done|]. intros (-> & Hp & n & Hn & Hl).
  split; [done|]. split; [done|]. exists n. rewrite Hfg by left. split; [done|].
  apply IH; [|done]. intros q Hq. apply Hfg. by right.
Qed.

(** The head of a list, and its nodes. *)
Lemma lseg_head f h l e : lseg f h l e → h = default e (list.head l).
Proof. destruct l; [done|]. by intros (-> & _). Qed.

Lemma lseg_nonzero f h l e p : lseg f h l e → p ∈ l → p ≠ 0 ∧ is_Some (f p).
Proof.
  revert h. induction l as [|q l IH]; intros h; [by intros _ ?%elem_of_nil|].
  intros (-> & Hq & n & Hn & Hl) [->|Hp]%elem_of_cons; [eauto|by eapply IH].
Qed.

Lemma lseg_empty f l e : lseg f 0 l e → l = [] ∧ e = 0.
Proof. destruct l as [|p l]; [done|]. by intros (<- & ? & _). Qed.

Lemma lseg_lookup f h l e i p :
  lseg f h l e → l !! i = Some p → f p = Some (default e (l !! S i)).
Proof.
  revert h i. induction l as [|q l IH]; intros h i Hl Hi; [done|].
  destruct Hl as (-> & Hq & n & Hn & Hl). destruct i as [|i]; [|by apply (IH n)].
  injection Hi as ->. rewrite Hn. f_equal. cbn. apply lseg_head in Hl as ->. by destruct l.
Qed.

(** Two lists from the same head to NULL are the same. *)
Lemma lseg_inj f h l l' : lseg f h l 0 → lseg f h l' 0 → l = l'.
Proof.
  revert h l'. induction l as [|p l IH]; intros h l' Hl Hl'.
  - cbn in Hl. subst. by apply lseg_empty in Hl' as [-> _].
  - destruct Hl as (-> & Hp & n & Hn & Hl). destruct l' as [|q l']; [by cbn in Hl'|].
    destruct Hl' as (<- & _ & n' & Hn' & Hl'). simplify_eq. f_equal. by eapply IH.
Qed.

(** ** Updates *)

Definition upd f (p v : Z) : Z → option Z := λ q, if decide (q = p) then Some v else f q.

Lemma upd_eq f p v : upd f p v p = Some v.
Proof. unfold upd. by rewrite decide_True. Qed.

Lemma upd_ne f p v q : q ≠ p → upd f p v q = f q.
Proof. intros. unfold upd. by rewrite decide_False. Qed.

Lemma lseg_upd f h l e p v : p ∉ l → lseg f h l e → lseg (upd f p v) h l e.
Proof. intros Hp. apply lseg_ext. intros q Hq. apply upd_ne. by intros ->. Qed.

(** A new node in front. *)
Lemma lseg_push f h l e p : p ≠ 0 → p ∉ l → lseg f h l e → lseg (upd f p h) p (p :: l) e.
Proof. intros H0 Hp Hl. split; [done|]. split; [done|]. exists h. rewrite upd_eq. split; [done|]. by apply lseg_upd. Qed.

(** The last node gets a new successor. *)
Lemma lseg_retarget f h l p e e' :
  p ∉ l → lseg f h (l ++ [p]) e → lseg (upd f p e') h (l ++ [p]) e'.
Proof.
  rewrite !lseg_snoc. intros Hp (Hl & H0 & _). split; [by apply lseg_upd|]. by rewrite upd_eq.
Qed.

(** Taking out a node: its predecessor is linked to its successor. *)
Lemma lseg_unlink f h l1 q p l2 e n :
  NoDup (l1 ++ q :: p :: l2) → lseg f h (l1 ++ q :: p :: l2) e → f p = Some n →
  lseg (upd f q n) h (l1 ++ q :: l2) e.
Proof.
  intros Hnd Hl Hn. apply lseg_app in Hl as (m & H1 & -> & Hq & m' & Hq' & -> & Hp & m'' & Hp' & H2).
  simplify_eq. apply NoDup_app in Hnd as (_ & Hd & Hnd). apply NoDup_cons in Hnd as [Hq2 _].
  apply lseg_app. exists q. split.
  - apply lseg_upd; [|done]. intros Hin. by apply (Hd q Hin); left.
  - split; [done|]. split; [done|]. eexists. rewrite upd_eq. split; [done|].
    apply lseg_upd; [|done]. intros Hin. apply Hq2. by right.
Qed.

(** Taking out any node: the head moves when it is the first. *)
Lemma lseg_remove f h l1 p l2 n :
  NoDup (l1 ++ p :: l2) → lseg f h (l1 ++ p :: l2) 0 → f p = Some n →
  match last l1 with
  | None => l1 = [] ∧ lseg f n l2 0
  | Some q => q ≠ 0 ∧ q ≠ p ∧ is_Some (f q) ∧ lseg (upd f q n) h (l1 ++ l2) 0
  end.
Proof.
  intros Hnd Hl Hn. destruct l1 as [|q l1 _] using rev_ind.
  - cbn in *. destruct Hl as (_ & _ & n' & Hn' & Hl). split; [done|]. congruence.
  - rewrite last_snoc. rewrite <-(assoc_L app) in *. cbn [app] in *.
    destruct (lseg_nonzero f h _ 0 q Hl) as [H0 Hq]; [apply elem_of_app; right; left|]. split; [done|].
    split; [|split; [done|by apply (lseg_unlink f h l1 q p l2 0 n)]].
    apply NoDup_app in Hnd as (_ & _ & [Hnq _]%NoDup_cons). intros ->. apply Hnq. left.
Qed.
