(* ===== verification/Kernel.v ===== *)
(** * The state of the multitasking kernel

    Threads, processes and mutexes are nodes in stores indexed by their address;
    a pointer is an address, 0 for NULL, and following one that leads to no node
    stops the model.  The rest of the kernel, the heap and the virtual memory
    manager, is behind the operations of [KernelEnv]. *)

From S2P Require Import Prelude.

(** ** [include/kernel/multitask.h] *)

Inductive proc_state_t := PROC_READY | PROC_RUNNING | PROC_BLOCKED | PROC_ZOMBIE.
#[export] Instance proc_state_eq_dec : EqDecision proc_state_t.
Proof. solve_decision. Defined.

Record proc_queue := Queue { q_head : Z; q_tail : Z }.

(** Of the register file [state] the kernel only uses [rsp]. *)
Record thread_st := Thread {
  tid : Z;
  kstack : Z;
  ustack : Z;
  stacksize : Z;
  owner : Z;
  rsp : Z;
  run_state : proc_state_t;
  exit_status : Z;
  next_thread : Z;
  lib_one : Z;
  lib_two : Z;
  sched_one : Z;
  sched_two : Z;
  exited : Z
}.

Record process_st := Process {
  pid : Z;
  cr3 : Z;
  parent : Z;
  first_child : Z;
  next_sibling : Z;
  threads : Z;
  live_threads : Z;
  p_exit_status : Z;
  exiting : Z;
  zombie : Z;
  wait_child_exit : proc_queue;
  wait_thread_exit : proc_queue
}.

(** A node of the list in [multitask/mutex_syscalls.c]. *)
Record kernel_mutex_st := Mutex {
  mutex_id : Z;
  owner_process : Z;
  owner_thread : Z;
  waiters : proc_queue;
  next : Z
}.

(** Assignments to a field. *)
Definition set_tid (v : Z) (t : thread_st) : thread_st :=
  Thread v (kstack t) (ustack t) (stacksize t) (owner t) (rsp t) (run_state t) (exit_status t) (next_thread t) (lib_one t) (lib_two t) (sched_one t) (sched_two t) (exited t).
Definition set_kstack (v : Z) (t : thread_st) : thread_st :=
  Thread (tid t) v (ustack t) (stacksize t) (owner t) (rsp t) (run_state t) (exit_status t) (next_thread t) (lib_one t) (lib_two t) (sched_one t) (sched_two t) (exited t).
Definition set_ustack (v : Z) (t : thread_st) : thread_st :=
  Thread (tid t) (kstack t) v (stacksize t) (owner t) (rsp t) (run_state t) (exit_status t) (next_thread t) (lib_one t) (lib_two t) (sched_one t) (sched_two t) (exited t).
Definition set_stacksize (v : Z) (t : thread_st) : thread_st :=
  Thread (tid t) (kstack t) (ustack t) v (owner t) (rsp t) (run_state t) (exit_status t) (next_thread t) (lib_one t) (lib_two t) (sched_one t) (sched_two t) (exited t).
Definition set_owner (v : Z) (t : thread_st) : thread_st :=
  Thread (tid t) (kstack t) (ustack t) (stacksize t) v (rsp t) (run_state t) (exit_status t) (next_thread t) (lib_one t) (lib_two t) (sched_one t) (sched_two t) (exited t).
Definition set_rsp (v : Z) (t : thread_st) : thread_st :=
  Thread (tid t) (kstack t) (ustack t) (stacksize t) (owner t) v (run_state t) (exit_status t) (next_thread t) (lib_one t) (lib_two t) (sched_one t) (sched_two t) (exited t).
Definition set_run_state (v : proc_state_t) (t : thread_st) : thread_st :=
  Thread (tid t) (kstack t) (ustack t) (stacksize t) (owner t) (rsp t) v (exit_status t) (next_thread t) (lib_one t) (lib_two t) (sched_one t) (sched_two t) (exited t).
Definition set_exit_status (v : Z) (t : thread_st) : thread_st :=
  Thread (tid t) (kstack t) (ustack t) (stacksize t) (owner t) (rsp t) (run_state t) v (next_thread t) (lib_one t) (lib_two t) (sched_one t) (sched_two t) (exited t).
Definition set_next_thread (v : Z) (t : thread_st) : thread_st :=
  Thread (tid t) (kstack t) (ustack t) (stacksize t) (owner t) (rsp t) (run_state t) (exit_status t) v (lib_one t) (lib_two t) (sched_one t) (sched_two t) (exited t).
Definition set_lib_one (v : Z) (t : thread_st) : thread_st :=
  Thread (tid t) (kstack t) (ustack t) (stacksize t) (owner t) (rsp t) (run_state t) (exit_status t) (next_thread t) v (lib_two t) (sched_one t) (sched_two t) (exited t).
Definition set_sched_one (v : Z) (t : thread_st) : thread_st :=
  Thread (tid t) (kstack t) (ustack t) (stacksize t) (owner t) (rsp t) (run_state t) (exit_status t) (next_thread t) (lib_one t) (lib_two t) v (sched_two t) (exited t).

Definition set_pid (v : Z) (p : process_st) : process_st :=
  Process v (cr3 p) (parent p) (first_child p) (next_sibling p) (threads p) (live_threads p) (p_exit_status p) (exiting p) (zombie p) (wait_child_exit p) (wait_thread_exit p).
Definition set_cr3 (v : Z) (p : process_st) : process_st :=
  Process (pid p) v (parent p) (first_child p) (next_sibling p) (threads p) (live_threads p) (p_exit_status p) (exiting p) (zombie p) (wait_child_exit p) (wait_thread_exit p).
Definition set_parent (v : Z) (p : process_st) : process_st :=
  Process (pid p) (cr3 p) v (first_child p) (next_sibling p) (threads p) (live_threads p) (p_exit_status p) (exiting p) (zombie p) (wait_child_exit p) (wait_thread_exit p).
Definition set_first_child (v : Z) (p : process_st) : process_st :=
  Process (pid p) (cr3 p) (parent p) v (next_sibling p) (threads p) (live_threads p) (p_exit_status p) (exiting p) (zombie p) (wait_child_exit p) (wait_thread_exit p).
Definition set_next_sibling (v : Z) (p : process_st) : process_st :=
  Process (pid p) (cr3 p) (parent p) (first_child p) v (threads p) (live_threads p) (p_exit_status p) (exiting p) (zombie p) (wait_child_exit p) (wait_thread_exit p).
Definition set_threads (v : Z) (p : process_st) : process_st :=
  Process (pid p) (cr3 p) (parent p) (first_child p) (next_sibling p) v (live_threads p) (p_exit_status p) (exiting p) (zombie p) (wait_child_exit p) (wait_thread_exit p).
Definition set_live_threads (v : Z) (p : process_st) : process_st :=
  Process (pid p) (cr3 p) (parent p) (first_child p) (next_sibling p) (threads p) v (p_exit_status p) (exiting p) (zombie p) (wait_child_exit p) (wait_thread_exit p).
Definition set_p_exit_status (v : Z) (p : process_st) : process_st :=
  Process (pid p) (cr3 p) (parent p) (first_child p) (next_sibling p) (threads p) (live_threads p) v (exiting p) (zombie p) (wait_child_exit p) (wait_thread_exit p).
Definition set_exiting (v : Z) (p : process_st) : process_st :=
  Process (pid p) (cr3 p) (parent p) (first_child p) (next_sibling p) (threads p) (live_threads p) (p_exit_status p) v (zombie p) (wait_child_exit p) (wait_thread_exit p).
Definition set_zombie (v : Z) (p : process_st) : process_st :=
  Process (pid p) (cr3 p) (parent p) (first_child p) (next_sibling p) (threads p) (live_threads p) (p_exit_status p) (exiting p) v (wait_child_exit p) (wait_thread_exit p).
Definition set_wait_child_exit (v : proc_queue) (p : process_st) : process_st :=
  Process (pid p) (cr3 p) (parent p) (first_child p) (next_sibling p) (threads p) (live_threads p) (p_exit_status p) (exiting p) (zombie p) v (wait_thread_exit p).
Definition set_wait_thread_exit (v : proc_queue) (p : process_st) : process_st :=
  Process (pid p) (cr3 p) (parent p) (first_child p) (next_sibling p) (threads p) (live_threads p) (p_exit_status p) (exiting p) (zombie p) (wait_child_exit p) v.

Definition set_owner_thread (v : Z) (m : kernel_mutex_st) : kernel_mutex_st :=
  Mutex (mutex_id m) (owner_process m) v (waiters m) (next m).
Definition set_waiters (v : proc_queue) (m : kernel_mutex_st) : kernel_mutex_st :=
  Mutex (mutex_id m) (owner_process m) (owner_thread m) v (next m).
Definition set_next (v : Z) (m : kernel_mutex_st) : kernel_mutex_st :=
  Mutex (mutex_id m) (owner_process m) (owner_thread m) (waiters m) v.

Definition DEFAULT_STACK_BYTES : Z := 8 * 1024.
Definition NO_THREAD : Z := 0.
Definition CLONE_PROCESS : Z := 0.
Definition CLONE_THREAD : Z := 1.

(** [struct elf_image] *)
Record elf_image := Image { im_cr3 : Z; im_entry : Z; im_ustack_base : Z; im_ustack_top : Z }.

(** ** What the multitasking code calls *)

Class KernelEnv (E : Type) := {
  ke_ints : E → bool;
  ke_set_ints : bool → E → E;
  ke_kmalloc : Z → M E Z;
  ke_kfree : Z → M E unit;
  ke_load8 : Z → M E Z;
  ke_store8 : Z → Z → M E unit;
  ke_load64 : Z → M E Z;
  ke_store64 : Z → Z → M E unit;
  ke_store32 : Z → Z → M E unit;
  ke_kernel_p4 : E → Z;
  ke_switch_p4 : Z → M E unit;
  ke_clone_userspace : Z → M E Z;
  ke_destroy_userspace : Z → M E unit
}.

(** ** The state

    The static variables of [round_robin.c], [multitask.c] and [mutex_syscalls.c],
    and [rsp0] of the TSS; [queue_at] holds the wait queues of the drivers. *)
Record kst (E : Type) := KState {
  thread_at : gmap Z thread_st;
  process_at : gmap Z process_st;
  mutex_at : gmap Z kernel_mutex_st;
  queue_at : gmap Z proc_queue;
  Head : Z;
  Tail : Z;
  Current : Z;
  Count : Z;
  curr_proc : Z;
  next_proc : Z;
  next_pid : Z;
  next_tid : Z;
  multitask_started : bool;
  mutex_list : Z;
  next_mutex_id : Z;
  rsp0 : Z;
  env : E
}.
Arguments KState {E}.
Arguments thread_at {E}.
Arguments process_at {E}.
Arguments mutex_at {E}.
Arguments queue_at {E}.
Arguments Head {E}.
Arguments Tail {E}.
Arguments Current {E}.
Arguments Count {E}.
Arguments curr_proc {E}.
Arguments next_proc {E}.
Arguments next_pid {E}.
Arguments next_tid {E}.
Arguments multitask_started {E}.
Arguments mutex_list {E}.
Arguments next_mutex_id {E}.
Arguments rsp0 {E}.
Arguments env {E}.

Definition set_thread_at {E} (v : gmap Z thread_st) (s : kst E) : kst E :=
  KState v (process_at s) (mutex_at s) (queue_at s) (Head s) (Tail s) (Current s) (Count s) (curr_proc s) (next_proc s) (next_pid s) (next_tid s) (multitask_started s) (mutex_list s) (next_mutex_id s) (rsp0 s) (env s).
Definition set_process_at {E} (v : gmap Z process_st) (s : kst E) : kst E :=
  KState (thread_at s) v (mutex_at s) (queue_at s) (Head s) (Tail s) (Current s) (Count s) (curr_proc s) (next_proc s) (next_pid s) (next_tid s) (multitask_started s) (mutex_list s) (next_mutex_id s) (rsp0 s) (env s).
Definition set_mutex_at {E} (v : gmap Z kernel_mutex_st) (s : kst E) : kst E :=
  KState (thread_at s) (process_at s) v (queue_at s) (Head s) (Tail s) (Current s) (Count s) (curr_proc s) (next_proc s) (next_pid s) (next_tid s) (multitask_started s) (mutex_list s) (next_mutex_id s) (rsp0 s) (env s).
Definition set_queue_at {E} (v : gmap Z proc_queue) (s : kst E) : kst E :=
  KState (thread_at s) (process_at s) (mutex_at s) v (Head s) (Tail s) (Current s) (Count s) (curr_proc s) (next_proc s) (next_pid s) (next_tid s) (multitask_started s) (mutex_list s) (next_mutex_id s) (rsp0 s) (env s).
Definition set_Head {E} (v : Z) (s : kst E) : kst E :=
  KState (thread_at s) (process_at s) (mutex_at s) (queue_at s) v (Tail s) (Current s) (Count s) (curr_proc s) (next_proc s) (next_pid s) (next_tid s) (multitask_started s) (mutex_list s) (next_mutex_id s) (rsp0 s) (env s).
Definition set_Tail {E} (v : Z) (s : kst E) : kst E :=
  KState (thread_at s) (process_at s) (mutex_at s) (queue_at s) (Head s) v (Current s) (Count s) (curr_proc s) (next_proc s) (next_pid s) (next_tid s) (multitask_started s) (mutex_list s) (next_mutex_id s) (rsp0 s) (env s).
Definition set_Current {E} (v : Z) (s : kst E) : kst E :=
  KState (thread_at s) (process_at s) (mutex_at s) (queue_at s) (Head s) (Tail s) v (Count s) (curr_proc s) (next_proc s) (next_pid s) (next_tid s) (multitask_started s) (mutex_list s) (next_mutex_id s) (rsp0 s) (env s).
Definition set_Count {E} (v : Z) (s : kst E) : kst E :=
  KState (thread_at s) (process_at s) (mutex_at s) (queue_at s) (Head s) (Tail s) (Current s) v (curr_proc s) (next_proc s) (next_pid s) (next_tid s) (multitask_started s) (mutex_list s) (next_mutex_id s) (rsp0 s) (env s).
Definition set_curr_proc {E} (v : Z) (s : kst E) : kst E :=
  KState (thread_at s) (process_at s) (mutex_at s) (queue_at s) (Head s) (Tail s) (Current s) (Count s) v (next_proc s) (next_pid s) (next_tid s) (multitask_started s) (mutex_list s) (next_mutex_id s) (rsp0 s) (env s).
Definition set_next_proc {E} (v : Z) (s : kst E) : kst E :=
  KState (thread_at s) (process_at s) (mutex_at s) (queue_at s) (Head s) (Tail s) (Current s) (Count s) (curr_proc s) v (next_pid s) (next_tid s) (multitask_started s) (mutex_list s) (next_mutex_id s) (rsp0 s) (env s).
Definition set_next_pid {E} (v : Z) (s : kst E) : kst E :=
  KState (thread_at s) (process_at s) (mutex_at s) (queue_at s) (Head s) (Tail s) (Current s) (Count s) (curr_proc s) (next_proc s) v (next_tid s) (multitask_started s) (mutex_list s) (next_mutex_id s) (rsp0 s) (env s).
Definition set_next_tid {E} (v : Z) (s : kst E) : kst E :=
  KState (thread_at s) (process_at s) (mutex_at s) (queue_at s) (Head s) (Tail s) (Current s) (Count s) (curr_proc s) (next_proc s) (next_pid s) v (multitask_started s) (mutex_list s) (next_mutex_id s) (rsp0 s) (env s).
Definition set_multitask_started {E} (v : bool) (s : kst E) : kst E :=
  KState (thread_at s) (process_at s) (mutex_at s) (queue_at s) (Head s) (Tail s) (Current s) (Count s) (curr_proc s) (next_proc s) (next_pid s) (next_tid s) v (mutex_list s) (next_mutex_id s) (rsp0 s) (env s).
Definition set_mutex_list {E} (v : Z) (s : kst E) : kst E :=
  KState (thread_at s) (process_at s) (mutex_at s) (queue_at s) (Head s) (Tail s) (Current s) (Count s) (curr_proc s) (next_proc s) (next_pid s) (next_tid s) (multitask_started s) v (next_mutex_id s) (rsp0 s) (env s).
Definition set_next_mutex_id {E} (v : Z) (s : kst E) : kst E :=
  KState (thread_at s) (process_at s) (mutex_at s) (queue_at s) (Head s) (Tail s) (Current s) (Count s) (curr_proc s) (next_proc s) (next_pid s) (next_tid s) (multitask_started s) (mutex_list s) v (rsp0 s) (env s).
Definition set_rsp0 {E} (v : Z) (s : kst E) : kst E :=
  KState (thread_at s) (process_at s) (mutex_at s) (queue_at s) (Head s) (Tail s) (Current s) (Count s) (curr_proc s) (next_proc s) (next_pid s) (next_tid s) (multitask_started s) (mutex_list s) (next_mutex_id s) v (env s).
Definition set_env {E} (v : E) (s : kst E) : kst E :=
  KState (thread_at s) (process_at s) (mutex_at s) (queue_at s) (Head s) (Tail s) (Current s) (Count s) (curr_proc s) (next_proc s) (next_pid s) (next_tid s) (multitask_started s) (mutex_list s) (next_mutex_id s) (rsp0 s) v.

(** The addresses the linker gives to [main_thread] and [kernel_process]. *)
Class TaskLayout := { main_thread : Z; kernel_process : Z; thread_start_addr : Z }.

Section access.
Context {E : Type} `{!KernelEnv E}.
Local Abbreviation MK := (M (kst E)).

Definition lift {A} (c : M E A) : MK A := λ s,
  match c (env s) with
  | Ret (a, e) => Ret (a, set_env e s)
  | Halt => Halt
  | NoFuel => NoFuel
  end.

Definition thread (p : Z) : MK thread_st := λ s,
  match thread_at s !! p with Some t => Ret (t, s) | None => Halt end.
Definition process (p : Z) : MK process_st := λ s,
  match process_at s !! p with Some t => Ret (t, s) | None => Halt end.
Definition mutex (p : Z) : MK kernel_mutex_st := λ s,
  match mutex_at s !! p with Some t => Ret (t, s) | None => Halt end.

(** An assignment through a pointer. *)
Definition upd_thread (p : Z) (f : thread_st → thread_st) : MK unit :=
  t <- thread p ;; modify (λ s, set_thread_at (<[p := f t]> (thread_at s)) s).
Definition upd_process (p : Z) (f : process_st → process_st) : MK unit :=
  t <- process p ;; modify (λ s, set_process_at (<[p := f t]> (process_at s)) s).
Definition upd_mutex (p : Z) (f : kernel_mutex_st → kernel_mutex_st) : MK unit :=
  t <- mutex p ;; modify (λ s, set_mutex_at (<[p := f t]> (mutex_at s)) s).

Definition are_interrupts_enabled : MK bool := gets (λ s, ke_ints (env s)).
Definition CLI : MK unit := modify (λ s, set_env (ke_set_ints false (env s)) s).
Definition STI : MK unit := modify (λ s, set_env (ke_set_ints true (env s)) s).

(** [if (ints_enabled) CLI();] and [if (ints_enabled) STI();] *)
Definition cli_if (b : bool) : MK unit := if b then CLI else ret tt.
Definition sti_if (b : bool) : MK unit := if b then STI else ret tt.

(** A [proc_queue *]: the queue of a process, of a mutex, or of a driver. *)
Inductive qref := QChildExit (p : Z) | QThreadExit (p : Z) | QMutex (m : Z) | QDriver (a : Z).

Definition get_queue (q : qref) : MK proc_queue :=
  match q with
  | QChildExit p => t <- process p ;; ret (wait_child_exit t)
  | QThreadExit p => t <- process p ;; ret (wait_thread_exit t)
  | QMutex m => t <- mutex m ;; ret (waiters t)
  | QDriver a => λ s, match queue_at s !! a with Some t => Ret (t, s) | None => Halt end
  end.

Definition put_queue (q : qref) (v : proc_queue) : MK unit :=
  match q with
  | QChildExit p => upd_process p (set_wait_child_exit v)
  | QThreadExit p => upd_process p (set_wait_thread_exit v)
  | QMutex m => upd_mutex m (set_waiters v)
  | QDriver a => modify (λ s, set_queue_at (<[a := v]> (queue_at s)) s)
  end.
End access.

(** Interrupts are a flag of the environment that nothing else depends on. *)
Class KernelEnvLaws (E : Type) `{!KernelEnv E} := {
  ke_ints_set e b : ke_ints (ke_set_ints b e) = b;
  ke_set_ints_set e b b' : ke_set_ints b (ke_set_ints b' e) = ke_set_ints b e;
  ke_set_ints_same e : ke_set_ints (ke_ints e) e = e;
  ke_switch_returns p4 e : ∃ e', ke_switch_p4 p4 e = Ret (tt, e') ∧ ke_ints e' = ke_ints e
}.

Section access_rules.
Context {E : Type} `{!KernelEnv E, !KernelEnvLaws E}.
Implicit Types (s : kst E).

Lemma wp_thread p t s Q : thread_at s !! p = Some t → Q t s → wp (thread p) s Q.
Proof. unfold wp, thread. by intros ->. Qed.
Lemma wp_process p t s Q : process_at s !! p = Some t → Q t s → wp (process p) s Q.
Proof. unfold wp, process. by intros ->. Qed.
Lemma wp_mutex p t s Q : mutex_at s !! p = Some t → Q t s → wp (mutex p) s Q.
Proof. unfold wp, mutex. by intros ->. Qed.

Lemma wp_upd_thread p t f s Q :
  thread_at s !! p = Some t → Q tt (set_thread_at (<[p := f t]> (thread_at s)) s) → wp (upd_thread p f) s Q.
Proof. intros H HQ. unfold upd_thread. apply wp_bind. by eapply wp_thread. Qed.
Lemma wp_upd_process p t f s Q :
  process_at s !! p = Some t → Q tt (set_process_at (<[p := f t]> (process_at s)) s) → wp (upd_process p f) s Q.
Proof. intros H HQ. unfold upd_process. apply wp_bind. by eapply wp_process. Qed.
Lemma wp_upd_mutex p t f s Q :
  mutex_at s !! p = Some t → Q tt (set_mutex_at (<[p := f t]> (mutex_at s)) s) → wp (upd_mutex p f) s Q.
Proof. intros H HQ. unfold upd_mutex. apply wp_bind. by eapply wp_mutex. Qed.

Lemma set_env_env s : set_env (env s) s = s.
Proof. by destruct s. Qed.

(** Disabling interrupts and restoring them. *)
Lemma cli_env s Q :
  Q tt (set_env (ke_set_ints false (env s)) s) → wp (cli_if (ke_ints (env s))) s Q.
Proof.
  intros H. destruct (ke_ints (env s)) eqn:E1; [exact H|]. unfold cli_if. apply wp_ret.
  rewrite <-E1, ke_set_ints_same, set_env_env in H. exact H.
Qed.
Lemma sti_env b s Q :
  ke_ints (env s) = false → Q tt (set_env (ke_set_ints b (env s)) s) → wp (sti_if b) s Q.
Proof.
  intros Hf H. destruct b; [exact H|]. unfold sti_if. apply wp_ret.
  rewrite <-Hf, ke_set_ints_same, set_env_env in H. exact H.
Qed.
End access_rules.
