(* ===== verification/KernelInstance.v ===== *)
(** * The kernel under the multitasking code

    [KernelEnv] is provided by the kernel heap of [Kmalloc] over the virtual memory
    manager of [Vpages]. *)

From S2P Require Import Prelude Memory Frames Vpages KernelMemory Kmalloc VpagesHeap Kernel.

Section instance.
Context `{!KLayout, !HeapLayout}.

(** A C [int] stored through a user pointer, byte by byte. *)
Definition vstore32 (va v : Z) : M mst unit :=
  for_each (seqZ 0 4) (λ i, vstore8 (va + i) (u8 (v / 2 ^ (8 * i)))).

#[export] Instance heap_env : KernelEnv (heap mst) := {|
  ke_ints h := int_flag (vm h);
  ke_set_ints b h := Heap (set_int_flag b (vm h)) (pools h);
  ke_kmalloc := kmalloc;
  ke_kfree := kfree;
  ke_load8 va := Kmalloc.lift (vload8 va);
  ke_store8 va v := Kmalloc.lift (vstore8 va v);
  ke_load64 va := Kmalloc.lift (vload64 va);
  ke_store64 va v := Kmalloc.lift (vstore64 va v);
  ke_store32 va v := Kmalloc.lift (vstore32 va v);
  ke_kernel_p4 h := kernel_cr3 (vm h);
  ke_switch_p4 p4 := Kmalloc.lift (MMU_switch_p4 p4);
  ke_clone_userspace p4 := Kmalloc.lift (MMU_clone_userspace p4);
  ke_destroy_userspace p4 := Kmalloc.lift (MMU_destroy_userspace p4)
|}.

#[export] Instance heap_env_laws : KernelEnvLaws (heap mst).
Proof. split; [done|done|intros [[] ps]; done|]. intros p4 h. by eexists. Qed.
End instance.

(** A machine for the examples: the heap before its first request, tables at 0x90000. *)
Definition demo_env : heap mst := Heap (boot_mst ∅ (MemRegion 0x100000 0x10000 true)) pools_init.
