(* ===== verification/RoundRobin.v ===== *)
(** * The round robin scheduler ([src/kernel/round_robin.c])

    The runnable threads form a circular list through [sched_one]; [Current] is
    the next one to run.  The theorems describe it as a queue that rotates. *)

From S2P Require Import Prelude Links Kernel KernelInstance.

Section round_robin.
Context {E : Type} `{!KernelEnv E}.
Local Abbreviation MK := (M (kst E)).

Definition rr_admit (new : Z) : MK unit :=
  ints_enabled <- are_interrupts_enabled ;;
  cli_if ints_enabled ;;
  hd <- gets Head ;;
  (if hd =? 0 then
     modify (set_Head new) ;;
     modify (set_Tail new) ;;
     modify (set_Current new) ;;
     upd_thread new (set_sched_one new)
   else
     upd_thread new (set_sched_one hd) ;;
     tl <- gets Tail ;;
     upd_thread tl (set_sched_one new) ;;
     modify (set_Tail new)) ;;
  n <- gets Count ;;
  modify (set_Count (i32 (n + 1))) ;;
  sti_if ints_enabled.

(** The victim is found: [prev] is its predecessor. *)
Definition rr_unlink (prev curr : Z) : MK unit :=
  c <- thread curr ;;
  upd_thread prev (set_sched_one (sched_one c)) ;;
  c <- thread curr ;;
  cur <- gets Current ;;
  (if curr =? cur then modify (set_Current (sched_one c)) else ret tt) ;;
  hd <- gets Head ;;
  (if curr =? hd then modify (set_Head (sched_one c)) else ret tt) ;;
  tl <- gets Tail ;;
  (if curr =? tl then modify (set_Tail prev) else ret tt) ;;
  n <- gets Count ;;
  modify (set_Count (i32 (n - 1))).

(** The search; it stops when it is back at [Head]. *)
Fixpoint rr_search (fuel : nat) (victim prev curr : Z) : MK unit :=
  match fuel with
  | O => no_fuel
  | S fuel =>
      if curr =? 0 then ret tt else
      if curr =? victim then rr_unlink prev curr else
      c <- thread curr ;;
      hd <- gets Head ;;
      if sched_one c =? hd then ret tt else rr_search fuel victim curr (sched_one c)
  end.

Definition rr_remove (victim : Z) : MK unit :=
  ints_enabled <- are_interrupts_enabled ;;
  cli_if ints_enabled ;;
  prev <- gets Tail ;;
  curr <- gets Head ;;
  n <- gets Count ;;
  (if victim =? 0 then ret tt
   else if n =? 1 then
     modify (set_Head 0) ;; modify (set_Tail 0) ;; modify (set_Current 0) ;; modify (set_Count 0)
   else if (prev =? 0) && negb (curr =? 0) then halt
   else rr_search (S (Z.to_nat n)) victim prev curr) ;;
  sti_if ints_enabled.

Definition rr_next : MK Z :=
  ints_enabled <- are_interrupts_enabled ;;
  cli_if ints_enabled ;;
  hd <- gets Head ;;
  if hd =? 0 then sti_if ints_enabled ;; ret 0 else
  upNext <- gets Current ;;
  t <- thread upNext ;;
  modify (set_Current (sched_one t)) ;;
  sti_if ints_enabled ;;
  ret upNext.

Definition rr_qlen : MK Z := gets Count.
End round_robin.

(** ** The abstract scheduler

    The threads from [Head] on that come before [Current], and those from [Current] on. *)

Record rrq := RRQ { before : list Z; after : list Z }.

Definition rr_list (q : rrq) : list Z := before q ++ after q.
(** The order in which the threads run. *)
Definition rr_order (q : rrq) : list Z := after q ++ before q.

Definition q_norm (a b : list Z) : rrq := match b with [] => RRQ [] a | _ => RRQ a b end.
Definition q_admit (p : Z) (q : rrq) : rrq := RRQ (before q) (after q ++ [p]).
Definition q_remove (p : Z) (q : rrq) : rrq :=
  q_norm (filter (λ x, x ≠ p) (before q)) (filter (λ x, x ≠ p) (after q)).
Definition q_next (q : rrq) : Z * rrq :=
  match after q with
  | [] => (0, q)
  | c :: b => (c, q_norm (before q ++ [c]) b)
  end.

(** ** Representation *)

Definition sched_of (ts : gmap Z thread_st) (p : Z) : option Z := sched_one <$> ts !! p.

(** Only [sched_one] fields differ. *)
Definition sched_only (ts ts' : gmap Z thread_st) : Prop :=
  ∀ p, set_sched_one 0 <$> ts' !! p = set_sched_one 0 <$> ts !! p.

Record ring_at (ts : gmap Z thread_st) (hd tl cur n : Z) (q : rrq) : Prop := {
  ra_nodup : NoDup (rr_list q);
  ra_after : rr_list q ≠ [] → after q ≠ [];
  ra_head : hd = default 0 (list.head (rr_list q));
  ra_tail : tl = default 0 (last (rr_list q));
  ra_current : cur = default 0 (list.head (after q));
  ra_count : n = Z.of_nat (length (rr_list q)) ∧ n < 2 ^ 31 - 1;
  ra_links : lseg (sched_of ts) hd (rr_list q) hd
}.

Lemma sched_of_insert ts p t v :
  ts !! p = Some t → ∀ x, sched_of (<[p := set_sched_one v t]> ts) x = upd (sched_of ts) p v x.
Proof.
  intros Hp x. unfold sched_of, upd. case_decide as E.
  - subst. by rewrite lookup_insert_eq.
  - by rewrite lookup_insert_ne.
Qed.

Lemma sched_only_refl ts : sched_only ts ts.
Proof. done. Qed.
Lemma sched_only_trans ts1 ts2 ts3 : sched_only ts1 ts2 → sched_only ts2 ts3 → sched_only ts1 ts3.
Proof. intros H1 H2 p. by rewrite H2, H1. Qed.
Lemma sched_only_insert ts p t v : ts !! p = Some t → sched_only ts (<[p := set_sched_one v t]> ts).
Proof.
  intros Hp x. destruct (decide (x = p)) as [->|]; [|by rewrite lookup_insert_ne].
  by rewrite lookup_insert_eq, Hp.
Qed.
Lemma sched_only_lookup ts ts' p t :
  sched_only ts ts' → ts !! p = Some t → ∃ v, ts' !! p = Some (set_sched_one v t).
Proof.
  intros H Hp. specialize (H p). rewrite Hp in H. destruct (ts' !! p) as [t'|]; [|done].
  exists (sched_one t'). f_equal. injection H. destruct t, t'; cbn; naive_solver.
Qed.

Lemma lseg_sched_insert ts p t v h l e :
  ts !! p = Some t → lseg (upd (sched_of ts) p v) h l e → lseg (sched_of (<[p := set_sched_one v t]> ts)) h l e.
Proof. intros Hp. apply lseg_ext. intros x _. by apply sched_of_insert. Qed.

(** ** Admitting *)

Lemma ring_admit_empty ts hd tl cur n q new t :
  ring_at ts hd tl cur n q → hd = 0 → ts !! new = Some t → new ≠ 0 →
  ring_at (<[new := set_sched_one new t]> ts) new new new (i32 (n + 1)) (q_admit new q).
Proof.
  intros [H1 H2 H3 H4 H5 [H6 H7] H8] -> Hn H0. apply lseg_empty in H8 as [Hl _].
  destruct q as [a b]. unfold rr_list in *. cbn in *. apply app_eq_nil in Hl as [-> ->]. cbn in *. subst n.
  split; cbn; try done.
  - repeat constructor. by intros ?%elem_of_nil.
  - split; [done|]. split; [done|]. exists new. rewrite sched_of_insert by done. by rewrite upd_eq.
Qed.

Lemma rr_list_admit new q : rr_list (q_admit new q) = rr_list q ++ [new].
Proof. unfold rr_list. cbn. by rewrite app_assoc. Qed.

Lemma ring_admit ts hd tl cur n q new t tt' :
  ring_at ts hd tl cur n q → hd ≠ 0 → n < 2 ^ 31 - 2 → new ∉ rr_list q → new ≠ 0 →
  ts !! new = Some t → <[new := set_sched_one hd t]> ts !! tl = Some tt' →
  ring_at (<[tl := set_sched_one new tt']> (<[new := set_sched_one hd t]> ts)) hd new cur (i32 (n + 1)) (q_admit new q).
Proof.
  intros [H1 H2 H3 H4 H5 [H6 H7] H8] Hhd Hmax Hnew H0 Hn Ht.
  assert (rr_list q ≠ []) as Hne by (intros E; rewrite E in H3; done).
  destruct (exists_last Hne) as (l & z & El). rewrite El, last_snoc in H4. cbn in H4. subst z.
  split; try rewrite rr_list_admit.
  - apply NoDup_app. split; [done|]. split; [intros x Hx ->%list_elem_of_singleton; done|apply NoDup_singleton].
  - intros _. cbn. by destruct (after q).
  - rewrite H3. by destruct (rr_list q).
  - by rewrite last_snoc.
  - cbn. specialize (H2 Hne). by destruct (after q).
  - rewrite length_app. cbn. rewrite i32_small by lia. lia.
  - rewrite El, lseg_snoc. rewrite El in H1, H8, Hnew.
    assert (tl ∉ l) as Htl.
    { apply NoDup_app in H1 as (_ & H1 & _). intros Hin. by apply (H1 tl Hin); left. }
    split; [|split; [done|]].
    + apply lseg_sched_insert; [done|]. eapply lseg_retarget; [done|]. apply lseg_sched_insert; [done|].
      apply lseg_upd; [done|exact H8].
    + rewrite sched_of_insert, upd_ne, sched_of_insert, upd_eq; try done. intros ->. apply Hnew.
      apply elem_of_app. right. by left.
Qed.

(** ** Removing *)

Implicit Types (l : list Z) (ts : gmap Z thread_st) (q : rrq).

Lemma filter_ne_notin (p : Z) l : p ∉ l → filter (λ x, x ≠ p) l = l.
Proof.
  induction l as [|x l IH]; intros Hp; [done|]. apply not_elem_of_cons in Hp as [Hx Hp].
  rewrite filter_cons_True by done. by rewrite IH.
Qed.

Lemma filter_ne_split (p : Z) l1 l2 :
  NoDup (l1 ++ p :: l2) → filter (λ x, x ≠ p) (l1 ++ p :: l2) = l1 ++ l2.
Proof.
  intros (_ & Hd & [Hp _]%NoDup_cons)%NoDup_app. rewrite filter_app, filter_cons_False by (intros H; by apply H).
  rewrite !filter_ne_notin; [done|done|]. intros Hin. by apply (Hd p Hin); left.
Qed.

Lemma rr_list_norm a b : rr_list (q_norm a b) = a ++ b.
Proof. destruct b; cbn; by rewrite ?app_nil_r. Qed.

Lemma rr_list_remove p q : rr_list (q_remove p q) = filter (λ x, x ≠ p) (rr_list q).
Proof. unfold q_remove. by rewrite rr_list_norm, <-filter_app. Qed.

Lemma q_norm_after a b : a ++ b ≠ [] → after (q_norm a b) ≠ [].
Proof. destruct b; [|done]. rewrite app_nil_r. done. Qed.

(** The successor of a thread of the ring. *)
Lemma ring_succ_of ts hd tl cur n q l1 v l2 t :
  ring_at ts hd tl cur n q → rr_list q = l1 ++ v :: l2 → ts !! v = Some t →
  sched_one t = default hd (list.head l2).
Proof.
  intros Hr El Ht. pose proof (ra_links _ _ _ _ _ _ Hr) as Hl. rewrite El in Hl.
  apply (lseg_lookup _ _ _ _ (length l1) v) in Hl; [|by rewrite lookup_app_r, Nat.sub_diag by lia].
  unfold sched_of in Hl. rewrite Ht in Hl. injection Hl as Hl. rewrite Hl. f_equal.
  rewrite lookup_app_r by lia. replace (S (length l1) - length l1)%nat with 1%nat by lia. by destruct l2.
Qed.

Lemma ring_current_remove ts hd tl cur n q l1 v l2 t :
  ring_at ts hd tl cur n q → rr_list q = l1 ++ v :: l2 → l1 ++ l2 ≠ [] → ts !! v = Some t →
  (if v =? cur then sched_one t else cur) = default 0 (list.head (after (q_remove v q))).
Proof.
  intros Hr El Hne Ht. pose proof (ring_succ_of _ _ _ _ _ _ _ _ _ _ Hr El Ht) as Hs.
  destruct Hr as [H1 H2 H3 H4 -> _ _]. destruct q as [a b]. unfold rr_list, q_remove in *. cbn [before after] in *.
  destruct b as [|c b].
  { exfalso. apply H2; [rewrite El; by destruct l1|done]. }
  cbn [list.head]. change (default 0 (Some c)) with c. pose proof (proj1 (NoDup_app _ _) H1) as (Ha & Hd & [Hc Hb]%NoDup_cons).
  destruct (v =? c) eqn:E; bool_prop.
  - subst c. rewrite filter_cons_False by (intros H; by apply H). rewrite (filter_ne_notin v b Hc).
    assert (l1 = a ∧ l2 = b) as [-> ->].
    { rewrite El in H1. assert (v ∉ l1) as Hv1.
      { apply NoDup_app in H1 as (_ & H1 & _). intros Hin. by apply (H1 v Hin); left. }
      assert (v ∉ a) as Hva by (intros Hin; by apply (Hd v Hin); left).
      clear -El Hv1 Hva. revert a El Hva. induction l1 as [|x l1 IH]; intros [|y a] El Hva; cbn in El; simplify_eq.
      - done.
      - exfalso. apply Hva. by left.
      - exfalso. apply Hv1. by left.
      - apply not_elem_of_cons in Hv1 as [_ Hv1], Hva as [_ Hva]. destruct (IH Hv1 a) as [-> ->]; done. }
    rewrite filter_ne_notin by (intros Hin; by apply (Hd v Hin); left). rewrite Hs.
    destruct b as [|c b]; cbn; [|done]. rewrite H3. rewrite app_nil_r in Hne. by destruct a.
  - rewrite filter_cons_True by done. done.
Qed.

Lemma ring_remove ts hd tl cur n q l1 v l2 t prev tp :
  ring_at ts hd tl cur n q → rr_list q = l1 ++ v :: l2 → l1 ++ l2 ≠ [] → ts !! v = Some t →
  prev = default tl (last l1) → ts !! prev = Some tp →
  ring_at (<[prev := set_sched_one (sched_one t) tp]> ts) (if v =? hd then sched_one t else hd)
    (if v =? tl then prev else tl) (if v =? cur then sched_one t else cur) (i32 (n - 1)) (q_remove v q).
Proof.
  intros Hr El Hne Ht Hprev Htp. pose proof (ring_current_remove _ _ _ _ _ _ _ _ _ _ Hr El Hne Ht) as Hcur.
  pose proof (ring_succ_of _ _ _ _ _ _ _ _ _ _ Hr El Ht) as Hs.
  pose proof Hr as [H1 H2 H3 H4 H5 [H6 H7] H8]. rewrite El in H1, H3, H4, H6, H8.
  pose proof (filter_ne_split _ _ _ H1) as Ef.
  assert ((v ∉ l1) ∧ (v ∉ l2) ∧ NoDup l1 ∧ NoDup l2) as (Hv1 & Hv2 & Hn1 & Hn2).
  { apply NoDup_app in H1 as (? & Hd & [? ?]%NoDup_cons). split; [|done]. intros Hin. by apply (Hd v Hin); left. }
  assert ((if v =? hd then sched_one t else hd) = default 0 (list.head (l1 ++ l2))) as Hhd.
  { destruct l1 as [|x l1]; cbn in H3 |- *.
    - subst hd. rewrite Z.eqb_refl, Hs. by destruct l2.
    - subst hd. apply not_elem_of_cons in Hv1 as [Hx _]. by rewrite (proj2 (Z.eqb_neq v x)). }
  split; rewrite ?rr_list_remove, ?El, ?Ef.
  - apply NoDup_app. apply NoDup_app in H1 as (? & Hd & [? ?]%NoDup_cons). split; [done|]. split; [|done].
    intros x Hx Hx2. apply (Hd x Hx). by right.
  - intros _. apply q_norm_after. unfold rr_list in El. rewrite <-filter_app, El, Ef. done.
  - done.
  - destruct l2 as [|y l2 _] using rev_ind.
    + rewrite last_snoc in H4. cbn in H4. subst v. rewrite Z.eqb_refl, Hprev, app_nil_r in *.
      destruct (last l1) eqn:E; [done|]. apply last_None in E. done.
    + rewrite !app_assoc, last_snoc. rewrite app_comm_cons, app_assoc, last_snoc in H4. cbn in H4 |- *. subst tl.
      apply not_elem_of_app in Hv2 as [_ Hy%not_elem_of_cons]. by rewrite (proj2 (Z.eqb_neq v y)) by naive_solver.
  - done.
  - rewrite length_app in H6 |- *. cbn in H6. rewrite i32_small by lia. lia.
  - rewrite Hhd. apply lseg_sched_insert; [done|].
    assert (sched_of ts v = Some (sched_one t)) as Hf by (unfold sched_of; by rewrite Ht).
    destruct l1 as [|x l1 _] using rev_ind.
    + cbn [app] in *. destruct H8 as (_ & _ & nx & Hnx & Hl). rewrite Hf in Hnx. injection Hnx as <-.
      destruct l2 as [|y l2 _] using rev_ind; [done|].
      rewrite app_comm_cons, last_snoc in H4. cbn in H4, Hprev. subst y prev.
      pose proof (lseg_head _ _ _ _ Hl) as Hh. rewrite <-Hs in Hh.
      assert (default 0 (list.head (l2 ++ [tl])) = sched_one t) as ->.
      { rewrite Hs. by destruct l2. }
      eapply lseg_retarget; [|exact Hl]. apply NoDup_app in Hn2 as (_ & Hd & _). intros Hin. by apply (Hd tl Hin); left.
    + rewrite last_snoc in Hprev. cbn in Hprev. subst x.
      assert (default 0 (list.head ((l1 ++ [prev]) ++ l2)) = hd) as -> by (rewrite H3; by destruct l1).
      rewrite <-!app_assoc in *. cbn [app] in *. by eapply lseg_unlink.
Qed.

(** ** The operations *)

Section rr_specs.
Context {E : Type} `{!KernelEnv E, !KernelEnvLaws E}.
Implicit Types (s : kst E).

Definition ring s q : Prop := ring_at (thread_at s) (Head s) (Tail s) (Current s) (Count s) q.

(** The state with other scheduler variables. *)
Definition with_sched s ts (hd tl cur n : Z) : kst E :=
  set_Count n (set_Current cur (set_Tail tl (set_Head hd (set_thread_at ts s)))).

(** Only the scheduler's variables and links changed. *)
Definition sched_frame s s' : Prop :=
  sched_only (thread_at s) (thread_at s') ∧
  s' = with_sched s (thread_at s') (Head s') (Tail s') (Current s') (Count s').

Lemma sched_frame_refl s : sched_frame s s.
Proof. split; [done|]. by destruct s. Qed.

Lemma sched_frame_trans s1 s2 s3 : sched_frame s1 s2 → sched_frame s2 s3 → sched_frame s1 s3.
Proof. intros [H1 E1] [H2 E2]. split; [by eapply sched_only_trans|]. rewrite E2, E1. done. Qed.

Lemma ring_thread s q p : ring s q → p ∈ rr_list q → p ≠ 0 ∧ ∃ t, thread_at s !! p = Some t.
Proof.
  intros Hr Hp. destruct (lseg_nonzero _ _ _ _ p (ra_links _ _ _ _ _ _ Hr) Hp) as [H0 [v Hv]].
  split; [done|]. unfold sched_of in Hv. destruct (thread_at s !! p); [eauto|done].
Qed.

(** Restoring interrupts after the body of an operation. *)
Lemma rr_sti s s1 ts hd tl cur n (P : unit → kst E → Prop) :
  s1 = with_sched (set_env (ke_set_ints false (env s)) s) ts hd tl cur n →
  P tt (with_sched s ts hd tl cur n) → wp (sti_if (ke_ints (env s))) s1 P.
Proof.
  intros -> H. apply sti_env; [apply ke_ints_set|]. unfold set_env, with_sched in *. cbn in *.
  by rewrite ke_set_ints_set, ke_set_ints_same.
Qed.

Lemma rr_admit_spec s q new t :
  ring s q → thread_at s !! new = Some t → new ≠ 0 → new ∉ rr_list q → Count s < 2 ^ 31 - 2 →
  wp (rr_admit new) s (λ _ s', ring s' (q_admit new q) ∧ sched_frame s s').
Proof.
  intros Hr Ht H0 Hnew Hmax. unfold rr_admit, are_interrupts_enabled. wp_step. apply wp_gets. wp_step. apply cli_env.
  wp_step. apply wp_gets. change (Head (set_env _ _)) with (Head s). wp_step. destruct (Head s =? 0) eqn:Eh; bool_prop.
  - do 3 (wp_step; apply wp_modify). eapply wp_upd_thread; [exact Ht|]. wp_step. apply wp_gets. wp_step. apply wp_modify.
    apply (rr_sti s _ (<[new := set_sched_one new t]> (thread_at s)) new new new (i32 (Count s + 1))); [done|].
    split; [by apply (ring_admit_empty _ _ _ _ _ _ new t Hr)|]. split; [by apply sched_only_insert|done].
  - wp_step. eapply wp_upd_thread; [exact Ht|]. wp_step. apply wp_gets. wp_step. cbn [Tail set_thread_at set_env].
    assert (Tail s ∈ rr_list q) as Htl.
    { destruct Hr as [_ _ H3 -> _ _ _]. destruct (last (rr_list q)) as [z|] eqn:El.
      - by apply last_Some_elem_of in El.
      - apply last_None in El. rewrite El in H3. done. }
    assert (∃ tl, <[new := set_sched_one (Head s) t]> (thread_at s) !! Tail s = Some tl) as [tl Hl].
    { rewrite lookup_insert_ne by (intros ->; done). by apply (ring_thread s q). }
    eapply wp_upd_thread; [exact Hl|]. apply wp_modify. wp_step. apply wp_gets. wp_step. apply wp_modify.
    apply (rr_sti s _ (<[Tail s := set_sched_one new tl]> (<[new := set_sched_one (Head s) t]> (thread_at s)))
      (Head s) new (Current s) (i32 (Count s + 1))); [done|].
    split; [by apply (ring_admit _ _ _ _ _ _ new t tl Hr)|]. split; [|done].
    eapply sched_only_trans; by apply sched_only_insert.
Qed.

Lemma ring_env s q e : ring s q → ring (set_env e s) q.
Proof. done. Qed.

Lemma rr_unlink_spec s q l1 v l2 :
  ring s q → rr_list q = l1 ++ v :: l2 → l1 ++ l2 ≠ [] →
  wp (rr_unlink (default (Tail s) (last l1)) v) s (λ _ s', ring s' (q_remove v q) ∧ sched_frame s s').
Proof.
  intros Hr El Hne. destruct (ring_thread s q v Hr) as (H0 & t & Ht); [rewrite El; apply elem_of_app; right; left|].
  set (prev := default (Tail s) (last l1)).
  assert (prev ∈ rr_list q ∧ prev ≠ v) as [Hprev Hpv].
  { pose proof (ra_nodup _ _ _ _ _ _ Hr) as Hnd. pose proof (ra_tail _ _ _ _ _ _ Hr) as Htl. rewrite El in *.
    apply NoDup_app in Hnd as (_ & Hd & [Hv Hnd]%NoDup_cons). unfold prev.
    destruct (last l1) as [z|] eqn:Elast; cbn.
    - apply last_Some_elem_of in Elast. split; [apply elem_of_app; by left|]. intros ->. by apply (Hd v Elast); left.
    - apply last_None in Elast as ->. cbn in Hne. rewrite Htl. cbn [app]. destruct l2 as [|y l2 _] using rev_ind; [done|].
      rewrite app_comm_cons, last_snoc. cbn. split; [right; apply elem_of_app; right; left|].
      intros ->. apply Hv, elem_of_app. right. left. }
  destruct (ring_thread s q prev Hr Hprev) as (_ & tp & Htp).
  unfold rr_unlink. wp_step. eapply wp_thread; [exact Ht|]. wp_step. eapply wp_upd_thread; [exact Htp|].
  wp_step. eapply wp_thread; [cbn [thread_at set_thread_at]; rewrite lookup_insert_ne by done; exact Ht|].
  pose proof (ring_remove _ _ _ _ _ _ l1 v l2 t prev tp Hr El Hne Ht eq_refl Htp) as Hring.
  assert (∀ (b : bool) (f : kst E → kst E) x P, P tt (if b then f x else x) →
    wp (if b then modify f else ret tt) x P) as Hif by (by intros [] f x P).
  do 3 (wp_step; apply wp_gets; wp_step; apply Hif). wp_step. apply wp_gets, wp_modify.
  cbn [Current Head Tail Count thread_at set_thread_at].
  assert (∀ s1, s1 = with_sched s (<[prev := set_sched_one (sched_one t) tp]> (thread_at s))
    (if v =? Head s then sched_one t else Head s) (if v =? Tail s then prev else Tail s)
    (if v =? Current s then sched_one t else Current s) (i32 (Count s - 1)) →
    ring s1 (q_remove v q) ∧ sched_frame s s1) as Hfin.
  { intros s1 ->. split; [exact Hring|]. split; [by apply sched_only_insert|done]. }
  destruct (v =? Current s); cbn [Head Tail Count set_Current set_thread_at]; destruct (v =? Head s);
    cbn [Head Tail Count set_Current set_thread_at set_Head]; destruct (v =? Tail s);
    cbn [Head Tail Count set_Current set_thread_at set_Head set_Tail]; apply Hfin; reflexivity.
Qed.

Lemma q_remove_notin s q v : ring s q → v ∉ rr_list q → q_remove v q = q.
Proof.
  intros [_ Ha _ _ _ _ _] Hv. destruct q as [a b]. unfold rr_list, q_remove in *. cbn in *.
  apply not_elem_of_app in Hv as [Hva Hvb]. rewrite !filter_ne_notin by done.
  destruct b; [|done]. destruct a; [done|]. by destruct Ha.
Qed.

Lemma rr_search_spec s q v fuel l1 curr l2 :
  ring s q → rr_list q = l1 ++ curr :: l2 → v ∉ l1 → length (rr_list q) ≠ 1%nat → (length l2 < fuel)%nat →
  wp (rr_search fuel v (default (Tail s) (last l1)) curr) s (λ _ s', ring s' (q_remove v q) ∧ sched_frame s s').
Proof.
  intros Hr. revert l1 curr l2. induction fuel as [|fuel IH]; intros l1 curr l2 El Hv Hn1 Hf; [lia|]. cbn [rr_search].
  destruct (ring_thread s q curr Hr) as (H0 & t & Ht); [rewrite El; apply elem_of_app; right; left|].
  rewrite (proj2 (Z.eqb_neq curr 0)) by done. destruct (curr =? v) eqn:Ev; bool_prop.
  { subst v. apply (rr_unlink_spec s q l1 curr l2); [done|done|]. rewrite El, length_app in Hn1. cbn in Hn1.
    intros E0. apply app_eq_nil in E0 as [-> ->]. done. }
  wp_step. eapply wp_thread; [exact Ht|]. wp_step. apply wp_gets.
  rewrite (ring_succ_of _ _ _ _ _ _ _ _ _ _ Hr El Ht). destruct l2 as [|y l2]; cbn [list.head].
  - change (default (Head s) None) with (Head s). rewrite Z.eqb_refl. apply wp_ret.
    rewrite (q_remove_notin s) by (done || (rewrite El; intros [?|[?|?%elem_of_nil]%elem_of_cons]%elem_of_app; done)).
    split; [done|apply sched_frame_refl].
  - change (default (Head s) (Some y)) with y. pose proof (ra_nodup _ _ _ _ _ _ Hr) as Hnd.
    pose proof (ra_head _ _ _ _ _ _ Hr) as Hh. rewrite El in Hnd, Hh.
    rewrite (proj2 (Z.eqb_neq y (Head s))).
    2: { rewrite Hh. intros E1. destruct l1 as [|x l1]; cbn in E1, Hnd; subst y; apply NoDup_cons in Hnd as [Hx _]; apply Hx;
      [left|]. apply elem_of_app. right. right. left. }
    specialize (IH (l1 ++ [curr]) y l2). rewrite last_snoc in IH. apply IH; [by rewrite <-app_assoc| |done|cbn in Hf; lia].
    intros [?|E1%list_elem_of_singleton]%elem_of_app; [done|congruence].
Qed.

(** [rr_remove], for a thread of the ring, or for any thread unless exactly one is queued. *)
Lemma rr_remove_spec s q v :
  ring s q → v ≠ 0 → (length (rr_list q) = 1%nat → v ∈ rr_list q) →
  wp (rr_remove v) s (λ _ s', ring s' (q_remove v q) ∧ sched_frame s s').
Proof.
  intros Hr H0 Hone. unfold rr_remove, are_interrupts_enabled. wp_step. apply wp_gets. wp_step. apply cli_env.
  set (s0 := set_env _ s). do 3 (wp_step; apply wp_gets). rewrite (proj2 (Z.eqb_neq v 0)) by done.
  pose proof (ra_count _ _ _ _ _ _ Hr) as [Hcount _]. change (Count s0) with (Count s).
  change (Tail s0) with (Tail s). change (Head s0) with (Head s). wp_step. destruct (Count s =? 1) eqn:E1; bool_prop.
  - do 3 (wp_step; apply wp_modify). apply wp_modify. apply (rr_sti s _ (thread_at s) 0 0 0 0); [done|].
    split; [|split; [done|done]]. rewrite E1 in Hcount. specialize (Hone ltac:(lia)).
    assert (rr_list (q_remove v q) = []) as El.
    { rewrite rr_list_remove. destruct (rr_list q) as [|x [|y l]]; cbn in Hcount; [lia| |lia].
      apply list_elem_of_singleton in Hone as ->. by rewrite filter_cons_False by (intros H; by apply H). }
    assert (after (q_remove v q) = []) as Ea by (unfold rr_list in El; by apply app_eq_nil in El as [_ ->]).
    split; cbn; rewrite ?El, ?Ea; try done. constructor.
  - assert (wp (if (Tail s =? 0) && negb (Head s =? 0) then halt else rr_search (S (Z.to_nat (Count s))) v (Tail s) (Head s)) s0
      (λ _ s', ring s' (q_remove v q) ∧ sched_frame s0 s')) as Hwp.
    { destruct (rr_list q) as [|x l] eqn:El.
      - pose proof (ra_head _ _ _ _ _ _ Hr) as Hh. rewrite El in Hh. cbn in Hh. rewrite Hh, andb_false_r.
        apply wp_ret. rewrite (q_remove_notin s) by (done || (rewrite El; by intros ?%elem_of_nil)).
        split; [done|apply sched_frame_refl].
      - pose proof (ra_head _ _ _ _ _ _ Hr) as Hh. rewrite El in Hh. cbn in Hh. subst x.
        destruct (ring_thread s q (Tail s) Hr) as (Ht0 & _).
        { rewrite (ra_tail _ _ _ _ _ _ Hr), El. rewrite <-El. destruct (last (rr_list q)) eqn:E2; [by apply last_Some_elem_of in E2|].
          apply last_None in E2. by rewrite El in E2. }
        rewrite (proj2 (Z.eqb_neq (Tail s) 0)) by done. cbn [andb].
        apply (rr_search_spec s0 q v _ [] (Head s) l); [done|done|by intros ?%elem_of_nil|rewrite El; cbn in *; lia|cbn in Hcount; lia]. }
    eapply wp_mono; [exact Hwp|]. cbv beta. intros _ s' [Hring [Hs Es]].
    apply (rr_sti s _ (thread_at s') (Head s') (Tail s') (Current s') (Count s')); [exact Es|].
    split; [exact Hring|]. by split.
Qed.

Lemma rr_next_spec s q :
  ring s q →
  wp rr_next s (λ p s', p = (q_next q).1 ∧ ring s' (q_next q).2 ∧ sched_frame s s').
Proof.
  intros Hr. unfold rr_next, are_interrupts_enabled. wp_step. apply wp_gets. wp_step. apply cli_env.
  set (s0 := set_env _ s). wp_step. apply wp_gets. change (Head s0) with (Head s).
  pose proof Hr as [H1 H2 H3 H4 H5 H6 H7]. destruct q as [a b]. unfold q_next. cbn [before after].
  destruct b as [|c b].
  - assert (a = []) as ->. { destruct a; [done|]. by destruct H2. }
    cbn in H3. rewrite H3. cbn [Z.eqb]. wp_step. apply (rr_sti s s0 (thread_at s) (Head s) (Tail s) (Current s) (Count s)); [by destruct s|].
    apply wp_ret. split; [done|]. split; [by destruct s|split; [done|by destruct s]].
  - destruct (ring_thread s _ c Hr) as (Hc0 & t & Ht); [apply elem_of_app; right; left|].
    assert (Head s ≠ 0) as Hh.
    { rewrite H3. unfold rr_list. cbn. destruct a as [|x a]; [done|]. cbn.
      apply (ring_thread s _ x Hr). left. }
    rewrite (proj2 (Z.eqb_neq (Head s) 0)) by done. wp_step. apply wp_gets. change (Current s0) with (Current s).
    rewrite H5. change (default 0 (list.head (c :: b))) with c. wp_step. eapply wp_thread; [exact Ht|].
    wp_step. apply wp_modify. wp_step.
    apply (rr_sti s _ (thread_at s) (Head s) (Tail s) (sched_one t) (Count s)); [done|].
    apply wp_ret. split; [done|]. split; [|split; [done|done]].
    pose proof (ring_succ_of _ _ _ _ _ _ a c b t Hr eq_refl Ht) as Hs.
    cbn [snd]. assert (rr_list (q_norm (a ++ [c]) b) = rr_list (RRQ a (c :: b))) as El.
    { rewrite rr_list_norm. unfold rr_list. cbn. by rewrite <-app_assoc. }
    split; cbn [Head Tail Current Count thread_at with_sched set_Count set_Current set_Tail set_Head set_thread_at];
      rewrite ?El; try done.
    + intros _. apply q_norm_after. by destruct a.
    + rewrite Hs. destruct b as [|d b]; cbn; [|done]. rewrite H3. unfold rr_list. cbn. by destruct a.
Qed.
End rr_specs.

(** ** Sequences of calls *)

Inductive rr_op := Admit (p : Z) | Remove (p : Z) | Next.

Section rr_runs.
Context {E : Type} `{!KernelEnv E, !KernelEnvLaws E}.
Implicit Types (s : kst E).

(** One call; [rr_next] answers a thread. *)
Definition rr_call (o : rr_op) : M (kst E) Z :=
  match o with
  | Admit p => rr_admit p ;; ret 0
  | Remove p => rr_remove p ;; ret 0
  | Next => rr_next
  end.

Definition q_call (o : rr_op) (q : rrq) : Z * rrq :=
  match o with
  | Admit p => (0, q_admit p q)
  | Remove p => (0, q_remove p q)
  | Next => q_next q
  end.

Fixpoint rr_run (ops : list rr_op) : M (kst E) (list Z) :=
  match ops with
  | [] => ret []
  | o :: ops => r <- rr_call o ;; rs <- rr_run ops ;; ret (r :: rs)
  end.

Fixpoint q_run (ops : list rr_op) (q : rrq) : list Z * rrq :=
  match ops with
  | [] => ([], q)
  | o :: ops => let '(r, q) := q_call o q in let '(rs, q) := q_run ops q in (r :: rs, q)
  end.

(** How the kernel calls the scheduler: it admits threads that exist and are not
    queued, and does not remove a foreign thread when exactly one is queued. *)
Definition q_call_ok (ts : gmap Z thread_st) (o : rr_op) (q : rrq) : Prop :=
  match o with
  | Admit p => p ≠ 0 ∧ is_Some (ts !! p) ∧ (p ∉ rr_list q) ∧ Z.of_nat (length (rr_list q)) < 2 ^ 31 - 2
  | Remove p => p ≠ 0 ∧ (length (rr_list q) = 1%nat → p ∈ rr_list q)
  | Next => True
  end.

Fixpoint q_run_ok (ts : gmap Z thread_st) (ops : list rr_op) (q : rrq) : Prop :=
  match ops with
  | [] => True
  | o :: ops => q_call_ok ts o q ∧ q_run_ok ts ops (q_call o q).2
  end.

Lemma q_run_ok_same ts ts' ops q : sched_only ts ts' → q_run_ok ts ops q → q_run_ok ts' ops q.
Proof.
  intros Hs. revert q. induction ops as [|o ops IH]; intros q; [done|]. intros [Ho Hops]. split; [|by apply IH].
  destruct o; [|done|done]. destruct Ho as (? & [t Ht] & ?). split; [done|]. split; [|done].
  destruct (sched_only_lookup _ _ _ _ Hs Ht) as [v ->]. eauto.
Qed.

Lemma rr_call_spec s q o :
  ring s q → q_call_ok (thread_at s) o q →
  wp (rr_call o) s (λ r s', r = (q_call o q).1 ∧ ring s' (q_call o q).2 ∧ sched_frame s s').
Proof.
  intros Hr Hok. destruct o; cbn in Hok |- *.
  - destruct Hok as (H0 & [t Ht] & Hn & Hmax). wp_step.
    eapply wp_mono; [apply (rr_admit_spec s q p t); try done|].
    { destruct (ra_count _ _ _ _ _ _ Hr) as [-> _]. done. }
    cbv beta. intros _ s' [? ?]. by apply wp_ret.
  - destruct Hok as (H0 & Hm). wp_step. eapply wp_mono; [by apply (rr_remove_spec s q p)|].
    cbv beta. intros _ s' [? ?]. by apply wp_ret.
  - by apply rr_next_spec.
Qed.

Lemma rr_run_spec ops s q :
  ring s q → q_run_ok (thread_at s) ops q →
  wp (rr_run ops) s (λ rs s', rs = (q_run ops q).1 ∧ ring s' (q_run ops q).2 ∧ sched_frame s s').
Proof.
  revert s q. induction ops as [|o ops IH]; intros s q Hr Hok; cbn [rr_run q_run].
  { apply wp_ret. split; [done|]. split; [done|apply sched_frame_refl]. }
  destruct Hok as [Ho Hops]. wp_step. eapply wp_mono; [by apply rr_call_spec|]. cbv beta.
  intros r s1 (-> & Hr1 & Hf1). wp_step. destruct (q_call o q) as [r q1]. cbn [fst snd] in *.
  eapply wp_mono; [apply (IH s1 q1 Hr1)|].
  { eapply q_run_ok_same; [apply Hf1|done]. }
  cbv beta. intros rs s2 (-> & Hr2 & Hf2). apply wp_ret. destruct (q_run ops q1) as [rs q2].
  split; [done|]. split; [done|]. by eapply sched_frame_trans.
Qed.


(** A full turn of the queue. *)
Lemma q_norm_id q : (rr_list q ≠ [] → after q ≠ []) → q_norm (before q) (after q) = q.
Proof.
  destruct q as [a [|c b]]; [|done]. cbn. destruct a; [done|]. intros H. by destruct H.
Qed.

Lemma q_turn_after b a : q_run (replicate (length b) Next) (q_norm a b) = (b, q_norm (a ++ b) []) ∨ b = [].
Proof.
  revert a. induction b as [|c b IH]; intros a; [by right|]. left. cbn [length replicate q_run q_call q_norm].
  unfold q_next. cbn [after before]. destruct (IH (a ++ [c])) as [->| ->].
  - by rewrite <-app_assoc.
  - done.
Qed.

Lemma q_run_app ops1 ops2 q :
  q_run (ops1 ++ ops2) q = let '(r1, q1) := q_run ops1 q in let '(r2, q2) := q_run ops2 q1 in (r1 ++ r2, q2).
Proof.
  revert q. induction ops1 as [|o ops1 IH]; intros q; cbn [q_run app].
  - by destruct (q_run ops2 q).
  - destruct (q_call o q) as [r q1]. rewrite IH. destruct (q_run ops1 q1) as [r1 q2]. by destruct (q_run ops2 q2).
Qed.

Lemma q_turn q :
  (rr_list q ≠ [] → after q ≠ []) → q_run (replicate (length (rr_list q)) Next) q = (rr_order q, q).
Proof.
  intros Hq. destruct q as [a b]. destruct b as [|c b].
  { destruct a; [done|]. exfalso. by apply Hq. }
  unfold rr_list, rr_order. cbn [before after]. rewrite length_app, Nat.add_comm, replicate_add, q_run_app.
  change (RRQ a (c :: b)) with (q_norm a (c :: b)) at 1. destruct (q_turn_after (c :: b) a) as [->|?]; [|done].
  destruct a as [|x a].
  { cbn. by rewrite app_nil_r. }
  change (q_norm ((x :: a) ++ c :: b) []) with (RRQ [] ((x :: a) ++ c :: b)).
  assert (∀ a' d b', q_run (replicate (length a') Next) (RRQ d (a' ++ c :: b')) = (a', RRQ (d ++ a') (c :: b'))) as Ht.
  { induction a' as [|y a' IHa]; intros d b'; cbn; [by rewrite app_nil_r|].
    assert (q_norm (d ++ [y]) (a' ++ c :: b') = RRQ (d ++ [y]) (a' ++ c :: b')) as -> by (by destruct a').
    rewrite IHa. by rewrite <-app_assoc. }
  by rewrite Ht.
Qed.

(** no thread waits longer than one turn: as many calls of [rr_next] as threads are queued
    answer each of them exactly once, in queue order, and bring the scheduler back
    to where it was. *)
Theorem round_robin_fair s q :
  ring s q → let n := length (rr_list q) in
  ∃ s', rr_run (replicate n Next) s = Ret (rr_order q, s') ∧ rr_order q ≡ₚ rr_list q ∧ NoDup (rr_order q) ∧ ring s' q.
Proof.
  intros Hr n. pose proof (q_turn q (ra_after _ _ _ _ _ _ Hr)) as Ht. fold n in Ht.
  assert (q_run_ok (thread_at s) (replicate n Next) q) as Hok.
  { clear. generalize q. induction n as [|n IH]; intros q'; [done|]. split; [done|apply IH]. }
  destruct (proj1 (wp_iff _ _ _) (rr_run_spec _ s q Hr Hok)) as (rs & s' & E' & -> & Hr' & _). rewrite Ht in E', Hr'.
  exists s'. split; [done|]. assert (rr_order q ≡ₚ rr_list q) as HP by apply Permutation_app_comm.
  split; [done|]. split; [rewrite HP; apply Hr|done].
Qed.

(** With one thread queued, removing any other thread empties the scheduler: the queued
    thread is lost although it was not the victim. *)
Theorem rr_remove_foreign s p v :
  ring s (RRQ [] [p]) → v ≠ 0 → v ≠ p →
  ∃ s', rr_remove v s = Ret (tt, s') ∧ ring s' (RRQ [] []) ∧ rr_next s' = Ret (0, s').
Proof.
  intros Hr H0 Hne. pose proof (ra_count _ _ _ _ _ _ Hr) as [Hc _]. cbn in Hc.
  cut (wp (rr_remove v) s (λ _ s', s' = with_sched s (thread_at s) 0 0 0 0)).
  { intros ([] & s' & E' & ->)%wp_iff. eexists. split; [exact E'|].
    assert (ring (with_sched s (thread_at s) 0 0 0 0) (RRQ [] [])) as Hr' by (split; try done; constructor).
    split; [done|]. apply wp_eq. unfold rr_next, are_interrupts_enabled. wp_step. apply wp_gets. wp_step. apply cli_env.
    wp_step. apply wp_gets. cbn [Head set_env with_sched set_Count set_Current set_Tail set_Head Z.eqb]. wp_step.
    apply (rr_sti (with_sched s (thread_at s) 0 0 0 0) _ (thread_at s) 0 0 0 0); [done|]. by apply wp_ret. }
  unfold rr_remove, are_interrupts_enabled. wp_step. apply wp_gets. wp_step. apply cli_env.
  do 3 (wp_step; apply wp_gets). rewrite (proj2 (Z.eqb_neq v 0)) by done. cbn [Count set_env]. rewrite Hc.
  change (Z.of_nat 1 =? 1) with true. wp_step. do 3 (wp_step; apply wp_modify). apply wp_modify.
  by apply (rr_sti s _ (thread_at s) 0 0 0 0).
Qed.
End rr_runs.

(** ** A ring of three threads *)

Definition demo_thread (i next : Z) : thread_st := Thread i 0 0 DEFAULT_STACK_BYTES 0 0 PROC_READY 0 0 0 0 next 0 0.

Definition demo_kst (ts : gmap Z thread_st) (hd tl cur n : Z) : kst (Kmalloc.heap Frames.mst) :=
  KState ts ∅ ∅ ∅ hd tl cur n 0 0 1 1 false 0 1 0 demo_env.

Definition demo_threads : gmap Z thread_st :=
  {[ 0x1000 := demo_thread 1 0x2000; 0x2000 := demo_thread 2 0x3000; 0x3000 := demo_thread 3 0x1000;
     0x4000 := demo_thread 4 0 ]}.
Definition demo_ring := demo_kst demo_threads 0x1000 0x3000 0x2000 3.
Definition demo_q : rrq := RRQ [0x1000] [0x2000; 0x3000].

#[local] Instance demo_klayout : Vpages.KLayout := {| Vpages.ptable_p4 := 0x90000; Vpages.ptable_p3_identity := 0x91000 |}.
#[local] Instance demo_heap_layout : Kmalloc.HeapLayout := {| Kmalloc.pools_addr := 0x93000 |}.

Lemma demo_ring_ok : ring demo_ring demo_q.
Proof.
  split; try done.
  - repeat (constructor; [set_solver by lia|]). constructor.
  - split; [done|]. split; [lia|]. exists 0x2000. split; [done|].
    split; [done|]. split; [lia|]. exists 0x3000. split; [done|].
    split; [done|]. split; [lia|]. by exists 0x1000.
Qed.


Lemma round_robin_fair_witness :
  ∃ s', rr_run [Next; Next; Next] demo_ring = Ret ([0x2000; 0x3000; 0x1000], s') ∧
    rr_order demo_q ≡ₚ rr_list demo_q ∧ NoDup (rr_order demo_q) ∧ ring s' demo_q.
Proof. apply (round_robin_fair demo_ring demo_q demo_ring_ok). Defined.

Definition demo_single := demo_kst {[ 0x1000 := demo_thread 1 0x1000 ]} 0x1000 0x1000 0x1000 1.

Lemma rr_remove_foreign_witness :
  ∃ s', rr_remove 0x2000 demo_single = Ret (tt, s') ∧ ring s' (RRQ [] []) ∧ rr_next s' = Ret (0, s').
Proof.
  apply (rr_remove_foreign demo_single 0x1000 0x2000); [|lia|lia].
  split; try done; [apply NoDup_singleton|]. split; [done|]. split; [lia|]. by exists 0x1000.
Defined.
