(* ===== verification/TaskQueue.v ===== *)
(** * Blocking and rescheduling ([src/x86_64/multitask/multitask.c])

    The queues of blocked threads, the choice of the next thread, and the switch to
    it at the end of an interrupt ([interrupt_asm.asm], [idt_tss.c]). *)

From S2P Require Import Prelude Links Kernel RoundRobin.

Section task_queue.
Context {E : Type} `{!KernelEnv E, !TaskLayout}.
Local Abbreviation MK := (M (kst E)).

Definition PROC_init_queue (q : qref) : MK unit := put_queue q (Queue 0 0).

(** Adds a thread at the tail. *)
Definition enqueue (q : qref) (p : Z) : MK unit :=
  upd_thread p (set_lib_one 0) ;;
  v <- get_queue q ;;
  if q_head v =? 0 then put_queue q (Queue p p)
  else
    upd_thread (q_tail v) (set_lib_one p) ;;
    put_queue q (Queue (q_head v) p).

(** Removes the thread at the head. *)
Definition dequeue (q : qref) : MK Z :=
  v <- get_queue q ;;
  if q_head v =? 0 then ret 0 else
  let temp := q_head v in
  (if q_head v =? q_tail v then put_queue q (Queue 0 0)
   else t <- thread temp ;; put_queue q (Queue (lib_one t) (q_tail v))) ;;
  upd_thread temp (set_lib_one 0) ;;
  ret temp.

(** [p && p->run_state != PROC_ZOMBIE && (!p->owner || !p->owner->exiting)] *)
Definition wakeable (p : Z) : MK bool :=
  if p =? 0 then ret false else
  t <- thread p ;;
  if bool_decide (run_state t = PROC_ZOMBIE) then ret false else
  if owner t =? 0 then ret true else
  o <- process (owner t) ;;
  ret (exiting o =? 0).

Fixpoint unblock_loop (fuel : nat) (q : qref) : MK Z :=
  match fuel with
  | O => no_fuel
  | S fuel =>
      v <- get_queue q ;;
      if q_head v =? 0 then ret 0 else
      p <- dequeue q ;;
      ok <- wakeable p ;;
      if ok : bool then
        upd_thread p (set_run_state PROC_READY) ;;
        rr_admit p ;;
        ret p
      else unblock_loop fuel q
  end.

(** A queue holds no more threads than there are; NULL queues are refused. *)
Definition PROC_unblock_one (q : option qref) : MK Z :=
  match q with
  | None => ret 0
  | Some q => n <- gets (λ s, size (thread_at s)) ;; unblock_loop (S n) q
  end.

Definition PROC_unblock_head (q : option qref) : MK unit :=
  PROC_unblock_one q ;; ret tt.

Fixpoint unblock_all_loop (fuel : nat) (q : qref) : MK unit :=
  match fuel with
  | O => no_fuel
  | S fuel =>
      v <- get_queue q ;;
      if q_head v =? 0 then ret tt else
      PROC_unblock_head (Some q) ;;
      unblock_all_loop fuel q
  end.

Definition PROC_unblock_all (q : option qref) : MK unit :=
  match q with
  | None => ret tt
  | Some q => n <- gets (λ s, size (thread_at s)) ;; unblock_all_loop (S n) q
  end.

Definition PROC_reschedule : MK unit :=
  candidate <- rr_next ;;
  if candidate =? 0 then
    started <- gets multitask_started ;;
    modify (set_next_proc (if started : bool then main_thread else 0))
  else
    curr <- gets curr_proc ;;
    candidate <- (if candidate =? curr then
                    n <- rr_qlen ;;
                    if 1 <? n then rr_next else ret candidate
                  else ret candidate) ;;
    (if curr =? 0 then ret tt
     else
       c <- thread curr ;;
       if bool_decide (run_state c = PROC_RUNNING) then upd_thread curr (set_run_state PROC_READY) else ret tt) ;;
    upd_thread candidate (set_run_state PROC_RUNNING) ;;
    modify (set_next_proc candidate).

(** The kernel stack of the next thread goes to the TSS, its page tables to CR3. *)
Definition switch_mmu_and_tss (next : Z) : MK unit :=
  if next =? 0 then ret tt else
  t <- thread next ;;
  (if kstack t =? 0 then ret tt
   else modify (set_rsp0 (Z.land (u64 (kstack t + DEFAULT_STACK_BYTES)) (2 ^ 64 - 16)))) ;;
  t <- thread next ;;
  if owner t =? 0 then
    p4 <- gets (λ s, ke_kernel_p4 (env s)) ;; lift (ke_switch_p4 p4)
  else
    o <- process (owner t) ;;
    if cr3 o =? 0 then
      p4 <- gets (λ s, ke_kernel_p4 (env s)) ;; lift (ke_switch_p4 p4)
    else lift (ke_switch_p4 (cr3 o)).

(** The end of [isr_handler]: [sp] is the stack pointer of the interrupted thread; the
    answer is the stack pointer execution goes on with. *)
Definition isr_return (sp : Z) : MK Z :=
  curr <- gets curr_proc ;;
  next <- gets next_proc ;;
  if next =? 0 then ret sp else
  if next =? curr then ret sp else
  (if curr =? 0 then ret tt else upd_thread curr (set_rsp sp)) ;;
  switch_mmu_and_tss next ;;
  t <- thread next ;;
  modify (set_curr_proc next) ;;
  modify (set_next_proc 0) ;;
  ret (rsp t).

(** [int 0x80] with SYS_YIELD: the handler runs with interrupts off, and the
    thread that is switched to continues. *)
Definition yield (sp : Z) : MK Z :=
  CLI ;;
  PROC_reschedule ;;
  isr_return sp.

(** Everything up to the moment the thread has been switched away from; what follows
    the call runs when it is scheduled again. *)
Definition PROC_block_on (q : option qref) (enable_ints : bool) (sp : Z) : MK Z :=
  match q with
  | None => ret sp
  | Some q =>
      curr <- gets curr_proc ;;
      upd_thread curr (set_run_state PROC_BLOCKED) ;;
      rr_remove curr ;;
      enqueue q curr ;;
      sti_if enable_ints ;;
      yield sp
  end.
End task_queue.
