(* ===== verification/TaskQueueProofs.v ===== *)
(** * The threads of the kernel and where they are

    Every thread that can run is in the ring of the scheduler, a blocked one in
    exactly one wait queue.  [tasks] is this invariant; the operations of
    [TaskQueue] move threads between the ring and the queues and keep it. *)

From stdpp Require Import functions.
From S2P Require Import Prelude Links Kernel RoundRobin TaskQueue.

Implicit Types (ts : gmap Z thread_st) (l : list Z) (R : rrq).

#[export] Instance qref_eq_dec : EqDecision qref.
Proof. solve_decision. Defined.

(** ** Fields of threads *)

Definition lib_of ts (p : Z) : option Z := lib_one <$> ts !! p.

Lemma field_insert_same {A} (f : thread_st → A) ts p t t' x :
  ts !! p = Some t → f t' = f t → f <$> <[p := t']> ts !! x = f <$> ts !! x.
Proof.
  intros Hp Hf. destruct (decide (x = p)) as [->|Hne]; [|by rewrite lookup_insert_ne].
  rewrite lookup_insert_eq, Hp. cbn. by rewrite Hf.
Qed.

Lemma lib_of_insert ts p t v x :
  ts !! p = Some t → lib_of (<[p := set_lib_one v t]> ts) x = upd (lib_of ts) p v x.
Proof.
  intros Hp. unfold lib_of, upd. case_decide as E1.
  - subst. by rewrite lookup_insert_eq.
  - by rewrite lookup_insert_ne.
Qed.

(** Threads keep the field [f]. *)
Definition keeps {A} (f : thread_st → A) ts ts' : Prop := ∀ p, f <$> ts' !! p = f <$> ts !! p.

Lemma tkeeps_refl {A} (f : thread_st → A) ts : keeps f ts ts.
Proof. done. Qed.
Lemma tkeeps_trans {A} (f : thread_st → A) ts1 ts2 ts3 : keeps f ts1 ts2 → keeps f ts2 ts3 → keeps f ts1 ts3.
Proof. intros H1 H2 p. by rewrite H2, H1. Qed.
Lemma keeps_insert {A} (f : thread_st → A) ts p t t' :
  ts !! p = Some t → f t' = f t → keeps f ts (<[p := t']> ts).
Proof. intros Hp Hf x. by eapply field_insert_same. Qed.
Lemma keeps_sched {A} (f : thread_st → A) ts ts' :
  (∀ t v, f (set_sched_one v t) = f t) → sched_only ts ts' → keeps f ts ts'.
Proof.
  intros Hf Hs p. specialize (Hs p). destruct (ts' !! p) as [t'|], (ts !! p) as [t|]; try done.
  cbn in *. injection Hs as Hs. f_equal. rewrite <-(Hf t' 0), <-(Hf t 0). by destruct t, t'; cbn in *; simplify_eq.
Qed.
Lemma keeps_lookup {A} (f : thread_st → A) ts ts' p t :
  keeps f ts ts' → ts !! p = Some t → ∃ t', ts' !! p = Some t' ∧ f t' = f t.
Proof.
  intros H Hp. specialize (H p). rewrite Hp in H. destruct (ts' !! p) as [t'|]; [|done].
  exists t'. split; [done|]. by injection H.
Qed.

(** ** Queues *)

Record queue_rep ts (v : proc_queue) l : Prop := {
  qr_nodup : NoDup l;
  qr_links : lseg (lib_of ts) (q_head v) l 0;
  qr_tail : l ≠ [] → Some (q_tail v) = last l
}.

Lemma queue_rep_keeps ts ts' v l : keeps lib_one ts ts' → queue_rep ts v l → queue_rep ts' v l.
Proof. intros Hk [H1 H2 H3]. split; [done| |done]. eapply lseg_ext; [|exact H2]. intros p _. apply Hk. Qed.

Lemma queue_rep_ext ts ts' v l :
  (∀ p, p ∈ l → lib_of ts' p = lib_of ts p) → queue_rep ts v l → queue_rep ts' v l.
Proof. intros Hk [H1 H2 H3]. split; [done| |done]. by eapply lseg_ext. Qed.

Lemma queue_empty ts v l : queue_rep ts v l → q_head v = 0 ↔ l = [].
Proof.
  intros [_ H2 _]. split; [|intros ->; exact H2]. intros H. rewrite H in H2. by apply lseg_empty in H2 as [-> _].
Qed.

Lemma queue_thread ts v l p : queue_rep ts v l → p ∈ l → p ≠ 0 ∧ ∃ t, ts !! p = Some t.
Proof.
  intros [_ H2 _] Hp. destruct (lseg_nonzero _ _ _ _ p H2 Hp) as [H0 [x Hx]]. split; [done|].
  unfold lib_of in Hx. destruct (ts !! p); [eauto|done].
Qed.

Lemma lseg_lib_insert ts p t v h l e :
  ts !! p = Some t → lseg (upd (lib_of ts) p v) h l e → lseg (lib_of (<[p := set_lib_one v t]> ts)) h l e.
Proof. intros Hp. apply lseg_ext. intros x _. by apply lib_of_insert. Qed.

(** A thread joins an empty queue, and one that is not. *)
Lemma queue_first ts p t :
  ts !! p = Some t → p ≠ 0 → queue_rep (<[p := set_lib_one 0 t]> ts) (Queue p p) [p].
Proof.
  intros Hp H0. split; [apply NoDup_singleton| |done]. split; [done|]. split; [done|]. exists 0.
  by rewrite lib_of_insert, upd_eq.
Qed.

Lemma queue_push ts v l p t tl :
  queue_rep ts v l → l ≠ [] → p ∉ l → p ≠ 0 → ts !! p = Some t →
  <[p := set_lib_one 0 t]> ts !! q_tail v = Some tl →
  queue_rep (<[q_tail v := set_lib_one p tl]> (<[p := set_lib_one 0 t]> ts)) (Queue (q_head v) p) (l ++ [p]).
Proof.
  intros [H1 H2 H3] Hne Hp H0 Ht Htl. destruct (exists_last Hne) as (k & z & ->). rewrite last_snoc in H3.
  injection (H3 Hne) as Hz. subst z.
  assert (q_tail v ∉ k) as Hk by (apply NoDup_app in H1 as (_ & Hd & _); intros Hin; by apply (Hd _ Hin); left).
  split; cbn.
  - apply NoDup_app. split; [done|]. split; [intros x Hx ->%list_elem_of_singleton; done|apply NoDup_singleton].
  - rewrite lseg_snoc. split; [|split; [done|]].
    + apply lseg_lib_insert; [done|]. eapply lseg_retarget; [done|]. apply lseg_lib_insert; [done|]. by apply lseg_upd.
    + rewrite lib_of_insert, upd_ne, lib_of_insert, upd_eq; try done. intros E1. apply Hp, elem_of_app. right. rewrite E1. by left.
  - by rewrite last_snoc.
Qed.

(** The first thread leaves. *)
Lemma queue_pop ts v p l t :
  queue_rep ts v (p :: l) → ts !! p = Some t →
  q_head v = p ∧ (q_head v = q_tail v ↔ l = []) ∧
  queue_rep (<[p := set_lib_one 0 t]> ts) (if q_head v =? q_tail v then Queue 0 0 else Queue (lib_one t) (q_tail v)) l.
Proof.
  intros [H1 (Hh & H0 & n & Hn & H2) H3] Ht. specialize (H3 ltac:(done)).
  apply NoDup_cons in H1 as [Hp H1]. unfold lib_of in Hn. rewrite Ht in Hn. injection Hn as Hn. rewrite Hn. clear Hn.
  assert (q_head v = q_tail v ↔ l = []) as Hiff.
  { rewrite Hh. split.
    - intros E1. destruct l as [|x l _] using rev_ind; [done|]. rewrite app_comm_cons, last_snoc in H3.
      injection H3 as E2. exfalso. subst x. rewrite <-E1 in Hp. apply Hp, elem_of_app. right. by left.
    - intros ->. by injection H3. }
  split; [done|]. split; [done|]. split; [done| |].
  - destruct (q_head v =? q_tail v) eqn:Eq; bool_prop.
    + apply Hiff in Eq as ->. done.
    + cbn. apply lseg_lib_insert; [done|]. by apply lseg_upd.
  - intros Hne. destruct (q_head v =? q_tail v) eqn:Eq; bool_prop; [by apply Hiff in Eq|]. cbn. rewrite H3.
    by destruct l.
Qed.

(** ** The invariant *)

(** A thread, process or mutex without the fields the queues and the scheduler use. *)
Definition thread_core (t : thread_st) : thread_st :=
  set_sched_one 0 (set_lib_one 0 (set_run_state PROC_READY t)).
Definition process_core (p : process_st) : process_st :=
  set_wait_child_exit (Queue 0 0) (set_wait_thread_exit (Queue 0 0) p).
Definition mutex_core (m : kernel_mutex_st) : kernel_mutex_st := set_waiters (Queue 0 0) m.

Section tasks.
Context {E : Type} `{!KernelEnv E, !KernelEnvLaws E, !TaskLayout}.
Implicit Types (s : kst E) (q : qref) (Q : qref → list Z).

Definition queue_val s q : option proc_queue :=
  match q with
  | QChildExit p => wait_child_exit <$> process_at s !! p
  | QThreadExit p => wait_thread_exit <$> process_at s !! p
  | QMutex m => waiters <$> mutex_at s !! m
  | QDriver a => queue_at s !! a
  end.

Definition put_q q (v : proc_queue) s : kst E :=
  match q with
  | QChildExit p => set_process_at (alter (set_wait_child_exit v) p (process_at s)) s
  | QThreadExit p => set_process_at (alter (set_wait_thread_exit v) p (process_at s)) s
  | QMutex m => set_mutex_at (alter (set_waiters v) m (mutex_at s)) s
  | QDriver a => set_queue_at (<[a := v]> (queue_at s)) s
  end.

Lemma wp_get_queue q v s P : queue_val s q = Some v → P v s → wp (get_queue q) s P.
Proof.
  destruct q as [p|p|m|a]; cbn; intros Hv HP.
  1-3: apply fmap_Some in Hv as (t & Ht & ->); apply wp_bind.
  - by eapply wp_process.
  - by eapply wp_process.
  - by eapply wp_mutex.
  - unfold wp. by rewrite Hv.
Qed.

Lemma insert_alter_eq {A} (m : gmap Z A) (f : A → A) k x : m !! k = Some x → <[k := f x]> m = alter f k m.
Proof.
  intros Hk. apply map_eq. intros i. destruct (decide (i = k)) as [->|].
  - by rewrite lookup_insert_eq, lookup_alter_eq, Hk.
  - by rewrite lookup_insert_ne, lookup_alter_ne.
Qed.

Lemma wp_put_queue q v s P : is_Some (queue_val s q) → P tt (put_q q v s) → wp (put_queue q v) s P.
Proof.
  intros [v0 Hv] HP. destruct q as [p|p|m|a]; cbn in *; [| | |exact HP];
    apply fmap_Some in Hv as (t & Ht & _); [eapply wp_upd_process|eapply wp_upd_process|eapply wp_upd_mutex]; try exact Ht;
    by erewrite insert_alter_eq by exact Ht.
Qed.

Lemma queue_val_put q v s q' :
  is_Some (queue_val s q) → queue_val (put_q q v s) q' = if decide (q' = q) then Some v else queue_val s q'.
Proof.
  intros [v0 Hv]. case_decide as E1.
  - subst q'. destruct q as [p|p|m|a]; cbn in *; [| | |by rewrite lookup_insert_eq];
      apply fmap_Some in Hv as (t & Ht & _); rewrite lookup_alter_eq, Ht; done.
  - assert (∀ (f : process_st → process_st) (g : process_st → proc_queue) p p',
      (∀ t, g (f t) = g t) → g <$> alter f p (process_at s) !! p' = g <$> process_at s !! p') as Hother.
    { intros f g p p' Hfg. destruct (decide (p' = p)) as [->|]; [|by rewrite lookup_alter_ne].
      rewrite lookup_alter_eq. destruct (process_at s !! p); cbn; by rewrite ?Hfg. }
    destruct q as [p|p|m|a], q' as [p'|p'|m'|a']; cbn; try done; try (by apply Hother);
      try (rewrite lookup_alter_ne by congruence; done). by rewrite lookup_insert_ne by congruence.
Qed.

(** What blocking, waking and rescheduling leave alone. *)
Record task_frame s s' : Prop := {
  tf_threads : keeps thread_core (thread_at s) (thread_at s');
  tf_process p : process_core <$> process_at s' !! p = process_core <$> process_at s !! p;
  tf_mutex m : mutex_core <$> mutex_at s' !! m = mutex_core <$> mutex_at s !! m;
  tf_queue q : is_Some (queue_val s' q) ↔ is_Some (queue_val s q);
  tf_vars : (curr_proc s', next_proc s', next_pid s', next_tid s', multitask_started s', mutex_list s', next_mutex_id s', rsp0 s')
    = (curr_proc s, next_proc s, next_pid s, next_tid s, multitask_started s, mutex_list s, next_mutex_id s, rsp0 s);
  tf_env : env s' = env s
}.

Lemma task_frame_refl s : task_frame s s.
Proof. by split. Qed.
Lemma task_frame_trans s1 s2 s3 : task_frame s1 s2 → task_frame s2 s3 → task_frame s1 s3.
Proof.
  intros [A1 A2 A3 A4 A5 A6] [B1 B2 B3 B4 B5 B6]. split.
  - by eapply tkeeps_trans.
  - intros p. by rewrite B2.
  - intros m. by rewrite B3.
  - intros q. by rewrite B4.
  - by rewrite B5.
  - by rewrite B6.
Qed.

Lemma task_frame_thread s p t t' :
  thread_at s !! p = Some t → thread_core t' = thread_core t → task_frame s (set_thread_at (<[p := t']> (thread_at s)) s).
Proof. intros Hp Ht. split; try done. by eapply keeps_insert. Qed.

Lemma task_frame_put q v s : is_Some (queue_val s q) → task_frame s (put_q q v s).
Proof.
  intros Hq. split.
  - by destruct q.
  - intros p. destruct q as [p'|p'|m|a]; cbn; try done; (destruct (decide (p = p')) as [->|];
      [rewrite lookup_alter_eq; by destruct (process_at s !! p')|by rewrite lookup_alter_ne]).
  - intros m. destruct q as [p'|p'|m'|a]; cbn; try done. destruct (decide (m = m')) as [->|];
      [rewrite lookup_alter_eq; by destruct (mutex_at s !! m')|by rewrite lookup_alter_ne].
  - intros q'. rewrite queue_val_put by done. case_decide as E1; [|done]. subst. split; [done|eauto].
  - by destruct q.
  - by destruct q.
Qed.

Lemma task_frame_sched s s' : sched_frame s s' → task_frame s s'.
Proof.
  intros [Hs ->]. split; try done. eapply keeps_sched; [|exact Hs]. done.
Qed.

Record tasks s R Q : Prop := {
  tk_ring : ring s R;
  tk_queue q v : queue_val s q = Some v → queue_rep (thread_at s) v (Q q);
  tk_noqueue q : queue_val s q = None → Q q = [];
  tk_ready p : p ∈ rr_list R → ∃ t, thread_at s !! p = Some t ∧ (run_state t = PROC_READY ∨ run_state t = PROC_RUNNING);
  tk_waiting q p : p ∈ Q q → ∃ t, thread_at s !! p = Some t ∧ (run_state t = PROC_BLOCKED ∨ run_state t = PROC_ZOMBIE);
  tk_once q q' p : p ∈ Q q → p ∈ Q q' → q = q';
  tk_owner p t : thread_at s !! p = Some t → owner t = 0 ∨ is_Some (process_at s !! owner t);
  tk_few : Z.of_nat (size (thread_at s)) < 2 ^ 31 - 2;
  tk_null : thread_at s !! 0 = None
}.

(** The queues only matter one by one. *)
Lemma tasks_ext s R Q Q' : (∀ q, Q' q = Q q) → tasks s R Q → tasks s R Q'.
Proof.
  intros Hq [H1 H2 H3 H4 H5 H6 H7 H8 H9]. split; try done.
  - intros q v Hv. rewrite Hq. by apply H2.
  - intros q Hv. rewrite Hq. by apply H3.
  - intros q p. rewrite Hq. apply H5.
  - intros q q' p. rewrite !Hq. apply H6.
Qed.

Lemma fn_insert_twice Q q l l' q' : (<[q := l']> Q) q' = (<[q := l']> (<[q := l]> Q)) q'.
Proof.
  destruct (decide (q' = q)) as [->|]; [by rewrite !fn_lookup_insert|by rewrite !fn_lookup_insert_ne].
Qed.

Lemma fn_insert_same Q q l q' : Q q = l → (<[q := l]> Q) q' = Q q'.
Proof. intros <-. destruct (decide (q' = q)) as [->|]; [by rewrite fn_lookup_insert|by rewrite fn_lookup_insert_ne]. Qed.

Lemma keeps_size {A} (f : thread_st → A) ts ts' : keeps f ts ts' → size ts' = size ts.
Proof.
  intros Hk. rewrite <-!size_dom. f_equal. apply set_eq. intros p. rewrite !elem_of_dom. specialize (Hk p).
  destruct (ts' !! p), (ts !! p); cbn in Hk; try done; split; intros; eauto.
Qed.

Lemma ring_keeps s ts' R : ring s R → keeps sched_one (thread_at s) ts' → ring (set_thread_at ts' s) R.
Proof.
  intros [H1 H2 H3 H4 H5 H6 H7] Hk. split; try done. eapply lseg_ext; [|exact H7]. intros p _. apply Hk.
Qed.

(** Threads of the ring and of the queues are different. *)
Lemma tasks_apart s R Q q p : tasks s R Q → p ∈ rr_list R → p ∈ Q q → False.
Proof.
  intros Ht Hp Hq. destruct (tk_ready _ _ _ Ht p Hp) as (t & Et & Hs).
  destruct (tk_waiting _ _ _ Ht q p Hq) as (t' & Et' & Hs'). simplify_eq. destruct Hs, Hs'; congruence.
Qed.

Lemma tasks_queue_val s R Q q p : tasks s R Q → p ∈ Q q → is_Some (queue_val s q).
Proof.
  intros Ht Hp. destruct (queue_val s q) eqn:Eq; [eauto|]. rewrite (tk_noqueue _ _ _ Ht q Eq) in Hp.
  by apply elem_of_nil in Hp.
Qed.

(** The invariant after a change of the ring, with the queues as they were. *)
Lemma tasks_ring s s' R R' Q :
  tasks s R Q → ring s' R' → (∀ q, queue_val s' q = queue_val s q) →
  (∀ p, is_Some (process_at s !! p) → is_Some (process_at s' !! p)) →
  keeps (λ t, (lib_one t, owner t)) (thread_at s) (thread_at s') →
  (∀ p, p ∈ rr_list R' → ∃ t, thread_at s' !! p = Some t ∧ (run_state t = PROC_READY ∨ run_state t = PROC_RUNNING)) →
  (∀ q p t, p ∈ Q q → thread_at s !! p = Some t → ∃ t', thread_at s' !! p = Some t' ∧ run_state t' = run_state t) →
  tasks s' R' Q.
Proof.
  intros [H1 H2 H3 H4 H5 H6 H7 H8 H9] Hr Hq Hp Hk Hready Hwait. split; try done.
  - intros q v Hv. rewrite Hq in Hv. eapply queue_rep_keeps; [|by apply H2].
    intros p. specialize (Hk p). destruct (thread_at s' !! p), (thread_at s !! p); cbn in *; try done. by injection Hk as -> _.
  - intros q Hv. rewrite Hq in Hv. by apply H3.
  - intros q p Hpq. destruct (H5 q p Hpq) as (t & Et & Hs). destruct (Hwait q p t Hpq Et) as (t' & Et' & E1).
    exists t'. split; [done|]. by rewrite E1.
  - intros p t' Et'. specialize (Hk p). rewrite Et' in Hk. destruct (thread_at s !! p) as [t|] eqn:Et; [|done].
    injection Hk as Hl Ho. rewrite Ho. destruct (H7 p t Et); [by left|right; auto].
  - by rewrite (keeps_size _ _ _ Hk).
  - specialize (Hk 0). rewrite H9 in Hk. by destruct (thread_at s' !! 0).
Qed.

Lemma ring_count s R p : ring s R → p ∉ rr_list R → is_Some (thread_at s !! p) →
  (length (rr_list R) < size (thread_at s))%nat.
Proof.
  intros Hr Hp Hs. rewrite <-size_dom.
  assert (list_to_set (p :: rr_list R) ⊆ dom (thread_at s)) as Hsub.
  { intros x Hx. apply elem_of_list_to_set in Hx. apply elem_of_dom. apply elem_of_cons in Hx as [->|Hx]; [done|].
    destruct (ring_thread s R x Hr Hx) as (_ & t & ->). eauto. }
  apply subseteq_size in Hsub. rewrite size_list_to_set in Hsub; [cbn in Hsub; lia|].
  constructor; [done|apply Hr].
Qed.

Lemma put_q_threads q v s ts : put_q q v (set_thread_at ts s) = set_thread_at ts (put_q q v s).
Proof. by destruct q. Qed.
Lemma thread_at_put q v s : thread_at (put_q q v s) = thread_at s.
Proof. by destruct q. Qed.
Lemma ring_put q v s R : ring s R → ring (put_q q v s) R.
Proof. by destruct q. Qed.
Lemma queue_val_threads s ts q : queue_val (set_thread_at ts s) q = queue_val s q.
Proof. by destruct q. Qed.
Lemma process_put q v s p : is_Some (process_at s !! p) → is_Some (process_at (put_q q v s) !! p).
Proof. intros Hp. destruct q as [p'|p'|m|a]; cbn; [by apply lookup_alter_is_Some..|done|done]. Qed.

(** The invariant after a change of one queue. *)
Lemma tasks_put s R Q q v' l' ts' :
  tasks s R Q → is_Some (queue_val s q) → queue_rep ts' v' l' →
  keeps (λ t, (sched_one t, owner t, run_state t)) (thread_at s) ts' →
  (∀ q' p, q' ≠ q → p ∈ Q q' → lib_of ts' p = lib_of (thread_at s) p) →
  (∀ p, p ∈ l' → p ∈ Q q ∨ (∀ q', p ∉ Q q') ∧
    ∃ t, thread_at s !! p = Some t ∧ (run_state t = PROC_BLOCKED ∨ run_state t = PROC_ZOMBIE)) →
  tasks (set_thread_at ts' (put_q q v' s)) R (<[q := l']> Q).
Proof.
  intros [H1 H2 H3 H4 H5 H6 H7 H8 H9] Hq Hrep Hk Hlib Hl'.
  assert (∀ p t, thread_at s !! p = Some t → ∃ t', ts' !! p = Some t' ∧ owner t' = owner t ∧ run_state t' = run_state t) as Hsame.
  { intros p t Et. destruct (keeps_lookup _ _ _ _ _ Hk Et) as (t' & Et' & Ef). injection Ef as _ Eo Es. by exists t'. }
  split.
  - apply ring_keeps; [by apply ring_put|]. rewrite thread_at_put. intros p. specialize (Hk p).
    destruct (ts' !! p), (thread_at s !! p); cbn in *; try done. by injection Hk as -> _ _.
  - intros q' v Hv. rewrite queue_val_threads, queue_val_put in Hv by done. destruct (decide (q' = q)) as [->|Hne].
    + injection Hv as <-. by rewrite fn_lookup_insert.
    + rewrite fn_lookup_insert_ne by done. eapply queue_rep_ext; [|by apply H2]. intros p Hp. by apply (Hlib q').
  - intros q' Hv. rewrite queue_val_threads, queue_val_put in Hv by done. case_decide; [done|].
    rewrite fn_lookup_insert_ne by done. by apply H3.
  - intros p Hp. destruct (H4 p Hp) as (t & Et & Hs). destruct (Hsame p t Et) as (t' & Et' & _ & Es).
    exists t'. split; [done|]. by rewrite Es.
  - intros q' p Hp. assert (∃ t, thread_at s !! p = Some t ∧ (run_state t = PROC_BLOCKED ∨ run_state t = PROC_ZOMBIE)) as (t & Et & Hs).
    { destruct (decide (q' = q)) as [->|Hne]; [rewrite fn_lookup_insert in Hp|rewrite fn_lookup_insert_ne in Hp by done; by apply (H5 q')].
      destruct (Hl' p Hp) as [Hp'|[_ Hp']]; [by apply (H5 q)|done]. }
    destruct (Hsame p t Et) as (t' & Et' & _ & Es). exists t'. split; [done|]. by rewrite Es.
  - assert (∀ q' p, q' ≠ q → p ∈ l' → p ∈ Q q' → False) as Hcross.
    { intros q' p Hne Hp Hp'. destruct (Hl' p Hp) as [Hp''|[Hp'' _]]; [|by apply (Hp'' q')]. apply Hne. by eapply H6. }
    intros q1 q2 p. destruct (decide (q1 = q)) as [->|N1], (decide (q2 = q)) as [->|N2];
      rewrite ?fn_lookup_insert; repeat rewrite fn_lookup_insert_ne by done; [done| | |apply H6].
    + intros ? ?. exfalso. by apply (Hcross q2 p).
    + intros ? ?. exfalso. by apply (Hcross q1 p).
  - intros p t' Et'. cbn in Et'. specialize (Hk p). rewrite Et' in Hk. destruct (thread_at s !! p) as [t|] eqn:Et; [|done].
    injection Hk as _ Ho _. rewrite Ho. destruct (H7 p t Et); [by left|right]. by apply process_put.
  - cbn. by rewrite (keeps_size _ _ _ Hk).
  - cbn. specialize (Hk 0). rewrite H9 in Hk. by destruct (ts' !! 0).
Qed.

Lemma task_frame_queue s q v' ts' :
  is_Some (queue_val s q) → keeps thread_core (thread_at s) ts' → task_frame s (set_thread_at ts' (put_q q v' s)).
Proof.
  intros Hq Hk. destruct (task_frame_put q v' s Hq) as [_ F2 F3 F4 F5 F6]. by split.
Qed.

Lemma dequeue_spec s R Q q p l :
  tasks s R Q → Q q = p :: l →
  wp (dequeue q) s (λ r s', r = p ∧ tasks s' R (<[q := l]> Q) ∧ task_frame s s' ∧
    keeps run_state (thread_at s) (thread_at s')).
Proof.
  intros Ht Eq. destruct (tasks_queue_val s R Q q p Ht) as [v Hv]; [rewrite Eq; left|].
  pose proof (tk_queue _ _ _ Ht q v Hv) as Hrep. rewrite Eq in Hrep.
  destruct (queue_thread _ _ _ p Hrep) as (H0 & t & Et); [left|].
  destruct (queue_pop _ _ _ _ _ Hrep Et) as (Hh & Hiff & Hrep').
  unfold dequeue. wp_step. eapply wp_get_queue; [exact Hv|]. rewrite Hh, (proj2 (Z.eqb_neq p 0)) by done.
  wp_step. rewrite Hh in Hrep'.
  assert (∀ v' P, v' = (if p =? q_tail v then Queue 0 0 else Queue (lib_one t) (q_tail v)) →
    P tt (put_q q v' s) → wp (if p =? q_tail v then put_queue q (Queue 0 0)
      else t <- thread p ;; put_queue q (Queue (lib_one t) (q_tail v))) s P) as Hput.
  { intros v' P -> HP. destruct (p =? q_tail v); [by apply wp_put_queue|].
    wp_step. eapply wp_thread; [exact Et|]. by apply wp_put_queue. }
  eapply Hput; [reflexivity|]. wp_step. eapply wp_upd_thread; [by rewrite thread_at_put|]. apply wp_ret.
  rewrite thread_at_put. split; [done|]. split; [|split].
  - apply tasks_put; try done.
    + by eapply keeps_insert.
    + intros q' p' Hne Hp'. rewrite lib_of_insert by done. apply upd_ne. intros ->. apply Hne.
      eapply (tk_once _ _ _ Ht); [exact Hp'|]. rewrite Eq. left.
    + intros p' Hp'. left. rewrite Eq. by right.
  - apply task_frame_queue; [done|]. by eapply keeps_insert.
  - by eapply keeps_insert.
Qed.

Lemma enqueue_spec s R Q q p t :
  tasks s R Q → is_Some (queue_val s q) → thread_at s !! p = Some t → run_state t = PROC_BLOCKED →
  p ≠ 0 → (∀ q', p ∉ Q q') →
  wp (enqueue q p) s (λ _ s', tasks s' R (<[q := Q q ++ [p]]> Q) ∧ task_frame s s' ∧
    keeps run_state (thread_at s) (thread_at s')).
Proof.
  intros Ht [v Hv] Et Hs H0 Hfresh. pose proof (tk_queue _ _ _ Ht q v Hv) as Hrep.
  unfold enqueue. wp_step. eapply wp_upd_thread; [exact Et|]. wp_step. eapply wp_get_queue; [by rewrite queue_val_threads|].
  destruct (q_head v =? 0) eqn:Eh; bool_prop.
  - apply (queue_empty _ _ _ Hrep) in Eh. rewrite Eh. apply wp_put_queue; [by rewrite queue_val_threads|].
    rewrite put_q_threads. cbn [thread_at set_thread_at]. split; [|split].
    + apply tasks_put; try done; [by apply queue_first|by eapply keeps_insert| |].
      * intros q' p' _ Hp'. rewrite lib_of_insert by done. apply upd_ne. intros ->. by apply (Hfresh q').
      * intros p' ->%list_elem_of_singleton. right. split; [done|]. exists t. auto.
    + apply task_frame_queue; [done|]. by eapply keeps_insert.
    + by eapply keeps_insert.
  - assert (Q q ≠ []) as Hne by (rewrite <-(queue_empty _ _ _ Hrep); done).
    pose proof (qr_tail _ _ _ Hrep Hne) as Htl. symmetry in Htl. apply last_Some_elem_of in Htl.
    destruct (queue_thread _ _ _ _ Hrep Htl) as (_ & tt' & Ett).
    assert (<[p := set_lib_one 0 t]> (thread_at s) !! q_tail v = Some tt') as Ett'.
    { rewrite lookup_insert_ne; [done|]. intros ->. by apply (Hfresh q). }
    wp_step. eapply wp_upd_thread; [exact Ett'|]. apply wp_put_queue; [by rewrite !queue_val_threads|].
    rewrite !put_q_threads. cbn [thread_at set_thread_at].
    assert (∀ A (f : thread_st → A), (∀ t x, f (set_lib_one x t) = f t) →
      keeps f (thread_at s) (<[q_tail v := set_lib_one p tt']> (<[p := set_lib_one 0 t]> (thread_at s)))) as Hk.
    { intros A f Hf. eapply tkeeps_trans; eapply keeps_insert; try done. }
    split; [|split; [|by apply Hk]].
    + apply tasks_put; try done.
      * eapply queue_push; [exact Hrep|done|apply Hfresh|done|done|done].
      * by apply Hk.
      * intros q' p' Hneq Hp'. rewrite lib_of_insert by done. rewrite upd_ne.
        -- rewrite lib_of_insert by done. apply upd_ne. intros ->. by apply (Hfresh q').
        -- intros ->. apply Hneq. by eapply (tk_once _ _ _ Ht).
      * intros p' [Hp'| ->%list_elem_of_singleton]%elem_of_app; [by left|]. right. split; [done|]. exists t. auto.
    + apply task_frame_queue; [done|]. by apply Hk.
Qed.

(** ** Waking *)

Definition wake_ok s (p : Z) : bool :=
  match thread_at s !! p with
  | None => false
  | Some t =>
      negb (bool_decide (run_state t = PROC_ZOMBIE)) &&
      ((owner t =? 0) || match process_at s !! owner t with Some o => exiting o =? 0 | None => false end)
  end.

(** The state of [x] became [st], the other threads keep theirs. *)
Definition state_set s s' (x : Z) (st : proc_state_t) : Prop :=
  ∀ p, run_state <$> thread_at s' !! p = if decide (p = x) then Some st else run_state <$> thread_at s !! p.

Lemma wakeable_spec s R Q p :
  tasks s R Q → is_Some (thread_at s !! p) → p ≠ 0 → wp (wakeable p) s (λ b s', b = wake_ok s p ∧ s' = s).
Proof.
  intros Ht [t Et] H0. unfold wakeable, wake_ok. rewrite Et, (proj2 (Z.eqb_neq p 0)) by done.
  wp_step. eapply wp_thread; [exact Et|]. destruct (bool_decide (run_state t = PROC_ZOMBIE)); [by apply wp_ret|].
  cbn [negb andb]. destruct (tk_owner _ _ _ Ht p t Et) as [->|[o Ho]]; [by apply wp_ret|].
  destruct (owner t =? 0); [by apply wp_ret|]. wp_step. eapply wp_process; [exact Ho|]. apply wp_ret. by rewrite Ho.
Qed.

Lemma wake_ok_same s s' p :
  task_frame s s' → run_state <$> thread_at s' !! p = run_state <$> thread_at s !! p → wake_ok s' p = wake_ok s p.
Proof.
  intros Hf Hk. unfold wake_ok. pose proof (tf_threads _ _ Hf p) as Hc.
  destruct (thread_at s' !! p) as [t'|], (thread_at s !! p) as [t|]; try done. injection Hk as ->.
  assert (owner t' = owner t) as -> by (injection Hc; congruence).
  pose proof (tf_process _ _ Hf (owner t)) as Hp. destruct (process_at s' !! owner t) as [o'|], (process_at s !! owner t) as [o|]; try done.
  assert (exiting o' = exiting o) as -> by (injection Hp; congruence). done.
Qed.

Lemma wake_ok_frame s s' p :
  task_frame s s' → keeps run_state (thread_at s) (thread_at s') → wake_ok s' p = wake_ok s p.
Proof. intros Hf Hk. by apply wake_ok_same. Qed.

(** Making a thread that is nowhere ready, and queueing it. *)
Lemma wake_thread s R Q p t :
  tasks s R Q → thread_at s !! p = Some t → p ≠ 0 → p ∉ rr_list R → (∀ q, p ∉ Q q) →
  wp (upd_thread p (set_run_state PROC_READY) ;; rr_admit p) s (λ _ s',
    tasks s' (q_admit p R) Q ∧ task_frame s s' ∧ state_set s s' p PROC_READY).
Proof.
  intros Ht Et H0 Hp Hq. wp_step. eapply wp_upd_thread; [exact Et|]. set (ts1 := <[p := set_run_state PROC_READY t]> (thread_at s)).
  assert (ring (set_thread_at ts1 s) R) as Hr1.
  { apply ring_keeps; [apply Ht|]. by eapply keeps_insert. }
  eapply wp_mono; [apply (rr_admit_spec (set_thread_at ts1 s) R p (set_run_state PROC_READY t) Hr1); try done|].
  { apply lookup_insert_eq. }
  { destruct (ra_count _ _ _ _ _ _ (tk_ring _ _ _ Ht)) as [Hc _]. cbn. rewrite Hc.
    pose proof (ring_count s R p (tk_ring _ _ _ Ht) Hp ltac:(eauto)). pose proof (tk_few _ _ _ Ht). lia. }
  cbv beta. intros _ s' [Hring Hf]. pose proof (task_frame_sched _ _ Hf) as Htf.
  assert (state_set s s' p PROC_READY) as Hst.
  { intros x. destruct Hf as [Hs _]. rewrite (keeps_sched run_state _ _ ltac:(done) Hs x). cbn. unfold ts1.
    destruct (decide (x = p)) as [->|]; [by rewrite lookup_insert_eq|by rewrite lookup_insert_ne]. }
  split; [|split; [|done]].
  - eapply (tasks_ring s s' R); try done.
    + intros q. destruct Hf as [_ ->]. by destruct q.
    + intros x. by destruct Hf as [_ ->].
    + eapply tkeeps_trans; [|by eapply keeps_sched; [|apply Hf]]. by eapply keeps_insert.
    + intros x Hx. rewrite rr_list_admit in Hx. specialize (Hst x). destruct (decide (x = p)) as [->|Hne].
      * destruct (thread_at s' !! p) as [t'|]; [|done]. exists t'. injection Hst as ->. auto.
      * apply elem_of_app in Hx as [Hx| ->%list_elem_of_singleton]; [|done].
        destruct (tk_ready _ _ _ Ht x Hx) as (t' & Et' & Hs'). rewrite Et' in Hst.
        destruct (thread_at s' !! x) as [t2|]; [|done]. exists t2. injection Hst as ->. auto.
    + intros q x t' Hx Et'. specialize (Hst x). rewrite decide_False, Et' in Hst by (intros ->; by apply (Hq q)).
      destruct (thread_at s' !! x) as [t2|]; [|done]. exists t2. split; [done|]. by injection Hst.
  - eapply task_frame_trans; [|exact Htf]. by eapply task_frame_thread.
Qed.

(** Dead threads at the front of a queue, and the rest. *)
Inductive first_awake s : list Z → option (Z * list Z) → Prop :=
  | fa_none : first_awake s [] None
  | fa_dead p l r : wake_ok s p = false → first_awake s l r → first_awake s (p :: l) r
  | fa_here p l : wake_ok s p = true → first_awake s (p :: l) (Some (p, l)).

Lemma first_awake_frame s s' l r :
  (∀ p, p ∈ l → wake_ok s' p = wake_ok s p) → first_awake s' l r → first_awake s l r.
Proof.
  intros Hw Hf. induction Hf.
  - constructor.
  - apply fa_dead; [rewrite <-Hw by left; done|]. apply IHHf. intros x Hx. apply Hw. by right.
  - apply fa_here. by rewrite <-Hw by left.
Qed.

Lemma unblock_loop_spec fuel s R Q q :
  tasks s R Q → is_Some (queue_val s q) → (length (Q q) < fuel)%nat →
  wp (unblock_loop fuel q) s (λ p s', task_frame s s' ∧ ∃ r, first_awake s (Q q) r ∧
    match r with
    | None => p = 0 ∧ tasks s' R (<[q := []]> Q) ∧ keeps run_state (thread_at s) (thread_at s')
    | Some (x, l) => p = x ∧ x ≠ 0 ∧ tasks s' (q_admit x R) (<[q := l]> Q) ∧ state_set s s' x PROC_READY
    end).
Proof.
  revert s Q. induction fuel as [|fuel IH]; intros s Q Ht Hq Hlen; [lia|]. cbn [unblock_loop].
  destruct Hq as [v Hv]. pose proof (tk_queue _ _ _ Ht q v Hv) as Hrep.
  wp_step. eapply wp_get_queue; [exact Hv|]. destruct (Q q) as [|x l] eqn:Eq.
  - rewrite (proj2 (queue_empty _ _ _ Hrep) eq_refl). cbn [Z.eqb]. apply wp_ret. split; [apply task_frame_refl|].
    exists None. split; [constructor|]. split; [done|]. split; [|done]. eapply tasks_ext; [|exact Ht]. intros q'. by apply fn_insert_same.
  - destruct (queue_thread _ _ _ x Hrep) as (H0 & t & Et); [left|].
    rewrite (proj2 (Z.eqb_neq (q_head v) 0)) by (rewrite (queue_empty _ _ _ Hrep); done).
    wp_step. eapply wp_mono; [by apply (dequeue_spec s R Q q x l)|]. cbv beta. intros ? s1 (-> & Ht1 & Hf1 & Hk1).
    destruct (keeps_lookup _ _ _ _ _ Hk1 Et) as (t1 & Et1 & _).
    wp_step. eapply wp_mono; [by apply (wakeable_spec s1 R (<[q := l]> Q) x)|]. cbv beta. intros ? ? [-> ->].
    rewrite (wake_ok_frame s s1 x Hf1 Hk1). destruct (wake_ok s x) eqn:Ew.
    + assert (x ∉ rr_list R) as Hring by (intros Hin; eapply tasks_apart; [exact Ht|exact Hin|rewrite Eq; left]).
      pose proof (qr_nodup _ _ _ Hrep) as [Hxl _]%NoDup_cons.
      assert (∀ q', x ∉ (<[q := l]> Q) q') as Hnone.
      { intros q'. destruct (decide (q' = q)) as [->|Hne]; [by rewrite fn_lookup_insert|].
        rewrite fn_lookup_insert_ne by done. intros Hin. apply Hne. eapply (tk_once _ _ _ Ht); [exact Hin|]. rewrite Eq. left. }
      apply wp_seq. eapply wp_mono; [by apply (wake_thread s1 R (<[q := l]> Q) x t1)|]. cbv beta.
      intros _ s2 (Ht2 & Hf2 & Hst2). apply wp_ret. split; [by eapply task_frame_trans|].
      exists (Some (x, l)). split; [by constructor|]. split; [done|]. split; [done|]. split; [done|].
      intros p. rewrite Hst2. case_decide; [done|]. apply Hk1.
    + eapply wp_mono; [apply (IH s1 (<[q := l]> Q) Ht1)|].
      * by apply (tf_queue _ _ Hf1).
      * rewrite fn_lookup_insert. cbn in Hlen. lia.
      * cbv beta. rewrite fn_lookup_insert. intros p s2 (Hf2 & r & Hr & Hcase). split; [by eapply task_frame_trans|].
        exists r. split.
        { constructor; [done|]. eapply first_awake_frame; [|exact Hr]. intros y _. by apply wake_ok_frame. }
        destruct r as [[y l']|].
        -- destruct Hcase as (-> & Hy & Ht2 & Hst2). split; [done|]. split; [done|].
           split; [eapply tasks_ext; [|exact Ht2]; intros q'; apply fn_insert_twice|]. intros p. rewrite Hst2. case_decide; [done|]. apply Hk1.
        -- destruct Hcase as (-> & Ht2 & Hk2). split; [done|].
           split; [eapply tasks_ext; [|exact Ht2]; intros q'; apply fn_insert_twice|]. by eapply tkeeps_trans.
Qed.

Lemma queue_length ts v l : queue_rep ts v l → (length l ≤ size ts)%nat.
Proof.
  intros Hrep. rewrite <-size_dom. assert (list_to_set l ⊆ dom ts) as Hsub.
  { intros x Hx. apply elem_of_list_to_set in Hx. apply elem_of_dom. destruct (queue_thread _ _ _ x Hrep Hx) as (_ & t & ->). eauto. }
  apply subseteq_size in Hsub. rewrite size_list_to_set in Hsub; [done|apply Hrep].
Qed.

Lemma PROC_unblock_one_spec s R Q q :
  tasks s R Q → is_Some (queue_val s q) →
  wp (PROC_unblock_one (Some q)) s (λ p s', task_frame s s' ∧ ∃ r, first_awake s (Q q) r ∧
    match r with
    | None => p = 0 ∧ tasks s' R (<[q := []]> Q) ∧ keeps run_state (thread_at s) (thread_at s')
    | Some (x, l) => p = x ∧ x ≠ 0 ∧ tasks s' (q_admit x R) (<[q := l]> Q) ∧ state_set s s' x PROC_READY
    end).
Proof.
  intros Ht Hq. unfold PROC_unblock_one. wp_step. apply wp_gets. apply unblock_loop_spec; [done|done|].
  destruct Hq as [v Hv]. pose proof (queue_length _ _ _ (tk_queue _ _ _ Ht q v Hv)). lia.
Qed.

(** Threads appended to the ring in order. *)
Definition q_admits (l : list Z) (R : rrq) : rrq := RRQ (before R) (after R ++ l).

Definition awake s (l : list Z) : list Z := filter (λ p, wake_ok s p = true) l.

Lemma awake_ext s s' l : (∀ p, p ∈ l → wake_ok s' p = wake_ok s p) → awake s' l = awake s l.
Proof.
  unfold awake. induction l as [|p l IH]; intros Hw; [done|]. rewrite !filter_cons, Hw by left.
  rewrite IH; [done|]. intros x Hx. apply Hw. by right.
Qed.

Lemma first_awake_filter s l r :
  first_awake s l r → awake s l = match r with None => [] | Some (x, l') => x :: awake s l' end.
Proof.
  unfold awake. induction 1 as [|p l r Hp Hf IH|p l Hp]; [done| |by rewrite filter_cons_True].
  rewrite filter_cons_False by congruence. done.
Qed.

Lemma first_awake_suffix s l r : first_awake s l r →
  match r with None => True | Some (x, l') => ∃ d, l = d ++ x :: l' ∧ wake_ok s x = true end.
Proof.
  induction 1 as [|p l r Hp Hf IH|p l Hp]; [done| |by exists []].
  destruct r as [[x l']|]; [|done]. destruct IH as (d & -> & Hx). by exists (p :: d).
Qed.

Lemma unblock_all_loop_spec fuel s R Q q :
  tasks s R Q → is_Some (queue_val s q) → (length (Q q) < fuel)%nat →
  wp (unblock_all_loop fuel q) s (λ _ s', task_frame s s' ∧
    tasks s' (q_admits (awake s (Q q)) R) (<[q := []]> Q) ∧
    ∀ p, run_state <$> thread_at s' !! p = if decide (p ∈ awake s (Q q)) then Some PROC_READY else run_state <$> thread_at s !! p).
Proof.
  revert s R Q. induction fuel as [|fuel IH]; intros s R Q Ht Hq Hlen; [lia|]. cbn [unblock_all_loop].
  destruct Hq as [v Hv]. pose proof (tk_queue _ _ _ Ht q v Hv) as Hrep. wp_step. eapply wp_get_queue; [exact Hv|].
  destruct (Q q) as [|y l0] eqn:Eq.
  - rewrite (proj2 (queue_empty _ _ _ Hrep) eq_refl). cbn [Z.eqb]. apply wp_ret. split; [apply task_frame_refl|].
    split; [|intros p; by rewrite decide_False by (by intros ?%elem_of_nil)].
    eapply tasks_ext; [intros q'; by apply fn_insert_same|]. unfold q_admits, awake. cbn. rewrite app_nil_r. by destruct R.
  - rewrite (proj2 (Z.eqb_neq (q_head v) 0)) by (rewrite (queue_empty _ _ _ Hrep); done).
    unfold PROC_unblock_head. wp_step. wp_step. eapply wp_mono; [apply (PROC_unblock_one_spec s R Q q Ht); eauto|]. cbv beta.
    rewrite Eq. intros p1 s1 (Hf1 & r & Hr & Hcase). apply wp_ret. rewrite (first_awake_filter _ _ _ Hr).
    pose proof (proj2 (tf_queue _ _ Hf1 q) ltac:(eauto)) as Hq1. destruct r as [[x l]|].
    + destruct Hcase as (-> & Hx & Ht1 & Hst1). pose proof (first_awake_suffix _ _ _ Hr) as (d & El & Hwx).
      pose proof (qr_nodup _ _ _ Hrep) as Hnd. rewrite El in Hnd. apply NoDup_app in Hnd as (_ & _ & [Hxl _]%NoDup_cons).
      assert (awake s1 l = awake s l) as Ea.
      { apply awake_ext. intros z Hz. apply wake_ok_same; [done|]. rewrite Hst1, decide_False; [done|]. by intros ->. }
      eapply wp_mono; [apply (IH s1 (q_admit x R) (<[q := l]> Q) Ht1 Hq1)|].
      { rewrite fn_lookup_insert. rewrite El, length_app in Hlen. cbn in Hlen. lia. }
      cbv beta. rewrite fn_lookup_insert, Ea. intros _ s2 (Hf2 & Ht2 & Hst2). split; [by eapply task_frame_trans|]. split.
      * eapply tasks_ext; [intros q'; apply fn_insert_twice|]. unfold q_admits in *. cbn in *. by rewrite <-app_assoc in Ht2.
      * intros p. rewrite Hst2, Hst1. destruct (decide (p = x)) as [->|Hne].
        -- rewrite (decide_True (P := x ∈ x :: _)) by left. by case_decide.
        -- case_decide; [by rewrite decide_True by (by right)|]. rewrite decide_False; [done|]. by intros [?|?]%elem_of_cons.
    + destruct Hcase as (-> & Ht1 & Hk1). eapply wp_mono; [apply (IH s1 R (<[q := []]> Q) Ht1 Hq1)|].
      { rewrite fn_lookup_insert. cbn in *. lia. }
      cbv beta. rewrite fn_lookup_insert. intros _ s2 (Hf2 & Ht2 & Hst2). split; [by eapply task_frame_trans|]. split.
      * eapply tasks_ext; [intros q'; apply fn_insert_twice|]. exact Ht2.
      * intros p. rewrite Hst2. cbn. by rewrite decide_False by (by intros ?%elem_of_nil).
Qed.

Lemma PROC_unblock_all_spec s R Q q :
  tasks s R Q → is_Some (queue_val s q) →
  wp (PROC_unblock_all (Some q)) s (λ _ s', task_frame s s' ∧
    tasks s' (q_admits (awake s (Q q)) R) (<[q := []]> Q) ∧
    ∀ p, run_state <$> thread_at s' !! p = if decide (p ∈ awake s (Q q)) then Some PROC_READY else run_state <$> thread_at s !! p).
Proof.
  intros Ht Hq. unfold PROC_unblock_all. wp_step. apply wp_gets. apply unblock_all_loop_spec; [done|done|].
  destruct Hq as [v Hv]. pose proof (queue_length _ _ _ (tk_queue _ _ _ Ht q v Hv)). lia.
Qed.

(** ** Rescheduling *)

(** The states of threads that are in no queue may change; those of the ring stay runnable. *)
Lemma tasks_state s R Q p t st :
  tasks s R Q → thread_at s !! p = Some t → (∀ q, p ∉ Q q) →
  (p ∈ rr_list R → st = PROC_READY ∨ st = PROC_RUNNING) →
  tasks (set_thread_at (<[p := set_run_state st t]> (thread_at s)) s) R Q.
Proof.
  intros Ht Et Hq Hst. eapply (tasks_ring s); try done.
  - apply ring_keeps; [apply Ht|]. by eapply keeps_insert.
  - by eapply keeps_insert.
  - intros x Hx. cbn. destruct (decide (x = p)) as [->|Hne].
    + rewrite lookup_insert_eq. eexists. split; [done|]. by apply Hst.
    + rewrite lookup_insert_ne by done. by apply (tk_ready _ _ _ Ht).
  - intros q x t' Hx Et'. cbn. rewrite lookup_insert_ne; [eauto|]. intros ->. by apply (Hq q).
Qed.

Lemma rr_list_next R : rr_list (q_next R).2 = rr_list R.
Proof.
  unfold q_next. destruct R as [a [|c b]]; cbn; [done|]. rewrite rr_list_norm. unfold rr_list. cbn. by rewrite <-app_assoc.
Qed.

Lemma rr_next_tasks s R Q :
  tasks s R Q →
  wp rr_next s (λ p s', p = (q_next R).1 ∧ tasks s' (q_next R).2 Q ∧ task_frame s s' ∧
    keeps run_state (thread_at s) (thread_at s')).
Proof.
  intros Ht. eapply wp_mono; [apply (rr_next_spec s R), Ht|]. cbv beta. intros p s' (-> & Hr & Hf).
  assert (∀ A (f : thread_st → A), (∀ t x, f (set_sched_one x t) = f t) → keeps f (thread_at s) (thread_at s')) as Hk.
  { intros A f Hfs. by eapply keeps_sched; [|apply Hf]. }
  split; [done|]. split; [|split; [by apply task_frame_sched|by apply Hk]].
  eapply (tasks_ring s); try done.
  - intros q. destruct Hf as [_ ->]. by destruct q.
  - intros x. by destruct Hf as [_ ->].
  - by apply Hk.
  - intros x. rewrite rr_list_next. intros Hx. destruct (tk_ready _ _ _ Ht x Hx) as (t & Et & Hs).
    destruct (keeps_lookup _ _ _ _ _ (Hk _ run_state ltac:(done)) Et) as (t' & Et' & Es). exists t'. by rewrite Es.
  - intros q x t _ Et. by apply (keeps_lookup _ _ _ _ _ (Hk _ run_state ltac:(done)) Et).
Qed.

(** The next thread: the head of the order, but not the current one while there is another. *)
Definition pick (curr : Z) R : Z * rrq :=
  let '(c, R1) := q_next R in
  if decide (c = curr ∧ (1 < length (rr_list R))%nat) then q_next R1 else (c, R1).

Lemma pick_spec curr R :
  NoDup (rr_list R) → (rr_list R ≠ [] → after R ≠ []) → rr_list R ≠ [] →
  rr_list (pick curr R).2 = rr_list R ∧ (pick curr R).1 ∈ rr_list R ∧
  ((1 < length (rr_list R))%nat → (pick curr R).1 ≠ curr).
Proof.
  intros Hnd Ha Hne. destruct R as [a b]. specialize (Ha Hne). cbn in Ha. destruct b as [|c b]; [done|].
  assert (pick curr (RRQ a (c :: b)) = if decide (c = curr ∧ (1 < length (rr_list (RRQ a (c :: b))))%nat)
    then q_next (q_norm (a ++ [c]) b) else (c, q_norm (a ++ [c]) b)) as -> by done. pose proof (rr_list_next (RRQ a (c :: b))) as E1. cbn [q_next after before snd] in E1.
  case_decide as Hd.
  - destruct Hd as [-> Hlen]. split; [by rewrite rr_list_next|]. unfold rr_list in *. cbn [before after] in *.
    destruct b as [|d b]; cbn [q_norm q_next after before fst].
    + destruct a as [|x a]; [cbn in Hlen; lia|]. cbn in Hnd |- *. apply NoDup_cons in Hnd as [Hx _].
      split; [left|]. intros _ ->. apply Hx, elem_of_app. right. left.
    + split; [apply elem_of_app; right; right; left|]. intros _ ->. apply NoDup_app in Hnd as (_ & _ & [Hc _]%NoDup_cons).
      apply Hc. left.
  - cbn [fst snd]. split; [done|]. split; [apply elem_of_app; right; left|]. intros Hlen ->. by apply Hd.
Qed.

(** The states after rescheduling. *)
Definition resched_state (curr next : Z) (ts : gmap Z thread_st) (p : Z) : option proc_state_t :=
  if decide (p = next) then Some PROC_RUNNING else
  if decide (p = curr ∧ run_state <$> ts !! p = Some PROC_RUNNING) then Some PROC_READY else run_state <$> ts !! p.

Lemma tasks_next_proc s R Q v : tasks s R Q → tasks (set_next_proc v s) R Q.
Proof. intros [H1 H2 H3 H4 H5 H6 H7 H8 H9]. by split. Qed.

Lemma running_not_queued s R Q p t q :
  tasks s R Q → thread_at s !! p = Some t → run_state t = PROC_RUNNING → p ∉ Q q.
Proof.
  intros Ht Et Hs Hp. destruct (tk_waiting _ _ _ Ht q p Hp) as (t' & Et' & Hs'). simplify_eq. destruct Hs'; congruence.
Qed.

(** The choice of [PROC_reschedule]. *)
Lemma pick_next s s1 R Q :
  tasks s R Q → rr_list R ≠ [] → tasks s1 (q_next R).2 Q → task_frame s s1 → keeps run_state (thread_at s) (thread_at s1) →
  wp (if (q_next R).1 =? curr_proc s then n <- rr_qlen ;; if 1 <? n then rr_next else ret (q_next R).1
      else ret (q_next R).1) s1 (λ n s2, n = (pick (curr_proc s) R).1 ∧ tasks s2 (pick (curr_proc s) R).2 Q ∧
        task_frame s s2 ∧ keeps run_state (thread_at s) (thread_at s2)).
Proof.
  intros Ht Hne Ht1 Hf1 Hk1. unfold pick. destruct (q_next R) as [c R1] eqn:Eq. cbn [fst snd] in *.
  assert (rr_list R1 = rr_list R) as El by (rewrite <-(rr_list_next R), Eq; done).
  destruct (c =? curr_proc s) eqn:Ec; bool_prop.
  2: { rewrite decide_False by naive_solver. by apply wp_ret. }
  wp_step. apply wp_gets. destruct (ra_count _ _ _ _ _ _ (tk_ring _ _ _ Ht1)) as [-> _]. rewrite El.
  destruct (1 <? Z.of_nat (length (rr_list R))) eqn:E1; bool_prop.
  - rewrite decide_True by (split; [done|lia]). eapply wp_mono; [by apply rr_next_tasks|]. cbv beta.
    intros p s2 (-> & Ht2 & Hf2 & Hk2). split; [done|]. split; [done|]. split; [by eapply task_frame_trans|by eapply tkeeps_trans].
  - rewrite decide_False by lia. by apply wp_ret.
Qed.

(** Its changes of state. *)
Lemma resched_states s R Q n :
  tasks s R Q → n ∈ rr_list R → (curr_proc s = 0 ∨ is_Some (thread_at s !! curr_proc s)) →
  wp ((if curr_proc s =? 0 then ret tt
       else
         c <- thread (curr_proc s) ;;
         if bool_decide (run_state c = PROC_RUNNING) then upd_thread (curr_proc s) (set_run_state PROC_READY) else ret tt) ;;
      upd_thread n (set_run_state PROC_RUNNING) ;; modify (set_next_proc n)) s (λ _ s',
    tasks s' R Q ∧ task_frame s (set_next_proc (next_proc s) s') ∧ next_proc s' = n ∧
    ∀ p, run_state <$> thread_at s' !! p = resched_state (curr_proc s) n (thread_at s) p).
Proof.
  intros Ht Hn Hcurr. wp_step. set (curr := curr_proc s) in *.
  cut (wp (if curr =? 0 then ret tt
       else
         c <- thread curr ;;
         if bool_decide (run_state c = PROC_RUNNING) then upd_thread curr (set_run_state PROC_READY) else ret tt) s (λ _ s1,
    tasks s1 R Q ∧ task_frame s s1 ∧ ∀ p, run_state <$> thread_at s1 !! p =
      if decide (p = curr ∧ run_state <$> thread_at s !! p = Some PROC_RUNNING) then Some PROC_READY else run_state <$> thread_at s !! p)).
  { intros Hw. eapply wp_mono; [exact Hw|]. cbv beta. intros _ s1 (Ht1 & Hf1 & Hst1).
    destruct (ring_thread s1 R n (tk_ring _ _ _ Ht1) Hn) as (Hn0 & t & Et). wp_step. eapply wp_upd_thread; [exact Et|].
    apply wp_modify. assert (∀ q, n ∉ Q q) as Hnq by (intros q Hq; by eapply tasks_apart).
    split; [apply tasks_next_proc, tasks_state; auto|]. split; [|split; [done|]].
    - pose proof (task_frame_thread s1 n t (set_run_state PROC_RUNNING t) Et eq_refl) as Hf2.
      destruct (task_frame_trans _ _ _ Hf1 Hf2) as [F1 F2 F3 F4 F5 F6]. split; try done.
      cbn in F5 |- *. congruence.
    - intros p. unfold resched_state. cbn. destruct (decide (p = n)) as [->|Hne]; [by rewrite lookup_insert_eq|].
      by rewrite lookup_insert_ne. }
  destruct (curr =? 0) eqn:E0; bool_prop.
  - apply wp_ret. split; [done|]. split; [apply task_frame_refl|]. intros p. rewrite decide_False; [done|].
    intros [E1 Hr]. rewrite E1, E0, (tk_null _ _ _ Ht) in Hr. done.
  - destruct Hcurr as [?|[c Ec]]; [done|]. wp_step. eapply wp_thread; [exact Ec|]. case_bool_decide as Hs.
    + eapply wp_upd_thread; [exact Ec|]. split; [|split].
      * apply tasks_state; auto. intros q. by eapply running_not_queued.
      * by eapply task_frame_thread.
      * intros p. cbn. destruct (decide (p = curr)) as [->|Hne].
        -- rewrite lookup_insert_eq, Ec, decide_True by (cbn; by rewrite Hs). done.
        -- rewrite lookup_insert_ne, decide_False by naive_solver. done.
    + apply wp_ret. split; [done|]. split; [apply task_frame_refl|]. intros p. rewrite decide_False; [done|].
      intros [-> Hr]. rewrite Ec in Hr. cbn in Hr. congruence.
Qed.

Lemma PROC_reschedule_spec s R Q :
  tasks s R Q → (curr_proc s = 0 ∨ is_Some (thread_at s !! curr_proc s)) →
  wp PROC_reschedule s (λ _ s', ∃ R', tasks s' R' Q ∧ (rr_list R' = rr_list R ∧ (rr_list R ≠ [] → R' = (pick (curr_proc s) R).2)) ∧
    task_frame s (set_next_proc (next_proc s) s') ∧
    if decide (rr_list R = []) then
      next_proc s' = (if multitask_started s then main_thread else 0) ∧ keeps run_state (thread_at s) (thread_at s')
    else
      next_proc s' = (pick (curr_proc s) R).1 ∧
      ∀ p, run_state <$> thread_at s' !! p = resched_state (curr_proc s) (next_proc s') (thread_at s) p).
Proof.
  intros Ht Hcurr. unfold PROC_reschedule. wp_step. eapply wp_mono; [by apply rr_next_tasks|]. cbv beta.
  intros c s1 (-> & Ht1 & Hf1 & Hk1). pose proof (tf_vars _ _ Hf1) as V1. injection V1 as V1 V2 V3 V4 V5 V6 V7 V8.
  destruct (decide (rr_list R = [])) as [Ee|Hne].
  - assert (after R = []) as Ea by (by apply app_eq_nil in Ee as [_ ?]).
    unfold q_next in *. rewrite Ea in *. cbn [fst snd Z.eqb] in *. wp_step. apply wp_gets, wp_modify. exists R.
    split; [by apply tasks_next_proc|]. split; [by split|]. split; [|split; [cbn; by rewrite V5|done]].
    destruct Hf1 as [F1 F2 F3 F4 F5 F6]. split; try done. cbn. cbn in F5. congruence.
  - assert ((q_next R).1 ∈ rr_list R) as Hc.
    { pose proof (ra_after _ _ _ _ _ _ (tk_ring _ _ _ Ht) Hne). unfold q_next. destruct R as [a [|x b]]; [done|].
      apply elem_of_app. right. left. }
    destruct (ring_thread s R _ (tk_ring _ _ _ Ht) Hc) as (Hc0 & _). rewrite (proj2 (Z.eqb_neq _ 0)) by done.
    wp_step. apply wp_gets. rewrite V1. wp_step. eapply wp_mono; [by apply (pick_next s s1 R Q)|]. cbv beta.
    intros n s2 (-> & Ht2 & Hf2 & Hk2). pose proof (ra_nodup _ _ _ _ _ _ (tk_ring _ _ _ Ht)) as Hnd.
    destruct (pick_spec (curr_proc s) R Hnd (ra_after _ _ _ _ _ _ (tk_ring _ _ _ Ht)) Hne) as (El & Hin & _).
    assert (curr_proc s2 = curr_proc s) as Vc by (pose proof (tf_vars _ _ Hf2); congruence).
    assert (next_proc s2 = next_proc s) as Vn by (pose proof (tf_vars _ _ Hf2); congruence).
    pose proof (resched_states s2 (pick (curr_proc s) R).2 Q (pick (curr_proc s) R).1 Ht2) as Hw.
    rewrite El, Vc in Hw. eapply wp_mono; [apply Hw; [done|]|].
    { destruct Hcurr as [?|[c Ec]]; [by left|right]. destruct (keeps_lookup _ _ _ _ _ Hk2 Ec) as (t & -> & _). eauto. }
    cbv beta. intros _ s3 (Ht3 & Hf3 & Hn3 & Hst3). exists (pick (curr_proc s) R).2.
    split; [done|]. split; [by split|]. split; [|split; [done|]].
    + rewrite Vn in Hf3. by eapply task_frame_trans.
    + intros p. rewrite Hst3, Hn3. unfold resched_state. by rewrite (Hk2 p).
Qed.

(** ** Switching and blocking *)

Lemma wp_klift {A} (c : M E A) s a e P : c (env s) = Ret (a, e) → P a (set_env e s) → wp (Kernel.lift c) s P.
Proof. unfold wp, Kernel.lift. by intros ->. Qed.

(** The processor moved to another thread: the kernel's data are as they were, up to
    the saved stack pointers, the TSS, CR3 and the interrupt flag. *)
Record switched s s' : Prop := {
  sw_threads : keeps (set_rsp 0) (thread_at s) (thread_at s');
  sw_process : process_at s' = process_at s;
  sw_mutex : mutex_at s' = mutex_at s;
  sw_queue : queue_at s' = queue_at s;
  sw_ring : (Head s', Tail s', Current s', Count s') = (Head s, Tail s, Current s, Count s);
  sw_vars : (next_pid s', next_tid s', multitask_started s', mutex_list s', next_mutex_id s') =
            (next_pid s, next_tid s, multitask_started s, mutex_list s, next_mutex_id s)
}.

Lemma switched_run s s' : switched s s' → keeps run_state (thread_at s) (thread_at s').
Proof.
  intros Hs p. pose proof (sw_threads _ _ Hs p) as Hp. destruct (thread_at s' !! p) as [t'|], (thread_at s !! p) as [t|]; try done.
  cbn in *. f_equal. injection Hp. congruence.
Qed.

Lemma switched_tasks s s' R Q : switched s s' → tasks s R Q → tasks s' R Q.
Proof.
  intros Hs Ht. pose proof (switched_run _ _ Hs) as Hrun. destruct Hs as [F1 F2 F3 F4 F5 F6].
  injection F5 as E1 E2 E3 E4.
  assert (∀ A (f : thread_st → A), (∀ t x, f (set_rsp x t) = f t) → keeps f (thread_at s) (thread_at s')) as Hk.
  { intros A f Hf p. specialize (F1 p). destruct (thread_at s' !! p) as [t'|], (thread_at s !! p) as [t|]; try done.
    cbn in *. apply (inj Some) in F1. f_equal. by rewrite <-(Hf t' 0), F1, Hf. }
  eapply (tasks_ring s); try done.
  - unfold ring. rewrite E1, E2, E3, E4. pose proof (tk_ring _ _ _ Ht) as Hr.
    by apply (ring_keeps _ (thread_at s')) in Hr; [|apply Hk].
  - intros q. destruct q; cbn; congruence.
  - intros p. by rewrite F2.
  - by apply Hk.
  - intros p Hp. destruct (tk_ready _ _ _ Ht p Hp) as (t & Et & Hst). destruct (keeps_lookup _ _ _ _ _ Hrun Et) as (t' & Et' & Es).
    exists t'. by rewrite Es.
  - intros q p t _ Et. by apply (keeps_lookup _ _ _ _ _ Hrun Et).
Qed.

Lemma switch_mmu_and_tss_spec s R Q next t :
  tasks s R Q → next ≠ 0 → thread_at s !! next = Some t →
  wp (switch_mmu_and_tss next) s (λ _ s', ∃ r e, s' = set_env e (set_rsp0 r s) ∧ ke_ints e = ke_ints (env s) ∧
    (kstack t ≠ 0 → r = Z.land (u64 (kstack t + DEFAULT_STACK_BYTES)) (2 ^ 64 - 16))).
Proof.
  intros Ht Hn Et. unfold switch_mmu_and_tss. rewrite (proj2 (Z.eqb_neq next 0)) by done.
  wp_step. eapply wp_thread; [exact Et|]. wp_step.
  set (r := if kstack t =? 0 then rsp0 s else Z.land (u64 (kstack t + DEFAULT_STACK_BYTES)) (2 ^ 64 - 16)).
  assert (∀ P, P tt (set_rsp0 r s) → wp (if kstack t =? 0 then ret tt
    else modify (set_rsp0 (Z.land (u64 (kstack t + DEFAULT_STACK_BYTES)) (2 ^ 64 - 16)))) s P) as Hrsp.
  { intros P. unfold r. destruct (kstack t =? 0); [|done]. destruct s. done. }
  apply Hrsp. wp_step. eapply (wp_thread next t); [done|].
  assert (∀ p4 P, (∀ e, ke_ints e = ke_ints (env s) → P tt (set_env e (set_rsp0 r s))) →
    wp (Kernel.lift (ke_switch_p4 p4)) (set_rsp0 r s) P) as Hsw.
  { intros p4 P HP. destruct (ke_switch_returns p4 (env s)) as (e & He & Hi). eapply wp_klift; [exact He|]. by apply HP. }
  assert (∀ e, ke_ints e = ke_ints (env s) → ∃ r' e', set_env e (set_rsp0 r s) = set_env e' (set_rsp0 r' s) ∧
    ke_ints e' = ke_ints (env s) ∧ (kstack t ≠ 0 → r' = Z.land (u64 (kstack t + DEFAULT_STACK_BYTES)) (2 ^ 64 - 16))) as Hfin.
  { intros e He. exists r, e. split; [done|]. split; [done|]. intros Hk. unfold r. by rewrite (proj2 (Z.eqb_neq (kstack t) 0)). }
  destruct (tk_owner _ _ _ Ht next t Et) as [->|[o Ho]]; [cbn [Z.eqb]; wp_step; apply wp_gets; by apply Hsw|].
  destruct (owner t =? 0); [wp_step; apply wp_gets; by apply Hsw|].
  wp_step. eapply (wp_process _ o); [exact Ho|]. destruct (cr3 o =? 0); [wp_step; apply wp_gets|]; by apply Hsw.
Qed.

Lemma isr_return_spec s R Q sp t :
  tasks s R Q → let next := next_proc s in next ≠ 0 → next ≠ curr_proc s → thread_at s !! next = Some t →
  (curr_proc s = 0 ∨ is_Some (thread_at s !! curr_proc s)) →
  wp (isr_return sp) s (λ r s', switched s s' ∧ curr_proc s' = next ∧ next_proc s' = 0 ∧ r = rsp t ∧
    rsp <$> thread_at s' !! curr_proc s = (if decide (curr_proc s = 0) then None else Some sp)).
Proof.
  intros Ht next Hn0 Hne Et Hcurr. unfold isr_return. wp_step. apply wp_gets. wp_step. apply wp_gets. fold next.
  rewrite (proj2 (Z.eqb_neq next 0)), (proj2 (Z.eqb_neq next (curr_proc s))) by done. wp_step.
  assert (wp (if curr_proc s =? 0 then ret tt else upd_thread (curr_proc s) (set_rsp sp)) s (λ _ s1,
    ∃ ts1, s1 = set_thread_at ts1 s ∧ keeps (set_rsp 0) (thread_at s) ts1 ∧ ts1 !! next = Some t ∧
    rsp <$> ts1 !! curr_proc s = (if decide (curr_proc s = 0) then None else Some sp))) as Hsave.
  { destruct (curr_proc s =? 0) eqn:E0; bool_prop.
    - apply wp_ret. exists (thread_at s). split; [by destruct s|]. split; [done|]. split; [done|].
      rewrite decide_True, E0, (tk_null _ _ _ Ht) by done. done.
    - destruct Hcurr as [?|[c Ec]]; [done|]. eapply wp_upd_thread; [exact Ec|]. eexists. split; [done|].
      split; [by eapply keeps_insert|]. split; [by rewrite lookup_insert_ne|]. rewrite lookup_insert_eq, decide_False by done. done. }
  eapply wp_mono; [exact Hsave|]. cbv beta. intros _ s1 (ts1 & -> & Hk & Et1 & Hrsp).
  assert (switched s (set_thread_at ts1 s)) as Hsw1 by (by split).
  wp_step. eapply wp_mono; [apply (switch_mmu_and_tss_spec _ R Q next t); [by eapply switched_tasks|done|done]|]. cbv beta.
  intros _ s2 (r & e & -> & _ & _). wp_step. eapply (wp_thread next t); [done|]. wp_steps.
  split; [by split|]. split; [done|]. split; [done|]. split; [done|]. exact Hrsp.
Qed.

Lemma tasks_env s R Q e : tasks s R Q → tasks (set_env e s) R Q.
Proof. intros [H1 H2 H3 H4 H5 H6 H7 H8 H9]. by split. Qed.

(** What blocking keeps besides [tasks]: everything but scheduling data, saved stack
    pointers, the current and next thread, and the processor's state. *)
Record block_frame s s' : Prop := {
  bf_threads : keeps (λ t, set_rsp 0 (thread_core t)) (thread_at s) (thread_at s');
  bf_process p : process_core <$> process_at s' !! p = process_core <$> process_at s !! p;
  bf_mutex m : mutex_core <$> mutex_at s' !! m = mutex_core <$> mutex_at s !! m;
  bf_queue q : is_Some (queue_val s' q) ↔ is_Some (queue_val s q);
  bf_vars : (next_pid s', next_tid s', multitask_started s', mutex_list s', next_mutex_id s') =
            (next_pid s, next_tid s, multitask_started s, mutex_list s, next_mutex_id s)
}.

Lemma block_frame_refl s : block_frame s s.
Proof. by split. Qed.
Lemma block_frame_trans s1 s2 s3 : block_frame s1 s2 → block_frame s2 s3 → block_frame s1 s3.
Proof.
  intros [A1 A2 A3 A4 A5] [B1 B2 B3 B4 B5]. split.
  - by eapply tkeeps_trans.
  - intros p. by rewrite B2.
  - intros m. by rewrite B3.
  - intros q. by rewrite B4.
  - by rewrite B5.
Qed.

Lemma block_frame_task s s' v : task_frame s (set_next_proc v s') → block_frame s s'.
Proof.
  intros [F1 F2 F3 F4 F5 F6]. split; try done.
  - intros p. specialize (F1 p). cbn in F1. destruct (thread_at s' !! p), (thread_at s !! p); try done.
    cbn in *. apply (inj Some) in F1. by rewrite F1.
  - cbn in F5. congruence.
Qed.

Lemma block_frame_switched s s' : switched s s' → block_frame s s'.
Proof.
  intros [F1 F2 F3 F4 F5 F6]. split; try done.
  - intros p. specialize (F1 p). destruct (thread_at s' !! p) as [t'|], (thread_at s !! p) as [t|]; try done.
    cbn in *. apply (inj Some) in F1. f_equal. change (thread_core (set_rsp 0 t') = thread_core (set_rsp 0 t)). by rewrite F1.
  - intros p. by rewrite F2.
  - intros m. by rewrite F3.
  - intros q. destruct q; cbn; by rewrite ?F2, ?F3, ?F4.
Qed.

(** The thread leaves the ring. *)
Lemma block_current s R Q t :
  tasks s R Q → let curr := curr_proc s in curr ≠ 0 → thread_at s !! curr = Some t → (∀ q, curr ∉ Q q) →
  (length (rr_list R) = 1%nat → curr ∈ rr_list R) →
  wp (upd_thread curr (set_run_state PROC_BLOCKED) ;; rr_remove curr) s (λ _ s',
    tasks s' (q_remove curr R) Q ∧ task_frame s s' ∧ state_set s s' curr PROC_BLOCKED).
Proof.
  intros Ht curr H0 Et Hq H1. wp_step. eapply wp_upd_thread; [exact Et|].
  set (ts1 := <[curr := set_run_state PROC_BLOCKED t]> (thread_at s)).
  assert (ring (set_thread_at ts1 s) R) as Hr1 by (apply ring_keeps; [apply Ht|by eapply keeps_insert]).
  eapply wp_mono; [by apply (rr_remove_spec _ R curr)|]. cbv beta. intros _ s' [Hr Hf].
  assert (state_set s s' curr PROC_BLOCKED) as Hst.
  { intros p. destruct Hf as [Hs _]. rewrite (keeps_sched run_state _ _ ltac:(done) Hs p). cbn. unfold ts1.
    destruct (decide (p = curr)) as [->|]; [by rewrite lookup_insert_eq|by rewrite lookup_insert_ne]. }
  split; [|split; [|done]].
  - eapply (tasks_ring s); try done.
    + intros q. destruct Hf as [_ ->]. by destruct q.
    + intros x. by destruct Hf as [_ ->].
    + eapply tkeeps_trans; [|by eapply keeps_sched; [|apply Hf]]. by eapply keeps_insert.
    + intros x. rewrite rr_list_remove, list_elem_of_filter. intros [Hx Hin].
      destruct (tk_ready _ _ _ Ht x Hin) as (t' & Et' & Hs'). specialize (Hst x). rewrite decide_False, Et' in Hst by done.
      destruct (thread_at s' !! x) as [t2|]; [|done]. exists t2. injection Hst as ->. auto.
    + intros q x t' Hx Et'. specialize (Hst x). rewrite decide_False, Et' in Hst by (intros ->; by apply (Hq q)).
      destruct (thread_at s' !! x) as [t2|]; [|done]. exists t2. split; [done|]. by injection Hst.
  - eapply task_frame_trans; [|by apply task_frame_sched].
    by apply (task_frame_thread s curr t (set_run_state PROC_BLOCKED t)).
Qed.

(** A thread that blocks: it is at the end of the queue, no longer in the ring, with its
    stack pointer saved; another thread, or the idle thread, is running. *)
Record blocked s R Q q sp s' : Prop := {
  bl_frame : block_frame s s';
  bl_tasks : ∃ R', tasks s' R' (<[q := Q q ++ [curr_proc s]]> Q) ∧ rr_list R' = filter (λ x, x ≠ curr_proc s) (rr_list R) ∧
    (rr_list R' = [] → curr_proc s' = main_thread) ∧
    (rr_list R' ≠ [] → curr_proc s' ∈ rr_list R' ∧ run_state <$> thread_at s' !! curr_proc s' = Some PROC_RUNNING);
  bl_state : run_state <$> thread_at s' !! curr_proc s = Some PROC_BLOCKED;
  bl_rsp : rsp <$> thread_at s' !! curr_proc s = Some sp;
  bl_next : next_proc s' = 0;
  bl_other p : p ≠ curr_proc s → p ≠ curr_proc s' → run_state <$> thread_at s' !! p = run_state <$> thread_at s !! p
}.

(** The kernel's own thread, and a thread that can block. *)
Record can_block s R Q : Prop := {
  cb_tasks : tasks s R Q;
  cb_started : multitask_started s = true;
  cb_main : main_thread ≠ 0 ∧ is_Some (thread_at s !! main_thread) ∧ main_thread ≠ curr_proc s;
  cb_curr : curr_proc s ≠ 0 ∧ is_Some (thread_at s !! curr_proc s);
  cb_nowhere q : curr_proc s ∉ Q q;
  cb_one : length (rr_list R) = 1%nat → curr_proc s ∈ rr_list R
}.

(** What [PROC_reschedule] chose when the current thread has blocked. *)
Lemma next_of_blocked s R Q s' R' :
  tasks s R Q → let curr := curr_proc s in curr ∉ rr_list R → run_state <$> thread_at s !! curr = Some PROC_BLOCKED →
  multitask_started s = true → main_thread ≠ 0 → main_thread ≠ curr → is_Some (thread_at s !! main_thread) →
  rr_list R' = rr_list R →
  (if decide (rr_list R = []) then
     next_proc s' = (if multitask_started s then main_thread else 0) ∧ keeps run_state (thread_at s) (thread_at s')
   else
     next_proc s' = (pick curr R).1 ∧
     ∀ p, run_state <$> thread_at s' !! p = resched_state curr (next_proc s') (thread_at s) p) →
  let next := next_proc s' in next ≠ 0 ∧ next ≠ curr ∧ is_Some (thread_at s' !! next) ∧
    (rr_list R' = [] → next = main_thread) ∧
    (rr_list R' ≠ [] → next ∈ rr_list R' ∧ run_state <$> thread_at s' !! next = Some PROC_RUNNING) ∧
    ∀ p, p ≠ next → run_state <$> thread_at s' !! p = run_state <$> thread_at s !! p.
Proof.
  intros Ht curr Hcr Hb Hst Hm0 Hmc [tm Htm] El Hcase next. rewrite El. destruct (decide (rr_list R = [])) as [Ee|Hne].
  - destruct Hcase as [Hn Hk]. rewrite Hst in Hn. unfold next. rewrite Hn. split; [done|]. split; [done|]. split.
    + destruct (keeps_lookup _ _ _ _ _ Hk Htm) as (t & -> & _). eauto.
    + split; [done|]. split; [done|]. intros p _. apply Hk.
  - destruct Hcase as [Hn Hs].
    destruct (pick_spec curr _ (ra_nodup _ _ _ _ _ _ (tk_ring _ _ _ Ht)) (ra_after _ _ _ _ _ _ (tk_ring _ _ _ Ht)) Hne) as (_ & Hin & _).
    rewrite <-Hn in Hin. fold next in Hin, Hs. destruct (ring_thread s _ next (tk_ring _ _ _ Ht) Hin) as [Hn0 _].
    assert (run_state <$> thread_at s' !! next = Some PROC_RUNNING) as Hrun.
    { rewrite Hs. unfold resched_state. by rewrite decide_True. }
    split; [done|]. split; [by intros E1; rewrite E1 in Hin|].
    split; [apply fmap_Some in Hrun as (tn & -> & _); eauto|]. split; [done|]. split; [done|].
    intros p Hp. rewrite Hs. unfold resched_state. rewrite decide_False by done. rewrite decide_False; [done|].
    intros [-> Hr]. fold curr in Hr. congruence.
Qed.

Lemma PROC_block_on_spec s R Q q b sp :
  can_block s R Q → is_Some (queue_val s q) →
  wp (PROC_block_on (Some q) b sp) s (λ _ s', blocked s R Q q sp s').
Proof.
  intros [Ht Hst (Hm0 & [tm Htm] & Hmc) (Hc0 & [t Et]) Hnq H1] Hq. set (curr := curr_proc s) in *.
  unfold PROC_block_on. wp_step. apply wp_gets. fold curr. apply wp_seq.
  eapply wp_mono; [by apply (block_current s R Q t)|]. cbv beta. fold curr. intros _ s1 (Ht1 & Hf1 & Hst1).
  pose proof (Hst1 curr) as Hs1. rewrite decide_True in Hs1 by done. apply fmap_Some in Hs1 as (t1 & Et1 & Hs1).
  wp_step. eapply wp_mono; [apply (enqueue_spec s1 (q_remove curr R) Q q curr t1); try done|].
  { by apply (tf_queue _ _ Hf1). }
  cbv beta. intros _ s2 (Ht2 & Hf2 & Hk2). pose proof (task_frame_trans _ _ _ Hf1 Hf2) as Hf.
  pose proof (tf_vars _ _ Hf) as Hv. injection Hv as V1 V2 V3 V4 V5 V6 V7 V8.
  assert (∀ p, run_state <$> thread_at s2 !! p = if decide (p = curr) then Some PROC_BLOCKED else run_state <$> thread_at s !! p) as Hs2.
  { intros p. by rewrite (Hk2 p), (Hst1 p). }
  wp_step. assert (∀ P, (∀ e, P tt (set_env e s2)) → wp (sti_if b) s2 P) as Hsti.
  { intros P HP. destruct b; [apply HP|]. apply wp_ret. rewrite <-(set_env_env s2). apply HP. }
  apply Hsti. intros e. unfold yield. wp_step. apply wp_modify. set (s3 := set_env _ _). wp_step.
  assert (tasks s3 (q_remove curr R) (<[q := Q q ++ [curr]]> Q)) as Ht3 by (unfold s3; by do 2 apply tasks_env).
  assert (curr_proc s3 = curr) as Vc by done.
  eapply wp_mono; [apply (PROC_reschedule_spec s3 _ _ Ht3)|].
  { right. rewrite Vc. specialize (Hs2 curr). rewrite decide_True in Hs2 by done. apply fmap_Some in Hs2 as (t2 & Et2 & _). by exists t2. }
  cbv beta. intros _ s4 (R4 & Ht4 & [El4 _] & Hf4 & Hcase).
  assert (curr ∉ rr_list (q_remove curr R)) as Hcr by (rewrite rr_list_remove, list_elem_of_filter; naive_solver).
  assert (run_state <$> thread_at s3 !! curr = Some PROC_BLOCKED) as Hb3.
  { change (thread_at s3) with (thread_at s2). by rewrite Hs2, decide_True. }
  assert (is_Some (thread_at s3 !! main_thread)) as Hm3.
  { pose proof (Hs2 main_thread) as Hm. rewrite decide_False, Htm in Hm by done. apply fmap_Some in Hm as (x & Hx & _). by exists x. }
  pose proof (next_of_blocked s3 _ _ s4 R4 Ht3) as Hnx. cbv zeta in Hnx. rewrite Vc in Hnx, Hcase.
  destruct (Hnx Hcr Hb3 (eq_trans V5 Hst) Hm0 Hmc Hm3 El4 Hcase) as (N0 & Nc & [tn Etn] & Ne & Nn & No).
  set (next := next_proc s4) in *.
  assert (run_state <$> thread_at s4 !! curr = Some PROC_BLOCKED) as Nb by (rewrite No; done).
  assert (curr_proc s4 = curr) as Vc4.
  { rewrite <-Vc. pose proof (tf_vars _ _ Hf4) as V. by injection V. }
  pose proof (isr_return_spec s4 R4 _ sp tn Ht4 N0) as Hret. rewrite Vc4 in Hret.
  eapply wp_mono; [apply Hret; [done|done|right; by apply fmap_Some in Nb as (tb & -> & _); exists tb]|]. cbv beta.
  intros r s5 (Hsw & Hc5 & Hn5 & _ & Hrsp). fold next in Hc5. rewrite decide_False in Hrsp by done.
  pose proof (switched_run _ _ Hsw) as Hk5. split; fold curr; rewrite ?Hc5.
  - eapply block_frame_trans; [eapply (block_frame_task s s2 (next_proc s2)); by destruct s2|].
    eapply block_frame_trans; [|by apply block_frame_switched].
    destruct (block_frame_task _ _ _ Hf4) as [B1 B2 B3 B4 B5]. split; done.
  - exists R4. split; [by eapply switched_tasks|]. rewrite El4, rr_list_remove in *. rewrite (Hk5 next). done.
  - by rewrite (Hk5 curr).
  - done.
  - done.
  - intros p Hp Hpn. rewrite (Hk5 p), No by done. change (thread_at s3) with (thread_at s2). by rewrite Hs2, decide_False.
Qed.

(** ** Giving the processor up *)

Record yielded s R Q sp r s' : Prop := {
  yl_frame : block_frame s s';
  yl_tasks : ∃ R', tasks s' R' Q ∧ rr_list R' = rr_list R ∧ (rr_list R ≠ [] → R' = (pick (curr_proc s) R).2);
  yl_curr : curr_proc s' = if decide (rr_list R = []) then main_thread else (pick (curr_proc s) R).1;
  yl_waiting q p : p ∈ Q q → run_state <$> thread_at s' !! p = run_state <$> thread_at s !! p;
  yl_stay : curr_proc s' = curr_proc s → r = sp;
  yl_save : curr_proc s' ≠ curr_proc s → rsp <$> thread_at s' !! curr_proc s = Some sp;
  yl_restore : curr_proc s' ≠ curr_proc s → rsp <$> thread_at s !! curr_proc s' = Some r
}.

Lemma resched_waiting s R Q n q p :
  tasks s R Q → n ∈ rr_list R → p ∈ Q q → resched_state (curr_proc s) n (thread_at s) p = run_state <$> thread_at s !! p.
Proof.
  intros Ht Hn Hp. unfold resched_state. rewrite decide_False by (intros ->; by eapply tasks_apart).
  rewrite decide_False; [done|]. intros [_ Hr]. apply fmap_Some in Hr as (t & Et & Hr).
  by eapply (running_not_queued s R Q p t q).
Qed.

Lemma yield_spec s R Q sp :
  tasks s R Q → multitask_started s = true → main_thread ≠ 0 → is_Some (thread_at s !! main_thread) →
  curr_proc s ≠ 0 → is_Some (thread_at s !! curr_proc s) → wp (yield sp) s (yielded s R Q sp).
Proof.
  intros Ht Hst Hm0 Hm Hc0 Hc. unfold yield. wp_step. apply wp_modify. set (s0 := set_env _ s). wp_step.
  eapply wp_mono; [apply (PROC_reschedule_spec s0 R Q); [by apply tasks_env|by right]|]. cbv beta.
  intros _ s1 (R1 & Ht1 & El & Hf & Hcase). change (curr_proc s0) with (curr_proc s) in Hcase.
  change (multitask_started s0) with (multitask_started s) in Hcase. rewrite Hst in Hcase.
  assert (block_frame s s1) as Hbf by (destruct (block_frame_task _ _ _ Hf) as [B1 B2 B3 B4 B5]; by split).
  assert (curr_proc s1 = curr_proc s) as Vc by (pose proof (tf_vars _ _ Hf) as V; by injection V).
  assert (∀ p, rsp <$> thread_at s1 !! p = rsp <$> thread_at s !! p) as Hrsp.
  { intros p. pose proof (tf_threads _ _ Hf p) as Hp. change (thread_at s0) with (thread_at s) in Hp. cbn in Hp.
    destruct (thread_at s1 !! p), (thread_at s !! p); try done. cbn in *. injection Hp. congruence. }
  assert (∀ p, is_Some (thread_at s !! p) → is_Some (thread_at s1 !! p)) as Hsome.
  { intros p [t Et]. specialize (Hrsp p). rewrite Et in Hrsp. destruct (thread_at s1 !! p); [eauto|done]. }
  set (n := next_proc s1) in *.
  assert (n = (if decide (rr_list R = []) then main_thread else (pick (curr_proc s) R).1) ∧ n ≠ 0 ∧
    is_Some (thread_at s1 !! n) ∧ ∀ q p, p ∈ Q q → run_state <$> thread_at s1 !! p = run_state <$> thread_at s !! p)
    as (Hn & Hn0 & [tn Etn] & Hw).
  { destruct (decide (rr_list R = [])) as [Ee|Hne].
    - destruct Hcase as [-> Hk]. split; [done|]. split; [done|]. split; [by apply Hsome|]. intros q p _. apply Hk.
    - destruct Hcase as [Hn Hs]. split; [done|]. pose proof (tk_ring _ _ _ Ht) as Hr.
      destruct (pick_spec (curr_proc s) R (ra_nodup _ _ _ _ _ _ Hr) (ra_after _ _ _ _ _ _ Hr) Hne) as (_ & Hin & _).
      rewrite <-Hn in Hin. destruct (ring_thread s R n Hr Hin) as (H0 & t & Et). split; [done|].
      split; [apply Hsome; eauto|]. intros q p Hp. rewrite Hs. by eapply (resched_waiting s R Q). }
  destruct (decide (n = curr_proc s)) as [En|Hnc].
  - unfold isr_return. wp_step. apply wp_gets. wp_step. apply wp_gets. fold n. rewrite Vc, En, Z.eqb_refl.
    rewrite (proj2 (Z.eqb_neq (curr_proc s) 0)) by done. apply wp_ret. split; try congruence; eauto.
  - pose proof (isr_return_spec s1 R1 Q sp tn Ht1 Hn0) as Hret. rewrite Vc in Hret. fold n in Hret.
    eapply wp_mono; [apply Hret; [done|done|right; by apply Hsome]|]. cbv beta.
    intros r s2 (Hsw & Hc2 & _ & -> & Hsave). rewrite decide_False in Hsave by done.
    split; rewrite ?Hc2; try done.
    + eapply block_frame_trans; [exact Hbf|]. by apply block_frame_switched.
    + exists R1. split; [by eapply switched_tasks|done].
    + intros q p Hp. rewrite (switched_run _ _ Hsw p). by eapply Hw.
    + intros _. by rewrite <-Hrsp, Etn.
Qed.
End tasks.
