(* ===== verification/KernelExample.v ===== *)
(** * A kernel for the examples

    A memory that hands out fresh addresses in order stands for the heap under
    [KernelEnv]; two threads of a process and the idle thread run on it. *)

From S2P Require Import Prelude Links Kernel RoundRobin TaskQueue TaskQueueProofs.

(** Interrupts, the next address, the page table root in use, and the words stored. *)
Record toy := Toy { toy_ints : bool; toy_next : Z; toy_cr3 : Z; toy_words : gmap Z Z }.

#[export] Instance toy_env : KernelEnv toy := {|
  ke_ints := toy_ints;
  ke_set_ints b h := Toy b (toy_next h) (toy_cr3 h) (toy_words h);
  ke_kmalloc n := λ h, Ret (toy_next h, Toy (toy_ints h) (toy_next h + n) (toy_cr3 h) (toy_words h));
  ke_kfree _ := ret tt;
  ke_load8 a := gets (λ h, u8 (default 0 (toy_words h !! a)));
  ke_store8 a v := modify (λ h, Toy (toy_ints h) (toy_next h) (toy_cr3 h) (<[a := u8 v]> (toy_words h)));
  ke_load64 a := gets (λ h, default 0 (toy_words h !! a));
  ke_store64 a v := modify (λ h, Toy (toy_ints h) (toy_next h) (toy_cr3 h) (<[a := v]> (toy_words h)));
  ke_store32 a v := modify (λ h, Toy (toy_ints h) (toy_next h) (toy_cr3 h) (<[a := v]> (toy_words h)));
  ke_kernel_p4 _ := 0x90000;
  ke_switch_p4 p := modify (λ h, Toy (toy_ints h) (toy_next h) p (toy_words h));
  ke_clone_userspace p := ret (p + 0x1000);
  ke_destroy_userspace _ := ret tt
|}.

#[export] Instance toy_laws : KernelEnvLaws toy.
Proof. split; [done|done|by intros []|]. intros p4 h. by eexists. Qed.

#[export] Instance toy_layout : TaskLayout := {| main_thread := 0x9000; kernel_process := 0x8000; thread_start_addr := 0x7000 |}.

Definition toy_process (pid_ cr3_ threads_ : Z) : process_st := Process pid_ cr3_ 0 0 0 threads_ 2 0 0 0 (Queue 0 0) (Queue 0 0).
Definition toy_thread (tid_ owner_ : Z) (st : proc_state_t) (next_t sched : Z) : thread_st :=
  Thread tid_ (0x100000 * tid_) 0 DEFAULT_STACK_BYTES owner_ (0x100000 * tid_ + 0x1f00) st 0 next_t 0 0 sched 0 0.

(** Threads 0x1000, running, and 0x2000, of the process 0x5000. *)
Definition toy_kernel : kst toy :=
  KState {[ 0x9000 := toy_thread 0 0x8000 PROC_READY 0 0;
            0x1000 := toy_thread 1 0x5000 PROC_RUNNING 0x2000 0x2000; 0x2000 := toy_thread 2 0x5000 PROC_READY 0 0x1000 ]}
         {[ 0x8000 := toy_process 0 0 0x9000; 0x5000 := toy_process 1 0x50000 0x1000 ]}
         ∅ {[ 0x6000 := Queue 0 0 ]} 0x1000 0x2000 0x2000 2 0x1000 0 2 3 true 0 1 0 (Toy true 0x20000 0x50000 ∅).
Definition toy_ring : rrq := RRQ [0x1000] [0x2000].

Lemma toy_ring_ok : ring toy_kernel toy_ring.
Proof.
  split; try done.
  - repeat (constructor; [set_solver by lia|]). constructor.
  - split; [done|]. split; [lia|]. exists 0x2000. split; [done|]. split; [done|]. split; [lia|]. by exists 0x1000.
Qed.

#[local] Instance queue_eq_dec : EqDecision proc_queue.
Proof. solve_decision. Defined.

Section quiet.
Context {E : Type} `{!KernelEnv E}.

(** Nobody waits. *)
Lemma tasks_quiet (s : kst E) (R : rrq) :
  ring s R → map_Forall (λ _ o, wait_child_exit o = Queue 0 0 ∧ wait_thread_exit o = Queue 0 0) (process_at s) →
  map_Forall (λ _ x, waiters x = Queue 0 0) (mutex_at s) → map_Forall (λ _ v, v = Queue 0 0) (queue_at s) →
  Forall (λ p, (λ t, bool_decide (run_state t = PROC_READY ∨ run_state t = PROC_RUNNING)) <$> thread_at s !! p = Some true) (rr_list R) →
  map_Forall (λ _ t, owner t = 0 ∨ is_Some (process_at s !! owner t)) (thread_at s) →
  Z.of_nat (size (thread_at s)) < 2 ^ 31 - 2 → thread_at s !! 0 = None → tasks s R (λ _, []).
Proof.
  intros Hr Hp Hm Hq Hst Ho Hf H0. split; try done.
  - intros q v Hv. assert (v = Queue 0 0) as ->; [|split; [constructor|done|done]].
    destruct q as [p|p|m|a]; cbn in Hv; [apply fmap_Some in Hv as (y & Ey & ->)..|].
    + apply (Hp _ _ Ey).
    + apply (Hp _ _ Ey).
    + apply (Hm _ _ Ey).
    + apply (Hq _ _ Hv).
  - intros p Hin. rewrite Forall_forall in Hst. specialize (Hst p Hin). cbn in Hst.
    destruct (thread_at s !! p) as [t|]; [|done]. exists t. split; [done|]. apply (inj Some) in Hst. by apply bool_decide_eq_true in Hst.
  - intros q p ?%elem_of_nil. done.
  - intros q q' p ?%elem_of_nil. done.
Qed.
End quiet.

Lemma toy_tasks : tasks toy_kernel toy_ring (λ _, []).
Proof.
  apply tasks_quiet; [apply toy_ring_ok| | | | | | |reflexivity].
  - apply (bool_decide_unpack _). vm_compute. exact I.
  - apply (bool_decide_unpack _). vm_compute. exact I.
  - apply (bool_decide_unpack _). vm_compute. exact I.
  - apply (bool_decide_unpack _). vm_compute. exact I.
  - apply (bool_decide_unpack _). vm_compute. exact I.
  - by vm_compute.
 Qed.
