(* ===== verification/SchedTheorems.v ===== *)
(** * Blocking, waking and preemption

    The promises of [PROC_block_on], [PROC_unblock_all], [PROC_unblock_one] and of the
    switch at the end of an interrupt. *)

From stdpp Require Import functions.
From S2P Require Import Prelude Links Kernel RoundRobin TaskQueue TaskQueueProofs KernelExample.

Section theorems.
Context {E : Type} {KE : KernelEnv E} {KL : KernelEnvLaws E} {TL : TaskLayout}.
Implicit Types (s : kst E) (R : rrq) (Q : qref → list Z).

(** [PROC_block_on] puts the current thread at the end of the queue and takes it
    out of the scheduler with its stack pointer saved; the processor goes to a thread
    that can run, or to the idle thread when there is none. *)
Theorem PROC_block_on_correct s R Q q b sp :
  can_block s R Q → is_Some (queue_val s q) →
  ∃ r s' R', PROC_block_on (Some q) b sp s = Ret (r, s') ∧
    tasks s' R' (<[q := Q q ++ [curr_proc s]]> Q) ∧ rr_list R' = filter (λ p, p ≠ curr_proc s) (rr_list R) ∧
    (λ t, (run_state t, rsp t)) <$> thread_at s' !! curr_proc s = Some (PROC_BLOCKED, sp) ∧
    (if decide (rr_list R' = []) then curr_proc s' = main_thread
     else curr_proc s' ∈ rr_list R' ∧ run_state <$> thread_at s' !! curr_proc s' = Some PROC_RUNNING).
Proof.
  intros Hcb Hq. pose proof (PROC_block_on_spec s R Q q b sp Hcb Hq) as (r & s' & Er & [_ (R' & Ht & El & Hm & Hr) Hb Hsp _ _])%wp_iff.
  exists r, s', R'. split; [done|]. split; [done|]. split; [done|]. split.
  - destruct (thread_at s' !! curr_proc s) as [t|]; [|done]. cbn in *. congruence.
  - case_decide; auto.
Qed.

(** [PROC_unblock_all] empties the queue: the waiting threads that are alive enter
    the scheduler in the order they waited, and dead ones are dropped. *)
Theorem PROC_unblock_all_correct s R Q q :
  tasks s R Q → is_Some (queue_val s q) →
  ∃ s', PROC_unblock_all (Some q) s = Ret (tt, s') ∧ tasks s' (q_admits (awake s (Q q)) R) (<[q := []]> Q) ∧
    task_frame s s' ∧
    ∀ p, run_state <$> thread_at s' !! p = if decide (p ∈ awake s (Q q)) then Some PROC_READY else run_state <$> thread_at s !! p.
Proof.
  intros Ht Hq. pose proof (PROC_unblock_all_spec s R Q q Ht Hq) as ([] & s' & Er & Hs)%wp_iff. exists s'. naive_solver.
Qed.

(** Timer interrupts, one per saved stack pointer; the answer is who ran after each. *)
Fixpoint ticks (sps : list Z) : M (kst E) (list Z) :=
  match sps with
  | [] => ret []
  | sp :: sps => yield sp ;; c <- gets curr_proc ;; l <- ticks sps ;; ret (c :: l)
  end.

(** The current thread is the one the scheduler chose last. *)
Definition turn_of s R : Prop := last (rr_order R) = Some (curr_proc s).

Lemma turn_next c R x l :
  rr_order R = x :: l → NoDup (rr_order R) → (rr_list R ≠ [] → after R ≠ []) → last (rr_order R) = Some c →
  (pick c R).1 = x ∧ rr_order (pick c R).2 = l ++ [x].
Proof.
  intros Eo Hnd Ha Hc. destruct R as [a b]. unfold rr_order, rr_list in *. cbn [before after] in *.
  destruct b as [|y b]; [destruct a; [done|]; exfalso; by apply Ha|]. injection Eo as -> <-.
  assert (pick c (RRQ a (x :: b)) = (x, q_norm (a ++ [x]) b)) as ->.
  { unfold pick. cbn [q_next after before]. rewrite decide_False; [done|]. intros [-> Hlen]. unfold rr_list in Hlen. cbn in Hlen, Hnd, Hc.
    apply NoDup_cons in Hnd as [Hx _]. apply Hx. rewrite length_app in Hlen. cbn in Hlen.
    destruct (b ++ a) as [|z k] eqn:Ek; [apply app_eq_nil in Ek as [-> ->]; cbn in Hlen; lia|].
    change (last (z :: k) = Some c) in Hc. by apply last_Some_elem_of in Hc. }
  split; [done|]. cbn [snd]. destruct b as [|z b]; cbn; [by rewrite app_nil_r|]. by rewrite (assoc_L app).
Qed.

Lemma ticks_spec sps s R Q :
  tasks s R Q → multitask_started s = true → main_thread ≠ 0 → is_Some (thread_at s !! main_thread) → turn_of s R →
  (length sps ≤ length (rr_list R))%nat →
  wp (ticks sps) s (λ l s', l = take (length sps) (rr_order R) ∧ ∃ R', tasks s' R' Q ∧ turn_of s' R' ∧
    rr_order R' = drop (length sps) (rr_order R) ++ take (length sps) (rr_order R)).
Proof.
  revert s R. induction sps as [|sp sps IH]; intros s R Ht Hst Hm0 Hm Hturn Hlen.
  { apply wp_ret. split; [done|]. exists R. by rewrite app_nil_r. }
  pose proof (tk_ring _ _ _ Ht) as Hr. assert (rr_order R ≡ₚ rr_list R) as HP by apply Permutation_app_comm.
  destruct (rr_order R) as [|x l] eqn:Eo; [apply Permutation_length in HP; cbn in HP, Hlen; lia|].
  assert (NoDup (rr_order R)) as Hnd by (rewrite Eo, HP; apply Hr).
  assert (rr_list R ≠ []) as Hne by (intros E1; apply Permutation_length in HP; by rewrite E1 in HP).
  assert (curr_proc s ∈ rr_list R) as Hc by (rewrite <-HP, <-Eo; by apply last_Some_elem_of).
  destruct (ring_thread s R _ Hr Hc) as (Hc0 & t & Et).
  destruct (turn_next _ R x l Eo Hnd (ra_after _ _ _ _ _ _ Hr) Hturn) as [Hp Hp2].
  cbn [ticks]. wp_step. eapply wp_mono; [apply (yield_spec s R Q sp); try done; by exists t|]. cbv beta.
  intros r s1 [Y1 (R1 & Ht1 & El1 & HR1) Y3 _ _ _ _]. specialize (HR1 Hne). rewrite decide_False, Hp in Y3 by done. rewrite <-HR1 in Hp2.
  assert (length (rr_list R) = S (length l)) as Hl by (by rewrite <-HP).
  wp_step. apply wp_gets. wp_step. eapply wp_mono; [apply (IH s1 R1 Ht1)|].
  - pose proof (bf_vars _ _ Y1). congruence.
  - done.
  - destruct Hm as [tm Etm]. destruct (keeps_lookup _ _ _ _ _ (bf_threads _ _ Y1) Etm) as (tm' & -> & _). eauto.
  - unfold turn_of. by rewrite Hp2, last_snoc, Y3.
  - rewrite El1. cbn in Hlen. lia.
  - cbv beta. intros k s2 (-> & R2 & Ht2 & Hturn2 & Eo2). apply wp_ret. cbn [length] in *.
    rewrite Hp2, take_app_le, drop_app_le in * by lia. rewrite Y3. split; [done|]. exists R2. split; [done|]. split; [done|].
    rewrite Eo2. cbn. by rewrite <-(assoc_L app).
Qed.

(** C24: A runnable thread does not wait for the processor longer than one turn: when the
    timer has interrupted as many threads as can run, each of them has run exactly once,
    in the scheduler's order. *)
Theorem timer_fair s R Q sps :
  tasks s R Q → multitask_started s = true → main_thread ≠ 0 → is_Some (thread_at s !! main_thread) → turn_of s R →
  length sps = length (rr_list R) →
  ∃ s' R', ticks sps s = Ret (rr_order R, s') ∧ rr_order R ≡ₚ rr_list R ∧ NoDup (rr_order R) ∧
    tasks s' R' Q ∧ rr_order R' = rr_order R ∧ turn_of s' R'.
Proof.
  intros Ht Hst Hm0 Hm Hturn Hlen. assert (rr_order R ≡ₚ rr_list R) as HP by apply Permutation_app_comm.
  pose proof (ticks_spec sps s R Q Ht Hst Hm0 Hm Hturn ltac:(lia)) as (l & s' & Er & -> & R' & Ht' & Hturn' & Eo)%wp_iff.
  assert (length sps = length (rr_order R)) as El by (by rewrite HP). rewrite El, firstn_all, drop_all in *.
  exists s', R'. split; [done|]. split; [done|]. split; [rewrite HP; apply Ht|]. done.
Qed.
End theorems.

(** ** Examples *)

Lemma toy_can_block : can_block toy_kernel toy_ring (λ _, []).
Proof.
  split; [apply toy_tasks|done| | | |done].
  - split; [done|]. split; [by eexists|done].
  - split; [done|by eexists].
  - intros q. apply not_elem_of_nil.
Qed.

Lemma PROC_block_on_correct_witness :
  ∃ r s' R', PROC_block_on (Some (QDriver 0x6000)) true 0x777 toy_kernel = Ret (r, s') ∧
    tasks s' R' (<[QDriver 0x6000 := [0x1000]]> (λ _, [])) ∧ rr_list R' = [0x2000] ∧
    (λ t, (run_state t, rsp t)) <$> thread_at s' !! 0x1000 = Some (PROC_BLOCKED, 0x777) ∧
    (if decide (rr_list R' = []) then curr_proc s' = 0x9000
     else curr_proc s' ∈ rr_list R' ∧ run_state <$> thread_at s' !! curr_proc s' = Some PROC_RUNNING).
Proof. apply (PROC_block_on_correct toy_kernel toy_ring (λ _, []) (QDriver 0x6000) true 0x777 toy_can_block). by eexists. Defined.

Lemma timer_fair_witness :
  ∃ s' R', ticks [0x700; 0x701] toy_kernel = Ret ([0x2000; 0x1000], s') ∧ rr_order toy_ring ≡ₚ rr_list toy_ring ∧
    NoDup (rr_order toy_ring) ∧ tasks s' R' (λ _, []) ∧ rr_order R' = rr_order toy_ring ∧ turn_of s' R'.
Proof. apply (timer_fair toy_kernel toy_ring (λ _, []) [0x700; 0x701] toy_tasks); try done. Defined.

(** The first thread waits for a driver. *)
Definition toy_waiting : kst toy :=
  match PROC_block_on (Some (QDriver 0x6000)) true 0x777 toy_kernel with Ret (_, s) => s | _ => toy_kernel end.

Lemma toy_waiting_tasks : ∃ R, tasks toy_waiting R (<[QDriver 0x6000 := [0x1000]]> (λ _, [])) ∧ rr_list R = [0x2000].
Proof.
  pose proof (PROC_block_on_spec toy_kernel toy_ring (λ _, []) (QDriver 0x6000) true 0x777 toy_can_block ltac:(by eexists)) as Hw.
  unfold toy_waiting. unfold wp in Hw. destruct (PROC_block_on _ _ _ _) as [[r s']| |]; [|done..].
  destruct Hw as [_ (R' & Ht & El & _) _ _ _ _]. by exists R'.
Qed.

Lemma PROC_unblock_all_correct_witness :
  ∃ R s', PROC_unblock_all (Some (QDriver 0x6000)) toy_waiting = Ret (tt, s') ∧
    tasks s' (q_admits [0x1000] R) (<[QDriver 0x6000 := []]> (<[QDriver 0x6000 := [0x1000]]> (λ _, []))) ∧ rr_list R = [0x2000].
Proof.
  destruct toy_waiting_tasks as (R & Ht & El). set (Q := <[QDriver 0x6000 := [0x1000]]> (λ _ : qref, [])) in *.
  destruct (PROC_unblock_all_correct toy_waiting R Q (QDriver 0x6000) Ht) as (s' & Er & Ht' & _).
  { vm_compute. by eexists. }
  assert (awake toy_waiting (Q (QDriver 0x6000)) = [0x1000]) as Ea by (vm_compute; reflexivity).
  rewrite Ea in Ht'. exists R, s'. exact (conj Er (conj Ht' El)).
Defined.
