(* ===== verification/ProcessTree.v ===== *)
(** * Processes and their threads ([src/x86_64/multitask/multitask.c])

    Creating and freeing the nodes, the list of children of a process, and its list
    of threads. *)

From S2P Require Import Prelude Links Kernel RoundRobin TaskQueue.

(** The sizes of [struct process_st] and [struct thread_st]. *)
Definition process_bytes : Z := 104.
Definition thread_bytes : Z := 240.

Section process_tree.
Context {E : Type} `{!KernelEnv E, !TaskLayout}.
Local Abbreviation MK := (M (kst E)).

Definition zero_process : process_st := Process 0 0 0 0 0 0 0 0 0 0 (Queue 0 0) (Queue 0 0).
Definition zero_thread : thread_st := Thread 0 0 0 0 0 0 PROC_READY 0 0 0 0 0 0 0.

(** [memset(p, 0, sizeof( *p))] on a new node. *)
Definition zero_process_at (p : Z) : MK unit := modify (λ s, set_process_at (<[p := zero_process]> (process_at s)) s).
Definition zero_thread_at (p : Z) : MK unit := modify (λ s, set_thread_at (<[p := zero_thread]> (thread_at s)) s).

Definition PROC_init_process (p parent_ cr3_ : Z) : MK unit :=
  n <- gets next_pid ;;
  upd_process p (set_pid n) ;;
  modify (set_next_pid (u64 (n + 1))) ;;
  upd_process p (set_cr3 cr3_) ;;
  upd_process p (set_parent parent_) ;;
  upd_process p (set_first_child 0) ;;
  upd_process p (set_next_sibling 0) ;;
  upd_process p (set_threads 0) ;;
  upd_process p (set_live_threads 0) ;;
  upd_process p (set_p_exit_status 0) ;;
  upd_process p (set_exiting 0) ;;
  upd_process p (set_zombie 0) ;;
  PROC_init_queue (QChildExit p) ;;
  PROC_init_queue (QThreadExit p).

Definition PROC_init_thread (t owner_ : Z) : MK unit :=
  n <- gets next_tid ;;
  modify (set_next_tid (u64 (n + 1))) ;;
  upd_thread t (λ _, Thread n 0 0 DEFAULT_STACK_BYTES owner_ 0 PROC_READY 0 0 0 0 0 0 0).

Definition PROC_link_process_child (parent_ child : Z) : MK unit :=
  if (parent_ =? 0) || (child =? 0) then ret tt else
  upd_process child (set_parent parent_) ;;
  p <- process parent_ ;;
  upd_process child (set_next_sibling (first_child p)) ;;
  upd_process parent_ (set_first_child child).

Fixpoint unlink_child_loop (fuel : nat) (parent_ child prev curr : Z) : MK unit :=
  match fuel with
  | O => no_fuel
  | S fuel =>
      if curr =? 0 then ret tt else
      c <- process curr ;;
      if curr =? child then
        (if prev =? 0 then upd_process parent_ (set_first_child (next_sibling c))
         else upd_process prev (set_next_sibling (next_sibling c))) ;;
        upd_process curr (set_parent 0) ;;
        upd_process curr (set_next_sibling 0)
      else unlink_child_loop fuel parent_ child curr (next_sibling c)
  end.

Definition PROC_unlink_process_child (parent_ child : Z) : MK unit :=
  if (parent_ =? 0) || (child =? 0) then ret tt else
  p <- process parent_ ;;
  n <- gets (λ s, size (process_at s)) ;;
  unlink_child_loop (S n) parent_ child 0 (first_child p).

Fixpoint find_zombie_loop (fuel : nat) (child : Z) : MK Z :=
  match fuel with
  | O => no_fuel
  | S fuel =>
      if child =? 0 then ret 0 else
      c <- process child ;;
      if negb (zombie c =? 0) then ret child else find_zombie_loop fuel (next_sibling c)
  end.

Definition PROC_find_zombie_child (parent_ : Z) : MK Z :=
  if parent_ =? 0 then ret 0 else
  p <- process parent_ ;;
  n <- gets (λ s, size (process_at s)) ;;
  find_zombie_loop (S n) (first_child p).

(** The children up to the last one, whose address is the answer. *)
Fixpoint reparent_loop (fuel : nat) (child : Z) : MK Z :=
  match fuel with
  | O => no_fuel
  | S fuel =>
      c <- process child ;;
      if next_sibling c =? 0 then ret child else
      upd_process child (set_parent kernel_process) ;;
      reparent_loop fuel (next_sibling c)
  end.

Definition PROC_reparent_children (exiting_ : Z) : MK unit :=
  if exiting_ =? 0 then ret tt else
  e <- process exiting_ ;;
  if first_child e =? 0 then ret tt else
  n <- gets (λ s, size (process_at s)) ;;
  child <- reparent_loop (S n) (first_child e) ;;
  upd_process child (set_parent kernel_process) ;;
  k <- process kernel_process ;;
  upd_process child (set_next_sibling (first_child k)) ;;
  e <- process exiting_ ;;
  upd_process kernel_process (set_first_child (first_child e)) ;;
  upd_process exiting_ (set_first_child 0).

Definition PROC_link_thread (owner_ t : Z) : MK unit :=
  if (owner_ =? 0) || (t =? 0) then ret tt else
  upd_thread t (set_owner owner_) ;;
  o <- process owner_ ;;
  upd_thread t (set_next_thread (threads o)) ;;
  upd_process owner_ (set_threads t) ;;
  upd_process owner_ (λ o, set_live_threads (u64 (live_threads o + 1)) o).

Fixpoint unlink_thread_loop (fuel : nat) (owner_ t prev curr : Z) : MK unit :=
  match fuel with
  | O => no_fuel
  | S fuel =>
      if curr =? 0 then ret tt else
      c <- thread curr ;;
      if curr =? t then
        (if prev =? 0 then upd_process owner_ (set_threads (next_thread c))
         else upd_thread prev (set_next_thread (next_thread c))) ;;
        upd_thread curr (set_next_thread 0)
      else unlink_thread_loop fuel owner_ t curr (next_thread c)
  end.

Definition PROC_unlink_thread (owner_ t : Z) : MK unit :=
  if (owner_ =? 0) || (t =? 0) then ret tt else
  o <- process owner_ ;;
  n <- gets (λ s, size (thread_at s)) ;;
  unlink_thread_loop (S n) owner_ t 0 (threads o).

Fixpoint find_thread_loop (fuel : nat) (tid_ t : Z) : MK Z :=
  match fuel with
  | O => no_fuel
  | S fuel =>
      if t =? 0 then ret 0 else
      c <- thread t ;;
      if tid c =? tid_ then ret t else find_thread_loop fuel tid_ (next_thread c)
  end.

Definition PROC_find_thread (owner_ tid_ : Z) : MK Z :=
  if owner_ =? 0 then ret 0 else
  o <- process owner_ ;;
  n <- gets (λ s, size (thread_at s)) ;;
  find_thread_loop (S n) tid_ (threads o).

(** A freed node is gone from its store: following a pointer to it stops the model. *)
Definition PROC_free_thread (t : Z) : MK unit :=
  if t =? 0 then ret tt else
  c <- thread t ;;
  (if kstack c =? 0 then ret tt else lift (ke_kfree (kstack c))) ;;
  lift (ke_kfree t) ;;
  modify (λ s, set_thread_at (delete t (thread_at s)) s).

Definition PROC_free_process (p : Z) : MK unit :=
  if p =? 0 then ret tt else
  lift (ke_kfree p) ;;
  modify (λ s, set_process_at (delete p (process_at s)) s).

Definition alloc_process (parent_ cr3_ : Z) : MK Z :=
  p <- lift (ke_kmalloc process_bytes) ;;
  if p =? 0 then ret 0 else
  zero_process_at p ;;
  PROC_init_process p parent_ cr3_ ;;
  ret p.

Definition alloc_thread (owner_ : Z) : MK Z :=
  t <- lift (ke_kmalloc thread_bytes) ;;
  if t =? 0 then ret 0 else
  zero_thread_at t ;;
  PROC_init_thread t owner_ ;;
  PROC_link_thread owner_ t ;;
  ret t.
End process_tree.
