(* ===== verification/ProcessTreeProofs.v ===== *)
(** * The tree of processes

    Every process has the list of its children, linked through [next_sibling] from
    [first_child], and each child points back to its parent.  Linking, unlinking,
    searching and handing children to the kernel process are operations on these
    lists. *)

From stdpp Require Import functions.
From S2P Require Import Prelude Links Kernel RoundRobin TaskQueue TaskQueueProofs ProcessTree.

Implicit Types (ps : gmap Z process_st) (K : Z → list Z) (fc sb pr f : Z → option Z).

(** ** The lists of children, by the fields that hold them *)

Record family fc sb pr K : Prop := {
  fm_list p h : fc p = Some h → lseg sb h (K p) 0;
  fm_none p : fc p = None → K p = [];
  fm_parent p c : c ∈ K p → pr c = Some p;
  fm_nodup p : NoDup (K p);
  fm_null : fc 0 = None;
  fm_dom p : is_Some (fc p) ↔ is_Some (pr p)
}.

Lemma family_ext fc fc' sb sb' pr pr' K K' :
  (∀ p, fc' p = fc p) → (∀ p, sb' p = sb p) → (∀ p, pr' p = pr p) → (∀ p, K' p = K p) →
  family fc sb pr K → family fc' sb' pr' K'.
Proof.
  intros Hf Hs Hp HK [H1 H2 H3 H4 H5 H6]. split.
  - intros p h. rewrite Hf, HK. intros Hh. eapply lseg_ext; [intros; apply Hs|]. by apply H1.
  - intros p. rewrite Hf, HK. apply H2.
  - intros p c. rewrite HK, Hp. apply H3.
  - intros p. by rewrite HK.
  - by rewrite Hf.
  - intros p. by rewrite Hf, Hp.
Qed.

Lemma family_one fc sb pr K p p' c : family fc sb pr K → c ∈ K p → c ∈ K p' → p = p'.
Proof. intros Hf H1 H2. pose proof (fm_parent _ _ _ _ Hf p c H1). pose proof (fm_parent _ _ _ _ Hf p' c H2). congruence. Qed.

Lemma family_child fc sb pr K p c : family fc sb pr K → c ∈ K p → c ≠ 0 ∧ is_Some (fc c) ∧ is_Some (fc p).
Proof.
  intros Hf Hc. assert (is_Some (fc c)) as Hs by (apply (fm_dom _ _ _ _ Hf); rewrite (fm_parent _ _ _ _ Hf p c Hc); eauto).
  split; [intros ->; destruct Hs as [x Hx]; by rewrite (fm_null _ _ _ _ Hf) in Hx|]. split; [done|].
  destruct (fc p) eqn:E; [eauto|]. rewrite (fm_none _ _ _ _ Hf p E) in Hc. by apply elem_of_nil in Hc.
Qed.

Lemma upd_some f p v q : is_Some (f p) → is_Some (upd f p v q) ↔ is_Some (f q).
Proof. intros Hp. unfold upd. case_decide; [subst; split; eauto|done]. Qed.

(** A process becomes the first child. *)
Lemma family_link fc sb pr K p c h :
  family fc sb pr K → fc p = Some h → is_Some (fc c) → c ≠ 0 → p ≠ c → (∀ p', c ∉ K p') →
  family (upd fc p c) (upd sb c h) (upd pr c p) (<[p := c :: K p]> K).
Proof.
  intros Hf Hp Hc H0 Hne Hno. pose proof Hf as [H1 H2 H3 H4 H5 H6]. split.
  - intros q h' Hq. destruct (decide (q = p)) as [->|Hqp].
    + rewrite upd_eq in Hq. injection Hq as <-. rewrite fn_lookup_insert. apply lseg_push; [done|apply Hno|by apply H1].
    + rewrite upd_ne in Hq by done. rewrite fn_lookup_insert_ne by done. apply lseg_upd; [apply Hno|by apply H1].
  - intros q. destruct (decide (q = p)) as [->|Hqp]; [by rewrite upd_eq|]. rewrite upd_ne, fn_lookup_insert_ne by done. apply H2.
  - intros q x. destruct (decide (q = p)) as [->|Hqp].
    + rewrite fn_lookup_insert. intros [->|Hx]%elem_of_cons; [by rewrite upd_eq|]. rewrite upd_ne; [by apply H3|]. intros ->. by apply (Hno p).
    + rewrite fn_lookup_insert_ne by done. intros Hx. rewrite upd_ne; [by apply H3|]. intros ->. by apply (Hno q).
  - intros q. destruct (decide (q = p)) as [->|Hqp]; [rewrite fn_lookup_insert; by constructor|by rewrite fn_lookup_insert_ne].
  - rewrite upd_ne; [done|]. intros <-. congruence.
  - intros q. rewrite !upd_some; [done|by apply H6|eauto].
Qed.

(** A child leaves; [l1] is in front of it. *)
Lemma family_unlink fc sb pr K p c l1 l2 n :
  family fc sb pr K → K p = l1 ++ c :: l2 → sb c = Some n →
  family (match last l1 with None => upd fc p n | Some _ => fc end)
    (upd (match last l1 with None => sb | Some q => upd sb q n end) c 0) (upd pr c 0) (<[p := l1 ++ l2]> K).
Proof.
  intros Hf Hp Hn. pose proof Hf as [H1 H2 H3 H4 H5 H6]. assert (c ∈ K p) as Hc by (rewrite Hp; apply elem_of_app; right; left).
  destruct (family_child _ _ _ _ _ _ Hf Hc) as (Hc0 & Hfc & [h Hh]).
  assert (NoDup (l1 ++ c :: l2)) as Hnd by (rewrite <-Hp; apply H4).
  assert (c ∉ l1 ++ l2) as Hcl by (apply NoDup_app in Hnd as (_ & Hd & [Hm2 _]%NoDup_cons); intros [Hin|Hin]%elem_of_app; [by apply (Hd c Hin); left|done]).
  pose proof (H1 p h Hh) as Hl. rewrite Hp in Hl. pose proof (lseg_remove sb h l1 c l2 n Hnd Hl Hn) as Hrm.
  assert (∀ q x, q ≠ p → x ∈ K q → x ≠ c ∧ x ∉ l1 ++ l2) as Hoth.
  { intros q x Hqp Hx. split; [intros ->; by apply Hqp, (family_one _ _ _ _ _ _ c Hf)|].
    intros Hin. apply Hqp, (family_one _ _ _ _ _ _ x Hf); [done|]. rewrite Hp. apply elem_of_app in Hin as [?|?]; apply elem_of_app; [by left|right; by right]. }
  split.
  - intros q h' Hq. destruct (decide (q = p)) as [->|Hqp].
    + rewrite fn_lookup_insert. apply lseg_upd; [done|]. destruct (last l1) as [z|].
      * destruct Hrm as (_ & _ & _ & Hl'). assert (h' = h) as -> by congruence. exact Hl'.
      * rewrite upd_eq in Hq. injection Hq as <-. destruct Hrm as [-> Hl']. exact Hl'.
    + rewrite fn_lookup_insert_ne by done. assert (fc q = Some h') as Hq' by (destruct (last l1); [done|by rewrite upd_ne in Hq]).
      apply lseg_upd; [intros Hx; by apply (Hoth q c Hqp) in Hx as [? _]|].
      destruct (last l1) as [z|] eqn:El; [|by apply H1]. apply lseg_upd; [|by apply H1].
      intros Hx. apply (Hoth q z Hqp) in Hx as [_ Hx]. apply Hx, elem_of_app. left. by apply last_Some_elem_of.
  - intros q Hq. destruct (decide (q = p)) as [->|Hqp].
    + destruct (last l1); [congruence|by rewrite upd_eq in Hq].
    + rewrite fn_lookup_insert_ne by done. apply H2. destruct (last l1); [done|by rewrite upd_ne in Hq].
  - intros q x Hx. destruct (decide (q = p)) as [->|Hqp].
    + rewrite fn_lookup_insert in Hx. rewrite upd_ne by (by intros ->). apply H3. rewrite Hp.
      apply elem_of_app in Hx as [?|?]; apply elem_of_app; [by left|right; by right].
    + rewrite fn_lookup_insert_ne in Hx by done. rewrite upd_ne; [by apply H3|]. by apply (Hoth q x Hqp).
  - intros q. destruct (decide (q = p)) as [->|Hqp]; [|by rewrite fn_lookup_insert_ne].
    rewrite fn_lookup_insert. rewrite <-Permutation_middle in Hnd. by apply NoDup_cons in Hnd as [_ Hnd].
  - destruct (last l1); [done|]. rewrite upd_ne; [done|]. intros <-. congruence.
  - intros q. rewrite (upd_some pr) by (by apply H6). rewrite <-H6. destruct (last l1); [done|]. apply upd_some. eauto.
Qed.

(** The children of [e] go in front of those of [k]. *)
Lemma family_reparent fc sb pr pr' K e k l z h hk :
  family fc sb pr K → e ≠ k → K e = l ++ [z] → fc e = Some h → fc k = Some hk →
  (∀ q, q ∈ K e → pr' q = Some k) → (∀ q, q ∉ K e → pr' q = pr q) →
  family (upd (upd fc k h) e 0) (upd sb z hk) pr' (<[e := []]> (<[k := K e ++ K k]> K)).
Proof.
  intros Hf Hek He Hfe Hfk Hin Hout. pose proof Hf as [H1 H2 H3 H4 H5 H6].
  assert (∀ q x, x ∈ K q → q ≠ e → x ∉ K e) as Hoth by (intros q x Hx Hq Hx'; by apply Hq, (family_one _ _ _ _ _ _ x Hf)).
  assert (z ∈ K e) as Hz by (rewrite He; apply elem_of_app; right; left).
  assert (∀ x, x ∈ K e → is_Some (pr x)) as Hpr by (intros x Hx; rewrite (H3 e x Hx); eauto).
  split.
  - intros q h' Hq. destruct (decide (q = e)) as [->|Hqe].
    { rewrite upd_eq in Hq. injection Hq as <-. by rewrite fn_lookup_insert. }
    rewrite upd_ne in Hq by done. rewrite fn_lookup_insert_ne by done. destruct (decide (q = k)) as [->|Hqk].
    + rewrite upd_eq in Hq. injection Hq as <-. rewrite fn_lookup_insert. apply lseg_app. exists hk. split.
      * pose proof (H1 e h Hfe) as Hl. rewrite He in *. eapply lseg_retarget; [|exact Hl].
        pose proof (H4 e) as Hnd. rewrite He in Hnd. apply NoDup_app in Hnd as (_ & Hd & _). intros Hx. by apply (Hd z Hx); left.
      * apply lseg_upd; [|by apply H1]. intros Hx. by apply (Hoth k z Hx).
    + rewrite upd_ne in Hq by done. rewrite fn_lookup_insert_ne by done. apply lseg_upd; [|by apply H1].
      intros Hx. by apply (Hoth q z Hx).
  - intros q Hq. destruct (decide (q = e)) as [->|Hqe]; [by rewrite fn_lookup_insert|].
    rewrite upd_ne in Hq by done. rewrite fn_lookup_insert_ne by done.
    destruct (decide (q = k)) as [->|Hqk]; [by rewrite upd_eq in Hq|]. rewrite upd_ne in Hq by done.
    rewrite fn_lookup_insert_ne by done. by apply H2.
  - intros q x. destruct (decide (q = e)) as [->|Hqe]; [rewrite fn_lookup_insert; by intros ?%elem_of_nil|].
    rewrite fn_lookup_insert_ne by done. destruct (decide (q = k)) as [->|Hqk].
    + rewrite fn_lookup_insert. intros [Hx|Hx]%elem_of_app; [by apply Hin|]. rewrite Hout; [by apply H3|by apply (Hoth k)].
    + rewrite fn_lookup_insert_ne by done. intros Hx. rewrite Hout; [by apply H3|by apply (Hoth q)].
  - intros q. destruct (decide (q = e)) as [->|Hqe]; [rewrite fn_lookup_insert; constructor|].
    rewrite fn_lookup_insert_ne by done. destruct (decide (q = k)) as [->|Hqk]; [|by rewrite fn_lookup_insert_ne].
    rewrite fn_lookup_insert. apply NoDup_app. split; [apply H4|]. split; [|apply H4].
    intros x Hx Hx'. by apply (Hoth k x Hx').
  - rewrite !upd_ne; [done| |]; intros <-; congruence.
  - intros q. rewrite !upd_some; eauto; [|unfold upd; case_decide; eauto].
    rewrite H6. destruct (decide (q ∈ K e)) as [Hq|Hq]; [rewrite Hin by done; split; eauto|by rewrite Hout].
Qed.

(** ** The store of processes *)

Definition fc_of ps (p : Z) : option Z := first_child <$> ps !! p.
Definition sb_of ps (p : Z) : option Z := next_sibling <$> ps !! p.
Definition pr_of ps (p : Z) : option Z := parent <$> ps !! p.
Definition forest ps K : Prop := family (fc_of ps) (sb_of ps) (pr_of ps) K.

(** A process without its place in the tree. *)
Definition no_kin (o : process_st) : process_st := set_first_child 0 (set_next_sibling 0 (set_parent 0 o)).
Definition kin_only ps ps' : Prop := ∀ p, no_kin <$> ps' !! p = no_kin <$> ps !! p.

(** The store [ps] has these fields, and differs from [ps0] in them only. *)
Record kin ps0 ps fc sb pr : Prop := {
  kn_fc p : fc_of ps p = fc p;
  kn_sb p : sb_of ps p = sb p;
  kn_pr p : pr_of ps p = pr p;
  kn_only : kin_only ps0 ps
}.

Lemma kin_refl ps : kin ps ps (fc_of ps) (sb_of ps) (pr_of ps).
Proof. by split. Qed.

Lemma kin_forest ps0 ps fc sb pr K : kin ps0 ps fc sb pr → family fc sb pr K → forest ps K.
Proof. intros [H1 H2 H3 _]. by apply family_ext. Qed.

Lemma field_upd {A} (h : process_st → A) ps p o o' q :
  ps !! p = Some o → h <$> <[p := o']> ps !! q = if decide (q = p) then Some (h o') else h <$> ps !! q.
Proof. intros Hp. case_decide; [subst; by rewrite lookup_insert_eq|by rewrite lookup_insert_ne]. Qed.

Lemma field_same {A} (h : process_st → A) ps p o o' q :
  ps !! p = Some o → h o' = h o → h <$> <[p := o']> ps !! q = h <$> ps !! q.
Proof. intros Hp Hh. rewrite (field_upd h ps p o) by done. case_decide; [subst; by rewrite Hp; cbn; rewrite Hh|done]. Qed.

Lemma kin_first_child ps0 ps fc sb pr p o v :
  kin ps0 ps fc sb pr → ps !! p = Some o → kin ps0 (<[p := set_first_child v o]> ps) (upd fc p v) sb pr.
Proof.
  intros [H1 H2 H3 H4] Hp. split; intros q.
  - unfold fc_of. rewrite (field_upd _ ps p o) by done. unfold upd. case_decide; [done|apply H1].
  - rewrite <-H2. by apply (field_same next_sibling ps p o).
  - rewrite <-H3. by apply (field_same parent ps p o).
  - rewrite <-H4. by apply (field_same no_kin ps p o).
Qed.

Lemma kin_next_sibling ps0 ps fc sb pr p o v :
  kin ps0 ps fc sb pr → ps !! p = Some o → kin ps0 (<[p := set_next_sibling v o]> ps) fc (upd sb p v) pr.
Proof.
  intros [H1 H2 H3 H4] Hp. split; intros q.
  - rewrite <-H1. by apply (field_same first_child ps p o).
  - unfold sb_of. rewrite (field_upd _ ps p o) by done. unfold upd. case_decide; [done|apply H2].
  - rewrite <-H3. by apply (field_same parent ps p o).
  - rewrite <-H4. by apply (field_same no_kin ps p o).
Qed.

Lemma kin_parent ps0 ps fc sb pr p o v :
  kin ps0 ps fc sb pr → ps !! p = Some o → kin ps0 (<[p := set_parent v o]> ps) fc sb (upd pr p v).
Proof.
  intros [H1 H2 H3 H4] Hp. split; intros q.
  - rewrite <-H1. by apply (field_same first_child ps p o).
  - rewrite <-H2. by apply (field_same next_sibling ps p o).
  - unfold pr_of. rewrite (field_upd _ ps p o) by done. unfold upd. case_decide; [done|apply H3].
  - rewrite <-H4. by apply (field_same no_kin ps p o).
Qed.

Lemma kin_lookup ps0 ps fc sb pr p : kin ps0 ps fc sb pr → is_Some (ps0 !! p) →
  ∃ o, ps !! p = Some o ∧ fc p = Some (first_child o) ∧ sb p = Some (next_sibling o) ∧ pr p = Some (parent o).
Proof.
  intros [H1 H2 H3 H4] [o0 Hp]. specialize (H4 p). rewrite Hp in H4. destruct (ps !! p) as [o|] eqn:E; [|done].
  exists o. split; [done|]. rewrite <-H1, <-H2, <-H3. unfold fc_of, sb_of, pr_of. by rewrite E.
Qed.

Lemma forest_some ps K p : forest ps K → is_Some (fc_of ps p) ↔ is_Some (ps !! p).
Proof. intros _. unfold fc_of. destruct (ps !! p); split; intros [x Hx]; eauto; done. Qed.

Lemma forest_child ps K p c : forest ps K → c ∈ K p → c ≠ 0 ∧ is_Some (ps !! c) ∧ is_Some (ps !! p).
Proof. intros Hf Hc. destruct (family_child _ _ _ _ _ _ Hf Hc) as (? & ? & ?). by rewrite <-!(forest_some _ _ _ Hf). Qed.

Lemma forest_length ps K p : forest ps K → (length (K p) ≤ size ps)%nat.
Proof.
  intros Hf. rewrite <-size_dom. assert (list_to_set (K p) ⊆ dom ps) as Hsub.
  { intros c Hc. apply elem_of_list_to_set in Hc. apply elem_of_dom. by apply (forest_child _ _ _ _ Hf Hc). }
  apply subseteq_size in Hsub. rewrite size_list_to_set in Hsub; [done|apply Hf].
Qed.

(** A step of the code that fills in a node: assignments to a node just stored. *)
Ltac put_step :=
  first [ wp_step
        | eapply wp_upd_process; [cbn; apply lookup_insert_eq|]; cbn; rewrite ?insert_insert_eq
        | eapply wp_upd_thread; [cbn; apply lookup_insert_eq|]; cbn; rewrite ?insert_insert_eq
        | eapply wp_process; [cbn; apply lookup_insert_eq|] ].

(** ** The operations *)

Section tree.
Context {E : Type} {KE : KernelEnv E} {TL : TaskLayout}.
Implicit Types (s : kst E).

(** Only the tree changed, into one with children [K]. *)
Definition retreed s s' K : Prop :=
  ∃ ps, s' = set_process_at ps s ∧ kin_only (process_at s) ps ∧ forest ps K.

Lemma set_process_at_id s : set_process_at (process_at s) s = s.
Proof. by destruct s. Qed.

Lemma PROC_link_process_child_spec s K p c :
  forest (process_at s) K → is_Some (process_at s !! p) → is_Some (process_at s !! c) → p ≠ 0 → c ≠ 0 → p ≠ c → (∀ p', c ∉ K p') →
  wp (PROC_link_process_child p c) s (λ _ s', retreed s s' (<[p := c :: K p]> K)).
Proof.
  intros Hf Hp Hc Hp0 Hc0 Hne Hno. unfold PROC_link_process_child.
  rewrite (proj2 (Z.eqb_neq p 0)), (proj2 (Z.eqb_neq c 0)) by done. cbn [orb].
  pose proof (kin_refl (process_at s)) as K0. destruct (kin_lookup _ _ _ _ _ c K0 Hc) as (oc & Ec & _).
  wp_step. eapply wp_upd_process; [exact Ec|]. eapply kin_parent in K0; [|exact Ec].
  destruct (kin_lookup _ _ _ _ _ p K0 Hp) as (op & Ep & Efc & _). wp_step. eapply wp_process; [exact Ep|].
  destruct (kin_lookup _ _ _ _ _ c K0 Hc) as (oc1 & Ec1 & _). wp_step. eapply wp_upd_process; [exact Ec1|].
  eapply kin_next_sibling in K0; [|exact Ec1]. destruct (kin_lookup _ _ _ _ _ p K0 Hp) as (op1 & Ep1 & _).
  eapply wp_upd_process; [exact Ep1|]. eapply kin_first_child in K0; [|exact Ep1].
  eexists. split; [reflexivity|]. split; [exact (kn_only _ _ _ _ _ K0)|]. eapply kin_forest; [exact K0|].
  apply family_link; try done. by apply (forest_some _ K).
Qed.

(** The child found by the loop is taken out. *)
Lemma unlink_child_here s K p c l1 l2 o :
  forest (process_at s) K → K p = l1 ++ c :: l2 → process_at s !! c = Some o →
  wp ((if default 0 (last l1) =? 0 then upd_process p (set_first_child (next_sibling o))
       else upd_process (default 0 (last l1)) (set_next_sibling (next_sibling o))) ;;
      upd_process c (set_parent 0) ;; upd_process c (set_next_sibling 0)) s (λ _ s', retreed s s' (<[p := l1 ++ l2]> K)).
Proof.
  intros Hf Hp Ec. pose proof (kin_refl (process_at s)) as K0.
  assert (c ∈ K p) as Hin by (rewrite Hp; apply elem_of_app; right; left). destruct (forest_child _ _ _ _ Hf Hin) as (Hc0 & Hc & Hps).
  pose proof (family_unlink _ _ _ K p c l1 l2 (next_sibling o) Hf Hp ltac:(unfold sb_of; by rewrite Ec)) as Hfam.
  assert (∀ fc' sb' ps1, kin (process_at s) ps1 fc' sb' (pr_of (process_at s)) → 
    family fc' (upd sb' c 0) (upd (pr_of (process_at s)) c 0) (<[p := l1 ++ l2]> K) →
    wp (upd_process c (set_parent 0) ;; upd_process c (set_next_sibling 0)) (set_process_at ps1 s) (λ _ s', retreed s s' (<[p := l1 ++ l2]> K))) as Hrest.
  { intros fc' sb' ps1 K1 Hfam'. destruct (kin_lookup _ _ _ _ _ c K1 Hc) as (o1 & E1 & _). wp_step. eapply wp_upd_process; [exact E1|].
    eapply kin_parent in K1; [|exact E1]. destruct (kin_lookup _ _ _ _ _ c K1 Hc) as (o2 & E2 & _). eapply wp_upd_process; [exact E2|].
    eapply kin_next_sibling in K1; [|exact E2]. eexists. split; [reflexivity|]. split; [exact (kn_only _ _ _ _ _ K1)|]. by eapply kin_forest. }
  destruct (last l1) as [z|] eqn:El.
  - change (default 0 (Some z)) with z. assert (z ∈ K p) as Hz by (rewrite Hp; apply elem_of_app; left; by apply last_Some_elem_of).
    destruct (forest_child _ _ _ _ Hf Hz) as (Hz0 & [oz Ez] & _). rewrite (proj2 (Z.eqb_neq z 0)) by done.
    wp_step. eapply wp_upd_process; [exact Ez|]. eapply Hrest; [by eapply kin_next_sibling|exact Hfam].
  - change (default 0 None) with 0. cbn [Z.eqb]. destruct Hps as [op Ep].
    wp_step. eapply wp_upd_process; [exact Ep|]. eapply Hrest; [by eapply kin_first_child|exact Hfam].
Qed.

Lemma forest_seg s K p l1 c l2 :
  forest (process_at s) K → K p = l1 ++ c :: l2 →
  ∃ o, process_at s !! c = Some o ∧ c ≠ 0 ∧ next_sibling o = default 0 (head l2).
Proof.
  intros Hf Hp. assert (c ∈ K p) as Hin by (rewrite Hp; apply elem_of_app; right; left).
  destruct (forest_child _ _ _ _ Hf Hin) as (Hc0 & [o Ec] & [op Ep]). exists o. split; [done|]. split; [done|].
  pose proof (fm_list _ _ _ _ Hf p (first_child op) ltac:(unfold fc_of; by rewrite Ep)) as Hl. rewrite Hp in Hl.
  apply lseg_app in Hl as (m & _ & _ & _ & n & Hn & Hl). unfold sb_of in Hn. rewrite Ec in Hn. injection Hn as <-.
  by apply lseg_head in Hl.
Qed.

Lemma forest_first s K p o : forest (process_at s) K → process_at s !! p = Some o → first_child o = default 0 (head (K p)).
Proof. intros Hf Hp. eapply lseg_head, (fm_list _ _ _ _ Hf p). unfold fc_of. by rewrite Hp. Qed.

Lemma unlink_child_loop_spec fuel s K p c l1 l2 :
  forest (process_at s) K → K p = l1 ++ l2 → c ∈ l2 → (length l2 < fuel)%nat →
  wp (unlink_child_loop fuel p c (default 0 (last l1)) (default 0 (head l2))) s (λ _ s',
    ∃ k1 k2, K p = k1 ++ c :: k2 ∧ retreed s s' (<[p := k1 ++ k2]> K)).
Proof.
  revert l1 l2. induction fuel as [|fuel IH]; intros l1 l2 Hf Hp Hc Hlen; [lia|].
  destruct l2 as [|x l2]; [by apply elem_of_nil in Hc|]. cbn [unlink_child_loop head]. change (default 0 (Some x)) with x.
  destruct (forest_seg s K p l1 x l2 Hf Hp) as (o & Ex & Hx0 & Hn). rewrite (proj2 (Z.eqb_neq x 0)) by done.
  wp_step. eapply wp_process; [exact Ex|]. destruct (x =? c) eqn:Exc; bool_prop.
  - subst x. eapply wp_mono; [by apply (unlink_child_here s K p c l1 l2 o)|]. eauto.
  - apply elem_of_cons in Hc as [->|Hc]; [done|]. specialize (IH (l1 ++ [x]) l2).
    rewrite last_snoc, <-(assoc_L app) in IH. change (default 0 (Some x)) with x in IH. rewrite Hn. apply IH; [done|done|done|cbn in Hlen; lia].
Qed.

(** Without the child in the list nothing changes. *)
Lemma unlink_child_loop_none fuel s K p c l1 l2 prev :
  forest (process_at s) K → K p = l1 ++ l2 → c ∉ l2 → (length l2 < fuel)%nat →
  wp (unlink_child_loop fuel p c prev (default 0 (head l2))) s (λ _ s', s' = s).
Proof.
  revert l1 l2 prev. induction fuel as [|fuel IH]; intros l1 l2 prev Hf Hp Hc Hlen; [lia|]. cbn [unlink_child_loop].
  destruct l2 as [|x l2]; [by apply wp_ret|]. cbn [head]. change (default 0 (Some x)) with x.
  destruct (forest_seg s K p l1 x l2 Hf Hp) as (o & Ex & Hx0 & Hn). rewrite (proj2 (Z.eqb_neq x 0)) by done.
  apply not_elem_of_cons in Hc as [Hcx Hc]. wp_step. eapply wp_process; [exact Ex|]. rewrite (proj2 (Z.eqb_neq x c)) by congruence.
  rewrite Hn. apply (IH (l1 ++ [x])); [done|by rewrite <-(assoc_L app)|done|cbn in Hlen; lia].
Qed.

Lemma PROC_unlink_process_child_spec s K p c :
  forest (process_at s) K → is_Some (process_at s !! p) → p ≠ 0 → c ≠ 0 →
  wp (PROC_unlink_process_child p c) s (λ _ s', retreed s s' (<[p := filter (λ x, x ≠ c) (K p)]> K)).
Proof.
  intros Hf [op Ep] Hp0 Hc0. unfold PROC_unlink_process_child. rewrite (proj2 (Z.eqb_neq p 0)), (proj2 (Z.eqb_neq c 0)) by done.
  cbn [orb]. wp_step. eapply wp_process; [exact Ep|]. wp_step. apply wp_gets. rewrite (forest_first s K p op Hf Ep).
  pose proof (forest_length _ _ p Hf) as Hlen. destruct (decide (c ∈ K p)) as [Hc|Hc].
  - eapply wp_mono; [apply (unlink_child_loop_spec _ s K p c [] (K p)); [done|done|done|lia]|]. cbv beta.
    intros _ s' (k1 & k2 & Ek & ps & -> & Hk & Hf'). exists ps. split; [done|]. split; [done|].
    eapply family_ext; [done..| |exact Hf']. intros q. destruct (decide (q = p)) as [->|]; [|by rewrite !fn_lookup_insert_ne].
    rewrite !fn_lookup_insert, Ek. pose proof (fm_nodup _ _ _ _ Hf p) as Hnd. rewrite Ek in Hnd. by apply filter_ne_split.
  - eapply wp_mono; [apply (unlink_child_loop_none _ s K p c [] (K p)); [done|done|done|lia]|]. cbv beta.
    intros _ s' ->. exists (process_at s). split; [by destruct s|]. split; [done|]. eapply family_ext; [done..| |exact Hf].
    intros q. destruct (decide (q = p)) as [->|]; [|by rewrite fn_lookup_insert_ne]. by rewrite fn_lookup_insert, filter_ne_notin.
Qed.

(** ** Search *)

Definition is_zombie s (c : Z) : bool :=
  match process_at s !! c with Some o => negb (zombie o =? 0) | None => false end.

Definition first_zombie s (l : list Z) : Z := default 0 (head (filter (λ c, is_zombie s c = true) l)).

Lemma find_zombie_loop_spec fuel s K p l1 l2 :
  forest (process_at s) K → K p = l1 ++ l2 → (length l2 < fuel)%nat →
  wp (find_zombie_loop fuel (default 0 (head l2))) s (λ r s', s' = s ∧ r = first_zombie s l2).
Proof.
  revert l1 l2. induction fuel as [|fuel IH]; intros l1 l2 Hf Hp Hlen; [lia|]. cbn [find_zombie_loop].
  destruct l2 as [|x l2]; [by apply wp_ret|]. cbn [head]. change (default 0 (Some x)) with x.
  destruct (forest_seg s K p l1 x l2 Hf Hp) as (o & Ex & Hx0 & Hn). rewrite (proj2 (Z.eqb_neq x 0)) by done.
  wp_step. eapply wp_process; [exact Ex|]. unfold first_zombie. assert (is_zombie s x = negb (zombie o =? 0)) as Hz by (unfold is_zombie; by rewrite Ex).
  rewrite filter_cons. destruct (negb (zombie o =? 0)).
  - rewrite decide_True by done. by apply wp_ret.
  - rewrite decide_False by congruence. rewrite Hn. apply (IH (l1 ++ [x])); [done|by rewrite <-(assoc_L app)|cbn in Hlen; lia].
Qed.

Lemma PROC_find_zombie_child_spec s K p :
  forest (process_at s) K → is_Some (process_at s !! p) → p ≠ 0 →
  wp (PROC_find_zombie_child p) s (λ r s', s' = s ∧ r = first_zombie s (K p)).
Proof.
  intros Hf [op Ep] Hp0. unfold PROC_find_zombie_child. rewrite (proj2 (Z.eqb_neq p 0)) by done. wp_step. eapply wp_process; [exact Ep|].
  wp_step. apply wp_gets. rewrite (forest_first s K p op Hf Ep). pose proof (forest_length _ _ p Hf).
  apply (find_zombie_loop_spec _ s K p []); [done|done|lia].
Qed.

(** ** Handing the children over *)

(** The parents of the children before the last one change. *)
Lemma reparent_loop_spec fuel s K p l1 l2 z :
  forest (process_at s) K → K p = l1 ++ l2 ++ [z] → (length l2 < fuel)%nat →
  ∀ ps pr, kin (process_at s) ps (fc_of (process_at s)) (sb_of (process_at s)) pr →
  wp (reparent_loop fuel (default z (head l2))) (set_process_at ps s) (λ r s', r = z ∧ ∃ ps' pr', s' = set_process_at ps' s ∧
    kin (process_at s) ps' (fc_of (process_at s)) (sb_of (process_at s)) pr' ∧
    ∀ q, pr' q = if decide (q ∈ l2) then Some kernel_process else pr q).
Proof.
  intros Hf. revert l1 l2. induction fuel as [|fuel IH]; intros l1 l2 Hp Hlen ps pr Hk; [lia|]. cbn [reparent_loop].
  destruct l2 as [|x l2].
  - cbn [head]. change (default z None) with z. destruct (forest_seg s K p l1 z [] Hf Hp) as (o & Ez & Hz0 & Hn).
    destruct (kin_lookup _ _ _ _ _ z Hk ltac:(eauto)) as (o' & Ez' & _ & Es & _). wp_step. eapply wp_process; [exact Ez'|].
    unfold sb_of in Es. rewrite Ez in Es. cbn in Es, Hn. injection Es as <-. rewrite Hn. cbn [Z.eqb]. apply wp_ret. split; [done|].
    exists ps, pr. split; [done|]. split; [done|]. intros q. rewrite decide_False; [done|]. apply not_elem_of_nil.
  - cbn [head]. change (default z (Some x)) with x. destruct (forest_seg s K p l1 x (l2 ++ [z]) Hf Hp) as (o & Ex & Hx0 & Hn).
    destruct (kin_lookup _ _ _ _ _ x Hk ltac:(eauto)) as (o' & Ex' & _ & Es & _). wp_step. eapply wp_process; [exact Ex'|].
    unfold sb_of in Es. rewrite Ex in Es. cbn in Es. injection Es as Es. rewrite <-Es, Hn.
    assert (default 0 (head (l2 ++ [z])) = default z (head l2)) as Eh by (by destruct l2). rewrite Eh.
    assert (default z (head l2) ∈ K p) as Hnin by (rewrite Hp; apply elem_of_app; right; right; apply elem_of_app; destruct l2; [right; left|left; left]).
    destruct (forest_child _ _ _ _ Hf Hnin) as [Hn0 _]. rewrite (proj2 (Z.eqb_neq _ 0)) by done.
    wp_step. eapply wp_upd_process; [exact Ex'|]. eapply kin_parent in Hk; [|exact Ex'].
    eapply wp_mono; [apply (IH (l1 ++ [x]) l2 ltac:(by rewrite <-(assoc_L app)) ltac:(cbn in Hlen; lia) _ _ Hk)|]. cbv beta.
    intros r s' (-> & ps' & pr' & -> & Hk' & Hpr). split; [done|]. exists ps', pr'. split; [done|]. split; [done|].
    intros q. rewrite Hpr. unfold upd. destruct (decide (q ∈ l2)) as [Hq|Hq]; [by rewrite decide_True by (by right)|].
    destruct (decide (q = x)) as [->|Hqx]; [by rewrite decide_True by left|]. rewrite decide_False; [done|]. by intros [?|?]%elem_of_cons.
Qed.

Lemma PROC_reparent_children_spec s K e :
  forest (process_at s) K → is_Some (process_at s !! e) → e ≠ 0 → e ≠ kernel_process → is_Some (process_at s !! kernel_process) →
  wp (PROC_reparent_children e) s (λ _ s', retreed s s' (<[e := []]> (<[kernel_process := K e ++ K kernel_process]> K)) ∧
    ∀ q, q ∉ K e → pr_of (process_at s') q = pr_of (process_at s) q).
Proof.
  intros Hf [oe Ee] He0 Hek Hkp. unfold PROC_reparent_children. rewrite (proj2 (Z.eqb_neq e 0)) by done.
  wp_step. eapply wp_process; [exact Ee|]. rewrite (forest_first s K e oe Hf Ee).
  destruct (K e) as [|x l _] eqn:EK using rev_ind.
  { cbn [head]. change (default 0 None) with 0. cbn [Z.eqb]. apply wp_ret. split; [|done]. exists (process_at s). split; [by destruct s|]. split; [done|].
    eapply family_ext; [done..| |exact Hf]. intros q. destruct (decide (q = e)) as [->|]; [by rewrite fn_lookup_insert|].
    rewrite fn_lookup_insert_ne by done. destruct (decide (q = kernel_process)) as [->|]; [by rewrite fn_lookup_insert|by rewrite fn_lookup_insert_ne]. }
  assert (default 0 (head (l ++ [x])) = default x (head l)) as Eh by (by destruct l). rewrite Eh.
  assert (default x (head l) ∈ K e) as Hin by (rewrite EK; apply elem_of_app; destruct l; [right; left|left; left]).
  destruct (forest_child _ _ _ _ Hf Hin) as [Hh0 _]. rewrite (proj2 (Z.eqb_neq _ 0)) by done. wp_step. apply wp_gets.
  pose proof (forest_length _ _ e Hf) as Hlen. rewrite EK, length_app in Hlen. cbn in Hlen.
  wp_step. eapply wp_mono; [rewrite <-(set_process_at_id s) at 2; apply (reparent_loop_spec _ s K e [] l x Hf EK); [lia|apply kin_refl]|].
  cbv beta. intros r s' (-> & ps & pr & -> & Hk & Hpr).
  assert (x ∈ K e) as Hx by (rewrite EK; apply elem_of_app; right; left). destruct (forest_child _ _ _ _ Hf Hx) as (_ & Hxs & _).
  destruct (kin_lookup _ _ _ _ _ x Hk Hxs) as (ox & Ex & _). wp_step. eapply wp_upd_process; [exact Ex|]. eapply kin_parent in Hk; [|exact Ex].
  destruct (kin_lookup _ _ _ _ _ kernel_process Hk Hkp) as (ok & Ek & Efk & _). wp_step. eapply wp_process; [exact Ek|].
  destruct (kin_lookup _ _ _ _ _ x Hk Hxs) as (ox1 & Ex1 & _). wp_step. eapply wp_upd_process; [exact Ex1|]. eapply kin_next_sibling in Hk; [|exact Ex1].
  destruct (kin_lookup _ _ _ _ _ e Hk ltac:(eauto)) as (oe1 & Ee1 & Efe & _). wp_step. eapply wp_process; [exact Ee1|].
  destruct (kin_lookup _ _ _ _ _ kernel_process Hk Hkp) as (ok1 & Ek1 & _). wp_step. eapply wp_upd_process; [exact Ek1|]. eapply kin_first_child in Hk; [|exact Ek1].
  destruct (kin_lookup _ _ _ _ _ e Hk ltac:(eauto)) as (oe2 & Ee2 & _). eapply wp_upd_process; [exact Ee2|]. eapply kin_first_child in Hk; [|exact Ee2].
  assert (∀ q, q ∉ K e → upd pr x kernel_process q = pr_of (process_at s) q) as Hout.
  { intros q. rewrite EK. unfold upd. rewrite Hpr. intros Hq. rewrite !decide_False; [done| |]; intros Hq'; apply Hq, elem_of_app; [by left|right; subst; left]. }
  split; [|intros q Hq; rewrite <-EK in Hq; rewrite <-(Hout q Hq); exact (kn_pr _ _ _ _ _ Hk q)].
  eexists. split; [reflexivity|]. split; [exact (kn_only _ _ _ _ _ Hk)|]. eapply kin_forest; [exact Hk|]. rewrite <-EK.
  apply (family_reparent _ _ _ _ _ e kernel_process l x _ _ Hf Hek EK Efe Efk); [|exact Hout]. intros q; rewrite EK; unfold upd; rewrite Hpr.
  intros [Hq| ->%list_elem_of_singleton]%elem_of_app; [|by rewrite decide_True]. case_decide; [done|by rewrite decide_True].
Qed.
End tree.
