(* ===== verification/ProcessTreeTheorems.v ===== *)
(** * The process tree as a whole

    Any sequence of the tree operations has the effect of the same operations on lists
    of children. *)

From stdpp Require Import functions.
From S2P Require Import Prelude Links Kernel RoundRobin TaskQueue TaskQueueProofs KernelExample ProcessTree ProcessTreeProofs.

Inductive tree_op := TLink (p c : Z) | TUnlink (p c : Z) | TReparent (e : Z) | TFindZombie (p : Z).

Section theorems.
Context {E : Type} {KE : KernelEnv E} {TL : TaskLayout}.
Implicit Types (s : kst E) (K : Z → list Z).

Definition tree_call (o : tree_op) : M (kst E) Z :=
  match o with
  | TLink p c => PROC_link_process_child p c ;; ret 0
  | TUnlink p c => PROC_unlink_process_child p c ;; ret 0
  | TReparent e => PROC_reparent_children e ;; ret 0
  | TFindZombie p => PROC_find_zombie_child p
  end.

Fixpoint tree_run (ops : list tree_op) : M (kst E) (list Z) :=
  match ops with
  | [] => ret []
  | o :: ops => r <- tree_call o ;; rs <- tree_run ops ;; ret (r :: rs)
  end.

(** The same on lists; [z] tells the zombies. *)
Definition kids_call (z : Z → bool) (o : tree_op) K : Z * (Z → list Z) :=
  match o with
  | TLink p c => (0, <[p := c :: K p]> K)
  | TUnlink p c => (0, <[p := filter (λ x, x ≠ c) (K p)]> K)
  | TReparent e => (0, <[e := []]> (<[kernel_process := K e ++ K kernel_process]> K))
  | TFindZombie p => (default 0 (head (filter (λ c, z c = true) (K p))), K)
  end.

Fixpoint kids_run (z : Z → bool) (ops : list tree_op) K : list Z * (Z → list Z) :=
  match ops with
  | [] => ([], K)
  | o :: ops => let '(r, K1) := kids_call z o K in let '(rs, K2) := kids_run z ops K1 in (r :: rs, K2)
  end.

(** Operations on processes that exist; a process that is linked has no parent yet. *)
Definition kids_ok (D : gset Z) (o : tree_op) K : Prop :=
  match o with
  | TLink p c => p ∈ D ∧ c ∈ D ∧ p ≠ c ∧ ∀ p', c ∉ K p'
  | TUnlink p c => p ∈ D ∧ c ≠ 0
  | TReparent e => e ∈ D ∧ kernel_process ∈ D ∧ e ≠ kernel_process
  | TFindZombie p => p ∈ D
  end.

Fixpoint kids_run_ok (D : gset Z) (z : Z → bool) (ops : list tree_op) K : Prop :=
  match ops with
  | [] => True
  | o :: ops => kids_ok D o K ∧ kids_run_ok D z ops (kids_call z o K).2
  end.

Lemma forest_node s K p : forest (process_at s) K → p ∈ dom (process_at s) → is_Some (process_at s !! p) ∧ p ≠ 0.
Proof.
  intros Hf Hp%elem_of_dom. split; [done|]. intros ->. pose proof (fm_null _ _ _ _ Hf) as H0. unfold fc_of in H0.
  destruct Hp as [o Ho]. by rewrite Ho in H0.
Qed.

Lemma kin_only_zombie s s' : kin_only (process_at s) (process_at s') → ∀ c, is_zombie s' c = is_zombie s c.
Proof.
  intros Hk c. unfold is_zombie. specialize (Hk c). destruct (process_at s' !! c) as [o'|], (process_at s !! c) as [o|]; try done.
  cbn in Hk. assert (zombie o' = zombie o) as -> by (injection Hk; congruence). done.
Qed.

Lemma kin_only_dom s s' : kin_only (process_at s) (process_at s') → dom (process_at s') = dom (process_at s).
Proof.
  intros Hk. apply set_eq. intros p. rewrite !elem_of_dom. specialize (Hk p).
  destruct (process_at s' !! p), (process_at s !! p); try done; split; eauto.
Qed.

Lemma tree_call_spec s K o :
  forest (process_at s) K → kids_ok (dom (process_at s)) o K →
  wp (tree_call o) s (λ r s', r = (kids_call (is_zombie s) o K).1 ∧ retreed s s' (kids_call (is_zombie s) o K).2).
Proof.
  intros Hf Hok. destruct o as [p c|p c|e|p]; cbn in Hok; unfold tree_call; cbn [kids_call fst snd].
  - destruct Hok as ([Hp Hp0]%(forest_node _ _ _ Hf) & [Hc Hc0]%(forest_node _ _ _ Hf) & Hne & Hno). wp_step.
    eapply wp_mono; [by apply (PROC_link_process_child_spec s K p c)|]. cbv beta. intros _ s' Hs. by apply wp_ret.
  - destruct Hok as ([Hp Hp0]%(forest_node _ _ _ Hf) & Hc). wp_step.
    eapply wp_mono; [by apply (PROC_unlink_process_child_spec s K p c)|]. cbv beta. intros _ s' Hs. by apply wp_ret.
  - destruct Hok as ([He He0]%(forest_node _ _ _ Hf) & [Hk _]%(forest_node _ _ _ Hf) & Hne). wp_step.
    eapply wp_mono; [by apply (PROC_reparent_children_spec s K e)|]. cbv beta. intros _ s' [Hs _]. by apply wp_ret.
  - apply (forest_node _ _ _ Hf) in Hok as [Hp Hp0].
    eapply wp_mono; [by apply (PROC_find_zombie_child_spec s K p)|]. cbv beta. intros r s' (-> & ->). split; [done|].
    exists (process_at s). split; [by destruct s|done].
Qed.

Lemma kids_run_ext z z' ops K : (∀ c, z' c = z c) → kids_run z' ops K = kids_run z ops K.
Proof.
  intros Hz. revert K. induction ops as [|o ops IH]; intros K; [done|]. cbn.
  assert (kids_call z' o K = kids_call z o K) as ->; [|by destruct (kids_call z o K); rewrite IH].
  destruct o; cbn; try done. f_equal. do 2 f_equal. apply list_filter_iff. intros c. by rewrite Hz.
Qed.

Lemma kids_run_ok_ext D z z' ops K : (∀ c, z' c = z c) → kids_run_ok D z ops K → kids_run_ok D z' ops K.
Proof.
  intros Hz. revert K. induction ops as [|o ops IH]; intros K; [done|]. cbn. intros [H1 H2]. split; [done|]. apply IH.
  by destruct o.
Qed.

Lemma tree_run_spec ops s K :
  forest (process_at s) K → kids_run_ok (dom (process_at s)) (is_zombie s) ops K →
  wp (tree_run ops) s (λ rs s', rs = (kids_run (is_zombie s) ops K).1 ∧ retreed s s' (kids_run (is_zombie s) ops K).2).
Proof.
  revert s K. induction ops as [|o ops IH]; intros s K Hf Hok.
  { apply wp_ret. split; [done|]. exists (process_at s). by destruct s. }
  destruct Hok as [Hok Hoks]. cbn [tree_run kids_run]. wp_step. eapply wp_mono; [by apply tree_call_spec|]. cbv beta.
  intros r s1 (-> & ps & -> & Hk & Hf1). destruct (kids_call (is_zombie s) o K) as [r K1]. cbn [fst snd] in *.
  pose proof (kin_only_zombie s (set_process_at ps s) Hk) as Hz. pose proof (kin_only_dom s (set_process_at ps s) Hk) as Hd.
  wp_step. eapply wp_mono; [apply (IH (set_process_at ps s) K1 Hf1)|].
  { rewrite Hd. by eapply kids_run_ok_ext. }
  cbv beta. intros rs s2 (-> & ps2 & -> & Hk2 & Hf2). rewrite (kids_run_ext _ _ ops K1 Hz) in *. apply wp_ret.
  destruct (kids_run (is_zombie s) ops K1) as [rs K2]. split; [done|]. exists ps2. split; [done|]. split; [|done].
  intros p. rewrite (Hk2 p). apply Hk.
Qed.

(** C25: Every sequence of linking, unlinking, zombie searches and handing over of
    children to the kernel process returns, answers what the same operations on lists
    of children answer, keeps the tree well formed, and changes nothing else of the
    processes. *)
Theorem process_tree_refines ops s K :
  forest (process_at s) K → kids_run_ok (dom (process_at s)) (is_zombie s) ops K →
  ∃ s', tree_run ops s = Ret ((kids_run (is_zombie s) ops K).1, s') ∧
    forest (process_at s') (kids_run (is_zombie s) ops K).2 ∧ kin_only (process_at s) (process_at s') ∧
    s' = set_process_at (process_at s') s.
Proof.
  intros Hf Hok. pose proof (tree_run_spec ops s K Hf Hok) as (rs & s' & Er & -> & ps & -> & Hk & Hf')%wp_iff. by eexists.
Qed.
End theorems.

(** ** Example: the children of an exiting process pass to the kernel process *)

Definition kin_process (pid_ parent_ first next_ zombie_ : Z) : process_st :=
  Process pid_ 0 parent_ first next_ 0 0 0 0 zombie_ (Queue 0 0) (Queue 0 0).

Definition toy_family : kst toy :=
  set_process_at {[ 0x8000 := kin_process 0 0 0x5000 0 0; 0x5000 := kin_process 1 0x8000 0x5100 0 0;
                    0x5100 := kin_process 2 0x5000 0 0x5200 1; 0x5200 := kin_process 3 0x5000 0 0 0;
                    0x5300 := kin_process 4 0 0 0 0 ]} toy_kernel.

(** A test for concrete trees. *)
Fixpoint lsegb (f : Z → option Z) (h : Z) (l : list Z) : bool :=
  match l with
  | [] => h =? 0
  | p :: l => (h =? p) && negb (p =? 0) && match f p with Some n => lsegb f n l | None => false end
  end.

Lemma lsegb_ok f h l : lsegb f h l = true → lseg f h l 0.
Proof.
  revert h. induction l as [|p l IH]; intros h; cbn; [by intros ->%Z.eqb_eq|].
  rewrite !andb_true_iff. intros [[->%Z.eqb_eq Hp%negb_true_iff%Z.eqb_neq] Hl]. split; [done|]. split; [done|].
  destruct (f p) as [n|]; [|done]. exists n. split; [done|auto].
Qed.

Definition kids_of (m : gmap Z (list Z)) (p : Z) : list Z := default [] (m !! p).

Lemma forest_check ps m :
  map_Forall (λ p o, lsegb (sb_of ps) (first_child o) (kids_of m p) = true ∧ NoDup (kids_of m p)) ps →
  map_Forall (λ p l, is_Some (ps !! p) ∧ Forall (λ c, pr_of ps c = Some p) l) m → ps !! 0 = None → forest ps (kids_of m).
Proof.
  intros H1 H2 H0. split.
  - intros p h (o & Ho & ->)%fmap_Some. apply lsegb_ok. by apply (H1 p o).
  - intros p Hp. unfold kids_of. destruct (m !! p) as [l|] eqn:El; [|done]. destruct (H2 p l El) as [[o Ho] _].
    unfold fc_of in Hp. by rewrite Ho in Hp.
  - intros p c. unfold kids_of. destruct (m !! p) as [l|] eqn:El; [|by intros ?%elem_of_nil].
    destruct (H2 p l El) as [_ Hl]. rewrite Forall_forall in Hl. apply Hl.
  - intros p. destruct (ps !! p) as [o|] eqn:Ho; [by apply (H1 p o)|]. unfold kids_of.
    destruct (m !! p) as [l|] eqn:El; [|constructor]. destruct (H2 p l El) as [[o' Ho'] _]. congruence.
  - unfold fc_of. by rewrite H0.
  - intros p. unfold fc_of, pr_of. by destruct (ps !! p).
Qed.

Definition toy_kids : gmap Z (list Z) := {[ 0x8000 := [0x5000]; 0x5000 := [0x5100; 0x5200] ]}.

Lemma toy_forest : forest (process_at toy_family) (kids_of toy_kids).
Proof. apply forest_check; [apply (bool_decide_unpack _); vm_compute; exact I..|reflexivity]. Qed.

Lemma not_in_update (K : Z → list Z) p l c : c ∉ l → (∀ q, c ∉ K q) → ∀ q, c ∉ (<[p := l]> K) q.
Proof.
  intros Hl HK q. destruct (decide (q = p)) as [->|]; [by rewrite fn_lookup_insert|by rewrite fn_lookup_insert_ne].
Qed.

Lemma not_in_kids m c : map_Forall (λ _ l, c ∉ l) m → ∀ q, c ∉ kids_of m q.
Proof. intros Hm q. unfold kids_of. destruct (m !! q) as [l|] eqn:El; [by apply (Hm q l)|apply not_elem_of_nil]. Qed.

Lemma process_tree_refines_witness :
  let ops := [TFindZombie 0x5000; TUnlink 0x5000 0x5100; TReparent 0x5000; TLink 0x5000 0x5300] in
  ∃ s', tree_run ops toy_family = Ret ([0x5100; 0; 0; 0], s') ∧
    forest (process_at s') (kids_run (is_zombie toy_family) ops (kids_of toy_kids)).2 ∧
    (kids_run (is_zombie toy_family) ops (kids_of toy_kids)).2 0x8000 = [0x5200; 0x5000].
Proof.
  set (ops := [TFindZombie 0x5000; TUnlink 0x5000 0x5100; TReparent 0x5000; TLink 0x5000 0x5300]). cbv zeta.
  destruct (process_tree_refines ops toy_family (kids_of toy_kids) toy_forest) as (s' & Er & Hf & _).
  { change (kids_run_ok (dom (process_at toy_family)) (is_zombie toy_family) ops (kids_of toy_kids)) with
      (0x5000 ∈ dom (process_at toy_family) ∧ (0x5000 ∈ dom (process_at toy_family) ∧ 0x5100 ≠ 0) ∧
       (0x5000 ∈ dom (process_at toy_family) ∧ 0x8000 ∈ dom (process_at toy_family) ∧ 0x5000 ≠ 0x8000) ∧
       (0x5000 ∈ dom (process_at toy_family) ∧ 0x5300 ∈ dom (process_at toy_family) ∧ 0x5000 ≠ 0x5300 ∧
        ∀ p', 0x5300 ∉ (kids_run (is_zombie toy_family) [TUnlink 0x5000 0x5100; TReparent 0x5000] (kids_of toy_kids)).2 p') ∧ True).
    assert (∀ q, 0x5300 ∉ kids_of toy_kids q) as Hk.
    { apply not_in_kids. apply (bool_decide_unpack _). vm_compute. exact I. }
    assert (0x5000 ∈ dom (process_at toy_family)) as D1 by (apply elem_of_dom; by eexists).
    assert (0x8000 ∈ dom (process_at toy_family)) as D2 by (apply elem_of_dom; by eexists).
    assert (0x5300 ∈ dom (process_at toy_family)) as D3 by (apply elem_of_dom; by eexists).
    repeat split; try done. cbn [kids_run kids_call fst snd].
    apply not_in_update; [apply not_elem_of_nil|]. apply not_in_update; [|apply not_in_update; [|exact Hk]];
      apply (bool_decide_unpack _); vm_compute; exact I. }
  exists s'. split; [exact Er|]. split; [exact Hf|]. vm_compute. reflexivity.
Defined.
