(* ===== verification/Mutex.v ===== *)
(** * Mutexes ([src/x86_64/multitask/mutex_syscalls.c])

    Each mutex belongs to a process and has the thread that holds it and a queue of
    waiting threads; unlocking hands it to the first of them.  [mutex_lock] may
    block: it answers [SBlocked] when the thread has been switched away from, and
    [lock_resume] is what the thread does when it runs again. *)

From S2P Require Import Prelude Links Kernel RoundRobin TaskQueue.

(** [(uint64_t)-1], and the size of [kernel_mutex_st]. *)
Definition MINUS_ONE : Z := 2 ^ 64 - 1.
Definition mutex_bytes : Z := 48.

(** A system call that has finished, or that waits with the given rest. *)
Inductive kont := KLock (id m : Z) | KWait (frame : Z) | KJoin (tid_ status_ptr : Z).
Inductive sysres := SDone (v : Z) | SBlocked (k : kont).

Section mutex.
Context {E : Type} `{!KernelEnv E, !TaskLayout}.
Local Abbreviation MK := (M (kst E)).

Fixpoint find_mutex_loop (fuel : nat) (owner_ id m : Z) : MK Z :=
  match fuel with
  | O => no_fuel
  | S fuel =>
      if m =? 0 then ret 0 else
      x <- mutex m ;;
      if (mutex_id x =? id) && (owner_process x =? owner_) then ret m
      else find_mutex_loop fuel owner_ id (next x)
  end.

Definition find_mutex (owner_ id : Z) : MK Z :=
  m <- gets mutex_list ;;
  n <- gets (λ s, size (mutex_at s)) ;;
  find_mutex_loop (S n) owner_ id m.

Fixpoint unlink_mutex_loop (fuel : nat) (m prev curr : Z) : MK unit :=
  match fuel with
  | O => no_fuel
  | S fuel =>
      if curr =? 0 then ret tt else
      c <- mutex curr ;;
      if curr =? m then
        (if prev =? 0 then modify (set_mutex_list (next c)) else upd_mutex prev (set_next (next c))) ;;
        upd_mutex curr (set_next 0)
      else unlink_mutex_loop fuel m curr (next c)
  end.

Definition unlink_mutex (m : Z) : MK unit :=
  curr <- gets mutex_list ;;
  n <- gets (λ s, size (mutex_at s)) ;;
  unlink_mutex_loop (S n) m 0 curr.

Definition free_mutex (m : Z) : MK unit :=
  lift (ke_kfree m) ;;
  modify (λ s, set_mutex_at (delete m (mutex_at s)) s).

Definition syscall_mutex_create : MK Z :=
  m <- lift (ke_kmalloc mutex_bytes) ;;
  if m =? 0 then ret 0 else
  id <- gets next_mutex_id ;;
  modify (set_next_mutex_id (u64 (id + 1))) ;;
  curr <- gets curr_proc ;;
  t <- thread curr ;;
  first <- gets mutex_list ;;
  modify (λ s, set_mutex_at (<[m := Mutex id (owner t) 0 (Queue 0 0) first]> (mutex_at s)) s) ;;
  modify (set_mutex_list m) ;;
  ret id.

(** [!curr_proc || !curr_proc->owner || id == 0], and the owner. *)
Definition caller_process (id : Z) : MK (option Z) :=
  curr <- gets curr_proc ;;
  if curr =? 0 then ret None else
  t <- thread curr ;;
  if (owner t =? 0) || (id =? 0) then ret None else ret (Some (owner t)).

(** One turn of the loop of [syscall_mutex_lock]. *)
Definition lock_turn (id sp : Z) : MK sysres :=
  CLI ;;
  curr <- gets curr_proc ;;
  t <- thread curr ;;
  m <- find_mutex (owner t) id ;;
  if m =? 0 then STI ;; ret (SDone MINUS_ONE) else
  x <- mutex m ;;
  if owner_thread x =? 0 then
    upd_mutex m (set_owner_thread curr) ;; STI ;; ret (SDone 0)
  else if owner_thread x =? curr then STI ;; ret (SDone MINUS_ONE)
  else
    PROC_block_on (Some (QMutex m)) true sp ;;
    ret (SBlocked (KLock id m)).

Definition syscall_mutex_lock (id sp : Z) : MK sysres :=
  o <- caller_process id ;;
  match o with
  | None => ret (SDone MINUS_ONE)
  | Some _ => lock_turn id sp
  end.

(** After the thread has been scheduled again. *)
Definition lock_resume (id m sp : Z) : MK sysres :=
  CLI ;;
  x <- mutex m ;;
  curr <- gets curr_proc ;;
  if owner_thread x =? curr then STI ;; ret (SDone 0)
  else lock_turn id sp.

Definition syscall_mutex_unlock (id : Z) : MK Z :=
  o <- caller_process id ;;
  match o with
  | None => ret MINUS_ONE
  | Some _ =>
      CLI ;;
      curr <- gets curr_proc ;;
      t <- thread curr ;;
      m <- find_mutex (owner t) id ;;
      if m =? 0 then STI ;; ret MINUS_ONE else
      x <- mutex m ;;
      if negb (owner_thread x =? curr) then STI ;; ret MINUS_ONE else
      next_owner <- PROC_unblock_one (Some (QMutex m)) ;;
      upd_mutex m (set_owner_thread next_owner) ;;
      STI ;;
      ret 0
  end.

Definition syscall_mutex_destroy (id : Z) : MK Z :=
  o <- caller_process id ;;
  match o with
  | None => ret MINUS_ONE
  | Some _ =>
      CLI ;;
      curr <- gets curr_proc ;;
      t <- thread curr ;;
      m <- find_mutex (owner t) id ;;
      if m =? 0 then STI ;; ret MINUS_ONE else
      x <- mutex m ;;
      if negb (owner_thread x =? 0) || negb (q_head (waiters x) =? 0) then STI ;; ret MINUS_ONE else
      unlink_mutex m ;;
      STI ;;
      free_mutex m ;;
      ret 0
  end.

Fixpoint destroy_mutexes_loop (fuel : nat) (owner_ curr : Z) : MK unit :=
  match fuel with
  | O => no_fuel
  | S fuel =>
      if curr =? 0 then ret tt else
      c <- mutex curr ;;
      (if owner_process c =? owner_ then
         unlink_mutex curr ;;
         PROC_unblock_all (Some (QMutex curr)) ;;
         free_mutex curr
       else ret tt) ;;
      destroy_mutexes_loop fuel owner_ (next c)
  end.

Definition MUTEX_destroy_process_mutexes (owner_ : Z) : MK unit :=
  if owner_ =? 0 then ret tt else
  ints_enabled <- are_interrupts_enabled ;;
  cli_if ints_enabled ;;
  curr <- gets mutex_list ;;
  n <- gets (λ s, size (mutex_at s)) ;;
  destroy_mutexes_loop (S n) owner_ curr ;;
  sti_if ints_enabled.
End mutex.
