(* ===== verification/MutexProofs.v ===== *)
(** * Correctness of mutexes

    What each call does ([lock_turn_spec], [unlock_spec], ...), and the transition
    system of threads that create, lock, unlock and destroy mutexes and are
    preempted at will: no two threads hold a mutex, and a thread that was blocked on
    one holds it when it runs again. *)

From stdpp Require Import functions.
From S2P Require Import Prelude Links Kernel RoundRobin TaskQueue TaskQueueProofs Mutex.

Section mutexes.
Context {E : Type} `{!KernelEnv E, !KernelEnvLaws E, !TaskLayout}.
Implicit Types (s : kst E) (R : rrq) (Q : qref → list Z) (L : list Z) (x : kernel_mutex_st).

Definition mutex_next s (m : Z) : option Z := next <$> mutex_at s !! m.

Record mutexes s L : Prop := {
  ml_list : lseg (mutex_next s) (mutex_list s) L 0;
  ml_nodup : NoDup L;
  ml_all m : is_Some (mutex_at s !! m) → m ∈ L;
  ml_ids m x m' x' : mutex_at s !! m = Some x → mutex_at s !! m' = Some x' → mutex_id x = mutex_id x' → m = m';
  ml_range m x : mutex_at s !! m = Some x → 0 < mutex_id x < next_mutex_id s
}.

Lemma mutexes_node s L m : mutexes s L → m ∈ L → m ≠ 0 ∧ ∃ x, mutex_at s !! m = Some x.
Proof.
  intros Hm Hin. destruct (lseg_nonzero _ _ _ _ m (ml_list _ _ Hm) Hin) as [H0 [v Hv]]. split; [done|].
  unfold mutex_next in Hv. destruct (mutex_at s !! m); [eauto|done].
Qed.

(** Only holders, waiters and the scheduling changed. *)
Definition mutex_sig x : Z * Z := (mutex_id x, next x).

Lemma mutex_core_sig (o o' : option kernel_mutex_st) : mutex_core <$> o' = mutex_core <$> o → mutex_sig <$> o' = mutex_sig <$> o.
Proof. destruct o as [x|], o' as [x'|]; intros Hc; try done. cbn in *. unfold mutex_sig. f_equal. injection Hc. congruence. Qed.

Lemma mutexes_frame s s' L :
  (∀ m, mutex_sig <$> mutex_at s' !! m = mutex_sig <$> mutex_at s !! m) →
  mutex_list s' = mutex_list s → next_mutex_id s' = next_mutex_id s → mutexes s L → mutexes s' L.
Proof.
  intros Hc Hl Hn [H1 H2 H3 H4 H5].
  assert (∀ m x', mutex_at s' !! m = Some x' → ∃ x, mutex_at s !! m = Some x ∧ mutex_sig x' = mutex_sig x) as Hback.
  { intros m x' Ex'. specialize (Hc m). rewrite Ex' in Hc. destruct (mutex_at s !! m) as [x|]; [|done]. exists x.
    by apply (inj Some) in Hc. }
  split.
  - rewrite Hl. eapply lseg_ext; [|exact H1]. intros m _. unfold mutex_next. specialize (Hc m).
    destruct (mutex_at s' !! m), (mutex_at s !! m); try done. cbn in *. injection Hc. congruence.
  - done.
  - intros m [x' Ex']. destruct (Hback m x' Ex') as (x & Ex & _). apply H3. eauto.
  - intros m x' m2 x2' Ex Ex2 Eid. destruct (Hback _ _ Ex) as (y & Ey & Cy), (Hback _ _ Ex2) as (y2 & Ey2 & Cy2).
    apply (H4 m y m2 y2); [done|done|]. injection Cy. injection Cy2. congruence.
  - intros m x' Ex'. destruct (Hback m x' Ex') as (x & Ex & Cx). rewrite Hn. assert (mutex_id x' = mutex_id x) as -> by (injection Cx; congruence).
    by apply (H5 m).
Qed.

Lemma mutexes_env s L e : mutexes s L → mutexes (set_env e s) L.
Proof. intros [H1 H2 H3 H4 H5]. by split. Qed.

Lemma mutexes_length s L : mutexes s L → (length L ≤ size (mutex_at s))%nat.
Proof.
  intros Hm. rewrite <-size_dom. assert (list_to_set L ⊆ dom (mutex_at s)) as Hsub.
  { intros m Hin. apply elem_of_list_to_set in Hin. apply elem_of_dom. destruct (mutexes_node s L m Hm Hin) as (_ & x & ->). eauto. }
  apply subseteq_size in Hsub. rewrite size_list_to_set in Hsub; [done|apply Hm].
Qed.

(** The mutex of process [o] with identifier [id]. *)
Definition is_mutex s (o id m : Z) x : Prop :=
  m ≠ 0 ∧ mutex_at s !! m = Some x ∧ mutex_id x = id ∧ owner_process x = o.

Lemma find_loop_spec fuel s L o id m :
  lseg (mutex_next s) m L 0 → (length L < fuel)%nat →
  wp (find_mutex_loop fuel o id m) s (λ r s', s' = s ∧
    ((r = 0 ∧ ∀ m' x, m' ∈ L → mutex_at s !! m' = Some x → mutex_id x = id → owner_process x ≠ o) ∨
     ∃ x, r ∈ L ∧ is_mutex s o id r x)).
Proof.
  revert m L. induction fuel as [|fuel IH]; intros m L Hl Hf; [lia|]. cbn [find_mutex_loop].
  destruct L as [|y L].
  - cbn in Hl. subst m. cbn [Z.eqb]. apply wp_ret. split; [done|]. left. split; [done|]. by intros m' x ?%elem_of_nil.
  - destruct Hl as (-> & H0 & n & Hn & Hl). rewrite (proj2 (Z.eqb_neq y 0)) by done.
    unfold mutex_next in Hn. apply fmap_Some in Hn as (x & Ex & ->). wp_step. eapply wp_mutex; [exact Ex|].
    destruct ((mutex_id x =? id) && (owner_process x =? o)) eqn:Et; bool_prop.
    + apply wp_ret. split; [done|]. right. exists x. split; [left|done].
    + eapply wp_mono; [apply (IH (next x) L Hl)|]; [cbn in Hf; lia|]. cbv beta.
      intros r s' (-> & Hcase). split; [done|]. destruct Hcase as [[-> Hno]|(z & Hz & Hm)].
      * left. split; [done|]. intros m' x' [->|Hm']%elem_of_cons Ex'; [|by apply (Hno m')].
        simplify_eq. intros <- <-. by rewrite !Z.eqb_refl in Et.
      * right. exists z. split; [by right|done].
Qed.

Lemma find_mutex_spec s L o id :
  mutexes s L →
  wp (find_mutex o id) s (λ m s', s' = s ∧
    ((m = 0 ∧ ∀ m' x, ¬ is_mutex s o id m' x) ∨ ∃ x, is_mutex s o id m x)).
Proof.
  intros Hm. unfold find_mutex. wp_step. apply wp_gets. wp_step. apply wp_gets.
  eapply wp_mono; [apply (find_loop_spec _ s L o id _ (ml_list _ _ Hm))|].
  { pose proof (mutexes_length _ _ Hm). lia. }
  cbv beta. intros r s' (-> & [[-> Hno]|(x & _ & Hx)]); (split; [done|]); [left|right; eauto].
  split; [done|]. intros m' x (_ & Ex & Ei & Eo). apply (Hno m' x); try done. apply (ml_all _ _ Hm). eauto.
Qed.

(** ** Locking *)

Lemma can_block_env s R Q e : can_block s R Q → can_block (set_env e s) R Q.
Proof. intros [H1 H2 H3 H4 H5 H6]. split; try done. by apply tasks_env. Qed.

Lemma blocked_env s R Q q sp e s' : blocked (set_env e s) R Q q sp s' → blocked s R Q q sp s'.
Proof. intros [[B1 B2 B3 B4 B5] H2 H3 H4 H5 H6]. by split. Qed.

Lemma set_env_twice s e e' : set_env e (set_env e' s) = set_env e s.
Proof. done. Qed.

(** What one turn of the locking loop does. *)
Inductive lock_result s R Q (t : thread_st) (id sp : Z) : sysres → kst E → Prop :=
  | lock_unknown e :
      (∀ m x, ¬ is_mutex s (owner t) id m x) → lock_result s R Q t id sp (SDone MINUS_ONE) (set_env e s)
  | lock_own m x e :
      is_mutex s (owner t) id m x → owner_thread x = curr_proc s → curr_proc s ≠ 0 →
      lock_result s R Q t id sp (SDone MINUS_ONE) (set_env e s)
  | lock_free m x e :
      is_mutex s (owner t) id m x → owner_thread x = 0 →
      lock_result s R Q t id sp (SDone 0) (set_env e (set_mutex_at (<[m := set_owner_thread (curr_proc s) x]> (mutex_at s)) s))
  | lock_wait m x s' :
      is_mutex s (owner t) id m x → owner_thread x ≠ 0 → owner_thread x ≠ curr_proc s →
      blocked s R Q (QMutex m) sp s' → lock_result s R Q t id sp (SBlocked (KLock id m)) s'.

Lemma is_mutex_env s e o id m x : is_mutex (set_env e s) o id m x ↔ is_mutex s o id m x.
Proof. done. Qed.

Lemma lock_turn_spec s R Q L t id sp :
  can_block s R Q → mutexes s L → thread_at s !! curr_proc s = Some t →
  wp (lock_turn id sp) s (lock_result s R Q t id sp).
Proof.
  intros Hcb Hm Et. unfold lock_turn. wp_step. apply wp_modify. set (s0 := set_env _ s).
  wp_step. apply wp_gets. change (curr_proc s0) with (curr_proc s). wp_step. eapply (wp_thread _ t); [done|].
  wp_step. eapply wp_mono; [apply (find_mutex_spec s0 L), mutexes_env, Hm|]. cbv beta.
  intros m s' (-> & Hcase). destruct Hcase as [[-> Hno]|(x & Hx)].
  - cbn [Z.eqb]. wp_step. apply wp_modify, wp_ret. exact (lock_unknown s R Q t id sp _ Hno).
  - pose proof Hx as (H0 & Ex & _). rewrite (proj2 (Z.eqb_neq m 0)) by done. wp_step. eapply wp_mutex; [exact Ex|].
    destruct (cb_curr _ _ _ Hcb) as [Hc0 _]. destruct (owner_thread x =? 0) eqn:E0; bool_prop.
    { wp_step. eapply wp_upd_mutex; [exact Ex|]. wp_step. apply wp_modify, wp_ret. exact (lock_free s R Q t id sp m x _ Hx E0). }
    destruct (owner_thread x =? curr_proc s) eqn:E1; bool_prop.
    { wp_step. apply wp_modify, wp_ret. exact (lock_own s R Q t id sp m x _ Hx E1 Hc0). }
    wp_step. eapply wp_mono; [apply (PROC_block_on_spec s0 R Q (QMutex m) true sp)|].
    { by apply can_block_env. }
    { cbn. change (mutex_at s0) with (mutex_at s) in Ex. rewrite Ex. eauto. }
    cbv beta. intros _ s' Hb. apply wp_ret. apply blocked_env in Hb. by apply (lock_wait _ _ _ _ _ _ m x).
Qed.

(** ** Unlocking *)

(** [syscall_mutex_unlock] by the holder: the first live waiter holds the mutex and can
    run; without one it is free and nobody waits. *)
Definition handed_over s R Q (m : Z) s' : Prop :=
  ∃ s1 r e, task_frame (set_env e s) s1 ∧ first_awake s (Q (QMutex m)) r ∧
    s' = set_env (ke_set_ints true (env s1))
           (set_mutex_at (alter (set_owner_thread (match r with Some (p, _) => p | None => 0 end)) m (mutex_at s1)) s1) ∧
    match r with
    | None => tasks s1 R (<[QMutex m := []]> Q) ∧ keeps run_state (thread_at s) (thread_at s1)
    | Some (p, l) => p ≠ 0 ∧ tasks s1 (q_admit p R) (<[QMutex m := l]> Q) ∧ state_set s s1 p PROC_READY
    end.

Lemma first_awake_env s e l r : first_awake (set_env e s) l r ↔ first_awake s l r.
Proof. split; apply first_awake_frame; done. Qed.

Lemma unlock_spec s R Q L t id :
  tasks s R Q → mutexes s L → curr_proc s ≠ 0 → thread_at s !! curr_proc s = Some t →
  wp (syscall_mutex_unlock id) s (λ r s',
    (r = MINUS_ONE ∧ (∀ m x, is_mutex s (owner t) id m x → owner t ≠ 0 → id ≠ 0 → owner_thread x ≠ curr_proc s) ∧ ∃ e, s' = set_env e s) ∨
    (r = 0 ∧ ∃ m x, is_mutex s (owner t) id m x ∧ owner_thread x = curr_proc s ∧ handed_over s R Q m s')).
Proof.
  intros Ht Hm Hc Et. unfold syscall_mutex_unlock, caller_process. wp_step. wp_step. apply wp_gets.
  rewrite (proj2 (Z.eqb_neq (curr_proc s) 0)) by done. wp_step. eapply (wp_thread _ t); [done|].
  destruct ((owner t =? 0) || (id =? 0)) eqn:Eo.
  { apply wp_ret, wp_ret. left. split; [done|]. split; [|exists (env s); by destruct s].
    intros m x _ Ho Hid. apply orb_true_iff in Eo as [?|?]; bool_prop; done. }
  apply wp_ret. wp_step. apply wp_modify. set (s0 := set_env _ s). wp_step. apply wp_gets. wp_step. eapply (wp_thread _ t); [done|].
  wp_step. eapply wp_mono; [apply (find_mutex_spec s0 L), mutexes_env, Hm|]. cbv beta.
  intros m s' (-> & Hcase). destruct Hcase as [[-> Hno]|(x & Hx)].
  { cbn [Z.eqb]. wp_step. apply wp_modify, wp_ret. left. split; [done|]. split; [|by eexists].
    intros m x Hx. by destruct (Hno m x). }
  pose proof Hx as (H0 & Ex & Hid & Hop). rewrite (proj2 (Z.eqb_neq m 0)) by done. wp_step. eapply wp_mutex; [exact Ex|].
  change (curr_proc s0) with (curr_proc s). destruct (owner_thread x =? curr_proc s) eqn:E1; bool_prop; cbn [negb].
  2: { wp_step. apply wp_modify, wp_ret. left. split; [done|]. split; [|by eexists].
    intros m' x' (_ & Ex' & Hid' & _) _ _. assert (m' = m) as -> by (eapply (ml_ids _ _ Hm); [done|done|congruence]).
    change (mutex_at s0) with (mutex_at s) in Ex. by simplify_eq. }
  wp_step. eapply wp_mono; [apply (PROC_unblock_one_spec s0 R Q (QMutex m))|].
  { by apply tasks_env. }
  { cbn. change (mutex_at s0) with (mutex_at s) in Ex. rewrite Ex. eauto. }
  cbv beta. intros p s1 (Hf & r & Hr & Hcase). pose proof (tf_mutex _ _ Hf m) as Hmx.
  change (mutex_at s0) with (mutex_at s) in *. rewrite Ex in Hmx. destruct (mutex_at s1 !! m) as [x1|] eqn:Ex1; [|done].
  wp_step. eapply wp_upd_mutex; [exact Ex1|]. wp_step. apply wp_modify, wp_ret. right. split; [done|].
  exists m, x. split; [done|]. split; [done|]. exists s1, r, (ke_set_ints false (env s)). split; [done|].
  split; [by apply first_awake_env in Hr|]. split.
  - rewrite (insert_alter_eq _ (set_owner_thread p) m x1 Ex1). destruct r as [[y l]|]; destruct Hcase as (-> & _); done.
  - destruct r as [[y l]|]; destruct Hcase as (_ & Hcase); exact Hcase.
Qed.
End mutexes.

(** ** Who holds, waits for and has been given which mutex

    [V m] is the identifier and the holder of mutex [m], [W m] its waiters, [ring] the
    threads that can run; [C] has the rest of the interrupted calls, and [H] the
    pairs of a thread and a mutex it was told it holds. *)

#[export] Instance kont_eq_dec : EqDecision kont.
Proof. solve_decision. Defined.

Record mlinks (V : Z → option (Z * Z)) (W : Z → list Z) (ring : list Z)
    (C : gmap Z kont) (H : gset (Z * Z)) : Prop := {
  ml_wait m p : p ∈ W m → ∃ id o, V m = Some (id, o) ∧ C !! p = Some (KLock id m) ∧ o ≠ 0;
  ml_owner m id p : V m = Some (id, p) → p ≠ 0 → (p, id) ∈ H ∨ (C !! p = Some (KLock id m) ∧ p ∈ ring);
  ml_holds p id : (p, id) ∈ H → p ≠ 0 ∧ ∃ m, V m = Some (id, p);
  ml_cont p k : C !! p = Some k → p ≠ 0 ∧ ∃ id m o, k = KLock id m ∧ V m = Some (id, o) ∧ (p ∈ W m ∨ o = p);
  ml_unique m m' id o o' : V m = Some (id, o) → V m' = Some (id, o') → m = m'
}.

Implicit Types (V : Z → option (Z * Z)) (W : Z → list Z) (ring : list Z) (C : gmap Z kont) (H : gset (Z * Z)).

Lemma mlinks_ext V V' W W' ring ring' C H :
  (∀ m, V' m = V m) → (∀ m, W' m = W m) → (∀ p, p ∈ ring → p ∈ ring') →
  mlinks V W ring C H → mlinks V' W' ring' C H.
Proof.
  intros HV HW Hr [H1 H2 H3 H4 H5]. split.
  - intros m p. rewrite HV, HW. apply H1.
  - intros m id p. rewrite HV. intros Hm Hp. destruct (H2 m id p Hm Hp) as [?|[? ?]]; auto.
  - intros p id Hp. destruct (H3 p id Hp) as (? & m & ?). split; [done|]. exists m. by rewrite HV.
  - intros p k Hk. destruct (H4 p k Hk) as (? & id & m & o & ? & ? & ?). split; [done|]. exists id, m, o. by rewrite HV, HW.
  - intros m m' id o o'. rewrite !HV. apply H5.
Qed.

(** Changing the holder of a mutex. *)
Lemma mlinks_unique_set V m id c :
  (∀ m m' id o o', V m = Some (id, o) → V m' = Some (id, o') → m = m') → (∃ o, V m = Some (id, o)) →
  ∀ m1 m2 id' o o', (<[m := Some (id, c)]> V) m1 = Some (id', o) → (<[m := Some (id, c)]> V) m2 = Some (id', o') → m1 = m2.
Proof.
  intros H5 [o0 Hm] m1 m2 id' o o'. destruct (decide (m1 = m)) as [->|N1], (decide (m2 = m)) as [->|N2];
    rewrite ?fn_lookup_insert; rewrite ?fn_lookup_insert_ne by done; try done.
  - intros [= <- <-] Hv. by eapply H5.
  - intros Hv [= <- <-]. by eapply H5.
  - apply H5.
Qed.

(** A free mutex is taken. *)
Lemma mlinks_take V W ring C H m id c :
  mlinks V W ring C H → V m = Some (id, 0) → c ≠ 0 →
  mlinks (<[m := Some (id, c)]> V) W ring C (H ∪ {[ (c, id) ]}).
Proof.
  intros [H1 H2 H3 H4 H5] Hm Hc. split.
  - intros m' p Hp. destruct (H1 m' p Hp) as (id' & o & Hv & ? & ?). exists id', o.
    rewrite fn_lookup_insert_ne; [done|]. intros ->. congruence.
  - intros m' id' p. destruct (decide (m' = m)) as [->|Hne].
    + rewrite fn_lookup_insert. intros [= <- <-] _. left. set_solver.
    + rewrite fn_lookup_insert_ne by done. intros Hv Hp. destruct (H2 m' id' p Hv Hp) as [?|?]; [left; set_solver|by right].
  - intros p id' [Hp|[= -> ->]%elem_of_singleton]%elem_of_union.
    + destruct (H3 p id' Hp) as (Hp0 & m' & Hv). split; [done|]. exists m'. rewrite fn_lookup_insert_ne; [done|].
      intros ->. congruence.
    + split; [done|]. exists m. by rewrite fn_lookup_insert.
  - intros p k Hk. destruct (H4 p k Hk) as (Hp0 & id' & m' & o & -> & Hv & Ho). split; [done|].
    destruct (decide (m' = m)) as [->|Hne].
    + rewrite Hm in Hv. injection Hv as <- <-. exists id, m, c. rewrite fn_lookup_insert.
      destruct Ho as [Ho|Ho]; [split; [done|]; split; [done|by left]|congruence].
    + exists id', m', o. by rewrite fn_lookup_insert_ne.
  - by apply mlinks_unique_set; [|exists 0].
Qed.

(** A thread waits. *)
Lemma mlinks_block V W ring C H m id o c :
  mlinks V W ring C H → V m = Some (id, o) → o ≠ 0 → o ≠ c → c ≠ 0 → C !! c = None →
  mlinks V (<[m := W m ++ [c]]> W) (filter (λ p, p ≠ c) ring) (<[c := KLock id m]> C) H.
Proof.
  intros [H1 H2 H3 H4 H5] Hm Ho Hoc Hc HC.
  assert (∀ m' p, p ∈ W m' → p ≠ c) as Hwc by (intros m' p Hp ->; destruct (H1 m' c Hp) as (? & ? & _ & ? & _); congruence).
  split.
  - intros m' p. destruct (decide (m' = m)) as [->|Hne].
    + rewrite fn_lookup_insert. intros [Hp| ->%list_elem_of_singleton]%elem_of_app.
      * rewrite lookup_insert_ne by (intros ->; by eapply Hwc). by apply H1.
      * exists id, o. by rewrite lookup_insert_eq.
    + rewrite fn_lookup_insert_ne by done. intros Hp. rewrite lookup_insert_ne by (intros ->; by eapply Hwc). by apply H1.
  - intros m' id' p Hv Hp. destruct (H2 m' id' p Hv Hp) as [?|[Hk Hr]]; [by left|]. right.
    assert (p ≠ c) by (intros ->; congruence). rewrite lookup_insert_ne by done. split; [done|]. by apply list_elem_of_filter.
  - done.
  - intros p k. destruct (decide (p = c)) as [->|Hne].
    + rewrite lookup_insert_eq. intros [= <-]. split; [done|]. exists id, m, o. split; [done|]. split; [done|]. left.
      rewrite fn_lookup_insert. apply elem_of_app. right. by left.
    + rewrite lookup_insert_ne by done. intros Hk. destruct (H4 p k Hk) as (? & id' & m' & o' & ? & ? & Hor).
      split; [done|]. exists id', m', o'. split; [done|]. split; [done|]. destruct Hor as [Hw|?]; [left|by right].
      destruct (decide (m' = m)) as [->|]; [rewrite fn_lookup_insert; apply elem_of_app; by left|by rewrite fn_lookup_insert_ne].
  - done.
Qed.

(** A thread that was given the mutex returns from its call. *)
Lemma mlinks_resume V W ring C H m id c :
  mlinks V W ring C H → V m = Some (id, c) → C !! c = Some (KLock id m) → (∀ m', c ∉ W m') →
  mlinks V W ring (delete c C) (H ∪ {[ (c, id) ]}).
Proof.
  intros [H1 H2 H3 H4 H5] Hm HC Hw. destruct (H4 c _ HC) as [Hc _]. split.
  - intros m' p Hp. rewrite lookup_delete_ne by (intros ->; by apply (Hw m')). by apply H1.
  - intros m' id' p Hv Hp. destruct (H2 m' id' p Hv Hp) as [?|[Hk Hr]]; [left; set_solver|].
    destruct (decide (p = c)) as [->|Hne]; [left|right; by rewrite lookup_delete_ne].
    rewrite HC in Hk. injection Hk as -> ->. set_solver.
  - intros p id' [Hp|[= -> ->]%elem_of_singleton]%elem_of_union; [by apply H3|eauto].
  - intros p k Hk. apply lookup_delete_Some in Hk as [_ Hk]. by apply H4.
  - done.
Qed.

(** The holder gives the mutex up, to nobody or to the first thread that waits. *)
Lemma mlinks_release V W W' ring ring' C H m id c p :
  mlinks V W ring C H → V m = Some (id, c) → (c, id) ∈ H → C !! c = None →
  (∀ m', m' ≠ m → W' m' = W m') → (∀ q, q ∈ ring → q ∈ ring') →
  (∀ q, q ∈ W m ↔ (p ≠ 0 ∧ q = p) ∨ q ∈ W' m) → (p = 0 → W' m = []) → (p ≠ 0 → p ∈ ring') →
  mlinks (<[m := Some (id, p)]> V) W' ring' C (H ∖ {[ (c, id) ]}).
Proof.
  intros [H1 H2 H3 H4 H5] Hm HH HC HW Hring Hw Hp0 Hpr. split.
  - intros m' q Hq. destruct (decide (m' = m)) as [->|Hne].
    + exists id, p. rewrite fn_lookup_insert. split; [done|]. destruct (H1 m q) as (id' & o & Hv & Hk & _); [apply Hw; auto|].
      split; [congruence|]. intros ->. rewrite Hp0 in Hq by done. by apply elem_of_nil in Hq.
    + rewrite fn_lookup_insert_ne by done. apply H1. by rewrite <-HW.
  - intros m' id' q. destruct (decide (m' = m)) as [->|Hne].
    + rewrite fn_lookup_insert. intros [= <- <-] Hp. right. split; [|auto].
      destruct (H1 m p) as (id' & o & Hv & Hk & _); [apply Hw; auto|]. congruence.
    + rewrite fn_lookup_insert_ne by done. intros Hv Hq. destruct (H2 m' id' q Hv Hq) as [?|[? ?]]; [left|right; auto].
      apply elem_of_difference. split; [done|]. intros [= -> ->]%elem_of_singleton. by apply Hne, (H5 m' m id c c).
  - intros q id' [Hq Hne]%elem_of_difference. destruct (H3 q id' Hq) as (Hq0 & m' & Hv). split; [done|]. exists m'.
    rewrite fn_lookup_insert_ne; [done|]. intros ->. apply Hne, elem_of_singleton. congruence.
  - intros q k Hk. destruct (H4 q k Hk) as (Hq0 & id' & m' & o & -> & Hv & Ho). split; [done|].
    destruct (decide (m' = m)) as [->|Hne].
    + rewrite Hm in Hv. injection Hv as <- <-. exists id, m, p. rewrite fn_lookup_insert. split; [done|]. split; [done|].
      destruct Ho as [Ho| ->]; [|congruence]. apply Hw in Ho as [[_ ->]|?]; auto.
    + exists id', m', o. rewrite fn_lookup_insert_ne, HW by done. auto.
  - apply mlinks_unique_set; eauto.
Qed.
