(* ===== verification/MutexSystem.v ===== *)
(** * Threads that share mutexes

    The transition system of threads that create, lock, unlock and destroy mutexes and
    are preempted between their calls.  A configuration has the kernel's state, the
    rest of the calls that are blocked, and which thread was told that it holds which
    mutex.  In every reachable configuration a mutex has at most one holder, no call
    reaches a bad pointer, and a thread that was blocked on a mutex holds it when it
    runs again. *)

From stdpp Require Import functions.
From S2P Require Import Prelude Links Kernel RoundRobin TaskQueue TaskQueueProofs Mutex MutexProofs.

Section system.
Context {E : Type} {KE : KernelEnv E} {KL : KernelEnvLaws E} {TL : TaskLayout}.
Implicit Types (s : kst E) (R : rrq) (Q : qref → list Z) (L : list Z) (x : kernel_mutex_st) (C : gmap Z kont) (H : gset (Z * Z)).

(** The holder of each mutex. *)
Definition mview s (m : Z) : option (Z * Z) := (λ x, (mutex_id x, owner_thread x)) <$> mutex_at s !! m.

Record minv s C H R Q L : Prop := {
  mi_tasks : tasks s R Q;
  mi_mutexes : mutexes s L;
  mi_started : multitask_started s = true;
  mi_main : main_thread ≠ 0 ∧ is_Some (thread_at s !! main_thread) ∧ (main_thread ∉ rr_list R) ∧ ∀ q, main_thread ∉ Q q;
  mi_curr : curr_proc s = main_thread ∨ curr_proc s ∈ rr_list R;
  mi_alive p o : process_at s !! p = Some o → exiting o = 0;
  mi_blocked m p : p ∈ Q (QMutex m) → run_state <$> thread_at s !! p = Some PROC_BLOCKED;
  mi_links : mlinks (mview s) (λ m, Q (QMutex m)) (rr_list R) C H
}.

Lemma minv_env s C H R Q L e : minv s C H R Q L → minv (set_env e s) C H R Q L.
Proof. intros [H1 H2 H3 H4 H5 H6 H7 H8]. split; try done; [by apply tasks_env|by apply mutexes_env]. Qed.

Lemma is_mutex_view s o id m x : is_mutex s o id m x → mview s m = Some (id, owner_thread x).
Proof. intros (_ & Ex & <- & _). unfold mview. by rewrite Ex. Qed.

Lemma mview_core s s' m :
  mutex_core <$> mutex_at s' !! m = mutex_core <$> mutex_at s !! m → mview s' m = mview s m.
Proof.
  unfold mview. destruct (mutex_at s' !! m), (mutex_at s !! m); intros Hc; try done. cbn in *. f_equal. injection Hc. congruence.
Qed.

Lemma mview_insert s m x p m' :
  mutex_at s !! m = Some x →
  mview (set_mutex_at (<[m := set_owner_thread p x]> (mutex_at s)) s) m' = (<[m := Some (mutex_id x, p)]> (mview s)) m'.
Proof.
  intros Ex. unfold mview. cbn. destruct (decide (m' = m)) as [->|].
  - by rewrite lookup_insert_eq, fn_lookup_insert.
  - by rewrite lookup_insert_ne, fn_lookup_insert_ne.
Qed.

(** The holder changes. *)
Lemma tasks_holder s R Q m x p :
  mutex_at s !! m = Some x → tasks s R Q → tasks (set_mutex_at (<[m := set_owner_thread p x]> (mutex_at s)) s) R Q.
Proof.
  intros Ex Ht. assert (∀ q, queue_val (set_mutex_at (<[m := set_owner_thread p x]> (mutex_at s)) s) q = queue_val s q) as Hq.
  { intros [| |m'|]; try done. cbn. destruct (decide (m' = m)) as [->|]; [by rewrite lookup_insert_eq, Ex|by rewrite lookup_insert_ne]. }
  destruct Ht as [H1 H2 H3 H4 H5 H6 H7 H8 H9]. split; try done; intros q; rewrite Hq; auto.
Qed.

Lemma mutexes_holder s L m x p :
  mutex_at s !! m = Some x → mutexes s L → mutexes (set_mutex_at (<[m := set_owner_thread p x]> (mutex_at s)) s) L.
Proof.
  intros Ex. apply mutexes_frame; [|done|done]. intros m'. cbn.
  destruct (decide (m' = m)) as [->|]; [by rewrite lookup_insert_eq, Ex|by rewrite lookup_insert_ne].
Qed.

Lemma minv_holder s C C' H H' R Q L m x p :
  minv s C H R Q L → mutex_at s !! m = Some x →
  mlinks (<[m := Some (mutex_id x, p)]> (mview s)) (λ m, Q (QMutex m)) (rr_list R) C' H' →
  minv (set_mutex_at (<[m := set_owner_thread p x]> (mutex_at s)) s) C' H' R Q L.
Proof.
  intros [H1 H2 H3 H4 H5 H6 H7 H8] Ex Hl. split; try done; [by apply tasks_holder|by apply mutexes_holder|].
  eapply mlinks_ext; [| | |exact Hl]; try done. intros m'. by apply mview_insert.
Qed.

(** A thread that can make a call can block. *)
Lemma minv_can_block s C H R Q L : minv s C H R Q L → curr_proc s ≠ main_thread → can_block s R Q.
Proof.
  intros Hi Hne. destruct (mi_main _ _ _ _ _ _ Hi) as (M1 & M2 & M3 & M4). destruct (mi_curr _ _ _ _ _ _ Hi) as [?|Hc]; [done|].
  pose proof (mi_tasks _ _ _ _ _ _ Hi) as Ht. destruct (ring_thread s R _ (tk_ring _ _ _ Ht) Hc) as (C0 & t & Et). split; try done.
  - apply Hi.
  - intros q Hq. by eapply tasks_apart.
Qed.

Lemma block_frame_exiting s s' :
  (∀ p, process_core <$> process_at s' !! p = process_core <$> process_at s !! p) →
  (∀ p o, process_at s !! p = Some o → exiting o = 0) → ∀ p o, process_at s' !! p = Some o → exiting o = 0.
Proof.
  intros Hf Ha p o' Eo'. specialize (Hf p). rewrite Eo' in Hf. destruct (process_at s !! p) as [o|] eqn:Eo; [|done].
  rewrite <-(Ha p o Eo). injection Hf. congruence.
Qed.

(** The current thread waits for a mutex. *)
Lemma minv_wait s C H R Q L m id o sp s' :
  minv s C H R Q L → curr_proc s ≠ main_thread → C !! curr_proc s = None → mview s m = Some (id, o) → o ≠ 0 → o ≠ curr_proc s →
  blocked s R Q (QMutex m) sp s' → ∃ R' Q', minv s' (<[curr_proc s := KLock id m]> C) H R' Q' L.
Proof.
  intros Hi Hne HC Hv Ho Hoc [B1 (R' & Ht' & El & Hmain & Hrun) B3 _ _ B6]. set (c := curr_proc s) in *.
  destruct (mi_curr _ _ _ _ _ _ Hi) as [?|Hc]; [done|]. destruct (mi_main _ _ _ _ _ _ Hi) as (M1 & M2 & M3 & M4).
  destruct (ring_thread s R _ (tk_ring _ _ _ (mi_tasks _ _ _ _ _ _ Hi)) Hc) as (C0 & _).
  pose proof (bf_vars _ _ B1) as V. injection V as V1 V2 V3 V4 V5.
  exists R', (<[QMutex m := Q (QMutex m) ++ [c]]> Q). split; try done.
  - eapply mutexes_frame; [| | |by apply Hi]; [|done|done]. intros m'. apply mutex_core_sig, B1.
  - rewrite V3. apply Hi.
  - split; [done|]. split; [|split].
    + destruct M2 as [t Et]. destruct (keeps_lookup _ _ _ _ _ (bf_threads _ _ B1) Et) as (t' & -> & _). eauto.
    + rewrite El. by intros [_ ?]%list_elem_of_filter.
    + intros q. destruct (decide (q = QMutex m)) as [->|]; [|by rewrite fn_lookup_insert_ne].
      rewrite fn_lookup_insert. intros [?|?%list_elem_of_singleton]%elem_of_app; [by apply (M4 (QMutex m))|done].
  - destruct (decide (rr_list R' = [])); [left; auto|right; by apply Hrun].
  - eapply block_frame_exiting; [apply B1|apply Hi].
  - intros m' p Hp. destruct (decide (p = c)) as [->|Hpc]; [done|].
    assert (p ∈ Q (QMutex m')) as Hp'.
    { destruct (decide (m' = m)) as [->|]; [|by rewrite fn_lookup_insert_ne in Hp by congruence].
      rewrite fn_lookup_insert in Hp. by apply elem_of_app in Hp as [?|?%list_elem_of_singleton]. }
    rewrite B6; [by eapply mi_blocked|done|]. intros ->. destruct (decide (rr_list R' = [])) as [Ee|Hr].
    + apply (M4 (QMutex m')). by rewrite <-(Hmain Ee).
    + by apply (tasks_apart _ _ _ _ _ Ht' (proj1 (Hrun Hr)) Hp).
  - eapply mlinks_ext; [| | |by eapply (mlinks_block (mview s) _ _ C H m id o c); [apply Hi|done..]].
    + intros m'. by apply mview_core, B1.
    + intros m'. cbn. destruct (decide (m' = m)) as [->|]; [by rewrite !fn_lookup_insert|by rewrite !fn_lookup_insert_ne by congruence].
    + intros p. by rewrite El.
Qed.

(** ** The calls *)

Definition call_conts (c : Z) (r : sysres) C : gmap Z kont :=
  match r with SDone _ => delete c C | SBlocked k => <[c := k]> C end.
Definition call_holds (c id : Z) (r : sysres) H : gset (Z * Z) :=
  match r with SDone v => if v =? 0 then H ∪ {[ (c, id) ]} else H | SBlocked _ => H end.

Lemma minv_curr s C H R Q L :
  minv s C H R Q L → curr_proc s ≠ main_thread → curr_proc s ∈ rr_list R ∧ curr_proc s ≠ 0 ∧ ∃ t, thread_at s !! curr_proc s = Some t.
Proof.
  intros Hi Hne. destruct (mi_curr _ _ _ _ _ _ Hi) as [?|Hc]; [done|]. split; [done|].
  by apply (ring_thread s R _ (tk_ring _ _ _ (mi_tasks _ _ _ _ _ _ Hi))).
Qed.

Lemma minv_lock s C H R Q L id sp :
  minv s C H R Q L → curr_proc s ≠ main_thread → C !! curr_proc s = None →
  wp (syscall_mutex_lock id sp) s (λ r s', ∃ R' Q',
    minv s' (call_conts (curr_proc s) r C) (call_holds (curr_proc s) id r H) R' Q' L).
Proof.
  intros Hi Hne HC. destruct (minv_curr _ _ _ _ _ _ Hi Hne) as (Hc & Hc0 & t & Et).
  unfold syscall_mutex_lock, caller_process. wp_step. wp_step. apply wp_gets. rewrite (proj2 (Z.eqb_neq _ 0)) by done.
  wp_step. eapply wp_thread; [exact Et|].
  assert (∀ e, ∃ R' Q', minv (set_env e s) (call_conts (curr_proc s) (SDone MINUS_ONE) C)
    (call_holds (curr_proc s) id (SDone MINUS_ONE) H) R' Q' L) as Herr.
  { intros e. exists R, Q. cbn. rewrite delete_id by done. by apply minv_env. }
  destruct ((owner t =? 0) || (id =? 0)); apply wp_ret; [apply wp_ret; specialize (Herr (env s)); by rewrite set_env_env in Herr|].
  eapply wp_mono; [apply (lock_turn_spec s R Q L t id sp); [by eapply minv_can_block|apply Hi|done]|].
  cbv beta. intros r s' Hr. destruct Hr as [e Hno|m x e Hx Ho _|m x e Hx Ho|m x s' Hx Ho Hoc Hb]; [apply Herr|apply Herr| |].
  - exists R, Q. cbn. rewrite delete_id by done. pose proof Hx as (_ & Ex & <- & _). apply minv_env. eapply minv_holder; [done|done|].
    apply mlinks_take; [apply Hi| |done]. by rewrite (is_mutex_view _ _ _ _ _ Hx), Ho.
  - by apply (minv_wait s C H R Q L m id (owner_thread x) sp); [..|eapply is_mutex_view| | |].
Qed.

Lemma minv_resume s C H R Q L id m sp :
  minv s C H R Q L → curr_proc s ≠ main_thread → C !! curr_proc s = Some (KLock id m) →
  wp (lock_resume id m sp) s (λ r s', r = SDone 0 ∧ mview s' m = Some (id, curr_proc s) ∧
    minv s' (delete (curr_proc s) C) (H ∪ {[ (curr_proc s, id) ]}) R Q L).
Proof.
  intros Hi Hne HC. destruct (minv_curr _ _ _ _ _ _ Hi Hne) as (Hc & Hc0 & t & Et).
  pose proof (mi_tasks _ _ _ _ _ _ Hi) as Ht.
  destruct (ml_cont _ _ _ _ _ (mi_links _ _ _ _ _ _ Hi) _ _ HC) as (_ & id' & m' & o & [= <- <-] & Hv & Ho).
  assert (∀ m, curr_proc s ∉ Q (QMutex m)) as Hw by (intros m' Hq; by eapply tasks_apart).
  destruct Ho as [Ho| ->]; [by apply Hw in Ho|].
  pose proof Hv as (x & Ex & [= -> Hox])%fmap_Some.
  unfold lock_resume. wp_step. apply wp_modify. wp_step. eapply wp_mutex; [exact Ex|]. wp_step. apply wp_gets. cbn [curr_proc].
  rewrite <-Hox, Z.eqb_refl. wp_step. apply wp_modify, wp_ret. split; [done|]. split; [done|]. do 2 apply minv_env.
  destruct Hi as [H1 H2 H3 H4 H5 H6 H7 H8]. split; try done. by eapply mlinks_resume.
Qed.

(** Waiters can be woken. *)
Lemma waiter_wake_ok s C H R Q L m p : minv s C H R Q L → p ∈ Q (QMutex m) → wake_ok s p = true.
Proof.
  intros Hi Hp. pose proof (mi_blocked _ _ _ _ _ _ Hi m p Hp) as Hb. apply fmap_Some in Hb as (t & Et & Hb).
  unfold wake_ok. rewrite Et, <-Hb. cbn. destruct (tk_owner _ _ _ (mi_tasks _ _ _ _ _ _ Hi) p t Et) as [->|[o Eo]]; [done|].
  rewrite Eo, (mi_alive _ _ _ _ _ _ Hi _ _ Eo). by rewrite orb_true_r.
Qed.

Lemma first_awake_all s l r :
  (∀ p, p ∈ l → wake_ok s p = true) → first_awake s l r → r = match l with [] => None | p :: l => Some (p, l) end.
Proof. intros Ha Hf. revert Ha. destruct Hf as [|p l' r' Hd _|]; intros Ha; try done. rewrite Ha in Hd by left. done. Qed.

(** What waking one thread keeps. *)
Lemma task_frame_alive s s' :
  task_frame s s' → (∀ p o, process_at s !! p = Some o → exiting o = 0) → ∀ p o, process_at s' !! p = Some o → exiting o = 0.
Proof. intros Hf. apply block_frame_exiting. apply Hf. Qed.

Lemma handed_over_view s s1 e m id o p m' :
  task_frame (set_env e s) s1 → mview s m = Some (id, o) →
  mview (set_mutex_at (alter (set_owner_thread p) m (mutex_at s1)) s1) m' = (<[m := Some (id, p)]> (mview s)) m'.
Proof.
  intros Hf Hv. pose proof (mview_core _ _ m' (tf_mutex _ _ Hf m')) as Hc. change (mview (set_env e s) m') with (mview s m') in Hc.
  destruct (decide (m' = m)) as [->|]; [|rewrite fn_lookup_insert_ne, <-Hc by done; unfold mview; cbn; by rewrite lookup_alter_ne].
  rewrite fn_lookup_insert. rewrite Hv in Hc. unfold mview in *. cbn. rewrite lookup_alter_eq.
  destruct (mutex_at s1 !! m); [|done]. cbn in *. by injection Hc as -> _.
Qed.

Lemma tasks_alter s R Q m p :
  tasks s R Q → tasks (set_mutex_at (alter (set_owner_thread p) m (mutex_at s)) s) R Q.
Proof.
  intros Ht. destruct (mutex_at s !! m) as [x|] eqn:Ex.
  - rewrite <-(insert_alter_eq _ (set_owner_thread p) m x Ex). by apply tasks_holder.
  - rewrite alter_id; [by destruct s|]. intros x. by rewrite Ex.
Qed.

Lemma minv_handed_over s C H R Q L m id s' :
  minv s C H R Q L → C !! curr_proc s = None → curr_proc s ≠ 0 → mview s m = Some (id, curr_proc s) → handed_over s R Q m s' →
  ∃ R' Q', minv s' C (H ∖ {[ (curr_proc s, id) ]}) R' Q' L.
Proof.
  intros Hi HC Hc0 Hv (s1 & r & e & Hf & Hr & -> & Hcase). pose proof (mi_links _ _ _ _ _ _ Hi) as Hl.
  pose proof (tf_vars _ _ Hf) as V. injection V as V1 V2 V3 V4 V5 V6 V7 V8.
  assert ((curr_proc s, id) ∈ H) as HH by (destruct (ml_owner _ _ _ _ _ Hl m id _ Hv Hc0) as [?|[? _]]; congruence).
  apply first_awake_all in Hr; [|intros p; by apply (waiter_wake_ok s C H R Q L m)].
  set (p := match r with Some (p, _) => p | None => 0 end). set (l := match r with Some (_, l) => l | None => [] end).
  set (R' := match r with Some (p, _) => q_admit p R | None => R end).
  assert (tasks s1 R' (<[QMutex m := l]> Q)) as Ht' by (destruct r as [[??]|]; apply Hcase).
  assert (∀ q, q ∈ Q (QMutex m) ↔ (p ≠ 0 ∧ q = p) ∨ q ∈ l) as Hmem.
  { intros q. unfold p, l. destruct (Q (QMutex m)) as [|y l'] eqn:Eq; subst r; cbn in *.
    - rewrite elem_of_nil. naive_solver.
    - rewrite elem_of_cons. destruct Hcase as (? & _). naive_solver. }
  assert (∀ q, q ∈ rr_list R' ↔ q ∈ rr_list R ∨ (p ≠ 0 ∧ q = p)) as Hring.
  { intros q. unfold R', p. destruct r as [[y ?]|]; [|naive_solver]. destruct Hcase as (? & _).
    rewrite rr_list_admit, elem_of_app, list_elem_of_singleton. naive_solver. }
  exists R', (<[QMutex m := l]> Q). apply minv_env.
  assert (∀ q y, y ∈ (<[QMutex m := l]> Q) q → y ∈ Q q) as Hsub.
  { intros q y. destruct (decide (q = QMutex m)) as [->|]; [|by rewrite fn_lookup_insert_ne].
    rewrite fn_lookup_insert. intros Hx. apply Hmem. by right. }
  destruct Hi as [H1 H2 H3 (M1 & M2 & M3 & M4) H5 H6 H7 H8]. split.
  - by apply tasks_alter.
  - eapply (mutexes_frame s); [|done..]. intros m'. eapply eq_trans; [|exact (mutex_core_sig _ _ (tf_mutex _ _ Hf m'))]. cbn.
    destruct (decide (m' = m)) as [->|]; [rewrite lookup_alter_eq; by destruct (mutex_at s1 !! m)|by rewrite lookup_alter_ne].
  - cbn. by rewrite V5.
  - split; [done|]. split; [|split].
    + destruct M2 as [t Et]. destruct (keeps_lookup _ _ _ _ _ (tf_threads _ _ Hf) Et) as (t' & Et' & _). by exists t'.
    + rewrite Hring. intros [?|[Hp Em]]; [done|]. apply (M4 (QMutex m)), Hmem. auto.
    + intros q Hq. by apply (M4 q), Hsub.
  - cbn. rewrite V1. destruct H5; [by left|right]. apply Hring. by left.
  - exact (task_frame_alive (set_env e s) s1 Hf H6).
  - intros m' q Hq. rewrite <-(H7 m' q (Hsub _ _ Hq)). cbn. destruct r as [[y l']|]; [|apply Hcase].
    destruct Hcase as (Hy & _ & Hst). rewrite Hst, decide_False; [done|]. intros ->.
    apply (tasks_apart _ _ _ (QMutex m') y Ht'); [|done]. apply Hring. by right.
  - eapply mlinks_ext; [intros m'; by eapply handed_over_view| | |eapply (mlinks_release (mview s) _ (λ m', (<[QMutex m := l]> Q) (QMutex m')) _ (rr_list R') C H m id (curr_proc s) p)]; try done.
    + intros m' Hne. by rewrite fn_lookup_insert_ne by congruence.
    + intros q Hq. apply Hring. by left.
    + rewrite fn_lookup_insert. exact Hmem.
    + intros Hp. rewrite fn_lookup_insert. unfold p, l in *. destruct r as [[y l']|]; [|done]. by destruct Hcase.
    + intros Hp. apply Hring. auto.
Qed.

Lemma minv_unlock s C H R Q L id :
  minv s C H R Q L → curr_proc s ≠ main_thread → C !! curr_proc s = None →
  wp (syscall_mutex_unlock id) s (λ r s', ∃ R' Q',
    minv s' C (if r =? 0 then H ∖ {[ (curr_proc s, id) ]} else H) R' Q' L).
Proof.
  intros Hi Hne HC. destruct (minv_curr _ _ _ _ _ _ Hi Hne) as (Hc & Hc0 & t & Et).
  eapply wp_mono; [apply (unlock_spec s R Q L t id); [apply Hi|apply Hi|done|done]|]. cbv beta.
  intros r s' [(-> & _ & e & ->)|(-> & m & x & Hx & Ho & Hh)].
  - exists R, Q. by apply minv_env.
  - cbn [Z.eqb]. eapply minv_handed_over; try done. by rewrite (is_mutex_view _ _ _ _ _ Hx), Ho.
Qed.

Lemma minv_yield s C H R Q L sp :
  minv s C H R Q L → wp (yield sp) s (λ _ s', ∃ R', minv s' C H R' Q L).
Proof.
  intros [H1 H2 H3 (M1 & M2 & M3 & M4) H5 H6 H7 H8].
  assert (curr_proc s ≠ 0 ∧ is_Some (thread_at s !! curr_proc s)) as [Hc0 Hc].
  { destruct H5 as [->|Hc]; [done|]. destruct (ring_thread s R _ (tk_ring _ _ _ H1) Hc) as (? & t & ?). eauto. }
  eapply wp_mono; [by apply (yield_spec s R Q sp)|]. cbv beta.
  intros r s' [Y1 (R' & Ht' & El & _) Y3 Y4 _ _ _]. exists R'. pose proof (bf_vars _ _ Y1) as V. injection V as V1 V2 V3 V4 V5. split.
  - done.
  - eapply (mutexes_frame s); [|done..]. intros m. apply mutex_core_sig, Y1.
  - by rewrite V3.
  - split; [done|]. split; [|by rewrite El]. destruct M2 as [t Et].
    destruct (keeps_lookup _ _ _ _ _ (bf_threads _ _ Y1) Et) as (t' & -> & _). eauto.
  - rewrite Y3, El. destruct (decide (rr_list R = [])) as [Ee|Hne]; [by left|right]. pose proof (tk_ring _ _ _ H1) as Hr.
    by apply (pick_spec (curr_proc s) R (ra_nodup _ _ _ _ _ _ Hr) (ra_after _ _ _ _ _ _ Hr) Hne).
  - eapply block_frame_exiting; [apply Y1|done].
  - intros m p Hp. rewrite (Y4 _ _ Hp). by eapply H7.
  - eapply mlinks_ext; [|done| |exact H8]; [|by rewrite El]. intros m. by apply mview_core, Y1.
Qed.

(** ** Creation *)

Lemma mlinks_create V W ring C H m id :
  mlinks V W ring C H → V m = None → (∀ m' o, V m' ≠ Some (id, o)) → mlinks (<[m := Some (id, 0)]> V) W ring C H.
Proof.
  intros [H1 H2 H3 H4 H5] Hm Hid.
  assert (∀ m' v, V m' = Some v → (<[m := Some (id, 0)]> V) m' = Some v) as Hv.
  { intros m' v Hv. rewrite fn_lookup_insert_ne; [done|]. intros ->. congruence. }
  assert (∀ m' id' o, (<[m := Some (id, 0)]> V) m' = Some (id', o) → (m' = m ∧ id' = id ∧ o = 0) ∨ (id' ≠ id ∧ V m' = Some (id', o))) as Hb.
  { intros m' id' o. destruct (decide (m' = m)) as [->|]; [rewrite fn_lookup_insert; intros [= <- <-]; by left|].
    rewrite fn_lookup_insert_ne by done. intros Em. right. split; [|done]. intros ->. by apply (Hid m' o). }
  split.
  - intros m' p Hp. destruct (H1 m' p Hp) as (id' & o & ? & ?). eauto.
  - intros m' id' p Hm' Hp. apply Hb in Hm' as [(_ & _ & ->)|[_ ?]]; [done|eauto].
  - intros p id' Hp. destruct (H3 p id' Hp) as (? & m' & ?). eauto.
  - intros p k Hk. destruct (H4 p k Hk) as (? & id' & m' & o & ? & ? & ?). split; [done|]. exists id', m', o. auto.
  - intros m1 m2 id' o o' E1 E2. apply Hb in E1 as [(? & ? & _)|[? ?]], E2 as [(? & ? & _)|[? ?]]; [congruence..|eauto].
Qed.

Lemma tasks_create s s' R Q m x :
  tasks s R Q → mutex_at s !! m = None → waiters x = Queue 0 0 →
  s' = set_mutex_list (mutex_list s') (set_next_mutex_id (next_mutex_id s') (set_mutex_at (<[m := x]> (mutex_at s)) s)) → tasks s' R Q.
Proof.
  intros [H1 H2 H3 H4 H5 H6 H7 H8 H9] Hm Hw ->. split; try done.
  - intros [p|p|m'|a] v; [exact (H2 (QChildExit p) v)|exact (H2 (QThreadExit p) v)| |exact (H2 (QDriver a) v)].
    cbn. destruct (decide (m' = m)) as [->|]; [|rewrite lookup_insert_ne by done; apply (H2 (QMutex m'))].
    rewrite lookup_insert_eq. cbn. rewrite Hw. intros [= <-]. rewrite (H3 (QMutex m)) by (cbn; by rewrite Hm).
    split; [constructor|done|done].
  - intros [p|p|m'|a]; [exact (H3 (QChildExit p))|exact (H3 (QThreadExit p))| |exact (H3 (QDriver a))].
    cbn. destruct (decide (m' = m)) as [->|]; [by rewrite lookup_insert_eq|rewrite lookup_insert_ne by done; apply (H3 (QMutex m'))].
Qed.

Lemma mutexes_create s s' L m x :
  mutexes s L → mutex_at s !! m = None → m ≠ 0 → next x = mutex_list s → mutex_id x = next_mutex_id s → 0 < next_mutex_id s →
  mutex_at s' = <[m := x]> (mutex_at s) → mutex_list s' = m → next_mutex_id s' = next_mutex_id s + 1 → mutexes s' (m :: L).
Proof.
  intros Hl Hm H0 Hn Hid Hpos Ea El Ei. assert (m ∉ L) as HmL.
  { intros Hin. destruct (mutexes_node _ _ _ Hl Hin) as (_ & y & Ey). congruence. }
  destruct Hl as [H1 H2 H3 H4 H5]. split.
  - rewrite El. eapply lseg_ext; [|by apply lseg_push]. intros p _. unfold mutex_next, upd. rewrite Ea.
    case_decide as Ep; [subst p; rewrite lookup_insert_eq; cbn; by rewrite Hn|by rewrite lookup_insert_ne].
  - by constructor.
  - intros p. rewrite Ea. destruct (decide (p = m)) as [->|]; [left|]. rewrite lookup_insert_ne by done. right. auto.
  - intros p y p' y'. rewrite Ea, !lookup_insert_Some. intros [[<- <-]|[N Ey]] [[<- <-]|[N' Ey']]; intros Eid; try done.
    + pose proof (H5 _ _ Ey'). lia.
    + pose proof (H5 _ _ Ey). lia.
    + eauto.
  - intros p y. rewrite Ea, Ei, lookup_insert_Some. intros [[<- <-]|[N Ey]]; [lia|]. pose proof (H5 _ _ Ey). lia.
Qed.

Lemma minv_create s C H R Q L m e :
  minv s C H R Q L → curr_proc s ≠ main_thread → ke_kmalloc mutex_bytes (env s) = Ret (m, e) → mutex_at s !! m = None →
  0 < next_mutex_id s < 2 ^ 64 - 1 →
  wp syscall_mutex_create s (λ id s', (m = 0 ∧ id = 0 ∧ minv s' C H R Q L) ∨
    (m ≠ 0 ∧ id = next_mutex_id s ∧ minv s' C H R Q (m :: L))).
Proof.
  intros Hi Hne Hk Hm Hid. destruct (minv_curr _ _ _ _ _ _ Hi Hne) as (Hc & Hc0 & t & Et).
  unfold syscall_mutex_create. wp_step. eapply wp_klift; [exact Hk|]. destruct (m =? 0) eqn:E0; bool_prop.
  { apply wp_ret. left. split; [done|]. split; [done|]. by apply minv_env. }
  wp_step. apply wp_gets. wp_step. apply wp_modify. wp_step. apply wp_gets. wp_step. eapply (wp_thread _ t); [done|].
  wp_step. apply wp_gets. wp_step. apply wp_modify. wp_step. apply wp_modify, wp_ret. right. split; [done|]. split; [done|].
  set (x := Mutex _ _ _ _ _). set (s' := set_mutex_list _ _).
  assert (next_mutex_id s' = next_mutex_id s + 1) as En by (apply u64_small; lia).
  apply (minv_env _ _ _ _ _ _ e) in Hi. assert (s' = set_mutex_list m (set_next_mutex_id (next_mutex_id s') (set_mutex_at (<[m := x]> (mutex_at s)) (set_env e s)))) as Es by done.
  pose proof (mi_links _ _ _ _ _ _ Hi) as Hl. destruct Hi as [H1 H2 H3 H4 H5 H6 H7 H8]. split; try done.
  - by apply (tasks_create (set_env e s) s' R Q m x).
  - apply (mutexes_create (set_env e s) s' L m x); try done. cbn. lia.
  - eapply mlinks_ext; [| | |apply (mlinks_create (mview s) _ _ C H m (next_mutex_id s) Hl)]; try done.
    + intros m'. unfold mview. cbn. destruct (decide (m' = m)) as [->|];
        [by rewrite lookup_insert_eq, fn_lookup_insert|by rewrite lookup_insert_ne, fn_lookup_insert_ne].
    + unfold mview. by rewrite Hm.
    + intros m' o (y & Ey & [= Ey1 _])%fmap_Some. pose proof (ml_range _ _ H2 m' y Ey) as Hr. cbn in Hr. lia.
Qed.

(** ** Destruction *)

Definition unlinked s s' : Prop :=
  (∀ m, set_next 0 <$> mutex_at s' !! m = set_next 0 <$> mutex_at s !! m) ∧
  s' = set_mutex_at (mutex_at s') (set_mutex_list (mutex_list s') s).

Lemma mutex_next_insert s m x v : mutex_at s !! m = Some x →
  ∀ p, mutex_next (set_mutex_at (<[m := set_next v x]> (mutex_at s)) s) p = upd (mutex_next s) m v p.
Proof.
  intros Ex p. unfold mutex_next, upd. cbn. case_decide as Ep; [subst; by rewrite lookup_insert_eq|by rewrite lookup_insert_ne].
Qed.

Lemma set_next_insert s m x v m' : mutex_at s !! m = Some x →
  set_next 0 <$> <[m := set_next v x]> (mutex_at s) !! m' = set_next 0 <$> mutex_at s !! m'.
Proof.
  intros Ex. destruct (decide (m' = m)) as [->|]; [by rewrite lookup_insert_eq, Ex|by rewrite lookup_insert_ne].
Qed.

Lemma unlink_here s m l1 l2 x :
  NoDup (l1 ++ m :: l2) → lseg (mutex_next s) (mutex_list s) (l1 ++ m :: l2) 0 → mutex_at s !! m = Some x →
  wp ((if default 0 (last l1) =? 0 then modify (set_mutex_list (next x)) else upd_mutex (default 0 (last l1)) (set_next (next x))) ;;
      upd_mutex m (set_next 0)) s (λ _ s', unlinked s s' ∧ lseg (mutex_next s') (mutex_list s') (l1 ++ l2) 0).
Proof.
  intros Hnd Hl Ex. pose proof (lseg_remove (mutex_next s) _ l1 m l2 (next x) Hnd Hl ltac:(unfold mutex_next; by rewrite Ex)) as Hrm.
  assert (m ∉ l1 ++ l2) as Hm.
  { apply NoDup_app in Hnd as (_ & Hd & [Hm2 _]%NoDup_cons). intros [Hin|Hin]%elem_of_app; [|done]. by apply (Hd m Hin); left. }
  destruct (last l1) as [q|] eqn:El.
  - change (default 0 (Some q)) with q. destruct Hrm as (Hq0 & Hqm & Hq & Hl').
    rewrite (proj2 (Z.eqb_neq q 0)) by done. unfold mutex_next in Hq. destruct (mutex_at s !! q) as [y|] eqn:Ey; [|by destruct Hq].
    wp_step. eapply wp_upd_mutex; [exact Ey|]. set (s1 := set_mutex_at _ s).
    assert (mutex_at s1 !! m = Some x) as Ex1 by (cbn; by rewrite lookup_insert_ne).
    eapply wp_upd_mutex; [exact Ex1|]. split; [split; [|done]|].
    + intros m'. rewrite <-(set_next_insert s q y (next x) m' Ey). by apply (set_next_insert s1 m x 0).
    + eapply lseg_ext; [intros p _; by apply (mutex_next_insert s1 m x)|]. apply lseg_upd; [done|].
      eapply lseg_ext; [intros p _; by apply (mutex_next_insert s q y)|]. exact Hl'.
  - change (default 0 None) with 0. rewrite Z.eqb_refl. destruct Hrm as [-> Hl']. wp_step. apply wp_modify.
    set (s1 := set_mutex_list _ s). eapply (wp_upd_mutex m x); [done|]. split; [split; [|done]|].
    + intros m'. by apply (set_next_insert s1 m x 0).
    + eapply lseg_ext; [intros p _; by apply (mutex_next_insert s1 m x)|]. by apply lseg_upd.
Qed.

Lemma unlink_mutex_loop_spec fuel s m l1 l2 :
  NoDup (l1 ++ l2) → lseg (mutex_next s) (mutex_list s) (l1 ++ l2) 0 → m ∈ l2 → (length l2 < fuel)%nat →
  wp (unlink_mutex_loop fuel m (default 0 (last l1)) (default 0 (head l2))) s (λ _ s', unlinked s s' ∧
    ∃ k1 k2, l1 ++ l2 = k1 ++ m :: k2 ∧ lseg (mutex_next s') (mutex_list s') (k1 ++ k2) 0).
Proof.
  revert l1 l2. induction fuel as [|fuel IH]; intros l1 l2 Hnd Hl Hm Hf; [lia|].
  destruct l2 as [|p l2]; [by apply elem_of_nil in Hm|]. cbn [unlink_mutex_loop head]. change (default 0 (Some p)) with p.
  destruct (lseg_nonzero _ _ _ _ p Hl) as [Hp0 Hp]; [apply elem_of_app; right; left|].
  rewrite (proj2 (Z.eqb_neq p 0)) by done. unfold mutex_next in Hp. destruct (mutex_at s !! p) as [x|] eqn:Ex; [|by destruct Hp].
  wp_step. eapply wp_mutex; [exact Ex|]. destruct (p =? m) eqn:Epm; bool_prop.
  - subst p. eapply wp_mono; [by apply (unlink_here s m l1 l2 x)|]. cbv beta. intros _ s' [Hu Hl']. split; [done|].
    exists l1, l2. done.
  - apply elem_of_cons in Hm as [->|Hm]; [done|]. pose proof Hl as Hl0. apply lseg_app in Hl0 as (h & _ & _ & _ & n & Hn & Hl2).
    unfold mutex_next in Hn. rewrite Ex in Hn. injection Hn as <-. apply lseg_head in Hl2 as Hh.
    specialize (IH (l1 ++ [p]) l2). rewrite last_snoc, <-(assoc_L app) in IH. change (default 0 (Some p)) with p in IH.
    cbn [app] in IH. rewrite Hh. apply IH; [done|done|done|cbn in Hf; lia].
Qed.

Lemma unlink_mutex_spec s L m :
  mutexes s L → m ∈ L → wp (unlink_mutex m) s (λ _ s', unlinked s s' ∧
    ∃ k1 k2, L = k1 ++ m :: k2 ∧ lseg (mutex_next s') (mutex_list s') (k1 ++ k2) 0).
Proof.
  intros Hl Hm. unfold unlink_mutex. wp_step. apply wp_gets. wp_step. apply wp_gets.
  pose proof (unlink_mutex_loop_spec (S (size (mutex_at s))) s m [] L (ml_nodup _ _ Hl) (ml_list _ _ Hl) Hm) as Hw.
  rewrite (lseg_head _ _ _ _ (ml_list _ _ Hl)). apply Hw. pose proof (mutexes_length _ _ Hl). lia.
Qed.

(** A mutex nobody holds or waits for goes away. *)
Lemma mlinks_destroy V W ring C H m id :
  mlinks V W ring C H → V m = Some (id, 0) → W m = [] → mlinks (<[m := None]> V) W ring C H.
Proof.
  intros [H1 H2 H3 H4 H5] Hm Hw.
  assert (∀ m' v, (<[m := None]> V) m' = Some v ↔ m' ≠ m ∧ V m' = Some v) as Hv.
  { intros m' v. destruct (decide (m' = m)) as [->|]; [rewrite fn_lookup_insert; naive_solver|].
    rewrite fn_lookup_insert_ne by done. naive_solver. }
  split.
  - intros m' p Hp. destruct (H1 m' p Hp) as (id' & o & E1 & E2 & E3). exists id', o. split; [|done]. apply Hv.
    split; [|done]. intros ->. congruence.
  - intros m' id' p [_ Hm']%Hv Hp. eauto.
  - intros p id' Hp. destruct (H3 p id' Hp) as (Hp0 & m' & E1). split; [done|]. exists m'. apply Hv. split; [|done]. intros ->. congruence.
  - intros p k Hk. destruct (H4 p k Hk) as (Hp0 & id' & m' & o & E1 & E2 & E3). split; [done|]. exists id', m', o.
    split; [done|]. split; [|done]. apply Hv. split; [|done]. intros ->. rewrite Hw in E3. destruct E3 as [?%elem_of_nil|E3]; [done|congruence].
  - intros m1 m2 id' o o' [_ E1]%Hv [_ E2]%Hv. eauto.
Qed.

Lemma unlinked_some s s' m : unlinked s s' → is_Some (mutex_at s' !! m) ↔ is_Some (mutex_at s !! m).
Proof. intros [Hu _]. specialize (Hu m). destruct (mutex_at s' !! m), (mutex_at s !! m); try done; split; eauto. Qed.

Lemma unlinked_field {A} (f : kernel_mutex_st → A) s s' m :
  (∀ x v, f (set_next v x) = f x) → unlinked s s' → f <$> mutex_at s' !! m = f <$> mutex_at s !! m.
Proof.
  intros Hf [Hu _]. specialize (Hu m). destruct (mutex_at s' !! m) as [x'|], (mutex_at s !! m) as [x|]; try done.
  cbn in *. apply (inj Some) in Hu. f_equal. by rewrite <-(Hf x' 0), Hu, Hf.
Qed.

Lemma tasks_unlinked s s' R Q : tasks s R Q → unlinked s s' → tasks s' R Q.
Proof.
  intros [H1 H2 H3 H4 H5 H6 H7 H8 H9] Hu. pose proof (λ m, unlinked_field waiters s s' m ltac:(done) Hu) as Hq. destruct Hu as [_ Es].
  assert (∀ q, queue_val s' q = queue_val s q) as Hv by (intros q; rewrite Es; destruct q; cbn; try done; by rewrite <-Hq, Es).
  assert (thread_at s' = thread_at s) as Et by (by rewrite Es). assert (process_at s' = process_at s) as Ep by (by rewrite Es).
  assert (ring s' R) as Hr by (by rewrite Es).
  split; rewrite ?Et, ?Ep; try done; intros q; rewrite Hv; auto.
Qed.

(** A mutex nobody waits for is freed. *)
Lemma tasks_drop_mutex s R Q m : tasks s R Q → Q (QMutex m) = [] → tasks (set_mutex_at (delete m (mutex_at s)) s) R Q.
Proof.
  intros [H1 H2 H3 H4 H5 H6 H7 H8 H9] Hm. set (s2 := set_mutex_at _ s).
  assert (∀ q, (q = QMutex m ∧ queue_val s2 q = None) ∨ (q ≠ QMutex m ∧ queue_val s2 q = queue_val s q)) as Hv.
  { intros q. destruct (decide (q = QMutex m)) as [->|Hne]; [left; split; [done|]; cbn; by rewrite lookup_delete_eq|right].
    split; [done|]. unfold s2. destruct q as [p|p|m'|a]; cbn; try done. by rewrite lookup_delete_ne by congruence. }
  split; try done.
  - intros q v Ev. destruct (Hv q) as [[-> E1]|[_ E1]]; rewrite E1 in Ev; [done|auto].
  - intros q Ev. destruct (Hv q) as [[-> E1]|[_ E1]]; [done|]. rewrite E1 in Ev. auto.
Qed.

Lemma mutexes_destroy s s' k1 m k2 :
  mutexes s (k1 ++ m :: k2) → (∀ m', mutex_id <$> mutex_at s' !! m' = mutex_id <$> mutex_at s !! m') → next_mutex_id s' = next_mutex_id s →
  lseg (mutex_next s') (mutex_list s') (k1 ++ k2) 0 → mutexes (set_mutex_at (delete m (mutex_at s')) s') (k1 ++ k2).
Proof.
  intros [H1 H2 H3 H4 H5] Hid Hn Hl.
  assert (∀ m' y, delete m (mutex_at s') !! m' = Some y → m' ≠ m ∧ ∃ x, mutex_at s !! m' = Some x ∧ mutex_id x = mutex_id y) as Hb.
  { intros m' y [Hne Ey]%lookup_delete_Some. split; [done|]. specialize (Hid m'). rewrite Ey in Hid.
    destruct (mutex_at s !! m') as [x|]; [|done]. exists x. split; [done|]. by injection Hid. }
  assert (NoDup (m :: k1 ++ k2)) as [Hm Hnd]%NoDup_cons by (by rewrite Permutation_middle).
  split.
  - eapply lseg_ext; [|exact Hl]. intros p Hp. unfold mutex_next. cbn. rewrite lookup_delete_ne; [done|]. by intros ->.
  - done.
  - intros m' [y Ey]. destruct (Hb m' y Ey) as (Hne & x & Ex & _). specialize (H3 m' ltac:(eauto)).
    apply elem_of_app in H3 as [?|[->|?]%elem_of_cons]; [|done|]; apply elem_of_app; auto.
  - intros m1 y1 m2 y2 E1 E2 Eid. destruct (Hb _ _ E1) as (_ & x1 & ? & ?), (Hb _ _ E2) as (_ & x2 & ? & ?).
    apply (H4 m1 x1 m2 x2); try done. congruence.
  - intros m' y Ey. destruct (Hb _ _ Ey) as (_ & x & Ex & <-). cbn. rewrite Hn. by apply (H5 m').
Qed.

(** The heap takes every mutex back. *)
Definition kfree_returns s : Prop :=
  ∀ m x, mutex_at s !! m = Some x → ∃ e, ke_kfree m (ke_set_ints true (env s)) = Ret (tt, e).

Lemma minv_destroyed s s' C H R Q k1 m k2 x :
  minv s C H R Q (k1 ++ m :: k2) → mutex_at s !! m = Some x → owner_thread x = 0 → Q (QMutex m) = [] →
  unlinked s s' → lseg (mutex_next s') (mutex_list s') (k1 ++ k2) 0 →
  minv (set_mutex_at (delete m (mutex_at s')) s') C H R Q (k1 ++ k2).
Proof.
  intros [H1 H2 H3 H4 H5 H6 H7 H8] Ex Ho Hq Hu Hl. pose proof (proj2 Hu) as Es. split.
  - apply tasks_drop_mutex; [by eapply tasks_unlinked|done].
  - apply (mutexes_destroy s); [done|intros m'; by apply unlinked_field|by rewrite Es|done].
  - by rewrite Es.
  - by rewrite Es.
  - by rewrite Es.
  - by rewrite Es.
  - by rewrite Es.
  - eapply mlinks_ext; [| | |apply (mlinks_destroy _ _ _ _ _ m (mutex_id x) H8)]; try done.
    + intros m'. unfold mview. cbn. destruct (decide (m' = m)) as [->|]; [by rewrite lookup_delete_eq, fn_lookup_insert|].
      rewrite lookup_delete_ne, fn_lookup_insert_ne by done. by apply unlinked_field.
    + unfold mview. rewrite Ex. cbn. by rewrite Ho.
Qed.

Lemma minv_destroy s C H R Q L id :
  minv s C H R Q L → curr_proc s ≠ main_thread → kfree_returns s →
  wp (syscall_mutex_destroy id) s (λ _ s', ∃ L', minv s' C H R Q L').
Proof.
  intros Hi Hne Hk. destruct (minv_curr _ _ _ _ _ _ Hi Hne) as (Hc & Hc0 & t & Et). pose proof (mi_mutexes _ _ _ _ _ _ Hi) as Hl.
  unfold syscall_mutex_destroy, caller_process. wp_step. wp_step. apply wp_gets.
  rewrite (proj2 (Z.eqb_neq _ 0)) by done. wp_step. eapply (wp_thread _ t); [done|].
  destruct ((owner t =? 0) || (id =? 0)); apply wp_ret; [apply wp_ret; eauto|].
  wp_step. apply wp_modify. set (s0 := set_env _ s). assert (minv s0 C H R Q L) as Hi0 by by apply minv_env.
  assert (∀ e, ∃ L', minv (set_env e s0) C H R Q L') as Herr by (intros e; exists L; by apply minv_env).
  wp_step. apply wp_gets. wp_step. eapply (wp_thread _ t); [done|].
  wp_step. eapply wp_mono; [apply (find_mutex_spec s0 L), mutexes_env, Hl|]. cbv beta.
  intros m s' (-> & Hcase). destruct Hcase as [[-> Hno]|(x & Hx)]; [cbn [Z.eqb]; wp_step; apply wp_modify, wp_ret, Herr|].
  pose proof Hx as (Hm0 & Ex & _). rewrite (proj2 (Z.eqb_neq m 0)) by done. wp_step. eapply wp_mutex; [exact Ex|].
  destruct (negb (owner_thread x =? 0) || negb (q_head (waiters x) =? 0)) eqn:Eg; [wp_step; apply wp_modify, wp_ret, Herr|].
  apply orb_false_iff in Eg as [Eo Eq]. bool_prop.
  assert (Q (QMutex m) = []) as Hq.
  { eapply queue_empty; [apply (tk_queue _ _ _ (mi_tasks _ _ _ _ _ _ Hi) (QMutex m) (waiters x)); cbn|done].
    change (mutex_at s0) with (mutex_at s) in Ex. by rewrite Ex. }
  wp_step. eapply wp_mono; [apply (unlink_mutex_spec s0 L m), (ml_all _ _ Hl); [by apply mutexes_env|by exists x]|]. cbv beta.
  intros _ s1 (Hu & k1 & k2 & -> & Hl1). wp_step. apply wp_modify. unfold free_mutex. wp_step. wp_step.
  destruct (Hk m x Ex) as [e He]. assert (env s1 = ke_set_ints false (env s)) as Ee by (destruct Hu as [_ ->]; done).
  eapply (wp_klift _ _ tt e); [cbn; by rewrite Ee, ke_set_ints_set|]. apply wp_modify, wp_ret. exists (k1 ++ k2).
  apply (minv_env _ _ _ _ _ _ e (minv_destroyed s0 s1 C H R Q k1 m k2 x Hi0 Ex Eo Hq Hu Hl1)).
Qed.

(** ** Reachable configurations *)

Record mconf := MConf { mc_kernel : kst E; mc_cont : gmap Z kont; mc_holds : gset (Z * Z) }.

(** Threads other than the idle thread make calls; the timer may interrupt any thread. *)
Inductive mstep : mconf → mconf → Prop :=
  | step_lock s C H id sp r s' :
      curr_proc s ≠ main_thread → C !! curr_proc s = None → syscall_mutex_lock id sp s = Ret (r, s') →
      mstep (MConf s C H) (MConf s' (call_conts (curr_proc s) r C) (call_holds (curr_proc s) id r H))
  | step_resume s C H id m sp r s' :
      curr_proc s ≠ main_thread → C !! curr_proc s = Some (KLock id m) → lock_resume id m sp s = Ret (r, s') →
      mstep (MConf s C H) (MConf s' (call_conts (curr_proc s) r C) (call_holds (curr_proc s) id r H))
  | step_unlock s C H id r s' :
      curr_proc s ≠ main_thread → C !! curr_proc s = None → syscall_mutex_unlock id s = Ret (r, s') →
      mstep (MConf s C H) (MConf s' C (if r =? 0 then H ∖ {[ (curr_proc s, id) ]} else H))
  | step_create s C H m e r s' :
      curr_proc s ≠ main_thread → C !! curr_proc s = None →
      ke_kmalloc mutex_bytes (env s) = Ret (m, e) → mutex_at s !! m = None → 0 < next_mutex_id s < 2 ^ 64 - 1 →
      syscall_mutex_create s = Ret (r, s') → mstep (MConf s C H) (MConf s' C H)
  | step_destroy s C H id r s' :
      curr_proc s ≠ main_thread → C !! curr_proc s = None → kfree_returns s →
      syscall_mutex_destroy id s = Ret (r, s') → mstep (MConf s C H) (MConf s' C H)
  | step_yield s C H sp r s' :
      yield sp s = Ret (r, s') → mstep (MConf s C H) (MConf s' C H).

(** The scheduler runs and there are no mutexes yet. *)
Record mstart s R Q : Prop := {
  ms_tasks : tasks s R Q;
  ms_started : multitask_started s = true;
  ms_main : main_thread ≠ 0 ∧ is_Some (thread_at s !! main_thread) ∧ (main_thread ∉ rr_list R) ∧ ∀ q, main_thread ∉ Q q;
  ms_curr : curr_proc s = main_thread ∨ curr_proc s ∈ rr_list R;
  ms_alive p o : process_at s !! p = Some o → exiting o = 0;
  ms_none : mutex_at s = ∅ ∧ mutex_list s = 0
}.

Lemma mstart_minv s R Q : mstart s R Q → minv s ∅ ∅ R Q [].
Proof.
  intros [H1 H2 H3 H4 H5 [H6 H7]].
  assert (∀ m, Q (QMutex m) = []) as Hq by (intros m; apply (tk_noqueue _ _ _ H1); cbn; by rewrite H6).
  split; try done.
  - split; rewrite ?H6, ?H7; try done.
    + constructor.
    + intros m [x Hx]. done.
  - intros m p. rewrite Hq. by intros ?%elem_of_nil.
  - unfold mview. rewrite H6. split; try done. intros m p. rewrite Hq. by intros ?%elem_of_nil.
Qed.

Definition mreach (c : mconf) : Prop := ∃ s R Q, mstart s R Q ∧ rtc mstep (MConf s ∅ ∅) c.

Definition mgood (c : mconf) : Prop := ∃ R Q L, minv (mc_kernel c) (mc_cont c) (mc_holds c) R Q L.

Lemma mstep_good c c' : mstep c c' → mgood c → mgood c'.
Proof.
  intros Hs (R & Q & L & Hi). destruct Hs as [s C H id sp r s' Hne HC Er|s C H id m sp r s' Hne HC Er|s C H id r s' Hne HC Er
    |s C H m e r s' Hne HC Ek Em Hn Er|s C H id r s' Hne HC Hk Er|s C H sp r s' Er]; cbn in Hi; unfold mgood; cbn [mc_kernel mc_cont mc_holds].
  - destruct (wp_result _ _ _ _ _ (minv_lock s C H R Q L id sp Hi Hne HC) Er) as (R' & Q' & Hi'). eauto.
  - destruct (wp_result _ _ _ _ _ (minv_resume s C H R Q L id m sp Hi Hne HC) Er) as (-> & _ & Hi'). eauto.
  - destruct (wp_result _ _ _ _ _ (minv_unlock s C H R Q L id Hi Hne HC) Er) as (R' & Q' & Hi'). eauto.
  - destruct (wp_result _ _ _ _ _ (minv_create s C H R Q L m e Hi Hne Ek Em Hn) Er) as [(_ & _ & Hi')|(_ & _ & Hi')]; eauto.
  - destruct (wp_result _ _ _ _ _ (minv_destroy s C H R Q L id Hi Hne Hk) Er) as (L' & Hi'). eauto.
  - destruct (wp_result _ _ _ _ _ (minv_yield s C H R Q L sp Hi) Er) as (R' & Hi'). eauto.
Qed.

Lemma mreach_good c : mreach c → mgood c.
Proof.
  intros (s & R & Q & Hs & Hr). assert (mgood (MConf s ∅ ∅)) as Hg by (exists R, Q, []; by apply mstart_minv). clear Hs.
  induction Hr as [|c1 c2 c3 Hs Hr IH]; [done|]. eauto using mstep_good.
Qed.
End system.
