(* ===== verification/MutexTheorems.v ===== *)
(** * What mutexes promise

    The theorems about every reachable configuration of [MutexSystem], and a run of
    two threads that compete for a mutex. *)

From S2P Require Import Prelude Links Kernel RoundRobin TaskQueue TaskQueueProofs KernelExample Mutex MutexProofs MutexSystem.

Definition is_ret {A} (o : outcome A) : Prop := ∃ a, o = Ret a.

Lemma is_ret_wp {S A} (c : M S A) s Q : wp c s Q → is_ret (c s).
Proof. intros (a & s' & E & _)%wp_iff. by eexists. Qed.

Section theorems.
Context {E : Type} {KE : KernelEnv E} {KL : KernelEnvLaws E} {TL : TaskLayout}.

(** C3: In every configuration reached by creating, locking, unlocking and
    destroying mutexes with preemption between the calls, at most one thread has been
    told that it holds a given mutex, and the kernel's record of the holder agrees. *)
Theorem mutex_exclusion (c : mconf (E := E)) :
  mreach c →
  (∀ t1 t2 id, (t1, id) ∈ mc_holds c → (t2, id) ∈ mc_holds c → t1 = t2) ∧
  (∀ t id, (t, id) ∈ mc_holds c → ∃ m x, mutex_at (mc_kernel c) !! m = Some x ∧ mutex_id x = id ∧ owner_thread x = t).
Proof.
  intros (R & Q & L & Hi)%mreach_good. pose proof (mi_links _ _ _ _ _ _ Hi) as Hl.
  assert (∀ t id, (t, id) ∈ mc_holds c → ∃ m, mview (mc_kernel c) m = Some (id, t)) as Hv by (intros t id Hh; by apply (ml_holds _ _ _ _ _ Hl)).
  split.
  - intros t1 t2 id H1 H2. destruct (Hv _ _ H1) as [m1 V1], (Hv _ _ H2) as [m2 V2].
    pose proof (ml_unique _ _ _ _ _ Hl m1 m2 id t1 t2 V1 V2) as <-. congruence.
  - intros t id Hh. destruct (Hv _ _ Hh) as (m & (x & Ex & [= -> ->])%fmap_Some). eauto.
Qed.

(** C19: A thread that was blocked in [syscall_mutex_lock] holds the mutex when it
    runs again: [mutex_lock] then returns 0 without blocking a second time, and does
    not touch a mutex that has been freed. *)
Theorem mutex_handover (c : mconf (E := E)) (id m sp : Z) :
  mreach c → curr_proc (mc_kernel c) ≠ main_thread → mc_cont c !! curr_proc (mc_kernel c) = Some (KLock id m) →
  ∃ s', lock_resume id m sp (mc_kernel c) = Ret (SDone 0, s') ∧
    (λ x, (mutex_id x, owner_thread x)) <$> mutex_at s' !! m = Some (id, curr_proc (mc_kernel c)).
Proof.
  intros (R & Q & L & Hi)%mreach_good Hne HC.
  pose proof (minv_resume _ _ _ _ _ _ id m sp Hi Hne HC) as (r & s' & Er & -> & Hv & _)%wp_iff. eauto.
Qed.

(** C20: In every reachable configuration [mutex_lock] and [mutex_unlock] return to
    their caller or switch to another thread, and the timer can preempt any thread:
    no call follows a bad pointer or loops for ever. *)
Theorem mutex_calls_return (c : mconf (E := E)) (id sp : Z) :
  mreach c →
  is_ret (yield sp (mc_kernel c)) ∧
  (curr_proc (mc_kernel c) ≠ main_thread → mc_cont c !! curr_proc (mc_kernel c) = None →
     is_ret (syscall_mutex_lock id sp (mc_kernel c)) ∧ is_ret (syscall_mutex_unlock id (mc_kernel c))).
Proof.
  intros (R & Q & L & Hi)%mreach_good. split.
  - eapply is_ret_wp, minv_yield, Hi.
  - intros Hne HC. split; [eapply is_ret_wp, minv_lock|eapply is_ret_wp, minv_unlock]; done.
Qed.
End theorems.

(** ** A run *)

Inductive mop := OLock (id : Z) | OResume | OUnlock (id : Z) | OCreate | OYield.

(** Runs a call of the current thread, or a preemption. *)
Definition mdo (op : mop) (c : mconf (E := toy)) : option (mconf (E := toy)) :=
  let '(MConf s C H) := c in
  let free := bool_decide (curr_proc s ≠ main_thread) && bool_decide (C !! curr_proc s = None) in
  match op with
  | OLock id => if free then
      match syscall_mutex_lock id 0 s with
      | Ret (r, s') => Some (MConf s' (call_conts (curr_proc s) r C) (call_holds (curr_proc s) id r H))
      | _ => None
      end else None
  | OResume =>
      match C !! curr_proc s with
      | Some (KLock id m) => if bool_decide (curr_proc s ≠ main_thread) then
          match lock_resume id m 0 s with
          | Ret (r, s') => Some (MConf s' (call_conts (curr_proc s) r C) (call_holds (curr_proc s) id r H))
          | _ => None
          end else None
      | _ => None
      end
  | OUnlock id => if free then
      match syscall_mutex_unlock id s with
      | Ret (r, s') => Some (MConf s' C (if r =? 0 then H ∖ {[ (curr_proc s, id) ]} else H))
      | _ => None
      end else None
  | OCreate => if free && bool_decide (mutex_at s !! toy_next (env s) = None) && (0 <? next_mutex_id s) && (next_mutex_id s <? 2 ^ 64 - 1) then
      match syscall_mutex_create s with Ret (_, s') => Some (MConf s' C H) | _ => None end else None
  | OYield => match yield 0 s with Ret (_, s') => Some (MConf s' C H) | _ => None end
  end.

Lemma mdo_step op c c' : mdo op c = Some c' → mstep c c'.
Proof.
  destruct c as [s C H]. destruct op as [id| |id| |]; cbn [mdo].
  - destruct (bool_decide _ && _) eqn:Eb; [|done]. apply andb_true_iff in Eb as [E1%bool_decide_eq_true E2%bool_decide_eq_true].
    destruct (syscall_mutex_lock id 0 s) as [[r s']| |] eqn:Er; [|done..]. intros [= <-]. by eapply step_lock.
  - destruct (C !! curr_proc s) as [[id m| |]|] eqn:Ec; [|done..]. case_bool_decide as E1; [|done].
    destruct (lock_resume id m 0 s) as [[r s']| |] eqn:Er; [|done..]. intros [= <-]. by eapply step_resume.
  - destruct (bool_decide _ && _) eqn:Eb; [|done]. apply andb_true_iff in Eb as [E1%bool_decide_eq_true E2%bool_decide_eq_true].
    destruct (syscall_mutex_unlock id s) as [[r s']| |] eqn:Er; [|done..]. intros [= <-]. by eapply step_unlock.
  - destruct (_ && _) eqn:Eb; [|done]. apply andb_true_iff in Eb as [Eb H4%Z.ltb_lt]. apply andb_true_iff in Eb as [Eb H3%Z.ltb_lt].
    apply andb_true_iff in Eb as [Eb H2%bool_decide_eq_true]. apply andb_true_iff in Eb as [E1%bool_decide_eq_true E2%bool_decide_eq_true].
    destruct (syscall_mutex_create s) as [[r s']| |] eqn:Er; [|done..]. intros [= <-]. by eapply step_create.
  - destruct (yield 0 s) as [[r s']| |] eqn:Er; [|done..]. intros [= <-]. by eapply step_yield.
Qed.

Fixpoint mdos (ops : list mop) (c : mconf (E := toy)) : option (mconf (E := toy)) :=
  match ops with
  | [] => Some c
  | op :: ops => match mdo op c with Some c => mdos ops c | None => None end
  end.

Lemma toy_start : mstart toy_kernel toy_ring (λ _, []).
Proof.
  split; [apply toy_tasks|done| |by right; left| |done].
  - split; [done|]. split; [by eexists|]. split; [|intros q; apply not_elem_of_nil]. by apply (bool_decide_unpack _).
  - intros p o. revert p o. change (map_Forall (λ _ o, exiting o = 0) (process_at toy_kernel)). apply (bool_decide_unpack _). vm_compute. exact I.
Qed.

Lemma mdos_reach ops c : mdos ops (MConf toy_kernel ∅ ∅) = Some c → mreach c.
Proof.
  intros Hd. exists toy_kernel, toy_ring, (λ _, []). split; [apply toy_start|]. revert Hd. generalize (MConf toy_kernel ∅ ∅).
  induction ops as [|op ops IH]; intros c0; cbn; [by intros [= ->]|].
  destruct (mdo op c0) as [c1|] eqn:E1; [|done]. intros Hd. eapply rtc_l; [by eapply mdo_step|auto].
Qed.

(** The first thread creates and locks a mutex, the second waits for it and is given it. *)
Definition compete : list mop := [OCreate; OLock 1; OYield; OLock 1].
Definition given : list mop := compete ++ [OUnlock 1; OYield].

Definition after (ops : list mop) : mconf (E := toy) := default (MConf toy_kernel ∅ ∅) (mdos ops (MConf toy_kernel ∅ ∅)).

Lemma mutex_exclusion_witness :
  mdos compete (MConf toy_kernel ∅ ∅) = Some (after compete) ∧ mc_holds (after compete) = {[ (0x1000, 1) ]} ∧
  ∃ m x, mutex_at (mc_kernel (after compete)) !! m = Some x ∧ mutex_id x = 1 ∧ owner_thread x = 0x1000.
Proof.
  assert (mdos compete (MConf toy_kernel ∅ ∅) = Some (after compete)) as E1 by (vm_compute; reflexivity).
  assert (mc_holds (after compete) = {[ (0x1000, 1) ]}) as E2 by (vm_compute; reflexivity).
  split; [exact E1|]. split; [exact E2|].
  apply (mutex_exclusion (after compete)); [exact (mdos_reach compete _ E1)|]. rewrite E2. by apply elem_of_singleton.
Defined.

Lemma mutex_handover_witness :
  ∃ s', lock_resume 1 0x20000 0 (mc_kernel (after given)) = Ret (SDone 0, s') ∧
    (λ x, (mutex_id x, owner_thread x)) <$> mutex_at s' !! 0x20000 = Some (1, 0x2000).
Proof.
  assert (mdos given (MConf toy_kernel ∅ ∅) = Some (after given)) as E1 by (vm_compute; reflexivity).
  assert (curr_proc (mc_kernel (after given)) = 0x2000) as E2 by (vm_compute; reflexivity).
  pose proof (mutex_handover (after given) 1 0x20000 0 (mdos_reach given _ E1)) as Hh. rewrite E2 in Hh.
  apply Hh; [by apply (bool_decide_unpack _)|vm_compute; reflexivity].
Defined.

Lemma mutex_calls_return_witness :
  is_ret (syscall_mutex_lock 1 0 (mc_kernel (after [OCreate; OLock 1; OYield]))).
Proof.
  set (ops := [OCreate; OLock 1; OYield]).
  assert (mdos ops (MConf toy_kernel ∅ ∅) = Some (after ops)) as E1 by (vm_compute; reflexivity).
  assert (curr_proc (mc_kernel (after ops)) = 0x2000) as E2 by (vm_compute; reflexivity).
  destruct (mutex_calls_return (after ops) 1 0 (mdos_reach ops _ E1)) as [_ Hc]. rewrite E2 in Hc.
  apply Hc; [by apply (bool_decide_unpack _)|vm_compute; reflexivity].
Defined.
