(* ===== verification/Multitask.v ===== *)
(** * Threads and processes come and go ([src/x86_64/multitask/multitask.c])

    Starting the scheduler, creating kernel and user threads with the stack frame
    their first interrupt return pops, and the end of threads and processes. *)

From S2P Require Import Prelude Links Kernel RoundRobin TaskQueue ProcessTree Mutex.

Definition x86_64_ALIGNMENT : Z := 16.
Definition KERNEL_CS : Z := 0x08.
Definition DEFAULT_RFLAGS : Z := 0x202.
Definition USER_CS : Z := 0x18.
Definition USER_DS : Z := 0x20.
Definition USER_RPL : Z := 3.

Definition align_down (addr align : Z) : Z := Z.land addr (u64 (Z.lnot (u64 (align - 1)))).

Section multitask.
Context {E : Type} `{!KernelEnv E, !TaskLayout}.
Local Abbreviation MK := (M (kst E)).

(** The [*--stack_top = w] of a list of words; the answer is the final [stack_top]. *)
Fixpoint push_words (top : Z) (ws : list Z) : MK Z :=
  match ws with
  | [] => ret top
  | w :: ws => lift (ke_store64 (u64 (top - 8)) w) ;; push_words (u64 (top - 8)) ws
  end.

(** What an interrupt saves: ss, rsp, rflags, cs, rip, error code, vector, then rax, rcx,
    rdx, rsi, rdi, r8 to r11, rbx, rbp and r12 to r15. *)
Definition kthread_frame (sp entry_point arg : Z) : list Z :=
  [0; sp; DEFAULT_RFLAGS; KERNEL_CS; thread_start_addr; 0; 0;
   0; 0; 0; arg; entry_point; 0; 0; 0; 0; 0; 0; 0; 0; 0; 0].
Definition uthread_frame (usp entry_point arg : Z) : list Z :=
  [Z.lor USER_DS USER_RPL; usp; DEFAULT_RFLAGS; Z.lor USER_CS USER_RPL; entry_point; 0; 0;
   0; 0; 0; 0; arg; 0; 0; 0; 0; 0; 0; 0; 0; 0; 0].

Definition setup_kthread (new_proc entry_point arg : Z) : MK Z :=
  stack <- lift (ke_kmalloc DEFAULT_STACK_BYTES) ;;
  if stack =? 0 then ret (-1) else
  upd_thread new_proc (set_kstack stack) ;;
  let sp := align_down (u64 (stack + DEFAULT_STACK_BYTES)) x86_64_ALIGNMENT in
  stack_top <- push_words sp (kthread_frame sp entry_point arg) ;;
  upd_thread new_proc (set_rsp stack_top) ;;
  ret 0.

Definition PROC_setup_uthread (new_proc entry_point arg user_rsp : Z) : MK Z :=
  kstack_ <- lift (ke_kmalloc DEFAULT_STACK_BYTES) ;;
  if kstack_ =? 0 then ret (-1) else
  upd_thread new_proc (set_kstack kstack_) ;;
  let ksp := align_down (u64 (kstack_ + DEFAULT_STACK_BYTES)) x86_64_ALIGNMENT in
  let usp := align_down user_rsp x86_64_ALIGNMENT in
  kstack_top <- push_words ksp (uthread_frame usp entry_point arg) ;;
  upd_thread new_proc (set_ustack user_rsp) ;;
  upd_thread new_proc (set_rsp kstack_top) ;;
  ret 0.

(** [if (p->live_threads > 0) p->live_threads--;] *)
Definition drop_live_thread (p : Z) : MK unit :=
  o <- process p ;;
  if 0 <? live_threads o then upd_process p (λ o, set_live_threads (live_threads o - 1) o) else ret tt.

Definition PROC_run (sp : Z) : MK Z :=
  started <- gets multitask_started ;;
  (if started : bool then ret tt
   else
     zero_process_at kernel_process ;;
     zero_thread_at main_thread ;;
     p4 <- gets (λ s, ke_kernel_p4 (env s)) ;;
     PROC_init_process kernel_process 0 p4 ;;
     upd_process kernel_process (set_pid 0) ;;
     modify (set_next_pid 1) ;;
     PROC_init_thread main_thread kernel_process ;;
     upd_thread main_thread (set_tid NO_THREAD) ;;
     upd_thread main_thread (set_run_state PROC_RUNNING) ;;
     PROC_link_thread kernel_process main_thread ;;
     modify (set_curr_proc main_thread) ;;
     modify (set_next_proc main_thread) ;;
     modify (set_multitask_started true)) ;;
  yield sp.

Definition PROC_create_kthread (entry_point arg : Z) : MK unit :=
  if entry_point =? 0 then ret tt else
  new_proc <- alloc_thread kernel_process ;;
  if new_proc =? 0 then ret tt else
  r <- setup_kthread new_proc entry_point arg ;;
  if r <? 0 then
    PROC_unlink_thread kernel_process new_proc ;;
    drop_live_thread kernel_process ;;
    PROC_free_thread new_proc
  else rr_admit new_proc.

Definition PROC_create_uthread (entry_point arg cr3_ ustack_ : Z) : MK Z :=
  if (entry_point =? 0) || (ustack_ =? 0) then ret (-1) else
  curr <- gets curr_proc ;;
  parent_ <- (if curr =? 0 then ret kernel_process else t <- thread curr ;; ret (owner t)) ;;
  new_process <- alloc_process parent_ cr3_ ;;
  if new_process =? 0 then ret (-1) else
  new_proc <- alloc_thread new_process ;;
  if new_proc =? 0 then PROC_free_process new_process ;; ret (-1) else
  r <- PROC_setup_uthread new_proc entry_point arg (u64 (ustack_ + DEFAULT_STACK_BYTES)) ;;
  if r <? 0 then
    PROC_unlink_thread new_process new_proc ;;
    drop_live_thread new_process ;;
    PROC_free_thread new_proc ;;
    PROC_free_process new_process ;;
    ret (-1)
  else
    upd_thread new_proc (set_ustack ustack_) ;;
    PROC_link_process_child parent_ new_process ;;
    rr_admit new_proc ;;
    ret 0.

Definition destroy_process_address_space (p : Z) : MK unit :=
  if p =? 0 then ret tt else
  o <- process p ;;
  kernel_cr3 <- gets (λ s, ke_kernel_p4 (env s)) ;;
  if (cr3 o =? 0) || (cr3 o =? kernel_cr3) then ret tt else
  lift (ke_switch_p4 kernel_cr3) ;;
  upd_process p (set_cr3 0) ;;
  lift (ke_destroy_userspace (cr3 o)).

Definition process_teardown (exiting_ status : Z) : MK unit :=
  if exiting_ =? 0 then ret tt else
  o <- process exiting_ ;;
  if negb (zombie o =? 0) then ret tt else
  upd_process exiting_ (set_exiting 1) ;;
  upd_process exiting_ (set_zombie 1) ;;
  upd_process exiting_ (set_p_exit_status status) ;;
  PROC_reparent_children exiting_ ;;
  MUTEX_destroy_process_mutexes exiting_ ;;
  destroy_process_address_space exiting_ ;;
  o <- process exiting_ ;;
  if parent o =? 0 then ret tt else PROC_unblock_all (Some (QChildExit (parent o))).

(** The threads of a process that exits become zombies. *)
Fixpoint exit_threads_loop (fuel : nat) (status t : Z) : MK unit :=
  match fuel with
  | O => no_fuel
  | S fuel =>
      if t =? 0 then ret tt else
      c <- thread t ;;
      (if bool_decide (run_state c = PROC_ZOMBIE) then ret tt
       else
         (if bool_decide (run_state c = PROC_READY ∨ run_state c = PROC_RUNNING) then rr_remove t else ret tt) ;;
         upd_thread t (set_run_state PROC_ZOMBIE) ;;
         upd_thread t (set_exit_status status)) ;;
      c <- thread t ;;
      exit_threads_loop fuel status (next_thread c)
  end.

(** The process as a whole. *)
Definition exit_process (owner_ status : Z) : MK unit :=
  o <- process owner_ ;;
  upd_process owner_ (set_exiting 1) ;;
  n <- gets (λ s, size (thread_at s)) ;;
  exit_threads_loop (S n) status (threads o) ;;
  upd_process owner_ (set_live_threads 0) ;;
  process_teardown owner_ status ;;
  PROC_unblock_all (Some (QThreadExit owner_)).

(** The current thread only; the process ends with its last thread. *)
Definition exit_thread (owner_ status : Z) : MK unit :=
  curr <- gets curr_proc ;;
  upd_thread curr (set_run_state PROC_ZOMBIE) ;;
  upd_thread curr (set_exit_status status) ;;
  drop_live_thread owner_ ;;
  rr_remove curr ;;
  PROC_unblock_all (Some (QThreadExit owner_)) ;;
  o <- process owner_ ;;
  if live_threads o =? 0 then process_teardown owner_ status else ret tt.

Definition PROC_exit_current_thread (status : Z) (whole_process : bool) : MK Z :=
  curr <- gets curr_proc ;;
  if curr =? 0 then ret (-1) else
  if curr =? main_thread then halt else
  c <- thread curr ;;
  if owner c =? 0 then ret (-1) else
  (if whole_process && negb (owner c =? kernel_process) then exit_process (owner c) status
   else exit_thread (owner c) status) ;;
  modify (set_curr_proc 0) ;;
  PROC_reschedule ;;
  ret 0.

(** The bytes of a NUL-terminated user string, at most [n] of them before the NUL. *)
Fixpoint copy_string_loop (n : nat) (src : Z) : MK (option (list Z)) :=
  match n with
  | O => ret None
  | S n =>
      c <- lift (ke_load8 src) ;;
      if c =? 0 then ret (Some []) else
      r <- copy_string_loop n (u64 (src + 1)) ;;
      ret (cons c <$> r)
  end.

(** [Some] stands for the result 0 with the string in [dst], [None] for -1. *)
Definition PROC_copy_user_string (src dst_size : Z) : MK (option (list Z)) :=
  if (src =? 0) || (dst_size =? 0) then ret None else
  copy_string_loop (Z.to_nat (dst_size - 1)) src.

Definition num_proc_runnable : MK Z := rr_qlen.
End multitask.
