(* ===== verification/ProcessSyscalls.v ===== *)
(** * Process system calls ([src/x86_64/multitask/process_syscalls.c])

    [frame] is the address of the [syscall_frame] on the kernel stack of the caller.
    A call that blocks answers [SBlocked] with the rest of its loop, which runs when
    the thread is scheduled again.  The [printk] of free frame counts is left out. *)

From S2P Require Import Prelude Links Kernel RoundRobin TaskQueue ProcessTree Mutex Multitask.

(** Offsets in [struct syscall_frame]. *)
Definition F_r10 : Z := 56.
Definition F_rdi : Z := 80.
Definition F_rsi : Z := 88.
Definition F_rdx : Z := 96.
Definition F_rax : Z := 112.
Definition F_rip : Z := 136.
Definition F_rsp : Z := 160.

Section process_syscalls.
Context {E : Type} `{!KernelEnv E, !TaskLayout}.
Local Abbreviation MK := (M (kst E)).

(** [elf_load_program] on the file system [proc_root]; [None] while there is none. *)
Variable proc_root : option (list Z → M E (option elf_image)).

Definition frame_get (frame field : Z) : MK Z := lift (ke_load64 (u64 (frame + field))).
Definition frame_set (frame field v : Z) : MK unit := lift (ke_store64 (u64 (frame + field)) v).

(** [!curr_proc || !curr_proc->owner], and the owner. *)
Definition caller_owner : MK (option Z) :=
  curr <- gets curr_proc ;;
  if curr =? 0 then ret None else
  t <- thread curr ;;
  if owner t =? 0 then ret None else ret (Some (owner t)).

Definition syscall_yield : MK Z := PROC_reschedule ;; ret 0.

(** The result of [PROC_exit_current_thread], converted to [uint64_t]. *)
Definition syscall_exit (frame : Z) : MK Z :=
  rdi <- frame_get frame F_rdi ;;
  r <- PROC_exit_current_thread (i32 rdi) true ;;
  ret (u64 r).

Definition syscall_thread_exit (frame : Z) : MK Z :=
  rdi <- frame_get frame F_rdi ;;
  r <- PROC_exit_current_thread (i32 rdi) false ;;
  ret (u64 r).

Fixpoint free_threads_loop (fuel : nat) (t : Z) : MK unit :=
  match fuel with
  | O => no_fuel
  | S fuel =>
      if t =? 0 then ret tt else
      c <- thread t ;;
      PROC_free_thread t ;;
      free_threads_loop fuel (next_thread c)
  end.

(** A zombie child is taken off the list, its status stored and its memory freed. *)
Definition reap (frame parent_ child : Z) : MK Z :=
  c <- process child ;;
  status_ptr <- frame_get frame F_rdi ;;
  (if status_ptr =? 0 then ret tt else lift (ke_store32 status_ptr (p_exit_status c))) ;;
  PROC_unlink_process_child parent_ child ;;
  n <- gets (λ s, size (thread_at s)) ;;
  free_threads_loop (S n) (threads c) ;;
  PROC_free_process child ;;
  ret (pid c).

(** The loop of [syscall_wait]: a turn looks for a zombie, and blocks when there is none. *)
Definition wait_check (frame parent_ : Z) : MK (option Z) :=
  child <- PROC_find_zombie_child parent_ ;;
  if negb (child =? 0) then r <- reap frame parent_ child ;; ret (Some r) else
  p <- process parent_ ;;
  if first_child p =? 0 then ret (Some MINUS_ONE) else ret None.

Definition wait_block (frame parent_ sp : Z) : MK sysres :=
  CLI ;;
  PROC_block_on (Some (QChildExit parent_)) true sp ;;
  ret (SBlocked (KWait frame)).

Definition wait_turn (frame parent_ sp : Z) : MK sysres :=
  r <- wait_check frame parent_ ;;
  match r with
  | Some r => ret (SDone r)
  | None => wait_block frame parent_ sp
  end.

Definition syscall_wait (frame sp : Z) : MK sysres :=
  o <- caller_owner ;;
  match o with
  | None => ret (SDone MINUS_ONE)
  | Some parent_ => wait_turn frame parent_ sp
  end.

(** The second half of [syscall_exec]: the process moves to the new address space. *)
Definition exec_image (frame owner_ : Z) (image : elf_image) : MK unit :=
  o <- process owner_ ;;
  CLI ;;
  upd_process owner_ (set_cr3 (im_cr3 image)) ;;
  curr <- gets curr_proc ;;
  upd_thread curr (set_ustack (im_ustack_base image)) ;;
  lift (ke_switch_p4 (im_cr3 image)) ;;
  p4 <- gets (λ s, ke_kernel_p4 (env s)) ;;
  (if negb (cr3 o =? 0) && negb (cr3 o =? p4) && negb (cr3 o =? im_cr3 image)
   then lift (ke_destroy_userspace (cr3 o)) else ret tt) ;;
  STI ;;
  frame_set frame F_rip (im_entry image) ;;
  frame_set frame F_rsp (im_ustack_top image) ;;
  frame_set frame F_rdi 0 ;;
  frame_set frame F_rsi 0 ;;
  frame_set frame F_rdx 0.

Definition syscall_exec (frame : Z) : MK Z :=
  match proc_root with
  | None => ret MINUS_ONE
  | Some elf_load_program =>
      w <- caller_owner ;;
      match w with
      | None => ret MINUS_ONE
      | Some owner_ =>
          o <- process owner_ ;;
          if negb (live_threads o =? 1) then ret MINUS_ONE else
          rdi <- frame_get frame F_rdi ;;
          f <- PROC_copy_user_string rdi 128 ;;
          match f with
          | None => ret MINUS_ONE
          | Some filename =>
              i <- lift (elf_load_program filename) ;;
              match i with
              | None => ret MINUS_ONE
              | Some image => exec_image frame owner_ image ;; ret 0
              end
          end
      end
  end.

(** [memcpy] of bytes on the kernel's stacks. *)
Definition copy_bytes (dst src n : Z) : MK unit :=
  for_each (seqZ 0 n) (λ i, b <- lift (ke_load8 (src + i)) ;; lift (ke_store8 (dst + i) b)).

(** [free_thread_node] and [free_process_node] are the [kfree] of the error paths. *)
Definition free_thread_node (t : Z) : MK unit :=
  lift (ke_kfree t) ;; modify (λ s, set_thread_at (delete t (thread_at s)) s).
Definition free_process_node (p : Z) : MK unit :=
  lift (ke_kfree p) ;; modify (λ s, set_process_at (delete p (process_at s)) s).

(** The child's stack is a copy of the caller's from [frame] up, with 0 in rax. *)
Definition fork_child (frame parent_thread child kstack_ offset : Z) : MK unit :=
  t <- thread parent_thread ;;
  copy_bytes (u64 (kstack_ + offset)) (u64 (kstack t + offset)) (DEFAULT_STACK_BYTES - offset) ;;
  upd_thread child (set_kstack kstack_) ;;
  upd_thread child (set_ustack (ustack t)) ;;
  upd_thread child (set_stacksize (stacksize t)) ;;
  let child_frame := u64 (kstack_ + offset) in
  frame_set child_frame F_rax 0 ;;
  upd_thread child (set_rsp child_frame).

Definition clone_process (frame : Z) : MK Z :=
  parent_thread <- gets curr_proc ;;
  w <- caller_owner ;;
  match w with
  | None => ret MINUS_ONE
  | Some parent_ =>
      o <- process parent_ ;;
      p4 <- gets (λ s, ke_kernel_p4 (env s)) ;;
      if (cr3 o =? 0) || (cr3 o =? p4) || negb (live_threads o =? 1) then ret MINUS_ONE else
      child_cr3 <- lift (ke_clone_userspace (cr3 o)) ;;
      if child_cr3 =? 0 then ret MINUS_ONE else
      child_process <- lift (ke_kmalloc process_bytes) ;;
      if child_process =? 0 then lift (ke_destroy_userspace child_cr3) ;; ret MINUS_ONE else
      zero_process_at child_process ;;
      PROC_init_process child_process parent_ child_cr3 ;;
      child <- lift (ke_kmalloc thread_bytes) ;;
      if child =? 0 then
        free_process_node child_process ;; lift (ke_destroy_userspace child_cr3) ;; ret MINUS_ONE else
      zero_thread_at child ;;
      PROC_init_thread child child_process ;;
      kstack_ <- lift (ke_kmalloc DEFAULT_STACK_BYTES) ;;
      if kstack_ =? 0 then
        free_thread_node child ;; free_process_node child_process ;; lift (ke_destroy_userspace child_cr3) ;; ret MINUS_ONE else
      t <- thread parent_thread ;;
      let frame_offset := u64 (frame - kstack t) in
      if DEFAULT_STACK_BYTES <=? frame_offset then
        lift (ke_kfree kstack_) ;; free_thread_node child ;; free_process_node child_process ;;
        lift (ke_destroy_userspace child_cr3) ;; ret MINUS_ONE else
      fork_child frame parent_thread child kstack_ frame_offset ;;
      PROC_link_thread child_process child ;;
      PROC_link_process_child parent_ child_process ;;
      rr_admit child ;;
      c <- process child_process ;;
      ret (pid c)
  end.

Definition clone_thread (frame : Z) : MK Z :=
  child_stack_top <- frame_get frame F_rsi ;;
  entry <- frame_get frame F_rdx ;;
  arg <- frame_get frame F_r10 ;;
  w <- caller_owner ;;
  match w with
  | None => ret MINUS_ONE
  | Some owner_ =>
      if (child_stack_top =? 0) || (entry =? 0) then ret MINUS_ONE else
      o <- process owner_ ;;
      p4 <- gets (λ s, ke_kernel_p4 (env s)) ;;
      if (cr3 o =? 0) || (cr3 o =? p4) then ret MINUS_ONE else
      child <- lift (ke_kmalloc thread_bytes) ;;
      if child =? 0 then ret MINUS_ONE else
      zero_thread_at child ;;
      PROC_init_thread child owner_ ;;
      PROC_link_thread owner_ child ;;
      r <- PROC_setup_uthread child entry arg child_stack_top ;;
      if r <? 0 then
        PROC_unlink_thread owner_ child ;;
        drop_live_thread owner_ ;;
        PROC_free_thread child ;;
        ret MINUS_ONE
      else
        rr_admit child ;;
        c <- thread child ;;
        ret (tid c)
  end.

Definition syscall_clone (frame : Z) : MK Z :=
  rdi <- frame_get frame F_rdi ;;
  if rdi =? CLONE_PROCESS then clone_process frame else
  if rdi =? CLONE_THREAD then clone_thread frame else ret MINUS_ONE.

Definition syscall_fork (frame : Z) : MK Z :=
  frame_set frame F_rdi CLONE_PROCESS ;;
  frame_set frame F_rsi 0 ;;
  frame_set frame F_rdx 0 ;;
  frame_set frame F_r10 0 ;;
  syscall_clone frame.

Definition syscall_getpid : MK Z :=
  w <- caller_owner ;;
  match w with
  | None => ret 0
  | Some owner_ => o <- process owner_ ;; ret (pid o)
  end.

Definition syscall_gettid : MK Z :=
  curr <- gets curr_proc ;;
  if curr =? 0 then ret 0 else
  t <- thread curr ;;
  ret (tid t).

(** The loop of [syscall_thread_join]: the target is looked up and tested; a zombie is
    taken off the list of threads and freed. *)
Definition join_check (tid_ status_ptr owner_ : Z) : MK (option Z) :=
  target <- PROC_find_thread owner_ tid_ ;;
  if target =? 0 then ret (Some MINUS_ONE) else
  c <- thread target ;;
  if bool_decide (run_state c = PROC_ZOMBIE) then
    (if status_ptr =? 0 then ret tt else lift (ke_store32 status_ptr (exit_status c))) ;;
    PROC_unlink_thread owner_ target ;;
    PROC_free_thread target ;;
    ret (Some tid_)
  else ret None.

Definition join_block (tid_ status_ptr owner_ sp : Z) : MK sysres :=
  CLI ;;
  PROC_block_on (Some (QThreadExit owner_)) true sp ;;
  ret (SBlocked (KJoin tid_ status_ptr)).

Definition join_turn (tid_ status_ptr owner_ sp : Z) : MK sysres :=
  r <- join_check tid_ status_ptr owner_ ;;
  match r with
  | Some r => ret (SDone r)
  | None => join_block tid_ status_ptr owner_ sp
  end.

Definition syscall_thread_join (frame sp : Z) : MK sysres :=
  tid_ <- frame_get frame F_rdi ;;
  status_ptr <- frame_get frame F_rsi ;;
  w <- caller_owner ;;
  match w with
  | None => ret (SDone MINUS_ONE)
  | Some owner_ =>
      curr <- gets curr_proc ;;
      t <- thread curr ;;
      if tid_ =? tid t then ret (SDone MINUS_ONE) else join_turn tid_ status_ptr owner_ sp
  end.
End process_syscalls.
