(* ===== verification/WaitProofs.v ===== *)
(** * Waiting for children

    [syscall_wait] takes the first zombie child off the list, frees its threads and the
    process, and answers its identifier; without children it fails, and with live
    children only the thread blocks. *)

From stdpp Require Import functions.
From S2P Require Import Prelude Links Kernel RoundRobin TaskQueue TaskQueueProofs ProcessTree ProcessTreeProofs Mutex Multitask ProcessSyscalls.

Section wait.
Context {E : Type} {KE : KernelEnv E} {KL : KernelEnvLaws E} {TL : TaskLayout}.
Implicit Types (s : kst E) (K : Z → list Z) (ts : gmap Z thread_st) (e : E).

(** ** Memory given back *)

(** The heap takes the blocks back, one after the other. *)
Fixpoint frees e (l : list Z) e' : Prop :=
  match l with
  | [] => e' = e
  | a :: l => ∃ e1, ke_kfree a e = Ret (tt, e1) ∧ frees e1 l e'
  end.

Lemma frees_app e l1 l2 e' : frees e (l1 ++ l2) e' ↔ ∃ e1, frees e l1 e1 ∧ frees e1 l2 e'.
Proof.
  revert e. induction l1 as [|a l1 IH]; intros e; cbn.
  - split; [eauto|by intros (e1 & -> & H)].
  - split.
    + intros (e1 & H1 & (e2 & H2 & H3)%IH). eauto.
    + intros (e2 & (e1 & H1 & H2) & H3). exists e1. split; [done|]. apply IH. eauto.
Qed.

(** The kernel stack of a thread, if it has one, and its node. *)
Definition thread_blocks ts (t : Z) : list Z :=
  match ts !! t with
  | Some c => (if kstack c =? 0 then [] else [kstack c]) ++ [t]
  | None => [t]
  end.

Definition del_all (l : list Z) ts : gmap Z thread_st := foldr delete ts l.

Lemma lookup_del_all l ts p : del_all l ts !! p = if decide (p ∈ l) then None else ts !! p.
Proof.
  induction l as [|x l IH]; [by rewrite decide_False by apply not_elem_of_nil|].
  change (del_all (x :: l) ts) with (delete x (del_all l ts)).
  destruct (decide (p = x)) as [->|Hne]; [rewrite lookup_delete_eq, decide_True by left; done|].
  rewrite lookup_delete_ne, IH by done. destruct (decide (p ∈ l)); [by rewrite decide_True by (by right)|].
  rewrite decide_False; [done|]. by intros [?|?]%elem_of_cons.
Qed.

Lemma PROC_free_thread_spec s t c e :
  thread_at s !! t = Some c → t ≠ 0 → frees (env s) (thread_blocks (thread_at s) t) e →
  wp (PROC_free_thread t) s (λ _ s', s' = set_env e (set_thread_at (delete t (thread_at s)) s)).
Proof.
  intros Et H0 Hfr. unfold PROC_free_thread. rewrite (proj2 (Z.eqb_neq t 0)) by done. wp_step. eapply wp_thread; [exact Et|].
  unfold thread_blocks in Hfr. rewrite Et in Hfr. wp_step. destruct (kstack c =? 0).
  - apply wp_ret. destruct Hfr as (e1 & He & ->). wp_step. eapply wp_klift; [exact He|]. by apply wp_modify.
  - destruct Hfr as (e1 & He1 & e2 & He2 & ->). eapply wp_klift; [exact He1|]. wp_step. eapply wp_klift; [exact He2|]. by apply wp_modify.
Qed.

Definition next_of ts (p : Z) : option Z := next_thread <$> ts !! p.

Lemma thread_blocks_delete ts t (l : list Z) : t ∉ l → thread_blocks (delete t ts) <$> l = thread_blocks ts <$> l.
Proof.
  intros Ht. apply list_fmap_ext. intros i x Hx. unfold thread_blocks. rewrite lookup_delete_ne; [done|].
  intros ->. apply Ht. by eapply list_elem_of_lookup_2.
Qed.

Lemma del_all_delete t l ts : del_all l (delete t ts) = delete t (del_all l ts).
Proof.
  apply map_eq. intros p. rewrite lookup_del_all. destruct (decide (p = t)) as [->|Hne].
  - rewrite !lookup_delete_eq. by case_decide.
  - by rewrite !lookup_delete_ne, lookup_del_all.
Qed.

Lemma free_threads_loop_spec fuel s h l e :
  lseg (next_of (thread_at s)) h l 0 → NoDup l → (length l < fuel)%nat → frees (env s) (concat (thread_blocks (thread_at s) <$> l)) e →
  wp (free_threads_loop fuel h) s (λ _ s', s' = set_env e (set_thread_at (del_all l (thread_at s)) s)).
Proof.
  revert s h l. induction fuel as [|fuel IH]; intros s h l Hl Hnd Hf Hfr; [lia|]. cbn [free_threads_loop]. destruct l as [|t l].
  - cbn in Hl, Hfr. subst. apply wp_ret. by destruct s.
  - destruct Hl as (-> & Ht0 & n & Hn & Hl). rewrite (proj2 (Z.eqb_neq t 0)) by done. apply NoDup_cons in Hnd as [Ht Hnd].
    unfold next_of in Hn. apply fmap_Some in Hn as (c & Ec & ->). wp_step. eapply wp_thread; [exact Ec|].
    cbn in Hfr. apply frees_app in Hfr as (e1 & Hf1 & Hf2). wp_step. eapply wp_mono; [by apply (PROC_free_thread_spec s t c e1)|].
    cbv beta. intros _ s1 ->. eapply wp_mono; [apply (IH _ (next_thread c) l)|].
    + eapply lseg_ext; [|exact Hl]. intros p Hp. unfold next_of. cbn. rewrite lookup_delete_ne; [done|]. by intros ->.
    + done.
    + cbn in Hf. lia.
    + change (frees e1 (concat (thread_blocks (delete t (thread_at s)) <$> l)) e). by rewrite thread_blocks_delete.
    + cbv beta. intros _ s2 ->. change (del_all (t :: l) (thread_at s)) with (delete t (del_all l (thread_at s))). by rewrite <-del_all_delete.
Qed.

(** ** A child is reaped *)

Lemma forest_delete (ps : gmap Z process_st) K z :
  forest ps K → K z = [] → (∀ p, z ∉ K p) → forest (delete z ps) K.
Proof.
  intros Hf Hz Hno. pose proof Hf as [H1 H2 H3 H4 H5 H6].
  assert (∀ (A : Type) (f : process_st → A) p, p ≠ z → f <$> delete z ps !! p = f <$> ps !! p) as Hne by (intros; by rewrite lookup_delete_ne).
  assert (∀ (A : Type) (f : process_st → A), f <$> delete z ps !! z = None) as Heq by (intros; by rewrite lookup_delete_eq).
  split.
  - intros p h. destruct (decide (p = z)) as [->|Hp]; [unfold fc_of; by rewrite Heq|]. unfold fc_of. rewrite Hne by done. intros Hh.
    eapply lseg_ext; [|by apply H1]. intros c Hc. unfold sb_of. apply Hne. intros ->. by apply (Hno p).
  - intros p. destruct (decide (p = z)) as [->|Hp]; [done|]. unfold fc_of. rewrite Hne by done. apply H2.
  - intros p c Hc. unfold pr_of. rewrite Hne; [by apply H3|]. intros ->. by apply (Hno p).
  - done.
  - unfold fc_of. destruct (decide (0 = z)) as [<-|]; [apply Heq|by rewrite Hne].
  - intros p. unfold fc_of, pr_of. by destruct (delete z ps !! p).
Qed.

(** The threads of the process at [z]. *)
Definition has_threads s (z : Z) (l : list Z) : Prop :=
  ∃ o, process_at s !! z = Some o ∧ lseg (next_of (thread_at s)) (threads o) l 0 ∧ NoDup l.

Lemma has_threads_length s z l : has_threads s z l → (length l ≤ size (thread_at s))%nat.
Proof.
  intros (o & _ & Hl & Hnd). rewrite <-size_dom. assert (list_to_set l ⊆ dom (thread_at s)) as Hsub.
  { intros t Ht. apply elem_of_list_to_set in Ht. apply elem_of_dom. destruct (lseg_nonzero _ _ _ _ t Hl Ht) as [_ [n Hn]].
    unfold next_of in Hn. destruct (thread_at s !! t); [eauto|done]. }
  apply subseteq_size in Hsub. by rewrite size_list_to_set in Hsub.
Qed.

(** What is given back with child [z]: its threads and its node. *)
Definition child_blocks s (z : Z) (l : list Z) : list Z := concat (thread_blocks (thread_at s) <$> l) ++ [z].

(** The status is stored when the caller asked for it. *)
Definition status_stored (ptr status : Z) e e' : Prop :=
  if ptr =? 0 then e' = e else ke_store32 ptr status e = Ret (tt, e').

Lemma reap_spec s K p z o l frame ptr e1 e2 e3 :
  forest (process_at s) K → p ≠ 0 → z ∈ K p → K z = [] → process_at s !! z = Some o → has_threads s z l →
  ke_load64 (u64 (frame + F_rdi)) (env s) = Ret (ptr, e1) → status_stored ptr (p_exit_status o) e1 e2 → frees e2 (child_blocks s z l) e3 →
  wp (reap frame p z) s (λ r s', r = pid o ∧ ∃ ps,
    s' = set_env e3 (set_thread_at (del_all l (thread_at s)) (set_process_at (delete z ps) s)) ∧ kin_only (process_at s) ps ∧
    forest (delete z ps) (<[p := filter (λ x, x ≠ z) (K p)]> K)).
Proof.
  intros Hf Hp0 Hz HKz Ez Hth Eload Hst Hfr. destruct (forest_child _ _ _ _ Hf Hz) as (Hz0 & _ & Hps).
  unfold reap. wp_step. eapply wp_process; [exact Ez|]. wp_step. unfold frame_get. eapply wp_klift; [exact Eload|]. wp_step.
  assert (wp (if ptr =? 0 then ret tt else Kernel.lift (ke_store32 ptr (p_exit_status o))) (set_env e1 s) (λ _ s', s' = set_env e2 s)) as Hstore.
  { unfold status_stored in Hst. destruct (ptr =? 0); [by subst; apply wp_ret|]. by eapply wp_klift. }
  eapply wp_mono; [exact Hstore|]. cbv beta. intros _ s1 ->.
  wp_step. eapply wp_mono; [apply (PROC_unlink_process_child_spec (set_env e2 s) K p z); done|]. cbv beta.
  intros _ s2 (ps & -> & Hk & Hf2). wp_step. apply wp_gets. apply frees_app in Hfr as (e4 & Hf4 & e5 & He5 & ->).
  pose proof (has_threads_length _ _ _ Hth) as Hlen. destruct Hth as (o' & Ez' & Hl & Hnd). assert (o' = o) as -> by congruence.
  wp_step. eapply wp_mono; [apply (free_threads_loop_spec _ _ (threads o) l e4); [done|done|cbn; lia|done]|]. cbv beta. intros _ s3 ->.
  unfold PROC_free_process. rewrite (proj2 (Z.eqb_neq z 0)) by done. wp_step. wp_step. eapply wp_klift; [exact He5|]. apply wp_modify, wp_ret.
  split; [done|]. exists ps. split; [done|]. split; [done|]. apply forest_delete; [done| |].
  - destruct (decide (z = p)) as [->|]; [|by rewrite fn_lookup_insert_ne]. by rewrite HKz in Hz; apply elem_of_nil in Hz.
  - intros q. destruct (decide (q = p)) as [->|Hqp]; [rewrite fn_lookup_insert, list_elem_of_filter; naive_solver|].
    rewrite fn_lookup_insert_ne by done. intros Hq. by apply Hqp, (family_one _ _ _ _ _ _ z Hf).
Qed.

(** Threads that are in no queue go, and with them the process [z] they belong to. *)
Lemma tasks_reap s R Q z l ps e :
  tasks s R Q → kin_only (process_at s) ps → (∀ t, t ∈ l → (t ∉ rr_list R) ∧ ∀ q, t ∉ Q q) →
  (∀ t c, thread_at s !! t = Some c → owner c = z → t ∈ l) → Q (QChildExit z) = [] → Q (QThreadExit z) = [] →
  tasks (set_env e (set_thread_at (del_all l (thread_at s)) (set_process_at (delete z ps) s))) R Q.
Proof.
  intros [H1 H2 H3 H4 H5 H6 H7 H8 H9] Hk Hl Hz Hq1 Hq2. set (s' := set_env _ _).
  assert (∀ p, p ∉ l → thread_at s' !! p = thread_at s !! p) as Hth by (intros p Hp; cbn; by rewrite lookup_del_all, decide_False).
  assert (∀ (f : process_st → proc_queue) p, (∀ o, f (no_kin o) = f o) → f <$> ps !! p = f <$> process_at s !! p) as Hf.
  { intros f p Hno. specialize (Hk p). destruct (ps !! p) as [o'|], (process_at s !! p) as [o|]; try done. cbn in *.
    apply (inj Some) in Hk. by rewrite <-(Hno o'), Hk, Hno. }
  assert (∀ q v, queue_val s' q = Some v → queue_val s q = Some v) as Hqv.
  { intros [p|p|m|a] v; cbn; try done; (destruct (decide (p = z)) as [->|Hpz]; [by rewrite lookup_delete_eq|rewrite lookup_delete_ne by done]);
      rewrite Hf; done. }
  split.
  - destruct H1 as [R1 R2 R3 R4 R5 R6 R7]. split; try done. eapply lseg_ext; [|exact R7]. intros p Hp. unfold sched_of.
    rewrite Hth; [done|]. intros Hin. by destruct (Hl p Hin) as [? _].
  - intros q v Hv. eapply queue_rep_ext; [|by apply H2, Hqv]. intros p Hp. unfold lib_of. rewrite Hth; [done|].
    intros Hin. destruct (Hl p Hin) as [_ Hno]. by apply (Hno q).
  - intros q Hv. destruct (queue_val s q) as [v|] eqn:Ev; [|by apply H3]. destruct q as [p|p|m|a]; cbn in Hv, Ev; try congruence;
      (destruct (decide (p = z)) as [->|Hpz]; [done|]); rewrite lookup_delete_ne in Hv by done.
    + rewrite (Hf wait_child_exit) in Hv by done. congruence.
    + rewrite (Hf wait_thread_exit) in Hv by done. congruence.
  - intros p Hp. rewrite Hth; [by apply H4|]. intros Hin. by destruct (Hl p Hin) as [? _].
  - intros q p Hp. rewrite Hth; [by apply (H5 q)|]. intros Hin. destruct (Hl p Hin) as [_ Hno]. by apply (Hno q).
  - done.
  - intros p t Ht. cbn in Ht. rewrite lookup_del_all in Ht. destruct (decide (p ∈ l)) as [|Hpl]; [done|].
    destruct (H7 p t Ht) as [?|[o Ho]]; [by left|right]. destruct (decide (owner t = z)) as [Hoz|Hoz]; [by destruct Hpl; eapply Hz|].
    cbn. rewrite lookup_delete_ne by done. specialize (Hk (owner t)). rewrite Ho in Hk. destruct (ps !! owner t); [eauto|done].
  - eapply Z.le_lt_trans; [|exact H8]. apply inj_le. rewrite <-!size_dom. apply subseteq_size. intros p. rewrite !elem_of_dom. cbn.
    rewrite lookup_del_all. case_decide; [intros [x Hx]; done|done].
  - cbn. rewrite lookup_del_all, H9. by case_decide.
Qed.
End wait.
