(* ===== verification/WaitTheorems.v ===== *)
(** * What [wait] promises *)

From stdpp Require Import functions.
From S2P Require Import Prelude Links Kernel RoundRobin TaskQueue TaskQueueProofs KernelExample ProcessTree ProcessTreeProofs ProcessTreeTheorems.
From S2P Require Import Mutex MutexProofs Multitask ProcessSyscalls WaitProofs.

Section theorems.
Context {E : Type} {KE : KernelEnv E} {KL : KernelEnvLaws E} {TL : TaskLayout}.
Implicit Types (s : kst E) (K : Z → list Z).

(** A zombie nobody refers to but its parent: no children, threads that are in no queue. *)
Record reapable s R Q K (z : Z) (o : process_st) (l : list Z) : Prop := {
  rp_node : process_at s !! z = Some o;
  rp_kids : K z = [];
  rp_threads : has_threads s z l;
  rp_owned t c : thread_at s !! t = Some c → owner c = z → t ∈ l;
  rp_loose t : t ∈ l → (t ∉ rr_list R) ∧ ∀ q, t ∉ Q q;
  rp_queues : Q (QChildExit z) = [] ∧ Q (QThreadExit z) = []
}.

Lemma first_zombie_in s K p : first_zombie s (K p) ≠ 0 → first_zombie s (K p) ∈ K p.
Proof.
  unfold first_zombie. destruct (head _) as [z|] eqn:Ez; [|done]. intros _. change (default 0 (Some z)) with z.
  assert (z ∈ filter (λ c, is_zombie s c = true) (K p)) as Hz by (by apply head_Some_elem_of). by apply list_elem_of_filter in Hz as [_ ?].
Qed.

Lemma wait_prologue s R Q t frame sp P :
  tasks s R Q → curr_proc s ≠ 0 → thread_at s !! curr_proc s = Some t → owner t ≠ 0 →
  wp (wait_turn frame (owner t) sp) s P → wp (syscall_wait frame sp) s P.
Proof.
  intros Ht Hc Et Ho Hw. unfold syscall_wait, caller_owner. wp_step. wp_step. apply wp_gets.
  rewrite (proj2 (Z.eqb_neq _ 0)) by done. wp_step. eapply wp_thread; [exact Et|]. rewrite (proj2 (Z.eqb_neq _ 0)) by done.
  by apply wp_ret.
Qed.

(** C26: [syscall_wait] reaps the first zombie child: it stores the exit status, answers
    the identifier of the child, takes it off the list of children, and gives back its
    kernel stacks, thread nodes and process node, each once; the tree and the queues stay
    well formed.  Without children it answers -1, and with live children only it blocks
    until one exits. *)
Theorem syscall_wait_correct s R Q K t frame sp :
  tasks s R Q → forest (process_at s) K → curr_proc s ≠ 0 → thread_at s !! curr_proc s = Some t → owner t ≠ 0 →
  let p := owner t in let z := first_zombie s (K p) in
  (z ≠ 0 → ∀ o l ptr e1 e2 e3, reapable s R Q K z o l →
     ke_load64 (u64 (frame + F_rdi)) (env s) = Ret (ptr, e1) → status_stored ptr (p_exit_status o) e1 e2 →
     frees e2 (child_blocks s z l) e3 →
     ∃ s', syscall_wait frame sp s = Ret (SDone (pid o), s') ∧ forest (process_at s') (<[p := filter (λ x, x ≠ z) (K p)]> K) ∧
       tasks s' R Q ∧ process_at s' !! z = None ∧ (∀ t, thread_at s' !! t = if decide (t ∈ l) then None else thread_at s !! t) ∧ env s' = e3) ∧
  (z = 0 → K p = [] → syscall_wait frame sp s = Ret (SDone MINUS_ONE, s)) ∧
  (z = 0 → K p ≠ [] → can_block s R Q →
     ∃ s', syscall_wait frame sp s = Ret (SBlocked (KWait frame), s') ∧ blocked s R Q (QChildExit p) sp s').
Proof.
  intros Ht Hf Hc Et Ho p z. destruct (tk_owner _ _ _ Ht _ _ Et) as [?|Hp]; [done|].
  pose proof (PROC_find_zombie_child_spec s K p Hf Hp Ho) as Hfind. fold z in Hfind. split; [|split].
  - intros Hz o l ptr e1 e2 e3 [Rn Rk Rt Ro Rl [Rq1 Rq2]] Eload Hst Hfr.
    pose proof (reap_spec s K p z o l frame ptr e1 e2 e3 Hf Ho (first_zombie_in s K p Hz) Rk Rn Rt Eload Hst Hfr) as Hreap.
    assert (wp (syscall_wait frame sp) s (λ r s', r = SDone (pid o) ∧ ∃ ps,
      s' = set_env e3 (set_thread_at (del_all l (thread_at s)) (set_process_at (delete z ps) s)) ∧ kin_only (process_at s) ps ∧
      forest (delete z ps) (<[p := filter (λ x, x ≠ z) (K p)]> K))) as (r & s' & Er & -> & ps & -> & Hk & Hf')%wp_iff.
    { eapply wait_prologue; [done..|]. unfold wait_turn, wait_check. wp_step. wp_step. eapply wp_mono; [exact Hfind|]. cbv beta.
      intros r s1 (-> & ->). rewrite (proj2 (Z.eqb_neq z 0)) by done. cbn [negb]. wp_step. eapply wp_mono; [exact Hreap|]. cbv beta.
      intros r s1 (-> & Hr). apply wp_ret, wp_ret. done. }
    eexists. split; [exact Er|]. split; [exact Hf'|]. split; [by apply tasks_reap|]. split; [apply lookup_delete_eq|].
    split; [|done]. intros x. apply lookup_del_all.
  - intros Hz HK. apply wp_eq. eapply wait_prologue; [done..|]. unfold wait_turn, wait_check. wp_step. wp_step.
    eapply wp_mono; [exact Hfind|]. cbv beta. intros r s1 (-> & ->). rewrite Hz. cbn [negb Z.eqb]. destruct Hp as [op Ep].
    wp_step. eapply wp_process; [exact Ep|]. rewrite (forest_first s K p op Hf Ep), HK. by apply wp_ret, wp_ret.
  - intros Hz HK Hcb. destruct Hp as [op Ep].
    assert (wp (syscall_wait frame sp) s (λ r s', r = SBlocked (KWait frame) ∧ blocked s R Q (QChildExit p) sp s'))
      as (r & s' & Er & -> & Hb)%wp_iff; [|eauto].
    eapply wait_prologue; [done..|]. unfold wait_turn, wait_check. wp_step. wp_step.
    eapply wp_mono; [exact Hfind|]. cbv beta. intros r s1 (-> & ->). rewrite Hz. cbn [negb Z.eqb].
    wp_step. eapply wp_process; [exact Ep|]. rewrite (forest_first s K p op Hf Ep).
    destruct (K p) as [|x l] eqn:EK; [done|]. assert (x ∈ K p) as Hx by (rewrite EK; left).
    destruct (forest_child _ _ _ _ Hf Hx) as [Hx0 _]. change (default 0 (head (x :: l))) with x. rewrite (proj2 (Z.eqb_neq x 0)) by done.
    apply wp_ret. unfold wait_block. wp_step. apply wp_modify. wp_step.
    eapply wp_mono; [apply (PROC_block_on_spec _ R Q (QChildExit p) true sp); [by apply can_block_env|apply fmap_is_Some; by exists op]|].
    cbv beta. intros _ s1 Hb. apply wp_ret. split; [done|]. by eapply blocked_env.
Qed.
End theorems.

(** ** Example: the first thread of 0x5000 waits for its zombie child 0x5100 *)

Definition toy_parent : kst toy :=
  set_process_at {[ 0x8000 := kin_process 0 0 0x5000 0 0; 0x5000 := kin_process 1 0x8000 0x5100 0 0;
                    0x5100 := Process 2 0 0x5000 0 0 0x3000 0 7 1 1 (Queue 0 0) (Queue 0 0) ]}
    (set_thread_at (<[0x3000 := toy_thread 5 0x5100 PROC_ZOMBIE 0 0]> (thread_at toy_kernel))
       (set_env (Toy true 0x20000 0x50000 {[ 0x7f50 := 0x400 ]}) toy_kernel)).

Definition toy_parent_kids : gmap Z (list Z) := {[ 0x8000 := [0x5000]; 0x5000 := [0x5100] ]}.

Lemma toy_parent_forest : forest (process_at toy_parent) (kids_of toy_parent_kids).
Proof. apply forest_check; [apply (bool_decide_unpack _); vm_compute; exact I..|reflexivity]. Qed.

#[local] Instance queue_dec : EqDecision proc_queue.
Proof. solve_decision. Defined.

Lemma toy_parent_tasks : tasks toy_parent toy_ring (λ _, []).
Proof.
  apply tasks_quiet; [|apply (bool_decide_unpack _); vm_compute; exact I..|by vm_compute|reflexivity].
  split; try done.
  - repeat (constructor; [set_solver by lia|]). constructor.
  - split; [done|]. split; [lia|]. exists 0x2000. split; [done|]. split; [done|]. split; [lia|]. by exists 0x1000.
Qed.

Lemma toy_reapable :
  reapable toy_parent toy_ring (λ _, []) (kids_of toy_parent_kids) 0x5100 (Process 2 0 0x5000 0 0 0x3000 0 7 1 1 (Queue 0 0) (Queue 0 0)) [0x3000].
Proof.
  split; [reflexivity|reflexivity| | | |done].
  - eexists. split; [reflexivity|]. split; [by apply lsegb_ok|apply NoDup_singleton].
  - intros t c. revert t c. change (map_Forall (λ t c, owner c = 0x5100 → t ∈ [0x3000]) (thread_at toy_parent)).
    apply (bool_decide_unpack _). vm_compute. exact I.
  - intros t ->%list_elem_of_singleton. split; [apply (bool_decide_unpack _); vm_compute; exact I|intros q; apply not_elem_of_nil].
Qed.

Lemma syscall_wait_witness :
  ∃ s', syscall_wait 0x7f00 0x777 toy_parent = Ret (SDone 2, s') ∧ process_at s' !! 0x5100 = None ∧ thread_at s' !! 0x3000 = None ∧
    toy_words (env s') !! 0x400 = Some 7.
Proof.
  pose proof (syscall_wait_correct toy_parent toy_ring (λ _, []) (kids_of toy_parent_kids) (toy_thread 1 0x5000 PROC_RUNNING 0x2000 0x2000)
    0x7f00 0x777 toy_parent_tasks toy_parent_forest ltac:(done) eq_refl ltac:(done)) as [Hw _]. cbv zeta in Hw.
  assert (first_zombie toy_parent (kids_of toy_parent_kids (owner (toy_thread 1 0x5000 PROC_RUNNING 0x2000 0x2000))) = 0x5100) as Ez
    by (vm_compute; reflexivity). rewrite Ez in Hw.
  destruct (Hw ltac:(done) _ _ 0x400 (env toy_parent) (Toy true 0x20000 0x50000 {[ 0x7f50 := 0x400; 0x400 := 7 ]})
    (Toy true 0x20000 0x50000 {[ 0x7f50 := 0x400; 0x400 := 7 ]}) toy_reapable) as (s' & Er & _ & _ & Hp & Hth & He).
  - vm_compute. reflexivity.
  - vm_compute. reflexivity.
  - vm_compute. repeat eexists.
  - exists s'. split; [exact Er|]. split; [exact Hp|]. split; [rewrite Hth; reflexivity|]. rewrite He. reflexivity.
Defined.
