(* ===== verification/ExitProofs.v ===== *)
(** * The end of a process

    The threads of the process leave the scheduler as zombies, its mutexes are freed, its
    children pass to the kernel process, its address space goes, and the threads of the
    parent that wait for children are woken. *)

From stdpp Require Import functions.
From S2P Require Import Prelude Links Kernel RoundRobin TaskQueue TaskQueueProofs ProcessTree ProcessTreeProofs.
From S2P Require Import Mutex MutexProofs MutexSystem Multitask ProcessSyscalls WaitProofs.

Section exit.
Context {E : Type} {KE : KernelEnv E} {KL : KernelEnvLaws E} {TL : TaskLayout}.
Implicit Types (s : kst E) (R : rrq) (Q : qref → list Z) (K : Z → list Z) (L l : list Z) (e : E).

(** ** Threads become zombies *)

(** Only the threads' scheduling data and exit status changed. *)
Definition exit_core (t : thread_st) : thread_st := set_exit_status 0 (thread_core t).

Record exit_frame s s' : Prop := {
  ef_threads : keeps exit_core (thread_at s) (thread_at s');
  ef_rest : s' = with_sched s (thread_at s') (Head s') (Tail s') (Current s') (Count s')
}.

Lemma exit_frame_refl s : exit_frame s s.
Proof. split; [apply tkeeps_refl|by destruct s]. Qed.
Lemma exit_frame_trans s1 s2 s3 : exit_frame s1 s2 → exit_frame s2 s3 → exit_frame s1 s3.
Proof. intros [A1 A2] [B1 B2]. split; [by eapply tkeeps_trans|]. rewrite B2, A2. done. Qed.

Lemma exit_frame_sched s s' : sched_frame s s' → exit_frame s s'.
Proof. intros [H1 H2]. split; [|done]. by eapply keeps_sched. Qed.

Lemma exit_frame_thread s t c c' :
  thread_at s !! t = Some c → exit_core c' = exit_core c → exit_frame s (set_thread_at (<[t := c']> (thread_at s)) s).
Proof. intros Ht Hc. split; [by eapply keeps_insert|done]. Qed.

Lemma exit_frame_field {A} (f : thread_st → A) s s' p :
  (∀ t, f (exit_core t) = f t) → exit_frame s s' → f <$> thread_at s' !! p = f <$> thread_at s !! p.
Proof.
  intros Hf [H1 _]. specialize (H1 p). destruct (thread_at s' !! p) as [t'|], (thread_at s !! p) as [t|]; try done.
  cbn in *. apply (inj Some) in H1. f_equal. by rewrite <-(Hf t'), H1, Hf.
Qed.

(** A thread outside the scheduler becomes a zombie, in a queue or not. *)
Lemma tasks_zombie s R Q p t st :
  tasks s R Q → thread_at s !! p = Some t → p ∉ rr_list R →
  tasks (set_thread_at (<[p := set_exit_status st (set_run_state PROC_ZOMBIE t)]> (thread_at s)) s) R Q.
Proof.
  intros [H1 H2 H3 H4 H5 H6 H7 H8 H9] Et Hp. set (ts := <[p := _]> (thread_at s)).
  assert (∀ (A : Type) (f : thread_st → A), f (set_exit_status st (set_run_state PROC_ZOMBIE t)) = f t → keeps f (thread_at s) ts) as Hk
    by (intros A f Hf; by eapply keeps_insert).
  split; try done.
  - apply ring_keeps; [done|by apply Hk].
  - intros q v Hv. eapply queue_rep_keeps; [|by apply H2]. by apply Hk.
  - intros x Hx. cbn. unfold ts. rewrite lookup_insert_ne by (by intros ->). by apply H4.
  - intros q x Hx. cbn. unfold ts. destruct (decide (x = p)) as [->|]; [rewrite lookup_insert_eq; eauto|].
    rewrite lookup_insert_ne by done. by apply (H5 q).
  - intros x c. cbn. unfold ts. destruct (decide (x = p)) as [->|]; [rewrite lookup_insert_eq; intros [= <-]; exact (H7 p t Et)|].
    rewrite lookup_insert_ne by done. apply H7.
  - cbn. unfold ts. rewrite map_size_insert_Some; [done|eauto].
  - cbn. unfold ts. rewrite lookup_insert_ne; [done|]. intros ->. congruence.
Qed.

(** One turn of the loop. *)
Definition dead (status : Z) (t : thread_st) : thread_st :=
  if decide (run_state t = PROC_ZOMBIE) then t else set_exit_status status (set_run_state PROC_ZOMBIE t).

Lemma exit_one_spec s R Q t c status :
  tasks s R Q → t ≠ 0 → thread_at s !! t = Some c → (run_state c = PROC_READY ∨ run_state c = PROC_RUNNING → t ∈ rr_list R) →
  wp (if bool_decide (run_state c = PROC_ZOMBIE) then ret tt
      else
        (if bool_decide (run_state c = PROC_READY ∨ run_state c = PROC_RUNNING) then rr_remove t else ret tt) ;;
        upd_thread t (set_run_state PROC_ZOMBIE) ;;
        upd_thread t (set_exit_status status)) s (λ _ s', ∃ R',
    tasks s' R' Q ∧ exit_frame s s' ∧ rr_list R' = filter (λ x, x ≠ t) (rr_list R) ∧
    (∀ p, (λ x, (run_state x, exit_status x)) <$> thread_at s' !! p =
      if decide (p = t) then Some (run_state (dead status c), exit_status (dead status c)) else (λ x, (run_state x, exit_status x)) <$> thread_at s !! p)).
Proof.
  intros Ht Ht0 Ec Hrun. unfold dead. case_bool_decide as Hz; destruct (decide (run_state c = PROC_ZOMBIE)) as [Hd|Hd]; try done.
  { apply wp_ret. exists R. split; [done|]. split; [apply exit_frame_refl|]. split.
    - rewrite filter_ne_notin; [done|]. intros Hin. destruct (tk_ready _ _ _ Ht t Hin) as (c' & Ec' & Hs). simplify_eq.
      rewrite Hz in Hs. by destruct Hs.
    - intros p. case_decide as Ep; [subst; by rewrite Ec|done]. }
  wp_step. assert (wp (if bool_decide (run_state c = PROC_READY ∨ run_state c = PROC_RUNNING) then rr_remove t else ret tt) s
    (λ _ s1, ∃ R1, tasks s1 R1 Q ∧ sched_frame s s1 ∧ rr_list R1 = filter (λ x, x ≠ t) (rr_list R))) as Hrm.
  { case_bool_decide as Hr.
    - eapply wp_mono; [apply (rr_remove_spec s R t (tk_ring _ _ _ Ht) Ht0); auto|]. cbv beta. intros _ s1 [Hr1 Hf]. exists (q_remove t R).
      split; [|split; [done|by rewrite rr_list_remove]]. eapply (tasks_ring s); try done.
      + intros q. destruct Hf as [_ ->]. by destruct q.
      + intros x. by destruct Hf as [_ ->].
      + by eapply keeps_sched; [|apply Hf].
      + intros x. rewrite rr_list_remove, list_elem_of_filter. intros [_ Hin]. destruct (tk_ready _ _ _ Ht x Hin) as (c' & Ec' & Hs).
        destruct (keeps_lookup _ _ _ _ _ (keeps_sched run_state _ _ ltac:(done) (proj1 Hf)) Ec') as (c2 & Ec2 & E2). exists c2. by rewrite E2.
      + intros q x c' _ Ec'. by apply (keeps_lookup _ _ _ _ _ (keeps_sched run_state _ _ ltac:(done) (proj1 Hf))).
    - apply wp_ret. exists R. split; [done|]. split; [apply sched_frame_refl|]. rewrite filter_ne_notin; [done|].
      intros Hin. destruct (tk_ready _ _ _ Ht t Hin) as (c' & Ec' & Hs). by simplify_eq. }
  eapply wp_mono; [exact Hrm|]. cbv beta. intros _ s1 (R1 & Ht1 & Hf & El).
  destruct (keeps_lookup _ _ _ _ _ (keeps_sched (λ x, (run_state x, exit_status x, exit_core x)) _ _ ltac:(done) (proj1 Hf)) Ec) as (c1 & Ec1 & [= E1 E2 E3]).
  wp_step. eapply wp_upd_thread; [exact Ec1|]. eapply (wp_upd_thread t (set_run_state PROC_ZOMBIE c1)); [apply lookup_insert_eq|].
  cbn [thread_at set_thread_at]. rewrite insert_insert_eq. exists R1.
  split; [apply (tasks_zombie s1 R1 Q t c1 status Ht1 Ec1); rewrite El, list_elem_of_filter; naive_solver|].
  split; [eapply exit_frame_trans; [by apply exit_frame_sched|]; by eapply (exit_frame_thread s1 t c1)|]. split; [done|].
  intros p. cbn [thread_at set_thread_at]. destruct (decide (p = t)) as [->|Ep]; [by rewrite lookup_insert_eq|]. rewrite lookup_insert_ne by done.
  apply (keeps_sched (λ x, (run_state x, exit_status x)) _ _ ltac:(done) (proj1 Hf)).
Qed.

(** The state and the exit status of a thread. *)
Definition end_of (t : thread_st) : proc_state_t * Z := (run_state t, exit_status t).

Lemma exit_frame_next s s' : exit_frame s s' → ∀ p, next_of (thread_at s') p = next_of (thread_at s) p.
Proof. intros Hf p. by apply exit_frame_field. Qed.

Lemma filter_notin_nil (l : list Z) : filter (λ x, x ∉ []) l = l.
Proof. induction l as [|x l IH]; [done|]. rewrite filter_cons_True by apply not_elem_of_nil. by rewrite IH. Qed.

Lemma exit_threads_loop_spec fuel s R Q h l status :
  tasks s R Q → lseg (next_of (thread_at s)) h l 0 → NoDup l → (length l < fuel)%nat →
  (∀ t c, t ∈ l → thread_at s !! t = Some c → run_state c = PROC_READY ∨ run_state c = PROC_RUNNING → t ∈ rr_list R) →
  wp (exit_threads_loop fuel status h) s (λ _ s', ∃ R', tasks s' R' Q ∧ exit_frame s s' ∧ rr_list R' = filter (λ x, x ∉ l) (rr_list R) ∧
    ∀ p, end_of <$> thread_at s' !! p = if decide (p ∈ l) then (λ c, end_of (dead status c)) <$> thread_at s !! p else end_of <$> thread_at s !! p).
Proof.
  revert s R h l. induction fuel as [|fuel IH]; intros s R h l Ht Hl Hnd Hf Hrun; [lia|]. cbn [exit_threads_loop]. destruct l as [|t l].
  { cbn in Hl. subst. cbn [Z.eqb]. apply wp_ret. exists R. split; [done|]. split; [apply exit_frame_refl|]. split.
    - by rewrite filter_notin_nil.
    - intros p. by rewrite decide_False by apply not_elem_of_nil. }
  destruct Hl as (-> & Ht0 & n & Hn & Hl). apply NoDup_cons in Hnd as [Htl Hnd]. rewrite (proj2 (Z.eqb_neq t 0)) by done.
  unfold next_of in Hn. apply fmap_Some in Hn as (c & Ec & ->). wp_step. eapply wp_thread; [exact Ec|].
  wp_step. eapply wp_mono; [apply (exit_one_spec s R Q t c status Ht Ht0 Ec); intros Hr; apply (Hrun t c); [left|done|done]|]. cbv beta.
  intros _ s1 (R1 & Ht1 & Hf1 & El1 & Hst1). pose proof (exit_frame_next _ _ Hf1 t) as En. unfold next_of in En. rewrite Ec in En.
  apply fmap_Some in En as (c1 & Ec1 & En). wp_step. eapply wp_thread; [exact Ec1|]. rewrite <-En.
  eapply wp_mono; [apply (IH s1 R1 (next_thread c) l Ht1); [|done|cbn in Hf; lia|]|].
  - eapply lseg_ext; [|exact Hl]. intros x _. by apply exit_frame_next.
  - intros x cx Hx Ecx Hrx. rewrite El1. apply list_elem_of_filter. split; [by intros ->|].
    assert (x ≠ t) as Hxt by (by intros ->). specialize (Hst1 x). rewrite decide_False, Ecx in Hst1 by done.
    destruct (thread_at s !! x) as [c0|] eqn:Ec0; [|done]. injection Hst1 as E1 _. apply (Hrun x c0); [by right|done|by rewrite <-E1].
  - cbv beta. intros _ s2 (R2 & Ht2 & Hf2 & El2 & Hst2). exists R2. split; [done|]. split; [by eapply exit_frame_trans|]. split.
    + rewrite El2, El1, list_filter_filter. apply list_filter_iff. intros x. rewrite not_elem_of_cons. tauto.
    + intros p. rewrite Hst2. destruct (decide (p = t)) as [->|Hpt].
      * rewrite (decide_False _ _ Htl), decide_True by left. specialize (Hst1 t). rewrite decide_True in Hst1 by done. rewrite Ec. exact Hst1.
      * specialize (Hst1 p). rewrite decide_False in Hst1 by done. destruct (decide (p ∈ l)) as [Hp|Hp].
        -- rewrite decide_True by (by right). destruct (thread_at s1 !! p) as [x1|], (thread_at s !! p) as [x|]; try done.
           cbn in *. injection Hst1 as E1 E2. unfold dead, end_of. rewrite E1. by case_decide; cbn; rewrite ?E1, ?E2.
        -- rewrite decide_False by (by intros [?|?]%elem_of_cons). exact Hst1.
Qed.

(** ** The mutexes of a process are freed *)

Definition mtag (x : kernel_mutex_st) : Z * Z * Z := (mutex_id x, owner_process x, owner_thread x).

(** The mutexes [D] are gone; threads and processes keep all but their places in queues. *)
Record mutexes_gone s s' (D : list Z) : Prop := {
  mg_threads : keeps thread_core (thread_at s) (thread_at s');
  mg_state : keeps run_state (thread_at s) (thread_at s');
  mg_process p : process_core <$> process_at s' !! p = process_core <$> process_at s !! p;
  mg_vars : (curr_proc s', next_proc s', next_pid s', next_tid s', multitask_started s', next_mutex_id s', rsp0 s')
    = (curr_proc s, next_proc s, next_pid s, next_tid s, multitask_started s, next_mutex_id s, rsp0 s);
  mg_mutex m : mtag <$> mutex_at s' !! m = if decide (m ∈ D) then None else mtag <$> mutex_at s !! m
}.

Lemma mutexes_gone_refl s : mutexes_gone s s [].
Proof. by split. Qed.

Lemma mutexes_gone_trans s1 s2 s3 D1 D2 : mutexes_gone s1 s2 D1 → mutexes_gone s2 s3 D2 → mutexes_gone s1 s3 (D1 ++ D2).
Proof.
  intros [A1 A2 A3 A4 A5] [B1 B2 B3 B4 B5]. split.
  - by eapply tkeeps_trans.
  - by eapply tkeeps_trans.
  - intros p. by rewrite B3.
  - by rewrite B4.
  - intros m. rewrite B5, A5. destruct (decide (m ∈ D2)) as [H2|H2]; [rewrite decide_True; [done|]; apply elem_of_app; by right|].
    destruct (decide (m ∈ D1)) as [H1|H1]; [rewrite decide_True; [done|]; apply elem_of_app; by left|].
    rewrite decide_False; [done|]. by intros [?|?]%elem_of_app.
Qed.

Lemma wake_ok_gone s s' D t : mutexes_gone s s' D → wake_ok s' t = wake_ok s t.
Proof.
  intros [G1 G2 G3 _ _]. unfold wake_ok. specialize (G1 t). specialize (G2 t).
  destruct (thread_at s' !! t) as [c'|], (thread_at s !! t) as [c|]; try done. injection G2 as ->.
  assert (owner c' = owner c) as -> by (injection G1; congruence). specialize (G3 (owner c)).
  destruct (process_at s' !! owner c) as [o'|], (process_at s !! owner c) as [o|]; try done.
  assert (exiting o' = exiting o) as -> by (injection G3; congruence). done.
Qed.

(** Nobody alive waits: the queue is emptied and that is all. *)
Lemma unblock_dead_spec s R Q q :
  tasks s R Q → is_Some (queue_val s q) → (∀ t, t ∈ Q q → wake_ok s t = false) →
  wp (PROC_unblock_all (Some q)) s (λ _ s', tasks s' R (<[q := []]> Q) ∧ task_frame s s' ∧ keeps run_state (thread_at s) (thread_at s')).
Proof.
  intros Ht Hq Hdead. assert (awake s (Q q) = []) as Ea.
  { unfold awake. revert Hdead. generalize (Q q). intros l Hd. induction l as [|t l IH]; [done|].
    rewrite filter_cons_False by (rewrite Hd by left; done). apply IH. intros x Hx. apply Hd. by right. }
  eapply wp_mono; [by apply PROC_unblock_all_spec|]. cbv beta. rewrite Ea. intros _ s' (Hf & Ht' & Hst). split; [|split; [done|]].
  - replace R with (q_admits [] R); [done|]. destruct R as [a b]. unfold q_admits. cbn. by rewrite app_nil_r.
  - intros p. rewrite Hst. by rewrite decide_False by apply not_elem_of_nil.
Qed.

Lemma destroy_one_spec s R Q k1 m k2 e :
  tasks s R Q → mutexes s (k1 ++ m :: k2) → (∀ t, t ∈ Q (QMutex m) → wake_ok s t = false) →
  ke_kfree m (env s) = Ret (tt, e) →
  wp (unlink_mutex m ;; PROC_unblock_all (Some (QMutex m)) ;; free_mutex m) s (λ _ s',
    tasks s' R (<[QMutex m := []]> Q) ∧ mutexes s' (k1 ++ k2) ∧ mutexes_gone s s' [m] ∧ env s' = e).
Proof.
  intros Ht Hm Hdead He. assert (m ∈ k1 ++ m :: k2) as Hin by (apply elem_of_app; right; left).
  wp_step. eapply wp_mono; [by apply (unlink_mutex_spec s _ m Hm)|]. cbv beta. intros _ s1 (Hu & j1 & j2 & Ej & Hl).
  assert (k1 ++ k2 = j1 ++ j2) as Ek.
  { pose proof (ml_nodup _ _ Hm) as Hnd. rewrite <-(filter_ne_split m k1 k2 Hnd), Ej. rewrite Ej in Hnd. by apply filter_ne_split. }
  rewrite <-Ek in Hl. clear j1 j2 Ej Ek. pose proof (tasks_unlinked _ _ _ _ Ht Hu) as Ht1.
  destruct (mutexes_node _ _ _ Hm Hin) as (Hm0 & x & Ex).
  assert (is_Some (mutex_at s1 !! m)) as [x1 Ex1] by (apply (unlinked_some _ _ _ Hu); eauto).
  assert (∀ t, wake_ok s1 t = wake_ok s t) as Hw by (intros t; destruct Hu as [_ ->]; done).
  wp_step. eapply wp_mono; [apply (unblock_dead_spec s1 R Q (QMutex m) Ht1)|].
  { cbn. rewrite Ex1. eauto. }
  { intros t Htq. rewrite Hw. by apply Hdead. }
  cbv beta. intros _ s2 (Ht2 & Hf & Hk). unfold free_mutex. wp_step.
  assert (env s2 = env s) as Ee by (rewrite (tf_env _ _ Hf); destruct Hu as [_ ->]; done).
  eapply (wp_klift _ _ tt e); [by rewrite Ee|]. apply wp_modify.
  assert (∀ (A : Type) (f : kernel_mutex_st → A) m', (∀ y v, f (set_next v y) = f y) → (∀ y v, f (set_waiters v y) = f y) →
    f <$> mutex_at s2 !! m' = f <$> mutex_at s !! m') as Hfield.
  { intros A f m' H1 H2. rewrite <-(unlinked_field f s s1 m' H1 Hu). pose proof (tf_mutex _ _ Hf m') as Hc.
    destruct (mutex_at s2 !! m') as [y2|], (mutex_at s1 !! m') as [y1|]; try done. cbn in *. apply (inj Some) in Hc. f_equal.
    unfold mutex_core in Hc. by rewrite <-(H2 y2 (Queue 0 0)), Hc, H2. }
  pose proof (tf_vars _ _ Hf) as V. injection V as V1 V2 V3 V4 V5 V6 V7 V8. split; [|split; [|split; [|done]]].
  - apply tasks_drop_mutex; [by apply tasks_env|]. by rewrite fn_lookup_insert.
  - apply (mutexes_destroy s (set_env e s2)); [done|intros m'; by apply Hfield| |].
    + cbn. rewrite V7. destruct Hu as [_ ->]. done.
    + eapply lseg_ext; [|cbn; rewrite V6; exact Hl]. intros p _. unfold mutex_next. cbn. pose proof (tf_mutex _ _ Hf p) as Hc.
      destruct (mutex_at s2 !! p) as [y2|], (mutex_at s1 !! p) as [y1|]; try done. cbn in *. f_equal. injection Hc. congruence.
  - destruct Hu as [_ Es]. split.
    + eapply tkeeps_trans; [|exact (tf_threads _ _ Hf)]. rewrite Es. apply tkeeps_refl.
    + eapply tkeeps_trans; [|exact Hk]. rewrite Es. apply tkeeps_refl.
    + intros p. cbn. rewrite (tf_process _ _ Hf p). by rewrite Es.
    + cbn. rewrite V1, V2, V3, V4, V5, V7, V8, Es. done.
    + intros m'. cbn. case_decide as Hd; [apply list_elem_of_singleton in Hd as ->; by rewrite lookup_delete_eq|].
      rewrite lookup_delete_ne by (intros ->; apply Hd; by left). by apply Hfield.
Qed.

(** The process that owns a mutex. *)
Definition own s (m : Z) : option Z := owner_process <$> mutex_at s !! m.
Definition owned s (o : Z) (l : list Z) : list Z := filter (λ m, own s m = Some o) l.

Lemma own_gone s s' D m : mutexes_gone s s' D → m ∉ D → own s' m = own s m.
Proof.
  intros Hg Hm. pose proof (mg_mutex _ _ _ Hg m) as Ht. rewrite decide_False in Ht by done. unfold own.
  destruct (mutex_at s' !! m), (mutex_at s !! m); try done. cbn in *. f_equal. injection Ht. congruence.
Qed.

Lemma filter_ext_in (P P' : Z → Prop) `{!∀ x, Decision (P x), !∀ x, Decision (P' x)} l :
  (∀ x, x ∈ l → P x ↔ P' x) → filter P l = filter P' l.
Proof.
  induction l as [|x l IH]; intros HP; [done|]. rewrite !filter_cons, IH by (intros y Hy; apply HP; by right).
  pose proof (HP x ltac:(left)). repeat case_decide; tauto.
Qed.

Lemma owned_gone s s' D o l : mutexes_gone s s' D → (∀ m, m ∈ l → m ∉ D) → owned s' o l = owned s o l.
Proof. intros Hg Hd. apply filter_ext_in. intros m Hm. by rewrite (own_gone _ _ _ _ Hg) by auto. Qed.

(** The queues of the mutexes [D] are empty, the others as before. *)
Definition queues_gone Q Q' (D : list Z) : Prop :=
  ∀ q, Q' q = Q q ∨ (Q' q = [] ∧ ∃ m, m ∈ D ∧ q = QMutex m).

Lemma destroy_mutexes_loop_spec fuel s R Q P S o e :
  tasks s R Q → mutexes s (P ++ S) → (length S < fuel)%nat →
  (∀ m t, m ∈ owned s o S → t ∈ Q (QMutex m) → wake_ok s t = false) → frees (env s) (owned s o S) e →
  wp (destroy_mutexes_loop fuel o (default 0 (head S))) s (λ _ s', ∃ Q',
    tasks s' R Q' ∧ mutexes s' (P ++ filter (λ m, own s m ≠ Some o) S) ∧ mutexes_gone s s' (owned s o S) ∧
    queues_gone Q Q' (owned s o S) ∧ env s' = e).
Proof.
  revert s Q P S. induction fuel as [|fuel IH]; intros s Q P S Ht Hm Hlen Hdead Hfr; [lia|]. cbn [destroy_mutexes_loop].
  destruct S as [|x S].
  { apply wp_ret. exists Q. split; [done|]. split; [done|]. split; [apply mutexes_gone_refl|]. split; [by left|]. done. }
  cbn [head]. change (default 0 (Some x)) with x. assert (x ∈ P ++ x :: S) as Hin by (apply elem_of_app; right; left).
  destruct (mutexes_node _ _ _ Hm Hin) as (Hx0 & c & Ec). rewrite (proj2 (Z.eqb_neq x 0)) by done. wp_step. eapply wp_mutex; [exact Ec|].
  assert (next c = default 0 (head S)) as En.
  { pose proof (ml_list _ _ Hm) as Hl. apply lseg_app in Hl as (h & _ & _ & _ & n & Hn & Hl). unfold mutex_next in Hn. rewrite Ec in Hn.
    injection Hn as <-. by apply lseg_head in Hl. }
  assert (own s x = Some (owner_process c)) as Eo by (unfold own; by rewrite Ec). rewrite En.
  assert (x ∉ S) as HxS by (pose proof (ml_nodup _ _ Hm) as Hnd; by apply NoDup_app in Hnd as (_ & _ & [? _]%NoDup_cons)).
  unfold owned in Hdead, Hfr |- *. rewrite !filter_cons, Eo in *. destruct (owner_process c =? o) eqn:Eoc; bool_prop.
  - subst o. rewrite !(decide_True (P := Some _ = Some _)) in * by done. destruct Hfr as (e1 & He1 & Hfr).
    wp_step. eapply wp_mono; [apply (destroy_one_spec s R Q P x S e1 Ht Hm); [intros t; apply Hdead; left|done]|]. cbv beta.
    intros _ s1 (Ht1 & Hm1 & Hg1 & Ee1).
    assert (∀ m, m ∈ S → m ∉ [x]) as Hd1 by (intros m Hms ->%list_elem_of_singleton; done).
    pose proof (owned_gone _ _ _ (owner_process c) S Hg1 Hd1) as Eown. unfold owned in Eown.
    eapply wp_mono; [apply (IH s1 _ P S Ht1 Hm1); [cbn in Hlen; lia| |unfold owned; by rewrite Ee1, Eown]|].
    + unfold owned. rewrite Eown. intros m t Hmo. rewrite fn_lookup_insert_ne.
      * rewrite (wake_ok_gone _ _ _ _ Hg1). apply Hdead. by right.
      * intros [= ->]. by apply list_elem_of_filter in Hmo as [_ ?].
    + cbv beta. unfold owned. rewrite Eown. intros _ s2 (Q2 & Ht2 & Hm2 & Hg2 & Hq2 & Ee2). exists Q2. split; [done|].
      split; [|split; [by apply (mutexes_gone_trans s s1 s2 [x])|split; [|done]]].
      * rewrite decide_False by (intros Hne; by apply Hne). replace (filter (λ m, own s m ≠ Some (owner_process c)) S) with
          (filter (λ m, own s1 m ≠ Some (owner_process c)) S); [done|]. apply filter_ext_in. intros m Hms.
        by rewrite (own_gone _ _ _ _ Hg1) by auto.
      * intros q. destruct (Hq2 q) as [Eq|(Eq & m & Hmo & ->)]; [|right; split; [done|]; exists m; split; [by right|done]].
        destruct (decide (q = QMutex x)) as [->|Hne]; [right; rewrite Eq, fn_lookup_insert; split; [done|]; exists x; split; [left|done]|].
        left. by rewrite Eq, fn_lookup_insert_ne.
  - rewrite !(decide_False (P := Some _ = Some _)) in * by congruence. rewrite (decide_True (P := Some _ ≠ Some _)) by congruence.
    wp_step. apply wp_ret. eapply wp_mono; [apply (IH s Q (P ++ [x]) S Ht)|].
    + by rewrite <-(assoc_L app).
    + cbn in Hlen. lia.
    + done.
    + done.
    + cbv beta. intros _ s2 (Q2 & Ht2 & Hm2 & Hrest). exists Q2. split; [done|]. rewrite <-(assoc_L app) in Hm2. done.
Qed.

Lemma MUTEX_destroy_spec s R Q L o e1 :
  tasks s R Q → mutexes s L → o ≠ 0 → (∀ m t, m ∈ owned s o L → t ∈ Q (QMutex m) → wake_ok s t = false) →
  frees (ke_set_ints false (env s)) (owned s o L) e1 →
  wp (MUTEX_destroy_process_mutexes o) s (λ _ s', ∃ Q', tasks s' R Q' ∧ mutexes s' (filter (λ m, own s m ≠ Some o) L) ∧
    mutexes_gone s s' (owned s o L) ∧ queues_gone Q Q' (owned s o L) ∧ env s' = if ke_ints (env s) then ke_set_ints true e1 else e1).
Proof.
  intros Ht Hm Ho Hdead Hfr. unfold MUTEX_destroy_process_mutexes, are_interrupts_enabled. rewrite (proj2 (Z.eqb_neq o 0)) by done.
  wp_step. apply wp_gets. wp_step. apply cli_env. set (s0 := set_env _ s). wp_step. apply wp_gets. wp_step. apply wp_gets. wp_step.
  rewrite (lseg_head _ _ _ _ (ml_list _ _ Hm) : mutex_list s0 = _). pose proof (mutexes_length _ _ Hm) as Hlen.
  eapply wp_mono; [apply (destroy_mutexes_loop_spec _ s0 R Q [] L o e1); [by apply tasks_env|by apply mutexes_env|cbn; lia|done|done]|].
  cbv beta. intros _ s1 (Q1 & Ht1 & Hm1 & [G1 G2 G3 G4 G5] & Hq1 & Ee1).
  destruct (ke_ints (env s)); [apply wp_modify|apply wp_ret]; exists Q1.
  - split; [by apply tasks_env|]. split; [by apply mutexes_env|]. split; [by split|]. split; [done|]. cbn. by rewrite Ee1.
  - split; [done|]. split; [done|]. split; [by split|]. split; [done|]. done.
Qed.

(** ** The process itself *)

(** Changes of processes that keep their queues. *)
Lemma tasks_procs s R Q (ps : gmap Z process_st) :
  tasks s R Q → (∀ p, (λ o, (wait_child_exit o, wait_thread_exit o)) <$> ps !! p = (λ o, (wait_child_exit o, wait_thread_exit o)) <$> process_at s !! p) →
  tasks (set_process_at ps s) R Q.
Proof.
  intros [H1 H2 H3 H4 H5 H6 H7 H8 H9] Hps.
  assert (∀ q, queue_val (set_process_at ps s) q = queue_val s q) as Hq.
  { intros [p|p|m|a]; cbn; try done; specialize (Hps p); destruct (ps !! p), (process_at s !! p); try done; cbn in *; congruence. }
  split; try done.
  - intros q. rewrite Hq. apply H2.
  - intros q. rewrite Hq. apply H3.
  - intros p t Et. destruct (H7 p t Et) as [?|[o Ho]]; [by left|right]. cbn. specialize (Hps (owner t)). rewrite Ho in Hps.
    destruct (ps !! owner t); [eauto|done].
Qed.

Definition kin_of (o : process_st) : Z * Z * Z := (first_child o, next_sibling o, parent o).

Lemma forest_same (ps ps' : gmap Z process_st) K :
  (∀ p, kin_of <$> ps' !! p = kin_of <$> ps !! p) → forest ps K → forest ps' K.
Proof.
  intros Hk. apply family_ext; [| | |done]; intros p; unfold fc_of, sb_of, pr_of; specialize (Hk p);
    destruct (ps' !! p), (ps !! p); try done; cbn in *; unfold kin_of in Hk; congruence.
Qed.

(** A process at its end, with page tables [c]. *)
Definition ended (status c : Z) (o : process_st) : process_st :=
  set_cr3 c (set_p_exit_status status (set_zombie 1 (set_exiting 1 o))).

Lemma destroy_space_spec s o po e4 :
  o ≠ 0 → process_at s !! o = Some po →
  let e := env s in
  (if (cr3 po =? 0) || (cr3 po =? ke_kernel_p4 e) then e4 = e
   else ∃ e3, ke_switch_p4 (ke_kernel_p4 e) e = Ret (tt, e3) ∧ ke_destroy_userspace (cr3 po) e3 = Ret (tt, e4)) →
  wp (destroy_process_address_space o) s (λ _ s', s' = set_env e4 (set_process_at
    (<[o := set_cr3 (if (cr3 po =? 0) || (cr3 po =? ke_kernel_p4 e) then cr3 po else 0) po]> (process_at s)) s)).
Proof.
  intros Ho Eo e He. unfold destroy_process_address_space. rewrite (proj2 (Z.eqb_neq o 0)) by done.
  wp_step. eapply wp_process; [exact Eo|]. wp_step. apply wp_gets. fold e. destruct ((cr3 po =? 0) || (cr3 po =? ke_kernel_p4 e)).
  - apply wp_ret. rewrite He. assert (<[o := set_cr3 (cr3 po) po]> (process_at s) = process_at s) as ->; [|by destruct s].
    apply insert_id. rewrite Eo. by destruct po.
  - destruct He as (e3 & H3 & H4). wp_step. eapply wp_klift; [exact H3|]. wp_step. eapply (wp_upd_process o po); [done|].
    eapply wp_klift; [exact H4|]. done.
Qed.

(** What the heap and the memory manager do: the mutexes are freed with interrupts off,
    then the address space goes, unless it is the kernel's. *)
Definition teardown_env s o (po : process_st) L e2 e4 : Prop :=
  ∃ e1, frees (ke_set_ints false (env s)) (owned s o L) e1 ∧ e2 = (if ke_ints (env s) then ke_set_ints true e1 else e1) ∧
  if (cr3 po =? 0) || (cr3 po =? ke_kernel_p4 e2) then e4 = e2
  else ∃ e3, ke_switch_p4 (ke_kernel_p4 e2) e2 = Ret (tt, e3) ∧ ke_destroy_userspace (cr3 po) e3 = Ret (tt, e4).

Definition cr3_after (po : process_st) e2 : Z := if (cr3 po =? 0) || (cr3 po =? ke_kernel_p4 e2) then cr3 po else 0.

(** The threads that are woken. *)
Definition woken s Q (po : process_st) : list Z := if parent po =? 0 then [] else awake s (Q (QChildExit (parent po))).

(** A process without its place in the tree and its queues. *)
Definition pview (o : process_st) : process_st := no_kin (process_core o).

Record torn_down s s' R Q K L o (po : process_st) status e2 e4 R' Q' : Prop := {
  td_tasks : tasks s' R' Q';
  td_ring : rr_list R' = rr_list R ++ woken s Q po;
  td_forest : forest (process_at s') (<[o := []]> (<[kernel_process := K o ++ K kernel_process]> K));
  td_mutexes : mutexes s' (filter (λ m, own s m ≠ Some o) L);
  td_threads : keeps thread_core (thread_at s) (thread_at s');
  td_state p : run_state <$> thread_at s' !! p = if decide (p ∈ woken s Q po) then Some PROC_READY else run_state <$> thread_at s !! p;
  td_process p : pview <$> process_at s' !! p = if decide (p = o) then Some (pview (ended status (cr3_after po e2) po)) else pview <$> process_at s !! p;
  td_vars : (curr_proc s', multitask_started s') = (curr_proc s, multitask_started s);
  td_queues q : Q' q = Q q ∨ Q' q = [];
  td_env : env s' = e4
}.

(** The process is marked, and its children are handed over. *)
Lemma mark_spec s K o po status :
  forest (process_at s) K → o ≠ 0 → o ≠ kernel_process → process_at s !! o = Some po → is_Some (process_at s !! kernel_process) → o ∉ K o →
  wp (upd_process o (set_exiting 1) ;; upd_process o (set_zombie 1) ;; upd_process o (set_p_exit_status status) ;; PROC_reparent_children o) s
    (λ _ s', ∃ ps, s' = set_process_at ps s ∧ forest ps (<[o := []]> (<[kernel_process := K o ++ K kernel_process]> K)) ∧
      pr_of ps o = Some (parent po) ∧ kin_only (<[o := ended status (cr3 po) po]> (process_at s)) ps).
Proof.
  intros Hf Ho Hok Eo Hk Hno. wp_step. eapply wp_upd_process; [exact Eo|].
  wp_step. eapply wp_upd_process; [apply lookup_insert_eq|]. cbn [process_at set_process_at]. rewrite insert_insert_eq.
  wp_step. eapply wp_upd_process; [apply lookup_insert_eq|]. cbn [process_at set_process_at]. rewrite insert_insert_eq.
  set (po' := set_p_exit_status status _). assert (po' = ended status (cr3 po) po) as Epo by (unfold po', ended; by destruct po).
  set (ps1 := <[o := po']> (process_at s)).
  assert (∀ p, kin_of <$> ps1 !! p = kin_of <$> process_at s !! p) as Hkin.
  { intros p. unfold ps1. destruct (decide (p = o)) as [->|]; [by rewrite lookup_insert_eq, Eo|by rewrite lookup_insert_ne]. }
  assert (∀ p, is_Some (process_at s !! p) → is_Some (ps1 !! p)) as Hsome.
  { intros p Hp. specialize (Hkin p). destruct Hp as [x Hx]. rewrite Hx in Hkin. destruct (ps1 !! p); [eauto|done]. }
  eapply wp_mono; [apply (PROC_reparent_children_spec (set_process_at ps1 s) K o); try done|]; [by eapply forest_same|apply Hsome; eauto|by apply Hsome|].
  cbv beta. intros _ s' [(ps & -> & Hk' & Hf') Hpr]. exists ps. split; [done|]. split; [done|]. split.
  - specialize (Hpr o Hno). cbn in Hpr. rewrite Hpr. unfold pr_of, ps1. by rewrite lookup_insert_eq.
  - rewrite <-Epo. exact Hk'.
Qed.

Lemma wp_seq4 {S A} (c1 c2 c3 c4 : M S unit) (h : M S A) (x : S) (P : A → S → Prop) :
  wp (c1 ;; c2 ;; c3 ;; c4) x (λ _ y, wp h y P) → wp (c1 ;; c2 ;; c3 ;; c4 ;; h) x P.
Proof.
  unfold wp, bind. destruct (c1 x) as [[[] x1]| |]; try done. destruct (c2 x1) as [[[] x2]| |]; try done.
  destruct (c3 x2) as [[[] x3]| |]; try done. by destruct (c4 x3) as [[[] x4]| |].
Qed.

(** A thread of a process that exits cannot be woken. *)
Lemma wake_exiting s t c o : thread_at s !! t = Some c → process_at s !! owner c = Some o → owner c ≠ 0 → exiting o ≠ 0 → wake_ok s t = false.
Proof.
  intros Et Eo H0 Hx. unfold wake_ok. rewrite Et, Eo, (proj2 (Z.eqb_neq _ 0)), (proj2 (Z.eqb_neq (exiting o) 0)) by done.
  by rewrite andb_false_r.
Qed.

(** Threads of other processes are as alive as before. *)
Lemma wake_other s s' t c o :
  (λ x, (run_state x, owner x)) <$> thread_at s' !! t = (λ x, (run_state x, owner x)) <$> thread_at s !! t →
  thread_at s !! t = Some c → owner c ≠ o → (∀ p, p ≠ o → exiting <$> process_at s' !! p = exiting <$> process_at s !! p) →
  wake_ok s' t = wake_ok s t.
Proof.
  intros Hth Et Hne Hpr. unfold wake_ok. rewrite Et in *. destruct (thread_at s' !! t) as [c'|]; [|done]. injection Hth as -> ->.
  specialize (Hpr (owner c) Hne). destruct (process_at s' !! owner c) as [y'|], (process_at s !! owner c) as [y|]; try done. by injection Hpr as ->.
Qed.

(** The parent's threads that wait for children are woken. *)
Lemma teardown_wake s s4 R Q Q4 K L o po status e2 e4 :
  tasks s R Q → tasks s4 R Q4 → forest (process_at s4) (<[o := []]> (<[kernel_process := K o ++ K kernel_process]> K)) →
  mutexes s4 (filter (λ m, own s m ≠ Some o) L) →
  keeps thread_core (thread_at s) (thread_at s4) → keeps run_state (thread_at s) (thread_at s4) →
  (∀ p, pview <$> process_at s4 !! p = if decide (p = o) then Some (pview (ended status (cr3_after po e2) po)) else pview <$> process_at s !! p) →
  (curr_proc s4, multitask_started s4) = (curr_proc s, multitask_started s) → (∀ q, Q4 q = Q q ∨ Q4 q = []) →
  Q4 (QChildExit (parent po)) = Q (QChildExit (parent po)) → env s4 = e4 → pr_of (process_at s4) o = Some (parent po) →
  (parent po = 0 ∨ is_Some (process_at s4 !! parent po)) →
  (∀ t c, t ∈ Q (QChildExit (parent po)) → thread_at s !! t = Some c → owner c ≠ o) →
  wp (x <- process o ;; if parent x =? 0 then ret tt else PROC_unblock_all (Some (QChildExit (parent x)))) s4
    (λ _ s', ∃ R' Q', torn_down s s' R Q K L o po status e2 e4 R' Q').
Proof.
  intros Ht Ht4 Hf4 Hm4 Hth Hst Hpv Hv Hq Hqp He Hpr Hpp Hcw. unfold pr_of in Hpr. apply fmap_Some in Hpr as (x & Ex & Epp).
  wp_step. eapply wp_process; [exact Ex|]. rewrite <-Epp. unfold woken in *. destruct (parent po =? 0) eqn:E0; bool_prop.
  { apply wp_ret. exists R, Q4. split; try done; unfold woken; rewrite E0; cbn [Z.eqb].
    - by rewrite app_nil_r.
    - intros p. rewrite decide_False by apply not_elem_of_nil. apply Hst. }
  assert (awake s4 (Q4 (QChildExit (parent po))) = awake s (Q (QChildExit (parent po)))) as Ea.
  { rewrite Hqp. apply awake_ext. intros t Htq. destruct (tk_waiting _ _ _ Ht _ _ Htq) as (c & Ec & _).
    apply (wake_other s s4 t c o); [|done|by apply (Hcw t c)|].
    - specialize (Hth t). specialize (Hst t). destruct (thread_at s4 !! t), (thread_at s !! t); try done. cbn in *. f_equal. injection Hth. congruence.
    - intros p Hp. specialize (Hpv p). rewrite decide_False in Hpv by done. destruct (process_at s4 !! p), (process_at s !! p); try done.
      cbn in *. f_equal. injection Hpv. congruence. }
  destruct Hpp as [?|Hpp]; [done|].
  eapply wp_mono; [apply (PROC_unblock_all_spec s4 R Q4 (QChildExit (parent po)) Ht4); by apply fmap_is_Some|]. cbv beta.
  intros _ s5 (Hf5 & Ht5 & Hst5). rewrite Ea in *. pose proof (tf_vars _ _ Hf5) as V. injection V as V1 V2 V3 V4 V5 V6 V7 V8.
  exists (q_admits (awake s (Q (QChildExit (parent po)))) R), (<[QChildExit (parent po) := []]> Q4).
  split; unfold woken; rewrite ?(proj2 (Z.eqb_neq (parent po) 0)) by done.
  - done.
  - unfold q_admits, rr_list. cbn. by rewrite (assoc_L app).
  - eapply forest_same; [|exact Hf4]. intros p. pose proof (tf_process _ _ Hf5 p) as Hp. destruct (process_at s5 !! p), (process_at s4 !! p); try done.
    cbn in *. unfold kin_of. f_equal. injection Hp. congruence.
  - eapply mutexes_frame; [|done|done|exact Hm4]. intros m. apply mutex_core_sig, Hf5.
  - eapply tkeeps_trans; [exact Hth|apply Hf5].
  - intros p. rewrite Hst5. by rewrite (Hst p).
  - intros p. rewrite <-Hpv. pose proof (tf_process _ _ Hf5 p) as Hp. destruct (process_at s5 !! p), (process_at s4 !! p); try done.
    cbn in *. unfold pview. apply (inj Some) in Hp. by rewrite Hp.
  - by rewrite V1, V5.
  - intros q. destruct (decide (q = QChildExit (parent po))) as [->|]; [rewrite fn_lookup_insert; by right|by rewrite fn_lookup_insert_ne].
  - by rewrite (tf_env _ _ Hf5).
Qed.

Lemma process_teardown_spec s R Q K L o po status e2 e4 :
  tasks s R Q → forest (process_at s) K → mutexes s L → o ≠ 0 → o ≠ kernel_process → process_at s !! o = Some po → zombie po = 0 →
  is_Some (process_at s !! kernel_process) → o ∉ K o → (parent po = 0 ∨ is_Some (process_at s !! parent po)) →
  (∀ m t c, m ∈ owned s o L → t ∈ Q (QMutex m) → thread_at s !! t = Some c → owner c = o) →
  (∀ t c, t ∈ Q (QChildExit (parent po)) → thread_at s !! t = Some c → owner c ≠ o) →
  teardown_env s o po L e2 e4 →
  wp (process_teardown o status) s (λ _ s', ∃ R' Q', torn_down s s' R Q K L o po status e2 e4 R' Q').
Proof.
  intros Ht Hf Hm Ho Hok Eo Hz Hkp Hno Hpp Hmw Hcw (e1 & Hfr & Ee2 & Hsp). unfold process_teardown.
  rewrite (proj2 (Z.eqb_neq o 0)) by done. wp_step. eapply wp_process; [exact Eo|]. rewrite Hz. cbn [negb Z.eqb].
  apply wp_seq4. eapply wp_mono; [by apply (mark_spec s K o po status Hf)|]. cbv beta. intros _ s2 (ps & -> & Hf2 & Hpr & Hk2).
  set (s2 := set_process_at ps s).
  assert (∀ p, no_kin <$> ps !! p = if decide (p = o) then Some (no_kin (ended status (cr3 po) po)) else no_kin <$> process_at s !! p) as Hps.
  { intros p. rewrite (Hk2 p). case_decide; [subst; by rewrite lookup_insert_eq|by rewrite lookup_insert_ne]. }
  assert (tasks s2 R Q) as Ht2.
  { apply tasks_procs; [done|]. intros p. specialize (Hps p). case_decide as Ep; [subst p; rewrite Eo|]; destruct (ps !! _) as [x|]; try done.
    - apply (inj Some) in Hps. cbn. f_equal. injection Hps. congruence.
    - destruct (process_at s !! p) as [y|]; [|done]. apply (inj Some) in Hps. cbn. f_equal. injection Hps. congruence.
    - by destruct (process_at s !! p). }
  assert (∃ x, ps !! o = Some x ∧ no_kin x = no_kin (ended status (cr3 po) po)) as (po2 & Eo2 & Hpo2).
  { specialize (Hps o). rewrite decide_True in Hps by done. destruct (ps !! o) as [x|]; [|done]. exists x. split; [done|]. by apply (inj Some). }
  assert (exiting po2 = 1 ∧ cr3 po2 = cr3 po) as [Hx2 Hc2] by (injection Hpo2; auto).
  wp_step. eapply wp_mono; [apply (MUTEX_destroy_spec s2 R Q L o e1 Ht2)|]; [by destruct Hm; split|done| |done|].
  { intros m t Hmo Htq. destruct (tk_waiting _ _ _ Ht _ _ Htq) as (c & Ec & _). pose proof (Hmw m t c Hmo Htq Ec) as Hco.
    apply (wake_exiting s2 t c po2); [done|by rewrite Hco|by rewrite Hco|by rewrite Hx2]. }
  cbv beta. intros _ s3 (Q3 & Ht3 & Hm3 & Hg3 & Hq3 & Ee3). cbn [env s2 set_process_at] in Ee3. change (env s2) with (env s) in Ee3. rewrite <-Ee2 in Ee3.
  pose proof (mg_process _ _ _ Hg3 o) as Hp3. change (process_at s2) with ps in Hp3. rewrite Eo2 in Hp3.
  apply fmap_Some_1 in Hp3 as (po3 & Eo3 & Hpo3). rewrite <-Ee3 in Hsp.
  assert (cr3 po3 = cr3 po ∧ parent po3 = parent po2) as [Hc3 Hpar3] by (rewrite <-Hc2; injection Hpo3; auto).
  wp_step. eapply wp_mono; [apply (destroy_space_spec s3 o po3 e4 Ho Eo3); by rewrite Hc3|]. cbv beta. rewrite Hc3, Ee3. fold (cr3_after po e2).
  intros _ s4 ->. set (s4 := set_env _ _).
  assert (∀ (A : Type) (f : process_st → A) p, (∀ y, f (process_core y) = f y) → (∀ y v, f (set_cr3 v y) = f y) →
    f <$> process_at s4 !! p = f <$> ps !! p) as Hfield.
  { intros A f p H1 H2. transitivity (f <$> process_at s3 !! p); [cbn; destruct (decide (p = o)) as [->|];
      [by rewrite lookup_insert_eq, Eo3; cbn; rewrite H2|by rewrite lookup_insert_ne]|].
    pose proof (mg_process _ _ _ Hg3 p) as Hp. change (process_at s2) with ps in Hp. destruct (process_at s3 !! p), (ps !! p); try done.
    cbn in *. apply (inj Some) in Hp. f_equal. by rewrite <-(H1 p0), Hp, H1. }
  assert (Q3 (QChildExit (parent po)) = Q (QChildExit (parent po))) as Hq3p by (destruct (Hq3 (QChildExit (parent po))) as [?|(_ & m & _ & ?)]; done).
  eapply (teardown_wake s s4 R Q Q3 K L o po status e2 e4 Ht); try done.
  - apply tasks_env, tasks_procs; [done|]. intros p. destruct (decide (p = o)) as [->|]; [by rewrite lookup_insert_eq, Eo3|by rewrite lookup_insert_ne].
  - eapply forest_same; [|exact Hf2]. intros p. by apply Hfield.
  - by destruct Hm3; split.
  - exact (mg_threads _ _ _ Hg3).
  - exact (mg_state _ _ _ Hg3).
  - intros p. destruct (decide (p = o)) as [->|Hp].
    + cbn. rewrite lookup_insert_eq. cbn. f_equal. unfold pview.
      assert (no_kin (process_core po3) = no_kin (process_core po2)) as E3 by (by rewrite Hpo3).
      assert (no_kin (process_core po2) = no_kin (process_core (ended status (cr3 po) po))) as E2.
      { change (process_core (no_kin po2) = process_core (no_kin (ended status (cr3 po) po))). by rewrite Hpo2. }
      rewrite E2 in E3. change (set_cr3 (cr3_after po e2) (no_kin (process_core po3)) = no_kin (process_core (ended status (cr3_after po e2) po))).
      by rewrite E3.
    + cbn. rewrite lookup_insert_ne by done. specialize (Hps p). rewrite decide_False in Hps by done.
      pose proof (mg_process _ _ _ Hg3 p) as Hp3. change (process_at s2) with ps in Hp3. unfold pview.
      destruct (process_at s3 !! p), (ps !! p), (process_at s !! p); try done. cbn in *. apply (inj Some) in Hps, Hp3. f_equal.
      rewrite Hp3. change (process_core (no_kin p1) = process_core (no_kin p2)). by rewrite Hps.
  - pose proof (mg_vars _ _ _ Hg3) as V. cbn in V. cbn. congruence.
  - intros q. destruct (Hq3 q) as [?|[? _]]; auto.
  - unfold pr_of. rewrite Hfield by done. exact Hpr.
  - destruct Hpp as [?|[pp Epp]]; [by left|right]. apply (fmap_is_Some kin_of). rewrite Hfield by done. apply fmap_is_Some.
    specialize (Hps (parent po)). destruct (ps !! parent po); [eauto|]. exfalso. case_decide; [done|]. by rewrite Epp in Hps.
Qed.

(** ** The whole exit *)

Record exit_ok s R Q K L o (po : process_st) l : Prop := {
  xo_node : process_at s !! o = Some po;
  xo_nonzero : o ≠ 0 ∧ o ≠ kernel_process;
  xo_kernel : is_Some (process_at s !! kernel_process);
  xo_alive : zombie po = 0;
  xo_self : o ∉ K o;
  xo_parent : parent po = 0 ∨ is_Some (process_at s !! parent po);
  xo_threads : has_threads s o l;
  xo_owner t c : t ∈ l → thread_at s !! t = Some c → owner c = o;
  xo_run t c : t ∈ l → thread_at s !! t = Some c → run_state c = PROC_READY ∨ run_state c = PROC_RUNNING → t ∈ rr_list R;
  xo_mutex m t c : m ∈ owned s o L → t ∈ Q (QMutex m) → thread_at s !! t = Some c → owner c = o;
  xo_join t c : t ∈ Q (QThreadExit o) → thread_at s !! t = Some c → owner c = o;
  xo_wait t c : t ∈ Q (QChildExit (parent po)) → thread_at s !! t = Some c → owner c ≠ o
}.

(** The process and its threads before the teardown. *)
Lemma exit_threads_done s R Q K L o po l status :
  tasks s R Q → forest (process_at s) K → mutexes s L → exit_ok s R Q K L o po l →
  wp (upd_process o (set_exiting 1) ;; n <- gets (λ s, size (thread_at s)) ;; exit_threads_loop (S n) status (threads po) ;;
      upd_process o (set_live_threads 0)) s (λ _ s', ∃ R', tasks s' R' Q ∧ rr_list R' = filter (λ x, x ∉ l) (rr_list R) ∧
    process_at s' = <[o := set_live_threads 0 (set_exiting 1 po)]> (process_at s) ∧
    mutex_at s' = mutex_at s ∧ mutex_list s' = mutex_list s ∧ next_mutex_id s' = next_mutex_id s ∧ env s' = env s ∧
    (curr_proc s', multitask_started s') = (curr_proc s, multitask_started s) ∧
    (∀ t, owner <$> thread_at s' !! t = owner <$> thread_at s !! t) ∧
    ∀ t, run_state <$> thread_at s' !! t = if decide (t ∈ l) then Some PROC_ZOMBIE else run_state <$> thread_at s !! t).
Proof.
  intros Ht Hf Hm Hx. pose proof (xo_node _ _ _ _ _ _ _ _ Hx) as Eo. wp_step. eapply wp_upd_process; [exact Eo|].
  set (s1 := set_process_at _ s). wp_step. apply wp_gets. wp_step.
  assert (tasks s1 R Q) as Ht1.
  { apply tasks_procs; [done|]. intros p. destruct (decide (p = o)) as [->|]; [by rewrite lookup_insert_eq, Eo|by rewrite lookup_insert_ne]. }
  pose proof (has_threads_length _ _ _ (xo_threads _ _ _ _ _ _ _ _ Hx)) as Hlen.
  destruct (xo_threads _ _ _ _ _ _ _ _ Hx) as (po' & Eo' & Hl & Hnd). assert (po' = po) as -> by congruence.
  eapply wp_mono; [apply (exit_threads_loop_spec _ s1 R Q (threads po) l status Ht1 Hl Hnd); [cbn; lia|apply Hx]|]. cbv beta.
  intros _ s2 (R2 & Ht2 & [F1 F2] & El & Hst). assert (process_at s2 = process_at s1) as Ep by (by rewrite F2).
  eapply wp_upd_process; [rewrite Ep; apply lookup_insert_eq|]. set (s3 := set_process_at _ s2). exists R2.
  split; [|split; [done|split; [|split; [|split; [|split; [|split; [|split; [|split]]]]]]]].
  - apply tasks_procs; [done|]. intros p. rewrite Ep. unfold s1. cbn. rewrite insert_insert_eq.
    destruct (decide (p = o)) as [->|]; [by rewrite !lookup_insert_eq|by rewrite !lookup_insert_ne].
  - cbn. rewrite Ep. unfold s1. cbn. by rewrite insert_insert_eq.
  - cbn. by rewrite F2.
  - cbn. by rewrite F2.
  - cbn. by rewrite F2.
  - cbn. by rewrite F2.
  - cbn. by rewrite F2.
  - intros t. apply (exit_frame_field owner s1 s2); [done|by split].
  - intros t. cbn. specialize (Hst t). change (thread_at s1) with (thread_at s) in Hst. case_decide as Htl.
    + destruct (lseg_nonzero _ _ _ _ t Hl Htl) as [_ [n Hn]]. unfold next_of in Hn. destruct (thread_at s !! t) as [c|]; [|done].
      destruct (thread_at s2 !! t) as [c2|]; [|done]. cbn in Hst. injection Hst as E1 _. cbn. rewrite E1. unfold dead. by case_decide as Hd; [rewrite Hd|].
    + destruct (thread_at s2 !! t), (thread_at s !! t); try done. cbn in *. by injection Hst as -> _.
Qed.
End exit.
