(* ===== verification/ExitTheorems.v ===== *)
(** * What [exit] promises

    The exit of a whole process: [PROC_exit_current_thread status true], the body of the
    [exit] system call. *)

From stdpp Require Import functions.
From S2P Require Import Prelude Links Kernel RoundRobin TaskQueue TaskQueueProofs KernelExample ProcessTree ProcessTreeProofs ProcessTreeTheorems.
From S2P Require Import Mutex MutexProofs MutexSystem Multitask ProcessSyscalls WaitProofs ExitProofs.

Section exit.
Context {E : Type} {KE : KernelEnv E} {KL : KernelEnvLaws E} {TL : TaskLayout}.
Implicit Types (s : kst E) (K : Z → list Z) (L l : list Z).

(** What is left of the process [o] with the threads [l]. *)
Record exited s s' R Q K L o (po : process_st) l status e2 e4 R' Q' : Prop := {
  ex_tasks : tasks s' R' Q';
  ex_ring : rr_list R' = filter (λ x, x ∉ l) (rr_list R) ++ woken s Q po;
  ex_forest : forest (process_at s') (<[o := []]> (<[kernel_process := K o ++ K kernel_process]> K));
  ex_mutexes : mutexes s' (filter (λ m, own s m ≠ Some o) L);
  ex_threads t : run_state <$> thread_at s' !! t =
    if decide (t ∈ woken s Q po) then Some PROC_READY else if decide (t ∈ l) then Some PROC_ZOMBIE else run_state <$> thread_at s !! t;
  ex_process : (λ x, (exiting x, zombie x, p_exit_status x, live_threads x, cr3 x, pid x)) <$> process_at s' !! o
    = Some (1, 1, status, 0, cr3_after po e2, pid po);
  ex_vars : (curr_proc s', multitask_started s') = (curr_proc s, multitask_started s);
  ex_env : env s' = e4
}.

(** Marking the threads does not change who wakes up. *)
Lemma woken_marked s s2 R Q o po po' l :
  tasks s R Q → parent po' = parent po → (∀ t c, t ∈ l → thread_at s !! t = Some c → owner c = o) →
  (∀ t c, t ∈ Q (QChildExit (parent po)) → thread_at s !! t = Some c → owner c ≠ o) →
  process_at s2 = <[o := po']> (process_at s) → (∀ t, owner <$> thread_at s2 !! t = owner <$> thread_at s !! t) →
  (∀ t, run_state <$> thread_at s2 !! t = if decide (t ∈ l) then Some PROC_ZOMBIE else run_state <$> thread_at s !! t) →
  woken s2 Q po' = woken s Q po.
Proof.
  intros Ht Hpar Hown Hcw Hp Ho Hst. unfold woken. rewrite Hpar. destruct (parent po =? 0); [done|].
  apply awake_ext. intros t Htq. destruct (tk_waiting _ _ _ Ht _ _ Htq) as (c & Ec & _). pose proof (Hcw t c Htq Ec) as Hne.
  apply (wake_other s s2 t c o); [|done|done|].
  - specialize (Ho t). specialize (Hst t). rewrite decide_False in Hst by (intros Htl; by apply Hne, (Hown t c)).
    destruct (thread_at s2 !! t), (thread_at s !! t); try done. cbn in *. f_equal. congruence.
  - intros p Hpo. rewrite Hp, lookup_insert_ne by done. done.
Qed.

Lemma owned_marked s s2 o L : mutex_at s2 = mutex_at s → owned s2 o L = owned s o L.
Proof. intros E1. unfold owned, own. by rewrite E1. Qed.

Lemma teardown_env_marked s s2 o po po' L e2 e4 :
  mutex_at s2 = mutex_at s → env s2 = env s → cr3 po' = cr3 po → teardown_env s o po L e2 e4 → teardown_env s2 o po' L e2 e4.
Proof. intros Em Ee Ec. unfold teardown_env. by rewrite Ee, Ec, (owned_marked s s2 o L Em). Qed.

(** The waiting threads of the process itself are dead when it is torn down. *)
Lemma joiners_dead s s3 R Q K L o po status e2 e4 R3 Q3 t :
  tasks s R Q → torn_down s s3 R Q K L o po status e2 e4 R3 Q3 → o ≠ 0 →
  (∀ t c, t ∈ Q (QThreadExit o) → thread_at s !! t = Some c → owner c = o) → t ∈ Q3 (QThreadExit o) → wake_ok s3 t = false.
Proof.
  intros Ht Hd Ho Hj Htq. destruct (td_queues _ _ _ _ _ _ _ _ _ _ _ _ _ Hd (QThreadExit o)) as [Eq|Eq]; rewrite Eq in Htq; [|by apply elem_of_nil in Htq].
  destruct (tk_waiting _ _ _ Ht _ _ Htq) as (c & Ec & _). pose proof (Hj t c Htq Ec) as Hc.
  pose proof (td_threads _ _ _ _ _ _ _ _ _ _ _ _ _ Hd t) as Hth. rewrite Ec in Hth. apply fmap_Some_1 in Hth as (c3 & Ec3 & Hc3).
  pose proof (td_process _ _ _ _ _ _ _ _ _ _ _ _ _ Hd o) as Hp. rewrite decide_True in Hp by done. apply fmap_Some_1 in Hp as (o3 & Eo3 & Ho3).
  assert (owner c3 = o) as Hc3o by (injection Hc3; congruence).
  apply (wake_exiting s3 t c3 o3); [done|by rewrite Hc3o|by rewrite Hc3o|]. assert (exiting o3 = 1) as ->; [|done]. injection Ho3. congruence.
Qed.

Lemma wp_seq_loop {S N A} (c1 c3 : M S unit) (f : M S N) (k : N → M S unit) (h : M S A) (x : S) (P : A → S → Prop) :
  wp (c1 ;; n <- f ;; k n ;; c3) x (λ _ y, wp h y P) → wp (c1 ;; n <- f ;; k n ;; c3 ;; h) x P.
Proof.
  unfold wp, bind. destruct (c1 x) as [[[] x1]| |]; try done. destruct (f x1) as [[n x2]| |]; try done.
  destruct (k n x2) as [[[] x3]| |]; try done. by destruct (c3 x3) as [[[] x4]| |].
Qed.

Lemma exit_process_spec s R Q K L o po l status e2 e4 :
  tasks s R Q → forest (process_at s) K → mutexes s L → exit_ok s R Q K L o po l → teardown_env s o po L e2 e4 →
  wp (exit_process o status) s (λ _ s', ∃ R' Q', exited s s' R Q K L o po l status e2 e4 R' Q').
Proof.
  intros Ht Hf Hm Hx Henv. pose proof Hx as [Eo [Ho Hok] Hkp Hz Hno Hpp _ Hown _ Hmw Hjn Hcw].
  unfold exit_process. wp_step. eapply wp_process; [exact Eo|]. apply wp_seq_loop.
  eapply wp_mono; [by apply (exit_threads_done s R Q K L o po l status)|]. cbv beta.
  intros _ s2 (R2 & Ht2 & El2 & Ep2 & Em2 & Eml2 & Emi2 & Ee2 & Ev2 & Hown2 & Hst2). set (po' := set_live_threads 0 _) in Ep2.
  assert (∀ t c2, thread_at s2 !! t = Some c2 → ∃ c, thread_at s !! t = Some c ∧ owner c2 = owner c) as Hback.
  { intros t c2 Ec. specialize (Hown2 t). rewrite Ec in Hown2. destruct (thread_at s !! t) as [c|]; [|done]. exists c. split; [done|]. cbn in Hown2. congruence. }
  assert (woken s2 Q po' = woken s Q po) as Ew by (by apply (woken_marked s s2 R Q o po po' l)).
  wp_step. eapply wp_mono; [apply (process_teardown_spec s2 R2 Q K L o po' status e2 e4 Ht2)|]; try done.
  - eapply forest_same; [|exact Hf]. intros p. rewrite Ep2. destruct (decide (p = o)) as [->|]; [by rewrite lookup_insert_eq, Eo|by rewrite lookup_insert_ne].
  - eapply mutexes_frame; [|done|done|exact Hm]. intros m. by rewrite Em2.
  - rewrite Ep2. apply lookup_insert_eq.
  - rewrite Ep2, lookup_insert_ne by done. done.
  - destruct Hpp as [?|Hpp]; [by left|right]. rewrite Ep2. by apply lookup_insert_is_Some'; right.
  - intros m t c2 Hmo Htq Ec. rewrite (owned_marked s s2 o L Em2) in Hmo. destruct (Hback t c2 Ec) as (c & Ec' & ->). by eapply Hmw.
  - intros t c2 Htq Ec. destruct (Hback t c2 Ec) as (c & Ec' & ->). by eapply Hcw.
  - by apply (teardown_env_marked s s2 o po po' L).
  - cbv beta. intros _ s3 (R3 & Q3 & Hd). pose proof Hd as [Ht3 El3 Hf3 Hm3 Hth3 Hst3 Hp3 Hv3 Hq3 He3]. rewrite Ew in *.
    pose proof (Hp3 o) as Hpo. rewrite decide_True in Hpo by done. apply fmap_Some_1 in Hpo as (o3 & Eo3 & Ho3).
    eapply wp_mono; [apply (unblock_dead_spec s3 R3 Q3 (QThreadExit o) Ht3); [cbn; by rewrite Eo3|]|].
    { intros t. apply (joiners_dead s2 s3 R2 Q K L o po' status e2 e4 R3 Q3 t Ht2 Hd Ho). intros t' c2 Htq Ec.
      destruct (Hback t' c2 Ec) as (c & Ec' & ->). by eapply Hjn. }
    cbv beta. intros _ s4 (Ht4 & Hfr & Hk4). exists R3, (<[QThreadExit o := []]> Q3). pose proof (tf_vars _ _ Hfr) as V. injection V as V1 V2 V3 V4 V5 V6 V7 V8.
    split.
    + done.
    + by rewrite El3, El2.
    + eapply forest_same; [|exact Hf3]. intros p. pose proof (tf_process _ _ Hfr p) as Hp. destruct (process_at s4 !! p), (process_at s3 !! p); try done.
      cbn in *. unfold kin_of. f_equal. injection Hp. congruence.
    + eapply mutexes_frame; [intros m; apply mutex_core_sig, Hfr|done|done|]. unfold own in *. by rewrite Em2 in Hm3.
    + intros t. rewrite (Hk4 t), (Hst3 t). destruct (decide (t ∈ woken s Q po)); [done|]. apply Hst2.
    + pose proof (tf_process _ _ Hfr o) as Hp. rewrite Eo3 in Hp. apply fmap_Some_1 in Hp as (o4 & Eo4 & Ho4). rewrite Eo4. cbn. f_equal.
      assert (no_kin (process_core o4) = pview (ended status (cr3_after po' e2) po')) as E4 by (by rewrite Ho3; unfold pview; rewrite Ho4).
      change (cr3_after po' e2) with (cr3_after po e2) in E4. injection E4. intros. cbn in *. congruence.
    + by rewrite V1, V5, Hv3, Ev2.
    + by rewrite (tf_env _ _ Hfr).
Qed.

Lemma tasks_curr s R Q v : tasks s R Q → tasks (set_curr_proc v s) R Q.
Proof. intros [H1 H2 H3 H4 H5 H6 H7 H8 H9]. by split. Qed.

(** The outcome of a call of the scheduler, with who runs next. *)
Record rescheduled s s' R R' Q : Prop := {
  rs_tasks : tasks s' R' Q;
  rs_ring : rr_list R' = rr_list R;
  rs_frame : task_frame s (set_next_proc (next_proc s) s');
  rs_state x : x ∉ rr_list R' → curr_proc s ≠ x → run_state <$> thread_at s' !! x = run_state <$> thread_at s !! x;
  rs_next : if decide (rr_list R = []) then next_proc s' = (if multitask_started s then main_thread else 0)
    else next_proc s' ∈ rr_list R ∧ run_state <$> thread_at s' !! next_proc s' = Some PROC_RUNNING
}.

Lemma rescheduled_spec s R Q :
  tasks s R Q → (curr_proc s = 0 ∨ is_Some (thread_at s !! curr_proc s)) → wp PROC_reschedule s (λ _ s', ∃ R', rescheduled s s' R R' Q).
Proof.
  intros Ht Hc. eapply wp_mono; [by apply (PROC_reschedule_spec s R Q)|]. cbv beta.
  intros _ s' (R' & Ht' & [El HR] & Hfr & Hn). exists R'. destruct (decide (rr_list R = [])) as [Ee|Hne].
  - destruct Hn as [Hn Hk]. split; try done; first [by rewrite decide_True|intros x _ _; apply Hk].
  - destruct Hn as [Hn Hk]. destruct (pick_spec (curr_proc s) R) as (_ & Hin & _); [apply Ht|apply Ht|done|].
    split; try done; [|rewrite decide_False by done; rewrite Hn; split; [done|]].
    + intros x Hx Hxc. rewrite Hk. unfold resched_state. rewrite decide_False by (intros ->; apply Hx; by rewrite El, Hn).
      rewrite decide_False; [done|]. by intros [-> _].
    + rewrite Hk. unfold resched_state. by rewrite decide_True by (by rewrite Hn).
Qed.

(** The threads that are woken are not of the process. *)
Lemma woken_not_own s R Q K L o po l x : tasks s R Q → exit_ok s R Q K L o po l → x ∈ l → x ∉ woken s Q po.
Proof.
  intros Ht Hx Hl. unfold woken. destruct (parent po =? 0); [apply not_elem_of_nil|]. unfold awake. intros [_ Hq]%list_elem_of_filter.
  destruct (tk_waiting _ _ _ Ht _ _ Hq) as (c & Ec & _). by apply (xo_wait _ _ _ _ _ _ _ _ Hx x c Hq Ec), (xo_owner _ _ _ _ _ _ _ _ Hx x c).
Qed.

(** C27: [exit] of a whole process ends every thread of it and takes them out of the
    scheduler, records the status, hands its children to the kernel process, destroys its
    mutexes and its address space (once, and never the kernel's), and wakes the threads
    that wait for it in the parent; the queues, the process tree and the list of mutexes
    stay well formed, and the next thread is one that can run, or the idle thread. *)
Theorem exit_correct s R Q K L t po l status e2 e4 :
  tasks s R Q → forest (process_at s) K → mutexes s L → curr_proc s ≠ 0 → curr_proc s ≠ main_thread →
  thread_at s !! curr_proc s = Some t → let o := owner t in
  exit_ok s R Q K L o po l → teardown_env s o po L e2 e4 →
  ∃ s' R' Q', PROC_exit_current_thread status true s = Ret (0, s') ∧ tasks s' R' Q' ∧ curr_proc s' = 0 ∧
    rr_list R' = filter (λ x, x ∉ l) (rr_list R) ++ woken s Q po ∧
    (∀ x, x ∈ l → run_state <$> thread_at s' !! x = Some PROC_ZOMBIE) ∧
    (λ x, (zombie x, p_exit_status x, live_threads x, cr3 x)) <$> process_at s' !! o = Some (1, status, 0, cr3_after po e2) ∧
    forest (process_at s') (<[o := []]> (<[kernel_process := K o ++ K kernel_process]> K)) ∧
    mutexes s' (filter (λ m, own s m ≠ Some o) L) ∧ env s' = e4 ∧
    (if decide (rr_list R' = []) then next_proc s' = (if multitask_started s then main_thread else 0)
     else next_proc s' ∈ rr_list R' ∧ run_state <$> thread_at s' !! next_proc s' = Some PROC_RUNNING).
Proof.
  intros Ht Hf Hm Hc Hcm Et o Hx Henv. pose proof (xo_nonzero _ _ _ _ _ _ _ _ Hx) as [Ho Hok].
  assert (wp (PROC_exit_current_thread status true) s (λ r s', r = 0 ∧ ∃ s1 R1 R' Q', exited s s1 R Q K L o po l status e2 e4 R1 Q' ∧
    rescheduled (set_curr_proc 0 s1) s' R1 R' Q')) as (r & s' & Er & -> & s1 & R1 & R' & Q' & Hd & Hr)%wp_iff.
  { unfold PROC_exit_current_thread. wp_step. apply wp_gets. rewrite !(proj2 (Z.eqb_neq (curr_proc s) _)) by done.
    wp_step. eapply wp_thread; [exact Et|]. fold o. rewrite (proj2 (Z.eqb_neq o 0)), (proj2 (Z.eqb_neq o kernel_process)) by done. cbn [andb negb].
    wp_step. eapply wp_mono; [by apply (exit_process_spec s R Q K L o po l status e2 e4)|]. cbv beta. intros _ s1 (R1 & Q1 & Hd).
    wp_step. apply wp_modify. wp_step. eapply wp_mono; [apply rescheduled_spec; [apply tasks_curr, Hd|by left]|]. cbv beta.
    intros _ s' (R' & Hr). apply wp_ret. split; [done|]. by exists s1, R1, R', Q1. }
  exists s', R', Q'. destruct Hr as [Ht' El' Hfr Hst Hn]. pose proof (tf_vars _ _ Hfr) as V. injection V as V1 V2 V3 V4 V5 V6 V7.
  pose proof Hd as [Ht1 El1 Hf1 Hm1 Hth1 Hp1 Hv1 He1]. split; [done|]. split; [done|]. split; [done|]. split; [by rewrite El'|].
  split; [|split; [|split; [|split; [|split]]]].
  - intros x Hxl. assert (x ∉ rr_list R') as Hnr.
    { rewrite El', El1. intros [[? _]%list_elem_of_filter|Hw]%elem_of_app; [done|]. by apply (woken_not_own s R Q K L o po l x Ht Hx). }
    destruct (xo_threads _ _ _ _ _ _ _ _ Hx) as (po' & _ & Hl & _). destruct (lseg_nonzero _ _ _ _ x Hl Hxl) as [Hx0 _].
    rewrite Hst; [|done|by cbn]. cbn. rewrite Hth1, decide_False, decide_True; [done..|]. intros Hw. by apply (woken_not_own s R Q K L o po l x Ht Hx).
  - pose proof (tf_process _ _ Hfr o) as Hp. apply fmap_Some_1 in Hp1 as (o1 & Eo1 & Ho1). cbn in Hp. rewrite Eo1 in Hp.
    apply fmap_Some_1 in Hp as (o2 & Eo2 & Ho2). rewrite Eo2. cbn. injection Ho2. intros. f_equal. congruence.
  - eapply forest_same; [|exact Hf1]. intros p. pose proof (tf_process _ _ Hfr p) as Hp. cbn in Hp.
    destruct (process_at s' !! p), (process_at s1 !! p); try done. cbn in *. unfold kin_of. f_equal. injection Hp. congruence.
  - eapply (mutexes_frame s1); [intros m; apply mutex_core_sig, Hfr|exact V5|exact V6|done].
  - pose proof (tf_env _ _ Hfr) as He. cbn in He. by rewrite He.
  - cbn in Hn. injection Hv1 as Hv1 Hv2. rewrite Hv2 in Hn. rewrite El'. exact Hn.
Qed.
End exit.

(** ** Example: the process 0x5000 exits with two threads, a child and a mutex *)

Definition toy_exiting : kst toy :=
  set_process_at {[ 0x8000 := kin_process 0 0 0x5000 0 0;
                    0x5000 := Process 1 0x50000 0x8000 0x5100 0 0x1000 2 0 0 0 (Queue 0 0) (Queue 0 0);
                    0x5100 := kin_process 2 0x5000 0 0 0 ]}
    (set_mutex_at {[ 0xa000 := Mutex 1 0x5000 0x1000 (Queue 0 0) 0 ]} (set_mutex_list 0xa000 (set_next_mutex_id 2 toy_kernel))).

Definition toy_exiting_kids : gmap Z (list Z) := {[ 0x8000 := [0x5000]; 0x5000 := [0x5100] ]}.

Lemma toy_exiting_forest : forest (process_at toy_exiting) (kids_of toy_exiting_kids).
Proof. apply forest_check; [apply (bool_decide_unpack _); vm_compute; exact I..|reflexivity]. Qed.

#[local] Instance exit_queue_dec : EqDecision proc_queue.
Proof. solve_decision. Defined.

Lemma toy_exiting_tasks : tasks toy_exiting toy_ring (λ _, []).
Proof.
  apply tasks_quiet; [|apply (bool_decide_unpack _); vm_compute; exact I..|by vm_compute|reflexivity]. exact toy_ring_ok.
Qed.

Lemma toy_exiting_mutexes : mutexes toy_exiting [0xa000].
Proof.
  assert (mutex_at toy_exiting = {[ 0xa000 := Mutex 1 0x5000 0x1000 (Queue 0 0) 0 ]}) as Em by reflexivity.
  split; rewrite ?Em.
  - by apply lsegb_ok.
  - apply NoDup_singleton.
  - intros m [x [<- _]%lookup_singleton_Some]. by left.
  - by intros m x m' x' [<- _]%lookup_singleton_Some [<- _]%lookup_singleton_Some _.
  - intros m x [_ <-]%lookup_singleton_Some. cbn. lia.
Qed.

Definition toy_exiting_process : process_st := Process 1 0x50000 0x8000 0x5100 0 0x1000 2 0 0 0 (Queue 0 0) (Queue 0 0).

Lemma toy_exit_ok : exit_ok toy_exiting toy_ring (λ _, []) (kids_of toy_exiting_kids) [0xa000] 0x5000 toy_exiting_process [0x1000; 0x2000].
Proof.
  split; try done.
  - apply (bool_decide_unpack _). vm_compute. exact I.
  - right. by eexists.
  - eexists. split; [reflexivity|]. split; [by apply lsegb_ok|]. apply (bool_decide_unpack _). vm_compute. exact I.
  - assert (map_Forall (λ t c, t ∈ [0x1000; 0x2000] → owner c = 0x5000) (thread_at toy_exiting)) as Hm
      by (apply (bool_decide_unpack _); vm_compute; exact I). intros t c Hl Hc. exact (Hm t c Hc Hl).
  - intros m t c _ ?%elem_of_nil. done.
  - intros t c ?%elem_of_nil. done.
  - intros t c ?%elem_of_nil. done.
Qed.

Lemma exit_correct_witness :
  ∃ s', PROC_exit_current_thread 7 true toy_exiting = Ret (0, s') ∧ mutexes s' [] ∧ next_proc s' = 0x9000 ∧
    run_state <$> thread_at s' !! 0x2000 = Some PROC_ZOMBIE ∧
    (λ x, (zombie x, p_exit_status x, live_threads x, cr3 x)) <$> process_at s' !! 0x5000 = Some (1, 7, 0, 0).
Proof.
  destruct (exit_correct toy_exiting toy_ring (λ _, []) (kids_of toy_exiting_kids) [0xa000] (toy_thread 1 0x5000 PROC_RUNNING 0x2000 0x2000)
    toy_exiting_process [0x1000; 0x2000] 7 (Toy true 0x20000 0x50000 ∅) (Toy true 0x20000 0x90000 ∅)
    toy_exiting_tasks toy_exiting_forest toy_exiting_mutexes ltac:(done) ltac:(done) eq_refl toy_exit_ok)
    as (s' & R' & Q' & Er & _ & _ & Hl & Hz & Hp & _ & Hm & _ & Hn).
  - vm_compute. repeat eexists.
  - exists s'. split; [exact Er|]. split; [exact Hm|]. split; [|split; [apply Hz; by right; left|exact Hp]].
    assert (rr_list R' = []) as El by (rewrite Hl; vm_compute; reflexivity). rewrite decide_True in Hn by exact El. exact Hn.
Defined.
