(* ===== verification/Bytes.v ===== *)
(** * Byte buffers

    A buffer is the list of its bytes.  The disk and file formats of the kernel are
    read out of buffers field by field; a field outside the buffer has no value. *)

From S2P Require Import Prelude.

(** Little-endian value of a list of bytes. *)
Definition le (bs : list Z) : Z := foldr (λ b v, b + 2 ^ 8 * v) 0 bs.

Definition blen (bs : list Z) : Z := Z.of_nat (length bs).

(** [n] bytes from [off] on. *)
Definition slice (off n : Z) (bs : list Z) : list Z := take (Z.to_nat n) (drop (Z.to_nat off) bs).

(** The unsigned field of [n] bytes at [off], [None] when it is not in the buffer. *)
Definition field (off n : Z) (bs : list Z) : option Z :=
  if bool_decide (0 ≤ off ∧ 0 ≤ n ∧ off + n ≤ blen bs) then Some (le (slice off n bs)) else None.

(** [bs] with the bytes from [off] on overwritten by [new]. *)
Definition splice (off : Z) (new bs : list Z) : list Z :=
  take (Z.to_nat off) bs ++ new ++ drop (Z.to_nat (off + blen new)) bs.

Definition is_byte (b : Z) : Prop := 0 ≤ b < 2 ^ 8.

Lemma blen_nonneg bs : 0 ≤ blen bs.
Proof. unfold blen. lia. Qed.
#[export] Hint Resolve blen_nonneg : cint.

Lemma blen_app x y : blen (x ++ y) = blen x + blen y.
Proof. unfold blen. rewrite length_app. lia. Qed.

Lemma blen_slice off n bs : 0 ≤ off → 0 ≤ n → off + n ≤ blen bs → blen (slice off n bs) = n.
Proof. unfold blen, slice. rewrite length_take, length_drop. lia. Qed.

Lemma blen_slice_le off n bs : 0 ≤ n → blen (slice off n bs) ≤ n.
Proof. unfold blen, slice. rewrite length_take. lia. Qed.

Lemma blen_splice off new bs : 0 ≤ off → off + blen new ≤ blen bs → blen (splice off new bs) = blen bs.
Proof. unfold blen, splice. intros. rewrite !length_app, length_take, length_drop. unfold blen in *. lia. Qed.

Lemma slice_lookup off n bs i :
  0 ≤ off → 0 ≤ n → slice off n bs !! i = if decide (Z.of_nat i < n) then bs !! (Z.to_nat off + i)%nat else None.
Proof.
  intros. unfold slice. destruct (decide (Z.of_nat i < n)).
  - by rewrite lookup_take_lt, lookup_drop by lia.
  - by rewrite lookup_take_ge by lia.
Qed.

(** Adjacent slices. *)
Lemma slice_app off n m bs :
  0 ≤ off → 0 ≤ n → 0 ≤ m → slice off n bs ++ slice (off + n) m bs = slice off (n + m) bs.
Proof.
  intros. unfold slice. replace (Z.to_nat (off + n)) with (Z.to_nat off + Z.to_nat n)%nat by lia.
  replace (Z.to_nat (n + m)) with (Z.to_nat n + Z.to_nat m)%nat by lia.
  rewrite <-drop_drop. by rewrite take_take_drop.
Qed.

Lemma slice_slice off n o m bs :
  0 ≤ off → 0 ≤ o → 0 ≤ m → o + m ≤ n → slice o m (slice off n bs) = slice (off + o) m bs.
Proof.
  intros. apply list_eq. intros i. rewrite !slice_lookup by lia.
  destruct (decide (Z.of_nat i < m)); [|done]. rewrite decide_True by lia. f_equal. lia.
Qed.

Lemma slice_all bs : slice 0 (blen bs) bs = bs.
Proof. unfold slice, blen. rewrite drop_0, take_ge by lia. done. Qed.

Lemma slice_nil off bs : slice off 0 bs = [].
Proof. done. Qed.

Lemma slice_app_l off n x y : 0 ≤ off → 0 ≤ n → off + n ≤ blen x → slice off n (x ++ y) = slice off n x.
Proof.
  intros. apply list_eq. intros i. rewrite !slice_lookup by lia. destruct (decide (Z.of_nat i < n)); [|done].
  rewrite lookup_app_l; [done|]. unfold blen in *. lia.
Qed.

Lemma slice_app_r off n x y : blen x ≤ off → 0 ≤ n → slice off n (x ++ y) = slice (off - blen x) n y.
Proof.
  intros Hx Hn. pose proof (blen_nonneg x). apply list_eq. intros i. rewrite !slice_lookup by lia.
  destruct (decide (Z.of_nat i < n)); [|done]. rewrite lookup_app_r by (unfold blen in *; lia). f_equal. unfold blen in *. lia.
Qed.

(** A buffer overwritten piece by piece from the start. *)
Lemma splice_step pre new bs :
  blen pre + blen new ≤ blen bs →
  splice (blen pre) new (pre ++ drop (length pre) bs) = (pre ++ new) ++ drop (length (pre ++ new)) bs.
Proof.
  intros Hl. unfold splice, blen in *. rewrite Nat2Z.id, take_app_length, <-(assoc_L app). f_equal. f_equal.
  rewrite drop_app_ge, drop_drop by lia. f_equal. rewrite length_app. lia.
Qed.

Lemma slice_splice new bs : blen new ≤ blen bs → slice 0 (blen new) (splice 0 new bs) = new.
Proof.
  intros Hl. unfold splice. change (take (Z.to_nat 0) bs) with (@nil Z). rewrite app_nil_l. pose proof (blen_nonneg new).
  rewrite slice_app_l by lia. apply slice_all.
Qed.

Lemma splice_full new bs : blen new = blen bs → splice 0 new bs = new.
Proof.
  intros Hl. unfold splice. change (take (Z.to_nat 0) bs) with (@nil Z). rewrite app_nil_l, drop_ge, app_nil_r; [done|]. unfold blen in *. lia.
Qed.

Lemma field_some off n bs : 0 ≤ off → 0 ≤ n → off + n ≤ blen bs → field off n bs = Some (le (slice off n bs)).
Proof. intros. unfold field. by rewrite bool_decide_true by lia. Qed.

Lemma field_inv off n bs v : field off n bs = Some v → 0 ≤ off ∧ 0 ≤ n ∧ off + n ≤ blen bs ∧ v = le (slice off n bs).
Proof. unfold field. case_bool_decide; [|done]. intros [= <-]. naive_solver. Qed.

Lemma le_range bs : Forall is_byte bs → 0 ≤ le bs < 2 ^ (8 * blen bs).
Proof.
  induction 1 as [|b bs Hb Hbs IH]; [unfold blen; cbn; lia|]. change (le (b :: bs)) with (b + 2 ^ 8 * le bs).
  unfold is_byte, blen in *. cbn [length]. replace (8 * Z.of_nat (S (length bs))) with (8 + 8 * Z.of_nat (length bs)) by lia.
  rewrite Z.pow_add_r by lia. nia.
Qed.

Lemma Forall_slice (P : Z → Prop) off n bs : Forall P bs → Forall P (slice off n bs).
Proof. intros. unfold slice. by apply Forall_take, Forall_drop. Qed.

Lemma field_range off n bs v : Forall is_byte bs → field off n bs = Some v → 0 ≤ v < 2 ^ (8 * n).
Proof.
  intros Hb (H1 & H2 & H3 & ->)%field_inv. pose proof (le_range (slice off n bs) (Forall_slice _ _ _ _ Hb)) as Hr.
  by rewrite (blen_slice off n bs) in Hr by lia.
Qed.

(** Slices of a concatenation of pieces of [c] bytes each. *)
Lemma slice_mjoin c (l : list (list Z)) k blk o n :
  Forall (λ b, blen b = c) l → l !! k = Some blk → 0 ≤ o → 0 ≤ n → o + n ≤ c → slice (Z.of_nat k * c + o) n (mjoin l) = slice o n blk.
Proof.
  intros Hl. revert k. induction Hl as [|b l Hb Hl IH]; intros k Hk Ho Hn Hon; [done|].
  change (mjoin (b :: l)) with (b ++ mjoin l). destruct k as [|k].
  - injection Hk as <-. change (Z.of_nat 0 * c + o) with o. apply slice_app_l; lia.
  - cbn in Hk. pose proof (blen_nonneg b). rewrite slice_app_r by nia. rewrite Hb. replace (Z.of_nat (S k) * c + o - c) with (Z.of_nat k * c + o) by lia. by apply IH.
Qed.

Lemma blen_mjoin c (l : list (list Z)) : Forall (λ b, blen b = c) l → blen (mjoin l) = Z.of_nat (length l) * c.
Proof.
  induction 1 as [|b l Hb Hl IH]; [done|]. change (mjoin (b :: l)) with (b ++ mjoin l). rewrite blen_app, Hb, IH. cbn [length]. lia.
Qed.

Lemma slice_take off n m bs : 0 ≤ off → 0 ≤ n → off + n ≤ Z.of_nat m → slice off n (take m bs) = slice off n bs.
Proof.
  intros. apply list_eq. intros i. rewrite !slice_lookup by lia. destruct (decide (Z.of_nat i < n)); [|done]. by rewrite lookup_take_lt by lia.
Qed.

Lemma slice_replicate off n m (x : Z) : 0 ≤ off → 0 ≤ n → off + n ≤ Z.of_nat m → slice off n (replicate m x) = replicate (Z.to_nat n) x.
Proof.
  intros. unfold slice. rewrite drop_replicate, take_replicate. f_equal. lia.
Qed.

(** ** Writing fields

    [n] little-endian bytes of a value, the format's side of [field]. *)
Fixpoint le_bytes (n : nat) (v : Z) : list Z :=
  match n with O => [] | S n => v mod 2 ^ 8 :: le_bytes n (v / 2 ^ 8) end.

Lemma blen_le_bytes n v : blen (le_bytes n v) = Z.of_nat n.
Proof. unfold blen. revert v. induction n as [|n IH]; intros v; cbn [le_bytes length]; [done|]. specialize (IH (v / 2 ^ 8)). lia. Qed.

Lemma le_le_bytes n v : le (le_bytes n v) = v mod 2 ^ (8 * Z.of_nat n).
Proof.
  revert v. induction n as [|n IH]; intros v; [by rewrite Z.mod_1_r|].
  change (le (le_bytes (S n) v)) with (v mod 2 ^ 8 + 2 ^ 8 * le (le_bytes n (v / 2 ^ 8))). rewrite IH.
  replace (8 * Z.of_nat (S n)) with (8 + 8 * Z.of_nat n) by lia. rewrite Z.pow_add_r, Z.rem_mul_r by lia. done.
Qed.

Lemma le_bytes_range n v : Forall is_byte (le_bytes n v).
Proof. revert v. induction n as [|n IH]; intros v; cbn [le_bytes]; constructor; [|done]. apply Z.mod_pos_bound. lia. Qed.

(** A field that was written between other bytes. *)
Lemma field_mid pre n v post : 0 ≤ v < 2 ^ (8 * Z.of_nat n) → field (blen pre) (Z.of_nat n) (pre ++ le_bytes n v ++ post) = Some v.
Proof.
  intros Hv. pose proof (blen_nonneg pre). pose proof (blen_nonneg post). pose proof (blen_le_bytes n v) as Hn.
  rewrite field_some by (rewrite ?blen_app; lia). rewrite slice_app_r, Z.sub_diag, slice_app_l by lia.
  rewrite <-Hn, slice_all, le_le_bytes, Z.mod_small by done. done.
Qed.
