(* ===== verification/Fork.v ===== *)
(** * What [fork] establishes ([clone_process] of [multitask/process_syscalls.c])

    [SpawnView] is what the call sees of the heap and of the user address spaces, and
    [SpawnLaws] what the allocator and the memory manager promise about it: blocks in use
    do not overlap and keep their bytes, and a cloned address space has the contents of the
    original.  Over them a fork gives the caller a child with a copy of its stack frame and of
    its memory, or fails and gives everything back.  The laws have the instance [cells], a small memory; that
    the heap of [Kmalloc] over [Vpages] satisfies them is not proved here. *)

From stdpp Require Import functions.
From S2P Require Import Prelude Bytes Links Kernel KernelExample RoundRobin TaskQueue TaskQueueProofs ProcessTree ProcessTreeProofs ProcessTreeTheorems Mutex Multitask ProcessSyscalls.

(** ** The interface *)

(** [sv_blocks]: address and size of the blocks in use; [sv_byte]: kernel memory;
    [sv_spaces]: the contents of the user address spaces, by root; [sv_room k]: the next [k]
    requests are met; [sv_static]: the addresses of the kernel's static objects. *)
Class SpawnView (E U : Type) := {
  sv_ok : E → Prop;
  sv_room : nat → E → Prop;
  sv_static : Z → Prop;
  sv_blocks : E → gmap Z Z;
  sv_byte : E → Z → Z;
  sv_spaces : E → gmap Z U
}.

(** The [n] bytes from [x] lie in a block. *)
Definition in_use (B : gmap Z Z) (x n : Z) : Prop := ∃ b m, B !! b = Some m ∧ b ≤ x ∧ x + n ≤ b + m.

(** A block apart from those of [B]. *)
Definition fresh_block (B : gmap Z Z) (a n : Z) : Prop := B !! a = None ∧ ∀ x, a ≤ x < a + n → ¬ in_use B x 1.

Section view.
Context {E U : Type} {KE : KernelEnv E} {SV : SpawnView E U}.
Implicit Types (e : E).

(** Bytes of blocks that stay in use are kept. *)
Definition kept e e' : Prop :=
  sv_ok e' ∧ ke_kernel_p4 e' = ke_kernel_p4 e ∧
  ∀ x, in_use (sv_blocks e) x 1 → in_use (sv_blocks e') x 1 → sv_byte e' x = sv_byte e x.

(** A request answered with [a], 0 only when there is no room. *)
Definition granted e e' (a : Z) : Prop :=
  (a = 0 → ∀ k, ¬ sv_room (S k) e) ∧ ∀ k, sv_room (S k) e → sv_room k e'.

(** An access to memory. *)
Definition accessed e e' : Prop :=
  sv_ok e' ∧ ke_kernel_p4 e' = ke_kernel_p4 e ∧ sv_blocks e' = sv_blocks e ∧ sv_spaces e' = sv_spaces e ∧
  ∀ k, sv_room k e → sv_room k e'.
End view.

Class SpawnLaws (E U : Type) `{!KernelEnv E, !SpawnView E U} := {
  sl_block e b n : sv_ok e → sv_blocks e !! b = Some n → 0 < b ∧ 0 < n ∧ b + n ≤ 2 ^ 64;
  sl_byte e x : sv_ok e → in_use (sv_blocks e) x 1 → is_byte (sv_byte e x);
  sl_kmalloc e n : sv_ok e → 0 < n ≤ DEFAULT_STACK_BYTES →
    wp (ke_kmalloc n) e (λ a e', kept e e' ∧ granted e e' a ∧ sv_spaces e' = sv_spaces e ∧
      (a = 0 ∧ sv_blocks e' = sv_blocks e ∨
       a ≠ 0 ∧ fresh_block (sv_blocks e) a n ∧ ¬ sv_static a ∧ sv_blocks e' = <[a := n]> (sv_blocks e)));
  sl_kfree e a n : sv_ok e → sv_blocks e !! a = Some n → ¬ sv_static a →
    wp (ke_kfree a) e (λ _ e', kept e e' ∧ sv_spaces e' = sv_spaces e ∧ sv_blocks e' = delete a (sv_blocks e));
  sl_clone e r u : sv_ok e → sv_spaces e !! r = Some u →
    wp (ke_clone_userspace r) e (λ r' e', kept e e' ∧ granted e e' r' ∧ sv_blocks e' = sv_blocks e ∧
      (r' = 0 ∧ sv_spaces e' = sv_spaces e ∨
       r' ≠ 0 ∧ sv_spaces e !! r' = None ∧ sv_spaces e' = <[r' := u]> (sv_spaces e)));
  sl_destroy e r : sv_ok e → is_Some (sv_spaces e !! r) →
    wp (ke_destroy_userspace r) e (λ _ e', kept e e' ∧ sv_blocks e' = sv_blocks e ∧ sv_spaces e' = delete r (sv_spaces e));
  sl_load8 e x : sv_ok e → in_use (sv_blocks e) x 1 →
    wp (ke_load8 x) e (λ v e', v = sv_byte e x ∧ accessed e e' ∧ kept e e');
  sl_store8 e x v : sv_ok e → in_use (sv_blocks e) x 1 →
    wp (ke_store8 x v) e (λ _ e', accessed e e' ∧
      ∀ y, in_use (sv_blocks e) y 1 → sv_byte e' y = if decide (y = x) then u8 v else sv_byte e y);
  sl_load64 e x : sv_ok e → in_use (sv_blocks e) x 8 →
    wp (ke_load64 x) e (λ v e', v = le ((λ i, sv_byte e (x + i)) <$> seqZ 0 8) ∧ accessed e e' ∧ kept e e');
  sl_store64 e x v : sv_ok e → in_use (sv_blocks e) x 8 →
    wp (ke_store64 x v) e (λ _ e', accessed e e' ∧
      ∀ y, in_use (sv_blocks e) y 1 → sv_byte e' y = if decide (x ≤ y < x + 8) then u8 (v / 2 ^ (8 * (y - x))) else sv_byte e y)
}.

(** ** Environments by what they hold *)

Section held.
Context {E U : Type} {KE : KernelEnv E} {SV : SpawnView E U} {SL : SpawnLaws E U}.
Implicit Types (e : E) (s : kst E) (B : gmap Z Z) (X : gmap Z U) (f : Z → Z) (H : Prop).

(** The bytes [f] in the blocks [B0], the blocks [B] and the spaces [X]; when [H] holds, room for [k] requests. *)
Record held H (k : nat) (p4 : Z) B0 f B X e : Prop := {
  hd_ok : sv_ok e;
  hd_room : H → sv_room k e;
  hd_p4 : ke_kernel_p4 e = p4;
  hd_bytes x : in_use B0 x 1 → sv_byte e x = f x;
  hd_sub : B0 ⊆ B;
  hd_blocks : sv_blocks e = B;
  hd_spaces : sv_spaces e = X
}.

Lemma in_use_mono B B' x n : B ⊆ B' → in_use B x n → in_use B' x n.
Proof. intros Hs (b & m & Hb & ?). exists b, m. split; [by eapply lookup_weaken|done]. Qed.

Lemma in_use_part B x n y : in_use B x n → x ≤ y < x + n → in_use B y 1.
Proof. intros (b & m & Hb & ?) ?. exists b, m. split; [done|lia]. Qed.

Lemma held_kept H k k' p4 B0 f B B' X X' e e' :
  held H k p4 B0 f B X e → kept e e' → B0 ⊆ B' → sv_blocks e' = B' → sv_spaces e' = X' → (H → sv_room k' e') →
  held H k' p4 B0 f B' X' e'.
Proof.
  intros [H1 H2 H3 H4 H5 H6 H7] (K1 & K2 & K3) Hs Hb Hx Hr. split; try done; [congruence|]. intros x Hx'.
  rewrite K3; [by apply H4|rewrite H6|rewrite Hb]; by eapply in_use_mono.
Qed.

Lemma held_accessed H k p4 B f f' X e e' :
  held H k p4 B f B X e → accessed e e' → (∀ x, in_use B x 1 → sv_byte e' x = f' x) → held H k p4 B f' B X e'.
Proof. intros [H1 H2 H3 H4 H5 H6 H7] (A1 & A2 & A3 & A4 & A5) Hb. split; auto; congruence. Qed.

Lemma wp_env {A} (c : M E A) s P : wp c (env s) (λ a e, P a (set_env e s)) → wp (lift c) s P.
Proof. unfold wp, lift. by destruct (c (env s)) as [[a e]| |]. Qed.

Lemma held_kmalloc H k p4 B0 f B X e n :
  held H (S k) p4 B0 f B X e → 0 < n ≤ DEFAULT_STACK_BYTES →
  wp (ke_kmalloc n) e (λ a e',
    a = 0 ∧ ¬ H ∧ held H 0 p4 B0 f B X e' ∨
    a ≠ 0 ∧ fresh_block B a n ∧ ¬ sv_static (E := E) (U := U) a ∧ held H k p4 B0 f (<[a := n]> B) X e').
Proof.
  intros Hh Hn. eapply wp_mono; [by apply (sl_kmalloc e n (hd_ok _ _ _ _ _ _ _ _ Hh))|]. cbv beta.
  pose proof Hh as [H1 H2 H3 H4 H5 H6 H7]. intros a e' (Hk & [Hg Hg'] & Hx & [[-> Hb]|(Ha & Hf & Hst & Hb)]).
  - left. assert (¬ H) as HH by (intros HH; by apply (Hg eq_refl k), H2). split; [done|]. split; [done|].
    eapply held_kept; [exact Hh|exact Hk|done|congruence|congruence|done].
  - right. rewrite H6 in Hf, Hb. split; [done|]. split; [done|]. split; [done|].
    eapply held_kept; [exact Hh|exact Hk| |done|congruence|auto]. destruct Hf as [Hf _]. etrans; [exact H5|by apply insert_subseteq].
Qed.

Lemma held_kfree H k p4 B0 f B X e a n :
  held H k p4 B0 f (<[a := n]> B) X e → B0 ⊆ B → B !! a = None → ¬ sv_static (E := E) (U := U) a → ¬ H →
  wp (ke_kfree a) e (λ _ e', held H 0 p4 B0 f B X e').
Proof.
  intros Hh Hs Ha Hst HH. pose proof Hh as [H1 H2 H3 H4 H5 H6 H7].
  eapply wp_mono; [apply (sl_kfree e a n H1); [by rewrite H6, lookup_insert_eq|done]|]. cbv beta. intros _ e' (Hk & Hx & Hb).
  eapply held_kept; [exact Hh|exact Hk|done| |congruence|done]. by rewrite Hb, H6, delete_insert_id.
Qed.

Lemma held_clone H k p4 B0 f B X e r u :
  held H (S k) p4 B0 f B X e → X !! r = Some u →
  wp (ke_clone_userspace r) e (λ r' e',
    r' = 0 ∧ ¬ H ∧ held H 0 p4 B0 f B X e' ∨ r' ≠ 0 ∧ X !! r' = None ∧ held H k p4 B0 f B (<[r' := u]> X) e').
Proof.
  intros Hh Hr. pose proof Hh as [H1 H2 H3 H4 H5 H6 H7]. rewrite <-H7 in Hr. eapply wp_mono; [by apply (sl_clone e r u H1)|]. cbv beta.
  intros r' e' (Hk & [Hg Hg'] & Hb & [[-> Hx]|(Hr' & Hn & Hx)]).
  - left. assert (¬ H) as HH by (intros HH; by apply (Hg eq_refl k), H2). split; [done|]. split; [done|].
    eapply held_kept; [exact Hh|exact Hk|done|congruence|congruence|done].
  - right. rewrite H7 in Hn, Hx. split; [done|]. split; [done|]. eapply held_kept; [exact Hh|exact Hk|done|congruence|done|auto].
Qed.

Lemma held_destroy H k p4 B0 f B X e r u :
  held H k p4 B0 f B (<[r := u]> X) e → X !! r = None → ¬ H →
  wp (ke_destroy_userspace r) e (λ _ e', held H 0 p4 B0 f B X e').
Proof.
  intros Hh Hr HH. pose proof Hh as [H1 H2 H3 H4 H5 H6 H7].
  eapply wp_mono; [apply (sl_destroy e r H1); rewrite H7, lookup_insert_eq; eauto|]. cbv beta. intros _ e' (Hk & Hb & Hx).
  eapply held_kept; [exact Hh|exact Hk|done|congruence| |done]. by rewrite Hx, H7, delete_insert_id.
Qed.
End held.

(** ** Bytes *)

(** Eight bytes from [x] set to 0; [m] bytes copied from [src] to [dst]. *)
Definition wiped (x : Z) (f : Z → Z) (y : Z) : Z := if decide (x ≤ y < x + 8) then 0 else f y.
Definition copied (dst src m : Z) (f : Z → Z) (y : Z) : Z := if decide (dst ≤ y < dst + m) then f (src + (y - dst)) else f y.

(** The argument registers of a frame. *)
Definition cleared (frame : Z) (f : Z → Z) : Z → Z :=
  wiped (frame + F_r10) (wiped (frame + F_rdx) (wiped (frame + F_rsi) (wiped (frame + F_rdi) f))).

Section bytes.
Context {E U : Type} {KE : KernelEnv E} {SV : SpawnView E U} {SL : SpawnLaws E U}.
Implicit Types (e : E) (s : kst E) (B : gmap Z Z) (X : gmap Z U) (f : Z → Z) (H : Prop).

Lemma held_use H k p4 B f X e x n : held H k p4 B f B X e → in_use B x n → 0 < n → 0 < x ∧ x + n ≤ 2 ^ 64.
Proof.
  intros [H1 _ _ _ _ H6 _] (b & m & Hb & ?) ?. rewrite <-H6 in Hb. destruct (sl_block e b m H1 Hb) as (? & ? & ?). lia.
Qed.

Lemma held_clear H k p4 B f X e x :
  held H k p4 B f B X e → in_use B x 8 → wp (ke_store64 x 0) e (λ _ e', held H k p4 B (wiped x f) B X e').
Proof.
  intros Hh Hu. pose proof Hh as [H1 H2 H3 H4 H5 H6 H7].
  eapply wp_mono; [apply (sl_store64 e x 0 H1); by rewrite H6|]. cbv beta. intros _ e' [Ha Hb].
  eapply held_accessed; [exact Hh|exact Ha|]. intros y Hy. rewrite H6 in Hb. rewrite (Hb y Hy). unfold wiped.
  case_decide; [done|by apply H4].
Qed.

Lemma frame_set_spec H k p4 B f X s frame fld :
  held H k p4 B f B X (env s) → in_use B (frame + fld) 8 →
  wp (frame_set frame fld 0) s (λ _ s', ∃ e', s' = set_env e' s ∧ held H k p4 B (wiped (frame + fld) f) B X e').
Proof.
  intros Hh Hu. destruct (held_use _ _ _ _ _ _ _ _ _ Hh Hu ltac:(lia)) as [Hx1 Hx2]. unfold frame_set. rewrite u64_small by lia.
  apply wp_env. eapply wp_mono; [by apply (held_clear _ _ _ _ _ _ _ _ Hh)|]. cbv beta. eauto.
Qed.

(** A register that holds 0. *)
Lemma frame_get_spec H k p4 B f X s frame fld :
  held H k p4 B f B X (env s) → in_use B (frame + fld) 8 → (∀ i, 0 ≤ i < 8 → f (frame + fld + i) = 0) →
  wp (frame_get frame fld) s (λ v s', v = 0 ∧ ∃ e', s' = set_env e' s ∧ held H k p4 B f B X e').
Proof.
  intros Hh Hu Hz. destruct (held_use _ _ _ _ _ _ _ _ _ Hh Hu ltac:(lia)) as [Hx1 Hx2]. unfold frame_get. rewrite u64_small by lia.
  pose proof Hh as [H1 H2 H3 H4 H5 H6 H7]. apply wp_env. eapply wp_mono; [apply (sl_load64 _ _ H1); by rewrite H6|]. cbv beta.
  intros v e' (-> & Ha & (_ & _ & Hk)). split.
  - assert (∀ i, 0 ≤ i < 8 → sv_byte (env s) (frame + fld + i) = 0) as Hb.
    { intros i Hi. rewrite H4, Hz; [done|done|]. eapply in_use_part; [exact Hu|lia]. }
    change (seqZ 0 8) with [0; 1; 2; 3; 4; 5; 6; 7]. cbn [fmap list_fmap]. by rewrite !Hb by lia.
  - exists e'. split; [done|]. eapply held_accessed; [exact Hh|exact Ha|]. intros x Hx.
    destruct Ha as (_ & _ & Hb & _). rewrite Hk, H4; [done|done|by rewrite H6|by rewrite Hb, H6].
Qed.

(** One byte of a copy. *)
Lemma copy_byte H k p4 B f X s dst src i :
  held H k p4 B (copied dst src i f) B X (env s) → in_use B (src + i) 1 → in_use B (dst + i) 1 → 0 ≤ i →
  (dst ≤ src + i < dst + i → False) →
  wp (b <- lift (ke_load8 (src + i)) ;; lift (ke_store8 (dst + i) b)) s
    (λ _ s', ∃ e', s' = set_env e' s ∧ held H k p4 B (copied dst src (i + 1) f) B X e').
Proof.
  intros Hh Hs Hd Hi Hapart. pose proof Hh as [H1 H2 H3 H4 H5 H6 H7]. wp_step. apply wp_env.
  eapply wp_mono; [apply (sl_load8 _ _ H1); by rewrite H6|]. cbv beta. intros v e1 (-> & Ha & Hk).
  assert (held H k p4 B (copied dst src i f) B X e1) as Hh1.
  { eapply held_accessed; [exact Hh|exact Ha|]. intros x Hx. destruct Ha as (_ & _ & Hb & _), Hk as (_ & _ & Hk).
    rewrite Hk, H4; [done|done|by rewrite H6|by rewrite Hb, H6]. }
  pose proof Hh1 as [G1 G2 G3 G4 G5 G6 G7]. apply wp_env. cbn [env set_env].
  eapply wp_mono; [apply (sl_store8 e1 _ _ G1); by rewrite G6|]. cbv beta. intros _ e2 [Ha2 Hb2]. rewrite G6 in Hb2.
  exists e2. split; [done|]. eapply held_accessed; [exact Hh1|exact Ha2|]. intros y Hy. rewrite (Hb2 y Hy).
  assert (is_byte (sv_byte (env s) (src + i))) as Hr by (apply (sl_byte (U := U)); [done|by rewrite H6]). unfold is_byte in Hr.
  rewrite H4 in Hr by done. rewrite H4, G4 by done. rewrite u8_small by lia. unfold copied. repeat case_decide; try lia; try done.
  f_equal. lia.
Qed.

Lemma copy_bytes_spec H k p4 B f X s dst src n :
  held H k p4 B f B X (env s) → 0 ≤ n → (∀ i, 0 ≤ i < n → in_use B (src + i) 1 ∧ in_use B (dst + i) 1) →
  (∀ i j, 0 ≤ i < n → 0 ≤ j < n → src + i ≠ dst + j) →
  wp (copy_bytes dst src n) s (λ _ s', ∃ e', s' = set_env e' s ∧ held H k p4 B (copied dst src n f) B X e').
Proof.
  intros Hh Hn Hu Hap. unfold copy_bytes.
  eapply wp_mono; [apply (wp_for_each (λ dn _ s1, ∃ e1, s1 = set_env e1 s ∧ held H k p4 B (copied dst src (Z.of_nat (length dn)) f) B X e1))|].
  - exists (env s). split; [by rewrite set_env_env|]. eapply held_accessed; [exact Hh| |].
    + destruct Hh as [H1 H2 H3 H4 H5 H6 H7]. by split_and!.
    + intros x Hx. unfold copied. rewrite decide_False by (cbn; lia). by apply Hh.
  - intros dn i rest s1 El (e1 & -> & Hh1).
    assert (i = Z.of_nat (length dn) ∧ Z.of_nat (length dn) < n) as [-> Hlt].
    { apply seqZ_split_index in El. lia. }
    eapply wp_mono; [apply (copy_byte H k p4 B f X (set_env e1 s)); [done|apply Hu; lia|apply Hu; lia|lia|]|].
    + intros ?. apply (Hap (Z.of_nat (length dn)) (src + Z.of_nat (length dn) - dst)); lia.
    + cbv beta. intros _ s2 (e2 & -> & Hh2). exists e2. split; [done|]. rewrite length_app. cbn [length]. by rewrite Nat2Z.inj_add.
  - cbv beta. intros _ s1 (e1 & -> & Hh1). exists e1. split; [done|]. rewrite length_seqZ, Z2Nat.id in Hh1 by lia. exact Hh1.
Qed.
End bytes.

(** ** The nodes of the child *)

Section nodes.
Context {E : Type} {KE : KernelEnv E} {KL : KernelEnvLaws E} {TL : TaskLayout}.
Implicit Types (s : kst E).

(** The state with other nodes, counters and memory. *)
Definition stage s (ts : gmap Z thread_st) (ps : gmap Z process_st) (np nt : Z) (e : E) : kst E :=
  set_env e (set_next_tid nt (set_next_pid np (set_process_at ps (set_thread_at ts s)))).

Lemma set_env_stage s ts ps np nt e e' : set_env e' (stage s ts ps np nt e) = stage s ts ps np nt e'.
Proof. done. Qed.

Lemma new_process_spec s ts ps np nt e cp parent_ root :
  wp (zero_process_at cp ;; PROC_init_process cp parent_ root) (stage s ts ps np nt e) (λ _ s',
    s' = stage s ts (<[cp := Process np root parent_ 0 0 0 0 0 0 0 (Queue 0 0) (Queue 0 0)]> ps) (u64 (np + 1)) nt e).
Proof.
  unfold zero_process_at, PROC_init_process, PROC_init_queue, put_queue, stage. repeat put_step. done.
Qed.

Lemma new_thread_spec s ts ps np nt e child cp :
  wp (zero_thread_at child ;; PROC_init_thread child cp) (stage s ts ps np nt e) (λ _ s',
    s' = stage s (<[child := Thread nt 0 0 DEFAULT_STACK_BYTES cp 0 PROC_READY 0 0 0 0 0 0 0]> ts) ps np (u64 (nt + 1)) e).
Proof. unfold zero_thread_at, PROC_init_thread, stage. repeat put_step. done. Qed.

(** The first thread of a process. *)
Lemma link_first_thread s ts ps np nt e cp child tc pc :
  cp ≠ 0 → child ≠ 0 →
  wp (PROC_link_thread cp child) (stage s (<[child := tc]> ts) (<[cp := pc]> ps) np nt e) (λ _ s',
    s' = stage s (<[child := set_next_thread (threads pc) (set_owner cp tc)]> ts)
           (<[cp := set_live_threads (u64 (live_threads pc + 1)) (set_threads child pc)]> ps) np nt e).
Proof.
  intros Hp Hc. unfold PROC_link_thread, stage. rewrite (proj2 (Z.eqb_neq cp 0)), (proj2 (Z.eqb_neq child 0)) by done. cbn [orb].
  repeat put_step. done.
Qed.

Lemma forest_spawn ps K cp pc :
  forest ps K → ps !! cp = None → cp ≠ 0 → first_child pc = 0 → forest (<[cp := pc]> ps) K.
Proof.
  intros [H1 H2 H3 H4 H5 H6] Hc H0 Hf.
  assert (∀ {A} (h : process_st → A) p, p ≠ cp → h <$> <[cp := pc]> ps !! p = h <$> ps !! p) as Hne by (intros A h p Hp; by rewrite lookup_insert_ne).
  assert (∀ p c, c ∈ K p → c ≠ cp) as Hk by (intros p c Hin ->; specialize (H3 p cp Hin); unfold pr_of in H3; by rewrite Hc in H3).
  split.
  - intros p h Hp. unfold fc_of in Hp. eapply lseg_ext; [intros c Hin; apply (Hne _ next_sibling); by eapply Hk|].
    destruct (decide (p = cp)) as [->|Hp']; [|apply H1; unfold fc_of; by rewrite <-Hne].
    rewrite lookup_insert_eq in Hp. injection Hp as <-. rewrite H2, Hf; [done|]. unfold fc_of. by rewrite Hc.
  - intros p Hp. apply H2. unfold fc_of in *. destruct (decide (p = cp)) as [->|]; [by rewrite Hc|by rewrite Hne in Hp].
  - intros p c Hin. unfold pr_of. rewrite Hne by (by eapply Hk). by apply H3.
  - done.
  - unfold fc_of. by rewrite Hne.
  - intros p. unfold fc_of, pr_of. destruct (<[cp := pc]> ps !! p); split; intros [x Hx]; eauto; done.
Qed.

(** New nodes in no queue. *)
Lemma tasks_spawn s R Q cp child pc tc ps np nt e :
  tasks s R Q → process_at s !! cp = None → thread_at s !! child = None → child ≠ 0 → owner tc = cp →
  wait_child_exit pc = Queue 0 0 → wait_thread_exit pc = Queue 0 0 → kin_only (<[cp := pc]> (process_at s)) ps →
  Z.of_nat (size (thread_at s)) + 1 < 2 ^ 31 - 2 →
  tasks (stage s (<[child := tc]> (thread_at s)) ps np nt e) R Q.
Proof.
  intros [H1 H2 H3 H4 H5 H6 H7 H8 H9] Hcp Hch H0 Ho Hq1 Hq2 Hk Hn. set (s' := stage _ _ _ _ _ _).
  assert (∀ p, p ≠ child → thread_at s' !! p = thread_at s !! p) as Hth by (intros p Hp; cbn; by rewrite lookup_insert_ne).
  assert (∀ p, is_Some (thread_at s !! p) → p ≠ child) as Hold by (intros p [t Ht] ->; congruence).
  assert (∀ (f : process_st → proc_queue) p, (∀ o, f (no_kin o) = f o) → f <$> ps !! p = f <$> <[cp := pc]> (process_at s) !! p) as Hf.
  { intros f p Hno. specialize (Hk p). destruct (ps !! p) as [o'|], (<[cp := pc]> (process_at s) !! p) as [o|]; try done. cbn in *.
    apply (inj Some) in Hk. by rewrite <-(Hno o'), Hk, Hno. }
  assert (∀ q, queue_val s' q = queue_val s q ∨ queue_val s q = None ∧ queue_val s' q = Some (Queue 0 0)) as Hqv.
  { intros [p|p|m|a]; cbn; [| |by left|by left]; rewrite Hf by done; (destruct (decide (p = cp)) as [->|]; [|left; by rewrite lookup_insert_ne]);
      right; rewrite lookup_insert_eq, Hcp; cbn; by rewrite ?Hq1, ?Hq2. }
  split.
  - destruct H1 as [R1 R2 R3 R4 R5 R6 R7]. split; try done. eapply lseg_ext; [|exact R7]. intros p Hp. unfold sched_of.
    rewrite Hth; [done|]. apply Hold. destruct (H4 p Hp) as (t & -> & _). eauto.
  - intros q v Hv. destruct (Hqv q) as [Eq|[En Eq]]; rewrite Eq in Hv.
    + eapply queue_rep_ext; [|by apply H2]. intros p Hp. unfold lib_of. rewrite Hth; [done|]. apply Hold. destruct (H5 q p Hp) as (t & -> & _). eauto.
    + injection Hv as <-. rewrite (H3 q En). split; [constructor|done|done].
  - intros q Hv. apply H3. destruct (Hqv q) as [<-|[En Eq]]; [done|congruence].
  - intros p Hp. rewrite Hth; [by apply H4|]. apply Hold. destruct (H4 p Hp) as (t & -> & _). eauto.
  - intros q p Hp. rewrite Hth; [by apply (H5 q)|]. apply Hold. destruct (H5 q p Hp) as (t & -> & _). eauto.
  - done.
  - intros p t Ht. assert (∀ x, is_Some (<[cp := pc]> (process_at s) !! x) → is_Some (ps !! x)) as Hps.
    { intros x [o Hx]. specialize (Hk x). rewrite Hx in Hk. destruct (ps !! x); [eauto|done]. }
    destruct (decide (p = child)) as [->|Hp].
    + cbn in Ht. rewrite lookup_insert_eq in Ht. injection Ht as <-. right. apply Hps. rewrite Ho, lookup_insert_eq. eauto.
    + rewrite Hth in Ht by done. destruct (H7 p t Ht) as [?|Hs]; [by left|right]. apply Hps. by rewrite lookup_insert_is_Some'; right.
  - cbn. rewrite map_size_insert_None by done. lia.
  - by rewrite Hth.
Qed.

(** Queueing a thread that is ready and nowhere. *)
Lemma admit_ready s R Q p t :
  tasks s R Q → thread_at s !! p = Some t → run_state t = PROC_READY → p ≠ 0 → p ∉ rr_list R → (∀ q, p ∉ Q q) →
  wp (rr_admit p) s (λ _ s', tasks s' (q_admit p R) Q ∧ sched_frame s s').
Proof.
  intros Ht Et Hst H0 Hp Hq. pose proof (tk_ring _ _ _ Ht) as Hr. eapply wp_mono; [apply (rr_admit_spec s R p t Hr); try done|].
  { destruct (ra_count _ _ _ _ _ _ Hr) as [-> _]. pose proof (ring_count s R p Hr Hp ltac:(eauto)). pose proof (tk_few _ _ _ Ht). lia. }
  cbv beta. intros _ s' [Hring Hf]. split; [|done]. pose proof (keeps_sched run_state _ _ ltac:(done) (proj1 Hf)) as Hk.
  assert (∀ x c, thread_at s !! x = Some c → ∃ c', thread_at s' !! x = Some c' ∧ run_state c' = run_state c) as Hrun.
  { intros x c Hx. specialize (Hk x). rewrite Hx in Hk. destruct (thread_at s' !! x) as [c'|]; [|done]. exists c'. split; [done|]. by apply (inj Some) in Hk. }
  eapply (tasks_ring s s' R); try done.
  - intros q. destruct Hf as [_ ->]. by destruct q.
  - intros x. by destruct Hf as [_ ->].
  - by eapply keeps_sched; [|apply Hf].
  - intros x Hx. rewrite rr_list_admit in Hx. apply elem_of_app in Hx as [Hx| ->%list_elem_of_singleton].
    + destruct (tk_ready _ _ _ Ht x Hx) as (c & Ec & Hc). destruct (Hrun x c Ec) as (c' & Ec' & Hc'). exists c'. rewrite Hc'. auto.
    + destruct (Hrun p t Et) as (c' & Ec' & Hc'). exists c'. rewrite Hc'. auto.
  - intros q x c _ Hc. by apply Hrun.
Qed.
End nodes.

(** ** The call *)

Section fork.
Context {E U : Type} {KE : KernelEnv E} {KL : KernelEnvLaws E} {TL : TaskLayout} {SV : SpawnView E U} {SL : SpawnLaws E U}.
Implicit Types (e : E) (s : kst E) (B : gmap Z Z) (X : gmap Z U) (f : Z → Z) (H : Prop).

(** The size of [struct syscall_frame]. *)
Definition frame_bytes : Z := 176.

(** The caller [t] of the process [o] with [frame] on its stack; every node is a block in use or a static object. *)
Record caller s R Q K (t : thread_st) (o : process_st) B (frame : Z) : Prop := {
  cl_tasks : tasks s R Q;
  cl_forest : forest (process_at s) K;
  cl_thread : thread_at s !! curr_proc s = Some t;
  cl_owner : process_at s !! owner t = Some o;
  cl_nodes a : is_Some (thread_at s !! a) ∨ is_Some (process_at s !! a) → is_Some (B !! a) ∨ sv_static (E := E) (U := U) a;
  cl_stack : B !! kstack t = Some DEFAULT_STACK_BYTES;
  cl_frame : kstack t ≤ frame ∧ frame + frame_bytes ≤ kstack t + DEFAULT_STACK_BYTES;
  cl_few : Z.of_nat (size (thread_at s)) + 1 < 2 ^ 31 - 2
}.

(** The call failed: no node, no block, no address space is left of it. *)
Definition refused s H p4 f B X (r : Z) s' : Prop :=
  r = MINUS_ONE ∧ ¬ H ∧ ∃ np nt e, s' = stage s (thread_at s) (process_at s) np nt e ∧ held H 0 p4 B f B X e.

(** The child: its process [cp], its thread, its kernel stack [ks] and the root of its memory. *)
Record child_of s R Q K (t : thread_st) (o : process_st) (frame : Z) (u : U) f B X (cp child ks root : Z) s' : Prop := {
  ch_fresh : process_at s !! cp = None ∧ thread_at s !! child = None ∧ fresh_block B ks DEFAULT_STACK_BYTES ∧ X !! root = None;
  ch_process : no_kin <$> process_at s' !! cp = Some (Process (next_pid s) root 0 0 0 child 1 0 0 0 (Queue 0 0) (Queue 0 0));
  ch_thread : set_sched_one 0 <$> thread_at s' !! child =
    Some (Thread (next_tid s) ks (ustack t) (stacksize t) cp (ks + (frame - kstack t)) PROC_READY 0 0 0 0 0 0 0);
  ch_processes x : x ≠ cp → no_kin <$> process_at s' !! x = no_kin <$> process_at s !! x;
  ch_threads x : x ≠ child → set_sched_one 0 <$> thread_at s' !! x = set_sched_one 0 <$> thread_at s !! x;
  ch_tasks : tasks s' (q_admit child R) Q;
  ch_forest : forest (process_at s') (<[owner t := cp :: K (owner t)]> K);
  ch_vars : (mutex_at s', queue_at s', curr_proc s', next_proc s', multitask_started s', mutex_list s', next_mutex_id s', rsp0 s') =
    (mutex_at s, queue_at s, curr_proc s, next_proc s, multitask_started s, mutex_list s, next_mutex_id s, rsp0 s);
  ch_ids : next_pid s' = u64 (next_pid s + 1) ∧ next_tid s' = u64 (next_tid s + 1);
  ch_blocks : sv_blocks (env s') = <[ks := DEFAULT_STACK_BYTES]> (<[child := thread_bytes]> (<[cp := process_bytes]> B));
  ch_spaces : sv_spaces (env s') = <[root := u]> X;
  ch_bytes x : in_use B x 1 → sv_byte (env s') x = f x;
  ch_stack i : frame - kstack t ≤ i < DEFAULT_STACK_BYTES → sv_byte (env s') (ks + i) = wiped (frame + F_rax) f (kstack t + i)
}.

(** The failing ends of the call, each freeing what was there before. *)
Lemma undo_process s ts ps np nt e H k p4 B0 f B X cp pc n root u :
  held H k p4 B0 f (<[cp := n]> B) (<[root := u]> X) e → B0 ⊆ B → B !! cp = None → ps !! cp = None →
  ¬ sv_static (E := E) (U := U) cp → X !! root = None → ¬ H →
  wp (free_process_node cp ;; lift (ke_destroy_userspace root) ;; ret MINUS_ONE) (stage s ts (<[cp := pc]> ps) np nt e)
    (λ r s', r = MINUS_ONE ∧ ∃ e', s' = stage s ts ps np nt e' ∧ held H 0 p4 B0 f B X e').
Proof.
  intros Hh Hs HB Hp Hst HX HH. unfold free_process_node. wp_step. wp_step. apply wp_env. cbn [env stage set_env].
  eapply wp_mono; [by apply (held_kfree _ _ _ _ _ _ _ _ _ _ Hh)|]. cbv beta. intros _ e1 Hh1. apply wp_modify.
  wp_step. apply wp_env. cbn [env set_process_at stage set_env].
  eapply wp_mono; [by apply (held_destroy _ _ _ _ _ _ _ _ _ _ Hh1)|]. cbv beta. intros _ e2 Hh2. apply wp_ret. split; [done|].
  exists e2. split; [|done]. unfold stage. cbn. by rewrite delete_insert_id.
Qed.

Lemma undo_thread s ts ps np nt e H k p4 B0 f B X child tc n (rest : M (kst E) Z) P :
  held H k p4 B0 f (<[child := n]> B) X e → B0 ⊆ B → B !! child = None → ts !! child = None →
  ¬ sv_static (E := E) (U := U) child → ¬ H →
  (∀ e', held H 0 p4 B0 f B X e' → wp rest (stage s ts ps np nt e') P) →
  wp (free_thread_node child ;; rest) (stage s (<[child := tc]> ts) ps np nt e) P.
Proof.
  intros Hh Hs HB Hp Hst HH Hrest. unfold free_thread_node. wp_step. wp_step. apply wp_env. cbn [env stage set_env].
  eapply wp_mono; [by apply (held_kfree _ _ _ _ _ _ _ _ _ _ Hh)|]. cbv beta. intros _ e1 Hh1. apply wp_modify.
  specialize (Hrest e1 Hh1). unfold stage in *. cbn. by rewrite delete_insert_id.
Qed.

(** The child's stack and registers. *)
Lemma fork_child_spec s ts ps np nt e frame par t tc child ks off H k p4 B f X :
  held H k p4 B f B X e → ts !! par = Some t → par ≠ child →
  B !! ks = Some DEFAULT_STACK_BYTES → B !! kstack t = Some DEFAULT_STACK_BYTES →
  ks + DEFAULT_STACK_BYTES ≤ kstack t ∨ kstack t + DEFAULT_STACK_BYTES ≤ ks → 0 ≤ off → off + frame_bytes ≤ DEFAULT_STACK_BYTES →
  wp (fork_child frame par child ks off) (stage s (<[child := tc]> ts) ps np nt e) (λ _ s', ∃ e',
    s' = stage s (<[child := set_rsp (ks + off) (set_stacksize (stacksize t) (set_ustack (ustack t) (set_kstack ks tc)))]> ts) ps np nt e' ∧
    held H k p4 B (wiped (ks + off + F_rax) (copied (ks + off) (kstack t + off) (DEFAULT_STACK_BYTES - off) f)) B X e').
Proof.
  intros Hh Et Hne Hks Hkt Hd H0 Hoff. unfold frame_bytes in Hoff.
  assert (∀ b x n, B !! b = Some DEFAULT_STACK_BYTES → b ≤ x → x + n ≤ b + DEFAULT_STACK_BYTES → in_use B x n) as Hu by (intros b x n Hb ? ?; exists b, DEFAULT_STACK_BYTES; done).
  destruct (held_use _ _ _ _ _ _ _ ks DEFAULT_STACK_BYTES Hh (Hu ks ks DEFAULT_STACK_BYTES Hks ltac:(lia) ltac:(lia)) ltac:(done)) as [Hr1 Hr2].
  destruct (held_use _ _ _ _ _ _ _ (kstack t) DEFAULT_STACK_BYTES Hh (Hu (kstack t) (kstack t) DEFAULT_STACK_BYTES Hkt ltac:(lia) ltac:(lia)) ltac:(done)) as [Hr3 Hr4].
  unfold fork_child. wp_step. eapply wp_thread; [cbn; by rewrite lookup_insert_ne|]. rewrite !u64_small by lia. cbv zeta.
  wp_step. eapply wp_mono; [apply (copy_bytes_spec H k p4 B f X); [exact Hh|lia| |]|].
  { intros i Hi. split; [apply (Hu (kstack t))|apply (Hu ks)]; done || lia. }
  { intros i j Hi Hj. lia. }
  cbv beta. intros _ s1 (e1 & -> & Hh1). do 3 (wp_step; eapply wp_upd_thread; [cbn; apply lookup_insert_eq|]; cbn; rewrite insert_insert_eq).
  wp_step. eapply wp_mono; [apply (frame_set_spec H k p4 B); [exact Hh1|]|].
  { apply (Hu ks); [done|unfold F_rax; lia..]. }
  cbv beta. intros _ s2 (e2 & -> & Hh2). eapply wp_upd_thread; [cbn; apply lookup_insert_eq|]. cbn. rewrite insert_insert_eq.
  exists e2. split; [done|exact Hh2].
Qed.

Lemma block_apart B a n b m x : fresh_block B a n → B !! b = Some m → b ≤ x < b + m → a ≤ x < a + n → False.
Proof. intros [_ Hf] Hb Hx Hx'. apply (Hf x Hx'). exists b, m. split; [done|lia]. Qed.

Lemma fresh_apart B a b n : 0 < n → fresh_block B a n → B !! b = Some n → a + n ≤ b ∨ b + n ≤ a.
Proof.
  intros Hn Hf Hb. destruct (decide (a + n ≤ b)); [by left|]. destruct (decide (b + n ≤ a)); [by right|].
  exfalso. apply (block_apart B a n b n (Z.max a b)); [done|done|lia..].
Qed.

Lemma fresh_old B B' a n : B ⊆ B' → fresh_block B' a n → fresh_block B a n.
Proof.
  intros Hs [H1 H2]. split; [by eapply lookup_weaken_None|]. intros x Hx Hu. apply (H2 x Hx). by eapply in_use_mono.
Qed.

(** The bytes after the copy. *)
Lemma fork_bytes t frame f B ks x (f1 : Z → Z) :
  let off := frame - kstack t in
  let g := wiped (ks + off + F_rax) (copied (ks + off) (kstack t + off) (DEFAULT_STACK_BYTES - off) f1) in
  fresh_block B ks DEFAULT_STACK_BYTES → B !! kstack t = Some DEFAULT_STACK_BYTES → 0 ≤ off → off + frame_bytes ≤ DEFAULT_STACK_BYTES →
  (∀ y, in_use B y 1 → f1 y = f y) →
  (in_use B x 1 → g x = f x) ∧ (off ≤ x < DEFAULT_STACK_BYTES → g (ks + x) = wiped (frame + F_rax) f (kstack t + x)).
Proof.
  intros off g [_ Hf] Hkt H0 Hoff Hb. unfold g, wiped, copied, frame_bytes, F_rax in *. split.
  - intros Hx. assert (¬ ks ≤ x < ks + DEFAULT_STACK_BYTES) as Hn by (intros Hr; by apply (Hf x Hr)).
    rewrite !decide_False by lia. by apply Hb.
  - intros Hx. destruct (decide (frame + 112 ≤ kstack t + x < frame + 112 + 8)); [by rewrite decide_True by lia|].
    rewrite decide_False, decide_True by lia. replace (kstack t + off + (ks + x - (ks + off))) with (kstack t + x) by lia.
    apply Hb. exists (kstack t), DEFAULT_STACK_BYTES. split; [done|lia].
Qed.

(** The new nodes, before the tree and the scheduler. *)
Definition child_thread s (t : thread_st) (frame cp ks : Z) : thread_st :=
  Thread (next_tid s) ks (ustack t) (stacksize t) cp (ks + (frame - kstack t)) PROC_READY 0 0 0 0 0 0 0.
Definition child_process s (t : thread_st) (child root : Z) : process_st :=
  Process (next_pid s) root (owner t) 0 0 child 1 0 0 0 (Queue 0 0) (Queue 0 0).

Lemma child_made s R Q K t o u frame H p4 f g B X cp child ks root ps e s' :
  let off := frame - kstack t in
  let B2 := <[ks := DEFAULT_STACK_BYTES]> (<[child := thread_bytes]> (<[cp := process_bytes]> B)) in
  process_at s !! cp = None → thread_at s !! child = None → fresh_block B ks DEFAULT_STACK_BYTES → X !! root = None →
  kin_only (<[cp := child_process s t child root]> (process_at s)) ps → forest ps (<[owner t := cp :: K (owner t)]> K) →
  tasks s' (q_admit child R) Q →
  sched_frame (stage s (<[child := child_thread s t frame cp ks]> (thread_at s)) ps (u64 (next_pid s + 1)) (u64 (next_tid s + 1)) e) s' →
  held H 0 p4 B2 g B2 (<[root := u]> X) e → B ⊆ B2 →
  (∀ x, in_use B x 1 → g x = f x) → (∀ i, off ≤ i < DEFAULT_STACK_BYTES → g (ks + i) = wiped (frame + F_rax) f (kstack t + i)) → 0 ≤ off →
  child_of s R Q K t o frame u f B X cp child ks root s'.
Proof.
  intros off B2 Hcp Hch Hfr HX Hkin Hfo Ht [Hso Hs'] [H1 H2 H3 H4 H5 H6 H7] Hsub Hb Hst Hoff. rewrite Hs' in Ht |- *. cbn in Hso.
  assert (∀ x, in_use B2 x 1 → sv_byte e x = g x) as Hg by done.
  split; try done.
  - cbn. rewrite (Hkin cp), lookup_insert_eq. done.
  - cbn. rewrite (Hso child), lookup_insert_eq. done.
  - intros x Hx. cbn. by rewrite (Hkin x), lookup_insert_ne.
  - intros x Hx. cbn. by rewrite (Hso x), lookup_insert_ne.
  - intros x Hx. cbn. rewrite Hg; [by apply Hb|by eapply in_use_mono].
  - intros i Hi. cbn. rewrite Hg; [by apply Hst|]. exists ks, DEFAULT_STACK_BYTES. unfold B2. rewrite lookup_insert_eq. split; [done|lia].
Qed.

(** The call once everything is allocated. *)
Lemma fork_tail s R Q K t o u frame H p4 B f X cp child ks root e :
  let B1 := <[child := thread_bytes]> (<[cp := process_bytes]> B) in
  caller s R Q K t o B frame → held H 0 p4 B f (<[ks := DEFAULT_STACK_BYTES]> B1) (<[root := u]> X) e → B ⊆ B1 →
  fresh_block B1 ks DEFAULT_STACK_BYTES → process_at s !! cp = None → thread_at s !! child = None → cp ≠ 0 → child ≠ 0 → X !! root = None →
  wp (fork_child frame (curr_proc s) child ks (frame - kstack t) ;; PROC_link_thread cp child ;; PROC_link_process_child (owner t) cp ;;
      rr_admit child ;; c <- process cp ;; ret (pid c))
    (stage s (<[child := Thread (next_tid s) 0 0 DEFAULT_STACK_BYTES cp 0 PROC_READY 0 0 0 0 0 0 0]> (thread_at s))
      (<[cp := Process (next_pid s) root (owner t) 0 0 0 0 0 0 0 (Queue 0 0) (Queue 0 0)]> (process_at s)) (u64 (next_pid s + 1)) (u64 (next_tid s + 1)) e)
    (λ r s', r = next_pid s ∧ child_of s R Q K t o frame u f B X cp child ks root s').
Proof.
  intros B1 Hc Hh Hsub Hfr Hcp Hch Hcp0 Hch0 Hroot. pose proof Hc as [C1 C2 C3 C4 C5 C6 C7 C8].
  assert (B1 !! kstack t = Some DEFAULT_STACK_BYTES) as Hkt by (by eapply lookup_weaken).
  assert (owner t ≠ cp) as Hoc by (intros Heq; rewrite Heq in C4; congruence).
  assert ((child ∉ rr_list R) ∧ ∀ q, child ∉ Q q) as [HnR HnQ].
  { split; [intros Hx; destruct (tk_ready _ _ _ C1 child Hx) as (c & Ec & _)|intros q Hx; destruct (tk_waiting _ _ _ C1 q child Hx) as (c & Ec & _)]; congruence. }
  set (B2 := <[ks := DEFAULT_STACK_BYTES]> B1) in *.
  assert (held H 0 p4 B2 (sv_byte e) B2 (<[root := u]> X) e) as Hh' by (destruct Hh; by split).
  wp_step. eapply wp_mono; [apply (fork_child_spec s _ _ _ _ e frame (curr_proc s) t _ child ks (frame - kstack t) _ _ _ _ _ _ Hh')|].
  { exact C3. }
  { intros Heq. rewrite Heq in C3. congruence. }
  { apply lookup_insert_eq. }
  { unfold B2. rewrite lookup_insert_ne; [done|]. intros ->. destruct Hfr as [Hfr _]. congruence. }
  { by apply (fresh_apart B1). }
  { lia. }
  { unfold frame_bytes in *. lia. }
  cbv beta. intros _ s1 (e1 & -> & Hh1). wp_step. eapply wp_mono; [by apply link_first_thread|]. cbv beta. intros _ s2 ->.
  set (tc := child_thread s t frame cp ks). set (pc := child_process s t child root).
  change (stage _ _ _ _ _ _) with (stage s (<[child := tc]> (thread_at s)) (<[cp := pc]> (process_at s)) (u64 (next_pid s + 1)) (u64 (next_tid s + 1)) e1).
  wp_step. eapply wp_mono; [apply (PROC_link_process_child_spec _ K)|].
  { cbn. by apply forest_spawn. }
  { cbn. rewrite lookup_insert_ne by done. eauto. }
  { cbn. rewrite lookup_insert_eq. eauto. }
  { intros Heq. rewrite Heq in C4. destruct C2 as [_ _ _ _ C2 _]. unfold fc_of in C2. by rewrite C4 in C2. }
  { done. }
  { done. }
  { intros p' Hin. destruct (forest_child _ _ _ _ C2 Hin) as (_ & [x Hx] & _). congruence. }
  cbv beta. intros _ s3 (ps & -> & Hkin & Hfo). cbn in Hkin.
  pose proof (tasks_spawn s R Q cp child pc tc ps (u64 (next_pid s + 1)) (u64 (next_tid s + 1)) e1 C1 Hcp Hch Hch0 eq_refl eq_refl eq_refl Hkin C8) as Ht3.
  wp_step. eapply wp_mono; [apply (admit_ready _ R Q child tc Ht3); try done; cbn; apply lookup_insert_eq|]. cbv beta.
  intros _ s4 [Ht4 Hf4]. assert (pid <$> process_at s4 !! cp = Some (next_pid s)) as Hpid.
  { destruct Hf4 as [_ ->]. cbn. specialize (Hkin cp). rewrite lookup_insert_eq in Hkin. destruct (ps !! cp) as [c|]; [|done].
    apply (inj Some) in Hkin. apply (f_equal pid) in Hkin. cbn in Hkin |- *. by rewrite Hkin. }
  apply fmap_Some in Hpid as (c & Ec & Hc'). wp_step. eapply wp_process; [exact Ec|]. apply wp_ret. split; [done|].
  assert (∀ y, in_use B y 1 → sv_byte e y = f y) as Hby by apply Hh.
  pose proof (λ x, fork_bytes t frame f B ks x (sv_byte e) (fresh_old _ _ _ _ Hsub Hfr) C6 ltac:(lia) ltac:(unfold frame_bytes in *; lia) Hby) as Hb.
  eapply (child_made s R Q K t o u frame H p4 f _ B X cp child ks root ps e1); try done;
    [by eapply fresh_old|apply Hh|apply Hb|intros i; apply Hb|lia].
Qed.

(** [clone_process] is refused to kernel processes and to processes with several threads. *)
Definition forkable (p4 : Z) (o : process_st) : bool := negb ((cr3 o =? 0) || (cr3 o =? p4) || negb (live_threads o =? 1)).

Lemma caller_owner_spec s R Q K t o B frame e :
  caller s R Q K t o B frame → wp caller_owner (set_env e s) (λ w s', w = Some (owner t) ∧ s' = set_env e s).
Proof.
  intros [C1 C2 C3 C4 _ _ _ _]. unfold caller_owner. wp_step. apply wp_gets. cbn.
  rewrite (proj2 (Z.eqb_neq (curr_proc s) 0)) by (intros Heq; rewrite Heq, (tk_null _ _ _ C1) in C3; done).
  wp_step. eapply wp_thread; [exact C3|]. rewrite (proj2 (Z.eqb_neq (owner t) 0)); [done|].
  intros Heq. rewrite Heq in C4. destruct C2 as [_ _ _ _ C2 _]. unfold fc_of in C2. by rewrite C4 in C2.
Qed.

(** A new node has no address in use. *)
Lemma node_fresh s R Q K t o B frame B' a n :
  caller s R Q K t o B frame → B ⊆ B' → fresh_block B' a n → ¬ sv_static (E := E) (U := U) a →
  thread_at s !! a = None ∧ process_at s !! a = None.
Proof.
  intros Hc Hs Hf Hst. apply (fresh_old _ _ _ _ Hs) in Hf as [Hf _]. pose proof (cl_nodes _ _ _ _ _ _ _ _ Hc a) as Hn.
  split; apply eq_None_not_Some; intros Hx; (destruct Hn as [[x Hx']|]; [by auto|congruence|done]).
Qed.

(** A request and the test of its result. *)
Lemma kmalloc_or H k p4 B0 f B X s n (bad : M (kst E) Z) (good : Z → M (kst E) Z) P :
  held H (S k) p4 B0 f B X (env s) → 0 < n ≤ DEFAULT_STACK_BYTES →
  (∀ e, ¬ H → held H 0 p4 B0 f B X e → wp bad (set_env e s) P) →
  (∀ a e, a ≠ 0 → fresh_block B a n → ¬ sv_static (E := E) (U := U) a → held H k p4 B0 f (<[a := n]> B) X e → wp (good a) (set_env e s) P) →
  wp (a <- lift (ke_kmalloc n) ;; if a =? 0 then bad else good a) s P.
Proof.
  intros Hh Hn Hbad Hgood. wp_step. apply wp_env. eapply wp_mono; [by apply (held_kmalloc _ _ _ _ _ _ _ _ _ Hh)|]. cbv beta.
  intros a e [(-> & HH & Hh')|(Ha & Hf & Hs & Hh')]; [by apply Hbad|]. rewrite (proj2 (Z.eqb_neq a 0)) by done. by apply Hgood.
Qed.

Lemma clone_or H k p4 B0 f B X s root0 u (bad : M (kst E) Z) (good : Z → M (kst E) Z) P :
  held H (S k) p4 B0 f B X (env s) → X !! root0 = Some u →
  (∀ e, ¬ H → held H 0 p4 B0 f B X e → wp bad (set_env e s) P) →
  (∀ a e, a ≠ 0 → X !! a = None → held H k p4 B0 f B (<[a := u]> X) e → wp (good a) (set_env e s) P) →
  wp (a <- lift (ke_clone_userspace root0) ;; if a =? 0 then bad else good a) s P.
Proof.
  intros Hh Hn Hbad Hgood. wp_step. apply wp_env. eapply wp_mono; [by apply (held_clone _ _ _ _ _ _ _ _ _ u Hh)|]. cbv beta.
  intros a e [(-> & HH & Hh')|(Ha & Hf & Hh')]; [by apply Hbad|]. rewrite (proj2 (Z.eqb_neq a 0)) by done. by apply Hgood.
Qed.

Lemma refuse s H p4 f B X np nt e : ¬ H → held H 0 p4 B f B X e → refused s H p4 f B X MINUS_ONE (stage s (thread_at s) (process_at s) np nt e).
Proof. intros HH Hh. split; [done|]. split; [done|]. by exists np, nt, e. Qed.

(** The second half, with the process in place. *)
Lemma clone_rest s R Q K t o u frame H p4 f B X cp root e :
  caller s R Q K t o B frame → held H 2 p4 B f (<[cp := process_bytes]> B) (<[root := u]> X) e →
  cp ≠ 0 → fresh_block B cp process_bytes → ¬ sv_static (E := E) (U := U) cp → X !! root = None → process_at s !! cp = None →
  wp (child <- lift (ke_kmalloc thread_bytes) ;;
      if child =? 0 then free_process_node cp ;; lift (ke_destroy_userspace root) ;; ret MINUS_ONE else
      zero_thread_at child ;;
      PROC_init_thread child cp ;;
      kstack_ <- lift (ke_kmalloc DEFAULT_STACK_BYTES) ;;
      if kstack_ =? 0 then free_thread_node child ;; free_process_node cp ;; lift (ke_destroy_userspace root) ;; ret MINUS_ONE else
      c <- thread (curr_proc s) ;;
      let frame_offset := u64 (frame - kstack c) in
      if DEFAULT_STACK_BYTES <=? frame_offset then
        lift (ke_kfree kstack_) ;; free_thread_node child ;; free_process_node cp ;; lift (ke_destroy_userspace root) ;; ret MINUS_ONE else
      fork_child frame (curr_proc s) child kstack_ frame_offset ;;
      PROC_link_thread cp child ;; PROC_link_process_child (owner t) cp ;; rr_admit child ;; c <- process cp ;; ret (pid c))
    (stage s (thread_at s) (<[cp := Process (next_pid s) root (owner t) 0 0 0 0 0 0 0 (Queue 0 0) (Queue 0 0)]> (process_at s))
      (u64 (next_pid s + 1)) (next_tid s) e)
    (λ r s', refused s H p4 f B X r s' ∨ r = next_pid s ∧ ∃ cp child ks root, child_of s R Q K t o frame u f B X cp child ks root s').
Proof.
  intros Hc Hh Hcp0 Hcpf Hcps Hrn Hcpn. pose proof Hc as [C1 C2 C3 C4 C5 C6 C7 C8].
  assert (B ⊆ <[cp := process_bytes]> B) as Hsub by (apply insert_subseteq, Hcpf).
  set (pc := Process (next_pid s) _ _ _ _ _ _ _ _ _ _ _). set (P := λ r s', _ ∨ _).
  assert (∀ np nt e', ¬ H → held H 0 p4 B f (<[cp := process_bytes]> B) (<[root := u]> X) e' →
    wp (free_process_node cp ;; lift (ke_destroy_userspace root) ;; ret MINUS_ONE) (stage s (thread_at s) (<[cp := pc]> (process_at s)) np nt e') P) as Hundo.
  { intros np nt e' HH Hh'. eapply wp_mono; [eapply undo_process; [exact Hh'|done|apply Hcpf|done..]|]. cbv beta.
    intros r s' (-> & e1 & -> & Hh1). left. by apply refuse. }
  apply (kmalloc_or H 1 p4 B f (<[cp := process_bytes]> B) (<[root := u]> X)); [exact Hh|done| |].
  { intros e3 HH Hh3. rewrite set_env_stage. by apply Hundo. }
  intros child e3 Hch0 Hchf Hchs Hh3. destruct (node_fresh _ _ _ _ _ _ _ _ _ _ _ Hc Hsub Hchf Hchs) as [Hchn _].
  rewrite set_env_stage. apply wp_seq. eapply wp_mono; [apply new_thread_spec|]. cbv beta. intros _ s4 ->.
  apply (kmalloc_or H 0 p4 B f (<[child := thread_bytes]> (<[cp := process_bytes]> B)) (<[root := u]> X)); [exact Hh3|done| |].
  { intros e4 HH Hh4. rewrite set_env_stage. eapply undo_thread; [exact Hh4|done|apply Hchf|done|done|done|]. intros e5 Hh5.
    by apply Hundo. }
  intros ks e4 Hks0 Hksf Hkss Hh4. rewrite set_env_stage. wp_step. eapply wp_thread.
  { cbn. rewrite lookup_insert_ne; [exact C3|]. intros Heq. rewrite Heq in Hchn. congruence. }
  cbv zeta. rewrite u64_small, (proj2 (Z.leb_gt DEFAULT_STACK_BYTES (frame - kstack t))) by (unfold frame_bytes, DEFAULT_STACK_BYTES in *; lia).
  eapply wp_mono; [by apply (fork_tail s R Q K t o u frame H p4 B f X cp child ks root e4 Hc Hh4);
    [etrans; [exact Hsub|apply insert_subseteq, Hchf]|..]|]. cbv beta. intros r s5 [-> Hch]. right. split; [done|]. by exists cp, child, ks, root.
Qed.

Lemma clone_process_spec s R Q K t o u frame H p4 f B X e :
  caller s R Q K t o B frame → held H 4 p4 B f B X e → X !! cr3 o = Some u → forkable p4 o = true →
  wp (clone_process frame) (set_env e s) (λ r s',
    refused s H p4 f B X r s' ∨ r = next_pid s ∧ ∃ cp child ks root, child_of s R Q K t o frame u f B X cp child ks root s').
Proof.
  intros Hc Hh HX Hg. pose proof Hc as [C1 C2 C3 C4 C5 C6 C7 C8]. unfold clone_process. wp_step. apply wp_gets.
  wp_step. eapply wp_mono; [by eapply caller_owner_spec|]. cbv beta. intros w s0 [-> ->]. cbv iota.
  wp_step. eapply wp_process; [exact C4|]. wp_step. apply wp_gets. cbn [env set_env]. rewrite (hd_p4 _ _ _ _ _ _ _ _ Hh).
  unfold forkable in Hg. apply negb_true_iff in Hg. rewrite Hg.
  apply (clone_or H 3 p4 B f B X (set_env e s) (cr3 o) u); [exact Hh|exact HX| |].
  { intros e1 HH Hh1. left. by apply (refuse s H p4 f B X (next_pid s) (next_tid s)). }
  intros root e1 Hr0 Hrn Hh1. apply (kmalloc_or H 2 p4 B f B (<[root := u]> X) (set_env e1 s)); [exact Hh1|done| |].
  { intros e2 HH Hh2. wp_step. apply wp_env. cbn [env set_env]. eapply wp_mono; [by apply (held_destroy _ _ _ _ _ _ _ _ _ _ Hh2)|]. cbv beta.
    intros _ e3 Hh3. left. by apply (refuse s H p4 f B X (next_pid s) (next_tid s)). }
  intros cp e2 Hcp0 Hcpf Hcps Hh2. destruct (node_fresh _ _ _ _ _ _ _ _ _ _ _ Hc ltac:(reflexivity) Hcpf Hcps) as [_ Hcpn].
  apply wp_seq. eapply wp_mono; [apply (new_process_spec s (thread_at s) (process_at s) (next_pid s) (next_tid s) e2)|]. cbv beta. intros _ s3 ->.
  by apply (clone_rest s R Q K t o u).
Qed.

Lemma clone_process_refused s R Q K t o frame p4 B e :
  caller s R Q K t o B frame → ke_kernel_p4 e = p4 → forkable p4 o = false →
  wp (clone_process frame) (set_env e s) (λ r s', r = MINUS_ONE ∧ s' = set_env e s).
Proof.
  intros Hc Hp Hg. unfold clone_process. wp_step. apply wp_gets.
  wp_step. eapply wp_mono; [by eapply caller_owner_spec|]. cbv beta. intros w s0 [-> ->]. cbv iota.
  wp_step. eapply wp_process; [apply Hc|]. wp_step. apply wp_gets. cbn [env set_env]. rewrite Hp.
  unfold forkable in Hg. apply negb_false_iff in Hg. by rewrite Hg.
Qed.

(** The arguments are cleared, and [syscall_clone] finds [CLONE_PROCESS]. *)
Lemma fork_enters s R Q K t o frame H k p4 B f X P :
  caller s R Q K t o B frame → held H k p4 B f B X (env s) →
  (∀ e, held H k p4 B (cleared frame f) B X e → wp (clone_process frame) (set_env e s) P) →
  wp (syscall_fork frame) s P.
Proof.
  intros Hc Hh Hrest. destruct Hc as [_ _ _ _ _ C6 C7 _].
  assert (∀ fld, 0 ≤ fld ≤ frame_bytes - 8 → in_use B (frame + fld) 8) as Hu.
  { intros fld Hf. exists (kstack t), DEFAULT_STACK_BYTES. split; [done|]. lia. }
  unfold syscall_fork. do 4 (wp_step; eapply wp_mono; [apply (frame_set_spec H k p4 B); [eassumption|by apply Hu]|]; cbv beta; clear Hh;
    intros _ ? (? & -> & Hh)).
  unfold syscall_clone. wp_step. eapply wp_mono; [eapply frame_get_spec; [exact Hh|by apply Hu|]|].
  { intros i Hi. unfold wiped, F_r10, F_rdx, F_rsi, F_rdi. repeat (case_decide; [done|]). lia. }
  cbv beta. intros v ? (-> & e & -> & Hh'). by apply Hrest.
Qed.

End fork.

(** ** A memory for the example

    Blocks are handed out upwards from [ce_next], roots from [ce_root]; a space is the list of its bytes. *)
Record cells := Cells { ce_ints : bool; ce_next : Z; ce_root : Z; ce_blocks : gmap Z Z; ce_bytes : gmap Z Z; ce_spaces : gmap Z (list Z) }.

Definition CELLS : Z := 2 ^ 32.
Definition cell (h : cells) (x : Z) : Z := u8 (default 0 (ce_bytes h !! x)).
Definition with_bytes (m : gmap Z Z) (h : cells) : cells := Cells (ce_ints h) (ce_next h) (ce_root h) (ce_blocks h) m (ce_spaces h).
Definition with_spaces (r : Z) (m : gmap Z (list Z)) (h : cells) : cells := Cells (ce_ints h) (ce_next h) r (ce_blocks h) (ce_bytes h) m.
Definition with_blocks (a : Z) (m : gmap Z Z) (h : cells) : cells := Cells (ce_ints h) a (ce_root h) m (ce_bytes h) (ce_spaces h).
Definition word_bytes (x v : Z) (m : gmap Z Z) : gmap Z Z := foldr (λ i, <[x + i := v / 2 ^ (8 * i)]>) m (seqZ 0 8).

#[export] Instance cells_env : KernelEnv cells := {|
  ke_ints := ce_ints;
  ke_set_ints b h := Cells b (ce_next h) (ce_root h) (ce_blocks h) (ce_bytes h) (ce_spaces h);
  ke_kmalloc n := λ h, Ret (if ce_next h + n <=? CELLS then (ce_next h, with_blocks (ce_next h + n) (<[ce_next h := n]> (ce_blocks h)) h) else (0, h));
  ke_kfree a := modify (λ h, with_blocks (ce_next h) (delete a (ce_blocks h)) h);
  ke_load8 a := gets (λ h, cell h a);
  ke_store8 a v := modify (λ h, with_bytes (<[a := v]> (ce_bytes h)) h);
  ke_load64 a := gets (λ h, le ((λ i, cell h (a + i)) <$> seqZ 0 8));
  ke_store64 a v := modify (λ h, with_bytes (word_bytes a v (ce_bytes h)) h);
  ke_store32 a v := modify (λ h, with_bytes (word_bytes a v (ce_bytes h)) h);
  ke_kernel_p4 _ := 0x90000;
  ke_switch_p4 _ := ret tt;
  ke_clone_userspace p := λ h, Ret (match ce_spaces h !! p with
    | Some u => (ce_root h, with_spaces (ce_root h + 0x1000) (<[ce_root h := u]> (ce_spaces h)) h) | None => (0, h) end);
  ke_destroy_userspace p := modify (λ h, with_spaces (ce_root h) (delete p (ce_spaces h)) h)
|}.

#[export] Instance cells_kernel_laws : KernelEnvLaws cells.
Proof. split; [done|done|by intros []|]. intros p4 h. by eexists. Qed.

Record cells_ok (h : cells) : Prop := {
  co_next : 0x10000 ≤ ce_next h ≤ CELLS;
  co_root : 0 < ce_root h;
  co_blocks b n : ce_blocks h !! b = Some n → 0 < b ∧ 0 < n ∧ b + n ≤ ce_next h;
  co_spaces r : is_Some (ce_spaces h !! r) → r < ce_root h
}.

#[export] Instance cells_view : SpawnView cells (list Z) := {|
  sv_ok := cells_ok;
  sv_room k h := ce_next h + Z.of_nat k * DEFAULT_STACK_BYTES ≤ CELLS;
  sv_static a := a = 0x8000 ∨ a = 0x9000;
  sv_blocks := ce_blocks;
  sv_byte := cell;
  sv_spaces := ce_spaces
|}.

Lemma word_bytes_lookup x v m y :
  word_bytes x v m !! y = if decide (x ≤ y < x + 8) then Some (v / 2 ^ (8 * (y - x))) else m !! y.
Proof.
  unfold word_bytes. change (seqZ 0 8) with [0; 1; 2; 3; 4; 5; 6; 7]. cbn [foldr].
  destruct (decide (x ≤ y < x + 8)) as [Hy|Hy].
  - assert (∃ i, y = x + i ∧ i ∈ [0; 1; 2; 3; 4; 5; 6; 7]) as (i & -> & Hi).
    { exists (y - x). split; [lia|]. change [0; 1; 2; 3; 4; 5; 6; 7] with (seqZ 0 8). apply elem_of_seqZ. lia. }
    replace (x + i - x) with i by lia. repeat (apply elem_of_cons in Hi as [->|Hi]; [rewrite ?lookup_insert_ne, lookup_insert_eq by lia; done|]).
    by apply elem_of_nil in Hi.
  - by rewrite !lookup_insert_ne by lia.
Qed.

Lemma cells_alloc h n :
  cells_ok h → 0 < n → ce_next h + n ≤ CELLS → cells_ok (with_blocks (ce_next h + n) (<[ce_next h := n]> (ce_blocks h)) h) ∧
  fresh_block (ce_blocks h) (ce_next h) n.
Proof.
  intros [H1 H2 H3 H4] Hn Hle. split.
  - split; cbn; [lia|done| |done]. intros b m [[<- <-]|[_ Hb]]%lookup_insert_Some; [lia|]. specialize (H3 b m Hb). lia.
  - split; [|intros x Hx (b & m & Hb & ?); specialize (H3 b m Hb); lia].
    apply eq_None_not_Some. intros [m Hm]. specialize (H3 _ _ Hm). lia.
Qed.

Lemma cells_accessed h m : cells_ok h → accessed (U := list Z) h (with_bytes m h).
Proof. intros [H1 H2 H3 H4]. by split_and!; [split|..]. Qed.

Lemma cells_granted (h h' : cells) a m :
  0 ≤ m ≤ DEFAULT_STACK_BYTES → ce_next h' = ce_next h + m → (a = 0 → CELLS < ce_next h + DEFAULT_STACK_BYTES) → granted (U := list Z) h h' a.
Proof.
  intros Hm Hn Ha. unfold granted, sv_room. cbn [cells_view]. unfold DEFAULT_STACK_BYTES in *.
  split; [intros H0 k; specialize (Ha H0)|intros k]; lia.
Qed.

Lemma cells_kept (h h' : cells) : cells_ok h' → ce_bytes h' = ce_bytes h → kept (U := list Z) h h'.
Proof. intros Hok Hb. split; [done|]. split; [done|]. intros x _ _. cbn. unfold cell. by rewrite Hb. Qed.

#[export] Instance cells_laws : SpawnLaws cells (list Z).
Proof.
  split.
  - intros h b n [H1 _ H3 _] Hb. specialize (H3 b n Hb). unfold CELLS in *. lia.
  - intros h x _ _. apply u8_range.
  - intros h n Hok [Hn Hn']. unfold ke_kmalloc, wp. cbn. destruct (Z.leb_spec (ce_next h + n) CELLS) as [Hle|Hgt].
    + destruct (cells_alloc h n Hok Hn Hle) as [Hok' Hf]. pose proof (co_next _ Hok). split_and!; try done; [apply (cells_granted h _ _ n); [lia|done|lia]|].
      right. split_and!; [lia|done|lia|done].
    + split_and!; try done; [apply (cells_granted h h 0 0); [done|lia|lia]|by left].
  - intros h a n Hok Ha _. apply wp_modify. destruct Hok as [H1 H2 H3 H4]. split_and!; try done.
    apply cells_kept; [|done]. split; try done. cbn. intros b m [_ Hb]%lookup_delete_Some. by apply H3.
  - intros h r u Hok Hr. unfold ke_clone_userspace, wp. cbn in Hr |- *. rewrite Hr. destruct Hok as [H1 H2 H3 H4].
    assert (ce_spaces h !! ce_root h = None) as Hn by (apply eq_None_not_Some; intros Hs; specialize (H4 _ Hs); lia).
    split_and!; try done; [|apply (cells_granted h _ _ 0); [done|cbn; lia|lia]|right; split_and!; [lia|done..]].
    apply cells_kept; [|done]. split; cbn; [done|lia|done|]. intros x [y [[<- _]|[_ Hx]]%lookup_insert_Some]; [lia|]. specialize (H4 x ltac:(eauto)). lia.
  - intros h r [H1 H2 H3 H4] Hr. apply wp_modify. split_and!; try done. apply cells_kept; [|done]. split; cbn; try done. intros x [y [_ Hx]%lookup_delete_Some]. eauto.
  - intros h x Hok _. apply wp_gets. split; [done|]. destruct Hok. by split_and!.
  - intros h x v Hok _. apply wp_modify. split; [by apply cells_accessed|]. intros y _. cbn. unfold cell. cbn.
    case_decide; [subst; by rewrite lookup_insert_eq|by rewrite lookup_insert_ne].
  - intros h x Hok _. apply wp_gets. split; [done|]. destruct Hok. by split_and!.
  - intros h x v Hok _. apply wp_modify. split; [by apply cells_accessed|]. intros y _. cbn. unfold cell. cbn.
    rewrite word_bytes_lookup. by case_decide.
Qed.

(** The thread 0x10000 of the process 0x11000, child of the kernel process, in a system call from 0x77. *)
Definition cells_caller : thread_st := Thread 1 0x12000 0x7000 DEFAULT_STACK_BYTES 0x11000 0 PROC_RUNNING 0 0 0 0 0x10000 0 0.
Definition cells_owner : process_st := Process 1 0x50000 0x8000 0 0 0x10000 1 0 0 0 (Queue 0 0) (Queue 0 0).
Definition cells_kernel : kst cells :=
  KState {[ 0x9000 := toy_thread 0 0x8000 PROC_READY 0 0; 0x10000 := cells_caller ]}
         {[ 0x8000 := Process 0 0 0 0x11000 0 0x9000 1 0 0 0 (Queue 0 0) (Queue 0 0); 0x11000 := cells_owner ]}
         ∅ ∅ 0x10000 0x10000 0x10000 1 0x10000 0 2 2 true 0 1 0
         (Cells true 0x14000 0x60000 {[ 0x10000 := thread_bytes; 0x11000 := process_bytes; 0x12000 := DEFAULT_STACK_BYTES ]}
           {[ 0x13fd8 := 0x77; 0x13fc0 := 5 ]} {[ 0x50000 := [1; 2; 3] ]}).
Definition cells_kids : gmap Z (list Z) := {[ 0x8000 := [0x11000] ]}.

#[local] Instance queue_dec : EqDecision proc_queue.
Proof. solve_decision. Defined.

Lemma cells_calls : caller cells_kernel (RRQ [] [0x10000]) (λ _, []) (kids_of cells_kids) cells_caller cells_owner (ce_blocks (env cells_kernel)) 0x13f50.
Proof.
  split; try done.
  - apply tasks_quiet; [|apply (bool_decide_unpack _); vm_compute; exact I..|by vm_compute|reflexivity].
    split; try done; [apply NoDup_singleton|]. split; [done|]. split; [done|]. by exists 0x10000.
  - apply forest_check; [apply (bool_decide_unpack _); vm_compute; exact I..|reflexivity].
  - intros a Ha. destruct (decide (a = 0x10000)) as [->|]; [left; by eexists|]. destruct (decide (a = 0x11000)) as [->|]; [left; by eexists|].
    right. destruct (decide (a = 0x8000)) as [->|]; [by left|]. destruct (decide (a = 0x9000)) as [->|]; [by right|].
    destruct Ha as [[x Hx]|[x Hx]]; cbn in Hx; by rewrite lookup_insert_ne, lookup_singleton_ne in Hx.
Qed.

Lemma cells_fine : cells_ok (env cells_kernel).
Proof.
  split; [by vm_compute|done| |].
  - assert (map_Forall (λ b n, 0 < b ∧ 0 < n ∧ b + n ≤ ce_next (env cells_kernel)) (ce_blocks (env cells_kernel))) as Hf
      by (apply (bool_decide_unpack _); vm_compute; exact I). intros b n Hb. by apply Hf.
  - intros r [x Hr]. cbn in Hr. apply lookup_singleton_Some in Hr as [<- _]. done.
Qed.

