(* ===== verification/Vfs.v ===== *)
(** * Block devices, partitions and the virtual file system layer

    [kernel/block_dev.c], [kernel/vfs.c], [kernel/mbr.c] and the structures of their headers.  Devices,
    superblocks, inodes and open files are nodes in stores indexed by their address, as
    the kernel's threads are in [Kernel]: a pointer is an address, 0 for NULL, and
    following one that leads to no node stops the model.  Buffers are values: a
    [kmalloc] also hands over the bytes the new block happens to hold.  What these files
    call, the heap and the disk driver, is behind [FsEnv].  Output by [printk] is left
    out. *)

From stdpp Require Import strings.
From S2P Require Import Prelude Bytes.

(** ** What the file system code calls *)

Class FsEnv (E : Type) := {
  fe_kmalloc : Z → M E (Z * list Z);
  fe_kfree : Z → M E unit;
  (** [ata_read_block]: the sector, or [None] with the result -1. *)
  fe_ata_read : Z → Z → M E (option (list Z))
}.

(** ** [include/kernel/block_dev.h], [include/kernel/mbr.h] and [include/kernel/vfs.h] *)

Inductive block_dev_type := MASS_STORAGE | PARTITION.
#[export] Instance block_dev_type_dec : EqDecision block_dev_type.
Proof. solve_decision. Defined.

(** The functions a [read_block] pointer can lead to. *)
Inductive read_block_fn := ata_read_block_fn | partition_read_block_fn.

Record block_dev := BlockDev {
  tot_length : Z;
  read_block : read_block_fn;
  blk_size : Z;
  dev_type : block_dev_type;
  dev_name : string;
  fs_type : Z;
  dev_next : Z
}.

(** The fields a partition adds to the [block_dev] it starts with. *)
Record partition_dev := PartitionDev { part_parent : Z; lba_offset : Z }.

Definition S_IFDIR : Z := 0x4000.
Definition S_IFREG : Z := 0x8000.

(** Function pointers: each can only lead to the function of the one file system. *)
Inductive read_inode_fn := ext2_read_inode_fn.
Inductive readdir_fn := NULL_readdir | ext2_readdir_fn.
Inductive open_fn := ext2_open_fn.
Inductive file_ops := ext2_file_ops.
Inductive fs_detect_cb := ext2_probe_cb.

Record superblock := Superblock {
  sb_name : string;
  root_inode : Z;
  read_inode : read_inode_fn;
  sb_priv : Z
}.

Record inode := Inode {
  ino_num : Z;
  i_size : Z;
  i_mode : Z;
  i_sb : Z;
  i_readdir : readdir_fn;
  i_open : open_fn;
  i_priv : Z
}.

(** [ops] stands for the pointers [read], [lseek] and [close]. *)
Record file := File { f_inode : Z; f_offset : Z; f_ops : file_ops }.

(** ** [struct ext2_driver], the private data of an ext2 superblock *)
Record ext2_driver := Ext2Driver {
  drv_dev : Z;
  drv_sb : list Z;
  drv_block_size : Z;
  drv_block_start : Z
}.

Definition MAX_NUM_DRIVERS : Z := 2.

(** ** The state *)
Record fss (E : Type) := FState {
  dev_at : gmap Z block_dev;
  part_at : gmap Z partition_dev;
  sb_at : gmap Z superblock;
  drv_at : gmap Z ext2_driver;
  inode_at : gmap Z inode;
  raw_at : gmap Z (list Z);
  file_at : gmap Z file;
  dev_list_head : Z;
  driver_cbs : list fs_detect_cb;
  fenv : E
}.
Arguments FState {E}.
Arguments dev_at {E}.
Arguments part_at {E}.
Arguments sb_at {E}.
Arguments drv_at {E}.
Arguments inode_at {E}.
Arguments raw_at {E}.
Arguments file_at {E}.
Arguments dev_list_head {E}.
Arguments driver_cbs {E}.
Arguments fenv {E}.

Section vfs.
Context {E : Type} {FE : FsEnv E}.
Implicit Types (s : fss E).
#[local] Abbreviation MF := (M (fss E)).

Definition set_dev_at v s : fss E := FState v (part_at s) (sb_at s) (drv_at s) (inode_at s) (raw_at s) (file_at s) (dev_list_head s) (driver_cbs s) (fenv s).
Definition set_part_at v s : fss E := FState (dev_at s) v (sb_at s) (drv_at s) (inode_at s) (raw_at s) (file_at s) (dev_list_head s) (driver_cbs s) (fenv s).
Definition set_sb_at v s : fss E := FState (dev_at s) (part_at s) v (drv_at s) (inode_at s) (raw_at s) (file_at s) (dev_list_head s) (driver_cbs s) (fenv s).
Definition set_drv_at v s : fss E := FState (dev_at s) (part_at s) (sb_at s) v (inode_at s) (raw_at s) (file_at s) (dev_list_head s) (driver_cbs s) (fenv s).
Definition set_inode_at v s : fss E := FState (dev_at s) (part_at s) (sb_at s) (drv_at s) v (raw_at s) (file_at s) (dev_list_head s) (driver_cbs s) (fenv s).
Definition set_raw_at v s : fss E := FState (dev_at s) (part_at s) (sb_at s) (drv_at s) (inode_at s) v (file_at s) (dev_list_head s) (driver_cbs s) (fenv s).
Definition set_file_at v s : fss E := FState (dev_at s) (part_at s) (sb_at s) (drv_at s) (inode_at s) (raw_at s) v (dev_list_head s) (driver_cbs s) (fenv s).
Definition set_dev_list_head v s : fss E := FState (dev_at s) (part_at s) (sb_at s) (drv_at s) (inode_at s) (raw_at s) (file_at s) v (driver_cbs s) (fenv s).
Definition set_driver_cbs v s : fss E := FState (dev_at s) (part_at s) (sb_at s) (drv_at s) (inode_at s) (raw_at s) (file_at s) (dev_list_head s) v (fenv s).
Definition set_fenv v s : fss E := FState (dev_at s) (part_at s) (sb_at s) (drv_at s) (inode_at s) (raw_at s) (file_at s) (dev_list_head s) (driver_cbs s) v.

(** A call into the environment. *)
Definition fcall {A} (c : M E A) : MF A := λ s,
  match c (fenv s) with
  | Ret (a, e) => Ret (a, set_fenv e s)
  | Halt => Halt
  | NoFuel => NoFuel
  end.

(** Following a pointer, and using a value that may be missing. *)
Definition deref {A} (sel : fss E → gmap Z A) (p : Z) : MF A := λ s,
  match sel s !! p with Some x => Ret (x, s) | None => Halt end.
Definition get_some {A} (o : option A) : MF A := match o with Some x => ret x | None => halt end.

(** Unsigned division; a zero divisor is a fault nobody handles. *)
Definition udiv (a b : Z) : MF Z := if b =? 0 then halt else ret (a / b).
Definition umod (a b : Z) : MF Z := if b =? 0 then halt else ret (a mod b).

(** A buffer from [kmalloc]: none of it can be used when the address is NULL.  A
    structure from [kmalloc] is written at once. *)
Definition kmalloc_buf (n : Z) : MF (Z * list Z) :=
  p <- fcall (fe_kmalloc n) ;; ret (p.1, if p.1 =? 0 then [] else p.2).
Definition kmalloc_node (n : Z) : MF Z :=
  p <- fcall (fe_kmalloc n) ;; if p.1 =? 0 then halt else ret p.1.
Definition kfree_node {A} (get : fss E → gmap Z A) (set : gmap Z A → fss E → fss E) (p : Z) : MF unit :=
  fcall (fe_kfree p) ;; modify (λ s, set (delete p (get s)) s).

(** ** [block_dev.c] *)

Definition blk_register (dev : Z) : MF Z :=
  if dev =? 0 then ret (-1) else
  d <- deref dev_at dev ;;
  h <- gets dev_list_head ;;
  modify (λ s, set_dev_at (<[dev := BlockDev (tot_length d) (read_block d) (blk_size d) (dev_type d) (dev_name d) (fs_type d) h]> (dev_at s)) s) ;;
  modify (set_dev_list_head dev) ;;
  ret 0.

Definition blk_get_head : MF Z := gets dev_list_head.

(** One turn per device; the list is not longer than the store. *)
Fixpoint find_partition_loop (fuel : nat) (fstype curr : Z) : MF Z :=
  match fuel with
  | O => no_fuel
  | S fuel =>
      if curr =? 0 then ret 0 else
      d <- deref dev_at curr ;;
      if bool_decide (dev_type d = PARTITION) && (Vfs.fs_type d =? fstype) then ret curr else
      find_partition_loop fuel fstype (dev_next d)
  end.

Definition blk_find_partiton_fstype (fstype : Z) : MF Z :=
  curr <- blk_get_head ;;
  n <- gets (λ s, size (dev_at s)) ;;
  find_partition_loop (S n) fstype curr.

(** ** Reading a block through the device's pointer

    [mbr.c]'s [partition_read_block] calls the parent's function; a partition is younger
    than its parent, so the chain is not longer than the store of partitions. *)
Fixpoint dev_read_block (fuel : nat) (dev blk : Z) : MF (option (list Z)) :=
  match fuel with
  | O => no_fuel
  | S fuel =>
      d <- deref dev_at dev ;;
      match read_block d with
      | ata_read_block_fn => fcall (fe_ata_read dev blk)
      | partition_read_block_fn =>
          part <- deref part_at dev ;;
          dev_read_block fuel (part_parent part) (u64 (blk + lba_offset part))
      end
  end.

(** [dev->read_block(dev, blk_num, dst)] with the buffer [buf] at [dst = buf + off]: the
    result and the buffer afterwards. *)
Definition read_block_into (dev blk off : Z) (buf : list Z) : MF (Z * list Z) :=
  n <- gets (λ s, size (part_at s)) ;;
  r <- dev_read_block (S n) dev blk ;;
  match r with
  | Some bs => if off + blen bs <=? blen buf then ret (0, splice off bs buf) else halt
  | None => ret (-1, buf)
  end.

(** ** [vfs.c] *)

Definition fs_register (probe : fs_detect_cb) : MF unit :=
  l <- gets driver_cbs ;;
  if MAX_NUM_DRIVERS <=? Z.of_nat (length l) then ret tt
  else modify (set_driver_cbs (l ++ [probe])).

(** [call] is the call through the pointer. *)
Definition fs_probe (call : fs_detect_cb → Z → MF Z) (dev : Z) : MF Z :=
  l <- gets driver_cbs ;;
  r <- for_ret l (λ cb, sb <- call cb dev ;; ret (if sb =? 0 then None else Some sb)) ;;
  ret (default 0 r).
End vfs.

(** ** [struct MBR]: 446 bytes of code, four entries of 16 bytes, the signature *)

Definition MBR_SIGNATURE : Z := 0xAA55.
Definition MBR_SIZE : Z := 512.
Definition mbr_sig (mbr : list Z) : option Z := field 510 2 mbr.
Definition part_type (i : Z) (mbr : list Z) : option Z := field (446 + 16 * i + 4) 1 mbr.
Definition part_lba_start (i : Z) (mbr : list Z) : option Z := field (446 + 16 * i + 8) 4 mbr.
Definition part_sector_count (i : Z) (mbr : list Z) : option Z := field (446 + 16 * i + 12) 4 mbr.

(** [sizeof(partition_dev)]. *)
Definition PARTITION_DEV_SIZE : Z := 64.

Section mbr.
Context {E : Type} {FE : FsEnv E}.
#[local] Abbreviation MF := (M (fss E)).

(** One entry of the table. *)
Definition MBR_entry (dev : Z) (mbr : list Z) (i : Z) : MF unit :=
  ty <- get_some (part_type i mbr) ;;
  if ty =? 0 then ret tt else
  p <- fcall (fe_kmalloc PARTITION_DEV_SIZE) ;;
  let pdev := p.1 in
  if pdev =? 0 then ret tt else
  d <- deref dev_at dev ;;
  cnt <- get_some (part_sector_count i mbr) ;;
  lba <- get_some (part_lba_start i mbr) ;;
  modify (λ s, set_dev_at (<[pdev := BlockDev cnt partition_read_block_fn (blk_size d) PARTITION "PARTITION"%string ty 0]> (dev_at s)) s) ;;
  modify (λ s, set_part_at (<[pdev := PartitionDev dev lba]> (part_at s)) s) ;;
  blk_register pdev ;;
  ret tt.

Definition MBR_init (dev : Z) : MF unit :=
  if dev =? 0 then ret tt else
  m <- kmalloc_buf MBR_SIZE ;;
  if m.1 =? 0 then ret tt else
  r <- read_block_into dev 0 0 m.2 ;;
  if negb (r.1 =? 0) then fcall (fe_kfree m.1) else
  sig <- get_some (mbr_sig r.2) ;;
  if negb (sig =? MBR_SIGNATURE) then fcall (fe_kfree m.1) else
  for_each (seqZ 0 4) (MBR_entry dev r.2) ;;
  fcall (fe_kfree m.1).
End mbr.
