(* ===== verification/Ext2.v ===== *)
(** * The ext2 driver

    [kernel/ext2.c]: probing a device, reading blocks and inodes, walking directories,
    the block map of a file, and the operations of an open file.  The on-disk structures
    are read out of buffers at the offsets of the packed structures of
    [include/kernel/ext2.h]. *)

From stdpp Require Import strings.
From S2P Require Import Prelude Bytes Vfs.

Definition EXT2_SIGNATURE : Z := 0xEF53.
Definition EXT2_ROOT_INODE : Z := 2.
Definition EXT2_TYPE : Z := 0x83.

(** ** [ext2_superblock], [ext2_group], [ext2_inode], [ext2_directory] *)

Definition sb_log_block_size (sb : list Z) : option Z := field 24 4 sb.
Definition sb_inodes_per_group (sb : list Z) : option Z := field 40 4 sb.
Definition sb_magic (sb : list Z) : option Z := field 56 2 sb.
Definition sb_rev_level (sb : list Z) : option Z := field 76 4 sb.
Definition sb_inodes_size (sb : list Z) : option Z := field 88 4 sb.

Definition GROUP_SIZE : Z := 32.
Definition group_inode_table (bg : Z) (buf : list Z) : option Z := field (bg + 8) 4 buf.

Definition raw_mode (node : Z) (buf : list Z) : option Z := field node 2 buf.
Definition raw_size (node : Z) (buf : list Z) : option Z := field (node + 4) 4 buf.
Definition raw_block (i : Z) (raw : list Z) : option Z := field (40 + 4 * i) 4 raw.

Definition dentry_inode (off : Z) (buf : list Z) : option Z := field off 4 buf.
Definition dentry_rec_len (off : Z) (buf : list Z) : option Z := field (off + 4) 2 buf.
Definition dentry_name_len (off : Z) (buf : list Z) : option Z := field (off + 6) 1 buf.

(** [n] bytes of a buffer, which has to hold them. *)
Definition bytes_at (off n : Z) (buf : list Z) : option (list Z) :=
  if bool_decide (0 ≤ off ∧ 0 ≤ n ∧ off + n ≤ blen buf) then Some (slice off n buf) else None.

(** Sizes of the structures that are allocated. *)
Definition SUPERBLOCK_SIZE : Z := 1024.
Definition VFS_SUPERBLOCK_SIZE : Z := 32.
Definition DRIVER_SIZE : Z := 1040.
Definition INODE_SIZE : Z := 48.
Definition FILE_SIZE : Z := 40.

Section ext2.
Context {E : Type} {FE : FsEnv E}.
#[local] Abbreviation MF := (M (fss E)).

(** ** Blocks *)

(** One sector of a block after the other. *)
Fixpoint read_sectors (n : nat) (dev blk_size start i : Z) (buf : list Z) : MF (list Z) :=
  match n with
  | O => ret buf
  | S n =>
      r <- read_block_into dev (u64 (start + i)) (u32 (i * blk_size)) buf ;;
      read_sectors n dev blk_size start (i + 1) r.2
  end.

Definition ext2_read_block (drv : ext2_driver) (block_num : Z) (buf : list Z) : MF (list Z) :=
  d <- deref dev_at (drv_dev drv) ;;
  sect_per_blk <- udiv (drv_block_size drv) (blk_size d) ;;
  read_sectors (Z.to_nat sect_per_blk) (drv_dev drv) (blk_size d) (block_num * sect_per_blk) 0 buf.

(** ** Inodes *)

Definition ext2_read_inode (sb inode_num : Z) : MF Z :=
  v <- deref sb_at sb ;;
  drv <- deref drv_at (sb_priv v) ;;
  ipg <- get_some (sb_inodes_per_group (drv_sb drv)) ;;
  let idx := u32 (inode_num - 1) in
  group <- udiv idx ipg ;;
  group_index <- umod idx ipg ;;
  bg <- kmalloc_buf (drv_block_size drv) ;;
  let descriptors_per_block := drv_block_size drv / GROUP_SIZE in
  bg_block_offset <- udiv group descriptors_per_block ;;
  bg_index_in_block <- umod group descriptors_per_block ;;
  bg_buf <- ext2_read_block drv (u32 (drv_block_start drv + bg_block_offset)) bg.2 ;;
  inode_table_block <- get_some (group_inode_table (GROUP_SIZE * bg_index_in_block) bg_buf) ;;
  rev <- get_some (sb_rev_level (drv_sb drv)) ;;
  isz <- get_some (sb_inodes_size (drv_sb drv)) ;;
  let inode_size := if 1 <=? rev then isz else 128 in
  inodes_per_block <- udiv (drv_block_size drv) inode_size ;;
  table_block_offset <- udiv group_index inodes_per_block ;;
  index_in_block <- umod group_index inodes_per_block ;;
  ib <- kmalloc_buf (drv_block_size drv) ;;
  inode_block_buf <- ext2_read_block drv (u32 (inode_table_block + table_block_offset)) ib.2 ;;
  let raw_node := u32 (index_in_block * inode_size) in
  vnode <- kmalloc_node INODE_SIZE ;;
  size_ <- get_some (raw_size raw_node inode_block_buf) ;;
  mode_ <- get_some (raw_mode raw_node inode_block_buf) ;;
  priv <- kmalloc_node inode_size ;;
  raw <- get_some (bytes_at raw_node inode_size inode_block_buf) ;;
  modify (λ s, set_inode_at (<[vnode := Inode inode_num size_ mode_ sb ext2_readdir_fn ext2_open_fn priv]> (inode_at s)) s) ;;
  modify (λ s, set_raw_at (<[priv := raw]> (raw_at s)) s) ;;
  fcall (fe_kfree bg.1) ;;
  fcall (fe_kfree ib.1) ;;
  ret vnode.

(** [sb->read_inode(sb, inode_num)] *)
Definition call_read_inode (sb inode_num : Z) : MF Z :=
  v <- deref sb_at sb ;;
  match read_inode v with ext2_read_inode_fn => ext2_read_inode sb inode_num end.

(** ** The block map of a file *)

Definition block_word (i : Z) (buf : list Z) : option Z := field (4 * i) 4 buf.

(** Reading a word of an indirect block. *)
Definition indirect (drv : ext2_driver) (block idx : Z) (buf : list Z) : MF (Z * list Z) :=
  buf <- ext2_read_block drv block buf ;;
  w <- get_some (block_word idx buf) ;;
  ret (w, buf).

Definition ext2_get_block_number (ino logic_blk : Z) : MF Z :=
  n <- deref inode_at ino ;;
  raw <- deref raw_at (i_priv n) ;;
  v <- deref sb_at (i_sb n) ;;
  drv <- deref drv_at (sb_priv v) ;;
  let p := drv_block_size drv / 4 in
  if logic_blk <? 12 then get_some (raw_block logic_blk raw) else
  let logic_blk := logic_blk - 12 in
  if logic_blk <? p then
    b <- get_some (raw_block 12 raw) ;;
    if b =? 0 then ret 0 else
    m <- kmalloc_buf (drv_block_size drv) ;;
    r <- indirect drv b logic_blk m.2 ;;
    fcall (fe_kfree m.1) ;;
    ret r.1
  else
  let logic_blk := logic_blk - p in
  let pp := u32 (p * p) in
  if logic_blk <? pp then
    b <- get_some (raw_block 13 raw) ;;
    if b =? 0 then ret 0 else
    idx_1 <- udiv logic_blk p ;;
    idx_2 <- umod logic_blk p ;;
    m <- kmalloc_buf (drv_block_size drv) ;;
    r1 <- indirect drv b idx_1 m.2 ;;
    if r1.1 =? 0 then fcall (fe_kfree m.1) ;; ret 0 else
    r2 <- indirect drv r1.1 idx_2 r1.2 ;;
    fcall (fe_kfree m.1) ;;
    ret r2.1
  else
    b <- get_some (raw_block 14 raw) ;;
    if b =? 0 then ret 0 else
    idx_1 <- udiv logic_blk pp ;;
    rem <- umod logic_blk pp ;;
    idx_2 <- udiv rem p ;;
    idx_3 <- umod rem p ;;
    m <- kmalloc_buf (drv_block_size drv) ;;
    r1 <- indirect drv b idx_1 m.2 ;;
    if r1.1 =? 0 then fcall (fe_kfree m.1) ;; ret 0 else
    r2 <- indirect drv r1.1 idx_2 r1.2 ;;
    if r2.1 =? 0 then fcall (fe_kfree m.1) ;; ret 0 else
    r3 <- indirect drv r2.1 idx_3 r2.2 ;;
    fcall (fe_kfree m.1) ;;
    ret r3.1.

(** ** Directories

    The callback [cb] gets the name in its buffer, with the NUL, the child's inode and
    the user data; [inl] is the answer that makes [readdir] return at once. *)
Section readdir.
Context {P : Type} (cb : list Z → Z → P → MF (Z * P)).

Definition free_inode (child : Z) : MF unit :=
  n <- deref inode_at child ;;
  kfree_node raw_at set_raw_at (i_priv n) ;;
  kfree_node inode_at set_inode_at child.

(** The entries of one block; every turn moves on by at least 8 bytes. *)
Fixpoint readdir_entries (fuel : nat) (sb : Z) (block_buf : list Z) (block_bytes offset : Z) (p : P) : MF (P + P) :=
  match fuel with
  | O => no_fuel
  | S fuel =>
      if negb (offset <? block_bytes) then ret (inr p) else
      rec_len <- get_some (dentry_rec_len offset block_buf) ;;
      if (rec_len <? 8) || negb (rec_len mod 4 =? 0) then ret (inr p) else
      if block_bytes <? u32 (offset + rec_len) then ret (inr p) else
      ino <- get_some (dentry_inode offset block_buf) ;;
      r <- (if ino =? 0 then ret (inr p) else
            name_len <- get_some (dentry_name_len offset block_buf) ;;
            name <- get_some (bytes_at (offset + 8) name_len block_buf) ;;
            child <- call_read_inode sb ino ;;
            if child =? 0 then ret (inr p) else
            q <- cb (name ++ [0]) child p ;;
            if negb (q.1 =? 0) then ret (inl q.2) else
            free_inode child ;;
            ret (inr q.2)) ;;
      match r with
      | inl p => ret (inl p)
      | inr p => readdir_entries fuel sb block_buf block_bytes (u32 (offset + rec_len)) p
      end
  end.

Fixpoint readdir_blocks (n : nat) (ino sb : Z) (drv : ext2_driver) (blk bytes_left : Z) (block_buf : list Z) (p : P) : MF P :=
  match n with
  | O => ret p
  | S n =>
      phys_block <- ext2_get_block_number ino blk ;;
      let block_bytes := Z.min bytes_left (drv_block_size drv) in
      if phys_block =? 0 then readdir_blocks n ino sb drv (blk + 1) (bytes_left - block_bytes) block_buf p else
      block_buf <- ext2_read_block drv phys_block block_buf ;;
      r <- readdir_entries (S (Z.to_nat block_bytes)) sb block_buf block_bytes 0 p ;;
      match r with
      | inl p => ret p
      | inr p => readdir_blocks n ino sb drv (blk + 1) (bytes_left - block_bytes) block_buf p
      end
  end.

Definition ext2_readdir (ino : Z) (p : P) : MF (Z * P) :=
  n <- deref inode_at ino ;;
  if Z.land (i_mode n) S_IFDIR =? 0 then ret (-1, p) else
  v <- deref sb_at (i_sb n) ;;
  drv <- deref drv_at (sb_priv v) ;;
  m <- kmalloc_buf (drv_block_size drv) ;;
  total_blocks <- udiv (u32 (i_size n + drv_block_size drv - 1)) (drv_block_size drv) ;;
  p <- readdir_blocks (Z.to_nat total_blocks) ino (i_sb n) drv 0 (i_size n) m.2 p ;;
  fcall (fe_kfree m.1) ;;
  ret (0, p).
End readdir.

(** ** Open files *)

Definition ext2_open (ino : Z) : MF Z :=
  p <- fcall (fe_kmalloc FILE_SIZE) ;;
  let f := p.1 in
  if f =? 0 then ret 0 else
  modify (λ s, set_file_at (<[f := File ino 0 ext2_file_ops]> (file_at s)) s) ;;
  ret f.

Definition set_offset (f off : Z) : MF unit :=
  c <- deref file_at f ;;
  modify (λ s, set_file_at (<[f := File (f_inode c) off (f_ops c)]> (file_at s)) s).

(** The answer collects the bytes stored at [buf]. *)
Fixpoint file_read_loop (fuel : nat) (f ino : Z) (drv : ext2_driver) (temp_block : list Z) (len bytes_read : Z) (out : list Z) : MF (Z * list Z) :=
  match fuel with
  | O => no_fuel
  | S fuel =>
      if negb (0 <? len) then ret (bytes_read, out) else
      c <- deref file_at f ;;
      logical_block <- udiv (f_offset c) (drv_block_size drv) ;;
      block_offset <- umod (f_offset c) (drv_block_size drv) ;;
      let to_read := Z.min (u32 len) (u32 (drv_block_size drv - block_offset)) in
      phys_block <- ext2_get_block_number ino (u32 logical_block) ;;
      r <- (if phys_block =? 0 then ret (temp_block, replicate (Z.to_nat to_read) 0)
            else temp_block <- ext2_read_block drv phys_block temp_block ;;
                 bs <- get_some (bytes_at block_offset to_read temp_block) ;;
                 ret (temp_block, bs)) ;;
      set_offset f (u64 (f_offset c + to_read)) ;;
      file_read_loop fuel f ino drv r.1 (i32 (len - to_read)) (i32 (bytes_read + to_read)) (out ++ r.2)
  end.

Definition ext2_file_read (f len : Z) : MF (Z * list Z) :=
  if f =? 0 then ret (-1, []) else
  c <- deref file_at f ;;
  if f_inode c =? 0 then ret (-1, []) else
  n <- deref inode_at (f_inode c) ;;
  v <- deref sb_at (i_sb n) ;;
  drv <- deref drv_at (sb_priv v) ;;
  if i_size n <=? f_offset c then ret (0, []) else
  let len := if i_size n <? u64 (f_offset c + len) then i32 (u64 (i_size n - f_offset c)) else len in
  m <- kmalloc_buf (drv_block_size drv) ;;
  r <- file_read_loop (S (Z.to_nat len)) f (f_inode c) drv m.2 len 0 [] ;;
  fcall (fe_kfree m.1) ;;
  ret r.

Definition ext2_file_lseek (f offset : Z) : MF Z :=
  c <- deref file_at f ;;
  n <- deref inode_at (f_inode c) ;;
  if i_size n <? u32 offset then ret (-1) else
  set_offset f (u64 offset) ;;
  ret 0.

Definition ext2_file_close (f : Z) : MF Z :=
  (if f =? 0 then ret tt else kfree_node file_at set_file_at f) ;;
  ret 0.

(** ** Mounting *)

Definition ext2_init : MF unit := fs_register ext2_probe_cb.

(** [1024 << log] as the processor shifts. *)
Definition ext2_probe (dev : Z) : MF Z :=
  m <- kmalloc_buf SUPERBLOCK_SIZE ;;
  r2 <- read_block_into dev 2 0 m.2 ;;
  r3 <- read_block_into dev 3 512 r2.2 ;;
  let sb := r3.2 in
  magic <- get_some (sb_magic sb) ;;
  if negb (magic =? EXT2_SIGNATURE) then fcall (fe_kfree m.1) ;; ret 0 else
  vsb <- kmalloc_node VFS_SUPERBLOCK_SIZE ;;
  drv <- kmalloc_node DRIVER_SIZE ;;
  raw <- get_some (bytes_at 0 SUPERBLOCK_SIZE sb) ;;
  log <- get_some (sb_log_block_size sb) ;;
  let block_size := u32 (Z.shiftl 1024 (log mod 32)) in
  modify (λ s, set_drv_at (<[drv := Ext2Driver dev raw block_size (if block_size =? 1024 then 2 else 1)]> (drv_at s)) s) ;;
  modify (λ s, set_sb_at (<[vsb := Superblock "ext2"%string 0 ext2_read_inode_fn drv]> (sb_at s)) s) ;;
  root <- ext2_read_inode vsb EXT2_ROOT_INODE ;;
  modify (λ s, set_sb_at (<[vsb := Superblock "ext2"%string root ext2_read_inode_fn drv]> (sb_at s)) s) ;;
  fcall (fe_kfree m.1) ;;
  ret vsb.

(** The call through a pointer in the table of [vfs.c]. *)
Definition call_probe (cb : fs_detect_cb) (dev : Z) : MF Z := match cb with ext2_probe_cb => ext2_probe dev end.
End ext2.
