(* ===== verification/Ext2Proofs.v ===== *)
(** * The laws of the environment, and reading blocks of an ext2 volume

    [FsEnvLaws] states what the file system code relies on: a heap with a budget that
    hands out fresh blocks and takes them back, and a disk whose sectors do not change.
    The volume of a device is a partial function from sector numbers to sectors; the
    driver's reads are related to pure functions on it. *)

From stdpp Require Import strings.
From S2P Require Import Prelude Bytes Vfs Ext2.

Definition SECTOR : Z := 512.

Class FsEnvLaws (E : Type) {FE : FsEnv E} := {
  (** the blocks in use with their sizes, and the budget that is left *)
  fe_live : E → gmap Z Z;
  fe_avail : E → Z;
  fe_cost : Z → Z;
  (** what file system calls leave alone, the sectors of the disks among it *)
  fe_world : Type;
  fe_kept : E → fe_world;
  fe_sectors : fe_world → Z → Z → option (list Z);
  fe_cost_nonneg n : 0 ≤ fe_cost n;
  fe_kmalloc_ok e n : 0 < n → fe_cost n ≤ fe_avail e →
    ∃ a bs e', fe_kmalloc n e = Ret ((a, bs), e') ∧ a ≠ 0 ∧ fe_live e !! a = None ∧ blen bs = n ∧
      fe_live e' = <[a := n]> (fe_live e) ∧ fe_avail e - fe_cost n ≤ fe_avail e' ∧ fe_kept e' = fe_kept e;
  fe_kfree_ok e a n : a ≠ 0 → fe_live e !! a = Some n →
    ∃ e', fe_kfree a e = Ret (tt, e') ∧ fe_live e' = delete a (fe_live e) ∧ fe_avail e + fe_cost n ≤ fe_avail e' ∧ fe_kept e' = fe_kept e;
  fe_kfree_null e : fe_kfree 0 e = Ret (tt, e);
  fe_ata_read_ok e d blk bs : fe_sectors (fe_kept e) d blk = Some bs →
    ∃ e', fe_ata_read d blk e = Ret (Some bs, e') ∧ fe_live e' = fe_live e ∧ fe_avail e ≤ fe_avail e' ∧ fe_kept e' = fe_kept e;
  fe_sector e d blk bs : fe_sectors (fe_kept e) d blk = Some bs → blen bs = SECTOR ∧ Forall is_byte bs
}.

(** ** A volume: its sectors, and the blocks of [spb] sectors each *)

Definition volume := Z → option (list Z).

Definition vblock (vol : volume) (spb n : Z) : option (list Z) :=
  mjoin <$> mapM (λ i, vol (u64 (n * spb + i))) (seqZ 0 spb).

Section laws.
Context {E : Type} {FE : FsEnv E} {FL : FsEnvLaws E}.
Implicit Types (s : fss E) (e : E).
#[local] Abbreviation MF := (M (fss E)).

(** Only the environment changed, and nothing of it that matters. *)
Record keeps_env e e' : Prop := {
  kv_live : fe_live e' = fe_live e;
  kv_avail : fe_avail e ≤ fe_avail e';
  kv_disk : fe_kept e' = fe_kept e
}.

#[export] Instance keeps_env_preorder : PreOrder keeps_env.
Proof. split; [by intros e; split|]. intros e1 e2 e3 [A1 A2 A3] [B1 B2 B3]. split; [congruence|lia|congruence]. Qed.

Lemma set_fenv_same s : set_fenv (fenv s) s = s.
Proof. by destruct s. Qed.

(** ** Rules for the primitives *)

Lemma wp_fcall {A} (c : M E A) s a e' Q : c (fenv s) = Ret (a, e') → Q a (set_fenv e' s) → wp (fcall c) s Q.
Proof. unfold wp, fcall. by intros ->. Qed.
Lemma wp_deref {A} (sel : fss E → gmap Z A) p x s Q : sel s !! p = Some x → Q x s → wp (deref sel p) s Q.
Proof. unfold wp, deref. by intros ->. Qed.
Lemma wp_get_some {A} (o : option A) x s Q : o = Some x → Q x s → wp (get_some o) s Q.
Proof. by intros ->. Qed.
Lemma wp_udiv a b s Q : b ≠ 0 → Q (a / b) s → wp (udiv a b) s Q.
Proof. intros Hb HQ. unfold udiv. by rewrite (proj2 (Z.eqb_neq b 0)). Qed.
Lemma wp_umod a b s Q : b ≠ 0 → Q (a mod b) s → wp (umod a b) s Q.
Proof. intros Hb HQ. unfold umod. by rewrite (proj2 (Z.eqb_neq b 0)). Qed.

(** A block taken from the heap, of which [e'] is left. *)
Record allocated e a n e' : Prop := {
  al_nonzero : a ≠ 0;
  al_fresh : fe_live e !! a = None;
  al_live : fe_live e' = <[a := n]> (fe_live e);
  al_avail : fe_avail e - fe_cost n ≤ fe_avail e';
  al_disk : fe_kept e' = fe_kept e
}.

Lemma kmalloc_buf_spec s n (Q : Z * list Z → fss E → Prop) :
  0 < n → fe_cost n ≤ fe_avail (fenv s) →
  (∀ a bs e', allocated (fenv s) a n e' → blen bs = n → Q (a, bs) (set_fenv e' s)) → wp (kmalloc_buf n) s Q.
Proof.
  intros Hn Hc HQ. destruct (fe_kmalloc_ok (fenv s) n Hn Hc) as (a & bs & e' & Er & Ha & Hf & Hl & Hv & Hav & Hd).
  unfold kmalloc_buf. wp_step. eapply wp_fcall; [exact Er|]. wp_step. cbn. rewrite (proj2 (Z.eqb_neq a 0)) by done. by apply HQ.
Qed.

Lemma kmalloc_node_spec s n (Q : Z → fss E → Prop) :
  0 < n → fe_cost n ≤ fe_avail (fenv s) → (∀ a e', allocated (fenv s) a n e' → Q a (set_fenv e' s)) → wp (kmalloc_node n) s Q.
Proof.
  intros Hn Hc HQ. destruct (fe_kmalloc_ok (fenv s) n Hn Hc) as (a & bs & e' & Er & Ha & Hf & Hl & Hv & Hav & Hd).
  unfold kmalloc_node. wp_step. eapply wp_fcall; [exact Er|]. cbn. rewrite (proj2 (Z.eqb_neq a 0)) by done. by apply HQ.
Qed.

(** A buffer given back restores the heap. *)
Lemma kfree_buf_spec s e0 a n e1 (Q : unit → fss E → Prop) :
  allocated e0 a n e1 → keeps_env e1 (fenv s) → (∀ e', keeps_env e0 e' → Q tt (set_fenv e' s)) → wp (fcall (fe_kfree a)) s Q.
Proof.
  intros [Ha Hf Hl Hv Hd] [Kl Kv Kd] HQ. destruct (fe_kfree_ok (fenv s) a n Ha) as (e' & Er & Fl & Fv & Fd).
  { by rewrite Kl, Hl, lookup_insert_eq. }
  eapply wp_fcall; [exact Er|]. apply HQ. split; [|lia|congruence]. by rewrite Fl, Kl, Hl, delete_insert_id.
Qed.

(** ** Devices and their volumes *)

Fixpoint sector_at (fuel : nat) s (dev blk : Z) : option (list Z) :=
  match fuel with
  | O => None
  | S fuel =>
      d ← dev_at s !! dev;
      match read_block d with
      | ata_read_block_fn => fe_sectors (fe_kept (fenv s)) dev blk
      | partition_read_block_fn => part ← part_at s !! dev; sector_at fuel s (part_parent part) (u64 (blk + lba_offset part))
      end
  end.

Definition vol_of s (dev : Z) : volume := sector_at (S (size (part_at s))) s dev.

(** What a volume depends on. *)
Definition same_devices s s' : Prop :=
  dev_at s' = dev_at s ∧ part_at s' = part_at s ∧ fe_sectors (fe_kept (fenv s')) = fe_sectors (fe_kept (fenv s)).

Lemma same_devices_env s e' : fe_kept e' = fe_kept (fenv s) → same_devices s (set_fenv e' s).
Proof. intros Hd. split_and!; [done..|]. cbn. by rewrite Hd. Qed.

Lemma sector_at_same fuel s s' dev blk : same_devices s s' → sector_at fuel s' dev blk = sector_at fuel s dev blk.
Proof.
  intros (E1 & E2 & E3). revert dev blk. induction fuel as [|fuel IH]; intros dev blk; [done|]. cbn. rewrite E1, E2, E3.
  destruct (dev_at s !! dev) as [d|]; [|done]. cbn. destruct (read_block d); [done|]. destruct (part_at s !! dev); [cbn; apply IH|done].
Qed.

Lemma sector_bytes fuel s dev blk bs : sector_at fuel s dev blk = Some bs → blen bs = SECTOR ∧ Forall is_byte bs.
Proof.
  revert dev blk. induction fuel as [|fuel IH]; intros dev blk; [done|]. cbn. destruct (dev_at s !! dev) as [d|]; [|done]. cbn.
  destruct (read_block d); [apply fe_sector|]. destruct (part_at s !! dev); [cbn; apply IH|done].
Qed.

Lemma dev_read_block_spec fuel s dev blk bs :
  sector_at fuel s dev blk = Some bs →
  wp (dev_read_block fuel dev blk) s (λ r s', r = Some bs ∧ ∃ e', s' = set_fenv e' s ∧ keeps_env (fenv s) e').
Proof.
  revert dev blk. induction fuel as [|fuel IH]; intros dev blk Hs; [done|]. cbn in Hs. destruct (dev_at s !! dev) as [d|] eqn:Ed; [|done].
  cbn in Hs |- *. wp_step. eapply wp_deref; [exact Ed|]. destruct (read_block d).
  - destruct (fe_ata_read_ok _ _ _ _ Hs) as (e' & Er & Hl & Ha & Hk). eapply wp_fcall; [exact Er|]. split; [done|]. by exists e'.
  - destruct (part_at s !! dev) as [pt|] eqn:Ept; [|done]. wp_step. eapply wp_deref; [exact Ept|]. by apply IH.
Qed.

(** [vol] can be read through [dev]. *)
Definition reads s (dev : Z) (vol : volume) : Prop := ∀ blk bs, vol blk = Some bs → vol_of s dev blk = Some bs.

Lemma reads_same s s' dev vol : same_devices s s' → reads s dev vol → reads s' dev vol.
Proof.
  intros Hs Hr blk bs Hb. unfold vol_of. rewrite (sector_at_same _ s s') by done. destruct Hs as (_ & -> & _). by apply Hr.
Qed.

Lemma reads_sector s dev vol blk bs : reads s dev vol → vol blk = Some bs → blen bs = SECTOR ∧ Forall is_byte bs.
Proof. intros Hr Hb. by eapply sector_bytes, Hr. Qed.

Lemma read_block_into_spec s dev vol blk off buf bs :
  reads s dev vol → vol blk = Some bs → off + SECTOR ≤ blen buf →
  wp (read_block_into dev blk off buf) s (λ r s', r = (0, splice off bs buf) ∧ ∃ e', s' = set_fenv e' s ∧ keeps_env (fenv s) e').
Proof.
  intros Hr Hb Hoff. destruct (reads_sector _ _ _ _ _ Hr Hb) as [Hl _]. unfold read_block_into. wp_step. wp_step. wp_step.
  eapply wp_mono; [by apply dev_read_block_spec, Hr|]. cbv beta. intros r s' [-> He]. rewrite (proj2 (Z.leb_le _ _)) by lia. by apply wp_ret.
Qed.

(** ** Blocks *)

Lemma vblock_length s dev vol spb n bs : reads s dev vol → 0 ≤ spb → vblock vol spb n = Some bs → blen bs = spb * SECTOR ∧ Forall is_byte bs.
Proof.
  intros Hr Hspb Hb. unfold vblock in Hb. apply fmap_Some in Hb as (l & Hl & ->). apply mapM_Some_1 in Hl.
  assert (length l = Z.to_nat spb) as Hlen by (apply Forall2_length in Hl; by rewrite length_seqZ in Hl).
  assert (Forall (λ bs, blen bs = SECTOR ∧ Forall is_byte bs) l) as Hall.
  { clear Hlen. induction Hl as [|i bs js l Hi Hl IH]; constructor; [by eapply reads_sector|done]. }
  assert (∀ l, Forall (λ bs, blen bs = SECTOR ∧ Forall is_byte bs) l → blen (mjoin l) = Z.of_nat (length l) * SECTOR ∧ Forall is_byte (mjoin l)) as Hcat.
  { clear. induction 1 as [|bs l [Hb1 Hb2] Hl [IH1 IH2]]; [split; [done|constructor]|]. change (mjoin (bs :: l)) with (bs ++ mjoin l). cbn [length]. rewrite blen_app, Hb1, IH1.
    split; [lia|by apply Forall_app]. }
  destruct (Hcat l Hall) as [H1 H2]. rewrite H1. split; [unfold SECTOR; lia|done].
Qed.

Lemma read_sectors_spec n s dev vol start i buf pre bss :
  reads s dev vol → mapM (λ i, vol (u64 (start + i))) (seqZ i (Z.of_nat n)) = Some bss →
  blen pre = i * SECTOR → blen buf = (i + Z.of_nat n) * SECTOR → blen buf < 2 ^ 32 → 0 ≤ i →
  wp (read_sectors n dev SECTOR start i (pre ++ drop (length pre) buf)) s
    (λ r s', r = pre ++ mjoin bss ∧ ∃ e', s' = set_fenv e' s ∧ keeps_env (fenv s) e').
Proof.
  revert s i pre bss. induction n as [|n IH]; intros s i pre bss Hr Hm Hpre Hbuf Hsm Hi.
  { rewrite seqZ_nil in Hm by lia. injection Hm as <-. cbn. apply wp_ret. rewrite (drop_ge buf) by (unfold blen in *; lia). split; [done|].
    exists (fenv s). by rewrite set_fenv_same. }
  rewrite seqZ_cons in Hm by lia. cbn [mapM] in Hm. apply bind_Some in Hm as (bs & Hb & Hm). apply bind_Some in Hm as (bss' & Hm & [= <-]).
  destruct (reads_sector _ _ _ _ _ Hr Hb) as [Hl _]. cbn [read_sectors]. wp_step.
  unfold SECTOR in *. rewrite (u32_small (i * 512)) by (unfold blen in *; lia).
  assert (blen (pre ++ drop (length pre) buf) = blen buf) as Hlen by (rewrite blen_app; unfold blen in *; rewrite length_drop; lia).
  eapply wp_mono; [apply (read_block_into_spec s dev vol _ _ _ bs Hr Hb); unfold SECTOR; lia|].
  cbv beta. intros r s' (-> & e1 & -> & He1). cbn [Datatypes.snd]. rewrite <-Hpre, splice_step by lia.
  replace (Z.pred (Z.of_nat (S n))) with (Z.of_nat n) in Hm by lia. change (Z.succ i) with (i + 1) in Hm.
  eapply wp_mono; [apply (IH (set_fenv e1 s) (i + 1) (pre ++ bs) bss'); try done|].
  - apply (reads_same s); [|done]. apply same_devices_env, He1.
  - rewrite blen_app. lia.
  - lia.
  - lia.
  - cbv beta. intros r s' (-> & e2 & -> & He2). split; [change (mjoin (bs :: bss')) with (bs ++ mjoin bss'); by rewrite (assoc_L app)|]. exists e2. split; [done|]. by etrans.
Qed.

(** The driver's fixed data: whole sectors per block, and blocks that are not absurdly large. *)
Record drv_ok s (drv : ext2_driver) (vol : volume) (spb : Z) : Prop := {
  do_dev : ∃ d, dev_at s !! drv_dev drv = Some d ∧ blk_size d = SECTOR;
  do_reads : reads s (drv_dev drv) vol;
  do_size : drv_block_size drv = spb * SECTOR;
  do_spb : 2 ≤ spb ≤ 128
}.

Lemma drv_ok_same s s' drv vol spb : same_devices s s' → drv_ok s drv vol spb → drv_ok s' drv vol spb.
Proof. intros Hs [H1 H2 H3 H4]. split; [by destruct Hs as (-> & _)|by eapply reads_same|done|done]. Qed.

Lemma drv_ok_env s e' drv vol spb : fe_kept e' = fe_kept (fenv s) → drv_ok s drv vol spb → drv_ok (set_fenv e' s) drv vol spb.
Proof. intros Hd. by apply drv_ok_same, same_devices_env. Qed.

Lemma ext2_read_block_spec s drv vol spb n buf bs :
  drv_ok s drv vol spb → vblock vol spb n = Some bs → blen buf = drv_block_size drv →
  wp (ext2_read_block drv n buf) s (λ r s', r = bs ∧ ∃ e', s' = set_fenv e' s ∧ keeps_env (fenv s) e').
Proof.
  intros [(d & Ed & Hd) Hr Hsz Hspb] Hb Hbuf. unfold ext2_read_block. wp_step. eapply wp_deref; [exact Ed|]. rewrite Hd.
  wp_step. apply wp_udiv; [done|]. rewrite Hsz, Z.div_mul by done. unfold vblock in Hb. apply fmap_Some in Hb as (bss & Hm & ->).
  unfold SECTOR in *. apply (read_sectors_spec _ s _ vol (n * spb) 0 buf []); try done.
  - by rewrite Z2Nat.id by lia.
  - rewrite Hbuf, Hsz. unfold SECTOR. lia.
  - lia.
Qed.
End laws.
