(* ===== verification/Ext2File.v ===== *)
(** * The block map and the contents of a file

    The reference: the block map of the ext2 format as a walk through trees of pointer
    blocks of depth 0 to 3, and the contents of a file as the blocks it leads to, with
    zeros in the holes.  [ext2_get_block_number] follows the map up to the last block of
    the doubly indirect tree, and is shifted by [p * p] blocks behind it. *)

From stdpp Require Import strings.
From S2P Require Import Prelude Bytes Vfs Ext2 Ext2Proofs.

(** ** The format *)

Section format.
Context (vol : volume) (spb : Z).

(** Pointers per block. *)
Definition ppb : Z := spb * SECTOR / 4.

(** The [k]-th leaf of the tree of depth [d] under the block [ptr]; 0 is a hole. *)
Fixpoint walk (d : nat) (ptr k : Z) : option Z :=
  match d with
  | O => Some ptr
  | S d =>
      if ptr =? 0 then Some 0 else
      b ← vblock vol spb ptr;
      w ← block_word (k / ppb ^ Z.of_nat d) b;
      walk d w (k mod ppb ^ Z.of_nat d)
  end.

(** Where the [blk]-th block of the file with the inode [raw] is. *)
Definition map_block (raw : list Z) (blk : Z) : option Z :=
  if blk <? 12 then raw_block blk raw else
  if blk - 12 <? ppb then r ← raw_block 12 raw; walk 1 r (blk - 12) else
  if blk - 12 - ppb <? ppb * ppb then r ← raw_block 13 raw; walk 2 r (blk - 12 - ppb) else
  r ← raw_block 14 raw; walk 3 r (blk - 12 - ppb - ppb * ppb).

(** The last block but one the doubly indirect tree can hold. *)
Definition double_limit : Z := 12 + ppb + ppb * ppb.

Definition file_block (raw : list Z) (blk : Z) : option (list Z) :=
  b ← map_block raw blk;
  if b =? 0 then Some (replicate (Z.to_nat (spb * SECTOR)) 0) else vblock vol spb b.

Definition block_count (size : Z) : Z := (size + spb * SECTOR - 1) / (spb * SECTOR).

Definition file_content (raw : list Z) (size : Z) : option (list Z) :=
  bs ← mapM (file_block raw) (seqZ 0 (block_count size));
  Some (take (Z.to_nat size) (mjoin bs)).
End format.

Section file.
Context {E : Type} {FE : FsEnv E} {FL : FsEnvLaws E}.
Implicit Types (s : fss E) (e : E) (vol : volume).
#[local] Abbreviation MF := (M (fss E)).

(** An inode with the structures it leads to. *)
Record mounted s (ino : Z) (n : inode) (raw : list Z) (drv : ext2_driver) vol spb : Prop := {
  mo_inode : inode_at s !! ino = Some n;
  mo_raw : raw_at s !! i_priv n = Some raw;
  mo_sb : ∃ v, sb_at s !! i_sb n = Some v ∧ drv_at s !! sb_priv v = Some drv;
  mo_drv : drv_ok s drv vol spb
}.

Lemma mounted_env s e' ino n raw drv vol spb :
  fe_kept e' = fe_kept (fenv s) → mounted s ino n raw drv vol spb → mounted (set_fenv e' s) ino n raw drv vol spb.
Proof. intros Hd [H1 H2 H3 H4]. split; [done..|]. by apply drv_ok_env. Qed.

Lemma ppb_range spb : 2 ≤ spb ≤ 128 → ppb spb = spb * 128 ∧ 256 ≤ ppb spb ≤ 2 ^ 14.
Proof. intros. unfold ppb, SECTOR. replace (spb * 512) with (spb * 128 * 4) by lia. rewrite Z.div_mul by lia. lia. Qed.

Lemma indirect_spec s drv vol spb ptr idx buf bs w :
  drv_ok s drv vol spb → vblock vol spb ptr = Some bs → block_word idx bs = Some w → blen buf = drv_block_size drv →
  wp (indirect drv ptr idx buf) s (λ r s', r = (w, bs) ∧ ∃ e', s' = set_fenv e' s ∧ keeps_env (fenv s) e').
Proof.
  intros Hd Hb Hw Hl. unfold indirect. wp_step. eapply wp_mono; [by apply (ext2_read_block_spec s drv vol spb ptr buf bs)|].
  cbv beta. intros r s' (-> & e' & -> & He). wp_step. eapply wp_get_some; [exact Hw|]. apply wp_ret. eauto.
Qed.

Lemma vblock_size s drv vol spb n bs : drv_ok s drv vol spb → vblock vol spb n = Some bs → blen bs = drv_block_size drv.
Proof. intros [_ Hr Hs Hspb] Hb. rewrite Hs. eapply vblock_length; [exact Hr|lia|exact Hb]. Qed.

Lemma walk_inv vol spb d ptr k w :
  walk vol spb (S d) ptr k = Some w → ptr ≠ 0 →
  ∃ bs w1, vblock vol spb ptr = Some bs ∧ block_word (k / ppb spb ^ Z.of_nat d) bs = Some w1 ∧ walk vol spb d w1 (k mod ppb spb ^ Z.of_nat d) = Some w.
Proof.
  cbn [walk]. intros Hw Hp. rewrite (proj2 (Z.eqb_neq ptr 0)) in Hw by done. apply bind_Some in Hw as (bs & Hb & Hw).
  apply bind_Some in Hw as (w1 & H1 & Hw). eauto.
Qed.

Lemma walk_hole vol spb d k w : walk vol spb d 0 k = Some w → w = 0.
Proof. destruct d; cbn; congruence. Qed.

(** Reading one level: the buffer and the next pointer. *)
Lemma level_spec {A} s e0 drv vol spb d ptr k idx w buf (f : Z * list Z → MF A) Q :
  drv_ok s drv vol spb → keeps_env e0 (fenv s) → walk vol spb (S d) ptr k = Some w → ptr ≠ 0 → idx = k / ppb spb ^ Z.of_nat d → blen buf = drv_block_size drv →
  (∀ e' w1 bs, drv_ok (set_fenv e' s) drv vol spb → keeps_env e0 e' → blen bs = drv_block_size drv →
     walk vol spb d w1 (k mod ppb spb ^ Z.of_nat d) = Some w → wp (f (w1, bs)) (set_fenv e' s) Q) →
  wp (r <- indirect drv ptr idx buf ;; f r) s Q.
Proof.
  intros Hd Hk Hw Hp -> Hl Hf. destruct (walk_inv _ _ _ _ _ _ Hw Hp) as (bs & w1 & Hb & Hbw & Hw1). wp_step.
  eapply wp_mono; [by apply (indirect_spec s drv vol spb ptr _ buf bs w1)|]. cbv beta. intros r s' (-> & e' & -> & He).
  apply Hf; [by apply drv_ok_env; [apply He|]|by etrans|by eapply vblock_size|done].
Qed.

(** The buffer is given back with the answer. *)
Lemma free_answer s e e0 e1 a n (w : Z) :
  allocated e0 a n e1 → keeps_env e1 e →
  wp (fcall (fe_kfree a) ;; ret w) (set_fenv e s) (λ r s', r = w ∧ ∃ e', s' = set_fenv e' s ∧ keeps_env e0 e').
Proof. intros Ha Hk. wp_step. eapply kfree_buf_spec; [exact Ha|exact Hk|]. intros e' He. apply wp_ret. split; [done|]. by exists e'. Qed.

Lemma pow_ppb spb : ppb spb ^ Z.of_nat 0 = 1 ∧ ppb spb ^ Z.of_nat 1 = ppb spb ∧ ppb spb ^ Z.of_nat 2 = ppb spb * ppb spb.
Proof. split; [done|]. split; [apply Z.pow_1_r|apply Z.pow_2_r]. Qed.

(** What each of the three nestings of pointer blocks computes. *)
Section nestings.
Context (s : fss E) (drv : ext2_driver) (vol : volume) (spb : Z) (Hd : drv_ok s drv vol spb).
Context (Hav : fe_cost (drv_block_size drv) ≤ fe_avail (fenv s)).
#[local] Abbreviation bs := (drv_block_size drv).
#[local] Abbreviation post w := (λ r s', r = w ∧ ∃ e', s' = set_fenv e' s ∧ keeps_env (fenv s) e').

Lemma start_buf {A} (f : Z * list Z → MF A) Q :
  (∀ a buf e', allocated (fenv s) a bs e' → blen buf = bs → drv_ok (set_fenv e' s) drv vol spb → wp (f (a, buf)) (set_fenv e' s) Q) →
  wp (m <- kmalloc_buf bs ;; f m) s Q.
Proof.
  intros Hf. wp_step. apply kmalloc_buf_spec; [|done|].
  { destruct Hd as [_ _ -> ?]. unfold SECTOR. lia. }
  intros a buf e' Ha Hl. apply Hf; [done|done|]. apply drv_ok_env; [apply Ha|done].
Qed.

Lemma single_spec b k w :
  b ≠ 0 → walk vol spb 1 b k = Some w →
  wp (m <- kmalloc_buf bs ;; r <- indirect drv b k m.2 ;; fcall (fe_kfree m.1) ;; ret r.1) s (post w).
Proof.
  intros Hb Hw. destruct (pow_ppb spb) as (E0 & _). apply start_buf. intros a buf e1 Ha Hl Hd1.
  eapply (level_spec _ e1 drv vol spb 0 b k k w); [done|reflexivity|done|done|by rewrite E0, Z.div_1_r|done|].
  intros e2 w1 bs2 Hd2 Hk Hl2 [= ->]. by eapply (free_answer s).
Qed.

Lemma double_spec b k w :
  b ≠ 0 → walk vol spb 2 b k = Some w →
  wp (m <- kmalloc_buf bs ;; r1 <- indirect drv b (k / ppb spb) m.2 ;;
      if r1.1 =? 0 then fcall (fe_kfree m.1) ;; ret 0 else
      r2 <- indirect drv r1.1 (k mod ppb spb) r1.2 ;; fcall (fe_kfree m.1) ;; ret r2.1) s (post w).
Proof.
  intros Hb Hw. destruct (pow_ppb spb) as (E0 & E1 & _). apply start_buf. intros a buf e1 Ha Hl Hd1.
  eapply (level_spec _ e1 drv vol spb 1 b k _ w); [done|reflexivity|done|done|by rewrite E1|done|].
  intros e2 w1 bs2 Hd2 Hk Hl2 Hw1. rewrite E1 in Hw1. cbn [Datatypes.fst Datatypes.snd]. destruct (w1 =? 0) eqn:Ew; bool_prop.
  { subst w1. apply walk_hole in Hw1 as ->. by eapply (free_answer s). }
  eapply (level_spec _ e1 drv vol spb 0 w1 _ _ w); [done|done|exact Hw1|done|by rewrite E0, Z.div_1_r|done|].
  intros e3 w2 bs3 Hd3 Hk3 Hl3 [= ->]. by eapply (free_answer s).
Qed.

Lemma triple_spec b k w :
  b ≠ 0 → walk vol spb 3 b k = Some w →
  wp (m <- kmalloc_buf bs ;; r1 <- indirect drv b (k / (ppb spb * ppb spb)) m.2 ;;
      if r1.1 =? 0 then fcall (fe_kfree m.1) ;; ret 0 else
      r2 <- indirect drv r1.1 (k mod (ppb spb * ppb spb) / ppb spb) r1.2 ;;
      if r2.1 =? 0 then fcall (fe_kfree m.1) ;; ret 0 else
      r3 <- indirect drv r2.1 (k mod (ppb spb * ppb spb) mod ppb spb) r2.2 ;; fcall (fe_kfree m.1) ;; ret r3.1) s (post w).
Proof.
  intros Hb Hw. destruct (pow_ppb spb) as (E0 & E1 & E2). apply start_buf. intros a buf e1 Ha Hl Hd1.
  eapply (level_spec _ e1 drv vol spb 2 b k _ w); [done|reflexivity|done|done|by rewrite E2|done|].
  intros e2 w1 bs2 Hd2 Hk Hl2 Hw1. rewrite E2 in Hw1. cbn [Datatypes.fst Datatypes.snd]. destruct (w1 =? 0) eqn:Ew; bool_prop.
  { subst w1. apply walk_hole in Hw1 as ->. by eapply (free_answer s). }
  eapply (level_spec _ e1 drv vol spb 1 w1 _ _ w); [done|done|exact Hw1|done|by rewrite E1|done|].
  intros e3 w2 bs3 Hd3 Hk3 Hl3 Hw2. rewrite E1 in Hw2. cbn [Datatypes.fst Datatypes.snd]. destruct (w2 =? 0) eqn:E'; bool_prop.
  { subst w2. apply walk_hole in Hw2 as ->. by eapply (free_answer s). }
  eapply (level_spec _ e1 drv vol spb 0 w2 _ _ w); [done|done|exact Hw2|done|by rewrite E0, Z.div_1_r|done|].
  intros e4 w3 bs4 Hd4 Hk4 Hl4 [= ->]. by eapply (free_answer s).
Qed.
End nestings.

(** What the code computes: the map, shifted behind the doubly indirect tree. *)
Definition code_block (spb blk : Z) : Z := if blk <? double_limit spb then blk else blk + ppb spb * ppb spb.

Lemma ext2_get_block_number_spec s ino n raw drv vol spb blk b :
  mounted s ino n raw drv vol spb → fe_cost (drv_block_size drv) ≤ fe_avail (fenv s) → 0 ≤ blk →
  map_block vol spb raw (code_block spb blk) = Some b →
  wp (ext2_get_block_number ino blk) s (λ r s', r = b ∧ ∃ e', s' = set_fenv e' s ∧ keeps_env (fenv s) e').
Proof.
  intros [Hn Hraw (v & Hv & Hdrv) Hd] Hav Hblk Hm. pose proof (do_spb _ _ _ _ Hd) as Hspb. destruct (ppb_range spb Hspb) as [Hp Hpr].
  assert (drv_block_size drv / 4 = ppb spb) as Ep by (by rewrite (do_size _ _ _ _ Hd)).
  assert (u32 (ppb spb * ppb spb) = ppb spb * ppb spb) as Epp by (apply u32_small; nia).
  assert (0 < ppb spb * ppb spb) as Hpp by nia.
  unfold ext2_get_block_number. wp_step. eapply wp_deref; [exact Hn|]. wp_step. eapply wp_deref; [exact Hraw|].
  wp_step. eapply wp_deref; [exact Hv|]. wp_step. eapply wp_deref; [exact Hdrv|]. rewrite Ep. cbv zeta. rewrite Epp.
  unfold code_block, double_limit, map_block in Hm.
  destruct (blk <? 12) eqn:E1; bool_prop.
  { rewrite (proj2 (Z.ltb_lt blk (12 + _ + _))), (proj2 (Z.ltb_lt blk 12)) in Hm by lia. eapply wp_get_some; [exact Hm|]. split; [done|].
    exists (fenv s). by rewrite set_fenv_same. }
  assert (∀ w, w = 0 → (λ r s', r = w ∧ ∃ e', s' = set_fenv e' s ∧ keeps_env (fenv s) e') 0 s) as Hzero.
  { intros w ->. split; [done|]. exists (fenv s). by rewrite set_fenv_same. }
  destruct (blk - 12 <? ppb spb) eqn:E2; bool_prop.
  { rewrite (proj2 (Z.ltb_lt blk (12 + _ + _))), (proj2 (Z.ltb_ge blk 12)), (proj2 (Z.ltb_lt (blk - 12) _)) in Hm by lia.
    apply bind_Some in Hm as (r & Hr & Hw). wp_step. eapply wp_get_some; [exact Hr|]. destruct (r =? 0) eqn:E0; bool_prop.
    - subst r. apply wp_ret. by apply Hzero, (walk_hole vol spb 1 (blk - 12)).
    - by apply (single_spec s drv vol spb Hd Hav). }
  destruct (blk - 12 - ppb spb <? ppb spb * ppb spb) eqn:E3; bool_prop.
  { rewrite (proj2 (Z.ltb_lt blk (12 + _ + _))), (proj2 (Z.ltb_ge blk 12)), (proj2 (Z.ltb_ge (blk - 12) _)), (proj2 (Z.ltb_lt (blk - 12 - _) _)) in Hm by lia.
    apply bind_Some in Hm as (r & Hr & Hw). wp_step. eapply wp_get_some; [exact Hr|]. destruct (r =? 0) eqn:E0; bool_prop.
    - subst r. apply wp_ret. by eapply Hzero, walk_hole.
    - wp_step. apply wp_udiv; [lia|]. wp_step. apply wp_umod; [lia|]. by apply (double_spec s drv vol spb Hd Hav). }
  rewrite (proj2 (Z.ltb_ge blk (12 + _ + _))), (proj2 (Z.ltb_ge (blk + _) 12)), (proj2 (Z.ltb_ge (blk + _ - 12) _)), (proj2 (Z.ltb_ge (blk + _ - 12 - _) _)) in Hm by lia.
  apply bind_Some in Hm as (r & Hr & Hw). replace (blk + ppb spb * ppb spb - 12 - ppb spb - ppb spb * ppb spb) with (blk - 12 - ppb spb) in Hw by lia.
  wp_step. eapply wp_get_some; [exact Hr|]. destruct (r =? 0) eqn:E0; bool_prop.
  - subst r. apply wp_ret. by eapply Hzero, walk_hole.
  - wp_step. apply wp_udiv; [nia|]. wp_step. apply wp_umod; [nia|]. wp_step. apply wp_udiv; [lia|]. wp_step. apply wp_umod; [lia|].
    by apply (triple_spec s drv vol spb Hd Hav).
Qed.
End file.
