(* ===== verification/FsExample.v ===== *)
(** * A disk for the examples

    A heap that hands out fresh addresses with junk in the blocks and a disk of 128
    sectors: an MBR with one ext2 partition at sector 1 that holds a root directory and
    a small executable. *)

From stdpp Require Import strings.
From S2P Require Import Prelude Bytes Vfs Ext2 Ext2Proofs Ext2File.

(** ** The disk *)

Definition pad (n : nat) (bs : list Z) : list Z := bs ++ replicate (n - length bs) 0.

(** The executable: an ELF header, one program header, and the bytes of the segment, a
    page worth of file data less what is not there. *)
Definition elf_bytes : list Z :=
  [0x7F; 0x45; 0x4C; 0x46; 2; 1; 1; 0] ++ le_bytes 8 0 ++ le_bytes 2 2 ++ le_bytes 2 62 ++ le_bytes 4 1 ++
  le_bytes 8 0x100000000010 ++ le_bytes 8 64 ++ le_bytes 8 0 ++ le_bytes 4 0 ++ le_bytes 2 64 ++ le_bytes 2 56 ++ le_bytes 2 1 ++
  le_bytes 2 0 ++ le_bytes 2 0 ++ le_bytes 2 0 ++
  le_bytes 4 1 ++ le_bytes 4 5 ++ le_bytes 8 120 ++ le_bytes 8 0x100000000010 ++ le_bytes 8 0 ++ le_bytes 8 4 ++ le_bytes 8 8 ++ le_bytes 8 0x1000 ++
  [0x90; 0x90; 0xCD; 0x80].

Definition raw_root : list Z := pad 128 (le_bytes 2 0x41ED ++ le_bytes 2 0 ++ le_bytes 4 1024 ++ replicate 32 0 ++ le_bytes 4 4).
Definition raw_elf : list Z := pad 128 (le_bytes 2 0x81ED ++ le_bytes 2 0 ++ le_bytes 4 1200 ++ replicate 32 0 ++ le_bytes 4 5).

Definition dentry (ino rec : Z) (name : list Z) : list Z :=
  pad (Z.to_nat rec) (le_bytes 4 ino ++ le_bytes 2 rec ++ [blen name; 0] ++ name).

(** The sectors of the partition. *)
Definition part_sector (k : Z) : list Z :=
  if k =? 2 then pad 512 (replicate 24 0 ++ le_bytes 4 0 ++ replicate 12 0 ++ le_bytes 4 8 ++ replicate 12 0 ++ le_bytes 2 0xEF53)
  else if k =? 4 then pad 512 (replicate 8 0 ++ le_bytes 4 3)
  else if k =? 6 then pad 512 (replicate 128 0 ++ raw_root ++ raw_elf)
  else if k =? 8 then dentry 2 12 [46] ++ dentry 2 12 [46; 46] ++ dentry 3 488 [97; 46; 101; 108; 102]
  else if k =? 9 then dentry 0 512 []
  else if k =? 10 then pad 512 elf_bytes
  else if k =? 12 then pad 512 (le_bytes 4 0 ++ le_bytes 4 7)
  else if k =? 14 then pad 512 (le_bytes 4 8)
  else if k =? 16 then pad 512 (le_bytes 4 9)
  else replicate 512 0.

Definition disk_sector (k : Z) : list Z :=
  if k =? 0 then replicate 446 0 ++ pad 64 ([0x80; 0; 0; 0; 0x83; 0; 0; 0] ++ le_bytes 4 1 ++ le_bytes 4 63) ++ le_bytes 2 0xAA55
  else part_sector (k - 1).

(** ** The environment *)

(** The blocks of the heap in use, and the address spaces in use. *)
Record tfs := Tfs { tfs_live : gmap Z Z; tfs_spaces : gmap Z (Z → option Z) }.

(** An address behind all of a map. *)
Definition next_key {A} (m : gmap Z A) : Z := map_fold (λ a _ k, Z.max (a + 2 ^ 16) k) 0x10000 m.

Lemma next_key_spec {A} (m : gmap Z A) : 0x10000 ≤ next_key m ∧ ∀ a x, m !! a = Some x → a < next_key m.
Proof.
  unfold next_key. apply (map_fold_weak_ind (λ k m, 0x10000 ≤ k ∧ ∀ a x, m !! a = Some x → a < k)); [split; [done|by intros a n []%lookup_empty_Some]|].
  intros a n live' k Hn [IH1 IH2]. split; [lia|]. intros a' n' [[-> ->]|[_ Hl]]%lookup_insert_Some; [lia|]. specialize (IH2 a' n' Hl). lia.
Qed.

Lemma next_key_fresh {A} (m : gmap Z A) : m !! next_key m = None.
Proof. destruct (next_key_spec m) as [_ Hf]. destruct (m !! next_key m) as [x|] eqn:Ex; [|done]. specialize (Hf _ _ Ex). lia. Qed.

#[export] Instance tfs_env : FsEnv tfs := {|
  fe_kmalloc n := λ e, if 0 <? n then Ret ((next_key (tfs_live e), replicate (Z.to_nat n) 0xCC), Tfs (<[next_key (tfs_live e) := n]> (tfs_live e)) (tfs_spaces e)) else Ret ((0, []), e);
  fe_kfree a := λ e, Ret (tt, if a =? 0 then e else Tfs (delete a (tfs_live e)) (tfs_spaces e));
  fe_ata_read _ blk := ret (if bool_decide (0 ≤ blk < 128) then Some (disk_sector blk) else None)
|}.

(** Every sector is one: 512 bytes. *)
Definition byteb (b : Z) : bool := (0 <=? b) && (b <? 256).
Lemma bytes_check (bs : list Z) : forallb byteb bs = true → Forall is_byte bs.
Proof.
  intros Hb. apply Forall_forall. intros b Hin. apply list_elem_of_In in Hin. rewrite forallb_forall in Hb. specialize (Hb b Hin).
  unfold byteb in Hb. bool_prop. unfold is_byte. lia.
Qed.

Lemma disk_sectors k : blen (disk_sector k) = SECTOR ∧ Forall is_byte (disk_sector k).
Proof.
  unfold disk_sector, part_sector.
  repeat match goal with |- context [if ?b then _ else _] => destruct b end; (split; [reflexivity|apply bytes_check; vm_compute; reflexivity]).
Qed.

#[export] Instance tfs_laws : FsEnvLaws tfs.
Proof.
  refine {| fe_live := tfs_live; fe_avail _ := 0; fe_cost _ := 0; fe_world := gmap Z (Z → option Z); fe_kept := tfs_spaces;
            fe_sectors _ _ blk := if bool_decide (0 ≤ blk < 128) then Some (disk_sector blk) else None |}.
  - done.
  - intros e n Hn _. destruct (next_key_spec (tfs_live e)) as [H0 _]. cbn. rewrite (proj2 (Z.ltb_lt 0 n)) by done. eexists _, _, _. split; [done|].
    split; [lia|]. split; [apply next_key_fresh|]. split; [unfold blen; rewrite length_replicate; lia|done].
  - intros e a n H0 Ha. cbn. rewrite (proj2 (Z.eqb_neq a 0)) by done. eexists. by split.
  - done.
  - intros e d blk bs Hb. cbn in *. eexists. split; [by rewrite Hb|done].
  - intros e d blk bs. case_bool_decide; [|done]. intros [= <-]. apply disk_sectors.
Defined.

(** ** The mounted file system *)

Definition toy_drv : ext2_driver := Ext2Driver 0x1100 (part_sector 2 ++ part_sector 3) 1024 2.
Definition toy_root : inode := Inode 2 1024 0x41ED 0x1200 ext2_readdir_fn ext2_open_fn 0x1500.
Definition toy_elf : inode := Inode 3 1200 0x81ED 0x1200 ext2_readdir_fn ext2_open_fn 0x1700.

Definition toy_fs : fss tfs :=
  FState {[ 0x1000 := BlockDev 64 ata_read_block_fn 512 MASS_STORAGE "ATA"%string 0 0;
            0x1100 := BlockDev 63 partition_read_block_fn 512 PARTITION "PARTITION"%string 0x83 0x1000 ]}
         {[ 0x1100 := PartitionDev 0x1000 1 ]} {[ 0x1200 := Superblock "ext2"%string 0x1400 ext2_read_inode_fn 0x1300 ]} {[ 0x1300 := toy_drv ]}
         {[ 0x1400 := toy_root; 0x1600 := toy_elf ]} {[ 0x1500 := raw_root; 0x1700 := raw_elf ]}
         {[ 0x1800 := File 0x1600 0 ext2_file_ops ]} 0x1100 [ext2_probe_cb]
         (Tfs {[ 0x1400 := 48; 0x1500 := 128; 0x1600 := 48; 0x1700 := 128; 0x1800 := 40 ]} ∅).

Lemma toy_drv_ok : drv_ok toy_fs toy_drv (vol_of toy_fs 0x1100) 2.
Proof. split; [by eexists|by intros blk bs|done|lia]. Qed.

Lemma toy_mounted_elf : mounted toy_fs 0x1600 toy_elf raw_elf toy_drv (vol_of toy_fs 0x1100) 2.
Proof. split; [done..|by eexists|apply toy_drv_ok]. Qed.

Lemma toy_mounted_root : mounted toy_fs 0x1400 toy_root raw_root toy_drv (vol_of toy_fs 0x1100) 2.
Proof. split; [done..|by eexists|apply toy_drv_ok]. Qed.

(** An inode with nothing but a triply indirect tree, whose first pointer is a hole. *)
Definition raw_big : list Z := pad 128 (replicate 96 0 ++ le_bytes 4 6).
Definition toy_big : fss tfs := set_raw_at {[ 0x1500 := raw_root; 0x1700 := raw_big ]} toy_fs.

Lemma toy_mounted_big : mounted toy_big 0x1600 toy_elf raw_big toy_drv (vol_of toy_big 0x1100) 2.
Proof. split; [done..|by eexists|]. split; [by eexists|by intros blk bs|done|lia]. Qed.

(** The contents of the executable: the first sector of block 5, then zeros. *)
Definition toy_elf_data : list Z := pad 1200 elf_bytes.

Lemma toy_elf_content : file_content (vol_of toy_fs 0x1100) 2 raw_elf 1200 = Some toy_elf_data.
Proof. vm_compute. reflexivity. Qed.
