(* ===== verification/Ext2Read.v ===== *)
(** * Reading files

    [ext2_file_read] returns the bytes of the file's contents at the offset of the open
    file, moves the offset on, and leaves the heap as it was. *)

From stdpp Require Import strings.
From S2P Require Import Prelude Bytes Vfs Ext2 Ext2Proofs Ext2File FsExample.

Section read.
Context {E : Type} {FE : FsEnv E} {FL : FsEnvLaws E}.
Implicit Types (s : fss E) (e : E) (vol : volume).
#[local] Abbreviation MF := (M (fss E)).

Lemma file_block_length s drv vol spb raw k b : drv_ok s drv vol spb → file_block vol spb raw k = Some b → blen b = spb * SECTOR.
Proof.
  intros Hd Hb. pose proof (do_spb _ _ _ _ Hd) as Hs. apply bind_Some in Hb as (p & _ & Hb). destruct (p =? 0).
  - injection Hb as <-. unfold blen. rewrite length_replicate. unfold SECTOR. lia.
  - eapply vblock_length; [apply Hd|lia|exact Hb].
Qed.

Lemma block_count_range spb size : 2 ≤ spb ≤ 128 → 0 ≤ size → size ≤ block_count spb size * (spb * SECTOR) < size + spb * SECTOR.
Proof.
  intros Hs H0. unfold block_count, SECTOR. set (c := spb * 512). assert (0 < c) by lia.
  pose proof (Z.div_mod (size + c - 1) c ltac:(lia)) as Hdm. pose proof (Z.mod_pos_bound (size + c - 1) c ltac:(lia)). nia.
Qed.

(** The contents block by block. *)
Lemma content_block s drv vol spb raw size data k :
  drv_ok s drv vol spb → file_content vol spb raw size = Some data → 0 ≤ size → 0 ≤ k → k * (spb * SECTOR) < size →
  ∃ b, file_block vol spb raw k = Some b ∧ blen b = spb * SECTOR ∧
    ∀ o n, 0 ≤ o → 0 ≤ n → o + n ≤ spb * SECTOR → k * (spb * SECTOR) + o + n ≤ size → slice (k * (spb * SECTOR) + o) n data = slice o n b.
Proof.
  intros Hd Hc Hsz Hk Hks. pose proof (do_spb _ _ _ _ Hd) as Hspb. pose proof (block_count_range spb size Hspb Hsz) as Hbc.
  unfold file_content in Hc. apply bind_Some in Hc as (bs & Hm & [= <-]). pose proof Hm as Hm'. apply mapM_Some_1 in Hm.
  assert (k < block_count spb size) as Hkc by (unfold SECTOR in *; nia).
  destruct (lookup_lt_is_Some_2 (seqZ 0 (block_count spb size)) (Z.to_nat k)) as [k' Hk']; [rewrite length_seqZ; lia|].
  pose proof Hk' as [-> _]%lookup_seqZ. destruct (Forall2_lookup_l _ _ _ _ _ Hm Hk') as (b & Hb & Hfb).
  replace (0 + Z.of_nat (Z.to_nat k)) with k in Hfb by lia. exists b. split; [done|]. split; [by eapply file_block_length|].
  assert (0 ≤ k * (spb * SECTOR)) as Hkp by (unfold SECTOR; nia). intros o n Ho Hn Hon Hsn. rewrite slice_take by lia.
  assert (Forall (λ b, blen b = spb * SECTOR) bs) as Hall.
  { clear -Hm Hd FL. induction Hm as [|x y l l' Hxy Hm IH]; constructor; [by eapply file_block_length|done]. }
  rewrite <-(slice_mjoin (spb * SECTOR) bs (Z.to_nat k) b o n) by done. by rewrite Z2Nat.id.
Qed.

Lemma content_length s drv vol spb raw size data :
  drv_ok s drv vol spb → file_content vol spb raw size = Some data → 0 ≤ size → blen data = size.
Proof.
  intros Hd Hc Hsz. pose proof (do_spb _ _ _ _ Hd) as Hspb. pose proof (block_count_range spb size Hspb Hsz) as Hbc.
  unfold file_content in Hc. apply bind_Some in Hc as (bs & Hm & [= <-]). apply mapM_Some_1 in Hm.
  pose proof (Forall2_length _ _ _ Hm) as Hlen. rewrite length_seqZ in Hlen.
  assert (Forall (λ b, blen b = spb * SECTOR) bs) as Hall.
  { clear -Hm Hd FL. induction Hm as [|x y l l' Hxy Hm IH]; constructor; [by eapply file_block_length|done]. }
  apply blen_mjoin in Hall. unfold blen in *. rewrite length_take. unfold SECTOR in *. nia.
Qed.

(** ** The block map *)

(** Up to the last block of the doubly indirect tree, [ext2_get_block_number]
    answers the block of the ext2 block map, 0 for a hole, whatever the depth of the tree
    it is in, and gives its buffer back. *)
Theorem ext2_get_block_number_correct s ino n raw drv vol spb blk b :
  mounted s ino n raw drv vol spb → fe_cost (drv_block_size drv) ≤ fe_avail (fenv s) → 0 ≤ blk < double_limit spb →
  map_block vol spb raw blk = Some b →
  ∃ e', ext2_get_block_number ino blk s = Ret (b, set_fenv e' s) ∧ keeps_env (fenv s) e'.
Proof.
  intros Hmo Hav Hblk Hm. assert (map_block vol spb raw (code_block spb blk) = Some b) as Hc.
  { unfold code_block. by rewrite (proj2 (Z.ltb_lt _ _)) by lia. }
  pose proof (ext2_get_block_number_spec s ino n raw drv vol spb blk b Hmo Hav ltac:(lia) Hc) as (r & s' & Er & -> & e' & -> & He)%wp_iff. eauto.
Qed.

(** C28: for a block in the triply indirect tree [ext2_get_block_number] answers a
    block that is [p * p] blocks further on in the map, with [p] the pointers per block:
    the blocks of the doubly indirect tree are not taken off. *)
Theorem ext2_triple_indirect_shifted s ino n raw drv vol spb blk b :
  mounted s ino n raw drv vol spb → fe_cost (drv_block_size drv) ≤ fe_avail (fenv s) → double_limit spb ≤ blk →
  map_block vol spb raw (blk + ppb spb * ppb spb) = Some b →
  ∃ e', ext2_get_block_number ino blk s = Ret (b, set_fenv e' s) ∧ keeps_env (fenv s) e'.
Proof.
  intros Hmo Hav Hblk Hm. assert (0 ≤ blk) as H0.
  { pose proof (ppb_range spb (do_spb _ _ _ _ (mo_drv _ _ _ _ _ _ _ Hmo))). unfold double_limit in Hblk. nia. }
  assert (map_block vol spb raw (code_block spb blk) = Some b) as Hc.
  { unfold code_block. by rewrite (proj2 (Z.ltb_ge _ _)) by lia. }
  pose proof (ext2_get_block_number_spec s ino n raw drv vol spb blk b Hmo Hav H0 Hc) as (r & s' & Er & -> & e' & -> & He)%wp_iff. eauto.
Qed.

(** ** The loop *)

Lemma mounted_file s fs ino n raw drv vol spb : mounted s ino n raw drv vol spb → mounted (set_file_at fs s) ino n raw drv vol spb.
Proof. intros [H1 H2 H3 H4]. split; [done..|]. by apply (drv_ok_same s). Qed.

(** One turn: the bytes of the block the offset is in. *)
Lemma read_piece s ino n raw drv vol spb data off to temp :
  mounted s ino n raw drv vol spb → file_content vol spb raw (i_size n) = Some data → i_size n ≤ double_limit spb * (spb * SECTOR) →
  0 ≤ off → off < i_size n < 2 ^ 32 → 0 < to ≤ spb * SECTOR - off mod (spb * SECTOR) → off + to ≤ i_size n → blen temp = drv_block_size drv →
  fe_cost (drv_block_size drv) ≤ fe_avail (fenv s) →
  wp (phys_block <- ext2_get_block_number ino (u32 (off / (spb * SECTOR))) ;;
      if phys_block =? 0 then ret (temp, replicate (Z.to_nat to) 0)
      else temp_block <- ext2_read_block drv phys_block temp ;;
           bs <- get_some (bytes_at (off mod (spb * SECTOR)) to temp_block) ;;
           ret (temp_block, bs)) s
    (λ r s', blen r.1 = drv_block_size drv ∧ r.2 = slice off to data ∧ ∃ e', s' = set_fenv e' s ∧ keeps_env (fenv s) e').
Proof.
  intros Hmo Hc Hlim Hoff Hsz Hto Hend Htemp Hav. pose proof (mo_drv _ _ _ _ _ _ _ Hmo) as Hd. pose proof (do_spb _ _ _ _ Hd) as Hspb.
  set (c := spb * SECTOR) in *. assert (0 < c) as Hc0 by (unfold c, SECTOR; lia).
  pose proof (Z.div_mod off c ltac:(lia)) as Hdm. pose proof (Z.mod_pos_bound off c Hc0) as Hmb. set (k := off / c) in *. set (o := off mod c) in *.
  assert (0 ≤ k) as Hk0 by (apply Z.div_pos; lia).
  destruct (content_block s drv vol spb raw (i_size n) data k Hd Hc ltac:(lia) Hk0) as (b & Hb & Hbl & Hsl); [fold c; lia|]. fold c in Hbl, Hsl.
  unfold file_block in Hb. apply bind_Some in Hb as (p & Hp & Hb).
  assert (k < double_limit spb) as Hkl by (fold c in Hlim; nia).
  rewrite (u32_small k) by nia. wp_step.
  eapply wp_mono; [apply (ext2_get_block_number_spec s ino n raw drv vol spb k p Hmo Hav Hk0)|].
  { unfold code_block. by rewrite (proj2 (Z.ltb_lt _ _)). }
  cbv beta. intros r s' (-> & e1 & -> & He1). replace off with (k * c + o) at 1 by lia.
  assert (slice off to data = slice o to b) as Esl by (rewrite <-(Hsl o to) by lia; f_equal; lia).
  destruct (p =? 0) eqn:E0; bool_prop.
  - apply wp_ret. cbn. split; [done|]. split; [|eauto]. injection Hb as <-. fold c in Hsl |- *. rewrite Esl, slice_replicate by lia. done.
  - wp_step. eapply wp_mono; [apply (ext2_read_block_spec (set_fenv e1 s) drv vol spb p temp b); [by apply drv_ok_env; [apply He1|]|done..]|].
    cbv beta. intros r s' (-> & e2 & -> & He2). wp_step. eapply wp_get_some; [unfold bytes_at; rewrite bool_decide_true by lia; reflexivity|].
    apply wp_ret. cbn. split; [by rewrite Hbl, (do_size _ _ _ _ Hd)|]. split; [done|]. exists e2. split; [done|]. by etrans.
Qed.
Lemma file_read_loop_spec fuel s f ino ops n raw drv vol spb data off len br out temp :
  mounted s ino n raw drv vol spb → file_content vol spb raw (i_size n) = Some data → i_size n ≤ double_limit spb * (spb * SECTOR) →
  file_at s !! f = Some (File ino off ops) → 0 ≤ off → 0 ≤ len → off + len ≤ i_size n < 2 ^ 32 → 0 ≤ br → br + len < 2 ^ 31 →
  blen temp = drv_block_size drv → fe_cost (drv_block_size drv) ≤ fe_avail (fenv s) → (Z.to_nat len < fuel)%nat →
  wp (file_read_loop fuel f ino drv temp len br out) s (λ r s', r = (br + len, out ++ slice off len data) ∧
    ∃ e', s' = set_file_at (<[f := File ino (off + len) ops]> (file_at s)) (set_fenv e' s) ∧ keeps_env (fenv s) e').
Proof.
  revert s off len br out temp. induction fuel as [|fuel IH]; intros s off len br out temp Hmo Hc Hlim Hf Hoff Hlen Hsz Hbr Hbl Htemp Hav Hfuel; [lia|].
  pose proof (mo_drv _ _ _ _ _ _ _ Hmo) as Hd. pose proof (do_spb _ _ _ _ Hd) as Hspb. pose proof (do_size _ _ _ _ Hd) as Hbs.
  cbn [file_read_loop]. destruct (0 <? len) eqn:El; bool_prop; cbn [negb].
  2: { assert (len = 0) as -> by lia. apply wp_ret. rewrite slice_nil, app_nil_r, !Z.add_0_r. split; [done|]. exists (fenv s).
       rewrite set_fenv_same, insert_id by done. split; [by destruct s|reflexivity]. }
  wp_step. eapply wp_deref; [exact Hf|]. cbn [f_offset f_inode f_ops]. rewrite Hbs.
  assert (0 < spb * SECTOR < 2 ^ 32) as Hcr by (unfold SECTOR; lia).
  wp_step. apply wp_udiv; [lia|]. wp_step. apply wp_umod; [lia|]. pose proof (Z.mod_pos_bound off (spb * SECTOR) ltac:(lia)) as Hmb.
  cbv zeta. rewrite (u32_small len), (u32_small (spb * SECTOR - _)) by lia. set (to := Z.min len _).
  assert (0 < to ≤ len ∧ to ≤ spb * SECTOR - off mod (spb * SECTOR)) as [Hto1 Hto2] by (unfold to; lia). clearbody to.
  apply wp_seq. eapply wp_mono; [apply (read_piece s ino n raw drv vol spb data off to temp Hmo Hc Hlim); try lia; done|].
  cbv beta. intros r s' (Hr1 & Hr2 & e1 & -> & He1). wp_step. unfold set_offset. wp_step. eapply wp_deref; [exact Hf|]. wp_step. cbn [f_inode f_ops].
  rewrite (u64_small (off + to)), !i32_small by lia. rewrite Hr2.
  set (s2 := set_file_at _ _). change (set_file_at (<[f := File ino (off + to) ops]> (file_at s)) (set_fenv e1 s)) with s2.
  eapply wp_mono; [apply (IH s2 (off + to) (len - to) (br + to)); try done; try lia|].
  - apply mounted_file, mounted_env; [apply He1|done].
  - apply lookup_insert_eq.
  - pose proof (kv_avail _ _ He1). cbn. lia.
  - cbv beta. intros r' s' (-> & e2 & -> & He2). split.
    + rewrite <-(assoc_L app), slice_app by lia. f_equal; [lia|]. repeat f_equal. lia.
    + exists e2. split; [|by etrans]. replace (off + len) with (off + to + (len - to)) by lia. cbn. by rewrite insert_insert_eq.
Qed.

Lemma ext2_file_read_spec s f ino off ops n raw drv vol spb data len :
  mounted s ino n raw drv vol spb → f ≠ 0 → ino ≠ 0 → file_at s !! f = Some (File ino off ops) →
  file_content vol spb raw (i_size n) = Some data → i_size n ≤ double_limit spb * (spb * SECTOR) → 0 ≤ i_size n < 2 ^ 32 →
  0 ≤ off < 2 ^ 63 → 0 ≤ len < 2 ^ 31 → 2 * fe_cost (drv_block_size drv) ≤ fe_avail (fenv s) →
  let m := Z.max 0 (Z.min len (i_size n - off)) in
  wp (ext2_file_read f len) s (λ r s', r = (m, slice off m data) ∧
    ∃ e', s' = set_file_at (<[f := File ino (off + m) ops]> (file_at s)) (set_fenv e' s) ∧ keeps_env (fenv s) e').
Proof.
  intros Hmo Hf0 Hi0 Hf Hc Hlim Hsz Hoff Hlen Hav m. pose proof Hmo as [Hn Hraw (v & Hv & Hdrv) Hd].
  pose proof (do_spb _ _ _ _ Hd) as Hspb. pose proof (do_size _ _ _ _ Hd) as Hbs. pose proof (fe_cost_nonneg (drv_block_size drv)) as Hcn.
  unfold ext2_file_read. rewrite (proj2 (Z.eqb_neq f 0)) by done. wp_step. eapply wp_deref; [exact Hf|]. cbn [f_inode f_offset].
  rewrite (proj2 (Z.eqb_neq ino 0)) by done. wp_step. eapply wp_deref; [exact Hn|]. wp_step. eapply wp_deref; [exact Hv|]. wp_step. eapply wp_deref; [exact Hdrv|].
  destruct (i_size n <=? off) eqn:Eo; bool_prop.
  { assert (m = 0) as -> by lia. apply wp_ret. split; [done|]. exists (fenv s). rewrite Z.add_0_r, set_fenv_same, insert_id by done. split; [by destruct s|reflexivity]. }
  set (len' := if i_size n <? u64 (off + len) then _ else _).
  assert (len' = m ∧ 0 ≤ m ≤ len ∧ off + m ≤ i_size n) as (-> & Hm1 & Hm2).
  { unfold len', m. rewrite u64_small by lia. destruct (i_size n <? off + len) eqn:Es; bool_prop; [rewrite u64_small, i32_small by lia|]; lia. }
  wp_step. apply kmalloc_buf_spec; [rewrite Hbs; unfold SECTOR; lia|lia|]. intros a temp e1 Ha Hl. cbn [Datatypes.fst Datatypes.snd]. wp_step.
  eapply wp_mono; [apply (file_read_loop_spec _ (set_fenv e1 s) f ino ops n raw drv vol spb data off m 0 [] temp); try done; try lia|].
  - apply mounted_env; [apply Ha|done].
  - pose proof (al_avail _ _ _ _ Ha). cbn. lia.
  - cbv beta. intros r s' (-> & e2 & -> & He2). wp_step. eapply kfree_buf_spec; [exact Ha|exact He2|]. intros e3 He3. apply wp_ret. split; [done|].
    exists e3. by split.
Qed.
End read.


(** The second block of the executable is a hole. *)
Lemma ext2_get_block_number_witness : ∃ s', ext2_get_block_number 0x1600 1 toy_fs = Ret (0, s') ∧ ext2_get_block_number 0x1600 0 s' = Ret (5, s').
Proof.
  destruct (ext2_get_block_number_correct toy_fs 0x1600 toy_elf raw_elf toy_drv (vol_of toy_fs 0x1100) 2 1 0 toy_mounted_elf) as (e1 & E1 & H1);
    [done|by vm_compute|by vm_compute|].
  eexists. split; [exact E1|].
  destruct (ext2_get_block_number_correct (set_fenv e1 toy_fs) 0x1600 toy_elf raw_elf toy_drv (vol_of toy_fs 0x1100) 2 0 5) as (e2 & E2 & H2);
    [apply mounted_env; [apply H1|apply toy_mounted_elf]|done|by vm_compute|by vm_compute|].
  rewrite E2. vm_compute in E2. injection E2 as <-. reflexivity.
Defined.

(** The first block of the triply indirect tree is a hole; the driver answers block 9. *)
Lemma ext2_triple_indirect_witness :
  map_block (vol_of toy_big 0x1100) 2 raw_big (double_limit 2) = Some 0 ∧
  ∃ s', ext2_get_block_number 0x1600 (double_limit 2) toy_big = Ret (9, s').
Proof.
  split; [vm_compute; reflexivity|].
  destruct (ext2_triple_indirect_shifted toy_big 0x1600 toy_elf raw_big toy_drv (vol_of toy_big 0x1100) 2 (double_limit 2) 9 toy_mounted_big) as (e' & Er & _);
    [done|lia|vm_compute; reflexivity|]. eexists. exact Er.
Defined.
