(* ===== verification/Ext2Inode.v ===== *)
(** * Finding an inode on the disk

    The reference: the group descriptors and the inode table of a group are runs of
    bytes on the volume, and an inode is at its index times the inode size in the table
    of its group.  [ext2_read_inode] returns a node with the size and mode of that inode
    and a copy of its bytes. *)

From stdpp Require Import strings.
From S2P Require Import Prelude Bytes Vfs Ext2 Ext2Proofs.

(** ** The format *)

(** [n] bytes at the byte offset [off] of the volume, inside one block. *)
Definition vbytes (vol : volume) (spb off n : Z) : option (list Z) :=
  b ← vblock vol spb (off / (spb * SECTOR)); bytes_at (off mod (spb * SECTOR)) n b.

Definition inode_size_of (sb : list Z) : option Z :=
  rev ← sb_rev_level sb; isz ← sb_inodes_size sb; Some (if 1 <=? rev then isz else 128).

(** Where the inode table of a group starts, in bytes. *)
Definition inode_table (vol : volume) (spb start group : Z) : option Z :=
  desc ← vbytes vol spb (start * (spb * SECTOR) + GROUP_SIZE * group) GROUP_SIZE;
  t ← group_inode_table 0 desc; Some (t * (spb * SECTOR)).

(** The bytes of the inode [num]. *)
Definition inode_raw (vol : volume) (spb : Z) (sb : list Z) (start num : Z) : option (list Z) :=
  ipg ← sb_inodes_per_group sb;
  isz ← inode_size_of sb;
  table ← inode_table vol spb start ((num - 1) / ipg);
  vbytes vol spb (table + isz * ((num - 1) mod ipg)) isz.

(** The node for an inode with the bytes [raw], a copy of which is at [priv]. *)
Definition vnode_of (num sb priv : Z) (raw : list Z) : inode :=
  Inode num (le (slice 4 4 raw)) (le (slice 0 2 raw)) sb ext2_readdir_fn ext2_open_fn priv.

(** An index into a run of records of [d] bytes that starts at a block boundary. *)
Lemma record_index start d q g : 0 < d → 0 < q → 0 ≤ g →
  (start * (d * q) + d * g) / (d * q) = start + g / q ∧ (start * (d * q) + d * g) mod (d * q) = d * (g mod q).
Proof.
  intros Hd Hq Hg. rewrite Z.div_add_l by nia. rewrite Z.div_mul_cancel_l by lia.
  split; [done|]. rewrite (Z.add_comm (start * _)), Z.mod_add by nia. by rewrite Z.mul_mod_distr_l by lia.
Qed.

Section inode.
Context {E : Type} {FE : FsEnv E} {FL : FsEnvLaws E}.
Implicit Types (s : fss E) (e : E) (vol : volume).
#[local] Abbreviation MF := (M (fss E)).

(** The superblock's data that locates inodes. *)
Record geometry (drv : ext2_driver) (spb ipg isz : Z) : Prop := {
  ge_ipg : sb_inodes_per_group (drv_sb drv) = Some ipg ∧ 0 < ipg;
  ge_isz : inode_size_of (drv_sb drv) = Some isz ∧ 128 ≤ isz;
  ge_fit : (isz | spb * SECTOR);
  ge_start : 0 ≤ drv_block_start drv < 2 ^ 31
}.

(** The structures of a mounted file system. *)
Record fs_mounted s (sb : Z) (drv : ext2_driver) vol (spb ipg isz : Z) : Prop := {
  fm_sb : ∃ v, sb_at s !! sb = Some v ∧ drv_at s !! sb_priv v = Some drv;
  fm_drv : drv_ok s drv vol spb;
  fm_geo : geometry drv spb ipg isz;
  (** block numbers fit into 32 bits *)
  fm_small n b : vblock vol spb n = Some b → 0 ≤ n < 2 ^ 33 → n < 2 ^ 32
}.

Lemma fs_mounted_env s e' sb drv vol spb ipg isz :
  fe_kept e' = fe_kept (fenv s) → fs_mounted s sb drv vol spb ipg isz → fs_mounted (set_fenv e' s) sb drv vol spb ipg isz.
Proof. intros Hd [H1 H2 H3 H4]. split; [done|by apply drv_ok_env|done|done]. Qed.

(** What it costs to have a node in memory. *)
Definition node_cost (isz : Z) : Z := fe_cost INODE_SIZE + fe_cost isz.

(** A node was added to the heap. *)
Record node_added s (num sb : Z) (raw : list Z) (isz a priv : Z) e' s' : Prop := {
  na_state : s' = set_raw_at (<[priv := raw]> (raw_at s)) (set_inode_at (<[a := vnode_of num sb priv raw]> (inode_at s)) (set_fenv e' s));
  na_nonzero : a ≠ 0 ∧ priv ≠ 0 ∧ a ≠ priv;
  na_fresh : fe_live (fenv s) !! a = None ∧ fe_live (fenv s) !! priv = None;
  na_live : fe_live e' = <[priv := isz]> (<[a := INODE_SIZE]> (fe_live (fenv s)));
  na_avail : fe_avail (fenv s) - node_cost isz ≤ fe_avail e';
  na_disk : fe_kept e' = fe_kept (fenv s)
}.

(** What the arithmetic of the code finds. *)
Lemma inode_raw_inv s drv vol spb ipg isz num raw :
  drv_ok s drv vol spb → geometry drv spb ipg isz → 1 ≤ num < 2 ^ 32 → inode_raw vol spb (drv_sb drv) (drv_block_start drv) num = Some raw →
  let bs := spb * SECTOR in let group := (num - 1) / ipg in let index := (num - 1) mod ipg in
  ∃ db table ib, vblock vol spb (drv_block_start drv + group / (bs / GROUP_SIZE)) = Some db ∧
    group_inode_table (GROUP_SIZE * (group mod (bs / GROUP_SIZE))) db = Some table ∧
    vblock vol spb (table + index / (bs / isz)) = Some ib ∧ bytes_at (isz * (index mod (bs / isz))) isz ib = Some raw ∧
    blen ib = bs ∧ 0 ≤ table < 2 ^ 32 ∧ 0 ≤ group ∧ 0 ≤ index.
Proof.
  intros Hd [[Ei Hi] [Es Hs] [q Hq] _] Hn Hr. cbv zeta. pose proof (do_spb _ _ _ _ Hd) as Hspb. unfold inode_raw in Hr. rewrite Ei, Es in Hr. cbn in Hr.
  apply bind_Some in Hr as (tb & Ht & Hr). unfold inode_table in Ht. apply bind_Some in Ht as (desc & Hdesc & Ht). apply bind_Some in Ht as (t & Ht & [= <-]).
  assert (0 ≤ (num - 1) / ipg) as Hg0 by (apply Z.div_pos; lia). pose proof (Z.mod_pos_bound (num - 1) ipg ltac:(lia)) as [Hx0 _].
  set (group := (num - 1) / ipg) in *. set (index := (num - 1) mod ipg) in *. set (bs := spb * SECTOR) in *.
  assert (bs = 32 * (spb * 16)) as E32 by (unfold bs, SECTOR; lia). assert (0 < q) as Hq0 by (unfold bs, SECTOR in *; nia).
  assert (bs / GROUP_SIZE = spb * 16) as -> by (rewrite E32; unfold GROUP_SIZE; rewrite Z.mul_comm, Z.div_mul; lia).
  assert (bs / isz = q) as -> by (rewrite Hq, Z.div_mul; lia).
  unfold vbytes in Hdesc, Hr. apply bind_Some in Hdesc as (db & Hdb & Hdesc). apply bind_Some in Hr as (ib & Hib & Hr). fold bs in Hdb, Hdesc, Hib, Hr.
  destruct (record_index (drv_block_start drv) 32 (spb * 16) group) as [Q1 Q2]; [lia..|]. rewrite <-E32 in Q1, Q2.
  unfold GROUP_SIZE in Hdb, Hdesc. rewrite Q1 in Hdb. rewrite Q2 in Hdesc.
  assert (bs = isz * q) as Eisz by lia. destruct (record_index t isz q index) as [R1 R2]; [lia..|]. rewrite <-Eisz in R1, R2. rewrite R1 in Hib. rewrite R2 in Hr.
  destruct (vblock_length s (drv_dev drv) vol spb _ _ (do_reads _ _ _ _ Hd) ltac:(lia) Hdb) as [Ldb Bdb].
  destruct (vblock_length s (drv_dev drv) vol spb _ _ (do_reads _ _ _ _ Hd) ltac:(lia) Hib) as [Lib _].
  unfold bytes_at in Hdesc. case_bool_decide as Hin; [|done]. injection Hdesc as <-.
  assert (group_inode_table (GROUP_SIZE * (group mod (spb * 16))) db = Some t) as Ht'.
  { unfold group_inode_table, GROUP_SIZE in *. pose proof (field_inv _ _ _ _ Ht) as (_ & _ & _ & ->). rewrite field_some by lia. by rewrite slice_slice by lia. }
  exists db, t, ib. repeat (split; [done|]). pose proof (field_range _ _ _ _ Bdb Ht') as Hrange. split; [exact Hrange|done].
Qed.

(** Nothing is left of two scratch buffers. *)
Lemma scratch_freed (L : gmap Z Z) a1 n1 a2 n2 a3 n3 a4 n4 :
  L !! a1 = None → <[a1 := n1]> L !! a2 = None → <[a2 := n2]> (<[a1 := n1]> L) !! a3 = None →
  <[a3 := n3]> (<[a2 := n2]> (<[a1 := n1]> L)) !! a4 = None →
  delete a2 (delete a1 (<[a4 := n4]> (<[a3 := n3]> (<[a2 := n2]> (<[a1 := n1]> L))))) = <[a4 := n4]> (<[a3 := n3]> L).
Proof.
  intros F1 F2 F3 F4. rewrite !lookup_insert_None in *. destruct F2 as [F2 ?], F3 as [[F3 ?] ?], F4 as [[[F4 ?] ?] ?].
  apply map_eq. intros x. rewrite !lookup_delete, !lookup_insert. repeat case_decide; congruence.
Qed.

(** The scratch buffers go, the node and the copy stay. *)
Lemma read_inode_free s a1 n1 a2 n2 a3 a4 isz num sb raw e1 e2 e3 e4 e5 e6 :
  allocated (fenv s) a1 n1 e1 → keeps_env e1 e2 → allocated e2 a2 n2 e3 → keeps_env e3 e4 →
  allocated e4 a3 INODE_SIZE e5 → allocated e5 a4 isz e6 →
  wp (fcall (fe_kfree a1) ;; fcall (fe_kfree a2) ;; ret a3)
    (set_raw_at (<[a4 := raw]> (raw_at s)) (set_inode_at (<[a3 := vnode_of num sb a4 raw]> (inode_at s)) (set_fenv e6 s)))
    (λ a s', ∃ priv e', node_added s num sb raw isz a priv e' s').
Proof.
  intros [N1 F1 L1 V1 D1] [KL2 KV2 KD2] [N2 F2 L2 V2 D2] [KL4 KV4 KD4] [N3 F3 L3 V3 D3] [N4 F4 L4 V4 D4].
  rewrite KL2, L1 in F2, L2. rewrite KL4, L2 in F3, L3. rewrite L3 in F4, L4. pose proof F2 as F2'. pose proof F3 as F3'. pose proof F4 as F4'.
  rewrite !lookup_insert_None in F2'. rewrite !lookup_insert_None in F3'. rewrite !lookup_insert_None in F4'. destruct F2' as [G2 ?], F3' as [[G3 ?] ?], F4' as [[[G4 ?] ?] ?].
  wp_step. destruct (fe_kfree_ok e6 a1 n1 N1) as (e7 & E7 & L7 & V7 & D7).
  { rewrite L4, !lookup_insert_ne, lookup_insert_eq by congruence. done. }
  eapply wp_fcall; [exact E7|]. wp_step. destruct (fe_kfree_ok e7 a2 n2 N2) as (e8 & E8 & L8 & V8 & D8).
  { rewrite L7, L4, lookup_delete_ne, !lookup_insert_ne, lookup_insert_eq by congruence. done. }
  eapply wp_fcall; [exact E8|]. apply wp_ret. exists a4, e8. split.
  - done.
  - done.
  - done.
  - rewrite L8, L7, L4. by apply scratch_freed.
  - unfold node_cost. lia.
  - congruence.
Qed.

(** The fields of the node are those of the copy. *)
Lemma raw_fields node isz buf raw :
  bytes_at node isz buf = Some raw → 128 ≤ isz → raw_size node buf = Some (le (slice 4 4 raw)) ∧ raw_mode node buf = Some (le (slice 0 2 raw)).
Proof.
  unfold bytes_at. case_bool_decide as Hin; [|done]. intros [= <-] Hs. unfold raw_size, raw_mode. rewrite !field_some by lia.
  rewrite !slice_slice by lia. by rewrite Z.add_0_r.
Qed.

Lemma ext2_read_inode_spec s sb drv vol spb ipg isz num raw :
  fs_mounted s sb drv vol spb ipg isz → 1 ≤ num < 2 ^ 32 →
  inode_raw vol spb (drv_sb drv) (drv_block_start drv) num = Some raw →
  2 * fe_cost (drv_block_size drv) + node_cost isz ≤ fe_avail (fenv s) →
  wp (ext2_read_inode sb num) s (λ a s', ∃ priv e', node_added s num sb raw isz a priv e' s').
Proof.
  intros [(v & Hv & Hdrv) Hd Hg Hsm] Hn Hr Hav. pose proof (do_spb _ _ _ _ Hd) as Hspb. pose proof (do_size _ _ _ _ Hd) as Hbs.
  destruct (inode_raw_inv s drv vol spb ipg isz num raw Hd Hg Hn Hr) as (db & table & ib & Hdb & Htb & Hib & Hraw & Lib & Ht & Hg0 & Hx0).
  set (group := (num - 1) / ipg) in *. set (index := (num - 1) mod ipg) in *. set (bs := spb * SECTOR) in *.
  destruct Hg as [[Ei Hi] [Es Hs] Hfit Hst]. pose proof (fe_cost_nonneg bs) as C1. pose proof (fe_cost_nonneg INODE_SIZE) as C2. pose proof (fe_cost_nonneg isz) as C3.
  unfold node_cost in Hav. rewrite Hbs in Hav.
  assert (0 < bs / GROUP_SIZE) as Hq1 by (unfold bs, SECTOR, GROUP_SIZE; dlia).
  assert (0 < bs / isz) as Hq2 by (destruct Hfit as [q Hq]; fold bs in Hq; rewrite Hq, Z.div_mul by lia; unfold bs, SECTOR in *; nia).
  assert (group ≤ num - 1 ∧ index ≤ num - 1) as [Hgn Hxn] by (unfold group, index; split; [apply Z.div_le_upper_bound|apply Z.mod_le]; nia).
  assert (0 ≤ group / (bs / GROUP_SIZE) ≤ group ∧ 0 ≤ index / (bs / isz) ≤ index) as [[Hb1 Hb2] [Hb3 Hb4]].
  { split; (split; [apply Z.div_pos; lia|apply Z.div_le_upper_bound; nia]). }
  unfold inode_size_of in Es. apply bind_Some in Es as (rev & Erev & Es). apply bind_Some in Es as (isz0 & Eisz & [= Es]).
  unfold ext2_read_inode. wp_step. eapply wp_deref; [exact Hv|]. wp_step. eapply wp_deref; [exact Hdrv|]. wp_step. eapply wp_get_some; [exact Ei|]. cbv zeta.
  rewrite (u32_small (num - 1)) by lia. wp_step. apply wp_udiv; [lia|]. wp_step. apply wp_umod; [lia|]. fold group index. rewrite Hbs. fold bs.
  assert (0 < bs) as Hbs0 by (unfold bs, SECTOR; lia).
  wp_step. apply kmalloc_buf_spec; [done|lia|]. intros a1 buf1 e1 A1 L1. cbn [Datatypes.fst Datatypes.snd].
  wp_step. apply wp_udiv; [lia|]. wp_step. apply wp_umod; [lia|].
  rewrite (u32_small (drv_block_start drv + _)).
  2: { split; [lia|]. apply (Hsm _ _ Hdb). lia. }
  wp_step. eapply wp_mono; [apply (ext2_read_block_spec (set_fenv e1 s) drv vol spb _ buf1 db); [by apply drv_ok_env; [apply A1|]|done|by rewrite Hbs]|].
  cbv beta. intros r s' (-> & e2 & -> & K2). wp_step. eapply wp_get_some; [exact Htb|].
  wp_step. eapply wp_get_some; [exact Erev|]. wp_step. eapply wp_get_some; [exact Eisz|]. rewrite Es.
  wp_step. apply wp_udiv; [lia|]. wp_step. apply wp_udiv; [lia|]. wp_step. apply wp_umod; [lia|].
  pose proof (al_avail _ _ _ _ A1) as V1. pose proof (kv_avail _ _ K2) as V2. cbn [fenv set_fenv] in V2.
  wp_step. apply kmalloc_buf_spec; [done|cbn; lia|]. cbn [fenv set_fenv]. intros a2 buf2 e3 A2 L2. cbn [Datatypes.fst Datatypes.snd].
  rewrite (u32_small (table + _)).
  2: { split; [lia|]. apply (Hsm _ _ Hib). lia. }
  wp_step. eapply wp_mono; [apply (ext2_read_block_spec (set_fenv e3 s) drv vol spb _ buf2 ib); [|done|by rewrite Hbs]|].
  { apply drv_ok_env; [|done]. rewrite (al_disk _ _ _ _ A2), (kv_disk _ _ K2). apply A1. }
  cbv beta. intros r s' (-> & e4 & -> & K4). cbn [fenv set_fenv] in K4. pose proof (al_avail _ _ _ _ A2) as V3. pose proof (kv_avail _ _ K4) as V4.
  assert (u32 (index mod (bs / isz) * isz) = isz * (index mod (bs / isz))) as ->.
  { rewrite u32_small; [lia|]. unfold bytes_at in Hraw. case_bool_decide as Hin; [|done]. unfold bs, SECTOR in *. lia. }
  destruct (raw_fields _ _ _ _ Hraw Hs) as [F1 F2].
  wp_step. apply kmalloc_node_spec; [done|cbn; lia|]. cbn [fenv set_fenv]. intros a3 e5 A3. pose proof (al_avail _ _ _ _ A3) as V5.
  wp_step. eapply wp_get_some; [exact F1|]. wp_step. eapply wp_get_some; [exact F2|].
  wp_step. apply kmalloc_node_spec; [lia|cbn; lia|]. cbn [fenv set_fenv]. intros a4 e6 A4. pose proof (al_avail _ _ _ _ A4) as V6.
  wp_step. eapply wp_get_some; [exact Hraw|]. wp_step. wp_step. wp_step. wp_step.
  apply (read_inode_free s a1 bs a2 bs a3 a4 isz num sb raw e1 e2 e3 e4 e5 e6); done.
Qed.
End inode.
