(* ===== verification/Ext2Dir.v ===== *)
(** * Directories

    The reference: a directory is a list of entries, each written as a record of the
    ext2 format.  [ext2_readdir] with a callback that looks for a name reads the records
    back: it stops at the first entry with the name, with the inode of that entry in
    memory, and frees the inodes of the entries before it. *)

From stdpp Require Import strings.
From S2P Require Import Prelude Bytes Vfs Ext2 Ext2Proofs Ext2File Ext2Inode.

(** ** The format *)

Record dirent := Dirent { de_ino : Z; de_type : Z; de_name : list Z; de_pad : list Z }.

Definition rec_len (d : dirent) : Z := 8 + blen (de_name d) + blen (de_pad d).

Definition encode (d : dirent) : list Z :=
  le_bytes 4 (de_ino d) ++ le_bytes 2 (rec_len d) ++ le_bytes 1 (blen (de_name d)) ++ [de_type d] ++ de_name d ++ de_pad d.

Definition dirent_ok (d : dirent) : Prop :=
  0 ≤ de_ino d < 2 ^ 32 ∧ rec_len d < 2 ^ 16 ∧ rec_len d mod 4 = 0 ∧ blen (de_name d) < 2 ^ 8.

#[export] Instance dirent_ok_dec d : Decision (dirent_ok d).
Proof. unfold dirent_ok. apply _. Defined.

Definition encode_all (ds : list dirent) : list Z := mjoin (encode <$> ds).

Lemma blen_encode d : blen (encode d) = rec_len d.
Proof. unfold encode, rec_len. rewrite !blen_app, !blen_le_bytes. change (blen [de_type d]) with 1. lia. Qed.

Lemma encode_all_cons d ds : encode_all (d :: ds) = encode d ++ encode_all ds.
Proof. done. Qed.

Lemma encode_all_app ds ds' : encode_all (ds ++ ds') = encode_all ds ++ encode_all ds'.
Proof. unfold encode_all. by rewrite fmap_app, join_app. Qed.

(** The fields of a record in the middle of a block. *)
Lemma encode_fields pre d post :
  dirent_ok d → let buf := pre ++ encode d ++ post in let off := blen pre in
  dentry_inode off buf = Some (de_ino d) ∧ dentry_rec_len off buf = Some (rec_len d) ∧
  dentry_name_len off buf = Some (blen (de_name d)) ∧ bytes_at (off + 8) (blen (de_name d)) buf = Some (de_name d).
Proof.
  intros (H1 & H2 & H3 & H4) buf off. pose proof (blen_nonneg pre). pose proof (blen_nonneg (de_name d)). pose proof (blen_nonneg (de_pad d)).
  unfold rec_len in H2. unfold buf, off, encode, dentry_inode, dentry_rec_len, dentry_name_len. rewrite <-!(assoc_L app).
  split; [by apply (field_mid pre 4)|]. split; [|split].
  - rewrite (assoc_L app pre). replace (blen pre + 4) with (blen (pre ++ le_bytes 4 (de_ino d))) by (rewrite blen_app, blen_le_bytes; lia).
    apply (field_mid _ 2). unfold rec_len. lia.
  - rewrite (assoc_L app pre), (assoc_L app (pre ++ _)).
    replace (blen pre + 6) with (blen ((pre ++ le_bytes 4 (de_ino d)) ++ le_bytes 2 (rec_len d))) by (rewrite !blen_app, !blen_le_bytes; lia).
    apply (field_mid _ 1). cbn. lia.
  - unfold bytes_at. rewrite bool_decide_true.
    2: { rewrite !blen_app, !blen_le_bytes. change (blen [de_type d]) with 1. pose proof (blen_nonneg post). lia. }
    f_equal. rewrite slice_app_r by lia. rewrite !slice_app_r by (rewrite ?blen_le_bytes; change (blen [de_type d]) with 1; lia).
    rewrite !blen_le_bytes. change (blen [de_type d]) with 1. replace (_ - 1) with 0 by lia. rewrite slice_app_l, slice_all by lia. done.
Qed.

(** ** Looking for a name *)

(** The entries the callback gets to see, and the first of them it wants. *)
Definition wanted (pred : list Z → bool) (d : dirent) : Prop := de_ino d ≠ 0 ∧ pred (de_name d ++ [0]) = true.
#[export] Instance wanted_dec pred d : Decision (wanted pred d).
Proof. unfold wanted. apply _. Defined.
Definition find_entry (pred : list Z → bool) (ds : list dirent) : option dirent := head (filter (wanted pred) ds).

Section dir.
Context {E : Type} {FE : FsEnv E} {FL : FsEnvLaws E}.
Implicit Types (s : fss E) (e : E) (vol : volume).
#[local] Abbreviation MF := (M (fss E)).

(** A callback that keeps the inode of the first name it wants and stops. *)
Definition search_cb (pred : list Z → bool) (name : list Z) (child p : Z) : MF (Z * Z) :=
  ret (if pred name then (1, child) else (0, p)).

(** Nodes are blocks of the heap. *)
Definition nodes_live s : Prop :=
  (∀ a, is_Some (inode_at s !! a) → is_Some (fe_live (fenv s) !! a)) ∧ (∀ a, is_Some (raw_at s !! a) → is_Some (fe_live (fenv s) !! a)).

Lemma nodes_live_env s e' : keeps_env (fenv s) e' → nodes_live s → nodes_live (set_fenv e' s).
Proof. intros [Hl _ _] [H1 H2]. split; intros a; cbn; rewrite Hl; auto. Qed.

(** A node that was added and freed again leaves no trace. *)
Lemma free_inode_spec s num sb raw isz a priv e' s1 :
  nodes_live s → node_added s num sb raw isz a priv e' s1 →
  wp (free_inode a) s1 (λ _ s', ∃ e2, s' = set_fenv e2 s ∧ keeps_env (fenv s) e2).
Proof.
  intros [Hn1 Hn2] [-> (N1 & N2 & N3) [F1 F2] HL HV HD].
  assert (inode_at s !! a = None) as Fi by (destruct (inode_at s !! a) eqn:Ea; [|done]; destruct (Hn1 a) as [? Hx]; [eauto|congruence]).
  assert (raw_at s !! priv = None) as Fr by (destruct (raw_at s !! priv) eqn:Ea; [|done]; destruct (Hn2 priv) as [? Hx]; [eauto|congruence]).
  unfold free_inode. wp_step. eapply wp_deref; [apply lookup_insert_eq|]. cbn [i_priv vnode_of]. wp_step. unfold kfree_node. wp_step.
  destruct (fe_kfree_ok e' priv isz N2) as (e2 & E2 & L2 & V2 & D2); [rewrite HL; apply lookup_insert_eq|].
  eapply wp_fcall; [exact E2|]. wp_step. wp_step.
  destruct (fe_kfree_ok e2 a INODE_SIZE N1) as (e3 & E3 & L3 & V3 & D3); [rewrite L2, HL, lookup_delete_ne, lookup_insert_ne, lookup_insert_eq by done; done|].
  eapply wp_fcall; [exact E3|]. wp_step. exists e3. split.
  - transitivity (set_raw_at (delete priv (<[priv := raw]> (raw_at s))) (set_inode_at (delete a (<[a := vnode_of num sb priv raw]> (inode_at s))) (set_fenv e3 s)));
      [reflexivity|]. rewrite !delete_insert_id by done. by destruct s.
  - unfold node_cost in HV. split; [|lia|congruence]. rewrite L3, L2, HL. rewrite delete_insert_id by (rewrite lookup_insert_ne by done; done). by rewrite delete_insert_id.
Qed.
(** ** One block *)

(** The inodes of the entries are on the disk. *)
Definition inodes_there (drv : ext2_driver) vol spb (ds : list dirent) : Prop :=
  ∀ d, d ∈ ds → de_ino d ≠ 0 → ∃ raw, inode_raw vol spb (drv_sb drv) (drv_block_start drv) (de_ino d) = Some raw.

(** The entry was found: its inode is in memory. *)
Definition found s (sb : Z) (drv : ext2_driver) vol spb isz (d : dirent) (child : Z) s' : Prop :=
  ∃ e1 raw priv e', keeps_env (fenv s) e1 ∧ inode_raw vol spb (drv_sb drv) (drv_block_start drv) (de_ino d) = Some raw ∧
    node_added (set_fenv e1 s) (de_ino d) sb raw isz child priv e' s'.

Definition search_result {A} s (sb : Z) (drv : ext2_driver) vol spb isz (found_ : Z → A) (none : A) (r : option dirent) (a : A) s' : Prop :=
  match r with
  | Some d => ∃ child, a = found_ child ∧ found s sb drv vol spb isz d child s'
  | None => a = none ∧ ∃ e', s' = set_fenv e' s ∧ keeps_env (fenv s) e'
  end.

Lemma find_entry_cons pred d ds :
  find_entry pred (d :: ds) = if decide (wanted pred d) then Some d else find_entry pred ds.
Proof. unfold find_entry. rewrite filter_cons. by destruct (decide (wanted pred d)). Qed.

Lemma found_env s e' sb drv vol spb isz d child s' :
  keeps_env (fenv s) e' → found (set_fenv e' s) sb drv vol spb isz d child s' → found s sb drv vol spb isz d child s'.
Proof. intros Hk (e1 & raw & priv & e2 & H1 & H2 & H3). exists e1, raw, priv, e2. split; [by etrans|done]. Qed.

Lemma search_result_env {A} s e' sb drv vol spb isz (f : Z → A) none r a s' :
  keeps_env (fenv s) e' → search_result (set_fenv e' s) sb drv vol spb isz f none r a s' → search_result s sb drv vol spb isz f none r a s'.
Proof.
  intros Hk. destruct r as [d|]; cbn.
  - intros (c & -> & Hf). exists c. split; [done|]. by eapply found_env.
  - intros (-> & e2 & -> & H2). split; [done|]. exists e2. split; [done|]. by etrans.
Qed.

(** ** One block under any callback *)

(** What is done for an entry in use. *)
Definition visit_entry {P} (cb : list Z → Z → P → MF (Z * P)) (sb : Z) (d : dirent) (p : P) : MF (P + P) :=
  child <- call_read_inode sb (de_ino d) ;;
  if child =? 0 then ret (inr p) else
  q <- cb (de_name d ++ [0]) child p ;;
  if negb (q.1 =? 0) then ret (inl q.2) else free_inode child ;; ret (inr q.2).

(** A walk over the entries [all]: [I ds p s] holds when [ds] have been shown to the callback, and
    [F p s] when it has stopped the walk. *)
Definition walk_steps {P} (cb : list Z → Z → P → MF (Z * P)) (sb : Z) (all : list dirent) (I : list dirent → P → fss E → Prop) (F : P → fss E → Prop) : Prop :=
  ∀ ds d rest p s, all = ds ++ d :: rest → I ds p s →
    if decide (de_ino d = 0) then I (ds ++ [d]) p s
    else wp (visit_entry cb sb d p) s (λ r s', match r with inl p => F p s' | inr p => I (ds ++ [d]) p s' end).

Lemma readdir_entries_inv {P} (cb : list Z → Z → P → MF (Z * P)) sb all I F past future :
  walk_steps cb sb all I F → ∀ rest fuel ds buf p s, all = past ++ ds ++ rest ++ future →
  I (past ++ ds) p s → Forall dirent_ok rest → buf = encode_all ds ++ encode_all rest → blen buf < 2 ^ 31 → (length rest < fuel)%nat →
  wp (readdir_entries cb fuel sb buf (blen buf) (blen (encode_all ds)) p) s
    (λ r s', match r with inl p => F p s' | inr p => I (past ++ ds ++ rest) p s' end).
Proof.
  intros Hst. induction rest as [|d rest IH]; intros fuel ds buf p s Hall HI Hok Hbuf Hl Hfuel; (destruct fuel as [|fuel]; [cbn in Hfuel; lia|]).
  { cbn [readdir_entries]. rewrite (proj2 (Z.ltb_ge _ _)) by (rewrite Hbuf, blen_app; change (blen (encode_all [])) with 0; lia). apply wp_ret. by rewrite app_nil_r. }
  apply Forall_cons in Hok as [Hd Hok]. rewrite encode_all_cons in Hbuf.
  destruct (encode_fields (encode_all ds) d (encode_all rest) Hd) as (F1 & F2 & F3 & F4). rewrite <-Hbuf in F1, F2, F3, F4.
  assert (blen buf = blen (encode_all ds) + rec_len d + blen (encode_all rest)) as Eb by (rewrite Hbuf, !blen_app, blen_encode; lia).
  pose proof (blen_nonneg (encode_all ds)). pose proof (blen_nonneg (encode_all rest)). pose proof (blen_nonneg (de_name d)). pose proof (blen_nonneg (de_pad d)).
  assert (8 ≤ rec_len d) as Hr8 by (unfold rec_len; lia). destruct Hd as (Hd1 & Hd2 & Hd3 & Hd4).
  cbn [readdir_entries]. rewrite (proj2 (Z.ltb_lt _ _)) by lia. cbn [negb]. wp_step. eapply wp_get_some; [exact F2|].
  rewrite (proj2 (Z.ltb_ge (rec_len d) 8)), Hd3 by lia. cbn [orb negb Z.eqb]. rewrite (u32_small (_ + rec_len d)) by lia.
  rewrite (proj2 (Z.ltb_ge (blen buf) _)) by lia. wp_step. eapply wp_get_some; [exact F1|].
  assert (blen (encode_all (ds ++ [d])) = blen (encode_all ds) + rec_len d) as Enext by (rewrite encode_all_app, blen_app, encode_all_cons, blen_app, blen_encode; change (blen (encode_all [])) with 0; lia).
  rewrite <-Enext. cbn [length] in Hfuel.
  assert (buf = encode_all (ds ++ [d]) ++ encode_all rest) as Hbuf' by (rewrite encode_all_app, Hbuf, <-(assoc_L app), encode_all_cons, <-(assoc_L app); done).
  assert (∀ p s, I (past ++ ds ++ [d]) p s → wp (readdir_entries cb fuel sb buf (blen buf) (blen (encode_all (ds ++ [d]))) p) s
    (λ r s', match r with inl p => F p s' | inr p => I (past ++ ds ++ d :: rest) p s' end)) as Hnext.
  { intros p1 s1 HI1. replace (past ++ ds ++ d :: rest) with (past ++ (ds ++ [d]) ++ rest) by (by rewrite <-!(assoc_L app)). apply IH; [by rewrite Hall, <-!(assoc_L app)|done..|lia]. }
  specialize (Hst (past ++ ds) d (rest ++ future) p s). rewrite <-!(assoc_L app) in Hst. specialize (Hst Hall HI). case_decide as E0.
  { rewrite E0. cbn [Z.eqb]. wp_step. wp_step. by apply Hnext. }
  rewrite (proj2 (Z.eqb_neq _ 0)) by done. apply wp_bind. wp_step. eapply wp_get_some; [exact F3|]. wp_step. eapply wp_get_some; [exact F4|].
  eapply wp_mono; [exact Hst|]. cbv beta. intros [q|q] s1 Hr; [by apply wp_ret|by apply Hnext].
Qed.

(** The structures of the file system when a node has been added. *)
Lemma node_added_mounted s num sb drv vol spb ipg isz raw a priv e' s1 :
  fs_mounted s sb drv vol spb ipg isz → nodes_live s → node_added s num sb raw isz a priv e' s1 →
  fs_mounted s1 sb drv vol spb ipg isz ∧ nodes_live s1 ∧ mounted s1 a (vnode_of num sb priv raw) raw drv vol spb.
Proof.
  intros [Hv Hd Hg Hs] [N1 N2] [-> _ _ HL _ HD].
  assert (drv_ok (set_raw_at (<[priv := raw]> (raw_at s)) (set_inode_at (<[a := vnode_of num sb priv raw]> (inode_at s)) (set_fenv e' s))) drv vol spb) as Hd'.
  { eapply drv_ok_same; [|exact Hd]. split_and!; [done..|]. cbn. by rewrite HD. }
  split; [by split|]. split.
  - split; intros x; cbn; rewrite HL, !lookup_insert_is_Some'; naive_solver.
  - split; [apply lookup_insert_eq|apply lookup_insert_eq|exact Hv|exact Hd'].
Qed.

Lemma node_added_env s num sb raw isz a priv e' e2 s1 :
  node_added s num sb raw isz a priv e' s1 → keeps_env e' e2 → node_added s num sb raw isz a priv e2 (set_fenv e2 s1).
Proof. intros [-> H1 H2 HL HV HD] [KL KV KD]. split; [done|done|done|congruence|lia|congruence]. Qed.

(** A callback that lets the walk go on and gives back what it takes. *)
Lemma visit_on_spec {P} (cb : list Z → Z → P → MF (Z * P)) s sb drv vol spb ipg isz d raw p p' :
  fs_mounted s sb drv vol spb ipg isz → nodes_live s → 2 * fe_cost (drv_block_size drv) + node_cost isz ≤ fe_avail (fenv s) →
  1 ≤ de_ino d < 2 ^ 32 → inode_raw vol spb (drv_sb drv) (drv_block_start drv) (de_ino d) = Some raw →
  (∀ child priv e1 s1, node_added s (de_ino d) sb raw isz child priv e1 s1 →
     wp (cb (de_name d ++ [0]) child p) s1 (λ q s', q = (0, p') ∧ ∃ e2, s' = set_fenv e2 s1 ∧ keeps_env (fenv s1) e2)) →
  wp (visit_entry cb sb d p) s (λ r s', r = inr p' ∧ ∃ e', s' = set_fenv e' s ∧ keeps_env (fenv s) e').
Proof.
  intros Hm Hn Hav Hi Hraw Hcb. pose proof Hm as [(v & Hv & _) _ _ _].
  unfold visit_entry. wp_step. unfold call_read_inode. wp_step. eapply wp_deref; [exact Hv|]. destruct (read_inode v).
  eapply wp_mono; [by apply (ext2_read_inode_spec s sb drv vol spb ipg isz _ raw)|]. cbv beta. intros child s1 (priv & e' & Ha).
  pose proof (na_nonzero _ _ _ _ _ _ _ _ _ Ha) as (N1 & _). rewrite (proj2 (Z.eqb_neq child 0)) by done.
  wp_step. eapply wp_mono; [by eapply Hcb|]. cbv beta. intros q s2 (-> & e2 & -> & K2). cbn [Datatypes.fst Datatypes.snd Z.eqb negb].
  assert (fenv s1 = e') as Ef by (by rewrite (na_state _ _ _ _ _ _ _ _ _ Ha)). rewrite Ef in K2.
  wp_step. eapply wp_mono; [by eapply (free_inode_spec s); [|by eapply node_added_env]|]. cbv beta. intros _ s' (e3 & -> & K3). apply wp_ret. eauto.
Qed.

(** ** One block under a callback that looks for a name *)

(** The inode of one entry is read, shown to the callback, and freed or kept. *)
Lemma visit_spec s sb drv vol spb ipg isz pred d p :
  fs_mounted s sb drv vol spb ipg isz → nodes_live s → 2 * fe_cost (drv_block_size drv) + node_cost isz ≤ fe_avail (fenv s) →
  1 ≤ de_ino d < 2 ^ 32 → inodes_there drv vol spb [d] →
  wp (visit_entry (search_cb pred) sb d p) s
    (search_result s sb drv vol spb isz inl (inr p) (if pred (de_name d ++ [0]) then Some d else None)).
Proof.
  intros Hm Hn Hav Hi Hex. destruct (Hex d) as [raw Hraw]; [by left|lia|]. pose proof Hm as [(v & Hv & _) _ _ _].
  unfold visit_entry. wp_step. unfold call_read_inode. wp_step. eapply wp_deref; [exact Hv|]. destruct (read_inode v).
  eapply wp_mono; [by apply (ext2_read_inode_spec s sb drv vol spb ipg isz _ raw)|]. cbv beta. intros child s1 (priv & e' & Ha).
  pose proof (na_nonzero _ _ _ _ _ _ _ _ _ Ha) as (N1 & _). rewrite (proj2 (Z.eqb_neq child 0)) by done.
  wp_step. unfold search_cb. wp_step. destruct (pred (de_name d ++ [0])).
  - cbn [Datatypes.fst Datatypes.snd Z.eqb negb]. apply wp_ret. exists child. split; [done|]. exists (fenv s), raw, priv, e'. rewrite set_fenv_same. split; [reflexivity|done].
  - cbn [Datatypes.fst Datatypes.snd Z.eqb negb]. wp_step. eapply wp_mono; [by eapply (free_inode_spec s)|]. cbv beta. intros _ s' (e2 & -> & K2). apply wp_ret. split; [done|]. eauto.
Qed.

End dir.
