(* ===== verification/Ext2Lookup.v ===== *)
(** * Looking up a name in a directory *)

From stdpp Require Import strings.
From S2P Require Import Prelude Bytes Vfs Ext2 Ext2Proofs Ext2File Ext2Inode Ext2Dir FsExample.

Section lookup.
Context {E : Type} {FE : FsEnv E} {FL : FsEnvLaws E}.
Implicit Types (s : fss E) (e : E) (vol : volume).
#[local] Abbreviation MF := (M (fss E)).

(** The [k]-th block of a directory holds the records of [ds]; a hole holds none. *)
Definition dir_block vol spb (raw : list Z) (k : Z) (ds : list dirent) : Prop :=
  (map_block vol spb raw k = Some 0 ∧ ds = []) ∨
  ∃ b, b ≠ 0 ∧ map_block vol spb raw k = Some b ∧ vblock vol spb b = Some (encode_all ds).

Lemma find_entry_app pred ds ds' :
  find_entry pred (ds ++ ds') = match find_entry pred ds with Some d => Some d | None => find_entry pred ds' end.
Proof. unfold find_entry. rewrite filter_app. by destruct (filter _ ds). Qed.

Lemma length_encode_all ds : Z.of_nat (length ds) ≤ blen (encode_all ds).
Proof.
  induction ds as [|d ds IH]; [done|]. rewrite encode_all_cons, blen_app, blen_encode. cbn [length]. unfold rec_len.
  pose proof (blen_nonneg (de_name d)). pose proof (blen_nonneg (de_pad d)). lia.
Qed.

(** ** Any callback *)

(** What the walk of a directory needs of its invariant: the directory stays mounted, and nothing
    else of the environment matters. *)
Record walk_frame {P} (I : list dirent → P → fss E → Prop) (ino : Z) (n : inode) (raw : list Z) (drv : ext2_driver) vol spb : Prop := {
  wi_mounted ds p s : I ds p s → mounted s ino n raw drv vol spb ∧ fe_cost (drv_block_size drv) ≤ fe_avail (fenv s);
  wi_env ds p s e' : I ds p s → keeps_env (fenv s) e' → I ds p (set_fenv e' s)
}.

Lemma readdir_blocks_inv {P} (cb : list Z → Z → P → MF (Z * P)) all I F ino n raw drv vol spb :
  walk_frame I ino n raw drv vol spb → walk_steps cb (i_sb n) all I F → ∀ dirs past blk buf p s, all = past ++ mjoin dirs → I past p s →
  (∀ k ds, dirs !! k = Some ds → dir_block vol spb raw (blk + Z.of_nat k) ds) → Forall dirent_ok (mjoin dirs) →
  0 ≤ blk → blk + Z.of_nat (length dirs) ≤ double_limit spb → blen buf = drv_block_size drv →
  wp (readdir_blocks cb (length dirs) ino (i_sb n) drv blk (Z.of_nat (length dirs) * drv_block_size drv) buf p) s
    (λ p s', F p s' ∨ I all p s').
Proof.
  intros [Wm We] Hst. induction dirs as [|ds dirs IH]; intros past blk buf p s Hall HI Hd Hok Hb Hlim Hbuf.
  { apply wp_ret. right. by rewrite Hall, app_nil_r. }
  change (mjoin (ds :: dirs)) with (ds ++ mjoin dirs) in *. apply Forall_app in Hok as [Hok1 Hok2]. cbn [length] in *.
  destruct (Wm _ _ _ HI) as [Hmo Hav]. pose proof (mo_drv _ _ _ _ _ _ _ Hmo) as Hdo. pose proof (do_spb _ _ _ _ Hdo) as Hspb. pose proof (do_size _ _ _ _ Hdo) as Hbs.
  assert (drv_block_size drv = spb * 512) as Hbs' by (by rewrite Hbs).
  assert (∀ k ds, dirs !! k = Some ds → dir_block vol spb raw (blk + 1 + Z.of_nat k) ds) as Hd'.
  { intros k ds' Hk. replace (blk + 1 + Z.of_nat k) with (blk + Z.of_nat (S k)) by lia. by apply Hd. }
  cbn [readdir_blocks]. wp_step.
  assert (∃ b, map_block vol spb raw (code_block spb blk) = Some b ∧ map_block vol spb raw blk = Some b) as (b & Hcb & Hb').
  { unfold code_block. rewrite (proj2 (Z.ltb_lt _ _)) by lia. specialize (Hd 0%nat ds eq_refl). rewrite Z.add_0_r in Hd.
    destruct Hd as [[H1 _]|(b & _ & H1 & _)]; eauto. }
  eapply wp_mono; [by apply (ext2_get_block_number_spec s ino n raw drv vol spb blk b Hmo)|].
  cbv beta. intros r s1 (-> & e1 & -> & K1). pose proof (We _ _ _ _ HI K1) as HI1. cbv zeta. rewrite Z.min_r by nia.
  replace (Z.of_nat (S (length dirs)) * drv_block_size drv - drv_block_size drv) with (Z.of_nat (length dirs) * drv_block_size drv) by nia.
  specialize (Hd 0%nat ds eq_refl). rewrite Z.add_0_r in Hd. destruct Hd as [[H0 ->]|(b' & Hb0 & Hb1 & Hvb)].
  { assert (b = 0) as -> by congruence. cbn [Z.eqb]. by apply (IH past); try done; lia. }
  assert (b' = b) as -> by congruence. rewrite (proj2 (Z.eqb_neq b 0)) by done. wp_step.
  eapply wp_mono; [apply (ext2_read_block_spec (set_fenv e1 s) drv vol spb b buf (encode_all ds)); [by apply drv_ok_env; [apply K1|]|done..]|].
  cbv beta. intros r s2 (-> & e2 & -> & K2). pose proof (We _ _ _ _ HI1 K2) as HI2.
  assert (blen (encode_all ds) = drv_block_size drv) as Hlen by (by eapply vblock_size).
  wp_step. rewrite <-Hlen at 1 2.
  eapply wp_mono; [apply (readdir_entries_inv cb (i_sb n) all I F past (mjoin dirs) Hst ds _ [] (encode_all ds) p); try done|].
  - by rewrite app_nil_r.
  - rewrite Hlen, Hbs'. lia.
  - pose proof (length_encode_all ds). lia.
  - cbv beta. intros [q|q] s' Hr; [apply wp_ret; by left|]. apply (IH (past ++ ds)); try done; [by rewrite Hall, <-(assoc_L app)|lia..].
Qed.

Lemma nodes_live_alloc s a nb e1 : allocated (fenv s) a nb e1 → nodes_live s → nodes_live (set_fenv e1 s).
Proof. intros Ha [Hn1 Hn2]. split; intros x; cbn; rewrite (al_live _ _ _ _ Ha); intros Hx; apply lookup_insert_is_Some'; auto. Qed.

(** The whole directory: the invariant starts with the buffer allocated, and what is behind the walk
    is left when the buffer has been freed. *)
Lemma ext2_readdir_inv {P} (cb : list Z → Z → P → MF (Z * P)) I F s ino n raw drv vol spb dirs p (Q : Z * P → fss E → Prop) :
  mounted s ino n raw drv vol spb → i_size n = Z.of_nat (length dirs) * drv_block_size drv → i_size n + drv_block_size drv < 2 ^ 32 →
  Z.of_nat (length dirs) ≤ double_limit spb → (∀ k ds, dirs !! k = Some ds → dir_block vol spb raw (Z.of_nat k) ds) → Forall dirent_ok (mjoin dirs) →
  fe_cost (drv_block_size drv) ≤ fe_avail (fenv s) → Z.land (i_mode n) S_IFDIR ≠ 0 →
  (∀ a e1, allocated (fenv s) a (drv_block_size drv) e1 → walk_frame (I e1) ino n raw drv vol spb ∧ walk_steps cb (i_sb n) (mjoin dirs) (I e1) (F e1) ∧ I e1 [] p (set_fenv e1 s) ∧
     ∀ p' s', F e1 p' s' ∨ I e1 (mjoin dirs) p' s' → wp (fcall (fe_kfree a)) s' (λ _ s'', Q (0, p') s'')) →
  wp (ext2_readdir cb ino p) s Q.
Proof.
  intros Hmo Hsz Hsm Hlim Hd Hok Hav Hdir HI. pose proof Hmo as [Hi _ (v & Hv & Hdrv) Hdo].
  pose proof (do_spb _ _ _ _ Hdo) as Hspb. pose proof (do_size _ _ _ _ Hdo) as Hbs. unfold SECTOR in Hbs.
  unfold ext2_readdir. wp_step. eapply wp_deref; [exact Hi|]. rewrite (proj2 (Z.eqb_neq _ 0)) by done.
  wp_step. eapply wp_deref; [exact Hv|]. wp_step. eapply wp_deref; [exact Hdrv|].
  wp_step. apply kmalloc_buf_spec; [lia|done|]. intros a buf e1 Ha Hl. cbn [Datatypes.fst Datatypes.snd].
  rewrite (u32_small (i_size n + _ - 1)) by lia. wp_step. apply wp_udiv; [lia|].
  assert ((i_size n + drv_block_size drv - 1) / drv_block_size drv = Z.of_nat (length dirs)) as ->.
  { rewrite Hsz. symmetry. apply (Z.div_unique _ _ _ (drv_block_size drv - 1)); lia. }
  rewrite Nat2Z.id, Hsz. wp_step. destruct (HI a e1 Ha) as (Hw & Hst & H0 & HQ).
  eapply wp_mono; [apply (readdir_blocks_inv cb (mjoin dirs) (I e1) (F e1) ino n raw drv vol spb Hw Hst dirs [] 0 buf p); try done; lia|].
  cbv beta. intros p' s' Hr. wp_step. eapply wp_mono; [by apply HQ|]. cbv beta. intros _ s'' HQ'. by apply wp_ret.
Qed.

(** ** Looking for a name *)

(** Nothing found among [ds] so far, and the entry that ends the search. *)
Definition searching s (pred : list Z → bool) (p0 : Z) (ds : list dirent) (p : Z) s' : Prop :=
  p = p0 ∧ find_entry pred ds = None ∧ ∃ e', s' = set_fenv e' s ∧ keeps_env (fenv s) e'.
Definition search_hit s (sb : Z) (drv : ext2_driver) vol spb isz (pred : list Z → bool) (all : list dirent) (c : Z) s' : Prop :=
  ∃ d, find_entry pred all = Some d ∧ found s sb drv vol spb isz d c s'.

Lemma search_steps s sb drv vol spb ipg isz pred all p0 :
  fs_mounted s sb drv vol spb ipg isz → nodes_live s → 2 * fe_cost (drv_block_size drv) + node_cost isz ≤ fe_avail (fenv s) →
  Forall dirent_ok all → inodes_there drv vol spb all →
  walk_steps (search_cb pred) sb all (searching s pred p0) (search_hit s sb drv vol spb isz pred all).
Proof.
  intros Hm Hn Hav Hok Hex ds d rest p s1 Hall (-> & Hnone & e1 & -> & K1).
  assert (find_entry pred (ds ++ [d]) = if decide (wanted pred d) then Some d else None) as Hcut by (rewrite find_entry_app, Hnone, find_entry_cons; by destruct (decide _)).
  destruct (decide (de_ino d = 0)) as [E0|E0].
  { rewrite decide_False in Hcut by (intros [? _]; done). by split; [|split; [|exists e1]]. }
  assert (d ∈ all) as Hin by (rewrite Hall; apply elem_of_app; right; by left). rewrite Forall_forall in Hok. destruct (Hok d Hin) as [Hd _].
  eapply wp_mono; [apply (visit_spec (set_fenv e1 s) sb drv vol spb ipg isz pred d p0)|].
  - apply fs_mounted_env; [apply K1|done].
  - by apply nodes_live_env.
  - pose proof (kv_avail _ _ K1). cbn. lia.
  - lia.
  - intros x ->%list_elem_of_singleton. by apply Hex.
  - cbv beta. intros r s' Hr. apply search_result_env in Hr; [|done]. destruct (pred (de_name d ++ [0])) eqn:Ep.
    + destruct Hr as (child & -> & Hf). exists d. split; [|done]. by rewrite Hall, find_entry_app, Hnone, find_entry_cons, decide_True.
    + destruct Hr as (-> & He). split; [done|]. split; [|done]. by rewrite Hcut, decide_False by (intros [_ ?]; congruence).
Qed.

(** The directory's buffer goes, the inode that was found stays. *)
Lemma free_behind_node s a nb e1 d sb drv vol spb isz child s' :
  allocated (fenv s) a nb e1 → found (set_fenv e1 s) sb drv vol spb isz d child s' →
  wp (fcall (fe_kfree a)) s' (λ _ s'', found s sb drv vol spb isz d child s'').
Proof.
  intros [N1 F1 L1 V1 D1] (e2 & raw & priv & e3 & [KL KV KD] & Hraw & [-> (M1 & M2 & M3) [G1 G2] L3 V3 D3]). cbn [fenv set_fenv] in *.
  rewrite KL, L1 in L3, G1, G2. apply lookup_insert_None in G1 as [G1 ?]. apply lookup_insert_None in G2 as [G2 ?].
  destruct (fe_kfree_ok e3 a nb N1) as (e4 & E4 & L4 & V4 & D4); [rewrite L3, !lookup_insert_ne, lookup_insert_eq by congruence; done|].
  eapply wp_fcall; [exact E4|]. exists (fenv s), raw, priv, e4. split; [reflexivity|]. split; [done|]. split; cbn [fenv set_fenv].
  - done.
  - done.
  - done.
  - rewrite L4, L3. apply map_eq. intros x. rewrite lookup_delete, !lookup_insert. repeat case_decide; congruence.
  - lia.
  - congruence.
Qed.

Lemma ext2_readdir_spec s ino n raw drv vol spb ipg isz dirs pred p :
  mounted s ino n raw drv vol spb → fs_mounted s (i_sb n) drv vol spb ipg isz → nodes_live s →
  i_size n = Z.of_nat (length dirs) * drv_block_size drv → i_size n + drv_block_size drv < 2 ^ 32 → Z.of_nat (length dirs) ≤ double_limit spb →
  (∀ k ds, dirs !! k = Some ds → dir_block vol spb raw (Z.of_nat k) ds) →
  Forall dirent_ok (mjoin dirs) → inodes_there drv vol spb (mjoin dirs) → 3 * fe_cost (drv_block_size drv) + node_cost isz ≤ fe_avail (fenv s) →
  Z.land (i_mode n) S_IFDIR ≠ 0 →
  wp (ext2_readdir (search_cb pred) ino p) s (λ r s', r.1 = 0 ∧
    search_result s (i_sb n) drv vol spb isz (λ c, c) p (find_entry pred (mjoin dirs)) r.2 s').
Proof.
  intros Hmo Hm Hn Hsz Hsm Hlim Hd Hok Hex Hav Hdir.
  pose proof (fe_cost_nonneg (drv_block_size drv)) as C0. pose proof (fe_cost_nonneg INODE_SIZE) as C1. pose proof (fe_cost_nonneg isz) as C2. unfold node_cost in Hav.
  apply (ext2_readdir_inv (search_cb pred) (λ e1, searching (set_fenv e1 s) pred p) (λ e1, search_hit (set_fenv e1 s) (i_sb n) drv vol spb isz pred (mjoin dirs))
    s ino n raw drv vol spb dirs p); try done; [lia|]. intros a e1 Ha. pose proof (al_avail _ _ _ _ Ha) as Va. split_and!.
  - split.
    + intros ds q s1 (_ & _ & e2 & -> & K2). pose proof (kv_avail _ _ K2). cbn [fenv set_fenv] in *. split; [|lia].
      apply (mounted_env s e2); [|done]. by rewrite (kv_disk _ _ K2), (al_disk _ _ _ _ Ha).
    + intros ds q s1 e3 (Hp & Hf & e2 & -> & K2) K3. cbn [fenv set_fenv] in *. split; [done|]. split; [done|]. exists e3. split; [done|]. by etrans.
  - apply (search_steps (set_fenv e1 s) (i_sb n) drv vol spb ipg isz pred (mjoin dirs) p); try done.
    + apply fs_mounted_env; [apply Ha|done].
    + by eapply nodes_live_alloc.
    + cbn. unfold node_cost. lia.
  - split; [done|]. split; [done|]. exists e1. split; [done|reflexivity].
  - intros q s' [(d & Ed & Hf)|(-> & Ed & e2 & -> & K2)]; rewrite Ed.
    + eapply wp_mono; [by eapply free_behind_node|]. cbv beta. intros _ s'' Hf'. split; [done|]. by exists q.
    + eapply kfree_buf_spec; [exact Ha|exact K2|]. intros e3 K3. split; [done|]. split; [done|]. by exists e3.
Qed.

(** C29: reading a directory with a callback that looks for a name decodes the records
    of its blocks in order: it answers the inode, read from the disk, of the first entry
    in use with that name, and what was allocated for the entries before it is free
    again; without such an entry the memory is as before, and on an inode that is not a
    directory the answer is -1. *)
Theorem ext2_readdir_correct s ino n raw drv vol spb ipg isz dirs pred p :
  mounted s ino n raw drv vol spb → fs_mounted s (i_sb n) drv vol spb ipg isz → nodes_live s →
  i_size n = Z.of_nat (length dirs) * drv_block_size drv → i_size n + drv_block_size drv < 2 ^ 32 → Z.of_nat (length dirs) ≤ double_limit spb →
  (∀ k ds, dirs !! k = Some ds → dir_block vol spb raw (Z.of_nat k) ds) →
  Forall dirent_ok (mjoin dirs) → inodes_there drv vol spb (mjoin dirs) → 3 * fe_cost (drv_block_size drv) + node_cost isz ≤ fe_avail (fenv s) →
  if decide (Z.land (i_mode n) S_IFDIR = 0) then ext2_readdir (search_cb pred) ino p s = Ret ((-1, p), s) else
  match find_entry pred (mjoin dirs) with
  | Some d => ∃ child raw_d priv e0 e' s', ext2_readdir (search_cb pred) ino p s = Ret ((0, child), s') ∧
      inode_raw vol spb (drv_sb drv) (drv_block_start drv) (de_ino d) = Some raw_d ∧ keeps_env (fenv s) e0 ∧
      node_added (set_fenv e0 s) (de_ino d) (i_sb n) raw_d isz child priv e' s'
  | None => ∃ e', ext2_readdir (search_cb pred) ino p s = Ret ((0, p), set_fenv e' s) ∧ keeps_env (fenv s) e'
  end.
Proof.
  intros Hmo Hm Hn Hsz Hsm Hlim Hd Hok Hex Hav. case_decide as Hdir.
  { apply wp_eq. unfold ext2_readdir. wp_step. eapply wp_deref; [apply Hmo|]. rewrite Hdir. by apply wp_ret. }
  pose proof (ext2_readdir_spec s ino n raw drv vol spb ipg isz dirs pred p Hmo Hm Hn Hsz Hsm Hlim Hd Hok Hex Hav Hdir) as ([r1 r2] & s' & Er & H1 & H2)%wp_iff.
  cbn in H1, H2. subst r1. destruct (find_entry pred (mjoin dirs)) as [d|].
  - destruct H2 as (child & -> & e0 & raw_d & priv & e' & H3 & H4 & H5). by exists child, raw_d, priv, e0, e', s'.
  - destruct H2 as (-> & e' & -> & H2). eauto.
Qed.
End lookup.

(** ** Example: the name a.elf in the root directory *)

Definition toy_dirs : list (list dirent) :=
  [[Dirent 2 0 [46] (replicate 3 0); Dirent 2 0 [46; 46] (replicate 2 0); Dirent 3 0 [97; 46; 101; 108; 102] (replicate 475 0); Dirent 0 0 [] (replicate 504 0)]].

Definition name_is (target name : list Z) : bool := bool_decide (name = target ++ [0]).

Lemma toy_geometry : geometry toy_drv 2 8 128.
Proof. split; [by vm_compute|by vm_compute|by exists 8|cbn; lia]. Qed.

Lemma toy_fs_mounted : fs_mounted toy_fs 0x1200 toy_drv (vol_of toy_fs 0x1100) 2 8 128.
Proof.
  split; [by eexists|apply toy_drv_ok|apply toy_geometry|]. intros n b Hb Hn. unfold vblock in Hb. apply fmap_Some in Hb as (l & Hl & _).
  change (seqZ 0 2) with [0; 1] in Hl. cbn [mapM] in Hl. apply bind_Some in Hl as (x & Hx & _).
  change (fe_sectors (fe_kept (fenv toy_fs)) 0x1000 (u64 (u64 (n * 2 + 0) + 1)) = Some x) in Hx. cbn in Hx.
  rewrite (u64_small (n * 2 + 0)), u64_small in Hx by lia. case_bool_decide; [lia|done].
Qed.

Lemma toy_nodes_live : nodes_live toy_fs.
Proof.
  split; intros a [x Hx].
  - revert a x Hx. change (map_Forall (λ a _, is_Some (fe_live (fenv toy_fs) !! a)) (inode_at toy_fs)). apply (bool_decide_unpack _). vm_compute. exact I.
  - revert a x Hx. change (map_Forall (λ a _, is_Some (fe_live (fenv toy_fs) !! a)) (raw_at toy_fs)). apply (bool_decide_unpack _). vm_compute. exact I.
Qed.

Lemma toy_inodes_there : inodes_there toy_drv (vol_of toy_fs 0x1100) 2 (mjoin toy_dirs).
Proof.
  assert (Forall (λ d, de_ino d ≠ 0 → is_Some (inode_raw (vol_of toy_fs 0x1100) 2 (drv_sb toy_drv) (drv_block_start toy_drv) (de_ino d))) (mjoin toy_dirs)) as Ha.
  { apply (bool_decide_unpack _). vm_compute. exact I. }
  rewrite Forall_forall in Ha. intros d Hd H0. destruct (Ha d Hd H0) as [raw Hr]. by exists raw.
Qed.

Lemma toy_dir_block k ds : toy_dirs !! k = Some ds → dir_block (vol_of toy_fs 0x1100) 2 raw_root (Z.of_nat k) ds.
Proof.
  destruct k as [|[|k]]; try done. intros [= <-]. right. exists 4. split; [done|]. split; vm_compute; reflexivity.
Qed.

Lemma ext2_readdir_witness :
  ∃ child s', ext2_readdir (search_cb (name_is [97; 46; 101; 108; 102])) 0x1400 0 toy_fs = Ret ((0, child), s') ∧
    (λ n, (ino_num n, i_size n, i_mode n)) <$> inode_at s' !! child = Some (3, 1200, 0x81ED).
Proof.
  pose proof (ext2_readdir_correct toy_fs 0x1400 toy_root raw_root toy_drv (vol_of toy_fs 0x1100) 2 8 128 toy_dirs (name_is [97; 46; 101; 108; 102]) 0
    toy_mounted_root toy_fs_mounted toy_nodes_live eq_refl eq_refl ltac:(by vm_compute) toy_dir_block) as Hw.
  rewrite decide_False in Hw by done.
  assert (find_entry (name_is [97; 46; 101; 108; 102]) (mjoin toy_dirs) = Some (Dirent 3 0 [97; 46; 101; 108; 102] (replicate 475 0))) as Ef by (vm_compute; reflexivity).
  rewrite Ef in Hw. destruct Hw as (child & raw_d & priv & e0 & e' & s' & Er & Hraw & _ & Ha).
  - apply (bool_decide_unpack _). vm_compute. exact I.
  - exact toy_inodes_there.
  - done.
  - exists child, s'. split; [exact Er|]. rewrite (na_state _ _ _ _ _ _ _ _ _ Ha). cbn [inode_at set_raw_at set_inode_at]. rewrite lookup_insert_eq.
    assert (raw_d = raw_elf) as -> by (vm_compute in Hraw; by injection Hraw as <-). vm_compute. reflexivity.
Defined.
