(* ===== verification/MbrTheorems.v ===== *)
(** * Partitions

    What [MBR_init] registers, and where a read of a partition goes. *)

From stdpp Require Import strings.
From S2P Require Import Prelude Links Bytes Vfs Ext2 Ext2Proofs FsExample.

Section mbr.
Context {E : Type} {FE : FsEnv E} {FL : FsEnvLaws E}.
Implicit Types (s : fss E) (e : E) (L : list Z).
#[local] Abbreviation MF := (M (fss E)).

Definition next_dev s (a : Z) : option Z := dev_next <$> dev_at s !! a.

(** The list of registered devices, all of them blocks of the heap. *)
Record devices s L : Prop := {
  dv_list : lseg (next_dev s) (dev_list_head s) L 0;
  dv_nodup : NoDup L;
  dv_live a : is_Some (dev_at s !! a) ∨ is_Some (part_at s !! a) → is_Some (fe_live (fenv s) !! a)
}.

(** A partition in use, and what is registered for it. *)
Definition part_used (mbr : list Z) (i : Z) : Prop := part_type i mbr ≠ Some 0.
#[export] Instance part_used_dec mbr i : Decision (part_used mbr i).
Proof. unfold part_used. apply _. Defined.

Definition is_partition s' (dev : Z) (d : block_dev) (mbr : list Z) (a i : Z) : Prop :=
  ∃ ty cnt lba nx, part_type i mbr = Some ty ∧ part_sector_count i mbr = Some cnt ∧ part_lba_start i mbr = Some lba ∧
    dev_at s' !! a = Some (BlockDev cnt partition_read_block_fn (blk_size d) PARTITION "PARTITION"%string ty nx) ∧
    part_at s' !! a = Some (PartitionDev dev lba).

(** What registering devices leaves alone. *)
Definition same_nodes s s' : Prop :=
  sb_at s' = sb_at s ∧ drv_at s' = drv_at s ∧ inode_at s' = inode_at s ∧ raw_at s' = raw_at s ∧ file_at s' = file_at s ∧ driver_cbs s' = driver_cbs s.

(** What a run over the entries [js] leaves: new devices in front of the list. *)
Record registered s (dev : Z) (d : block_dev) (mbr : list Z) L (js : list Z) s' (new : list Z) : Prop := {
  rg_devices : devices s' (reverse new ++ L);
  rg_new : Forall2 (is_partition s' dev d mbr) new (filter (part_used mbr) js);
  rg_devs : dev_at s ⊆ dev_at s';
  rg_parts : part_at s ⊆ part_at s' ∧ size (part_at s') = (size (part_at s) + length new)%nat;
  rg_live : fe_live (fenv s') = foldl (λ m a, <[a := PARTITION_DEV_SIZE]> m) (fe_live (fenv s)) new;
  rg_fresh : Forall (λ a, fe_live (fenv s) !! a = None) new;
  rg_avail : fe_avail (fenv s) - Z.of_nat (length new) * fe_cost PARTITION_DEV_SIZE ≤ fe_avail (fenv s');
  rg_disk : fe_kept (fenv s') = fe_kept (fenv s);
  rg_dom x : is_Some (dev_at s' !! x) ∨ is_Some (part_at s' !! x) → is_Some (dev_at s !! x) ∨ is_Some (part_at s !! x) ∨ x ∈ new;
  rg_nodes : same_nodes s s'
}.

(** The state with one device more. *)
Definition with_partition s (dev a cnt bsz ty lba : Z) e' : fss E :=
  set_dev_list_head a (set_dev_at (<[a := BlockDev cnt partition_read_block_fn bsz PARTITION "PARTITION"%string ty (dev_list_head s)]> (dev_at s))
    (set_part_at (<[a := PartitionDev dev lba]> (part_at s)) (set_fenv e' s))).

Lemma MBR_entry_spec s dev d mbr i :
  dev_at s !! dev = Some d → is_Some (fe_live (fenv s) !! dev) → blen mbr = MBR_SIZE → 0 ≤ i < 4 → fe_cost PARTITION_DEV_SIZE ≤ fe_avail (fenv s) →
  wp (MBR_entry dev mbr i) s (λ _ s', if decide (part_used mbr i) then
    ∃ a ty cnt lba e', allocated (fenv s) a PARTITION_DEV_SIZE e' ∧ part_type i mbr = Some ty ∧ part_sector_count i mbr = Some cnt ∧
      part_lba_start i mbr = Some lba ∧ s' = with_partition s dev a cnt (blk_size d) ty lba e'
    else s' = s).
Proof.
  intros Hd Hlv Hl Hi Hav. unfold MBR_SIZE in Hl.
  destruct (part_type i mbr) as [ty|] eqn:Ety; [|unfold part_type in Ety; rewrite field_some in Ety by lia; done].
  destruct (part_sector_count i mbr) as [cnt|] eqn:Ecnt; [|unfold part_sector_count in Ecnt; rewrite field_some in Ecnt by lia; done].
  destruct (part_lba_start i mbr) as [lba|] eqn:Elba; [|unfold part_lba_start in Elba; rewrite field_some in Elba by lia; done].
  unfold MBR_entry. wp_step. eapply wp_get_some; [exact Ety|]. destruct (ty =? 0) eqn:E0; bool_prop.
  { apply wp_ret. destruct (decide (part_used mbr i)) as [Hu|Hu]; [|done]. destruct Hu. by rewrite Ety, E0. }
  destruct (decide (part_used mbr i)) as [Hu|Hu]; [|destruct Hu; unfold part_used; rewrite Ety; congruence].
  destruct (fe_kmalloc_ok (fenv s) PARTITION_DEV_SIZE ltac:(done) Hav) as (a & bs & e' & Er & Ha & Hf & _ & Hv & Hav' & Hdk).
  wp_step. eapply wp_fcall; [exact Er|]. cbn [Datatypes.fst]. rewrite (proj2 (Z.eqb_neq a 0)) by done.
  wp_step. eapply wp_deref; [exact Hd|]. wp_step. eapply wp_get_some; [exact Ecnt|]. wp_step. eapply wp_get_some; [exact Elba|].
  wp_step. wp_step. wp_step. wp_step. wp_step. unfold blk_register. rewrite (proj2 (Z.eqb_neq a 0)) by done.
  wp_step. eapply wp_deref; [apply lookup_insert_eq|]. wp_step. wp_step. wp_step. wp_step. wp_step. wp_step. wp_step. wp_step.
  exists a, ty, cnt, lba, e'. split; [by split|]. repeat (split; [done|]).
  unfold with_partition. cbn. by rewrite insert_insert_eq.
Qed.

Lemma registered_cons s dev d mbr L i js a ty cnt lba e' s' new :
  devices s L → allocated (fenv s) a PARTITION_DEV_SIZE e' → part_used mbr i →
  part_type i mbr = Some ty → part_sector_count i mbr = Some cnt → part_lba_start i mbr = Some lba →
  registered (with_partition s dev a cnt (blk_size d) ty lba e') dev d mbr (a :: L) js s' new →
  registered s dev d mbr L (i :: js) s' (a :: new).
Proof.
  intros [Hl Hnd Hlv] [N1 F1 A1 V1 D1] Hu Ety Ecnt Elba [R1 R2 R3 [R4 R4'] R5 R6 R7 R8 R9 R10].
  assert (dev_at s !! a = None ∧ part_at s !! a = None) as [Fd Fp].
  { split; apply eq_None_not_Some; intros Hx; destruct (Hlv a) as [? Hy]; auto; congruence. }
  cbn [fenv with_partition set_dev_list_head set_dev_at set_part_at set_fenv dev_at part_at] in *.
  split.
  - by rewrite reverse_cons, <-(assoc_L app).
  - rewrite filter_cons_True by done. constructor; [|done]. exists ty, cnt, lba, (dev_list_head s). repeat (split; [done|]).
    split; eapply lookup_weaken; try done; apply lookup_insert_eq.
  - etrans; [|exact R3]. by apply insert_subseteq.
  - split; [etrans; [|exact R4]; by apply insert_subseteq|]. rewrite R4', map_size_insert_None by done. cbn. lia.
  - rewrite R5, A1. done.
  - constructor; [done|]. eapply Forall_impl; [exact R6|]. cbv beta. rewrite A1. intros x [? _]%lookup_insert_None. done.
  - cbn [length]. lia.
  - congruence.
  - intros x Hx. destruct (R9 x Hx) as [Hs|[Hs|Hs]]; [apply lookup_insert_is_Some' in Hs..|by right; right; right].
    + destruct Hs as [->|Hs]; [right; right; left|by left].
    + destruct Hs as [->|Hs]; [right; right; left|by right; left].
  - exact R10.
Qed.

Lemma devices_push s dev a cnt bsz ty lba e' L :
  devices s L → allocated (fenv s) a PARTITION_DEV_SIZE e' → devices (with_partition s dev a cnt bsz ty lba e') (a :: L).
Proof.
  intros [Hl Hnd Hlv] [N1 F1 A1 _ _]. assert (a ∉ L) as Hna.
  { intros Hin. destruct (lseg_nonzero _ _ _ _ a Hl Hin) as [_ Hs]. unfold next_dev in Hs. apply fmap_is_Some in Hs. destruct (Hlv a) as [? Hy]; [auto|congruence]. }
  split.
  - change (dev_list_head (with_partition s dev a cnt bsz ty lba e')) with a. eapply lseg_ext; [|apply (lseg_push (next_dev s) _ L 0 a N1 Hna Hl)].
    intros p Hp. unfold next_dev, upd. cbn. destruct (decide (p = a)) as [->|]; [by rewrite lookup_insert_eq|by rewrite lookup_insert_ne].
  - by constructor.
  - intros x. cbn. rewrite A1, !lookup_insert_is_Some'. naive_solver.
Qed.

Lemma MBR_entries_spec js : ∀ s dev d mbr L,
  devices s L → dev_at s !! dev = Some d → blen mbr = MBR_SIZE → Forall (λ i, 0 ≤ i < 4) js →
  Z.of_nat (length js) * fe_cost PARTITION_DEV_SIZE ≤ fe_avail (fenv s) →
  wp (for_each js (MBR_entry dev mbr)) s (λ _ s', ∃ new, registered s dev d mbr L js s' new).
Proof.
  induction js as [|i js IH]; intros s dev d mbr L Hd Edev Hl Hjs Hav; cbn [for_each].
  { apply wp_ret. exists []. split; first [done|tauto|split; [done|cbn; lia]|cbn; lia]. }
  apply Forall_cons in Hjs as [Hi Hjs]. pose proof (fe_cost_nonneg PARTITION_DEV_SIZE) as C0. cbn [length] in Hav. wp_step.
  eapply wp_mono; [apply (MBR_entry_spec s dev d mbr i Edev); [apply (dv_live _ _ Hd); eauto|done|done|nia]|]. cbv beta.
  intros _ s1. destruct (decide (part_used mbr i)) as [Hu|Hu].
  - intros (a & ty & cnt & lba & e' & Ha & Ety & Ecnt & Elba & ->). pose proof (al_avail _ _ _ _ Ha) as Va.
    assert (dev_at s !! a = None) as Fd.
    { apply eq_None_not_Some. intros Hx. destruct (dv_live _ _ Hd a) as [? Hy]; [auto|]. rewrite (al_fresh _ _ _ _ Ha) in Hy. done. }
    eapply wp_mono; [apply (IH _ dev d mbr (a :: L)); try done|].
    + by apply devices_push.
    + cbn. rewrite lookup_insert_ne by congruence. done.
    + cbn. lia.
    + cbv beta. intros _ s' (new & Hr). exists (a :: new). by eapply registered_cons.
  - intros ->. eapply wp_mono; [apply (IH s dev d mbr L); try done; lia|]. cbv beta. intros _ s' (new & [R1 R2 R3 R4 R5 R6 R7 R8 R9 R10]). exists new.
    split; try done. by rewrite filter_cons_False.
Qed.

(** More fuel, more devices: a sector that can be read can still be read. *)
Lemma sector_at_mono f f' s s' dev blk bs :
  dev_at s ⊆ dev_at s' → part_at s ⊆ part_at s' → fe_kept (fenv s') = fe_kept (fenv s) → (f ≤ f')%nat →
  sector_at f s dev blk = Some bs → sector_at f' s' dev blk = Some bs.
Proof.
  intros Hd Hp Hk. revert f' dev blk. induction f as [|f IH]; intros f' dev blk Hf Hs; [done|]. destruct f' as [|f']; [lia|]. cbn in Hs |- *.
  destruct (dev_at s !! dev) as [d|] eqn:Ed; [|done]. cbn in Hs. rewrite (lookup_weaken _ _ _ _ Ed Hd). cbn. destruct (read_block d); [by rewrite Hk|].
  destruct (part_at s !! dev) as [pt|] eqn:Ept; [|done]. cbn in Hs. rewrite (lookup_weaken _ _ _ _ Ept Hp). cbn. apply IH; [lia|done].
Qed.

Lemma foldl_insert_ne (L : gmap Z Z) n new a : a ∉ new → foldl (λ m a, <[a := n]> m) L new !! a = L !! a.
Proof.
  revert L. induction new as [|x new IH]; intros L Ha; [done|]. apply not_elem_of_cons in Ha as [H1 H2]. cbn. rewrite IH by done. by rewrite lookup_insert_ne.
Qed.

Lemma foldl_insert_delete (L : gmap Z Z) n m new a :
  L !! a = None → a ∉ new → delete a (foldl (λ m a, <[a := n]> m) (<[a := m]> L) new) = foldl (λ m a, <[a := n]> m) L new.
Proof.
  revert L. induction new as [|x new IH]; intros L Hn Ha; cbn; [by rewrite delete_insert_id|]. apply not_elem_of_cons in Ha as [H1 H2].
  rewrite insert_insert_ne by done. apply IH; [by rewrite lookup_insert_ne|done].
Qed.

(** The buffer with the table is given back behind the devices. *)
Lemma free_table s a e2 dev d mbr L s1 new n (Q : unit → fss E → Prop) :
  devices s L → a ≠ 0 → fe_live (fenv s) !! a = None → fe_live e2 = <[a := n]> (fe_live (fenv s)) → fe_kept e2 = fe_kept (fenv s) →
  registered (set_fenv e2 s) dev d mbr L (seqZ 0 4) s1 new →
  (∀ e3, devices (set_fenv e3 s1) (reverse new ++ L) → fe_live e3 = foldl (λ m a, <[a := PARTITION_DEV_SIZE]> m) (fe_live (fenv s)) new →
     fe_avail (fenv s1) + fe_cost n ≤ fe_avail e3 → fe_kept e3 = fe_kept (fenv s) → Q tt (set_fenv e3 s1)) →
  wp (fcall (fe_kfree a)) s1 Q.
Proof.
  intros Hdv N1 F1 L2 D2 [R1 R2 R3 R4 R5 R6 R7 R8 R9 R10] HQ. cbn [fenv set_fenv dev_at part_at] in *.
  assert (a ∉ new) as Hna.
  { intros Hin. rewrite Forall_forall in R6. specialize (R6 a Hin). rewrite L2, lookup_insert_eq in R6. done. }
  destruct (fe_kfree_ok (fenv s1) a n N1) as (e3 & E3 & L3 & V3 & D3); [rewrite R5, foldl_insert_ne, L2 by done; apply lookup_insert_eq|].
  eapply wp_fcall; [exact E3|]. assert (fe_live e3 = foldl (λ m a, <[a := PARTITION_DEV_SIZE]> m) (fe_live (fenv s)) new) as El.
  { rewrite L3, R5, L2. by apply foldl_insert_delete. }
  apply HQ; [|done|done|congruence]. destruct R1 as [Q1 Q2 Q3]. split; [done|done|]. intros x Hx. cbn. rewrite L3. specialize (Q3 x Hx).
  rewrite lookup_delete_ne; [done|]. intros <-. destruct (R9 a Hx) as [Hs|[Hs|Hs]]; [| |done]; (destruct (dv_live _ _ Hdv a) as [? Hy]; [auto|congruence]).
Qed.

(** The state after [MBR_init] on a disk with the signature. *)
Record partitioned s (dev : Z) (d : block_dev) (mbr : list Z) L s' (new : list Z) : Prop := {
  pt_devices : devices s' (reverse new ++ L);
  pt_new : Forall2 (is_partition s' dev d mbr) new (filter (part_used mbr) (seqZ 0 4));
  pt_live : fe_live (fenv s') = foldl (λ m a, <[a := PARTITION_DEV_SIZE]> m) (fe_live (fenv s)) new;
  pt_reads a i lba blk bs : is_partition s' dev d mbr a i → a ∈ new → part_lba_start i mbr = Some lba → vol_of s dev (u64 (blk + lba)) = Some bs → vol_of s' a blk = Some bs;
  pt_keeps x blk bs : vol_of s x blk = Some bs → vol_of s' x blk = Some bs;
  pt_devs : dev_at s ⊆ dev_at s';
  pt_avail : fe_avail (fenv s) - 4 * fe_cost PARTITION_DEV_SIZE ≤ fe_avail (fenv s');
  pt_nodes : same_nodes s s'
}.

Lemma registered_partitioned s dev d mbr L e2 e3 s1 new :
  registered (set_fenv e2 s) dev d mbr L (seqZ 0 4) s1 new → fe_kept e2 = fe_kept (fenv s) → devices (set_fenv e3 s1) (reverse new ++ L) →
  fe_live e3 = foldl (λ m a, <[a := PARTITION_DEV_SIZE]> m) (fe_live (fenv s)) new → fe_kept e3 = fe_kept (fenv s) →
  fe_avail (fenv s) - 4 * fe_cost PARTITION_DEV_SIZE ≤ fe_avail e3 → partitioned s dev d mbr L (set_fenv e3 s1) new.
Proof.
  intros [R1 R2 R3 [R4 R4'] R5 R6 R7 R8 R9 R10] D2 Hdv' L3 D3 V3. cbn [fenv set_fenv dev_at part_at] in *. split; [done..| | |done|done|done].
  - intros a i lba blk bs (ty & cnt & lba' & nx & _ & _ & Elba & Ea & Ep) Hin Elba' Hv. assert (lba' = lba) as -> by congruence. unfold vol_of in *.
    cbn [dev_at part_at set_fenv] in Ea, Ep |- *. cbn [sector_at dev_at part_at set_fenv]. rewrite Ea. cbn [mbind option_bind read_block]. rewrite Ep. cbn [mbind option_bind part_parent lba_offset]. rewrite R4'.
    eapply (sector_at_mono (S (size (part_at s)))); [done|done|by cbn| |exact Hv]. destruct new; [by apply elem_of_nil in Hin|cbn; lia].
  - intros x blk bs Hv. unfold vol_of in *. eapply sector_at_mono; [done|done|done| |exact Hv]. cbn. lia.
Qed.

Lemma used_length mbr : (length (filter (part_used mbr) (seqZ 0 4)) ≤ 4)%nat.
Proof. apply (length_filter (part_used mbr) (seqZ 0 4)). Qed.

Lemma MBR_init_spec s dev d L mbr sig :
  devices s L → dev ≠ 0 → dev_at s !! dev = Some d → vol_of s dev 0 = Some mbr → mbr_sig mbr = Some sig →
  fe_cost MBR_SIZE + 4 * fe_cost PARTITION_DEV_SIZE ≤ fe_avail (fenv s) →
  wp (MBR_init dev) s (λ _ s', if decide (sig = MBR_SIGNATURE) then ∃ new, partitioned s dev d mbr L s' new
    else ∃ e', s' = set_fenv e' s ∧ keeps_env (fenv s) e').
Proof.
  intros Hdv Hdev Ed Hmbr Hsig Hav. pose proof (fe_cost_nonneg PARTITION_DEV_SIZE) as C0. pose proof (fe_cost_nonneg MBR_SIZE) as C1.
  destruct (sector_bytes _ _ _ _ _ Hmbr) as [Hl _].
  unfold MBR_init. rewrite (proj2 (Z.eqb_neq dev 0)) by done. wp_step. apply kmalloc_buf_spec; [done|lia|]. intros a buf e1 Ha Hb.
  cbn [Datatypes.fst Datatypes.snd]. rewrite (proj2 (Z.eqb_neq a 0)) by apply Ha. wp_step.
  eapply wp_mono; [apply (read_block_into_spec (set_fenv e1 s) dev (vol_of s dev) 0 0 buf mbr); [|done|rewrite Hb; done]|].
  { apply (reads_same s); [|by intros ? ?]. apply same_devices_env, Ha. }
  cbv beta. intros r s1 (-> & e2 & -> & K2). cbn [Datatypes.fst Datatypes.snd Z.eqb negb].
  assert (splice 0 mbr buf = mbr) as ->.
  { unfold splice. rewrite (drop_ge buf) by (unfold blen, SECTOR, MBR_SIZE in *; lia). cbn. by rewrite app_nil_r. }
  wp_step. eapply wp_get_some; [exact Hsig|]. destruct (sig =? MBR_SIGNATURE) eqn:Es; bool_prop; cbn [negb].
  - destruct (decide (sig = MBR_SIGNATURE)); [|done]. pose proof (al_avail _ _ _ _ Ha) as Va. destruct K2 as [KL KV KD]. cbn [fenv set_fenv] in KL, KV, KD. wp_step.
    assert (fe_live e2 = <[a := MBR_SIZE]> (fe_live (fenv s))) as L2 by (by rewrite KL, (al_live _ _ _ _ Ha)).
    assert (fe_kept e2 = fe_kept (fenv s)) as D2 by (by rewrite KD, (al_disk _ _ _ _ Ha)).
    eapply wp_mono; [apply (MBR_entries_spec (seqZ 0 4) (set_fenv e2 s) dev d mbr L); [|done|done|by repeat constructor|change (length (seqZ 0 4)) with 4%nat; cbn; lia]|].
    { destruct Hdv as [Q1 Q2 Q3]. split; [done|done|]. intros x Hx. cbn. rewrite L2. apply lookup_insert_is_Some'. right. by apply Q3. }
    cbv beta. intros _ s1 (new & Hr). eapply (free_table s a e2 dev d mbr L s1 new MBR_SIZE); try done; [apply Ha|apply Ha|]. intros e3 Hdv3 L3 V3 D3.
    exists new. eapply (registered_partitioned s dev d mbr L e2 e3 s1 new); try done. pose proof (rg_avail _ _ _ _ _ _ _ _ Hr) as V2. cbn in V2.
    pose proof (used_length mbr). pose proof (Forall2_length _ _ _ (rg_new _ _ _ _ _ _ _ _ Hr)). nia.
  - destruct (decide (sig = MBR_SIGNATURE)); [done|]. eapply kfree_buf_spec; [exact Ha|exact K2|]. intros e3 K3. by exists e3.
Qed.

(** C30: [MBR_init] on a device whose sector 0 has the signature registers one device
    for each entry in use, in the order of the table, in front of the devices that were
    there; sector [k] of such a device is sector [k] + [lba_start] of the disk; the old
    devices read as before, and only the new devices are left allocated.  Without the
    signature nothing is registered. *)
Theorem MBR_init_correct s dev d L mbr sig :
  devices s L → dev ≠ 0 → dev_at s !! dev = Some d → vol_of s dev 0 = Some mbr → mbr_sig mbr = Some sig →
  fe_cost MBR_SIZE + 4 * fe_cost PARTITION_DEV_SIZE ≤ fe_avail (fenv s) →
  ∃ s', MBR_init dev s = Ret (tt, s') ∧
    if decide (sig = MBR_SIGNATURE) then
      ∃ new, devices s' (reverse new ++ L) ∧ Forall2 (is_partition s' dev d mbr) new (filter (part_used mbr) (seqZ 0 4)) ∧
        fe_live (fenv s') = foldl (λ m a, <[a := PARTITION_DEV_SIZE]> m) (fe_live (fenv s)) new ∧
        (∀ a i lba blk bs, is_partition s' dev d mbr a i → a ∈ new → part_lba_start i mbr = Some lba → vol_of s dev (u64 (blk + lba)) = Some bs → vol_of s' a blk = Some bs) ∧
        (∀ x blk bs, vol_of s x blk = Some bs → vol_of s' x blk = Some bs)
    else ∃ e', s' = set_fenv e' s ∧ keeps_env (fenv s) e'.
Proof.
  intros Hdv Hdev Ed Hmbr Hsig Hav. pose proof (MBR_init_spec s dev d L mbr sig Hdv Hdev Ed Hmbr Hsig Hav) as ([] & s' & Er & Hs')%wp_iff.
  exists s'. split; [done|]. destruct (decide (sig = MBR_SIGNATURE)); [|done]. destruct Hs' as (new & [P1 P2 P3 P4 P5 _ _ _]). eauto 10.
Qed.
End mbr.

(** ** Example: a disk with one partition *)

Definition toy_disk : fss tfs :=
  FState {[ 0x1000 := BlockDev 64 ata_read_block_fn 512 MASS_STORAGE "ATA"%string 0 0 ]} ∅ ∅ ∅ ∅ ∅ ∅ 0x1000 [] (Tfs {[ 0x1000 := 96 ]} ∅).

Lemma toy_disk_devices : devices toy_disk [0x1000].
Proof.
  split; [split; [done|]; split; [done|]; exists 0; by split|apply NoDup_singleton|].
  intros a [[x Hx]|[x Hx]]; [|change (part_at toy_disk) with (∅ : gmap Z partition_dev) in Hx; by rewrite lookup_empty in Hx]. revert a x Hx.
  change (map_Forall (λ a _, is_Some (fe_live (fenv toy_disk) !! a)) (dev_at toy_disk)). apply (bool_decide_unpack _). vm_compute. exact I.
Qed.

Lemma MBR_init_witness :
  ∃ s' a, MBR_init 0x1000 toy_disk = Ret (tt, s') ∧ devices s' [a; 0x1000] ∧ vol_of s' a 2 = Some (disk_sector 3).
Proof.
  destruct (MBR_init_correct toy_disk 0x1000 (BlockDev 64 ata_read_block_fn 512 MASS_STORAGE "ATA"%string 0 0) [0x1000] (disk_sector 0) 0xAA55
    toy_disk_devices ltac:(done) eq_refl eq_refl ltac:(vm_compute; reflexivity) ltac:(done)) as (s' & Er & Hs').
  rewrite decide_True in Hs' by reflexivity. destruct Hs' as (new & Hdv & Hnew & _ & Hvol & _).
  assert (filter (part_used (disk_sector 0)) (seqZ 0 4) = [0]) as Ef by (vm_compute; reflexivity). rewrite Ef in Hnew.
  apply Forall2_cons_inv_r in Hnew as (a & l & Ha & Hl & ->). apply Forall2_nil_inv_r in Hl as ->.
  exists s', a. split; [exact Er|]. split; [exact Hdv|]. apply (Hvol a 0 1 2 (disk_sector 3) Ha); [by left|vm_compute; reflexivity|vm_compute; reflexivity].
Defined.
