(* ===== verification/Md5.v ===== *)
(** * The MD5 checksum

    [kernel/md5.c], with the reference of RFC 1321 it is compared with. *)

From S2P Require Import Prelude Bytes.

(** ** Tables *)

Definition S_table : list Z :=
  [7; 12; 17; 22; 7; 12; 17; 22; 7; 12; 17; 22; 7; 12; 17; 22;
   5;  9; 14; 20; 5;  9; 14; 20; 5;  9; 14; 20; 5;  9; 14; 20;
   4; 11; 16; 23; 4; 11; 16; 23; 4; 11; 16; 23; 4; 11; 16; 23;
   6; 10; 15; 21; 6; 10; 15; 21; 6; 10; 15; 21; 6; 10; 15; 21].

Definition K_table : list Z :=
  [0xd76aa478; 0xe8c7b756; 0x242070db; 0xc1bdceee; 0xf57c0faf; 0x4787c62a; 0xa8304613; 0xfd469501;
   0x698098d8; 0x8b44f7af; 0xffff5bb1; 0x895cd7be; 0x6b901122; 0xfd987193; 0xa679438e; 0x49b40821;
   0xf61e2562; 0xc040b340; 0x265e5a51; 0xe9b6c7aa; 0xd62f105d; 0x02441453; 0xd8a1e681; 0xe7d3fbc8;
   0x21e1cde6; 0xc33707d6; 0xf4d50d87; 0x455a14ed; 0xa9e3e905; 0xfcefa3f8; 0x676f02d9; 0x8d2a4c8a;
   0xfffa3942; 0x8771f681; 0x6d9d6122; 0xfde5380c; 0xa4beea44; 0x4bdecfa9; 0xf6bb4b60; 0xbebfbc70;
   0x289b7ec6; 0xeaa127fa; 0xd4ef3085; 0x04881d05; 0xd9d4d039; 0xe6db99e5; 0x1fa27cf8; 0xc4ac5665;
   0xf4292244; 0x432aff97; 0xab9423a7; 0xfc93a039; 0x655b59c3; 0x8f0ccc92; 0xffeff47d; 0x85845dd1;
   0x6fa87e4f; 0xfe2ce6e0; 0xa3014314; 0x4e0811a1; 0xf7537e82; 0xbd3af235; 0x2ad7d2bb; 0xeb86d391].

Definition PADDING : list Z := 0x80 :: replicate 63 0.

(** ** Bit functions of 32-bit words *)

Definition not32 (x : Z) : Z := Z.lxor x (2 ^ 32 - 1).
Definition md5_F (x y z : Z) : Z := Z.lor (Z.land x y) (Z.land (not32 x) z).
Definition md5_G (x y z : Z) : Z := Z.lor (Z.land x z) (Z.land y (not32 z)).
Definition md5_H (x y z : Z) : Z := Z.lxor (Z.lxor x y) z.
Definition md5_I (x y z : Z) : Z := Z.lxor y (Z.lor x (not32 z)).

Definition rotateLeft (x n : Z) : Z := Z.lor (u32 (Z.shiftl x n)) (Z.shiftr x (32 - n)).

(** ** [MD5Context] *)

Record quad := Quad { q0 : Z; q1 : Z; q2 : Z; q3 : Z }.

Record MD5Context := Ctx {
  ctx_size : Z;
  ctx_buffer : quad;
  ctx_input : list Z;
  ctx_digest : list Z
}.

(** [md5Init] leaves [input] and [digest] as it found them. *)
Definition md5Init (ctx : MD5Context) : MD5Context :=
  Ctx 0 (Quad 0x67452301 0xefcdab89 0x98badcfe 0x10325476) (ctx_input ctx) (ctx_digest ctx).

(** ** The main loop *)

Definition nth_word (l : list Z) (i : Z) : Z := nth (Z.to_nat i) l 0.

(** One turn of the loop of [md5Step] on (AA, BB, CC, DD). *)
Definition md5_turn (words : list Z) (r : quad) (i : Z) : quad :=
  let '(Quad AA BB CC DD) := r in
  let '(e, j) :=
    if i / 16 =? 0 then (md5_F BB CC DD, i)
    else if i / 16 =? 1 then (md5_G BB CC DD, (i * 5 + 1) mod 16)
    else if i / 16 =? 2 then (md5_H BB CC DD, (i * 3 + 5) mod 16)
    else (md5_I BB CC DD, (i * 7) mod 16) in
  Quad DD (u32 (BB + rotateLeft (u32 (AA + e + nth_word K_table i + nth_word words j)) (nth_word S_table i))) BB CC.

Definition md5Step (b : quad) (words : list Z) : quad :=
  let r := foldl (md5_turn words) b (seqZ 0 64) in
  Quad (u32 (q0 b + q0 r)) (u32 (q1 b + q1 r)) (u32 (q2 b + q2 r)) (u32 (q3 b + q3 r)).

(** A word of the 64-byte input. *)
Definition input_word (inp : list Z) (j : Z) : Z :=
  Z.lor (Z.lor (Z.lor (Z.shiftl (nth_word inp (j * 4 + 3)) 24) (Z.shiftl (nth_word inp (j * 4 + 2)) 16))
               (Z.shiftl (nth_word inp (j * 4 + 1)) 8)) (nth_word inp (j * 4)).

(** ** Input *)

(** One byte: stored at [offset], and a full buffer is processed. *)
Definition md5_byte (st : quad * list Z * Z) (b : Z) : quad * list Z * Z :=
  let '(buf, inp, offset) := st in
  let inp := <[Z.to_nat offset := b]> inp in
  let offset := offset + 1 in
  if offset mod 64 =? 0 then (md5Step buf (input_word inp <$> seqZ 0 16), inp, 0) else (buf, inp, offset).

(** [None]: the 32-bit counter never reaches a length of [2 ^ 32] or more, the loop does
    not end. *)
Definition md5Update (ctx : MD5Context) (bytes : list Z) : option MD5Context :=
  if bool_decide (blen bytes < 2 ^ 32) then
    let '(buf, inp, _) := foldl md5_byte (ctx_buffer ctx, ctx_input ctx, ctx_size ctx mod 64) bytes in
    Some (Ctx (u64 (ctx_size ctx + blen bytes)) buf inp (ctx_digest ctx))
  else None.

Definition digest_bytes (w : Z) : list Z :=
  [Z.land w 0x000000FF; Z.shiftr (Z.land w 0x0000FF00) 8; Z.shiftr (Z.land w 0x00FF0000) 16; Z.shiftr (Z.land w 0xFF000000) 24].

Definition md5Finalize (ctx : MD5Context) : option MD5Context :=
  let offset := ctx_size ctx mod 64 in
  let padding_length := if offset <? 56 then 56 - offset else 56 + 64 - offset in
  c ← md5Update ctx (slice 0 padding_length PADDING);
  let sz := u64 (ctx_size c - padding_length) in
  let words := (input_word (ctx_input c) <$> seqZ 0 14) ++ [u32 (u64 (sz * 8)); u32 (Z.shiftr (u64 (sz * 8)) 32)] in
  let b := md5Step (ctx_buffer c) words in
  Some (Ctx sz b (ctx_input c) (digest_bytes (q0 b) ++ digest_bytes (q1 b) ++ digest_bytes (q2 b) ++ digest_bytes (q3 b))).

(** [md5String] on the bytes in front of the NUL; [ctx] is the uninitialised local. *)
Definition md5String (ctx : MD5Context) (bytes : list Z) : option (list Z) :=
  c ← md5Update (md5Init ctx) bytes;
  c ← md5Finalize c;
  Some (ctx_digest c).
