(* ===== verification/Md5Theorems.v ===== *)
(** * MD5 is RFC 1321

    The reference follows the text of the RFC: padding of the whole message, blocks of
    sixteen words, sixty-four operations [ABCD k s i], [DABC k s i], ... that update one of
    four registers in place, and the registers byte by byte as the digest.  The
    incremental code computes it for every way to cut the message into pieces. *)

From S2P Require Import Prelude Bytes Md5.

(** ** The reference *)

Definition rotl (x s : Z) : Z := (x * 2 ^ s) mod 2 ^ 32 + x / 2 ^ (32 - s).

Definition rfc_k : list Z :=
  seqZ 0 16 ++ [1; 6; 11; 0; 5; 10; 15; 4; 9; 14; 3; 8; 13; 2; 7; 12] ++
  [5; 8; 11; 14; 1; 4; 7; 10; 13; 0; 3; 6; 9; 12; 15; 2] ++ [0; 7; 14; 5; 12; 3; 10; 1; 8; 15; 6; 13; 4; 11; 2; 9].
Definition rfc_s (round i : Z) : Z := nth_word [7; 12; 17; 22; 5; 9; 14; 20; 4; 11; 16; 23; 6; 10; 15; 21] (4 * round + i mod 4).
Definition rfc_fun (round : Z) : Z → Z → Z → Z :=
  if round =? 0 then md5_F else if round =? 1 then md5_G else if round =? 2 then md5_H else md5_I.

(** The operation number [i]: the register it assigns moves down by one each time. *)
Definition rfc_op (X regs : list Z) (i : Z) : list Z :=
  let a := (- i) mod 4 in
  let r k := nth_word regs ((a + k) mod 4) in
  <[Z.to_nat a := (r 1 + rotl ((r 0 + rfc_fun (i / 16) (r 1) (r 2) (r 3) + nth_word K_table i + nth_word X (nth_word rfc_k i)) mod 2 ^ 32)
                             (rfc_s (i / 16) i)) mod 2 ^ 32]> regs.

Definition rfc_block (regs X : list Z) : list Z :=
  zip_with (λ x y, (x + y) mod 2 ^ 32) regs (foldl (rfc_op X) regs (seqZ 0 64)).

Definition rfc_pad (msg : list Z) : list Z :=
  msg ++ [0x80] ++ replicate (Z.to_nat ((55 - blen msg) mod 64)) 0 ++ le_bytes 8 (8 * blen msg).

Definition rfc_words (block : list Z) : list Z := (λ j, le (slice (4 * j) 4 block)) <$> seqZ 0 16.
Definition blocks (msg : list Z) : list (list Z) := (λ k, slice (64 * k) 64 msg) <$> seqZ 0 (blen msg / 64).
Definition rfc_init : list Z := [0x67452301; 0xefcdab89; 0x98badcfe; 0x10325476].
Definition rfc_hash (msg : list Z) : list Z := foldl (λ r b, rfc_block r (rfc_words b)) rfc_init (blocks msg).
Definition rfc_md5 (msg : list Z) : list Z := mjoin (le_bytes 4 <$> rfc_hash (rfc_pad msg)).

(** ** One block *)

Lemma lor_add a b k : 0 ≤ k → 0 ≤ b < 2 ^ k → Z.lor (a * 2 ^ k) b = a * 2 ^ k + b.
Proof.
  intros Hk Hb. assert (Z.land (a * 2 ^ k) b = 0) as Hd.
  { apply Z.bits_inj'. intros n Hn. rewrite Z.land_spec, Z.bits_0. destruct (decide (n < k)); [by rewrite Z.mul_pow2_bits_low by lia|].
    apply andb_false_intro2, Z.testbit_false; [lia|]. rewrite Z.div_small; [done|]. split; [lia|]. apply Z.lt_le_trans with (2 ^ k); [lia|apply Z.pow_le_mono_r; lia]. }
  by rewrite Z.add_nocarry_lxor, Z.lxor_lor.
Qed.

Lemma rotateLeft_rotl x s : 0 ≤ x < 2 ^ 32 → 0 < s < 32 → rotateLeft x s = rotl x s.
Proof.
  intros Hx Hs. unfold rotateLeft, rotl, u32. rewrite Z.shiftl_mul_pow2, Z.shiftr_div_pow2 by lia.
  replace ((x * 2 ^ s) mod 2 ^ 32) with ((x mod 2 ^ (32 - s)) * 2 ^ s).
  - apply lor_add; [lia|]. split; [apply Z.div_pos; [lia|apply Z.pow_pos_nonneg; lia]|]. apply Z.div_lt_upper_bound; [apply Z.pow_pos_nonneg; lia|].
    rewrite <-Z.pow_add_r by lia. replace (32 - s + s) with 32 by lia. lia.
  - replace (2 ^ 32) with (2 ^ (32 - s) * 2 ^ s); [by rewrite Z.mul_mod_distr_r by (apply Z.pow_nonzero; lia)|]. rewrite <-Z.pow_add_r by lia. f_equal. lia.
Qed.

Definition quad_list (q : quad) : list Z := [q0 q; q1 q; q2 q; q3 q].

(** The registers of the code and of the reference in front of operation [i]. *)
Definition same_regs (i : Z) (q : quad) (regs : list Z) : Prop :=
  length regs = 4%nat ∧ ∀ k, 0 ≤ k < 4 → nth_word regs (((- i) mod 4 + k) mod 4) = nth_word (quad_list q) k.

(** The index and the shift of operation [i]. *)
Definition turn_index (i : Z) : Z :=
  if i / 16 =? 0 then i else if i / 16 =? 1 then (i * 5 + 1) mod 16 else if i / 16 =? 2 then (i * 3 + 5) mod 16 else (i * 7) mod 16.

Lemma turn_tables i : 0 ≤ i < 64 → turn_index i = nth_word rfc_k i ∧ nth_word S_table i = rfc_s (i / 16) i ∧ 0 < rfc_s (i / 16) i < 32.
Proof.
  intros Hi. assert (Forall (λ i, turn_index i = nth_word rfc_k i ∧ nth_word S_table i = rfc_s (i / 16) i ∧ 0 < rfc_s (i / 16) i < 32) (seqZ 0 64)) as Ha.
  { apply (bool_decide_unpack _). vm_compute. exact I. }
  rewrite Forall_forall in Ha. apply Ha, elem_of_seqZ. lia.
Qed.

Lemma md5_turn_eq X q i :
  md5_turn X q i = Quad (q3 q) (u32 (q1 q + rotateLeft (u32 (q0 q + rfc_fun (i / 16) (q1 q) (q2 q) (q3 q) + nth_word K_table i + nth_word X (turn_index i))) (nth_word S_table i))) (q1 q) (q2 q).
Proof. destruct q. unfold md5_turn, rfc_fun, turn_index. destruct (i / 16 =? 0); [done|]. destruct (i / 16 =? 1); [done|]. by destruct (i / 16 =? 2). Qed.

(** The assigned register becomes the second one of the next operation. *)
Lemma rotate_regs regs m a b c d v :
  length regs = 4%nat → 0 ≤ m < 4 → (∀ k, 0 ≤ k < 4 → nth_word regs ((m + k) mod 4) = nth_word [a; b; c; d] k) →
  ∀ k, 0 ≤ k < 4 → nth_word (<[Z.to_nat m := v]> regs) (((m + 3) mod 4 + k) mod 4) = nth_word [d; v; b; c] k.
Proof.
  intros Hl Hm Hr k Hk. pose proof (Hr 0 ltac:(lia)) as R0. pose proof (Hr 1 ltac:(lia)) as R1. pose proof (Hr 2 ltac:(lia)) as R2. pose proof (Hr 3 ltac:(lia)) as R3.
  assert (m = 0 ∨ m = 1 ∨ m = 2 ∨ m = 3) as Hmc by lia. assert (k = 0 ∨ k = 1 ∨ k = 2 ∨ k = 3) as Hkc by lia. clear Hr Hm Hk.
  destruct regs as [|x0 [|x1 [|x2 [|x3 [|]]]]]; try done.
  destruct Hmc as [->|[->|[->| ->]]], Hkc as [->|[->|[->| ->]]]; vm_compute in R0, R1, R2, R3 |- *; congruence.
Qed.

Lemma same_regs_step X q regs i : 0 ≤ i < 64 → same_regs i q regs → same_regs (i + 1) (md5_turn X q i) (rfc_op X regs i).
Proof.
  intros Hi [Hl Hr]. destruct (turn_tables i Hi) as (T1 & T2 & T3). rewrite md5_turn_eq, T1, T2, rotateLeft_rotl by (apply u32_range || lia).
  assert ((- (i + 1)) mod 4 = ((- i) mod 4 + 3) mod 4) as E1 by (rewrite Z.add_mod_idemp_l by lia; replace (- (i + 1)) with (- i + 3 + (-1) * 4) by lia; by rewrite Z.mod_add by lia).
  unfold rfc_op. cbv zeta. rewrite !Hr by lia. unfold same_regs. rewrite E1. split; [by rewrite length_insert|].
  apply (rotate_regs regs _ (q0 q) (q1 q) (q2 q) (q3 q)); [done|apply Z.mod_pos_bound; lia|exact Hr].
Qed.

Lemma same_regs_fold X n : ∀ i q regs, 0 ≤ i → i + Z.of_nat n ≤ 64 → same_regs i q regs →
  same_regs (i + Z.of_nat n) (foldl (md5_turn X) q (seqZ i (Z.of_nat n))) (foldl (rfc_op X) regs (seqZ i (Z.of_nat n))).
Proof.
  induction n as [|n IH]; intros i q regs H0 Hn Hs; [rewrite Z.add_0_r; done|]. rewrite seqZ_cons by lia. cbn [foldl].
  replace (Z.pred (Z.of_nat (S n))) with (Z.of_nat n) by lia. replace (i + Z.of_nat (S n)) with (Z.succ i + Z.of_nat n) by lia.
  apply IH; [lia|lia|]. apply same_regs_step; [lia|done].
Qed.

Lemma md5Step_rfc b X : quad_list (md5Step b X) = rfc_block (quad_list b) X.
Proof.
  assert (same_regs 0 b (quad_list b)) as H0.
  { split; [done|]. intros k Hk. by rewrite Z.mod_0_l, Z.add_0_l, Z.mod_small by lia. }
  pose proof (same_regs_fold X 64 0 b (quad_list b) ltac:(lia) ltac:(lia) H0) as [Hl Hr]. unfold md5Step, rfc_block.
  change (Z.of_nat 64) with 64 in *. revert Hl Hr. generalize (foldl (md5_turn X) b (seqZ 0 64)) (foldl (rfc_op X) (quad_list b) (seqZ 0 64)).
  intros q regs Hl Hr. pose proof (Hr 0 ltac:(lia)) as R0. pose proof (Hr 1 ltac:(lia)) as R1. pose proof (Hr 2 ltac:(lia)) as R2. pose proof (Hr 3 ltac:(lia)) as R3.
  destruct regs as [|x0 [|x1 [|x2 [|x3 [|]]]]]; try done. vm_compute in R0, R1, R2, R3. subst. done.
Qed.

(** ** Words and blocks *)

Lemma nth_word_byte l i : Forall is_byte l → is_byte (nth_word l i).
Proof.
  intros Hl. unfold nth_word. rewrite <-nth_default_eq. unfold nth_default. destruct (nth_error l (Z.to_nat i)) as [b|] eqn:Hb; [|done].
  rewrite Forall_forall in Hl. apply Hl, list_elem_of_In. by eapply nth_error_In.
Qed.

Lemma take_four (o : nat) (bs : list Z) : (o + 4 ≤ length bs)%nat →
  take 4 (drop o bs) = [nth o bs 0; nth (o + 1) bs 0; nth (o + 2) bs 0; nth (o + 3) bs 0].
Proof.
  revert bs. induction o as [|o IH]; intros bs Hl.
  - by destruct bs as [|x0 [|x1 [|x2 [|x3 bs]]]]; cbn in Hl; try lia.
  - destruct bs as [|x bs]; cbn in Hl; [lia|]. cbn [drop Nat.add nth]. apply IH. lia.
Qed.

Lemma input_word_le inp j : Forall is_byte inp → 0 ≤ j → 4 * j + 4 ≤ blen inp → input_word inp j = le (slice (4 * j) 4 inp).
Proof.
  intros Hb H0 H1. unfold slice. change (Z.to_nat 4) with 4%nat. rewrite take_four by (unfold blen in H1; lia). cbn [le foldr].
  unfold input_word. pose proof (nth_word_byte inp) as B.
  assert (∀ i, 0 ≤ i → nth (Z.to_nat (4 * j) + Z.to_nat i) inp 0 = nth_word inp (j * 4 + i)) as N by (intros; unfold nth_word; f_equal; lia).
  pose proof (N 1 ltac:(lia)) as N1. pose proof (N 2 ltac:(lia)) as N2. pose proof (N 3 ltac:(lia)) as N3.
  replace (nth (Z.to_nat (4 * j)) inp 0) with (nth_word inp (j * 4)) by (unfold nth_word; f_equal; lia).
  change (Z.to_nat 1) with 1%nat in N1. change (Z.to_nat 2) with 2%nat in N2. change (Z.to_nat 3) with 3%nat in N3. rewrite N1, N2, N3.
  pose proof (B (j * 4) Hb) as B0. pose proof (B (j * 4 + 1) Hb) as B1. pose proof (B (j * 4 + 2) Hb) as B2. pose proof (B (j * 4 + 3) Hb) as B3.
  revert B0 B1 B2 B3. generalize (nth_word inp (j * 4)) (nth_word inp (j * 4 + 1)) (nth_word inp (j * 4 + 2)) (nth_word inp (j * 4 + 3)).
  intros b0 b1 b2 b3 B0 B1 B2 B3. unfold is_byte in *. rewrite !Z.shiftl_mul_pow2 by lia.
  change (2 ^ 24) with (2 ^ 8 * 2 ^ 16). change (2 ^ 16) with (2 ^ 8 * 2 ^ 8). 
  replace (b3 * (2 ^ 8 * (2 ^ 8 * 2 ^ 8))) with (b3 * 2 ^ 24) by lia. replace (b2 * (2 ^ 8 * 2 ^ 8)) with (b2 * 2 ^ 16) by lia.
  rewrite lor_add by lia. replace (b3 * 2 ^ 24 + b2 * 2 ^ 16) with ((b3 * 2 ^ 8 + b2) * 2 ^ 16) by lia. rewrite lor_add by lia.
  replace ((b3 * 2 ^ 8 + b2) * 2 ^ 16 + b1 * 2 ^ 8) with (((b3 * 2 ^ 8 + b2) * 2 ^ 8 + b1) * 2 ^ 8) by lia. rewrite lor_add by lia. lia.
Qed.

Lemma input_words_rfc inp : Forall is_byte inp → blen inp = 64 → input_word inp <$> seqZ 0 16 = rfc_words inp.
Proof. intros Hb Hl. apply list_fmap_ext. intros k j Hj%list_elem_of_lookup_2%elem_of_seqZ. apply input_word_le; [done|lia|lia]. Qed.

Lemma digest_bytes_le w : digest_bytes w = le_bytes 4 w.
Proof.
  unfold digest_bytes. cbn [le_bytes]. rewrite !Z.shiftr_land, !Z.shiftr_div_pow2, !Z.div_div by lia.
  change (0xFF00 / 2 ^ 8) with (Z.ones 8). change (0xFF0000 / 2 ^ 16) with (Z.ones 8). change (0xFF000000 / 2 ^ 24) with (Z.ones 8). change 0xFF with (Z.ones 8).
  by rewrite !Z.land_ones by lia.
Qed.

(** The complete blocks of a message do not change until the next one is complete. *)
Lemma blocks_app x y : blen x mod 64 + blen y < 64 → blocks (x ++ y) = blocks x.
Proof.
  intros Hs. unfold blocks. rewrite blen_app. pose proof (blen_nonneg x). pose proof (blen_nonneg y).
  assert ((blen x + blen y) / 64 = blen x / 64) as -> by (symmetry; apply (Z.div_unique _ _ _ (blen x mod 64 + blen y)); [pose proof (Z.mod_pos_bound (blen x) 64); lia|pose proof (Z.div_mod (blen x) 64); lia]).
  apply list_fmap_ext. intros i k Hk%list_elem_of_lookup_2%elem_of_seqZ. apply slice_app_l; [lia|lia|]. pose proof (Z.mul_div_le (blen x) 64). lia.
Qed.

Lemma blocks_app_full x y : blen x mod 64 + blen y = 64 → blocks (x ++ y) = blocks x ++ [slice (64 * (blen x / 64)) (blen x mod 64) x ++ y].
Proof.
  intros Hs. unfold blocks. rewrite blen_app. pose proof (blen_nonneg x). pose proof (blen_nonneg y). pose proof (Z.div_mod (blen x) 64 ltac:(lia)) as Hdm.
  pose proof (Z.mod_pos_bound (blen x) 64 ltac:(lia)). pose proof (Z.div_pos (blen x) 64 ltac:(lia) ltac:(lia)).
  assert ((blen x + blen y) / 64 = blen x / 64 + 1) as -> by (symmetry; apply (Z.div_unique _ _ _ 0); lia).
  rewrite (seqZ_app 0 (blen x / 64) 1), fmap_app by lia. f_equal.
  - apply list_fmap_ext. intros i k Hk%list_elem_of_lookup_2%elem_of_seqZ. apply slice_app_l; lia.
  - transitivity [slice (64 * (blen x / 64)) (blen x mod 64 + blen y) (x ++ y)]; [by rewrite Hs|]. f_equal. rewrite <-slice_app by lia.
    f_equal; [apply slice_app_l; lia|]. rewrite slice_app_r by lia. replace (_ - blen x) with 0 by lia. apply slice_all.
Qed.

Lemma rfc_hash_app x y : blen x mod 64 + blen y < 64 → rfc_hash (x ++ y) = rfc_hash x.
Proof. intros. unfold rfc_hash. by rewrite blocks_app. Qed.

Lemma rfc_hash_full x y : blen x mod 64 + blen y = 64 →
  rfc_hash (x ++ y) = rfc_block (rfc_hash x) (rfc_words (slice (64 * (blen x / 64)) (blen x mod 64) x ++ y)).
Proof. intros. unfold rfc_hash. by rewrite blocks_app_full, foldl_app. Qed.

(** ** The incremental code *)

(** The registers, the buffer and the offset in it after the bytes [msg]. *)
Definition absorbed (msg : list Z) (buf : quad) (inp : list Z) : Prop :=
  Forall is_byte inp ∧ blen inp = 64 ∧ quad_list buf = rfc_hash msg ∧
  slice 0 (blen msg mod 64) inp = slice (64 * (blen msg / 64)) (blen msg mod 64) msg.

Lemma slice_store o b inp : 0 ≤ o < blen inp → slice 0 (o + 1) (<[Z.to_nat o := b]> inp) = slice 0 o inp ++ [b].
Proof.
  intros Ho. unfold slice, blen in *. rewrite !drop_0, insert_take_drop by lia. rewrite (cons_middle b), (assoc_L app).
  rewrite take_app_le by (rewrite length_app, length_take_le by lia; cbn; lia). apply take_ge. rewrite length_app, length_take_le by lia. cbn. lia.
Qed.

Lemma slice_snoc off o msg b : 0 ≤ off → 0 ≤ o → off + o = blen msg → slice off (o + 1) (msg ++ [b]) = slice off o msg ++ [b].
Proof. intros. rewrite <-slice_app, slice_app_l, slice_app_r by lia. by replace (off + o - blen msg) with 0 by lia. Qed.

Lemma md5_byte_absorbed msg buf inp b : is_byte b → absorbed msg buf inp →
  ∃ buf' inp', md5_byte (buf, inp, blen msg mod 64) b = (buf', inp', blen (msg ++ [b]) mod 64) ∧ absorbed (msg ++ [b]) buf' inp'.
Proof.
  intros Hb (Hi & Hl & Hq & Hs). pose proof (blen_nonneg msg). pose proof (Z.mod_pos_bound (blen msg) 64 ltac:(lia)) as Hm. pose proof (Z.div_mod (blen msg) 64 ltac:(lia)) as Hdm.
  pose proof (rfc_hash_app msg [b]) as Ha. pose proof (rfc_hash_full msg [b]) as Hf. unfold md5_byte.
  pose proof (slice_store (blen msg mod 64) b inp ltac:(lia)) as Hst. pose proof (slice_snoc (64 * (blen msg / 64)) (blen msg mod 64) msg b ltac:(lia) ltac:(lia) ltac:(lia)) as Hsn.
  rewrite Hs in Hst. assert (blen (msg ++ [b]) = blen msg + 1) as Hlb by (rewrite blen_app; done). change (blen [b]) with 1 in *.
  set (o := blen msg mod 64) in *. set (k := blen msg / 64) in *. set (inp' := <[Z.to_nat o := b]> inp) in *.
  assert (Forall is_byte inp') as Hi' by (by apply Forall_insert). assert (blen inp' = 64) as Hl' by (unfold inp', blen in *; by rewrite length_insert).
  destruct (decide (o + 1 = 64)) as [Ho|Ho].
  - assert (blen (msg ++ [b]) mod 64 = 0) as Hm1 by (rewrite Hlb; symmetry; apply (Z.mod_unique _ _ (k + 1)); lia).
    rewrite Ho in *. change (64 mod 64 =? 0) with true. cbn match. eexists _, _. split; [by rewrite Hm1|].
    split_and!; [done..| |by rewrite Hm1]. rewrite md5Step_rfc, Hq, input_words_rfc, Hf by done. do 2 f_equal.
    by rewrite <-Hst, <-Hl', slice_all.
  - assert (blen (msg ++ [b]) mod 64 = o + 1) as Hm1 by (rewrite Hlb; symmetry; apply (Z.mod_unique _ _ k); lia).
    assert (blen (msg ++ [b]) / 64 = k) as Hk1 by (rewrite Hlb; symmetry; apply (Z.div_unique _ _ _ (o + 1)); lia).
    rewrite (Z.mod_small (o + 1)) by lia. rewrite (proj2 (Z.eqb_neq (o + 1) 0)) by lia. eexists _, _. split; [by rewrite Hm1|].
    split_and!; [done..|rewrite Ha; [done|lia]|]. by rewrite Hm1, Hk1, Hst, Hsn.
Qed.

Lemma md5_bytes_absorbed bs : ∀ msg buf inp, Forall is_byte bs → absorbed msg buf inp →
  ∃ buf' inp', foldl md5_byte (buf, inp, blen msg mod 64) bs = (buf', inp', blen (msg ++ bs) mod 64) ∧ absorbed (msg ++ bs) buf' inp'.
Proof.
  induction bs as [|b bs IH]; intros msg buf inp Hb Ha; [exists buf, inp; by rewrite app_nil_r|]. apply Forall_cons in Hb as [Hb Hbs]. cbn [foldl].
  destruct (md5_byte_absorbed msg buf inp b Hb Ha) as (buf1 & inp1 & -> & Ha1). destruct (IH _ _ _ Hbs Ha1) as (buf2 & inp2 & -> & Ha2).
  exists buf2, inp2. by rewrite <-(assoc_L app) in *.
Qed.

(** A context after the bytes [msg]. *)
Definition holds_message (msg : list Z) (c : MD5Context) : Prop :=
  ctx_size c = u64 (blen msg) ∧ absorbed msg (ctx_buffer c) (ctx_input c).

Lemma u64_mod64 n : u64 n mod 64 = n mod 64.
Proof. unfold u64. change (2 ^ 64) with (64 * 2 ^ 58). rewrite Z.rem_mul_r by lia. rewrite (Z.mul_comm 64), Z.mod_add, Z.mod_mod by lia. done. Qed.

Lemma md5Init_holds c : Forall is_byte (ctx_input c) → blen (ctx_input c) = 64 → holds_message [] (md5Init c).
Proof. intros. split; [done|]. by split_and!. Qed.

Lemma md5Update_holds msg c bs : Forall is_byte bs → blen bs < 2 ^ 32 → holds_message msg c →
  ∃ c', md5Update c bs = Some c' ∧ holds_message (msg ++ bs) c' ∧ ctx_digest c' = ctx_digest c.
Proof.
  intros Hb Hl [Hs Ha]. unfold md5Update. rewrite bool_decide_true by done. rewrite Hs, u64_mod64.
  destruct (md5_bytes_absorbed bs msg _ _ Hb Ha) as (buf & inp & -> & Ha'). eexists. split; [done|]. split; [split; [|done]|done].
  cbn [ctx_size]. rewrite blen_app. unfold u64. by rewrite Z.add_mod_idemp_l.
Qed.

(** The padding of the code is the one of the reference, and it leaves room for the length. *)
Definition padding_length (msg : list Z) : Z :=
  if blen msg mod 64 <? 56 then 56 - blen msg mod 64 else 56 + 64 - blen msg mod 64.

Lemma padding_length_rfc msg : padding_length msg = 1 + (55 - blen msg) mod 64.
Proof.
  unfold padding_length. pose proof (Z.mod_pos_bound (blen msg) 64 ltac:(lia)) as Ho. rewrite Zminus_mod. change (55 mod 64) with 55.
  generalize dependent (blen msg mod 64). intros o Ho. destruct (o <? 56) eqn:Hc; bool_prop; [rewrite Z.mod_small by lia; lia|].
  replace (55 - o) with (119 - o + (-1) * 64) by lia. rewrite Z.mod_add, Z.mod_small by lia. lia.
Qed.

Lemma pad_prefix msg : (msg ++ slice 0 (padding_length msg) PADDING) ++ le_bytes 8 (8 * blen msg) = rfc_pad msg.
Proof.
  unfold rfc_pad. rewrite <-(assoc_L app msg), (assoc_L app [0x80]). do 2 f_equal. rewrite padding_length_rfc.
  pose proof (Z.mod_pos_bound (55 - blen msg) 64 ltac:(lia)) as Hr. unfold slice, PADDING. rewrite drop_0, Z2Nat.inj_add by lia.
  change (Z.to_nat 1) with 1%nat. cbn [Nat.add take app]. by rewrite take_replicate, Nat.min_l by lia.
Qed.

Lemma blen_padding msg : blen (slice 0 (padding_length msg) PADDING) = padding_length msg.
Proof.
  rewrite padding_length_rfc. pose proof (Z.mod_pos_bound (55 - blen msg) 64 ltac:(lia)). apply blen_slice; [lia|lia|]. change (blen PADDING) with 64. lia.
Qed.

Lemma padded_mod msg : blen (msg ++ slice 0 (padding_length msg) PADDING) mod 64 = 56.
Proof.
  rewrite blen_app, blen_padding. unfold padding_length. pose proof (Z.mod_pos_bound (blen msg) 64 ltac:(lia)). pose proof (Z.div_mod (blen msg) 64 ltac:(lia)).
  destruct (_ <? 56) eqn:Hc; bool_prop; symmetry; [apply (Z.mod_unique _ _ (blen msg / 64)); lia|apply (Z.mod_unique _ _ (blen msg / 64 + 1)); lia].
Qed.

Lemma rfc_words_last tail n : blen tail = 56 →
  rfc_words (tail ++ le_bytes 8 n) = ((λ j, le (slice (4 * j) 4 tail)) <$> seqZ 0 14) ++ [n mod 2 ^ 32; (n / 2 ^ 32) mod 2 ^ 32].
Proof.
  intros Ht. unfold rfc_words. change (seqZ 0 16) with (seqZ 0 14 ++ [14; 15]). rewrite fmap_app. f_equal.
  - apply list_fmap_ext. intros i j Hj%list_elem_of_lookup_2%elem_of_seqZ. f_equal. apply slice_app_l; lia.
  - cbn [fmap list_fmap]. rewrite !slice_app_r by (rewrite ?Ht; lia). rewrite Ht.
    change (slice (4 * 14 - 56) 4 (le_bytes 8 n)) with (le_bytes 4 n).
    change (slice (4 * 15 - 56) 4 (le_bytes 8 n)) with (le_bytes 4 (n / 2 ^ 8 / 2 ^ 8 / 2 ^ 8 / 2 ^ 8)).
    by rewrite !le_le_bytes, !Z.div_div by lia.
Qed.

Lemma md5Finalize_correct msg c : holds_message msg c → ∃ c', md5Finalize c = Some c' ∧ ctx_digest c' = rfc_md5 msg.
Proof.
  intros Hc. unfold md5Finalize. rewrite (proj1 Hc), u64_mod64. fold (padding_length msg).
  pose proof (padding_length_rfc msg) as Hp. pose proof (Z.mod_pos_bound (55 - blen msg) 64 ltac:(lia)) as Hr. pose proof (padded_mod msg) as Hm.
  destruct (md5Update_holds msg c (slice 0 (padding_length msg) PADDING)) as (c1 & -> & [Hs (Hb & Hl & Hq & Ht)] & _); [|by rewrite blen_padding; lia|done|].
  { apply Forall_slice. apply (bool_decide_unpack _). vm_compute. exact I. }
  cbn [mbind option_bind]. eexists. split; [reflexivity|]. cbn [ctx_digest]. rewrite Hm in Ht.
  set (b := md5Step _ _). transitivity (mjoin (le_bytes 4 <$> quad_list b)); [rewrite !digest_bytes_le; by rewrite <-(app_nil_r (le_bytes 4 (q3 b))) at 1|].
  unfold rfc_md5. do 2 f_equal. unfold b. rewrite md5Step_rfc, Hq, <-pad_prefix, (rfc_hash_full (msg ++ _)) by (rewrite Hm, blen_le_bytes; lia). f_equal.
  rewrite Hm, rfc_words_last, <-Ht. 2: rewrite <-Ht; apply blen_slice; lia. f_equal.
  - apply list_fmap_ext. intros i j Hj%list_elem_of_lookup_2%elem_of_seqZ. rewrite input_word_le by (done || lia). f_equal. symmetry. rewrite slice_slice by lia. done.
  - assert (u64 (u64 (ctx_size c1 - padding_length msg) * 8) = (8 * blen msg) mod 2 ^ 64) as ->.
    { rewrite Hs, blen_app, blen_padding. unfold u64. rewrite Zminus_mod_idemp_l, Z.mul_mod_idemp_l by lia. f_equal. lia. }
    rewrite Z.shiftr_div_pow2 by lia. unfold u32. change (2 ^ 64) with (2 ^ 32 * 2 ^ 32). rewrite Z.rem_mul_r by lia.
    rewrite (Z.mul_comm (2 ^ 32) (_ mod 2 ^ 32)), Z.mod_add, Z.div_add, Z.mod_mod by lia. rewrite (Z.div_small (_ mod _)) by (apply Z.mod_pos_bound; lia).
    by rewrite Z.add_0_l, Z.mod_mod by lia.
Qed.

(** ** Checksums *)

(** Calls of [md5Update] one after the other. *)
Definition md5Updates (c : MD5Context) (chunks : list (list Z)) : option MD5Context :=
  foldl (λ o bs, c ← o; md5Update c bs) (Some c) chunks.

Lemma md5Updates_holds chunks : ∀ msg c, Forall (λ bs, Forall is_byte bs ∧ blen bs < 2 ^ 32) chunks → holds_message msg c →
  ∃ c', md5Updates c chunks = Some c' ∧ holds_message (msg ++ mjoin chunks) c'.
Proof.
  unfold md5Updates. induction chunks as [|bs chunks IH]; intros msg c Hc Hm; [exists c; by rewrite app_nil_r|]. apply Forall_cons in Hc as [[Hb Hl] Hc]. cbn [foldl].
  destruct (md5Update_holds msg c bs Hb Hl Hm) as (c1 & E1 & Hm1 & _). change (Some c ≫= λ c, md5Update c bs) with (md5Update c bs). rewrite E1.
  destruct (IH _ _ Hc Hm1) as (c2 & E2 & Hm2). exists c2. split; [done|]. by rewrite <-(assoc_L app) in Hm2.
Qed.

(** C18: whatever the uninitialised context holds, [md5Init], any sequence of calls of
    [md5Update] with pieces of less than [2 ^ 32] bytes, empty ones included, and
    [md5Finalize] leave the MD5 digest of RFC 1321 of the whole message in the context. *)
Theorem md5_correct ctx chunks :
  Forall is_byte (ctx_input ctx) → blen (ctx_input ctx) = 64 → Forall (λ bs, Forall is_byte bs ∧ blen bs < 2 ^ 32) chunks →
  ∃ c c', md5Updates (md5Init ctx) chunks = Some c ∧ md5Finalize c = Some c' ∧ ctx_digest c' = rfc_md5 (mjoin chunks).
Proof.
  intros Hb Hl Hc. destruct (md5Updates_holds chunks [] _ Hc (md5Init_holds ctx Hb Hl)) as (c & E1 & H1).
  destruct (md5Finalize_correct _ c H1) as (c' & E2 & H2). by exists c, c'.
Qed.

(** The RFC's test "abc", cut in two. *)
Lemma md5_witness :
  ∃ c c', md5Updates (md5Init (Ctx 7 (Quad 1 2 3 4) (replicate 64 0xAA) (replicate 16 0xBB))) [[97; 98]; []; [99]] = Some c ∧ md5Finalize c = Some c' ∧
    ctx_digest c' = [0x90; 0x01; 0x50; 0x98; 0x3C; 0xD2; 0x4F; 0xB0; 0xD6; 0x96; 0x3F; 0x7D; 0x28; 0xE1; 0x7F; 0x72].
Proof.
  destruct (md5_correct (Ctx 7 (Quad 1 2 3 4) (replicate 64 0xAA) (replicate 16 0xBB)) [[97; 98]; []; [99]]) as (c & c' & E1 & E2 & H).
  - apply (bool_decide_unpack _). vm_compute. exact I.
  - reflexivity.
  - repeat constructor; unfold is_byte, blen; cbn; lia.
  - exists c, c'. split; [exact E1|]. split; [exact E2|]. rewrite H. vm_compute. reflexivity.
Defined.
