(* ===== verification/Elf64.v ===== *)
(** * The program loader

    [kernel/elf64.c].  The headers are read out of buffers field by field.  What the
    loader asks the virtual memory manager and the scheduler for is behind [UserEnv]; the
    files are those of [Vfs] and [Ext2].  Output by [printk] is left out. *)

From stdpp Require Import strings.
From S2P Require Import Prelude Bytes Vfs Ext2 Kernel.

(** ** What the loader calls

    A P4 is given by its physical address; the source of a copy is the bytes themselves. *)
Class UserEnv (E : Type) := {
  ue_create_user_p4 : M E Z;
  ue_alloc_at_as : Z → Z → Z → M E Z;
  ue_copy_to_user_as : Z → Z → list Z → M E Z;
  ue_zero_user_as : Z → Z → Z → M E Z;
  ue_destroy_userspace : Z → M E unit;
  ue_create_uthread : Z → Z → Z → Z → M E Z
}.

(** ** [include/kernel/elf64.h] *)

Definition ELF64_HEAD_SIZE : Z := 64.
Definition head_magic (h : list Z) : option (list Z) := bytes_at 0 4 h.
Definition head_prog_entry_pos (h : list Z) : option Z := field 24 8 h.
Definition head_prog_table_pos (h : list Z) : option Z := field 32 8 h.
Definition head_prog_ent_size (h : list Z) : option Z := field 54 2 h.
Definition head_prog_ent_num (h : list Z) : option Z := field 56 2 h.

Definition ELF64_PROG_HEAD_SIZE : Z := 56.
Definition ph_type (ph : list Z) : option Z := field 0 4 ph.
Definition ph_file_offset (ph : list Z) : option Z := field 8 8 ph.
Definition ph_load_addr (ph : list Z) : option Z := field 16 8 ph.
Definition ph_file_size (ph : list Z) : option Z := field 32 8 ph.
Definition ph_mem_size (ph : list Z) : option Z := field 40 8 ph.

Definition BOUNCE_SIZE : Z := 4096.
Definition USTACK_BASE : Z := 0x110000000000.

(** The characters in front of the NUL. *)
Fixpoint c_string (bs : list Z) : list Z :=
  match bs with [] => [] | b :: bs => if b =? 0 then [] else b :: c_string bs end.

Section elf.
Context {E : Type} {FE : FsEnv E} {UE : UserEnv E}.
Implicit Types (s : fss E).
#[local] Abbreviation MF := (M (fss E)).

(** ** Finding the file *)

(** [find_ctx] is the target and the inode found so far. *)
Definition find_file_cb (target name : list Z) (inode result : Z) : MF (Z * Z) :=
  ret (if bool_decide (c_string name = c_string target) then (1, inode) else (0, result)).

Definition elf_open_file (root : Z) (filename : list Z) : MF Z :=
  n <- deref inode_at root ;;
  result <- (match i_readdir n with
             | NULL_readdir => ret 0
             | ext2_readdir_fn => r <- ext2_readdir (find_file_cb filename) root 0 ;; ret r.2
             end) ;;
  if result =? 0 then ret 0 else
  i <- deref inode_at result ;;
  match i_open i with ext2_open_fn => ext2_open result end.

(** The answer is the result and the buffer of the header. *)
Definition elf_read_header (f : Z) (header : list Z) : MF (Z * list Z) :=
  r <- ext2_file_read f ELF64_HEAD_SIZE ;;
  let header := splice 0 r.2 header in
  if negb (u64 r.1 =? ELF64_HEAD_SIZE) then ret (-1, header) else
  magic <- get_some (head_magic header) ;;
  if negb (bool_decide (magic = [0x7F; 0x45; 0x4C; 0x46])) then ret (-1, header) else
  ret (0, header).

(** ** Segments *)

(** A turn copies a page worth of bytes through the bounce buffer. *)
Fixpoint copy_segment (fuel : nat) (f cr3 : Z) (bounce : list Z) (remaining dst : Z) : MF Z :=
  match fuel with
  | O => no_fuel
  | S fuel =>
      if negb (0 <? remaining) then ret 0 else
      let chunk := if BOUNCE_SIZE <? remaining then BOUNCE_SIZE else i32 remaining in
      r <- ext2_file_read f chunk ;;
      let bounce := splice 0 r.2 bounce in
      if negb (r.1 =? chunk) then ret (-1) else
      bs <- get_some (bytes_at 0 chunk bounce) ;;
      c <- fcall (ue_copy_to_user_as cr3 dst bs) ;;
      if c <? 0 then ret (-1) else
      copy_segment fuel f cr3 bounce (u64 (remaining - chunk)) (u64 (dst + chunk))
  end.

Definition elf_load_segment (f : Z) (ph : list Z) (cr3 : Z) : MF Z :=
  load_addr <- get_some (ph_load_addr ph) ;;
  mem_size <- get_some (ph_mem_size ph) ;;
  file_size <- get_some (ph_file_size ph) ;;
  file_offset <- get_some (ph_file_offset ph) ;;
  a <- fcall (ue_alloc_at_as cr3 load_addr mem_size) ;;
  if a =? 0 then ret (-1) else
  ext2_file_lseek f (i32 file_offset) ;;
  m <- (if 0 <? file_size then kmalloc_buf BOUNCE_SIZE else ret (0, [])) ;;
  if (0 <? file_size) && (m.1 =? 0) then ret (-1) else
  r <- copy_segment (S (Z.to_nat file_size)) f cr3 m.2 file_size load_addr ;;
  if r <? 0 then fcall (fe_kfree m.1) ;; ret (-1) else
  z <- (if file_size <? mem_size then fcall (ue_zero_user_as cr3 (u64 (load_addr + file_size)) (u64 (mem_size - file_size))) else ret 0) ;;
  if z <? 0 then fcall (fe_kfree m.1) ;; ret (-1) else
  fcall (fe_kfree m.1) ;;
  ret 0.

(** One turn per program header; [ph] is the buffer all of them are read into. *)
Fixpoint load_headers (num : nat) (f cr3 prog_ent_size current_ph_pos : Z) (ph : list Z) : MF Z :=
  match num with
  | O => ret 0
  | S num =>
      ext2_file_lseek f (i32 current_ph_pos) ;;
      r <- ext2_file_read f ELF64_PROG_HEAD_SIZE ;;
      let ph := splice 0 r.2 ph in
      if negb (u64 r.1 =? ELF64_PROG_HEAD_SIZE) then ret (-1) else
      type <- get_some (ph_type ph) ;;
      l <- (if type =? 1 then elf_load_segment f ph cr3 else ret 0) ;;
      if l <? 0 then ret (-1) else
      load_headers num f cr3 prog_ent_size (u64 (current_ph_pos + prog_ent_size)) ph
  end.

(** [ph] is what the stack holds. *)
Definition elf_load_segments (f : Z) (header : list Z) (cr3 : Z) (ph : list Z) : MF Z :=
  pos <- get_some (head_prog_table_pos header) ;;
  num <- get_some (head_prog_ent_num header) ;;
  sz <- get_some (head_prog_ent_size header) ;;
  load_headers (Z.to_nat num) f cr3 sz pos ph.

Definition elf_alloc_user_stack (image : elf_image) (cr3 : Z) : MF (Z * elf_image) :=
  ustack <- fcall (ue_alloc_at_as cr3 USTACK_BASE DEFAULT_STACK_BYTES) ;;
  if ustack =? 0 then ret (-1, image) else
  let usp := Z.land (u64 (ustack + DEFAULT_STACK_BYTES)) (Z.lxor (2 ^ 64 - 1) 15) in
  ret (0, Image (im_cr3 image) (im_entry image) ustack usp).

(** ** Programs *)

Definition zero_image : elf_image := Image 0 0 0 0.

(** The labels [out_destroy] and [out_close]. *)
Definition out_close (f : Z) (r : Z) (image : elf_image) : MF (Z * elf_image) :=
  ext2_file_close f ;; ret (r, image).
Definition out_destroy (f cr3 : Z) (image : elf_image) : MF (Z * elf_image) :=
  (if cr3 =? 0 then ret tt else fcall (ue_destroy_userspace cr3)) ;;
  out_close f (-1) image.

(** From the open file on. *)
Definition elf_load_opened (f : Z) (ph : list Z) : MF (Z * elf_image) :=
  h <- elf_read_header f (replicate 64 0) ;;
  if h.1 <? 0 then out_close f (-1) zero_image else
  cr3 <- fcall ue_create_user_p4 ;;
  if cr3 =? 0 then out_close f (-1) zero_image else
  l <- elf_load_segments f h.2 cr3 ph ;;
  if l <? 0 then out_destroy f cr3 zero_image else
  st <- elf_alloc_user_stack zero_image cr3 ;;
  if st.1 <? 0 then out_destroy f cr3 st.2 else
  entry <- get_some (head_prog_entry_pos h.2) ;;
  out_close f 0 (Image cr3 entry (im_ustack_base st.2) (im_ustack_top st.2)).

(** [filename] and [image] are [None] for NULL; the answer is the result and the image. *)
Definition elf_load_program (root : Z) (filename : option (list Z)) (image : option elf_image) (ph : list Z) : MF (Z * option elf_image) :=
  match (root =? 0), filename, image with
  | false, Some filename, Some _ =>
      f <- elf_open_file root filename ;;
      if f =? 0 then ret (-1, Some zero_image) else
      r <- elf_load_opened f ph ;;
      ret (r.1, Some r.2)
  | _, _, _ => ret (-1, image)
  end.

Definition elf_load (root : Z) (filename : option (list Z)) (image : elf_image) (ph : list Z) : MF unit :=
  r <- elf_load_program root filename (Some image) ph ;;
  if r.1 <? 0 then ret tt else
  image <- get_some r.2 ;;
  t <- fcall (ue_create_uthread (im_entry image) 0 (im_cr3 image) (im_ustack_base image)) ;;
  if t <? 0 then fcall (ue_destroy_userspace (im_cr3 image)) else ret tt.
End elf.
