(* ===== verification/ElfProofs.v ===== *)
(** * Loading programs: the laws and the reference loader

    [UserEnvLaws] states what the loader relies on: address spaces as maps from user
    addresses to bytes, of which it creates, fills and destroys one.  The reference
    [elf_layout] computes the memory of a program from the bytes of its file; the loader
    is related to it function by function. *)

From stdpp Require Import strings.
From S2P Require Import Prelude Bytes Vfs Ext2 Ext2Proofs Ext2File Ext2Read Kernel Elf64.

Definition USER_BASE : Z := 0x100000000000.
Definition in_user (a : Z) : Prop := USER_BASE ≤ a < 2 ^ 48.
Definition PAGE : Z := 4096.
Definition first_page (va : Z) : Z := va / PAGE.
Definition page_span (va size : Z) : Z := (va + size + PAGE - 1) / PAGE - va / PAGE.
Definition on_pages (b k a : Z) : Prop := b ≤ a / PAGE < b + k.

#[export] Instance on_pages_dec b k a : Decision (on_pages b k a).
Proof. unfold on_pages. apply _. Defined.

(** ** Laws *)

Definition space_map := Z → option Z.

(** [bs] written at [dst]. *)
Definition write (m : space_map) (dst : Z) (bs : list Z) : space_map := λ a,
  if decide (dst ≤ a < dst + blen bs) then bs !! Z.to_nat (a - dst) else m a.

Definition fill (m : space_map) (b k : Z) : space_map := λ a, if decide (on_pages b k a) then Some 0 else m a.

Class UserEnvLaws (E : Type) {FE : FsEnv E} {FL : FsEnvLaws E} {UE : UserEnv E} := {
  (** the address spaces in use, their contents, and the budget for a page with its tables *)
  ue_roots : @fe_world E FE FL → gset Z;
  ue_mem : @fe_world E FE FL → Z → space_map;
  ue_cost : Z;
  ue_cost_nonneg : 0 ≤ ue_cost;
  ue_create_ok e : ∃ r e', ue_create_user_p4 e = Ret (r, e') ∧ fe_live e' = fe_live e ∧ fe_sectors (fe_kept e') = fe_sectors (fe_kept e) ∧
    fe_avail e - ue_cost ≤ fe_avail e' ∧ (∀ x a, x ≠ r → ue_mem (fe_kept e') x a = ue_mem (fe_kept e) x a) ∧
    ((r = 0 ∧ ue_roots (fe_kept e') = ue_roots (fe_kept e) ∧ fe_avail e < ue_cost) ∨
     (r ≠ 0 ∧ (r ∉ ue_roots (fe_kept e)) ∧ ue_roots (fe_kept e') = {[r]} ∪ ue_roots (fe_kept e) ∧ ∀ a, in_user a → ue_mem (fe_kept e') r a = None));
  (** reserving pages: all of them, or one is in use *)
  ue_alloc_ok e root va size : root ∈ ue_roots (fe_kept e) → USER_BASE ≤ va → 0 < size ≤ 2 ^ 42 → va + size ≤ 2 ^ 48 →
    let b := first_page va in let k := page_span va size in
    ∃ r e', ue_alloc_at_as root va size e = Ret (r, e') ∧ fe_live e' = fe_live e ∧ fe_sectors (fe_kept e') = fe_sectors (fe_kept e) ∧
      fe_avail e - k * ue_cost ≤ fe_avail e' ∧ ue_roots (fe_kept e') = ue_roots (fe_kept e) ∧
      (∀ x a, x ≠ root → ue_mem (fe_kept e') x a = ue_mem (fe_kept e) x a) ∧
      ((r = b * PAGE ∧ (∀ p, b ≤ p < b + k → ue_mem (fe_kept e) root (p * PAGE) = None) ∧
        ∀ a, in_user a → ue_mem (fe_kept e') root a = fill (ue_mem (fe_kept e) root) b k a) ∨
       (r = 0 ∧ (fe_avail e < k * ue_cost ∨ ∃ p, b ≤ p < b + k ∧ ue_mem (fe_kept e) root (p * PAGE) ≠ None)));
  (** writing to reserved pages; their frames are part of the budget *)
  ue_copy_ok e root dst bs : root ∈ ue_roots (fe_kept e) → 0 ≤ fe_avail e →
    (∀ a, dst ≤ a < dst + blen bs → in_user a ∧ is_Some (ue_mem (fe_kept e) root a)) →
    ∃ e', ue_copy_to_user_as root dst bs e = Ret (0, e') ∧ fe_live e' = fe_live e ∧ fe_sectors (fe_kept e') = fe_sectors (fe_kept e) ∧
      fe_avail e ≤ fe_avail e' ∧ ue_roots (fe_kept e') = ue_roots (fe_kept e) ∧
      (∀ x a, x ≠ root → ue_mem (fe_kept e') x a = ue_mem (fe_kept e) x a) ∧
      (∀ a, in_user a → ue_mem (fe_kept e') root a = write (ue_mem (fe_kept e) root) dst bs a);
  ue_zero_ok e root dst len : root ∈ ue_roots (fe_kept e) → 0 ≤ fe_avail e → 0 ≤ len →
    (∀ a, dst ≤ a < dst + len → in_user a ∧ is_Some (ue_mem (fe_kept e) root a)) →
    ∃ e', ue_zero_user_as root dst len e = Ret (0, e') ∧ fe_live e' = fe_live e ∧ fe_sectors (fe_kept e') = fe_sectors (fe_kept e) ∧
      fe_avail e ≤ fe_avail e' ∧ ue_roots (fe_kept e') = ue_roots (fe_kept e) ∧
      (∀ x a, x ≠ root → ue_mem (fe_kept e') x a = ue_mem (fe_kept e) x a) ∧
      (∀ a, in_user a → ue_mem (fe_kept e') root a = write (ue_mem (fe_kept e) root) dst (replicate (Z.to_nat len) 0) a);
  ue_destroy_ok e root : root ∈ ue_roots (fe_kept e) →
    ∃ e', ue_destroy_userspace root e = Ret (tt, e') ∧ fe_live e' = fe_live e ∧ fe_sectors (fe_kept e') = fe_sectors (fe_kept e) ∧
      fe_avail e ≤ fe_avail e' ∧ ue_roots (fe_kept e') = ue_roots (fe_kept e) ∖ {[root]} ∧
      (∀ x a, x ≠ root → ue_mem (fe_kept e') x a = ue_mem (fe_kept e) x a)
}.

(** ** The reference *)

Record segment := Segment { sg_off : Z; sg_addr : Z; sg_fsz : Z; sg_msz : Z }.

(** The program header at [pos]: [Some None] for one that is not loaded. *)
Definition seg_at (data : list Z) (pos : Z) : option (option segment) :=
  ph ← bytes_at pos 56 data;
  type ← ph_type ph;
  if type =? 1 then
    off ← ph_file_offset ph; addr ← ph_load_addr ph; fsz ← ph_file_size ph; msz ← ph_mem_size ph;
    Some (Some (Segment off addr fsz msz))
  else Some None.

(** Pages are reserved when none of them is in use. *)
Definition pages_unused (m : space_map) (b k : Z) : bool := forallb (λ p, bool_decide (m (p * PAGE) = None)) (seqZ b k).
Definition reserve (m : space_map) (va size : Z) : option space_map :=
  if pages_unused m (first_page va) (page_span va size) then Some (fill m (first_page va) (page_span va size)) else None.

(** The bytes of the file at the address, zeros behind them. *)
Definition load_seg (data : list Z) (m : space_map) (g : segment) : option space_map :=
  m ← reserve m (sg_addr g) (sg_msz g);
  if bool_decide (sg_off g + sg_fsz g ≤ blen data) then
    Some (write (write m (sg_addr g) (slice (sg_off g) (sg_fsz g) data)) (sg_addr g + sg_fsz g) (replicate (Z.to_nat (sg_msz g - sg_fsz g)) 0))
  else None.

Fixpoint load_segs (data : list Z) (num : nat) (pos sz : Z) (m : space_map) : option space_map :=
  match num with
  | O => Some m
  | S num =>
      g ← seg_at data pos;
      m ← match g with Some g => load_seg data m g | None => Some m end;
      load_segs data num (pos + sz) sz m
  end.

(** The entry point and the memory of the program, stack included. *)
Definition elf_layout (data : list Z) : option (Z * space_map) :=
  h ← bytes_at 0 64 data;
  magic ← head_magic h;
  if bool_decide (magic = [0x7F; 0x45; 0x4C; 0x46]) then
    entry ← head_prog_entry_pos h; pos ← head_prog_table_pos h; num ← head_prog_ent_num h; sz ← head_prog_ent_size h;
    m ← load_segs data (Z.to_nat num) pos sz (λ _, None);
    m ← reserve m USTACK_BASE DEFAULT_STACK_BYTES;
    Some (entry, m)
  else None.

(** The loader does not check these: segments in user space whose data starts in the
    file, and a table of headers inside it. *)
Definition seg_ok (data : list Z) (g : segment) : Prop :=
  USER_BASE ≤ sg_addr g ∧ 0 < sg_msz g ≤ 2 ^ 42 ∧ sg_addr g + sg_msz g ≤ 2 ^ 48 ∧ 0 ≤ sg_fsz g ≤ sg_msz g ∧ 0 ≤ sg_off g ≤ blen data.

Fixpoint segs_ok (data : list Z) (num : nat) (pos sz : Z) : Prop :=
  match num with
  | O => True
  | S num => match seg_at data pos with
             | Some g => match g with Some g => seg_ok data g | None => True end ∧ segs_ok data num (pos + sz) sz
             | None => True
             end
  end.

Fixpoint segs_pages (data : list Z) (num : nat) (pos sz : Z) : Z :=
  match num with
  | O => 0
  | S num => match seg_at data pos with
             | Some g => match g with Some g => page_span (sg_addr g) (sg_msz g) | None => 0 end + segs_pages data num (pos + sz) sz
             | None => 0
             end
  end.

Definition head_field (get : list Z → option Z) (data : list Z) : Z := default 0 (h ← bytes_at 0 64 data; get h).
Definition elf_ok (data : list Z) : Prop :=
  head_field head_prog_table_pos data ≤ blen data ∧ head_field head_prog_ent_size data ≤ 56 ∧
  segs_ok data (Z.to_nat (head_field head_prog_ent_num data)) (head_field head_prog_table_pos data) (head_field head_prog_ent_size data).
Definition elf_pages (data : list Z) : Z :=
  segs_pages data (Z.to_nat (head_field head_prog_ent_num data)) (head_field head_prog_table_pos data) (head_field head_prog_ent_size data).

(** ** Maps *)

Lemma write_app m dst x y a : write (write m dst x) (dst + blen x) y a = write m dst (x ++ y) a.
Proof.
  unfold write. rewrite blen_app. pose proof (blen_nonneg x). pose proof (blen_nonneg y). unfold blen in *.
  destruct (decide (dst + _ ≤ a < _)); [rewrite decide_True by lia; rewrite lookup_app_r by lia; f_equal; lia|].
  destruct (decide (dst ≤ a < dst + Z.of_nat (length x))); [rewrite decide_True by lia; by rewrite lookup_app_l by lia|].
  by rewrite decide_False by lia.
Qed.

Lemma write_nil m dst a : write m dst [] a = m a.
Proof. unfold write. rewrite decide_False; [done|]. unfold blen. cbn. lia. Qed.

Lemma write_ext m m' dst bs a : m a = m' a → write m dst bs a = write m' dst bs a.
Proof. unfold write. by intros ->. Qed.

Lemma write_some m dst bs a : is_Some (m a) → is_Some (write m dst bs a).
Proof. unfold write. intros Hm. case_decide; [|done]. apply lookup_lt_is_Some. unfold blen in *. lia. Qed.

Lemma fill_ext m m' b k a : m a = m' a → fill m b k a = fill m' b k a.
Proof. unfold fill. by intros ->. Qed.

Lemma page_span_pos va size : 0 < size → 0 < page_span va size.
Proof.
  intros. unfold page_span, PAGE. assert ((va + 4096) / 4096 ≤ (va + size + 4096 - 1) / 4096) by (apply Z.div_le_mono; lia).
  replace (va + 4096) with (va + 1 * 4096) in * by lia. rewrite Z.div_add in * by lia. lia.
Qed.

Lemma range_on_pages va size a : 0 < size → va ≤ a < va + size → on_pages (first_page va) (page_span va size) a.
Proof.
  intros. unfold on_pages, first_page, page_span, PAGE. split; [apply Z.div_le_mono; lia|].
  replace (_ + (_ - _)) with ((va + size + 4096 - 1) / 4096) by lia. apply Z.div_lt_upper_bound; [lia|].
  pose proof (Z.div_mod (va + size + 4096 - 1) 4096 ltac:(lia)). pose proof (Z.mod_pos_bound (va + size + 4096 - 1) 4096). lia.
Qed.

Lemma page_user va size p : USER_BASE ≤ va → va + size ≤ 2 ^ 48 → first_page va ≤ p < first_page va + page_span va size → in_user (p * PAGE).
Proof.
  unfold in_user, first_page, page_span, PAGE, USER_BASE. intros H1 H2 Hp.
  assert (0x100000000000 / 4096 ≤ va / 4096) by (apply Z.div_le_mono; lia). change (0x100000000000 / 4096) with 0x100000000 in *.
  assert ((va + size + 4096 - 1) / 4096 ≤ (2 ^ 48 + 4096 - 1) / 4096) by (apply Z.div_le_mono; lia). change ((2 ^ 48 + 4096 - 1) / 4096) with (2 ^ 36) in *. lia.
Qed.

Lemma pages_unused_spec m b k : pages_unused m b k = true ↔ ∀ p, b ≤ p < b + k → m (p * PAGE) = None.
Proof.
  unfold pages_unused. rewrite forallb_forall. split.
  - intros H p Hp. specialize (H p). rewrite bool_decide_eq_true in H. apply H, list_elem_of_In, elem_of_seqZ. lia.
  - intros H p Hp%list_elem_of_In%elem_of_seqZ. rewrite bool_decide_eq_true. apply H. lia.
Qed.

Section proofs.
Context {E : Type} {FE : FsEnv E} {FL : FsEnvLaws E} {UE : UserEnv E} {UL : UserEnvLaws E}.
Implicit Types (s : fss E) (e : E) (vol : volume) (m : space_map).
#[local] Abbreviation MF := (M (fss E)).

(** ** Progress on one address space *)

Definition holds e root m : Prop := ∀ a, in_user a → ue_mem (fe_kept e) root a = m a.

(** From [e] to [e'] at most [k] pages went to [root], which holds [m] now. *)
Record loading e root k m e' : Prop := {
  ld_live : fe_live e' = fe_live e;
  ld_avail : fe_avail e - k * ue_cost ≤ fe_avail e';
  ld_disk : fe_sectors (fe_kept e') = fe_sectors (fe_kept e);
  ld_roots : ue_roots (fe_kept e') = ue_roots (fe_kept e);
  ld_other x a : x ≠ root → ue_mem (fe_kept e') x a = ue_mem (fe_kept e) x a;
  ld_mem : holds e' root m
}.

Lemma loading_keeps e root m e' : keeps_env e e' → holds e root m → loading e root 0 m e'.
Proof.
  intros [K1 K2 K3] Hm. split; [done|lia|by rewrite K3|by rewrite K3|by rewrite K3|]. intros a Ha. rewrite K3. by apply Hm.
Qed.

Lemma loading_trans e1 root k1 m1 e2 k2 m2 e3 : loading e1 root k1 m1 e2 → loading e2 root k2 m2 e3 → loading e1 root (k1 + k2) m2 e3.
Proof.
  intros [A1 A2 A3 A4 A5 A6] [B1 B2 B3 B4 B5 B6]. split; [congruence|lia|congruence|congruence| |done].
  intros x a Hx. by rewrite B5, A5.
Qed.

Lemma loading_ext e root k m m' e' : loading e root k m e' → (∀ a, in_user a → m a = m' a) → loading e root k m' e'.
Proof. intros [A1 A2 A3 A4 A5 A6] Hm. split; [done..|]. intros a Ha. rewrite A6 by done. by apply Hm. Qed.

Lemma loading_weaken e root k k' m e' : k ≤ k' → loading e root k m e' → loading e root k' m e'.
Proof. intros Hk [A1 A2 A3 A4 A5 A6]. pose proof ue_cost_nonneg. split; [done|nia|done..]. Qed.

(** A block that was allocated before and is freed now. *)
Lemma kfree_loading e a n e1 root k m e2 :
  allocated e a n e1 → loading e1 root k m e2 → ∃ e3, fe_kfree a e2 = Ret (tt, e3) ∧ loading e root k m e3.
Proof.
  intros [N F L V D] [A1 A2 A3 A4 A5 A6]. destruct (fe_kfree_ok e2 a n N) as (e3 & E3 & L3 & V3 & D3); [by rewrite A1, L, lookup_insert_eq|].
  exists e3. split; [done|]. rewrite D in A3, A4, A5. split; [|lia|by rewrite D3|by rewrite D3|by rewrite D3|].
  - by rewrite L3, A1, L, delete_insert_id.
  - intros x Hx. rewrite D3. by apply A6.
Qed.

(** The pages of a range: reserved, or one of them is in use. *)
Lemma alloc_loading e root m va size :
  root ∈ ue_roots (fe_kept e) → holds e root m → USER_BASE ≤ va → 0 < size ≤ 2 ^ 42 → va + size ≤ 2 ^ 48 → page_span va size * ue_cost ≤ fe_avail e →
  ∃ r e', ue_alloc_at_as root va size e = Ret (r, e') ∧
    match reserve m va size with
    | Some m' => r = first_page va * PAGE ∧ loading e root (page_span va size) m' e'
    | None => r = 0 ∧ ∃ m', loading e root (page_span va size) m' e'
    end.
Proof.
  intros Hr Hm Hva Hsz Hend Hav. destruct (ue_alloc_ok e root va size Hr Hva Hsz Hend) as (r & e' & Er & L & D & V & R & O & Hcase).
  exists r, e'. split; [done|]. unfold reserve. destruct Hcase as [(-> & Fr & Mm)|(-> & [Hlow|(p & Hp & Hused)])]; [|lia|].
  - assert (pages_unused m (first_page va) (page_span va size) = true) as ->.
    { apply pages_unused_spec. intros p Hp. rewrite <-Hm by (by eapply page_user). by apply Fr. }
    split; [done|]. split; [done..|]. intros a Ha. rewrite Mm by done. by apply fill_ext, Hm.
  - destruct (pages_unused m (first_page va) (page_span va size)) eqn:Ep.
    { rewrite pages_unused_spec in Ep. destruct Hused. rewrite Hm by (by eapply page_user). by apply Ep. }
    split; [done|]. exists (ue_mem (fe_kept e') root). split; [done..|]. by intros a Ha.
Qed.

(** ** The open file *)

Context (s0 : fss E) (ino : Z) (n : inode) (raw : list Z) (drv : ext2_driver) (vol : volume) (spb : Z) (data : list Z) (f : Z) (ops : file_ops).
Hypothesis (Hmo : mounted s0 ino n raw drv vol spb) (Hf0 : f ≠ 0) (Hi0 : ino ≠ 0) (Hc : file_content vol spb raw (i_size n) = Some data).
Hypothesis (Hlim : i_size n ≤ double_limit spb * (spb * SECTOR)) (Hsz : 0 ≤ i_size n < 2 ^ 31).

(** The state while the file is open at [off]. *)
Definition opened (off : Z) (e : E) : fss E := set_file_at (<[f := File ino off ops]> (file_at s0)) (set_fenv e s0).

(** The disk did not change, and the file system has the memory it needs. *)
Record ready (need : Z) (e : E) : Prop := {
  rd_disk : fe_sectors (fe_kept e) = fe_sectors (fe_kept (fenv s0));
  rd_avail : need + fe_cost BOUNCE_SIZE + 2 * fe_cost (drv_block_size drv) ≤ fe_avail e
}.

Lemma data_length : blen data = i_size n.
Proof. eapply content_length; [apply Hmo|exact Hc|lia]. Qed.

Lemma opened_mounted off e need : ready need e → mounted (opened off e) ino n raw drv vol spb.
Proof. intros [Hd _]. destruct Hmo as [H1 H2 H3 H4]. split; [done..|]. apply (drv_ok_same s0); [|done]. by split_and!. Qed.

Lemma ready_keeps need e e' : keeps_env e e' → ready need e → ready need e'.
Proof. intros [K1 K2 K3] [R1 R2]. split; [by rewrite K3|lia]. Qed.

Lemma ready_loading e root k m e' need : loading e root k m e' → ready (need + k * ue_cost) e → ready need e'.
Proof. intros [A1 A2 A3 A4 A5 A6] [R1 R2]. split; [congruence|lia]. Qed.

Lemma ready_allocated e a e' need : allocated e a BOUNCE_SIZE e' → 0 ≤ need → ready need e → 
  fe_sectors (fe_kept e') = fe_sectors (fe_kept (fenv s0)) ∧ need + 2 * fe_cost (drv_block_size drv) ≤ fe_avail e'.
Proof. intros [A1 A2 A3 A4 A5] Hn [R1 R2]. split; [by rewrite A5|lia]. Qed.

Lemma read_opened off e len : fe_sectors (fe_kept e) = fe_sectors (fe_kept (fenv s0)) → 2 * fe_cost (drv_block_size drv) ≤ fe_avail e →
  0 ≤ off < 2 ^ 63 → 0 ≤ len < 2 ^ 31 →
  let l := Z.max 0 (Z.min len (blen data - off)) in
  wp (ext2_file_read f len) (opened off e) (λ r s', r = (l, slice off l data) ∧ ∃ e', s' = opened (off + l) e' ∧ keeps_env e e').
Proof.
  intros Hd Hav Hoff Hlen l. unfold l. rewrite data_length.
  eapply wp_mono; [apply (ext2_file_read_spec (opened off e) f ino off ops n raw drv vol spb data len)|]; try done.
  - destruct Hmo as [H1 H2 H3 H4]. split; [done..|]. apply (drv_ok_same s0); [|done]. by split_and!.
  - apply lookup_insert_eq.
  - lia.
  - cbv beta. intros r s' (-> & e' & -> & He). split; [done|]. exists e'. split; [|done]. unfold opened. cbn. by rewrite insert_insert_eq.
Qed.

Lemma seek_opened off e pos : 0 ≤ pos ≤ blen data → wp (ext2_file_lseek f (i32 pos)) (opened off e) (λ _ s', s' = opened pos e).
Proof.
  rewrite data_length. intros Hp. rewrite i32_small by lia. unfold ext2_file_lseek. wp_step. eapply wp_deref; [apply lookup_insert_eq|]. cbn [f_inode].
  wp_step. eapply wp_deref; [apply Hmo|]. rewrite (u32_small pos) by lia. rewrite (proj2 (Z.ltb_ge _ _)) by lia.
  wp_step. unfold set_offset. wp_step. eapply wp_deref; [apply lookup_insert_eq|]. wp_step. apply wp_ret. unfold opened. cbn. rewrite insert_insert_eq, u64_small by lia. done.
Qed.

(** ** Segments *)

Lemma copy_loading e root m dst bs : root ∈ ue_roots (fe_kept e) → holds e root m → 0 ≤ fe_avail e →
  (∀ a, dst ≤ a < dst + blen bs → in_user a ∧ is_Some (m a)) →
  ∃ e', ue_copy_to_user_as root dst bs e = Ret (0, e') ∧ loading e root 0 (write m dst bs) e'.
Proof.
  intros Hr Hm Hav Hmap. destruct (ue_copy_ok e root dst bs Hr Hav) as (e' & Er & L & D & V & R & O & Mm).
  { intros a Ha. destruct (Hmap a Ha) as [Hu Hs]. by rewrite Hm. }
  exists e'. split; [done|]. split; [done|lia|done..|]. intros a Ha. rewrite Mm by done. by apply write_ext, Hm.
Qed.

Lemma zero_loading e root m dst len : root ∈ ue_roots (fe_kept e) → holds e root m → 0 ≤ fe_avail e → 0 ≤ len →
  (∀ a, dst ≤ a < dst + len → in_user a ∧ is_Some (m a)) →
  ∃ e', ue_zero_user_as root dst len e = Ret (0, e') ∧ loading e root 0 (write m dst (replicate (Z.to_nat len) 0)) e'.
Proof.
  intros Hr Hm Hav Hlen Hmap. destruct (ue_zero_ok e root dst len Hr Hav Hlen) as (e' & Er & L & D & V & R & O & Mm).
  { intros a Ha. destruct (Hmap a Ha) as [Hu Hs]. by rewrite Hm. }
  exists e'. split; [done|]. split; [done|lia|done..|]. intros a Ha. rewrite Mm by done. by apply write_ext, Hm.
Qed.

Definition disk_same e : Prop := fe_sectors (fe_kept e) = fe_sectors (fe_kept (fenv s0)).

(** What is left of the segment: copied, or the file is too short. *)
Definition copied e root m off remaining dst (r : Z) (s' : fss E) : Prop :=
  ∃ off' e' m', s' = opened off' e' ∧ loading e root 0 m' e' ∧
    if decide (off + remaining ≤ blen data) then r = 0 ∧ ∀ a, m' a = write m dst (slice off remaining data) a else r = -1.

Lemma copy_segment_spec root fuel : ∀ off e m bounce remaining dst,
  disk_same e → 2 * fe_cost (drv_block_size drv) ≤ fe_avail e → root ∈ ue_roots (fe_kept e) → holds e root m →
  0 ≤ off ≤ blen data → 0 ≤ remaining < 2 ^ 62 → (∀ a, dst ≤ a < dst + remaining → in_user a ∧ is_Some (m a)) → 0 ≤ dst → dst + remaining < 2 ^ 63 →
  (0 < remaining → blen bounce = BOUNCE_SIZE) → (Z.to_nat remaining < fuel)%nat →
  wp (copy_segment fuel f root bounce remaining dst) (opened off e) (copied e root m off remaining dst).
Proof.
  induction fuel as [|fuel IH]; intros off e m bounce remaining dst Hd Hav Hr Hm Hoff Hrem Hmap Hdst Hend Hb Hfuel; [lia|].
  pose proof (fe_cost_nonneg (drv_block_size drv)) as C0. pose proof data_length as Hdl. cbn [copy_segment]. destruct (0 <? remaining) eqn:E0; bool_prop; cbn [negb].
  2: { assert (remaining = 0) as -> by lia. apply wp_ret. exists off, e, m. split; [done|]. split; [by apply loading_keeps|].
       rewrite Z.add_0_r, slice_nil, decide_True by lia. split; [done|]. intros a. by rewrite write_nil. }
  specialize (Hb E0). set (chunk := if BOUNCE_SIZE <? remaining then _ else _).
  assert (0 < chunk ≤ remaining ∧ chunk ≤ BOUNCE_SIZE) as [Hch1 Hch2].
  { unfold chunk, BOUNCE_SIZE. destruct (4096 <? remaining) eqn:Ec; bool_prop; [|rewrite i32_small by lia]; lia. }
  clearbody chunk. unfold BOUNCE_SIZE in *. wp_step. eapply wp_mono; [apply (read_opened off e chunk Hd Hav); lia|].
  cbv beta zeta. intros r s' (-> & e1 & -> & K1). cbn [Datatypes.fst Datatypes.snd].
  destruct (decide (off + chunk ≤ blen data)) as [Hin|Hout].
  2: { rewrite (proj2 (Z.eqb_neq _ chunk)) by lia. apply wp_ret. eexists _, e1, m. split; [done|]. split; [by apply loading_keeps|]. by rewrite decide_False by lia. }
  rewrite Z.min_l, Z.max_r by lia. rewrite Z.eqb_refl. cbn [negb].
  assert (blen (slice off chunk data) = chunk) as Hbl by (apply blen_slice; lia).
  wp_step. eapply wp_get_some.
  { unfold bytes_at. rewrite bool_decide_true; [reflexivity|]. rewrite blen_splice; lia. }
  assert (slice 0 chunk (splice 0 (slice off chunk data) bounce) = slice off chunk data) as ->.
  { rewrite <-Hbl at 1. apply slice_splice. lia. }
  pose proof (loading_keeps e root m e1 K1 Hm) as L1. destruct (copy_loading e1 root m dst (slice off chunk data)) as (e2 & E2 & L2).
  - by rewrite (ld_roots _ _ _ _ _ L1).
  - apply L1.
  - pose proof (kv_avail _ _ K1). lia.
  - intros a Ha. apply Hmap. lia.
  - pose proof (loading_trans _ _ _ _ _ _ _ _ L1 L2) as L02. wp_step. eapply wp_fcall; [exact E2|]. cbn [Z.ltb Z.compare].
    rewrite !u64_small by lia. change (set_fenv e2 (opened (off + chunk) e1)) with (opened (off + chunk) e2).
    eapply wp_mono; [apply (IH (off + chunk) e2 (write m dst (slice off chunk data))); try lia|].
    + unfold disk_same. by rewrite (ld_disk _ _ _ _ _ L02).
    + pose proof (ld_avail _ _ _ _ _ L02). lia.
    + by rewrite (ld_roots _ _ _ _ _ L02).
    + apply L2.
    + intros a Ha. destruct (Hmap a) as [? ?]; [lia|]. split; [done|by apply write_some].
    + intros _. rewrite blen_splice; lia.
    + cbv beta. intros r s' (off' & e' & m' & -> & L3 & Hres). exists off', e', m'. split; [done|]. split; [apply (loading_trans _ _ _ _ _ _ _ _ L02 L3)|].
      replace (off + chunk + (remaining - chunk)) with (off + remaining) in Hres by lia. destruct (decide (off + remaining ≤ blen data)); [|done].
      destruct Hres as [-> Hres]. split; [done|]. intros a. rewrite Hres. rewrite <-Hbl at 2. rewrite write_app. f_equal. rewrite slice_app by lia. f_equal. lia.
Qed.

Definition seg_fields (ph : list Z) (g : segment) : Prop :=
  ph_load_addr ph = Some (sg_addr g) ∧ ph_mem_size ph = Some (sg_msz g) ∧ ph_file_size ph = Some (sg_fsz g) ∧ ph_file_offset ph = Some (sg_off g).

(** The result of a step that should turn [m] into [ref]. *)
Definition stepped e root k (ref : option space_map) (r : Z) (s' : fss E) : Prop :=
  ∃ off' e' m', s' = opened off' e' ∧ loading e root k m' e' ∧
    match ref with Some m2 => r = 0 ∧ ∀ a, in_user a → m' a = m2 a | None => r = -1 end.

Lemma fill_some m va size a : 0 < size → va ≤ a < va + size → fill m (first_page va) (page_span va size) a = Some 0.
Proof. intros H0 Ha. unfold fill. by rewrite decide_True by (by apply range_on_pages). Qed.

(** The second half of [elf_load_segment], with the pages reserved and the bounce buffer at [a]. *)
Lemma fill_segment_spec root e m g a bounce off :
  disk_same e → 2 * fe_cost (drv_block_size drv) ≤ fe_avail e → root ∈ ue_roots (fe_kept e) → holds e root m →
  seg_ok data g → (∀ x, sg_addr g ≤ x < sg_addr g + sg_msz g → is_Some (m x)) → off = sg_off g → (0 < sg_fsz g → blen bounce = BOUNCE_SIZE) →
  (∀ e1 m1, loading e root 0 m1 e1 → ∃ e2, fe_kfree a e1 = Ret (tt, e2)) →
  wp (r <- copy_segment (S (Z.to_nat (sg_fsz g))) f root bounce (sg_fsz g) (sg_addr g) ;;
      if r <? 0 then fcall (fe_kfree a) ;; ret (-1) else
      z <- (if sg_fsz g <? sg_msz g then fcall (ue_zero_user_as root (u64 (sg_addr g + sg_fsz g)) (u64 (sg_msz g - sg_fsz g))) else ret 0) ;;
      if z <? 0 then fcall (fe_kfree a) ;; ret (-1) else
      fcall (fe_kfree a) ;;
      ret 0) (opened off e)
    (λ r s', ∃ off' e1 e2 m', s' = opened off' e2 ∧ loading e root 0 m' e1 ∧ fe_kfree a e1 = Ret (tt, e2) ∧
       if decide (sg_off g + sg_fsz g ≤ blen data) then
         r = 0 ∧ ∀ x, m' x = write (write m (sg_addr g) (slice (sg_off g) (sg_fsz g) data)) (sg_addr g + sg_fsz g) (replicate (Z.to_nat (sg_msz g - sg_fsz g)) 0) x
       else r = -1).
Proof.
  intros Hd Hav Hr Hm (G1 & G2 & G3 & G4 & G5) Hmap -> Hb Hfree. pose proof (fe_cost_nonneg (drv_block_size drv)) as C0. pose proof data_length as Hdl.
  assert (∀ x, sg_addr g ≤ x < sg_addr g + sg_msz g → in_user x) as Huser by (unfold in_user, USER_BASE in *; lia). unfold USER_BASE in G1.
  wp_step. eapply wp_mono; [apply (copy_segment_spec root _ (sg_off g) e m); try done; try lia|].
  { intros x Hx. split; [apply Huser|apply Hmap]; lia. }
  cbv beta. intros r s' (off' & e1 & m1 & -> & L1 & Hres). destruct (decide (sg_off g + sg_fsz g ≤ blen data)) as [Hin|Hout].
  2: { subst r. cbn [Z.ltb Z.compare]. destruct (Hfree e1 m1 L1) as (e2 & E2). wp_step. eapply wp_fcall; [exact E2|]. apply wp_ret.
       exists off', e1, e2, m1. by split_and!. }
  destruct Hres as [-> Hm1]. cbn [Z.ltb Z.compare]. rewrite !u64_small by lia.
  assert (∃ e2 m2, wp (if sg_fsz g <? sg_msz g then fcall (ue_zero_user_as root (sg_addr g + sg_fsz g) (sg_msz g - sg_fsz g)) else ret 0) (opened off' e1)
      (λ z s', z = 0 ∧ s' = opened off' e2) ∧ loading e root 0 m2 e2 ∧
      ∀ x, m2 x = write m1 (sg_addr g + sg_fsz g) (replicate (Z.to_nat (sg_msz g - sg_fsz g)) 0) x) as (e2 & m2 & Hz & L2 & Hm2).
  { destruct (sg_fsz g <? sg_msz g) eqn:Ez; bool_prop.
    - destruct (zero_loading e1 root m1 (sg_addr g + sg_fsz g) (sg_msz g - sg_fsz g)) as (e2 & E2 & L2).
      + by rewrite (ld_roots _ _ _ _ _ L1).
      + apply L1.
      + pose proof (ld_avail _ _ _ _ _ L1). lia.
      + lia.
      + intros x Hx. split; [apply Huser; lia|]. rewrite Hm1. apply write_some, Hmap. lia.
      + exists e2. eexists. split; [eapply wp_fcall; [exact E2|done]|]. split; [apply (loading_trans _ _ _ _ _ _ _ _ L1 L2)|done].
    - exists e1, m1. split; [by apply wp_ret|]. split; [done|]. replace (sg_msz g - sg_fsz g) with 0 by lia. intros x. by rewrite write_nil. }
  wp_step. eapply wp_mono; [exact Hz|]. cbv beta. intros z s' [-> ->]. cbn [Z.ltb Z.compare]. destruct (Hfree e2 m2 L2) as (e3 & E3).
  wp_step. eapply wp_fcall; [exact E3|]. apply wp_ret. exists off', e2, e3, m2. split_and!; [done..|]. intros x. rewrite Hm2. by apply write_ext.
Qed.

Lemma elf_load_segment_spec root e m g ph off :
  disk_same e → page_span (sg_addr g) (sg_msz g) * ue_cost + fe_cost BOUNCE_SIZE + 2 * fe_cost (drv_block_size drv) ≤ fe_avail e →
  root ∈ ue_roots (fe_kept e) → holds e root m → seg_ok data g → seg_fields ph g →
  wp (elf_load_segment f ph root) (opened off e) (stepped e root (page_span (sg_addr g) (sg_msz g)) (load_seg data m g)).
Proof.
  intros Hd Hav Hr Hm Hg (F1 & F2 & F3 & F4). pose proof Hg as (G1 & G2 & G3 & G4 & G5).
  pose proof (fe_cost_nonneg (drv_block_size drv)) as C0. pose proof (fe_cost_nonneg BOUNCE_SIZE) as C1. pose proof ue_cost_nonneg as C2.
  unfold elf_load_segment. rewrite F1, F2, F3, F4. do 4 (wp_step; eapply wp_get_some; [reflexivity|]).
  destruct (alloc_loading e root m (sg_addr g) (sg_msz g) Hr Hm G1 G2 G3 ltac:(lia)) as (r & e1 & E1 & Hcase).
  wp_step. eapply wp_fcall; [exact E1|]. change (set_fenv e1 (opened off e)) with (opened off e1). unfold load_seg.
  destruct (reserve m (sg_addr g) (sg_msz g)) as [m1|] eqn:Hres.
  2: { destruct Hcase as (-> & m' & L). cbn [Z.eqb]. apply wp_ret. exists off, e1, m'. by split_and!. }
  destruct Hcase as (-> & L1). cbn [mbind option_bind].
  assert (first_page (sg_addr g) * PAGE ≠ 0) as Hn0.
  { unfold first_page, PAGE, USER_BASE in *. assert (0x100000000000 / 4096 ≤ sg_addr g / 4096) as Hx by (apply Z.div_le_mono; lia). change (0x100000000000 / 4096) with 0x100000000 in Hx. lia. }
  rewrite (proj2 (Z.eqb_neq _ 0)) by done. wp_step. eapply wp_mono; [apply seek_opened; lia|]. cbv beta. intros _ s' ->.
  assert (∀ x, sg_addr g ≤ x < sg_addr g + sg_msz g → is_Some (m1 x)) as Hmap.
  { intros x Hx. unfold reserve in Hres. destruct (pages_unused _ _ _); [|done]. injection Hres as <-. rewrite fill_some by lia. eauto. }
  pose proof (ld_avail _ _ _ _ _ L1) as V1. assert (disk_same e1) as D1 by (unfold disk_same; by rewrite (ld_disk _ _ _ _ _ L1)).
  assert (root ∈ ue_roots (fe_kept e1)) as R1 by (by rewrite (ld_roots _ _ _ _ _ L1)).
  destruct (0 <? sg_fsz g) eqn:Ef; bool_prop; cbn [andb]; wp_step.
  - apply kmalloc_buf_spec; [done|cbn; lia|]. intros a bounce e2 Ha Hb. cbn [Datatypes.fst Datatypes.snd]. rewrite (proj2 (Z.eqb_neq a 0)) by apply Ha.
    cbn [fenv opened set_file_at set_fenv] in Ha. change (set_fenv e2 (opened (sg_off g) e1)) with (opened (sg_off g) e2).
    assert (fe_kept e2 = fe_kept e1) as K2 by apply Ha. pose proof (al_avail _ _ _ _ Ha) as V2.
    eapply wp_mono; [apply (fill_segment_spec root e2 m1 g a bounce (sg_off g)); try done|].
    + unfold disk_same. by rewrite K2.
    + lia.
    + by rewrite K2.
    + intros x Hx. rewrite K2. by apply (ld_mem _ _ _ _ _ L1).
    + intros e3 m3 L3. destruct (kfree_loading _ _ _ _ _ _ _ _ Ha L3) as (e4 & E4 & _). eauto.
    + cbv beta. intros r s' (off' & e3 & e4 & m' & -> & L3 & E4 & Hres').
      destruct (kfree_loading _ _ _ _ _ _ _ _ Ha L3) as (e4' & E4' & L4). assert (e4' = e4) as -> by congruence.
      exists off', e4, m'. split; [done|]. split; [rewrite <-(Z.add_0_r (page_span _ _)); by eapply loading_trans|].
      destruct (decide _); [rewrite bool_decide_true by done|by rewrite bool_decide_false by done]. destruct Hres' as [-> Hx]. split; [done|]. intros x _. apply Hx.
  - apply wp_ret. cbn [Datatypes.fst Datatypes.snd].
    eapply wp_mono; [apply (fill_segment_spec root e1 m1 g 0 [] (sg_off g)); try done|].
    + lia.
    + apply L1.
    + lia.
    + intros e3 m3 L3. exists e3. apply fe_kfree_null.
    + cbv beta. intros r s' (off' & e3 & e4 & m' & -> & L3 & E4 & Hres'). rewrite fe_kfree_null in E4. injection E4 as <-.
      exists off', e3, m'. split; [done|]. split; [rewrite <-(Z.add_0_r (page_span _ _)); by eapply loading_trans|].
      destruct (decide _); [rewrite bool_decide_true by done|by rewrite bool_decide_false by done]. destruct Hres' as [-> Hx]. split; [done|]. intros x _. apply Hx.
Qed.

Lemma stepped_inv e root k ref r s' : stepped e root k ref r s' →
  ∃ off' e', s' = opened off' e' ∧ match ref with Some m2 => r = 0 ∧ loading e root k m2 e' | None => r = -1 ∧ ∃ m', loading e root k m' e' end.
Proof.
  intros (off' & e' & m' & -> & L & Hr). exists off', e'. split; [done|]. destruct ref as [m2|]; [|by eauto].
  destruct Hr as [-> Hx]. split; [done|]. by eapply loading_ext.
Qed.

Lemma stepped_trans e root k1 m1 e1 k2 ref r s' : loading e root k1 m1 e1 → stepped e1 root k2 ref r s' → stepped e root (k1 + k2) ref r s'.
Proof. intros L (off' & e' & m' & -> & L' & Hr). exists off', e', m'. split; [done|]. split; [by eapply loading_trans|done]. Qed.

Lemma seg_at_inv pos g : seg_at data pos = Some g → ∃ type, pos + 56 ≤ blen data ∧ ph_type (slice pos 56 data) = Some type ∧
  match g with Some g => type = 1 ∧ seg_fields (slice pos 56 data) g | None => type ≠ 1 end.
Proof.
  unfold seg_at, bytes_at. case_bool_decide; [|done]. cbn [mbind option_bind]. intros (type & Ht & Hg)%bind_Some. exists type. split; [lia|]. split; [done|].
  destruct (type =? 1) eqn:E1; bool_prop; [|by injection Hg as <-]. apply bind_Some in Hg as (o & Ho & Hg). apply bind_Some in Hg as (a & Ha & Hg).
  apply bind_Some in Hg as (x & Hx & Hg). apply bind_Some in Hg as (y & Hy & [= <-]). by split_and!.
Qed.

(** Every program header in the file can be decoded. *)
Lemma seg_at_some pos : 0 ≤ pos → pos + 56 ≤ blen data → is_Some (seg_at data pos).
Proof.
  intros H0 H1. unfold seg_at, bytes_at. rewrite bool_decide_true by lia. cbn [mbind option_bind]. assert (blen (slice pos 56 data) = 56) as Hl by (apply blen_slice; lia).
  unfold ph_type, ph_file_offset, ph_load_addr, ph_file_size, ph_mem_size. rewrite !field_some by lia. cbn [mbind option_bind]. destruct (_ =? 1); eauto.
Qed.

Lemma segs_pages_nonneg num : ∀ pos sz, segs_ok data num pos sz → 0 ≤ segs_pages data num pos sz.
Proof.
  induction num as [|num IH]; intros pos sz Hok; [done|]. cbn in *. destruct (seg_at data pos) as [[g|]|]; [| |done].
  - destruct Hok as [(G1 & G2 & _) Hok]. specialize (IH _ _ Hok). pose proof (page_span_pos (sg_addr g) (sg_msz g)). lia.
  - destruct Hok as [_ Hok]. specialize (IH _ _ Hok). lia.
Qed.

Lemma load_headers_spec root sz num : 0 ≤ sz ≤ 56 → ∀ off e m pos ph,
  disk_same e → segs_pages data num pos sz * ue_cost + fe_cost BOUNCE_SIZE + 2 * fe_cost (drv_block_size drv) ≤ fe_avail e →
  root ∈ ue_roots (fe_kept e) → holds e root m → segs_ok data num pos sz → 0 ≤ pos ≤ blen data → blen ph = 56 →
  wp (load_headers num f root sz pos ph) (opened off e) (stepped e root (segs_pages data num pos sz) (load_segs data num pos sz m)).
Proof.
  intros Hsz1. induction num as [|num IH]; intros off e m pos ph Hd Hav Hr Hm Hok Hpos Hph.
  { apply wp_ret. exists off, e, m. split; [done|]. split; [by apply loading_keeps|done]. }
  pose proof (fe_cost_nonneg (drv_block_size drv)) as C0. pose proof (fe_cost_nonneg BOUNCE_SIZE) as C1. pose proof ue_cost_nonneg as C2. pose proof data_length as Hdl.
  pose proof (segs_pages_nonneg _ _ _ Hok) as Hpg. cbn [load_headers]. wp_step. eapply wp_mono; [by apply seek_opened|]. cbv beta. intros _ s' ->.
  unfold ELF64_PROG_HEAD_SIZE. wp_step. eapply wp_mono; [apply (read_opened pos e 56 Hd); nia|]. cbv beta zeta. intros r s' (-> & e1 & -> & K1). cbn [Datatypes.fst Datatypes.snd].
  cbn [load_segs segs_pages segs_ok] in *. destruct (decide (pos + 56 ≤ blen data)) as [Hin|Hout].
  2: { assert (seg_at data pos = None) as -> by (unfold seg_at, bytes_at; by rewrite bool_decide_false by lia).
       rewrite (u64_small (Z.max _ _)) by lia. rewrite (proj2 (Z.eqb_neq _ 56)) by lia. apply wp_ret. eexists _, e1, m. split; [done|]. split; [by apply loading_keeps|done]. }
  rewrite Z.min_l, Z.max_r by lia. change (u64 56 =? 56) with true. cbn [negb].
  rewrite splice_full by (rewrite blen_slice; lia). destruct (seg_at_some pos ltac:(lia) Hin) as [g Hg]. rewrite Hg in *.
  destruct (seg_at_inv pos g Hg) as (type & _ & Ht & Hty). wp_step. eapply wp_get_some; [exact Ht|]. destruct Hok as [Hok1 Hok2].
  pose proof (segs_pages_nonneg _ _ _ Hok2) as Hpg2. pose proof (loading_keeps e root m e1 K1 Hm) as L1. pose proof (kv_avail _ _ K1) as V1.
  assert (disk_same e1) as D1 by (unfold disk_same; by rewrite (ld_disk _ _ _ _ _ L1)).
  set (k := match g with Some g => page_span (sg_addr g) (sg_msz g) | None => 0 end) in *.
  assert (wp (if type =? 1 then elf_load_segment f (slice pos 56 data) root else ret 0) (opened (pos + 56) e1)
    (stepped e1 root k (match g with Some g => load_seg data m g | None => Some m end))) as Hstep.
  { destruct g as [g|].
    - destruct Hty as [-> Hty]. cbn [Z.eqb Pos.eqb]. apply elf_load_segment_spec; try done; [unfold k in Hav; nia|by rewrite (ld_roots _ _ _ _ _ L1)|apply L1].
    - rewrite (proj2 (Z.eqb_neq type 1)) by done. apply wp_ret. exists (pos + 56), e1, m. split; [done|]. split; [|done]. apply loading_keeps; [done|apply L1]. }
  wp_step. eapply wp_mono; [exact Hstep|]. cbv beta. intros r s' (off' & e2 & -> & Hres)%stepped_inv. cbn [mbind option_bind].
  destruct (match g with Some g => load_seg data m g | None => Some m end) as [m2|].
  - destruct Hres as [-> L2]. cbn [Z.ltb Z.compare]. rewrite u64_small by lia. pose proof (loading_trans _ _ _ _ _ _ _ _ L1 L2) as L12.
    pose proof (ld_avail _ _ _ _ _ L12) as V2. eapply wp_mono; [apply (IH off' e2 m2); try done|].
    + unfold disk_same. by rewrite (ld_disk _ _ _ _ _ L12).
    + lia.
    + by rewrite (ld_roots _ _ _ _ _ L12).
    + apply L2.
    + lia.
    + apply blen_slice; lia.
    + intros r s' Hs. apply (stepped_trans _ _ _ _ _ _ _ _ _ L12 Hs).
  - destruct Hres as [-> (m' & L2)]. cbn [Z.ltb Z.compare]. apply wp_ret. exists off', e2, m'. split; [done|]. split; [|done].
    eapply loading_weaken, (loading_trans _ _ _ _ _ _ _ _ L1 L2). lia.
Qed.
End proofs.
