(* ===== verification/ElfTheorems.v ===== *)
(** * Loading a program

    [elf_load_program] finds the file, reads it and builds the address space that the
    reference [elf_layout] describes, or answers -1 and takes everything back. *)

From stdpp Require Import strings.
From S2P Require Import Prelude Bytes Vfs Ext2 Ext2Proofs Ext2File Ext2Read Ext2Inode Ext2Dir Ext2Lookup FsExample Kernel Elf64 ElfProofs.

(** The header, when it is one. *)
Definition elf_header (data : list Z) : option (list Z) :=
  h ← bytes_at 0 64 data; magic ← head_magic h; if bool_decide (magic = [0x7F; 0x45; 0x4C; 0x46]) then Some h else None.

Section theorems.
Context {E : Type} {FE : FsEnv E} {FL : FsEnvLaws E} {UE : UserEnv E} {UL : UserEnvLaws E}.
Implicit Types (s : fss E) (e : E) (vol : volume) (m : space_map).

(** What the call answers and leaves behind in the virtual memory manager. *)
Definition outcome e0 (ref : option (Z * space_map)) (r : Z * elf_image) e' : Prop :=
  fe_sectors (fe_kept e') = fe_sectors (fe_kept e0) ∧
  match ref with
  | Some (entry, m) => ∃ root, r = (0, Image root entry USTACK_BASE (USTACK_BASE + DEFAULT_STACK_BYTES)) ∧ root ≠ 0 ∧ (root ∉ ue_roots (fe_kept e0)) ∧
      ue_roots (fe_kept e') = {[root]} ∪ ue_roots (fe_kept e0) ∧ (∀ x a, x ≠ root → ue_mem (fe_kept e') x a = ue_mem (fe_kept e0) x a) ∧ holds e' root m
  | None => r = (-1, zero_image) ∧ ue_roots (fe_kept e') = ue_roots (fe_kept e0) ∧ ∀ x a, x ∈ ue_roots (fe_kept e0) → ue_mem (fe_kept e') x a = ue_mem (fe_kept e0) x a
  end.

Section file.
Context (s0 : fss E) (ino : Z) (n : inode) (raw : list Z) (drv : ext2_driver) (vol : volume) (spb : Z) (data : list Z) (f : Z) (ops : file_ops).
Hypothesis (Hmo : mounted s0 ino n raw drv vol spb) (Hf0 : f ≠ 0) (Hi0 : ino ≠ 0) (Hc : file_content vol spb raw (i_size n) = Some data).
Hypothesis (Hlim : i_size n ≤ double_limit spb * (spb * SECTOR)) (Hsz : 0 ≤ i_size n < 2 ^ 31).
#[local] Abbreviation opened := (opened s0 ino f ops).
#[local] Abbreviation disk_same := (disk_same s0).

Lemma elf_read_header_spec e : disk_same e → 2 * fe_cost (drv_block_size drv) ≤ fe_avail e →
  wp (elf_read_header f (replicate 64 0)) (opened 0 e) (λ r s', ∃ off e', s' = opened off e' ∧ keeps_env e e' ∧
    match elf_header data with Some h => r = (0, h) | None => r.1 = -1 end).
Proof.
  intros Hd Hav. pose proof (data_length s0 ino n raw drv vol spb data Hmo Hc Hsz) as Hdl. unfold elf_read_header, ELF64_HEAD_SIZE.
  wp_step. eapply wp_mono; [by apply (read_opened s0 ino n raw drv vol spb data f ops Hmo Hf0 Hi0 Hc Hlim Hsz 0 e 64 Hd Hav)|].
  cbv beta zeta. intros r s' (-> & e' & -> & K). cbn [Datatypes.fst Datatypes.snd]. unfold elf_header, bytes_at at 1.
  destruct (decide (64 ≤ blen data)) as [Hin|Hout].
  2: { rewrite bool_decide_false by lia. rewrite (u64_small (Z.max _ _)) by lia. rewrite (proj2 (Z.eqb_neq _ 64)) by lia. apply wp_ret. by eexists _, e'. }
  rewrite bool_decide_true by lia. cbn [mbind option_bind]. rewrite Z.min_l, Z.max_r by lia. change (u64 64 =? 64) with true. cbn [negb].
  assert (blen (slice 0 64 data) = 64) as Hl by (apply blen_slice; lia). rewrite splice_full by done.
  assert (head_magic (slice 0 64 data) = Some (slice 0 4 (slice 0 64 data))) as Hmag by (unfold head_magic, bytes_at; by rewrite bool_decide_true by lia).
  rewrite Hmag. cbn [mbind option_bind]. wp_step. eapply wp_get_some; [reflexivity|]. case_bool_decide; cbn [negb]; apply wp_ret; by eexists _, e'.
Qed.

(** Every header that is one has all its fields. *)
Lemma elf_header_fields h : elf_header data = Some h → bytes_at 0 64 data = Some h ∧ ∃ entry pos num sz,
  head_prog_entry_pos h = Some entry ∧ head_prog_table_pos h = Some pos ∧ head_prog_ent_num h = Some num ∧ head_prog_ent_size h = Some sz ∧
  head_field head_prog_table_pos data = pos ∧ head_field head_prog_ent_num data = num ∧ head_field head_prog_ent_size data = sz.
Proof.
  unfold elf_header, head_field. intros (h' & Hb & (magic & _ & Hm)%bind_Some)%bind_Some. case_bool_decide; [|done]. injection Hm as ->. split; [done|]. rewrite Hb. cbn [mbind option_bind].
  assert (blen h = 64) as Hl. { unfold bytes_at in Hb. case_bool_decide; [|done]. injection Hb as <-. apply blen_slice; lia. }
  unfold head_prog_entry_pos, head_prog_table_pos, head_prog_ent_num, head_prog_ent_size. rewrite !field_some by lia. by eexists _, _, _, _.
Qed.

Lemma elf_layout_eq h entry pos num sz : elf_header data = Some h →
  head_prog_entry_pos h = Some entry → head_prog_table_pos h = Some pos → head_prog_ent_num h = Some num → head_prog_ent_size h = Some sz →
  elf_layout data = (m ← load_segs data (Z.to_nat num) pos sz (λ _, None); m ← reserve m USTACK_BASE DEFAULT_STACK_BYTES; Some (entry, m)).
Proof.
  unfold elf_header, elf_layout. intros (h' & -> & (magic & Hm & Hh)%bind_Some)%bind_Some E1 E2 E3 E4. cbn [mbind option_bind] in *.
  case_bool_decide as Hmag; [|done]. injection Hh as ->. rewrite Hm. cbn [mbind option_bind]. rewrite bool_decide_true by done. by rewrite E1, E2, E3, E4.
Qed.

Lemma elf_layout_none : elf_header data = None → elf_layout data = None.
Proof.
  unfold elf_header, elf_layout. destruct (bytes_at 0 64 data) as [h|]; [|done]. cbn [mbind option_bind]. destruct (head_magic h) as [magic|]; [|done]. cbn [mbind option_bind]. by case_bool_decide.
Qed.

(** ** The end of the call *)

Definition closed e : fss E := set_file_at (delete f (file_at s0)) (set_fenv e s0).

Lemma out_close_spec off e r im : fe_live e !! f = Some FILE_SIZE →
  wp (out_close f r im) (opened off e) (λ x s', x = (r, im) ∧ ∃ e', s' = closed e' ∧ fe_live e' = delete f (fe_live e) ∧ fe_kept e' = fe_kept e).
Proof.
  intros Hl. destruct (fe_kfree_ok e f FILE_SIZE Hf0 Hl) as (e' & E1 & L1 & _ & D1). unfold out_close, ext2_file_close.
  rewrite (proj2 (Z.eqb_neq f 0)) by done. unfold kfree_node. wp_step. wp_step. wp_step. eapply wp_fcall; [exact E1|]. wp_step. wp_step. apply wp_ret. split; [done|].
  exists e'. split; [|done]. unfold closed. cbn. by rewrite delete_insert_eq.
Qed.

Definition load_done e0 (ref : option (Z * space_map)) (r : Z * elf_image) e' : Prop := fe_live e' = fe_live e0 ∧ outcome e0 ref r e'.

(** A new address space [root], of which [m] is known. *)
Record created e root m e' : Prop := {
  cr_root : root ≠ 0 ∧ root ∉ ue_roots (fe_kept e);
  cr_live : fe_live e' = fe_live e;
  cr_disk : fe_sectors (fe_kept e') = fe_sectors (fe_kept e);
  cr_roots : ue_roots (fe_kept e') = {[root]} ∪ ue_roots (fe_kept e);
  cr_other x a : x ≠ root → ue_mem (fe_kept e') x a = ue_mem (fe_kept e) x a;
  cr_mem : holds e' root m
}.

Lemma created_loading e root m e' k m' e'' : created e root m e' → loading e' root k m' e'' → created e root m' e''.
Proof. intros [C1 C2 C3 C4 C5 C6] [A1 A2 A3 A4 A5 A6]. split; [done|congruence..| |done]. intros x a Hx. by rewrite A5, C5. Qed.

(** The exits behind the creation of the address space. *)
Lemma out_destroy_spec e1 off root m e :
  allocated (fenv s0) f FILE_SIZE e1 → created e1 root m e →
  wp (out_destroy f root zero_image) (opened off e) (λ r s', ∃ e', s' = closed e' ∧ load_done (fenv s0) None r e').
Proof.
  intros Ha [[C0 C1] C2 C3 C4 C5 C6]. unfold out_destroy. rewrite (proj2 (Z.eqb_neq root 0)) by done.
  destruct (ue_destroy_ok e root) as (e2 & E2 & L2 & D2 & V2 & R2 & O2); [set_solver|].
  wp_step. eapply wp_fcall; [exact E2|]. change (set_fenv e2 (opened off e)) with (opened off e2).
  assert (fe_kept e1 = fe_kept (fenv s0)) as K by apply Ha. rewrite K in *.
  eapply wp_mono; [apply out_close_spec; by rewrite L2, C2, (al_live _ _ _ _ Ha), lookup_insert_eq|].
  cbv beta. intros r s' (-> & e' & -> & Le & Ke). exists e'. split; [done|]. unfold load_done, outcome. rewrite Ke. split.
  { by rewrite Le, L2, C2, (al_live _ _ _ _ Ha), delete_insert_id by apply Ha. }
  split; [congruence|]. split; [done|]. split; [rewrite R2, C4; set_solver|]. intros x a Hx. rewrite O2, C5 by set_solver. done.
Qed.

Lemma out_success_spec e1 off root m e entry :
  allocated (fenv s0) f FILE_SIZE e1 → created e1 root m e →
  wp (out_close f 0 (Image root entry USTACK_BASE (USTACK_BASE + DEFAULT_STACK_BYTES))) (opened off e)
    (λ r s', ∃ e', s' = closed e' ∧ load_done (fenv s0) (Some (entry, m)) r e').
Proof.
  intros Ha [[C0 C1] C2 C3 C4 C5 C6]. assert (fe_kept e1 = fe_kept (fenv s0)) as K by apply Ha. rewrite K in *.
  eapply wp_mono; [apply out_close_spec; by rewrite C2, (al_live _ _ _ _ Ha), lookup_insert_eq|].
  cbv beta. intros r s' (-> & e' & -> & Le & Ke). exists e'. split; [done|]. unfold load_done, outcome, holds. rewrite Ke. split.
  { by rewrite Le, C2, (al_live _ _ _ _ Ha), delete_insert_id by apply Ha. }
  split; [done|]. exists root. by split_and!.
Qed.

Lemma out_early_spec e1 off e :
  allocated (fenv s0) f FILE_SIZE e1 → keeps_env e1 e →
  wp (out_close f (-1) zero_image) (opened off e) (λ r s', ∃ e', s' = closed e' ∧ load_done (fenv s0) None r e').
Proof.
  intros Ha [K1 K2 K3]. assert (fe_kept e1 = fe_kept (fenv s0)) as K by apply Ha.
  eapply wp_mono; [apply out_close_spec; by rewrite K1, (al_live _ _ _ _ Ha), lookup_insert_eq|].
  cbv beta. intros r s' (-> & e' & -> & Le & Ke). exists e'. split; [done|]. unfold load_done, outcome. rewrite Ke, K3, K. split; [|done].
  by rewrite Le, K1, (al_live _ _ _ _ Ha), delete_insert_id by apply Ha.
Qed.

(** ** From the open file on *)

Lemma stack_spec e root m off : root ∈ ue_roots (fe_kept e) → holds e root m → 2 * ue_cost ≤ fe_avail e →
  wp (elf_alloc_user_stack zero_image root) (opened off e) (λ r s', ∃ e', s' = opened off e' ∧
    match reserve m USTACK_BASE DEFAULT_STACK_BYTES with
    | Some m' => r = (0, Image 0 0 USTACK_BASE (USTACK_BASE + DEFAULT_STACK_BYTES)) ∧ loading e root 2 m' e'
    | None => r = (-1, zero_image) ∧ ∃ m', loading e root 2 m' e'
    end).
Proof.
  intros Hr Hm Hav. unfold elf_alloc_user_stack. change (2 * ue_cost) with (page_span USTACK_BASE DEFAULT_STACK_BYTES * ue_cost) in Hav.
  destruct (alloc_loading e root m USTACK_BASE DEFAULT_STACK_BYTES Hr Hm) as (r & e' & E1 & Hcase); [done|done|done|done|].
  wp_step. eapply wp_fcall; [exact E1|]. change (page_span USTACK_BASE DEFAULT_STACK_BYTES) with 2 in Hcase.
  destruct (reserve m USTACK_BASE DEFAULT_STACK_BYTES) as [m'|].
  - destruct Hcase as [-> L]. apply wp_ret. by exists e'.
  - destruct Hcase as (-> & m' & L). apply wp_ret. exists e'. split; [done|]. split; [done|]. by exists m'.
Qed.

Lemma elf_load_opened_spec e1 ph :
  allocated (fenv s0) f FILE_SIZE e1 → elf_ok data → blen ph = 56 → 0 ≤ head_field head_prog_table_pos data → 0 ≤ head_field head_prog_ent_size data →
  (3 + elf_pages data) * ue_cost + fe_cost BOUNCE_SIZE + 2 * fe_cost (drv_block_size drv) ≤ fe_avail e1 →
  wp (elf_load_opened f ph) (opened 0 e1) (λ r s', ∃ e', s' = closed e' ∧ load_done (fenv s0) (elf_layout data) r e').
Proof.
  intros Ha (O1 & O2 & O3) Hph P1 P2 Hav. pose proof (fe_cost_nonneg (drv_block_size drv)) as C0. pose proof (fe_cost_nonneg BOUNCE_SIZE) as C1. pose proof ue_cost_nonneg as C2.
  pose proof (segs_pages_nonneg data _ _ _ O3) as Hpg. fold (elf_pages data) in Hpg.
  assert (disk_same e1) as D1 by (unfold disk_same; by rewrite (al_disk _ _ _ _ Ha)).
  unfold elf_load_opened. wp_step. eapply wp_mono; [apply (elf_read_header_spec e1 D1); nia|]. cbv beta. intros h s' (off & e2 & -> & K2 & Hh).
  destruct (elf_header data) as [hd|] eqn:Ehd.
  2: { rewrite Hh. cbn [Z.ltb Z.compare]. rewrite elf_layout_none by done. by eapply out_early_spec. }
  subst h. cbn [Datatypes.fst Datatypes.snd Z.ltb Z.compare]. destruct (elf_header_fields hd Ehd) as (_ & entry & pos & num & sz & F1 & F2 & F3 & F4 & G2 & G3 & G4).
  rewrite (elf_layout_eq hd entry pos num sz Ehd F1 F2 F3 F4). unfold elf_pages in *. rewrite G2, G3, G4 in *.
  pose proof (kv_avail _ _ K2) as V2. destruct (ue_create_ok e2) as (root & e3 & E3 & L3 & S3 & V3 & M3 & Hroot).
  destruct Hroot as [(_ & _ & Hlow)|(R1 & R2 & R3 & R4)]; [nia|]. wp_step. eapply wp_fcall; [exact E3|]. rewrite (proj2 (Z.eqb_neq root 0)) by done.
  change (set_fenv e3 (opened off e2)) with (opened off e3).
  assert (created e1 root (λ _, None) e3) as Cr.
  { assert (fe_kept e2 = fe_kept e1) as K by apply K2. rewrite K in *. split; [done|by rewrite L3, (kv_live _ _ K2)|done..]. }
  unfold elf_load_segments. rewrite F2, F3, F4. wp_step. do 3 (wp_step; eapply wp_get_some; [reflexivity|]).
  eapply wp_mono; [apply (load_headers_spec s0 ino n raw drv vol spb data f ops Hmo Hf0 Hi0 Hc Hlim Hsz root sz (Z.to_nat num) ltac:(lia) off e3 (λ _, None) pos ph); try done|].
  { unfold disk_same in *. by rewrite S3, (kv_disk _ _ K2). }
  { nia. }
  { set_solver. }
  cbv beta. intros l s' (off2 & e4 & -> & Hseg)%stepped_inv. destruct (load_segs data (Z.to_nat num) pos sz (λ _, None)) as [m|]; cbn [mbind option_bind].
  2: { destruct Hseg as (-> & m' & L4). cbn [Z.ltb Z.compare]. eapply out_destroy_spec; [exact Ha|]. by eapply created_loading. }
  destruct Hseg as [-> L4]. cbn [Z.ltb Z.compare]. pose proof (created_loading _ _ _ _ _ _ _ Cr L4) as Cr4. pose proof (ld_avail _ _ _ _ _ L4) as V4.
  wp_step. eapply wp_mono; [apply (stack_spec e4 root m off2); [rewrite (cr_roots _ _ _ _ Cr4); set_solver|apply L4|nia]|].
  cbv beta. intros st s' (e5 & -> & Hst). destruct (reserve m USTACK_BASE DEFAULT_STACK_BYTES) as [m5|]; cbn [mbind option_bind].
  2: { destruct Hst as (-> & m' & L5). cbn [Datatypes.fst Datatypes.snd Z.ltb Z.compare]. eapply out_destroy_spec; [exact Ha|]. by eapply created_loading. }
  destruct Hst as [-> L5]. cbn [Datatypes.fst Datatypes.snd Z.ltb Z.compare]. rewrite F1. wp_step. eapply wp_get_some; [reflexivity|].
  cbn [im_ustack_base im_ustack_top]. eapply out_success_spec; [exact Ha|]. by eapply created_loading.
Qed.
End file.

(** ** The whole call *)

(** The names are compared up to the NUL. *)
Definition named (name : list Z) (entry : list Z) : bool := bool_decide (c_string entry = c_string name).

(** The inode that was found, as a file. *)
Lemma node_mounted s num sb drv vol spb ipg isz raw child priv e1 e' s' :
  fs_mounted s sb drv vol spb ipg isz → keeps_env (fenv s) e1 → node_added (set_fenv e1 s) num sb raw isz child priv e' s' →
  mounted s' child (vnode_of num sb priv raw) raw drv vol spb.
Proof.
  intros [F1 F2 F3 F4] K [-> _ _ _ _ D]. split.
  - apply lookup_insert_eq.
  - apply lookup_insert_eq.
  - exact F1.
  - apply (drv_ok_same s); [|done]. split_and!; [done..|]. cbn. rewrite D. cbn. by rewrite (kv_disk _ _ K).
Qed.

(** The node as an open file: [elf_open_file] behind the search. *)
Lemma open_found s child nd :
  inode_at s !! child = Some nd → i_open nd = ext2_open_fn → fe_cost FILE_SIZE ≤ fe_avail (fenv s) →
  wp (i <- deref inode_at child ;; match i_open i with ext2_open_fn => ext2_open child end) s
    (λ f s', ∃ e', allocated (fenv s) f FILE_SIZE e' ∧ s' = opened s child f ext2_file_ops 0 e').
Proof.
  intros Hn _ Hav. wp_step. eapply wp_deref; [exact Hn|]. destruct (i_open nd). unfold ext2_open.
  destruct (fe_kmalloc_ok (fenv s) FILE_SIZE ltac:(done) Hav) as (a & bs & e' & Er & Ha & Hf & Hl & Hv & Hav' & Hd).
  wp_step. eapply wp_fcall; [exact Er|]. cbn [Datatypes.fst]. rewrite (proj2 (Z.eqb_neq a 0)) by done. wp_step. apply wp_ret. by exists e'.
Qed.

Lemma head_field_nonneg get data : (get = head_prog_table_pos ∨ get = head_prog_ent_size) → Forall is_byte data → 0 ≤ head_field get data.
Proof.
  intros Hget Hb. unfold head_field. destruct (bytes_at 0 64 data) as [h|] eqn:Eh; [|done]. cbn [mbind option_bind].
  assert (Forall is_byte h) as Hh. { unfold bytes_at in Eh. case_bool_decide; [|done]. injection Eh as <-. by apply Forall_slice. }
  destruct (get h) as [v|] eqn:Ev; [|done]. cbn. destruct Hget as [-> | ->]; apply (field_range _ _ _ _ Hh) in Ev; lia.
Qed.

(** A freed file leaves the table of files as it was. *)
Lemma closed_same s s1 f e1 e' :
  (∀ a, is_Some (file_at s !! a) → is_Some (fe_live (fenv s) !! a)) → file_at s1 = file_at s → (∀ a, is_Some (fe_live (fenv s) !! a) → is_Some (fe_live (fenv s1) !! a)) →
  allocated (fenv s1) f FILE_SIZE e1 → closed s1 f e' = set_fenv e' s1.
Proof.
  intros Hl Hfs Hsub Ha. unfold closed. rewrite Hfs, delete_id.
  - destruct s1; cbn in *. by rewrite Hfs.
  - destruct (file_at s !! f) eqn:Ef; [|done]. destruct (Hsub f) as [x Hx]; [apply Hl; eauto|]. pose proof (al_fresh _ _ _ _ Ha). congruence.
Qed.

Definition elf_budget (drv : ext2_driver) (isz : Z) (data : list Z) : Z :=
  node_cost isz + fe_cost FILE_SIZE + (3 + elf_pages data) * ue_cost + fe_cost BOUNCE_SIZE + 3 * fe_cost (drv_block_size drv).

End theorems.

(** ** Example: the executable of the example volume

    Address spaces are functions; a new one is empty, and no frame ever runs out. *)

Definition toy_space (e : tfs) (root : Z) : space_map := λ a, m ← tfs_spaces e !! root; m a.
Definition toy_set_space (root : Z) (m : space_map) (e : tfs) : tfs := Tfs (tfs_live e) (<[root := m]> (tfs_spaces e)).

#[export] Instance tfs_user : UserEnv tfs := {|
  ue_create_user_p4 := λ e, let r := next_key (tfs_spaces e) in Ret (r, toy_set_space r (λ _, None) e);
  ue_alloc_at_as root va size := λ e,
    match reserve (toy_space e root) va size with
    | Some m => Ret (first_page va * PAGE, toy_set_space root m e)
    | None => Ret (0, e)
    end;
  ue_copy_to_user_as root dst bs := λ e, Ret (0, toy_set_space root (write (toy_space e root) dst bs) e);
  ue_zero_user_as root dst len := λ e, Ret (0, toy_set_space root (write (toy_space e root) dst (replicate (Z.to_nat len) 0)) e);
  ue_destroy_userspace root := λ e, Ret (tt, Tfs (tfs_live e) (delete root (tfs_spaces e)));
  ue_create_uthread _ _ _ _ := λ e, Ret (-1, e)
|}.

Lemma pages_unused_false m b k : pages_unused m b k = false → ∃ p, b ≤ p < b + k ∧ m (p * PAGE) ≠ None.
Proof.
  intros Hf%not_true_iff_false. rewrite pages_unused_spec in Hf. destruct (decide (Exists (λ p, m (p * PAGE) ≠ None) (seqZ b k))) as [Hx|Hx].
  - apply Exists_exists in Hx as (p & Hp%elem_of_seqZ & Hm). exists p. split; [lia|done].
  - destruct Hf. intros p Hp. apply dec_stable. intros Hn. apply Hx, Exists_exists. exists p. split; [|done]. apply elem_of_seqZ. lia.
Qed.

Lemma dom_set_space root m e : is_Some (tfs_spaces e !! root) → dom (tfs_spaces (toy_set_space root m e)) = dom (tfs_spaces e).
Proof. intros Hr%elem_of_dom. cbn. rewrite dom_insert_L. set_solver. Qed.

#[export] Instance tfs_user_laws : UserEnvLaws tfs.
Proof.
  refine {| ue_roots w := dom w; ue_mem w root := λ a, m ← w !! root; m a; ue_cost := 0 |}.
  - done.
  - intros e. destruct (next_key_spec (tfs_spaces e)) as [H0 _]. eexists _, _. split; [done|]. split; [done|]. split; [done|]. split; [done|]. cbn.
    split; [intros x a Hx; by rewrite lookup_insert_ne|]. right. split; [lia|]. split; [apply not_elem_of_dom, next_key_fresh|]. split; [apply dom_insert_L|].
    intros a _. by rewrite lookup_insert_eq.
  - intros e root va size Hr _ _ _ b k. change (root ∈ dom (tfs_spaces e)) in Hr. apply elem_of_dom in Hr. cbn [ue_alloc_at_as tfs_user]. unfold reserve.
    destruct (pages_unused (toy_space e root) (first_page va) (page_span va size)) eqn:Ep; eexists _, _; (split; [done|]); (split; [done|]); (split; [done|]); (split; [cbn; lia|]).
    + split; [by apply dom_set_space|]. cbn. split; [intros x a Hx; by rewrite lookup_insert_ne|].
      left. split; [done|]. split; [exact (proj1 (pages_unused_spec _ _ _) Ep)|]. intros a _. by rewrite lookup_insert_eq.
    + split; [done|]. split; [done|]. right. split; [done|]. right. exact (pages_unused_false _ _ _ Ep).
  - intros e root dst bs Hr _ _. change (root ∈ dom (tfs_spaces e)) in Hr. apply elem_of_dom in Hr. eexists. split; [done|]. do 3 (split; [done|]). split; [by apply dom_set_space|]. cbn.
    split; [intros x a Hx; by rewrite lookup_insert_ne|]. intros a _. by rewrite lookup_insert_eq.
  - intros e root dst len Hr _ _ _. change (root ∈ dom (tfs_spaces e)) in Hr. apply elem_of_dom in Hr. eexists. split; [done|]. do 3 (split; [done|]). split; [by apply dom_set_space|]. cbn.
    split; [intros x a Hx; by rewrite lookup_insert_ne|]. intros a _. by rewrite lookup_insert_eq.
  - intros e root Hr. eexists. split; [done|]. do 3 (split; [done|]). cbn. split; [apply dom_delete_L|]. intros x a Hx. by rewrite lookup_delete_ne.
Defined.

Lemma toy_elf_ok : elf_ok toy_elf_data.
Proof. split; [vm_compute; discriminate|]. split; [vm_compute; discriminate|]. unfold elf_ok. vm_compute. repeat split; discriminate. Qed.

Lemma toy_layout :
  (λ p, (p.1, p.2 0x100000000012, p.2 0x100000000014, p.2 USTACK_BASE, p.2 0x100000001000)) <$> elf_layout toy_elf_data = Some (0x100000000010, Some 0xCD, Some 0, Some 0, None).
Proof. vm_compute. reflexivity. Qed.

