(* ===== verification/Vga.v ===== *)
(** * The VGA text console

    [x86_64/drivers/vga.c]: a cursor in rows and columns over the video memory of 25 rows
    of 80 cells.  The reference is a position in one ring of 2000 cells. *)

From S2P Require Import Prelude.

Definition VGA_WIDTH : Z := 80.
Definition VGA_HEIGHT : Z := 25.
Definition SPACE : Z := 32.

Definition BG (c : Z) : Z := Z.shiftl (Z.land c 0x0F) 4.
Definition FG (c : Z) : Z := Z.land c 0x0F.

(** The static variables, the video memory and the interrupt flag. *)
Record vga := Vga { row : Z; col : Z; color : Z; vga_buff : list Z; v_ints : bool }.

Definition set_row (v : Z) (s : vga) : vga := Vga v (col s) (color s) (vga_buff s) (v_ints s).
Definition set_col (v : Z) (s : vga) : vga := Vga (row s) v (color s) (vga_buff s) (v_ints s).
Definition set_color (v : Z) (s : vga) : vga := Vga (row s) (col s) v (vga_buff s) (v_ints s).
Definition set_buff (v : list Z) (s : vga) : vga := Vga (row s) (col s) (color s) v (v_ints s).
Definition set_v_ints (v : bool) (s : vga) : vga := Vga (row s) (col s) (color s) (vga_buff s) v.

Definition vga_setcolor (fg bg : Z) : M vga unit := modify (set_color (u8 (Z.lor (FG fg) (BG bg)))).

(** A store to the video memory; one outside of it stops the model. *)
Definition vga_store (i v : Z) : M vga unit := λ s,
  if bool_decide (0 ≤ i < Z.of_nat (length (vga_buff s))) then Ret (tt, set_buff (<[Z.to_nat i := v]> (vga_buff s)) s) else Halt.

Definition vga_nextrow : M vga unit :=
  r <- gets row ;;
  if VGA_HEIGHT - 1 <=? r then modify (set_row 0) else modify (set_row (i32 (r + 1))).

Definition vga_nextcol : M vga unit :=
  c <- gets col ;;
  if VGA_WIDTH - 1 <=? c then modify (set_col 0) ;; vga_nextrow else modify (set_col (i32 (c + 1))).

Definition vga_put (uc : Z) : M vga unit :=
  r <- gets row ;; c <- gets col ;; k <- gets color ;;
  vga_store (i32 (r * VGA_WIDTH + c)) (u16 (Z.lor (Z.shiftl k 8) uc)).

Definition vga_backcol : M vga unit :=
  c <- gets col ;;
  (if c =? 0 then
     r <- gets row ;;
     if negb (r =? 0) then modify (set_row (i32 (r - 1))) ;; modify (set_col (VGA_WIDTH - 1)) else ret tt
   else modify (set_col (i32 (c - 1)))) ;;
  vga_put SPACE.

(** [junk]: whether the uninitialised [enable_ints] happens to be nonzero. *)
Definition vga_display_char (junk : bool) (c : Z) : M vga unit :=
  let uc := u8 c in
  e <- gets v_ints ;;
  (if e : bool then modify (set_v_ints false) else ret tt) ;;
  (if uc =? 10 then vga_nextrow ;; modify (set_col 0)
   else if uc =? 13 then modify (set_col 0)
   else if uc =? 9 then vga_nextcol ;; vga_nextcol ;; vga_nextcol ;; vga_nextcol ;; vga_nextcol
   else if uc =? 8 then vga_backcol
   else vga_put uc ;; vga_nextcol) ;;
  if e || junk then modify (set_v_ints true) else ret tt.

(** A string is its characters in front of the NUL. *)
Definition vga_display_str (junk : bool) (str : list Z) : M vga unit := for_each str (vga_display_char junk).

Definition vga_clear (junk : bool) : M vga unit :=
  for_each (seqZ 0 VGA_HEIGHT) (λ _, for_each (seqZ 0 VGA_WIDTH) (λ _, vga_display_char junk SPACE)) ;;
  modify (set_row 0) ;;
  modify (set_col 0).

(** ** The reference: one position in a ring of cells *)

Definition CELLS : Z := 2000.

Definition put_cell (k : Z) (pos uc : Z) (cells : list Z) : list Z := <[Z.to_nat pos := u16 (Z.lor (Z.shiftl k 8) uc)]> cells.

Definition ring_char (k : Z) (st : Z * list Z) (c : Z) : Z * list Z :=
  let '(pos, cells) := st in
  let uc := u8 c in
  let line := pos - pos mod VGA_WIDTH in
  if uc =? 10 then ((line + VGA_WIDTH) mod CELLS, cells)
  else if uc =? 13 then (line, cells)
  else if uc =? 9 then ((pos + 5) mod CELLS, cells)
  else if uc =? 8 then (Z.max 0 (pos - 1), put_cell k (Z.max 0 (pos - 1)) SPACE cells)
  else ((pos + 1) mod CELLS, put_cell k pos uc cells).

(** ** Refinement *)

Record vga_inv (s : vga) : Prop := {
  vi_row : 0 ≤ row s < VGA_HEIGHT;
  vi_col : 0 ≤ col s < VGA_WIDTH;
  vi_buff : Z.of_nat (length (vga_buff s)) = CELLS
}.

Definition vga_pos (s : vga) : Z := row s * VGA_WIDTH + col s.

(** The cursor moved to [pos]. *)
Definition moved (s : vga) (pos : Z) (cells : list Z) (s' : vga) : Prop :=
  vga_inv s' ∧ vga_pos s' = pos ∧ vga_buff s' = cells ∧ color s' = color s ∧ v_ints s' = v_ints s.

Lemma vga_pos_range s : vga_inv s → 0 ≤ vga_pos s < CELLS.
Proof. intros [Hr Hc _]. unfold vga_pos, VGA_WIDTH, VGA_HEIGHT, CELLS in *. lia. Qed.

Lemma vga_pos_col s : vga_inv s → vga_pos s mod VGA_WIDTH = col s.
Proof. intros [Hr Hc _]. unfold vga_pos, VGA_WIDTH in *. symmetry. apply (Z.mod_unique _ _ (row s)); lia. Qed.

Lemma nextrow_spec s : vga_inv s →
  wp vga_nextrow s (λ _ s', moved s ((vga_pos s + VGA_WIDTH) mod CELLS) (vga_buff s) s' ∧ col s' = col s ∧ row s' * VGA_WIDTH = (row s * VGA_WIDTH + VGA_WIDTH) mod CELLS).
Proof.
  intros [Hr Hc Hb]. unfold vga_nextrow. wp_step. apply wp_gets. unfold moved, vga_pos, VGA_WIDTH, VGA_HEIGHT, CELLS in *.
  destruct (25 - 1 <=? row s) eqn:E; bool_prop; apply wp_modify; (split; [|split; [done|cbn]]); try (split; [split; cbn; try done; rewrite ?i32_small by lia; unfold VGA_HEIGHT; lia|]); cbn.
  - split; [|done]. apply (Z.mod_unique _ _ 1); lia.
  - apply (Z.mod_unique _ _ 1); lia.
  - rewrite i32_small by lia. split; [|done]. rewrite Z.mod_small by lia. lia.
  - rewrite i32_small, Z.mod_small by lia. lia.
Qed.

Lemma nextcol_spec s : vga_inv s → wp vga_nextcol s (λ _ s', moved s ((vga_pos s + 1) mod CELLS) (vga_buff s) s').
Proof.
  intros Hs. pose proof Hs as [Hr Hc Hb]. unfold vga_nextcol. wp_step. apply wp_gets. destruct (VGA_WIDTH - 1 <=? col s) eqn:E; bool_prop.
  - wp_step. apply wp_modify. eapply wp_mono; [apply nextrow_spec; split; [done|done|done]|]. cbv beta.
    intros _ s' ((Hi & Hp & Hx) & _ & _). split; [done|]. split; [|done]. rewrite Hp. unfold vga_pos, VGA_WIDTH in *. cbn. f_equal. lia.
  - apply wp_modify. unfold moved, vga_pos, VGA_WIDTH, VGA_HEIGHT, CELLS in *. split; [split; cbn; [done| |done]; rewrite i32_small by lia; unfold VGA_WIDTH; lia|].
    cbn. rewrite i32_small by lia. split; [|done]. rewrite Z.mod_small by lia. lia.
Qed.

Lemma put_spec s uc : vga_inv s → wp (vga_put uc) s (λ _ s', moved s (vga_pos s) (put_cell (color s) (vga_pos s) uc (vga_buff s)) s').
Proof.
  intros Hs. pose proof (vga_pos_range s Hs) as Hp. pose proof Hs as [Hr Hc Hb]. unfold vga_put. do 3 (wp_step; apply wp_gets).
  fold (vga_pos s). unfold CELLS in *. rewrite i32_small by lia. unfold vga_store, wp. rewrite bool_decide_true by lia.
  split; [split; [done|done|cbn; rewrite length_insert; done]|]. done.
Qed.

Fixpoint nextcols (n : nat) : M vga unit := match n with O => vga_nextcol | S n => vga_nextcol ;; nextcols n end.

Lemma nextcols_spec n s : vga_inv s → wp (nextcols n) s (λ _ s', moved s ((vga_pos s + Z.of_nat (S n)) mod CELLS) (vga_buff s) s').
Proof.
  revert s. induction n as [|n IH]; intros s Hs; [by apply nextcol_spec|].
  cbn [nextcols]. wp_step. eapply wp_mono; [by apply nextcol_spec|]. cbv beta. intros _ s1 (H1 & H2 & H3 & H4 & H5).
  eapply wp_mono; [by apply IH|]. cbv beta. intros _ s2 (G1 & G2 & G3 & G4 & G5). split; [done|]. split; [|by split; congruence || split; congruence].
  rewrite G2, H2, Z.add_mod_idemp_l by (unfold CELLS; lia). f_equal. lia.
Qed.

Lemma backcol_spec s : vga_inv s → wp vga_backcol s (λ _ s', moved s (Z.max 0 (vga_pos s - 1)) (put_cell (color s) (Z.max 0 (vga_pos s - 1)) SPACE (vga_buff s)) s').
Proof.
  intros [Hr Hc Hb]. unfold vga_backcol. wp_step. apply wp_gets. wp_step. unfold VGA_WIDTH, VGA_HEIGHT, CELLS in *.
  assert (∀ s1, vga_inv s1 → vga_pos s1 = Z.max 0 (vga_pos s - 1) → vga_buff s1 = vga_buff s → color s1 = color s → v_ints s1 = v_ints s →
    wp (vga_put SPACE) s1 (λ _ s', moved s (Z.max 0 (vga_pos s - 1)) (put_cell (color s) (Z.max 0 (vga_pos s - 1)) SPACE (vga_buff s)) s')) as Hput.
  { intros s1 H1 H2 H3 H4 H5. eapply wp_mono; [by apply put_spec|]. cbv beta. intros _ s' (G1 & G2 & G3 & G4 & G5). unfold moved. rewrite <-H2, <-H3, <-H4, <-H5. done. }
  destruct (col s =? 0) eqn:E0; bool_prop; [wp_step; apply wp_gets; destruct (row s =? 0) eqn:E1; bool_prop; cbn [negb]|].
  - apply wp_ret. apply Hput; try done. unfold vga_pos, VGA_WIDTH. lia.
  - wp_step. apply wp_modify. apply wp_modify. rewrite i32_small by lia. apply Hput; try done; [split; cbn; unfold VGA_WIDTH, VGA_HEIGHT, CELLS; lia|]. unfold vga_pos, VGA_WIDTH. cbn. lia.
  - apply wp_modify. rewrite i32_small by lia. apply Hput; try done; [split; cbn; unfold VGA_WIDTH, VGA_HEIGHT, CELLS; lia|]. unfold vga_pos, VGA_WIDTH. cbn. lia.
Qed.

(** What a character leaves of the interrupt flag. *)
Definition ints_after (junk : bool) (str : list Z) (ints : bool) : bool := ints || (junk && negb (bool_decide (str = []))).

Lemma display_char_spec junk c s : vga_inv s →
  wp (vga_display_char junk c) s (λ _ s', vga_inv s' ∧ (vga_pos s', vga_buff s') = ring_char (color s) (vga_pos s, vga_buff s) c ∧
    color s' = color s ∧ v_ints s' = v_ints s || junk).
Proof.
  intros Hs. pose proof (vga_pos_range s Hs) as Hp. pose proof Hs as [Hr Hc Hb]. unfold vga_display_char, ring_char. rewrite (vga_pos_col s Hs). wp_step. apply wp_gets. wp_step.
  set (body := if u8 c =? 10 then _ else _). set (res := if u8 c =? 10 then _ else _).
  assert (∀ s1, vga_inv s1 → vga_pos s1 = vga_pos s → col s1 = col s → vga_buff s1 = vga_buff s → color s1 = color s → v_ints s1 = false →
    wp body s1 (λ _ s', vga_inv s' ∧ (vga_pos s', vga_buff s') = res ∧ color s' = color s ∧ v_ints s' = false)) as Hbody.
  { intros s1 H1 H2 H3 H4 H5 H6. unfold body, res. rewrite <-H2, <-H3, <-H4, <-H5, <-H6. clear - H1. pose proof H1 as [Hr Hc Hb].
    destruct (u8 c =? 10); [|destruct (u8 c =? 13); [|destruct (u8 c =? 9); [|destruct (u8 c =? 8)]]].
    - wp_step. eapply wp_mono; [by apply nextrow_spec|]. cbv beta. intros _ s' ((G1 & G2 & G3 & G4 & G5) & G6 & G7). apply wp_modify. pose proof G1 as [I1 I2 I3].
      split; [split; cbn; [done|unfold VGA_WIDTH; lia|done]|]. split; [|done]. unfold vga_pos. cbn. rewrite G3, G7, Z.add_0_r. f_equal. f_equal. lia.
    - apply wp_modify. split; [split; cbn; [done|unfold VGA_WIDTH; lia|done]|]. split; [|done]. unfold vga_pos. cbn. f_equal. lia.
    - change (wp (nextcols 4) s1 (λ _ s', vga_inv s' ∧ (vga_pos s', vga_buff s') = ((vga_pos s1 + 5) mod CELLS, vga_buff s1) ∧ color s' = color s1 ∧ v_ints s' = v_ints s1)).
      eapply wp_mono; [by apply nextcols_spec|]. cbv beta. intros _ s' (G1 & G2 & G3 & G4 & G5). split; [done|]. split; [by rewrite G2, G3|done].
    - eapply wp_mono; [by apply backcol_spec|]. cbv beta. intros _ s' (G1 & G2 & G3 & G4 & G5). split; [done|]. split; [by rewrite G2, G3|done].
    - wp_step. eapply wp_mono; [by apply put_spec|]. cbv beta. intros _ s2 (G1 & G2 & G3 & G4 & G5). eapply wp_mono; [by apply nextcol_spec|]. cbv beta.
      intros _ s' (K1 & K2 & K3 & K4 & K5). split; [done|]. split; [by rewrite K2, K3, G2, G3|]. split; congruence. }
  assert (wp (if v_ints s then modify (set_v_ints false) else ret tt) s (λ _ s1, vga_inv s1 ∧ vga_pos s1 = vga_pos s ∧ col s1 = col s ∧ vga_buff s1 = vga_buff s ∧ color s1 = color s ∧ v_ints s1 = false)) as Hcli.
  { destruct (v_ints s) eqn:Ei; [apply wp_modify|apply wp_ret]; by split_and!; try split. }
  eapply wp_mono; [exact Hcli|]. cbv beta. intros _ s1 (H1 & H2 & H3 & H4 & H5 & H6). wp_step. eapply wp_mono; [by apply Hbody|]. cbv beta.
  intros _ s2 (G1 & G2 & G3 & G4). destruct (v_ints s || junk) eqn:Ei; [apply wp_modify|apply wp_ret]; split_and!; try done. destruct G1. by split.
Qed.

Lemma display_str_spec junk str : ∀ s, vga_inv s →
  wp (vga_display_str junk str) s (λ _ s', vga_inv s' ∧ (vga_pos s', vga_buff s') = foldl (ring_char (color s)) (vga_pos s, vga_buff s) str ∧
    color s' = color s ∧ v_ints s' = ints_after junk str (v_ints s)).
Proof.
  unfold vga_display_str, ints_after. induction str as [|c str IH]; intros s Hs; [apply wp_ret; by rewrite andb_false_r, orb_false_r|]. cbn [for_each foldl].
  wp_step. eapply wp_mono; [by apply display_char_spec|]. cbv beta. intros _ s1 (H1 & H2 & H3 & H4). eapply wp_mono; [by apply IH|]. cbv beta.
  intros _ s2 (G1 & G2 & G3 & G4). split; [done|]. rewrite H3, H2 in G2. split; [done|]. split; [congruence|]. rewrite G4, H4.
  rewrite (bool_decide_eq_false_2 (c :: str = [])) by done. by destruct (v_ints s), junk, (bool_decide (str = [])).
Qed.

(** ** Clearing the screen *)

Definition ring_view (s : vga) : Z * list Z := (vga_pos s, vga_buff s).

(** A loop whose turns all do the same. *)
Lemma repeat_spec {A} (l : list A) (body : M vga unit) (g : Z * list Z → Z * list Z) k :
  (∀ s, vga_inv s → color s = k → wp body s (λ _ s', vga_inv s' ∧ color s' = k ∧ ring_view s' = g (ring_view s))) →
  ∀ s, vga_inv s → color s = k → wp (for_each l (λ _, body)) s (λ _ s', vga_inv s' ∧ color s' = k ∧ ring_view s' = Nat.iter (length l) g (ring_view s)).
Proof.
  intros Hb. induction l as [|x l IH]; intros s Hs Hk; [by apply wp_ret|]. cbn [for_each length]. wp_step. eapply wp_mono; [by apply Hb|]. cbv beta.
  intros _ s1 (H1 & H2 & H3). eapply wp_mono; [by apply IH|]. cbv beta. intros _ s2 (G1 & G2 & G3). split; [done|]. split; [done|]. by rewrite G3, H3, <-Nat.iter_succ_r.
Qed.

Lemma spaces_fill k p cells n : 0 ≤ p < CELLS → Z.of_nat (length cells) = CELLS → Z.of_nat n ≤ CELLS →
  let r := Nat.iter n (λ v, ring_char k v SPACE) (p, cells) in
  r.1 = (p + Z.of_nat n) mod CELLS ∧ Z.of_nat (length r.2) = CELLS ∧
  ∀ i, 0 ≤ i < Z.of_nat n → r.2 !! Z.to_nat ((p + i) mod CELLS) = Some (u16 (Z.lor (Z.shiftl k 8) SPACE)).
Proof.
  intros Hp Hl. induction n as [|n IH]; intros Hn r; [unfold r; cbn; rewrite Z.add_0_r, Z.mod_small by done; split_and!; [done..|lia]|].
  specialize (IH ltac:(lia)). unfold r. rewrite Nat.iter_succ. destruct (Nat.iter n _ (p, cells)) as [q l]. destruct IH as (H1 & H2 & H3). cbn [Datatypes.fst Datatypes.snd] in *.
  unfold ring_char. change (u8 SPACE) with 32. cbn [Z.eqb Pos.eqb Datatypes.fst Datatypes.snd]. assert (0 ≤ q < CELLS) as Hq by (rewrite H1; apply Z.mod_pos_bound; done). unfold put_cell.
  split; [rewrite H1, Z.add_mod_idemp_l by done; f_equal; lia|]. split; [by rewrite length_insert|]. intros i Hi.
  destruct (decide (i = Z.of_nat n)) as [->|Hne]; [rewrite <-H1, list_lookup_insert_eq by lia; done|]. rewrite list_lookup_insert_ne; [apply H3; lia|].
  rewrite H1. intros Heq. apply Z2Nat.inj in Heq; [|apply Z.mod_pos_bound; done..].
  pose proof (Z.div_mod (p + Z.of_nat n) CELLS ltac:(done)). pose proof (Z.div_mod (p + i) CELLS ltac:(done)). unfold CELLS in *. lia.
Qed.

Lemma iter_mul {A} (f : A → A) n m x : Nat.iter (n * m) f x = Nat.iter n (Nat.iter m f) x.
Proof. induction n as [|n IH]; [done|]. rewrite Nat.iter_succ, <-IH. cbn [Nat.mul]. by rewrite Nat.iter_add. Qed.

(** [vga_clear] blanks every cell and puts the cursor into the first one, wherever it was. *)
Theorem vga_clear_correct junk s : vga_inv s →
  ∃ s', vga_clear junk s = Ret (tt, s') ∧ vga_inv s' ∧ vga_pos s' = 0 ∧ vga_buff s' = replicate 2000 (u16 (Z.lor (Z.shiftl (color s) 8) SPACE)).
Proof.
  intros Hs. pose proof (vga_pos_range s Hs) as Hp. pose proof (vi_buff s Hs) as Hl.
  assert (wp (vga_clear junk) s (λ _ s', vga_inv s' ∧ vga_pos s' = 0 ∧ vga_buff s' = replicate 2000 (u16 (Z.lor (Z.shiftl (color s) 8) SPACE)))) as ([] & s' & E & H)%wp_iff; [|eauto].
  unfold vga_clear. wp_step. eapply wp_mono.
  { apply (repeat_spec (seqZ 0 VGA_HEIGHT) _ (Nat.iter (length (seqZ 0 VGA_WIDTH)) (λ v, ring_char (color s) v SPACE)) (color s)); [|done|done].
    apply (repeat_spec (seqZ 0 VGA_WIDTH) (vga_display_char junk SPACE) (λ v, ring_char (color s) v SPACE) (color s)). intros s1 H1 H2.
    eapply wp_mono; [by apply display_char_spec|]. cbv beta. intros _ s2 (G1 & G2 & G3 & _). rewrite <-H2. by split_and!. }
  cbv beta. intros _ s1 (H1 & H2 & H3). wp_step. apply wp_modify. apply wp_modify. split; [destruct H1; split; cbn; unfold VGA_HEIGHT, VGA_WIDTH; lia|]. split; [done|].
  rewrite !length_seqZ in H3. change (Z.to_nat VGA_HEIGHT) with 25%nat in H3. change (Z.to_nat VGA_WIDTH) with 80%nat in H3.
  destruct (spaces_fill (color s) (vga_pos s) (vga_buff s) 2000 Hp Hl ltac:(done)) as (F1 & F2 & F3).
  assert (ring_view s1 = Nat.iter 2000 (λ v, ring_char (color s) v SPACE) (vga_pos s, vga_buff s)) as Hv.
  { change (vga_pos s, vga_buff s) with (ring_view s). change 2000%nat with (25 * 80)%nat. rewrite iter_mul. exact H3. }
  rewrite <-Hv in F2, F3. cbn [ring_view Datatypes.snd] in F2, F3. apply list_eq. intros i. cbn [vga_buff set_col set_row]. destruct (decide (i < 2000)%nat) as [Hi|Hi].
  - rewrite lookup_replicate_2 by done. rewrite <-(F3 ((Z.of_nat i - vga_pos s) mod CELLS)) by (change (Z.of_nat 2000) with CELLS; apply Z.mod_pos_bound; done).
    f_equal. rewrite Z.add_mod_idemp_r by done. replace (vga_pos s + (Z.of_nat i - vga_pos s)) with (Z.of_nat i) by lia. rewrite Z.mod_small by (unfold CELLS; lia). lia.
  - rewrite (lookup_ge_None_2 (replicate _ _)) by (rewrite length_replicate; lia). apply lookup_ge_None_2. unfold CELLS in F2. lia.
Qed.

(** C37: displaying any string, control characters included, from any cursor position
    moves the cursor and fills the cells as the ring of 2000 cells does: no store misses
    the video memory, the cursor stays on the screen, and the text goes on at the top
    when the last cell is full.  The interrupt flag is as before, unless interrupts
    were off and the uninitialised local is nonzero. *)
Theorem vga_display_str_refines junk str s : vga_inv s →
  ∃ s', vga_display_str junk str s = Ret (tt, s') ∧ vga_inv s' ∧
    (vga_pos s', vga_buff s') = foldl (ring_char (color s)) (vga_pos s, vga_buff s) str ∧ color s' = color s ∧ v_ints s' = ints_after junk str (v_ints s).
Proof. intros Hs. pose proof (display_str_spec junk str s Hs) as ([] & s' & E & H)%wp_iff. eauto. Qed.

Lemma vga_display_str_witness :
  ∃ s', vga_display_str false [72; 105; 8; 10; 33] (Vga 24 79 7 (replicate 2000 0) true) = Ret (tt, s') ∧ vga_pos s' = 81 ∧
    vga_buff s' !! 1999%nat = Some 0x748 ∧ vga_buff s' !! 0%nat = Some 0x720 ∧ vga_buff s' !! 80%nat = Some 0x721.
Proof.
  destruct (vga_display_str_refines false [72; 105; 8; 10; 33] (Vga 24 79 7 (replicate 2000 0) true)) as (s' & E & Hi & Hp & _).
  - split; [cbn; unfold VGA_HEIGHT; lia|cbn; unfold VGA_WIDTH; lia|reflexivity].
  - exists s'. split; [exact E|]. apply (f_equal Datatypes.snd) in Hp as Hb. apply (f_equal Datatypes.fst) in Hp. cbn [Datatypes.fst Datatypes.snd] in Hp, Hb.
    rewrite Hp, Hb. split; [vm_compute; reflexivity|]. split; [vm_compute; reflexivity|]. split; vm_compute; reflexivity.
Defined.
