(* ===== verification/Interrupts.v ===== *)
(** * Interrupts

    [interrupts/pic.c], [interrupts/idt_tss.c] and [interrupts/interrupts.c]: the masks of
    the two interrupt controllers, the descriptor table, the task state segment, and the
    table of C handlers with the dispatch between them.  The controllers are hardware,
    behind [PicDev]; the instructions [lidt] and [ltr] are recorded in the state. *)

From S2P Require Import Prelude.

(** ** The hardware *)

(** The ports of the machine as far as the controllers answer to them. *)
Class PicDev (D : Type) := {
  pic_out : Z → Z → D → D;
  pic_in : Z → D → Z * D
}.

(** The addresses the linker gives to the stub [isr0], the tables and the stacks. *)
Class IdtLayout := { isr0_addr : Z; idt_addr : Z; tss_addr : Z; ist1_stack : Z; ist2_stack : Z; ist3_stack : Z }.

(** ** [interrupts/pic.h], [interrupts/idt_tss.h] and [include/kernel/interrupts.h] *)

Definition PIC1_VECTOR : Z := 0x20.
Definition PIC2_VECTOR : Z := 0x28.
Definition PIC1_COMMAND : Z := 0x20.
Definition PIC1_DATA : Z := 0x21.
Definition PIC2_COMMAND : Z := 0xA0.
Definition PIC2_DATA : Z := 0xA1.
Definition PIC_EOI : Z := 0x20.
Definition ICW1_ICW4 : Z := 0x01.
Definition ICW1_INIT : Z := 0x10.
Definition ICW4_8086 : Z := 0x01.

Definition NUM_ISRS : Z := 256.
Definition TYPE_INTRGATE : Z := 0xE.
Definition STUB_SIZE : Z := 9.
Definition KERNEL_CS : Z := 0x08.
Definition TSS_DESC_CS : Z := 0x28.
Definition TSS_STACK_SIZE : Z := 4096.
Definition TSS_TYPE : Z := 0x9.
Definition TSS_SIZE : Z := 104.
Definition IDT_ENTRY_SIZE : Z := 16.

Record idt_entry := IdtEntry {
  offset1 : Z; gate_select : Z; gate_IST : Z; gate_type : Z; gate_DPL : Z; gate_pres : Z; offset2 : Z; offset3 : Z
}.

Record tss_descriptor := TssDesc {
  limit1 : Z; base1 : Z; base2 : Z; td_type : Z; td_zero : Z; td_DPL : Z; td_pres : Z; limit2 : Z; td_AVL : Z; td_IGN : Z; td_gran : Z; base3 : Z; base4 : Z; td_reserved : Z
}.

(** The fields of [struct tss_table] the kernel writes. *)
Record tss_table := Tss { tss_ist1 : Z; tss_ist2 : Z; tss_ist3 : Z; io_map_base : Z }.

(** The handlers a function pointer of the table can lead to. *)
Inductive isr_t := ISR8_double_fault | ISR13_general_protection | ISR14_PAGE_FAULT | ISR32_pit | ISR33_keyboard_irq | ISR36_IRQ4_serial | ISR_ata_handler | ISR128_syscall.
#[export] Instance isr_t_dec : EqDecision isr_t.
Proof. solve_decision. Defined.

(** [struct isr_c_entry]: [None] for NULL. *)
Record isr_c_entry := IsrEntry { handler : option isr_t; isr_arg : Z }.

(** ** The state *)

Record intr (D : Type) := Intr {
  isr_table : list isr_c_entry;
  idt : list idt_entry;
  idtr : Z * Z;
  tss : tss_table;
  tss_desc : tss_descriptor;
  task_reg : Z;
  pic : D;
  int_on : bool
}.
Arguments Intr {D}.
Arguments isr_table {D}.
Arguments idt {D}.
Arguments idtr {D}.
Arguments tss {D}.
Arguments tss_desc {D}.
Arguments task_reg {D}.
Arguments pic {D}.
Arguments int_on {D}.

Section intr.
Context {D : Type} {PD : PicDev D} `{IdtLayout}.
Implicit Types (s : intr D).
#[local] Abbreviation MI := (M (intr D)).

Definition set_isr_table v s : intr D := Intr v (idt s) (idtr s) (tss s) (tss_desc s) (task_reg s) (pic s) (int_on s).
Definition set_idt v s : intr D := Intr (isr_table s) v (idtr s) (tss s) (tss_desc s) (task_reg s) (pic s) (int_on s).
Definition set_idtr v s : intr D := Intr (isr_table s) (idt s) v (tss s) (tss_desc s) (task_reg s) (pic s) (int_on s).
Definition set_tss v s : intr D := Intr (isr_table s) (idt s) (idtr s) v (tss_desc s) (task_reg s) (pic s) (int_on s).
Definition set_tss_desc v s : intr D := Intr (isr_table s) (idt s) (idtr s) (tss s) v (task_reg s) (pic s) (int_on s).
Definition set_task_reg v s : intr D := Intr (isr_table s) (idt s) (idtr s) (tss s) (tss_desc s) v (pic s) (int_on s).
Definition set_pic v s : intr D := Intr (isr_table s) (idt s) (idtr s) (tss s) (tss_desc s) (task_reg s) v (int_on s).
Definition set_int_on v s : intr D := Intr (isr_table s) (idt s) (idtr s) (tss s) (tss_desc s) (task_reg s) (pic s) v.

(** ** [pic.c] *)

Definition outb (port v : Z) : MI unit := modify (λ s, set_pic (pic_out port v (pic s)) s).
Definition inb (port : Z) : MI Z := λ s, let r := pic_in port (pic s) in Ret (r.1, set_pic r.2 s).
Definition io_wait : MI unit := outb 0x80 0.

Definition PIC_remap (o1 o2 : Z) : MI unit :=
  outb PIC1_COMMAND (Z.lor ICW1_INIT ICW1_ICW4) ;; io_wait ;;
  outb PIC2_COMMAND (Z.lor ICW1_INIT ICW1_ICW4) ;; io_wait ;;
  outb PIC1_DATA (u8 o1) ;; io_wait ;;
  outb PIC2_DATA (u8 o2) ;; io_wait ;;
  outb PIC1_DATA 4 ;; io_wait ;;
  outb PIC2_DATA 2 ;; io_wait ;;
  outb PIC1_DATA ICW4_8086 ;; io_wait ;;
  outb PIC2_DATA ICW4_8086 ;; io_wait ;;
  outb PIC1_DATA 0 ;;
  outb PIC2_DATA 0.

(** The data port of a line and the bit in it. *)
Definition line_port (irq_line : Z) : Z := if irq_line <? 8 then PIC1_DATA else PIC2_DATA.
Definition line_bit (irq_line : Z) : Z := if irq_line <? 8 then irq_line else irq_line - 8.

Definition IRQ_set_mask (irq_line : Z) : MI unit :=
  v <- inb (line_port irq_line) ;;
  outb (line_port irq_line) (u8 (Z.lor v (Z.shiftl 1 (line_bit irq_line)))).

Definition IRQ_clear_mask (irq_line : Z) : MI unit :=
  v <- inb (line_port irq_line) ;;
  outb (line_port irq_line) (u8 (Z.land v (Z.lnot (Z.shiftl 1 (line_bit irq_line))))).

Definition IRQ_get_mask (irq_line : Z) : MI Z :=
  mask <- inb (line_port irq_line) ;;
  ret (Z.land (Z.shiftr mask (line_bit irq_line)) 1).

Definition PIC_init : MI unit :=
  PIC_remap PIC1_VECTOR PIC2_VECTOR ;;
  for_each (seqZ 0 15) (λ i, if negb (i =? 2) then IRQ_set_mask i else ret tt).

Definition IRQ_end_of_interrupt (vector : Z) : MI unit :=
  (if (PIC2_VECTOR <=? vector) && (vector <? PIC2_VECTOR + 8) then outb PIC2_COMMAND PIC_EOI else ret tt) ;;
  if (PIC1_VECTOR <=? vector) && (vector <? PIC1_VECTOR + 16) then outb PIC1_COMMAND PIC_EOI else ret tt.

(** ** [idt_tss.c] *)

(** Bit fields keep their low bits. *)
Definition add_idt_entry (vector IST type DPL : Z) : MI unit :=
  let addr := u64 (isr0_addr + vector * STUB_SIZE) in
  modify (λ s, set_idt (<[Z.to_nat vector := IdtEntry (u16 (Z.land addr 0xFFFF)) (Z.land KERNEL_CS (Z.lnot 0x3)) (IST mod 2 ^ 3) (type mod 2 ^ 4)
    (Z.land DPL 0x3) 1 (u16 (Z.land (Z.shiftr addr 16) 0xFFFF)) (u32 (Z.land (Z.shiftr addr 32) 0xFFFFFFFF))]> (idt s)) s).

Definition idt_init : MI unit :=
  modify (set_idtr (u16 (NUM_ISRS * IDT_ENTRY_SIZE - 1), idt_addr)) ;;
  for_each (seqZ 0 NUM_ISRS) (λ v, add_idt_entry (u8 v) 0 TYPE_INTRGATE 0).

Definition tss_init : MI unit :=
  modify (set_tss (Tss (u64 (ist1_stack + TSS_STACK_SIZE)) (u64 (ist2_stack + TSS_STACK_SIZE)) (u64 (ist3_stack + TSS_STACK_SIZE)) (u16 TSS_SIZE))) ;;
  let base := tss_addr in
  let limit := u32 (TSS_SIZE - 1) in
  modify (set_tss_desc (TssDesc (u16 (Z.land limit 0xFFFF)) (u16 (Z.land base 0xFFFF)) (u8 (Z.land (Z.shiftr base 16) 0xFF))
    (TSS_TYPE mod 2 ^ 4) 0 0 1 (u8 (Z.land (Z.shiftr limit 16) 0x0F) mod 2 ^ 4) 0 0 0
    (u8 (Z.land (Z.shiftr base 24) 0xFF)) (u32 (Z.shiftr base 32)) 0)) ;;
  modify (set_task_reg TSS_DESC_CS).

(** ** [interrupts.c] *)

Definition register_interrupt (vector IST type DPL : Z) (h : isr_t) (arg : Z) : MI unit :=
  modify (set_int_on false) ;;
  t <- gets isr_table ;;
  let busy := match t !! Z.to_nat vector with Some e => negb (bool_decide (handler e = None)) | None => false end in
  if (NUM_ISRS <=? vector) || (vector <? 0) || busy then ret tt else
  add_idt_entry (u8 vector) IST type DPL ;;
  modify (λ s, set_isr_table (<[Z.to_nat vector := IsrEntry (Some h) arg]> (isr_table s)) s) ;;
  (if (PIC1_VECTOR <=? vector) && (vector <? PIC2_VECTOR + 8) then IRQ_clear_mask (u8 (vector - PIC1_VECTOR)) else ret tt) ;;
  modify (set_int_on true).

Definition interrupts_init : MI unit :=
  modify (set_int_on false) ;;
  idt_init ;;
  tss_init ;;
  PIC_init ;;
  modify (set_int_on true) ;;
  register_interrupt 8 1 TYPE_INTRGATE 0 ISR8_double_fault 0 ;;
  register_interrupt 13 2 TYPE_INTRGATE 0 ISR13_general_protection 0.

(** The handlers run on the rest of the kernel, [R]. *)
Section dispatch.
Context {R : Type} (call : isr_t → Z → Z → Z → M (intr D * R) unit).

Definition on_intr {A} (c : MI A) : M (intr D * R) A := λ p,
  match c p.1 with Ret (a, s) => Ret (a, (s, p.2)) | Halt => Halt | NoFuel => NoFuel end.

(** [hlt] of an unhandled vector ends the model. *)
Definition c_isr_handler (vector err rsp : Z) : M (intr D * R) unit :=
  t <- on_intr (gets isr_table) ;;
  match t !! Z.to_nat vector with
  | None => halt
  | Some e =>
      match handler e with
      | None => halt
      | Some h =>
          (if negb (isr_arg e =? 0) then call h vector err (isr_arg e) else call h vector err rsp) ;;
          on_intr (IRQ_end_of_interrupt (u8 vector))
      end
  end.
End dispatch.
End intr.
