(* ===== verification/InterruptTheorems.v ===== *)
(** * Interrupt delivery

    The laws state the documented behaviour of the 8259 controllers: the initialisation
    sequence makes the data ports the mask registers.  Theorems: what [interrupts_init]
    leaves in the tables, the segment descriptor and the masks; and that a registered
    handler is the one that runs, on the right controller's behalf. *)

From S2P Require Import Prelude Interrupts.

Definition data_port (port : Z) : Prop := port = PIC1_DATA ∨ port = PIC2_DATA.

(** The eight commands of the sequence, in order. *)
Definition icw_seq (o1 o2 : Z) : list (Z * Z) :=
  [(PIC1_COMMAND, 0x11); (PIC2_COMMAND, 0x11); (PIC1_DATA, o1); (PIC2_DATA, o2); (PIC1_DATA, 4); (PIC2_DATA, 2); (PIC1_DATA, 1); (PIC2_DATA, 1)].

Class PicLaws (D : Type) {PD : PicDev D} := {
  pic_ready : D → Prop;
  imr : D → Z → Z;
  pic_base : D → Z → Z;
  pic_unused d v : pic_out 0x80 v d = d;
  pic_icw d o1 o2 : let d' := foldl (λ d w, pic_out w.1 w.2 d) d (icw_seq o1 o2) in
    pic_ready d' ∧ pic_base d' PIC1_DATA = o1 ∧ pic_base d' PIC2_DATA = o2;
  pic_mask_out d port v : pic_ready d → data_port port →
    pic_ready (pic_out port v d) ∧ imr (pic_out port v d) port = v ∧
    (∀ p, p ≠ port → imr (pic_out port v d) p = imr d p) ∧ (∀ p, pic_base (pic_out port v d) p = pic_base d p);
  pic_mask_in d port : pic_ready d → data_port port → pic_in port d = (imr d port, d)
}.

Section theorems.
Context {D : Type} {PD : PicDev D} {PL : PicLaws D} `{IdtLayout}.
Implicit Types (s : intr D) (d : D).

Lemma wp_outb port v s Q : Q tt (set_pic (pic_out port v (pic s)) s) → wp (outb port v) s Q.
Proof. done. Qed.

Lemma set_pic_same s : set_pic (pic s) s = s.
Proof. by destruct s. Qed.

(** ** Masks *)

(** A line of the sixteen is masked. *)
Definition masked d (line : Z) : bool := Z.testbit (imr d (line_port line)) (line_bit line).

Lemma line_data line : data_port (line_port line).
Proof. unfold line_port. destruct (line <? 8); [by left|by right]. Qed.

Lemma line_bit_range line : 0 ≤ line < 16 → 0 ≤ line_bit line < 8.
Proof. intros. unfold line_bit. destruct (line <? 8) eqn:E; bool_prop; lia. Qed.

(** Lines on the same port differ in their bits. *)
Lemma line_inj l l' : 0 ≤ l < 16 → 0 ≤ l' < 16 → line_port l = line_port l' → line_bit l = line_bit l' → l = l'.
Proof. intros H1 H2. unfold line_port, line_bit, PIC1_DATA, PIC2_DATA. destruct (l <? 8) eqn:E1, (l' <? 8) eqn:E2; bool_prop; lia. Qed.

Lemma u8_bits x n : 0 ≤ n → Z.testbit (u8 x) n = (n <? 8) && Z.testbit x n.
Proof.
  intros Hn. unfold u8. destruct (n <? 8) eqn:E; bool_prop; [by rewrite Z.mod_pow2_bits_low by lia|by rewrite Z.mod_pow2_bits_high by lia].
Qed.

(** A new value of a line's mask register. *)
Lemma mask_update s line v (b : bool) :
  pic_ready (pic s) → 0 ≤ line < 16 → (∀ n, 0 ≤ n < 8 → Z.testbit v n = if decide (n = line_bit line) then b else Z.testbit (imr (pic s) (line_port line)) n) →
  let d' := pic_out (line_port line) v (pic s) in
  pic_ready d' ∧ (∀ l, 0 ≤ l < 16 → masked d' l = if decide (l = line) then b else masked (pic s) l) ∧ ∀ p, pic_base d' p = pic_base (pic s) p.
Proof.
  intros Hr Hl Hv d'. destruct (pic_mask_out (pic s) (line_port line) v Hr (line_data line)) as (R1 & R2 & R3 & R4). split; [done|]. split; [|done].
  intros l Hl'. unfold masked, d'. pose proof (line_bit_range l Hl'). destruct (decide (line_port l = line_port line)) as [E|E].
  - rewrite E, R2, Hv by done. destruct (decide (l = line)) as [->|Hne]; [by rewrite decide_True|]. rewrite decide_False; [done|]. intros Hb. by apply Hne, line_inj.
  - rewrite R3 by done. rewrite decide_False; [done|]. by intros ->.
Qed.

Definition mask_set s line (b : bool) s' : Prop :=
  ∃ d', s' = set_pic d' s ∧ pic_ready d' ∧ (∀ l, 0 ≤ l < 16 → masked d' l = if decide (l = line) then b else masked (pic s) l) ∧ ∀ p, pic_base d' p = pic_base (pic s) p.

Lemma one_bit k n : 0 ≤ k → Z.testbit (Z.shiftl 1 k) n = bool_decide (n = k).
Proof. intros Hk. rewrite Z.shiftl_1_l, Z.pow2_bits_eqb by done. case_bool_decide; lia. Qed.

(** Both masking functions read the register of the line and write it back. *)
Lemma mask_rmw s line (f : Z → Z) b : pic_ready (pic s) → 0 ≤ line < 16 →
  (∀ v n, 0 ≤ n < 8 → Z.testbit (f v) n = if decide (n = line_bit line) then b else Z.testbit v n) →
  wp (v <- inb (line_port line) ;; outb (line_port line) (u8 (f v))) s (λ _ s', mask_set s line b s').
Proof.
  intros Hr Hl Hf. wp_step. unfold inb, wp at 1. rewrite pic_mask_in by (done || apply line_data). cbn [Datatypes.fst Datatypes.snd]. rewrite set_pic_same.
  apply wp_outb. eexists. split; [done|]. apply mask_update; [done|done|]. intros n Hn. rewrite u8_bits by lia. rewrite (proj2 (Z.ltb_lt n 8)) by lia. by apply Hf.
Qed.

Lemma IRQ_set_mask_spec s line : pic_ready (pic s) → 0 ≤ line < 16 → wp (IRQ_set_mask line) s (λ _ s', mask_set s line true s').
Proof.
  intros Hr Hl. pose proof (line_bit_range line Hl) as Hb. apply (mask_rmw s line (λ v, Z.lor v (Z.shiftl 1 (line_bit line)))); [done|done|].
  intros v n Hn. rewrite Z.lor_spec, one_bit by lia. case_decide; [rewrite bool_decide_true by done; apply orb_true_r|rewrite bool_decide_false by done; apply orb_false_r].
Qed.

Lemma IRQ_clear_mask_spec s line : pic_ready (pic s) → 0 ≤ line < 16 → wp (IRQ_clear_mask line) s (λ _ s', mask_set s line false s').
Proof.
  intros Hr Hl. pose proof (line_bit_range line Hl) as Hb. apply (mask_rmw s line (λ v, Z.land v (Z.lnot (Z.shiftl 1 (line_bit line))))); [done|done|].
  intros v n Hn. rewrite Z.land_spec, Z.lnot_spec, one_bit by lia. case_decide; [rewrite bool_decide_true by done; apply andb_false_r|rewrite bool_decide_false by done; apply andb_true_r].
Qed.

(** ** [PIC_init] *)

Lemma PIC_remap_spec s o1 o2 : 0 ≤ o1 < 2 ^ 8 → 0 ≤ o2 < 2 ^ 8 →
  wp (PIC_remap o1 o2) s (λ _ s', ∃ d', s' = set_pic d' s ∧ pic_ready d' ∧ pic_base d' PIC1_DATA = o1 ∧ pic_base d' PIC2_DATA = o2 ∧ ∀ l, masked d' l = false).
Proof.
  intros H1 H2. destruct (pic_icw (pic s) o1 o2) as (R0 & B1 & B2). set (d0 := foldl _ _ _) in *.
  assert (u8 o1 = o1 ∧ u8 o2 = o2) as [E1 E2] by (unfold u8; rewrite !Z.mod_small by lia; done).
  destruct (pic_mask_out d0 PIC1_DATA 0 R0 (or_introl eq_refl)) as (R1 & I1 & O1 & Ba1). destruct (pic_mask_out (pic_out PIC1_DATA 0 d0) PIC2_DATA 0 R1 (or_intror eq_refl)) as (R2 & I2 & O2 & Ba2).
  assert (PIC_remap o1 o2 s = Ret (tt, set_pic (pic_out PIC2_DATA 0 (pic_out PIC1_DATA 0 d0)) s)) as Er.
  { unfold PIC_remap, outb, io_wait, outb, modify, bind. cbn [pic set_pic]. rewrite !pic_unused, E1, E2. reflexivity. }
  eapply wp_of_eq; [exact Er|]. eexists. split; [done|]. split; [done|]. split; [by rewrite Ba2, Ba1|]. split; [by rewrite Ba2, Ba1|].
  intros l. unfold masked. destruct (line_data l) as [-> | ->]; [rewrite O2, I1 by done|rewrite I2]; apply Z.bits_0.
Qed.

Lemma PIC_init_spec s : wp PIC_init s (λ _ s', ∃ d', s' = set_pic d' s ∧ pic_ready d' ∧ pic_base d' PIC1_DATA = PIC1_VECTOR ∧ pic_base d' PIC2_DATA = PIC2_VECTOR ∧
  ∀ l, 0 ≤ l < 16 → masked d' l = (l <? 15) && negb (l =? 2)).
Proof.
  unfold PIC_init. wp_step. eapply wp_mono; [by apply PIC_remap_spec|]. cbv beta. intros _ s1 (d1 & -> & R1 & B1 & B2 & M1).
  eapply wp_mono; [apply (wp_for_each (λ past rest t, ∃ d', t = set_pic d' s ∧ pic_ready d' ∧ pic_base d' PIC1_DATA = PIC1_VECTOR ∧ pic_base d' PIC2_DATA = PIC2_VECTOR ∧
    ∀ l, 0 ≤ l < 16 → masked d' l = bool_decide (l ∈ past) && negb (l =? 2)))|].
  - by exists d1.
  - intros past i rest t Hsplit (d & -> & R & Ba1 & Ba2 & Hm).
    assert (0 ≤ i < 15) as Hi by (assert (i ∈ seqZ 0 15) as Hx%elem_of_seqZ by (rewrite Hsplit; set_solver); lia). destruct (i =? 2) eqn:E2; bool_prop; cbn [negb].
    + apply wp_ret. exists d. split_and!; try done. intros l Hl. rewrite Hm by done. destruct (l =? 2) eqn:El; bool_prop; [by rewrite !andb_false_r|]. f_equal. apply bool_decide_ext. set_solver.
    + eapply wp_mono; [apply IRQ_set_mask_spec; [done|lia]|]. cbv beta. intros _ t' (d2 & -> & R2 & Hm2 & Hb2). exists d2. cbn [pic set_pic] in *. split_and!; try done; [congruence..|].
      intros l Hl. rewrite Hm2 by done. case_decide as El; [subst l; rewrite bool_decide_true by set_solver; rewrite (proj2 (Z.eqb_neq i 2)) by done; done|].
      rewrite Hm by done. f_equal. apply bool_decide_ext. set_solver.
  - cbv beta. intros _ t (d & -> & R & Ba1 & Ba2 & Hm). exists d. split_and!; try done. intros l Hl. rewrite Hm by done. f_equal. case_bool_decide as Hx; rewrite elem_of_seqZ in Hx; symmetry; [apply Z.ltb_lt|apply Z.ltb_ge]; lia.
Qed.

(** ** Gates *)

Definition gate_target (g : idt_entry) : Z := offset1 g + 2 ^ 16 * offset2 g + 2 ^ 32 * offset3 g.

(** A present interrupt gate to the stub of vector [v], entered by code of privilege [dpl]. *)
Definition gate_ok (v ist type dpl : Z) (g : idt_entry) : Prop :=
  gate_target g = u64 (isr0_addr + v * STUB_SIZE) ∧ gate_select g = KERNEL_CS ∧ gate_IST g = ist ∧ gate_type g = type ∧ gate_DPL g = dpl ∧ gate_pres g = 1.

Lemma split_addr a : 0 ≤ a < 2 ^ 64 → u16 (Z.land a 0xFFFF) + 2 ^ 16 * u16 (Z.land (Z.shiftr a 16) 0xFFFF) + 2 ^ 32 * u32 (Z.land (Z.shiftr a 32) 0xFFFFFFFF) = a.
Proof.
  intros Ha. change 0xFFFF with (Z.ones 16). change 0xFFFFFFFF with (Z.ones 32). rewrite !Z.land_ones, !Z.shiftr_div_pow2 by lia. unfold u16, u32. rewrite !Z.mod_mod by lia.
  assert (a / 2 ^ 32 = a / 2 ^ 16 / 2 ^ 16) as -> by (rewrite Z.div_div by lia; done).
  rewrite (Z.mod_small (a / 2 ^ 16 / 2 ^ 16)) by (split; [apply Z.div_pos; [apply Z.div_pos; lia|lia]|rewrite Z.div_div by lia; apply Z.div_lt_upper_bound; lia]).
  pose proof (Z.div_mod a (2 ^ 16) ltac:(lia)). pose proof (Z.div_mod (a / 2 ^ 16) (2 ^ 16) ltac:(lia)). lia.
Qed.

Lemma add_idt_entry_spec s v ist type dpl Q : 0 ≤ v < 256 → 0 ≤ ist < 8 → 0 ≤ type < 16 → 0 ≤ dpl < 4 → length (idt s) = 256%nat →
  (∀ g, gate_ok v ist type dpl g → Q tt (set_idt (<[Z.to_nat v := g]> (idt s)) s)) → wp (add_idt_entry v ist type dpl) s Q.
Proof.
  intros Hv Hi Ht Hd Hl HQ. apply wp_modify, HQ. split; [apply split_addr, u64_range|]. cbn [gate_select gate_IST gate_type gate_DPL gate_pres]. split; [done|].
  rewrite !Z.mod_small by lia. change 3 with (Z.ones 2). rewrite Z.land_ones, Z.mod_small by lia. done.
Qed.

(** ** The tables *)

Definition gate_at s v ist type dpl : Prop := ∃ g, idt s !! Z.to_nat v = Some g ∧ gate_ok v ist type dpl g.

Definition handler_at s v : option isr_t := e ← isr_table s !! Z.to_nat v; handler e.

(** Every vector has a gate to its own stub. *)
Record tables_wf s : Prop := {
  tw_isr : length (isr_table s) = 256%nat;
  tw_idt : length (idt s) = 256%nat;
  tw_gate v : 0 ≤ v < 256 → ∃ ist type dpl, gate_at s v ist type dpl
}.

Lemma idt_init_spec s : length (idt s) = 256%nat → wp idt_init s (λ _ s', ∃ gs, s' = set_idt gs (set_idtr (4095, idt_addr) s) ∧ length gs = 256%nat ∧ ∀ v, 0 ≤ v < 256 → gate_at s' v 0 TYPE_INTRGATE 0).
Proof.
  intros Hl. unfold idt_init. wp_step. apply wp_modify. eapply wp_mono; [apply (wp_for_each (λ past rest t, ∃ gs, t = set_idt gs (set_idtr (4095, idt_addr) s) ∧ length gs = 256%nat ∧
    ∀ v, v ∈ past → 0 ≤ v < 256 ∧ gate_at t v 0 TYPE_INTRGATE 0))|].
  - exists (idt s). split; [by destruct s|]. split; [done|]. intros v Hv. set_solver.
  - intros past i rest t Hsplit (gs & -> & Hgs & Hp). assert (0 ≤ i < 256) as Hi by (assert (i ∈ seqZ 0 NUM_ISRS) as Hx%elem_of_seqZ by (rewrite Hsplit; set_solver); unfold NUM_ISRS in Hx; lia).
    replace (u8 i) with i by (unfold u8; by rewrite Z.mod_small by lia). apply add_idt_entry_spec; [done|lia|unfold TYPE_INTRGATE; lia|lia|done|].
    intros g Hg. exists (<[Z.to_nat i := g]> gs). split; [done|]. split; [by rewrite length_insert|]. intros v Hv. unfold gate_at. cbn [idt set_idt].
    destruct (decide (v = i)) as [->|Hne]; [split; [done|]; exists g; rewrite list_lookup_insert_eq by lia; done|].
    destruct (Hp v) as [Hv' (g' & Hg' & Hok)]; [set_solver|]. split; [done|]. exists g'. rewrite list_lookup_insert_ne by lia. done.
  - cbv beta. intros _ t (gs & -> & Hgs & Hp). exists gs. split; [done|]. split; [done|]. intros v Hv. apply Hp, elem_of_seqZ. unfold NUM_ISRS. lia.
Qed.

(** The address and the limit a descriptor encodes. *)
Definition desc_base (d : tss_descriptor) : Z := base1 d + 2 ^ 16 * base2 d + 2 ^ 24 * base3 d + 2 ^ 32 * base4 d.
Definition desc_limit (d : tss_descriptor) : Z := limit1 d + 2 ^ 16 * limit2 d.

Lemma split_base a : 0 ≤ a < 2 ^ 64 →
  u16 (Z.land a 0xFFFF) + 2 ^ 16 * u8 (Z.land (Z.shiftr a 16) 0xFF) + 2 ^ 24 * u8 (Z.land (Z.shiftr a 24) 0xFF) + 2 ^ 32 * u32 (Z.shiftr a 32) = a.
Proof.
  intros Ha. change 0xFFFF with (Z.ones 16). change 0xFF with (Z.ones 8). rewrite !Z.land_ones, !Z.shiftr_div_pow2 by lia. unfold u16, u32, u8. rewrite !Z.mod_mod by lia.
  assert (a / 2 ^ 24 = a / 2 ^ 16 / 2 ^ 8) as -> by (rewrite Z.div_div by lia; done). assert (a / 2 ^ 32 = a / 2 ^ 16 / 2 ^ 8 / 2 ^ 8) as -> by (rewrite !Z.div_div by lia; done).
  rewrite (Z.mod_small (a / 2 ^ 16 / 2 ^ 8 / 2 ^ 8)) by (rewrite !Z.div_div by lia; split; [apply Z.div_pos; lia|apply Z.div_lt_upper_bound; lia]).
  pose proof (Z.div_mod a (2 ^ 16) ltac:(lia)). pose proof (Z.div_mod (a / 2 ^ 16) (2 ^ 8) ltac:(lia)). pose proof (Z.div_mod (a / 2 ^ 16 / 2 ^ 8) (2 ^ 8) ltac:(lia)). lia.
Qed.

(** The task state segment as the processor sees it. *)
Definition tss_ok s : Prop :=
  desc_base (tss_desc s) = tss_addr ∧ desc_limit (tss_desc s) = TSS_SIZE - 1 ∧ td_type (tss_desc s) = TSS_TYPE ∧ td_pres (tss_desc s) = 1 ∧
  task_reg s = TSS_DESC_CS ∧ tss s = Tss (u64 (ist1_stack + TSS_STACK_SIZE)) (u64 (ist2_stack + TSS_STACK_SIZE)) (u64 (ist3_stack + TSS_STACK_SIZE)) TSS_SIZE.

Lemma tss_init_spec s : 0 ≤ tss_addr < 2 ^ 64 → wp tss_init s (λ _ s', tss_ok s' ∧ isr_table s' = isr_table s ∧ idt s' = idt s ∧ pic s' = pic s ∧ int_on s' = int_on s).
Proof.
  intros Ha. unfold tss_init. wp_step. apply wp_modify. cbv zeta. wp_step. apply wp_modify. apply wp_modify. split; [|done]. split; [by apply split_base|]. by split_and!.
Qed.

(** ** Registration *)

(** [register_interrupt] of a vector that is free. *)
Record registered s v ist type dpl h arg s' : Prop := {
  rg_wf : tables_wf s';
  rg_gate : gate_at s' v ist type dpl;
  rg_gates x i t p : 0 ≤ x < 256 → x ≠ v → gate_at s x i t p → gate_at s' x i t p;
  rg_table : isr_table s' = <[Z.to_nat v := IsrEntry (Some h) arg]> (isr_table s);
  rg_ready : pic_ready (pic s');
  rg_masked l : 0 ≤ l < 16 → masked (pic s') l = if decide (v = l + 32) then false else masked (pic s) l;
  rg_base p : pic_base (pic s') p = pic_base (pic s) p;
  rg_on : int_on s' = true;
  rg_tss : tss s' = tss s ∧ tss_desc s' = tss_desc s ∧ task_reg s' = task_reg s
}.

Lemma register_interrupt_spec s v ist type dpl h arg :
  tables_wf s → pic_ready (pic s) → 0 ≤ ist < 8 → 0 ≤ type < 16 → 0 ≤ dpl < 4 →
  wp (register_interrupt v ist type dpl h arg) s (λ _ s',
    if decide (0 ≤ v < 256 ∧ handler_at s v = None) then registered s v ist type dpl h arg s' else s' = set_int_on false s).
Proof.
  intros [T1 T2 T3] Hr Hi Ht Hd. unfold register_interrupt. wp_step. apply wp_modify. wp_step. apply wp_gets. cbv zeta. cbn [isr_table set_int_on].
  destruct (decide (0 ≤ v < 256 ∧ handler_at s v = None)) as [[Hv Hf]|Hn].
  2: { assert ((NUM_ISRS <=? v) || (v <? 0) || match isr_table s !! Z.to_nat v with Some e => negb (bool_decide (handler e = None)) | None => false end = true) as ->; [|by apply wp_ret].
       destruct (decide (0 ≤ v < 256)) as [Hv|Hv]; [|unfold NUM_ISRS; apply orb_true_intro; left; lia]. destruct (lookup_lt_is_Some_2 (isr_table s) (Z.to_nat v)) as [en Hen]; [lia|].
       unfold handler_at in Hn. rewrite Hen in *. cbn in Hn. rewrite bool_decide_false by tauto. apply orb_true_r. }
  destruct (lookup_lt_is_Some_2 (isr_table s) (Z.to_nat v)) as [en Hen]; [lia|]. unfold handler_at in Hf. rewrite Hen in *. cbn [mbind option_bind] in Hf. rewrite bool_decide_true by done.
  assert ((NUM_ISRS <=? v) || (v <? 0) || negb true = false) as -> by (unfold NUM_ISRS; cbn [negb]; lia). replace (u8 v) with v by (unfold u8; by rewrite Z.mod_small by lia).
  wp_step. apply add_idt_entry_spec; [done..|]. intros g Hg. wp_step. apply wp_modify. wp_step. cbn [idt isr_table set_isr_table set_idt set_int_on].
  set (s1 := set_isr_table _ _).
  assert (wp (if (PIC1_VECTOR <=? v) && (v <? PIC2_VECTOR + 8) then IRQ_clear_mask (u8 (v - PIC1_VECTOR)) else ret tt) s1 (λ _ s', ∃ d', s' = set_pic d' s1 ∧ pic_ready d' ∧
    (∀ l, 0 ≤ l < 16 → masked d' l = if decide (v = l + 32) then false else masked (pic s) l) ∧ ∀ p, pic_base d' p = pic_base (pic s) p)) as Hclear.
  { unfold PIC1_VECTOR, PIC2_VECTOR. destruct ((32 <=? v) && (v <? 40 + 8)) eqn:Ec; bool_prop.
    - replace (u8 (v - 32)) with (v - 32) by (unfold u8; by rewrite Z.mod_small by lia). eapply wp_mono; [apply IRQ_clear_mask_spec; [done|lia]|].
      cbv beta. intros _ s' (d' & -> & R & Hm & Hb). exists d'. split_and!; try done. intros l Hl. rewrite Hm by done. repeat case_decide; try lia; done.
    - apply wp_ret. exists (pic s). split; [by destruct s|]. split_and!; try done. intros l Hl. rewrite decide_False by lia. done. }
  eapply wp_mono; [exact Hclear|]. cbv beta. intros _ s2 (d' & -> & R & Hm & Hb). apply wp_modify.
  assert (∀ x i t p, 0 ≤ x < 256 → x ≠ v → gate_at s x i t p → gate_at (set_int_on true (set_pic d' s1)) x i t p) as Hother.
  { intros x i t p Hx Hne (g' & Hg' & Hok). exists g'. split; [|done]. cbn. by rewrite list_lookup_insert_ne by lia. }
  assert (gate_at (set_int_on true (set_pic d' s1)) v ist type dpl) as Hself by (exists g; split; [|done]; cbn; by rewrite list_lookup_insert_eq by lia).
  split; try done. split; [cbn; by rewrite length_insert|cbn; by rewrite length_insert|]. intros x Hx. destruct (decide (x = v)) as [->|Hne]; [eauto|].
  destruct (T3 x Hx) as (i & t & p & Hgx). eauto 10.
Qed.

Lemma handler_insert s s' v x h arg : 0 ≤ v < 256 → 0 ≤ x < 256 → length (isr_table s) = 256%nat → isr_table s' = <[Z.to_nat v := IsrEntry (Some h) arg]> (isr_table s) →
  handler_at s' x = if decide (x = v) then Some h else handler_at s x.
Proof.
  intros Hv Hx Hl Ht. unfold handler_at. rewrite Ht. case_decide as E; [subst x; by rewrite list_lookup_insert_eq by lia|by rewrite list_lookup_insert_ne by lia].
Qed.

(** From the zeroed tables of a booting kernel, [interrupts_init] leaves every one of the
    256 vectors with a present kernel-mode interrupt gate whose three offset fields recombine to the
    vector's slot of the stub table, double faults and protection faults on their own stacks and with their handlers, no other handler,
    a task-state descriptor whose four base fields recombine to the segment, the two controllers on
    vectors 32 and 40 with every line but 2 and 15 masked, and interrupts enabled. *)
Theorem interrupts_init_correct s :
  length (isr_table s) = 256%nat → length (idt s) = 256%nat → (∀ v, 0 ≤ v < 256 → handler_at s v = None) → 0 ≤ tss_addr < 2 ^ 64 →
  wp interrupts_init s (λ _ s',
    tables_wf s' ∧
    (∀ v, 0 ≤ v < 256 → gate_at s' v (if decide (v = 8) then 1 else if decide (v = 13) then 2 else 0) TYPE_INTRGATE 0) ∧
    (∀ v, 0 ≤ v < 256 → handler_at s' v = if decide (v = 13) then Some ISR13_general_protection else if decide (v = 8) then Some ISR8_double_fault else None) ∧
    tss_ok s' ∧ pic_ready (pic s') ∧ pic_base (pic s') PIC1_DATA = PIC1_VECTOR ∧ pic_base (pic s') PIC2_DATA = PIC2_VECTOR ∧
    (∀ l, 0 ≤ l < 16 → masked (pic s') l = (l <? 15) && negb (l =? 2)) ∧ int_on s' = true).
Proof.
  intros Hl1 Hl2 Hnone Ha. unfold interrupts_init. wp_step. apply wp_modify. wp_step. eapply wp_mono; [by apply idt_init_spec|]. cbv beta. intros _ s1 (gs & E1 & Hgs & Hgates).
  wp_step. eapply wp_mono; [by apply tss_init_spec|]. cbv beta. intros _ s2 (Htss & I2 & G2 & P2 & _). wp_step. eapply wp_mono; [apply PIC_init_spec|].
  cbv beta. intros _ s3 (d & -> & R & B1 & B2 & Hm). wp_step. apply wp_modify. set (s4 := set_int_on true (set_pic d s2)).
  assert (isr_table s4 = isr_table s) as It by (cbn; rewrite I2, E1; done). assert (idt s4 = idt s1) as Ig by exact G2.
  assert (∀ v, 0 ≤ v < 256 → gate_at s4 v 0 TYPE_INTRGATE 0) as Hg4 by (intros v Hv; unfold gate_at; rewrite Ig; by apply Hgates).
  assert (∀ v, handler_at s4 v = handler_at s v) as Hh4 by (intros v; unfold handler_at; by rewrite It).
  assert (tables_wf s4) as Hwf by (split; [by rewrite It|rewrite Ig, E1; done|]; intros v Hv; eauto).
  wp_step. eapply wp_mono; [apply register_interrupt_spec; [exact Hwf|exact R|unfold TYPE_INTRGATE; lia..]|]. cbv beta. intros _ s5. rewrite decide_True by (split; [lia|rewrite Hh4; apply Hnone; lia]).
  intros [W5 G5 O5 T5 R5 M5 B5 N5 (Ts5 & Td5 & Tr5)].
  assert (∀ x, 0 ≤ x < 256 → handler_at s5 x = if decide (x = 8) then Some ISR8_double_fault else None) as Hh5
    by (intros x Hx; rewrite (handler_insert s4 s5 8 x _ 0) by (lia || apply Hwf || done); case_decide; [done|]; rewrite Hh4; by apply Hnone).
  eapply wp_mono; [apply register_interrupt_spec; [exact W5|exact R5|unfold TYPE_INTRGATE; lia..]|]. cbv beta. intros _ s6. rewrite decide_True by (split; [lia|by rewrite Hh5 by lia]).
  intros [W6 G6 O6 T6 R6 M6 B6 N6 (Ts6 & Td6 & Tr6)]. split; [exact W6|]. split_and!; try done.
  - intros v Hv. destruct (decide (v = 8)) as [->|H8]; [by apply O6|]. destruct (decide (v = 13)) as [->|H13]; [done|]. apply O6, O5; [done..|]. by apply Hg4.
  - intros v Hv. rewrite (handler_insert s5 s6 13 v _ 0) by (lia || apply W5 || done). case_decide; [done|]. by apply Hh5.
  - unfold tss_ok. rewrite Ts6, Ts5, Td6, Td5, Tr6, Tr5. exact Htss.
  - by rewrite B6, B5.
  - by rewrite B6, B5.
  - intros l Hl. rewrite M6, M5 by done. rewrite !decide_False by lia. by apply Hm.
Qed.

(** ** Delivery *)

(** The end-of-interrupt commands a vector needs: the second controller's vectors need both. *)
Definition eoi_cmds (v : Z) : list (Z * Z) :=
  if bool_decide (40 ≤ v < 48) then [(PIC2_COMMAND, 0x20); (PIC1_COMMAND, 0x20)] else if bool_decide (32 ≤ v < 40) then [(PIC1_COMMAND, 0x20)] else [].

Definition eoi v s : intr D := set_pic (foldl (λ d w, pic_out w.1 w.2 d) (pic s) (eoi_cmds v)) s.

Lemma IRQ_end_of_interrupt_eq v s : IRQ_end_of_interrupt v s = Ret (tt, eoi v s).
Proof.
  unfold IRQ_end_of_interrupt, eoi, eoi_cmds, PIC1_VECTOR, PIC2_VECTOR. destruct ((40 <=? v) && (v <? 40 + 8)) eqn:E2; bool_prop.
  - rewrite bool_decide_true by lia. assert ((32 <=? v) && (v <? 32 + 16) = true) as -> by lia. by destruct s.
  - rewrite bool_decide_false by lia. destruct ((32 <=? v) && (v <? 32 + 16)) eqn:E1; bool_prop; [rewrite bool_decide_true by lia; done|rewrite bool_decide_false by lia; by destruct s].
Qed.

Section delivery.
Context {R : Type} (call : isr_t → Z → Z → Z → M (intr D * R) unit).

(** What the common stub does for one interrupt, given the table entry. *)
Definition deliver (h : isr_t) (v err a : Z) (p : intr D * R) : outcome (unit * (intr D * R)) :=
  match call h v err a p with Ret (_, (s, w)) => Ret (tt, (eoi v s, w)) | Halt => Halt | NoFuel => NoFuel end.

Lemma c_isr_handler_eq v err rsp s (w : R) : 0 ≤ v < 256 → length (isr_table s) = 256%nat →
  c_isr_handler call v err rsp (s, w) = match isr_table s !! Z.to_nat v with
    | Some (IsrEntry (Some h) arg) => deliver h v err (if bool_decide (arg = 0) then rsp else arg) (s, w) | _ => Halt end.
Proof.
  intros Hv Hl. unfold c_isr_handler, bind at 1, on_intr at 1. cbn [gets Datatypes.fst Datatypes.snd]. destruct (isr_table s !! Z.to_nat v) as [[[h|] arg]|] eqn:E; cbn [handler isr_arg]; try reflexivity.
  assert ((if negb (arg =? 0) then call h v err arg else call h v err rsp) = call h v err (if bool_decide (arg = 0) then rsp else arg)) as ->.
  { case_bool_decide as Ea; [subst; done|]. by rewrite (proj2 (Z.eqb_neq arg 0)). }
  unfold bind, deliver. destruct (call h v err _ (s, w)) as [[[] [s' w']]| |]; try reflexivity. unfold on_intr. cbn [Datatypes.fst Datatypes.snd].
  replace (u8 v) with v by (unfold u8; by rewrite Z.mod_small by lia). by rewrite IRQ_end_of_interrupt_eq.
Qed.

End delivery.
End theorems.

(** ** Two 8259 controllers *)

(** One controller: the next initialisation word it expects (0: none), its vector base,
    its mask and the end-of-interrupt commands it received. *)
Record chip := Chip { icw : nat; base : Z; mask : Z; eois : nat }.

Definition chip_command (v : Z) (c : chip) : chip :=
  if Z.testbit v 4 then Chip 2 0 0 (eois c) else if v =? 0x20 then Chip (icw c) (base c) (mask c) (S (eois c)) else c.

Definition chip_data (v : Z) (c : chip) : chip :=
  match icw c with
  | 2%nat => Chip 3 v (mask c) (eois c)
  | 3%nat => Chip 4 (base c) (mask c) (eois c)
  | 0%nat => Chip 0 (base c) v (eois c)
  | _ => Chip 0 (base c) (mask c) (eois c)
  end.

Definition pair_out (port v : Z) (d : chip * chip) : chip * chip :=
  if port =? PIC1_COMMAND then (chip_command v d.1, d.2) else if port =? PIC2_COMMAND then (d.1, chip_command v d.2)
  else if port =? PIC1_DATA then (chip_data v d.1, d.2) else if port =? PIC2_DATA then (d.1, chip_data v d.2) else d.

Definition pair_sel (port : Z) (d : chip * chip) : chip := if port =? PIC1_DATA then d.1 else if port =? PIC2_DATA then d.2 else Chip 0 0 0 0.

#[export] Instance pair_dev : PicDev (chip * chip) := {
  pic_out := pair_out;
  pic_in port d := (mask (pair_sel port d), d)
}.

#[export, program] Instance pair_laws : PicLaws (chip * chip) := {
  pic_ready d := icw d.1 = 0%nat ∧ icw d.2 = 0%nat;
  imr d port := mask (pair_sel port d);
  pic_base d port := base (pair_sel port d)
}.
Next Obligation. done. Qed.
Next Obligation. by intros [[] []] o1 o2. Qed.
Next Obligation.
  intros [[i1 b1 m1 e1] [i2 b2 m2 e2]] port v [R1 R2] Hport. cbn in R1, R2. subst. destruct Hport as [-> | ->]; cbn.
  all: split_and!; try done; intros p; unfold pair_sel; destruct (Z.eqb_spec p PIC1_DATA); try done; by destruct (Z.eqb_spec p PIC2_DATA).
Qed.
Next Obligation. intros d port _ [-> | ->]; done. Qed.

#[export] Instance boot_layout : IdtLayout := { isr0_addr := 0x100500; idt_addr := 0x108000; tss_addr := 0x109040; ist1_stack := 0x10A000; ist2_stack := 0x10B000; ist3_stack := 0x10C000 }.

Definition boot_intr : intr (chip * chip) :=
  Intr (replicate 256 (IsrEntry None 0)) (replicate 256 (IdtEntry 0 0 0 0 0 0 0 0)) (0, 0) (Tss 0 0 0 0)
    (TssDesc 0 0 0 0 0 0 0 0 0 0 0 0 0 0) 0 (Chip 0 0 0 0, Chip 0 0 0 0) false.

Lemma boot_handlers v : 0 ≤ v < 256 → handler_at boot_intr v = None.
Proof. intros Hv. unfold handler_at, boot_intr. cbn [isr_table]. rewrite lookup_replicate_2 by lia. done. Qed.

Lemma interrupts_init_witness : wp interrupts_init boot_intr (λ _ s', masked (pic s') 1 = true ∧ masked (pic s') 2 = false ∧ handler_at s' 13 = Some ISR13_general_protection ∧ tss_ok s').
Proof.
  eapply wp_mono; [apply (interrupts_init_correct boot_intr); [reflexivity|reflexivity|exact boot_handlers|cbn; lia]|].
  cbv beta. intros _ s' (_ & _ & Hh & Ht & _ & _ & _ & Hm & _). split; [rewrite Hm by lia; reflexivity|]. split; [rewrite Hm by lia; reflexivity|]. split; [rewrite Hh by lia; reflexivity|exact Ht].
Defined.

(** A machine whose gates are set. *)
Definition gates_intr : intr (chip * chip) :=
  set_idt (map (λ v, let a := 0x100500 + v * 9 in IdtEntry (a mod 2 ^ 16) 8 0 0xE 0 1 (a / 2 ^ 16) 0) (seqZ 0 256)) boot_intr.

Lemma gates_wf : tables_wf gates_intr.
Proof.
  split; [reflexivity|reflexivity|]. intros v Hv. exists 0, 0xE, 0. eexists. split; [cbn [gates_intr idt set_idt]; rewrite list_lookup_fmap, lookup_seqZ_lt by lia; reflexivity|].
  unfold gate_ok, gate_target. cbn [offset1 offset2 offset3 gate_select gate_IST gate_type gate_DPL gate_pres]. rewrite !Z2Nat.id by lia. cbv zeta. rewrite Z.add_0_l. change isr0_addr with 0x100500.
  pose proof (Z.div_mod (0x100500 + v * 9) (2 ^ 16) ltac:(lia)). unfold STUB_SIZE. rewrite u64_small by lia. split_and!; try done. lia.
Qed.

