(* ===== verification/Serial.v ===== *)
(** * The serial console ([src/x86_64/drivers/serial_out.c])

    Characters go through the bounded buffer of [Bbuf] to the UART, one at a time: the
    first by the caller, the next by the transmitter-empty interrupt.  The UART is
    hardware, behind [UartDev].  Theorems: no character is lost, repeated or reordered
    between the callers and the wire, and none waits while the transmitter is idle. *)

From S2P Require Import Prelude Bbuf Interrupts InterruptTheorems.

Class UartDev (U : Type) := {
  uart_out : Z → Z → U → U;
  uart_in : Z → U → Z * U
}.

Definition PORT : Z := 0x3f8.
Definition IIR_NO_PENDING : Z := Z.shiftl 1 0.
Definition IIR_MASK : Z := 0x0E.
Definition IIR_THR_EMPTY : Z := 0x02.
Definition LSR_THR_EMPTY : Z := Z.shiftl 1 5.
Definition SER_BUFFER_SIZE : Z := 2048.

(** [ser_active], [ser_st] with the interrupt flag, and the device. *)
Record ser (U : Type) := Ser { ser_active : Z; ser_st : bbm; uart : U }.
Arguments Ser {U}.
Arguments ser_active {U}.
Arguments ser_st {U}.
Arguments uart {U}.

Section serial.
Context {U : Type} {UD : UartDev U}.
Implicit Types (s : ser U).
#[local] Abbreviation MS := (M (ser U)).

Definition set_active (a : Z) s : ser U := Ser a (ser_st s) (uart s).
Definition set_ser_st (b : bbm) s : ser U := Ser (ser_active s) b (uart s).
Definition set_uart (u : U) s : ser U := Ser (ser_active s) (ser_st s) u.

Definition uoutb (port v : Z) : MS unit := modify (λ s, set_uart (uart_out port v (uart s)) s).
Definition uinb (port : Z) : MS Z := λ s, let r := uart_in port (uart s) in Ret (r.1, set_uart r.2 s).

(** A call of [bbuf.c], or of the interrupt-flag idiom, on [ser_st]. *)
Definition on_buf {A} (c : M bbm A) : MS A := λ s,
  match c (ser_st s) with Ret (a, b) => Ret (a, set_ser_st b s) | Halt => Halt | NoFuel => NoFuel end.

Definition transmit_empty : MS Z := v <- uinb (PORT + 5) ;; ret (Z.land v LSR_THR_EMPTY).

Definition transmit : MS unit :=
  enable_ints <- on_buf bb_cli ;;
  active <- gets ser_active ;;
  (if negb (active =? 0) then
     e <- transmit_empty ;;
     if negb (e =? 0) then modify (set_active 0) else ret tt
   else ret tt) ;;
  active <- gets ser_active ;;
  (if active =? 0 then
     r <- on_buf (bbuf_try_consume false) ;;
     if r.1 =? 0 then modify (set_active 1) ;; uoutb PORT (u8 (default 0 r.2)) else ret tt
   else ret tt) ;;
  on_buf (bb_restore enable_ints).

Definition serial_display_char (c : Z) : MS unit :=
  on_buf (bbuf_try_add c) ;;
  transmit.

(** [s] is the string without its terminator. *)
Definition serial_display_string (str : list Z) : MS unit := for_each str serial_display_char.

(** The handler, entered through an interrupt gate. *)
Definition ISR36_serial : MS unit :=
  iir <- uinb (PORT + 2) ;;
  if negb (Z.land iir IIR_NO_PENDING =? 0) then ret tt
  else if Z.land iir IIR_MASK =? IIR_THR_EMPTY then modify (set_active 0) ;; transmit
  else ret tt.

(** [serial_init] on the interrupt tables and the console; [ser_buf] is the static array. *)
Section init.
Context {D : Type} {PD : PicDev D} `{IdtLayout}.

Definition on_ser {A} (c : MS A) : M (intr D * ser U) A := λ p,
  match c p.2 with Ret (a, s) => Ret (a, (p.1, s)) | Halt => Halt | NoFuel => NoFuel end.

(** Both components see the one interrupt flag. *)
Definition ser_register (vector IST type DPL : Z) (h : isr_t) (arg : Z) : M (intr D * ser U) unit := λ p,
  match register_interrupt vector IST type DPL h arg (set_int_on (bb_ints (ser_st p.2)) p.1) with
  | Ret (_, i) => Ret (tt, (i, set_ser_st (set_bb_ints (int_on i) (ser_st p.2)) p.2))
  | Halt => Halt
  | NoFuel => NoFuel
  end.

Definition serial_init (ser_buf : list Z) : M (intr D * ser U) Z :=
  on_ser (
    uoutb (PORT + 1) 0x00 ;;
    uoutb (PORT + 3) 0x80 ;;
    uoutb (PORT + 0) 0x01 ;;
    uoutb (PORT + 1) 0x00 ;;
    uoutb (PORT + 3) 0x03 ;;
    uoutb (PORT + 2) 0xC7 ;;
    uoutb (PORT + 4) 0x03 ;;
    uoutb (PORT + 4) 0x0F ;;
    uoutb (PORT + 1) 0x02 ;;
    on_buf (bbuf_init ser_buf SER_BUFFER_SIZE)) ;;
  ser_register 36 0 TYPE_INTRGATE 0 ISR36_IRQ4_serial 0 ;;
  ret 0.
End init.
End serial.

(** ** The wire *)

(** The documented registers of the 16550: a write to the data port puts a byte on the wire
    unless the line-control register's top bit redirects it to the divisor. *)
Class UartLaws (U : Type) {UD : UartDev U} := {
  wire : U → list Z;
  dlab : U → bool;
  ul_data u v : dlab u = false → wire (uart_out PORT v u) = wire u ++ [v];
  ul_divisor u v : dlab u = true → wire (uart_out PORT v u) = wire u;
  ul_other u port v : port ≠ PORT → wire (uart_out port v u) = wire u;
  ul_lcr u v : dlab (uart_out (PORT + 3) v u) = Z.testbit v 7;
  ul_dlab u port v : port ≠ PORT + 3 → dlab (uart_out port v u) = dlab u;
  ul_in u port : wire (uart_in port u).2 = wire u ∧ dlab (uart_in port u).2 = dlab u
}.

(** The atomic steps: each runs with interrupts disabled, so that a console write is [Put]
    then [Kick] with other threads and interrupts in between. *)
Inductive ser_event := Put (c : Z) | Kick | Irq.

Section theorems.
Context {U : Type} {UD : UartDev U} {UL : UartLaws U}.
Implicit Types (s : ser U) (evs : list ser_event).

Definition ser_do (ev : ser_event) : M (ser U) unit :=
  match ev with
  | Put c => on_buf (bbuf_try_add c) ;; ret tt
  | Kick => transmit
  | Irq => ISR36_serial
  end.

Definition ser_run (evs : list ser_event) : M (ser U) unit := for_each evs ser_do.

Definition puts (evs : list ser_event) : list Z := omap (λ ev, match ev with Put c => Some c | _ => None end) evs.

(** Every [Put] has been followed by a [Kick]. *)
Fixpoint settled (b : bool) (evs : list ser_event) : bool :=
  match evs with [] => b | Put _ :: evs => settled false evs | Kick :: evs => settled true evs | Irq :: evs => settled b evs end.

Definition waiting s : list Z := bb_queue (bb (ser_st s)).
Definition flag s : bool := bb_ints (ser_st s).

(** Sent and waiting, oldest first. *)
Definition stream s : list Z := wire (uart s) ++ (u8 <$> waiting s).

Definition busy s : Prop := waiting s ≠ [] → ser_active s ≠ 0.

Record ser_inv s : Prop := {
  si_buf : bb_inv (bb (ser_st s));
  si_size : size (bb (ser_st s)) = SER_BUFFER_SIZE;
  si_dlab : dlab (uart s) = false
}.

(** A step that accepts nothing. *)
Record kept s s' : Prop := {
  kp_inv : ser_inv s';
  kp_flag : flag s' = flag s;
  kp_stream : stream s' = stream s;
  kp_len : (length (waiting s') ≤ length (waiting s))%nat
}.

Lemma ser_kept_trans s1 s2 s3 : kept s1 s2 → kept s2 s3 → kept s1 s3.
Proof. intros [] []. split; [done|congruence..|lia]. Qed.

Lemma on_buf_spec {A} (c : M bbm A) s Q : wp c (ser_st s) (λ a b, Q a (set_ser_st b s)) → wp (on_buf c) s Q.
Proof. unfold wp, on_buf. by destruct (c (ser_st s)) as [[a b]| |]. Qed.

Lemma uinb_spec port s Q : (∀ s', uart s' = (uart_in port (uart s)).2 → ser_st s' = ser_st s → ser_active s' = ser_active s → Q (uart_in port (uart s)).1 s') → wp (uinb port) s Q.
Proof. intros HQ. unfold wp, uinb. by apply HQ. Qed.

(** Reading a register keeps everything. *)
Lemma in_kept port s s' : ser_inv s → uart s' = (uart_in port (uart s)).2 → ser_st s' = ser_st s → kept s s'.
Proof.
  intros [I1 I2 I3] Eu Es. destruct (ul_in (uart s) port) as [Hw Hd]. split; [split; [by rewrite Es..|by rewrite Eu, Hd]|unfold flag; by rewrite Es|..].
  all: unfold stream, waiting; by rewrite Es, ?Eu, ?Hw.
Qed.

(** The second half of [transmit]: the oldest character goes out when the transmitter is idle. *)
Definition send_one (e : bool) : M (ser U) unit :=
  active <- gets ser_active ;;
  (if active =? 0 then
     r <- on_buf (bbuf_try_consume false) ;;
     if r.1 =? 0 then modify (set_active 1) ;; uoutb PORT (u8 (default 0 r.2)) else ret tt
   else ret tt) ;;
  on_buf (bb_restore e).

Lemma send_one_spec e s : ser_inv s → flag s = false →
  wp (send_one e) s (λ _ s', ser_inv s' ∧ flag s' = e ∧ stream s' = stream s ∧ (length (waiting s') ≤ length (waiting s))%nat ∧ busy s' ∧
    (ser_active s = 0 → wire (uart s') = wire (uart s) ++ (u8 <$> take 1 (waiting s)) ∧ waiting s' = drop 1 (waiting s))).
Proof.
  intros [I1 I2 I3] Hf. unfold send_one. wp_step. apply wp_gets. wp_step. destruct (ser_active s =? 0) eqn:Ea; bool_prop.
  2: { apply wp_ret, on_buf_spec. destruct (ser_st s) as [b i] eqn:Es. unfold flag in Hf. rewrite Es in Hf. cbn in Hf. subst i. apply bb_restore_spec.
       unfold stream, waiting, busy, flag. cbn. rewrite Es. cbn in *. split_and!; try done; by intros ?. }
  wp_step. apply on_buf_spec. eapply wp_mono; [apply (bb_call_spec Consume); done|]. cbv beta. intros r b (B1 & B2 & B3 & Bq). cbn [queue_call] in Bq. fold (waiting s) in Bq.
  destruct b as [b i]. cbn in B1, B2, B3. fold (flag s) in B3. rewrite Hf in B3. subst i. cbn [bb] in Bq.
  destruct (waiting s) as [|c q] eqn:Ew; injection Bq as <- Hq; cbn [Datatypes.fst Datatypes.snd default Z.eqb].
  - apply wp_ret, on_buf_spec, bb_restore_spec. unfold stream, waiting, busy, flag in *. cbn. rewrite <-Hq, Ew. cbn. rewrite app_nil_r. split_and!; try done. split; cbn; [done|congruence|done].
  - wp_step. apply wp_modify. apply wp_modify. apply on_buf_spec, bb_restore_spec. unfold stream, waiting, busy, flag in *. cbn. rewrite <-Hq, Ew, ul_data by done. cbn. rewrite <-app_assoc.
    split_and!; try done; [|lia]. split; cbn; [done|congruence|]. by rewrite ul_dlab.
Qed.

Lemma transmit_spec s : ser_inv s →
  wp transmit s (λ _ s', kept s s' ∧ busy s' ∧
    (ser_active s = 0 → wire (uart s') = wire (uart s) ++ (u8 <$> take 1 (waiting s)) ∧ waiting s' = drop 1 (waiting s))).
Proof.
  intros Hinv. unfold transmit. wp_step. apply on_buf_spec, bb_cli_spec. fold (flag s). set (s0 := set_ser_st _ s).
  assert (ser_inv s0 ∧ flag s0 = false ∧ stream s0 = stream s) as (J0 & F0 & S0) by (destruct Hinv; by split_and!).
  wp_step. apply wp_gets. wp_step. fold (send_one (flag s)). change (ser_active s0) with (ser_active s).
  destruct (ser_active s =? 0) eqn:Ea; bool_prop; cbn [negb].
  - apply wp_ret. eapply wp_mono; [by apply send_one_spec|]. cbv beta. intros _ s' (R1 & R2 & R3 & R4 & Rb & R5). split; [split; [done..|congruence|done]|]. split; [done|]. intros _. by apply R5.
  - unfold transmit_empty. wp_step. wp_step. apply uinb_spec. intros s1 U1 B1 A1. pose proof (in_kept _ _ _ J0 U1 B1) as [K1 K2 K3 K4]. apply wp_ret.
    assert (∀ s2, ser_st s2 = ser_st s1 → uart s2 = uart s1 → wp (send_one (flag s)) s2 (λ _ s', kept s s' ∧ busy s' ∧
      (ser_active s = 0 → wire (uart s') = wire (uart s) ++ (u8 <$> take 1 (waiting s)) ∧ waiting s' = drop 1 (waiting s)))) as Hsend.
    { intros s2 E1 E2. eapply wp_mono; [apply send_one_spec|].
      - destruct K1. by split; rewrite ?E1, ?E2.
      - unfold flag in *. rewrite E1. congruence.
      - cbv beta. intros _ s' (R1 & R2 & R3 & R4 & Rb & _).
        assert (stream s2 = stream s1 ∧ waiting s2 = waiting s1) as [Q1 Q2] by (unfold stream, waiting; by rewrite E1, E2).
        rewrite Q2 in R4. split; [split; [done|done|congruence|]|by split]. change (waiting s0) with (waiting s) in K4. lia. }
    destruct (negb _); [apply wp_modify|apply wp_ret]; by apply Hsend.
Qed.

Lemma ISR36_serial_spec s : ser_inv s → wp ISR36_serial s (λ _ s', kept s s' ∧ (busy s → busy s')).
Proof.
  intros Hinv. unfold ISR36_serial. wp_step. apply uinb_spec. intros s1 U1 B1 A1. pose proof (in_kept _ _ _ Hinv U1 B1) as K.
  assert (busy s → busy s1) as Hb by (unfold busy, waiting; by rewrite B1, A1). destruct (negb _); [by apply wp_ret|]. destruct (_ =? _); [|by apply wp_ret].
  wp_step. apply wp_modify. eapply wp_mono; [apply transmit_spec; by destruct K as [[] _ _ _]|]. cbv beta. intros _ s' (K' & Hb' & _). split; [|done].
  eapply ser_kept_trans; [exact K|]. destruct K' as [? ? ? ?]. by split.
Qed.

Lemma ser_put_spec c s : ser_inv s →
  wp (ser_do (Put c)) s (λ _ s', ser_inv s' ∧ flag s' = flag s ∧ uart s' = uart s ∧ ser_active s' = ser_active s ∧
    waiting s' = waiting s ++ if decide (Z.of_nat (length (waiting s)) < SER_BUFFER_SIZE - 1) then [c] else []).
Proof.
  intros [I1 I2 I3]. cbn [ser_do]. wp_step. apply on_buf_spec.
  assert (wp (bbuf_try_add c) (ser_st s) (λ _ b, bb_inv (bb b) ∧ size (bb b) = SER_BUFFER_SIZE ∧ bb_ints b = flag s ∧ bb_queue (bb b) = waiting s ++ if decide (Z.of_nat (length (waiting s)) < SER_BUFFER_SIZE - 1) then [c] else [])) as Hadd.
  { pose proof (bb_call_spec (Add c) (ser_st s) I1) as Hc. unfold wp, bb_call, bind, ret in *. destruct (bbuf_try_add c (ser_st s)) as [[r b]| |]; [|done..].
    destruct Hc as (B1 & B2 & B3 & B4). rewrite I2 in B2, B4. split_and!; try done. cbn [queue_call] in B4. fold (waiting s) in B4. case_decide; [by injection B4|]. injection B4 as _ <-. by rewrite app_nil_r. }
  eapply wp_mono; [exact Hadd|]. cbv beta. intros r b (B1 & B2 & B3 & B4). apply wp_ret. by split_and!.
Qed.

Lemma ser_run_spec evs b s : ser_inv s → (b = true → busy s) →
  wp (ser_run evs) s (λ _ s', ∃ acc, acc `sublist_of` puts evs ∧
    (Z.of_nat (length (waiting s) + length (puts evs)) < SER_BUFFER_SIZE → acc = puts evs) ∧
    ser_inv s' ∧ flag s' = flag s ∧ stream s' = stream s ++ (u8 <$> acc) ∧ (settled b evs = true → busy s')).
Proof.
  revert b s. induction evs as [|ev evs IH]; intros b s Hinv Hb.
  { apply wp_ret. exists []. rewrite app_nil_r. split_and!; try done. }
  unfold ser_run. cbn [for_each]. fold (ser_run evs). wp_step.
  assert (∀ (b' : bool) s1, kept s s1 → (b' = true → busy s1) → puts (ev :: evs) = puts evs → settled b (ev :: evs) = settled b' evs →
    wp (ser_run evs) s1 (λ _ s', ∃ acc, acc `sublist_of` puts (ev :: evs) ∧
      (Z.of_nat (length (waiting s) + length (puts (ev :: evs))) < SER_BUFFER_SIZE → acc = puts (ev :: evs)) ∧
      ser_inv s' ∧ flag s' = flag s ∧ stream s' = stream s ++ (u8 <$> acc) ∧ (settled b (ev :: evs) = true → busy s'))) as Hquiet.
  { intros b' s1 [K1 K2 K3 K4] Hb' -> ->. eapply wp_mono; [by apply (IH b')|]. cbv beta. intros _ s' (acc & A1 & A2 & A3 & A4 & A5 & A6). exists acc.
    split_and!; try done; [intros ?; apply A2; lia|congruence..]. }
  destruct ev as [c| |].
  - eapply wp_mono; [by apply ser_put_spec|]. cbv beta. intros _ s1 (P1 & P2 & P3 & P4 & P5). eapply wp_mono; [by apply (IH false)|]. cbv beta. intros _ s' (acc & A1 & A2 & A3 & A4 & A5 & A6).
    set (t := if decide _ then [c] else []) in P5. exists (t ++ acc). change (puts (Put c :: evs)) with ([c] ++ puts evs).
    split; [apply sublist_app; [|done]; unfold t; case_decide; [done|by apply sublist_nil_l]|]. split.
    { intros Hlt. cbn [app length] in Hlt. assert (t = [c]) as Et by (unfold t; rewrite decide_True by lia; done). rewrite Et. f_equal. apply A2. rewrite P5, Et, length_app. cbn [length]. lia. }
    split_and!; try done; [congruence|]. rewrite A5. unfold stream. rewrite P3, P5, !fmap_app, !app_assoc. done.
  - eapply wp_mono; [by apply transmit_spec|]. cbv beta. intros _ s1 (K & Hb1 & _). by apply (Hquiet true).
  - eapply wp_mono; [by apply ISR36_serial_spec|]. cbv beta. intros _ s1 (K & Hb1). apply (Hquiet b); try done. auto.
Qed.


(** A console write is its two steps. *)
Lemma serial_display_char_events c s : serial_display_char c s = ser_run [Put c; Kick] s.
Proof.
  unfold serial_display_char, ser_run, bind. cbn. unfold bind, on_buf. destruct (bbuf_try_add c (ser_st s)) as [[r b]| |]; [|done..]. cbn. by destruct (transmit _) as [[[] s']| |].
Qed.

Lemma ser_run_app evs1 evs2 s : ser_run (evs1 ++ evs2) s = (ser_run evs1 ;; ser_run evs2) s.
Proof.
  revert s. induction evs1 as [|ev evs1 IH]; intros s; [done|]. unfold ser_run, bind in *. cbn. unfold bind. destruct (ser_do ev s) as [[a s1]| |]; [|done..]. apply IH.
Qed.

Lemma serial_display_string_events str s : serial_display_string str s = ser_run (concat ((λ c, [Put c; Kick]) <$> str)) s.
Proof.
  revert s. induction str as [|c str IH]; intros s; [done|]. unfold serial_display_string in *. cbn [fmap list_fmap concat for_each]. rewrite ser_run_app. unfold bind. rewrite serial_display_char_events.
  destruct (ser_run [Put c; Kick] s) as [[a s1]| |]; [|done..]. apply IH.
Qed.

Section init_theorems.
Context {D : Type} {PD : PicDev D} {PL : PicLaws D} `{IdtLayout}.

Lemma uart_setup_spec ser_buf s (i : intr D) Q :
  length ser_buf = Z.to_nat SER_BUFFER_SIZE →
  (∀ s', ser_inv s' → waiting s' = [] → flag s' = flag s → wire (uart s') = wire (uart s) → ser_active s' = ser_active s → Q tt (i, s')) →
  wp (on_ser (
    uoutb (PORT + 1) 0x00 ;; uoutb (PORT + 3) 0x80 ;; uoutb (PORT + 0) 0x01 ;; uoutb (PORT + 1) 0x00 ;; uoutb (PORT + 3) 0x03 ;;
    uoutb (PORT + 2) 0xC7 ;; uoutb (PORT + 4) 0x03 ;; uoutb (PORT + 4) 0x0F ;; uoutb (PORT + 1) 0x02 ;; on_buf (bbuf_init ser_buf SER_BUFFER_SIZE))) (i, s) Q.
Proof.
  intros Hl HQ. unfold wp, on_ser. cbn [Datatypes.snd Datatypes.fst]. unfold uoutb, bind, modify, on_buf, bbuf_init. cbn [Z.ltb SER_BUFFER_SIZE]. cbn -[PORT uart_out].
  destruct (bb_init_inv ser_buf SER_BUFFER_SIZE) as [Hinv Hq]; [unfold SER_BUFFER_SIZE; lia|rewrite Hl; done|]. apply HQ; try done.
  - split; [done|done|]. cbn. rewrite !ul_dlab by done. apply ul_lcr.
  - cbn. rewrite !ul_other by done. rewrite ul_divisor; [by rewrite !ul_other|]. apply ul_lcr.
Qed.


(** A transmitter-empty interrupt sends the oldest waiting character and nothing else. *)
Theorem serial_irq_sends s :
  ser_inv s → Z.land (uart_in (PORT + 2) (uart s)).1 IIR_NO_PENDING = 0 → Z.land (uart_in (PORT + 2) (uart s)).1 IIR_MASK = IIR_THR_EMPTY →
  wp ISR36_serial s (λ _ s', wire (uart s') = wire (uart s) ++ (u8 <$> take 1 (waiting s)) ∧ waiting s' = drop 1 (waiting s) ∧ flag s' = flag s).
Proof.
  intros Hinv H1 H2. unfold ISR36_serial. wp_step. apply uinb_spec. intros s1 U1 B1 A1. rewrite H1, H2. cbn [negb Z.eqb]. rewrite Z.eqb_refl. pose proof (in_kept _ _ _ Hinv U1 B1) as [[] K2 K3 K4].
  wp_step. apply wp_modify. eapply wp_mono; [by apply transmit_spec|]. cbv beta. intros _ s' ([J1 J2 J3 J4] & _ & Hs). destruct Hs as [Hw Hq]; [done|]. rewrite Hw, Hq. cbn [uart set_active].
  destruct (ul_in (uart s) (PORT + 2)) as [E _]. unfold waiting. cbn. rewrite U1, E, B1. split_and!; try done. by rewrite J2.
Qed.
End init_theorems.
End theorems.

(** ** A UART *)

(** The bytes sent, the divisor latch, and a transmitter that is always ready. *)
Record uart16550 := Uart { u_wire : list Z; u_lcr : Z }.

#[export] Instance uart16550_dev : UartDev uart16550 := {
  uart_out port v u := if port =? PORT then (if Z.testbit (u_lcr u) 7 then u else Uart (u_wire u ++ [v]) (u_lcr u))
    else if port =? PORT + 3 then Uart (u_wire u) v else u;
  uart_in port u := (if port =? PORT + 2 then IIR_THR_EMPTY else if port =? PORT + 5 then LSR_THR_EMPTY else 0, u)
}.

#[export, program] Instance uart16550_laws : UartLaws uart16550 := { wire := u_wire; dlab u := Z.testbit (u_lcr u) 7 }.
Next Obligation. intros u v Hd. cbn -[Z.testbit]. rewrite Hd. done. Qed.
Next Obligation. intros u v Hd. cbn -[Z.testbit]. rewrite Hd. done. Qed.
Next Obligation. intros u port v Hp. cbn -[Z.testbit PORT]. rewrite (proj2 (Z.eqb_neq _ _) Hp). by destruct (port =? PORT + 3). Qed.
Next Obligation. done. Qed.
Next Obligation. intros u port v Hp. cbn -[Z.testbit PORT]. rewrite (proj2 (Z.eqb_neq _ _) Hp). destruct (port =? PORT); [|done]. by destruct (Z.testbit (u_lcr u) 7) eqn:E. Qed.
Next Obligation. done. Qed.


Lemma serial_irq_witness :
  wp ISR36_serial (Ser 1 (Bbm (BBuf (replicate 2048 65) 2048 1 0) false) (Uart [66] 3)) (λ _ s', wire (uart s') = [66; 65] ∧ waiting s' = []).
Proof.
  eapply wp_mono; [apply serial_irq_sends; [split; [split; cbn; lia|reflexivity|reflexivity]|reflexivity|reflexivity]|].
  cbv beta. intros _ s' (H1 & H2 & _). rewrite H1, H2. split; reflexivity.
Defined.
