(* ===== verification/Stdio.v ===== *)
(** * The kernel console ([klibc/stdio.c])

    [printk] on the two devices behind it.  Theorems: the digit loop writes the
    positional numeral of every 64-bit number and stays inside its buffer, and [printk]
    shows on both devices the text that a reference formatter gives. *)

From S2P Require Import Prelude Bbuf Interrupts Serial Vga.

(** The two devices; they share the interrupt flag. *)
Record con (U : Type) := Con { con_vga : vga; con_ser : ser U }.
Arguments Con {U}.
Arguments con_vga {U}.
Arguments con_ser {U}.

(** An argument of a variadic call: an integer or a pointer in its slot, or a string
    pointer with the characters it leads to ([None] for NULL). *)
Inductive va := VInt (z : Z) | VStr (s : option (list Z)).

Definition i16 (z : Z) : Z := (z + 2 ^ 15) mod 2 ^ 16 - 2 ^ 15.
Definition char_of (z : Z) : Z := (z + 2 ^ 7) mod 2 ^ 8 - 2 ^ 7.

Definition digits : list Z := [48; 49; 50; 51; 52; 53; 54; 55; 56; 57; 65; 66; 67; 68; 69; 70].
Definition null_str : list Z := [40; 110; 117; 108; 108; 41].
Definition unknown_str : list Z := [10; 85; 110; 107; 110; 111; 119; 110; 32; 102; 111; 114; 109; 97; 116; 10].

(** A store to a local array; one outside of it stops the model. *)
Definition store_local {S} (b : list Z) (i v : Z) : M S (list Z) :=
  if bool_decide (0 ≤ i < Z.of_nat (length b)) then ret (<[Z.to_nat i := v]> b) else halt.

(** [buf] has 32 bytes, of any content. *)
Definition BUF_SIZE : nat := 32.

Section stdio.
Context {U : Type} {UD : UartDev U} (junk : bool).
Implicit Types (c : con U).
#[local] Abbreviation MC := (M (con U)).

Definition con_flag c : bool := bb_ints (ser_st (con_ser c)).

Definition on_vga {A} (m : M vga A) : MC A := λ c,
  match m (set_v_ints (con_flag c) (con_vga c)) with
  | Ret (a, v) => Ret (a, Con v (set_ser_st (set_bb_ints (v_ints v) (ser_st (con_ser c))) (con_ser c)))
  | Halt => Halt
  | NoFuel => NoFuel
  end.

Definition on_serial {A} (m : M (ser U) A) : MC A := λ c,
  match m (con_ser c) with
  | Ret (a, s) => Ret (a, Con (set_v_ints (bb_ints (ser_st s)) (con_vga c)) s)
  | Halt => Halt
  | NoFuel => NoFuel
  end.

Definition putchar (ch : Z) : MC Z :=
  on_vga (vga_display_char junk (char_of ch)) ;;
  on_serial (serial_display_char (char_of ch)) ;;
  ret ch.

Definition putstr (str : list Z) : MC unit :=
  on_vga (vga_display_str junk str) ;;
  on_serial (serial_display_string str).

(** The first loop of [print_unsigned]: the buffer and the index it ends with. *)
Fixpoint digit_loop (fuel : nat) (buf : list Z) (i num base : Z) : MC (list Z * Z) :=
  match fuel with
  | O => no_fuel
  | S fuel =>
      if 0 <? num then
        buf <- store_local buf i (default 0 (digits !! Z.to_nat (num mod base))) ;;
        digit_loop fuel buf (i32 (i + 1)) (num / base) base
      else ret (buf, i)
  end.

(** The second: [i] counts down. *)
Fixpoint emit_loop (i : nat) (buf : list Z) : MC unit :=
  match i with
  | O => ret tt
  | S i => putchar (default 0 (buf !! i)) ;; emit_loop i buf
  end.

(** A 64-bit number has at most 64 digits in any base. *)
Definition print_unsigned (buf : list Z) (num base : Z) : MC unit :=
  r <- (if num =? 0 then buf <- store_local buf 0 48 ;; ret (buf, 1) else digit_loop 65 buf 0 num base) ;;
  emit_loop (Z.to_nat r.2) r.1.

(** The negation of the least number wraps around. *)
Definition print_signed (buf : list Z) (num : Z) : MC unit :=
  if num <? 0 then putchar 45 ;; print_unsigned buf (u64 (i64 (- num))) 10 else print_unsigned buf (u64 num) 10.

Definition va_int (ap : list va) (k : Z → list va → MC Z) : MC Z := match ap with VInt z :: ap => k z ap | _ => halt end.
Definition va_str (ap : list va) (k : option (list Z) → list va → MC Z) : MC Z := match ap with VStr s :: ap => k s ap | _ => halt end.

(** The length modifiers. *)
Inductive lmod := Mod_none | Mod_h | Mod_l | Mod_q.

(** The switch on the conversion character, [next] being the rest of the loop. *)
Definition printk_conv (buf : list Z) (m : lmod) (p : Z) (ap : list va) (written : Z) (next : list va → Z → MC Z) : MC Z :=
  if p =? 37 then putchar 37 ;; next ap (i32 (written + 1))
  else if p =? 99 then va_int ap (λ z ap, putchar (char_of z) ;; next ap (i32 (written + 1)))
  else if p =? 115 then va_str ap (λ s ap, putstr (default null_str s) ;; next ap (i32 (written + Z.of_nat (length (default null_str s)))))
  else if p =? 112 then va_int ap (λ z ap, putstr [48; 120] ;; print_unsigned buf (u64 z) 16 ;; next ap (i32 (written + 2)))
  else if p =? 100 then va_int ap (λ z ap, print_signed buf (match m with Mod_q | Mod_l => i64 z | Mod_h => i16 z | Mod_none => i32 z end) ;; next ap written)
  else if p =? 117 then va_int ap (λ z ap, print_unsigned buf (match m with Mod_q | Mod_l => u64 z | Mod_h => u16 z | Mod_none => u32 z end) 10 ;; next ap written)
  else if p =? 120 then va_int ap (λ z ap, putstr [48; 120] ;; print_unsigned buf (match m with Mod_q | Mod_l => u64 z | Mod_h => u16 z | Mod_none => u32 z end) 16 ;; next ap (i32 (written + 2)))
  else putstr unknown_str ;; ret written.

(** The loop over [fmt], the string in front of its NUL. *)
Fixpoint printk_loop (buf fmt : list Z) (ap : list va) (written : Z) : MC Z :=
  match fmt with
  | [] => ret written
  | p :: fmt =>
      if negb (p =? 37) then putchar p ;; printk_loop buf fmt ap (i32 (written + 1))
      else match fmt with
      | [] => putstr unknown_str ;; ret written
      | p1 :: fmt1 =>
          let m := if p1 =? 104 then Mod_h else if p1 =? 108 then Mod_l else if p1 =? 113 then Mod_q else Mod_none in
          match m, fmt1 with
          | Mod_none, _ => printk_conv buf Mod_none p1 ap written (printk_loop buf fmt1)
          | _, [] => putstr unknown_str ;; ret written
          | _, p2 :: fmt2 => printk_conv buf m p2 ap written (printk_loop buf fmt2)
          end
      end
  end.

Definition printk (buf fmt : list Z) (ap : list va) : MC Z := printk_loop buf fmt ap 0.
End stdio.

(** ** Numerals *)

(** Digit values of [n], least first, at most [k] of them. *)
Fixpoint ldigits (k : nat) (base n : Z) : list Z :=
  match k with
  | O => []
  | S k => if 0 <? n then n mod base :: ldigits k base (n / base) else []
  end.

Definition digit_char (d : Z) : Z := if d <? 10 then 48 + d else 55 + d.

(** The numeral of a 64-bit number; twenty digits are enough from base 10 on. *)
Definition numeral (base n : Z) : list Z := if n =? 0 then [48] else reverse (digit_char <$> ldigits 20 base n).

(** The number a string of digits denotes. *)
Definition digit_val (ch : Z) : Z := if ch <? 58 then ch - 48 else ch - 55.
Definition value (base : Z) (str : list Z) : Z := foldl (λ v ch, v * base + digit_val ch) 0 str.

Fixpoint lvalue (base : Z) (ds : list Z) : Z := match ds with [] => 0 | d :: ds => d + base * lvalue base ds end.

Lemma ldigits_value k base n : 2 ≤ base → 0 ≤ n < base ^ Z.of_nat k → lvalue base (ldigits k base n) = n.
Proof.
  intros Hb. revert n. induction k as [|k IH]; intros n Hn; [change (base ^ Z.of_nat 0) with 1 in Hn; cbn; lia|].
  cbn [ldigits]. destruct (0 <? n) eqn:E; bool_prop; cbn [lvalue]; [|lia]. rewrite IH; [pose proof (Z.div_mod n base ltac:(lia)); lia|].
  split; [apply Z.div_pos; lia|]. apply Z.div_lt_upper_bound; [lia|]. rewrite Nat2Z.inj_succ, Z.pow_succ_r in Hn by lia. lia.
Qed.

Lemma ldigits_range k base n : 2 ≤ base → Forall (λ d, 0 ≤ d < base) (ldigits k base n).
Proof.
  intros Hb. revert n. induction k as [|k IH]; intros n; cbn [ldigits]; [by constructor|]. destruct (0 <? n); [|by constructor]. constructor; [apply Z.mod_pos_bound; lia|apply IH].
Qed.

Lemma ldigits_length k base n : (length (ldigits k base n) ≤ k)%nat.
Proof. revert n. induction k as [|k IH]; intros n; cbn [ldigits]; [done|]. destruct (0 <? n); cbn; [specialize (IH (n / base))|]; lia. Qed.

(** The most significant digit is not zero. *)
Lemma ldigits_last k base n d : 2 ≤ base → 0 ≤ n < base ^ Z.of_nat k → last (ldigits k base n) = Some d → d ≠ 0.
Proof.
  intros Hb. revert n. induction k as [|k IH]; intros n Hn; [done|]. cbn [ldigits]. destruct (0 <? n) eqn:E; bool_prop; [|done].
  assert (0 ≤ n / base < base ^ Z.of_nat k) as Hq.
  { split; [apply Z.div_pos; lia|]. apply Z.div_lt_upper_bound; [lia|]. rewrite Nat2Z.inj_succ, Z.pow_succ_r in Hn by lia. lia. }
  destruct (ldigits k base (n / base)) as [|d' ds] eqn:El; [|intros Hl; apply (IH (n / base)); [done|]; rewrite El; exact Hl].
  intros [= <-]. pose proof (ldigits_value k base (n / base) Hb Hq) as Hv. rewrite El in Hv. cbn in Hv. pose proof (Z.div_mod n base ltac:(lia)). lia.
Qed.

Lemma digit_char_ok d : 0 ≤ d < 16 → digit_val (digit_char d) = d ∧ digits !! Z.to_nat d = Some (digit_char d) ∧ char_of (digit_char d) = digit_char d.
Proof.
  intros Hd. rewrite <-(Z2Nat.id d) by lia. assert (Z.to_nat d < 16)%nat as Hn by lia. revert Hn. generalize (Z.to_nat d). clear. intros n Hn.
  do 16 (destruct n as [|n]; [by vm_compute|]). lia.
Qed.

Lemma value_reverse base ds : Forall (λ d, 0 ≤ d < 16) ds → value base (reverse (digit_char <$> ds)) = lvalue base ds.
Proof.
  intros H. unfold value. induction H as [|d ds Hd _ IH]; [done|]. cbn [fmap list_fmap lvalue]. rewrite reverse_cons, foldl_app. fold (fmap digit_char ds). rewrite IH. cbn.
  rewrite (proj1 (digit_char_ok d Hd)). lia.
Qed.

(** The bases the kernel prints in have numerals of at most twenty digits. *)
Lemma base_room base n : 10 ≤ base ≤ 16 → 0 ≤ n < 2 ^ 64 → 0 ≤ n < base ^ Z.of_nat 20.
Proof. intros Hb Hn. split; [lia|]. apply Z.lt_le_trans with (10 ^ 20); [lia|]. change (Z.of_nat 20) with 20. apply Z.pow_le_mono_l. lia. Qed.

(** [numeral] is the positional notation: its digits are digits of the base, they denote the
    number, the first is not zero unless the number is, and at most twenty are needed. *)
Lemma numeral_correct base n : 10 ≤ base ≤ 16 → 0 ≤ n < 2 ^ 64 →
  value base (numeral base n) = n ∧ Forall (λ ch, 0 ≤ digit_val ch < base) (numeral base n) ∧
  (n ≠ 0 → hd_error (numeral base n) ≠ Some 48) ∧ (1 ≤ length (numeral base n) ≤ 20)%nat.
Proof.
  intros Hb Hn. pose proof (base_room base n Hb Hn) as Hr. unfold numeral. destruct (n =? 0) eqn:E; bool_prop.
  { subst n. split; [done|]. split; [by repeat constructor; cbn; lia|]. split; [done|]. cbn; lia. }
  assert (2 ≤ base) as Hb2 by lia. pose proof (ldigits_value 20 base n Hb2 Hr) as Hv. pose proof (ldigits_range 20 base n Hb2) as Hd. pose proof (ldigits_length 20 base n) as Hl.
  assert (Forall (λ d, 0 ≤ d < 16) (ldigits 20 base n)) as Hd16 by (eapply Forall_impl; [exact Hd|]; cbv beta; lia).
  assert (ldigits 20 base n ≠ []) as Hne by (intros E'; rewrite E' in Hv; cbn in Hv; lia). pose proof (λ d, ldigits_last 20 base n d Hb2 Hr) as Hlast.
  generalize dependent (ldigits 20 base n). intros ds Hv Hd Hl Hd16 Hne Hlast. split; [by rewrite value_reverse|]. split.
  - apply Forall_reverse, Forall_fmap. eapply Forall_impl; [apply Forall_and; exact (conj Hd Hd16)|]. intros d [H1 H2]. cbn. by rewrite (proj1 (digit_char_ok d H2)).
  - rewrite length_reverse, length_fmap. split; [|destruct ds; [done|cbn in *; lia]]. intros _. rewrite <-last_reverse, reverse_involutive, fmap_last. destruct (last ds) as [d|] eqn:El; [|done].
    cbn. intros [= Hc]. apply (Hlast d eq_refl). apply last_Some_elem_of, (proj1 (Forall_forall _ _) Hd16) in El. rewrite <-(proj1 (digit_char_ok d El)), Hc. done.
Qed.

(** ** The reference formatter *)

Inductive item := Lit (ch : Z) | Conv (m : lmod) (k : Z) | Cut.

Definition as_mod (ch : Z) : lmod := if ch =? 104 then Mod_h else if ch =? 108 then Mod_l else if ch =? 113 then Mod_q else Mod_none.

(** A format is literal characters and conversions, each with at most one modifier; [Cut] is a
    conversion the string ends in. *)
Fixpoint items (fmt : list Z) : list item :=
  match fmt with
  | [] => []
  | p :: fmt =>
      if decide (p ≠ 37) then Lit p :: items fmt else
      match fmt with
      | [] => [Cut]
      | ch :: fmt =>
          match as_mod ch, fmt with
          | Mod_none, _ => Conv Mod_none ch :: items fmt
          | _, [] => [Cut]
          | m, k :: fmt => Conv m k :: items fmt
          end
      end
  end.

Definition decimal (z : Z) : list Z := if z <? 0 then 45 :: numeral 10 (- z) else numeral 10 z.

Definition as_signed (m : lmod) (z : Z) : Z := match m with Mod_q | Mod_l => i64 z | Mod_h => i16 z | Mod_none => i32 z end.
Definition as_unsigned (m : lmod) (z : Z) : Z := match m with Mod_q | Mod_l => u64 z | Mod_h => u16 z | Mod_none => u32 z end.

(** The text of a conversion, the number of characters counted for it, and the arguments
    left; [None] when the next argument is missing or of the wrong kind. *)
Definition render (m : lmod) (k : Z) (ap : list va) : option (list Z * Z * list va) :=
  match k, ap with
  | 37, _ => Some ([37], 1, ap)
  | 99, VInt z :: ap => Some ([char_of z], 1, ap)
  | 115, VStr str :: ap => let str := default null_str str in Some (str, Z.of_nat (length str), ap)
  | 112, VInt z :: ap => Some ([48; 120] ++ numeral 16 (u64 z), 2, ap)
  | 100, VInt z :: ap => Some (decimal (as_signed m z), 0, ap)
  | 117, VInt z :: ap => Some (numeral 10 (as_unsigned m z), 0, ap)
  | 120, VInt z :: ap => Some ([48; 120] ++ numeral 16 (as_unsigned m z), 2, ap)
  | _, _ => None
  end.

Definition known (k : Z) : bool := bool_decide (k ∈ [37; 99; 115; 112; 100; 117; 120]).

Fixpoint format (its : list item) (ap : list va) : option (list Z * Z) :=
  match its with
  | [] => Some ([], 0)
  | Lit ch :: its => '(text, n) ← format its ap; Some (char_of ch :: text, n + 1)
  | Cut :: _ => Some (unknown_str, 0)
  | Conv m k :: its =>
      if known k then
        '(t, n, ap) ← render m k ap;
        '(text, n') ← format its ap;
        Some (t ++ text, n + n')
      else Some (unknown_str, 0)
  end.

(** ** Both devices show the text *)

Section shown.
Context {U : Type} {UD : UartDev U} {UL : UartLaws U} (junk : bool).
Implicit Types (c : con U) (text : list Z).

(** The uninitialised local of the VGA driver reads zero, or interrupts are enabled. *)
Record con_ok c : Prop := {
  co_vga : vga_inv (con_vga c);
  co_ser : ser_inv (con_ser c);
  co_flag : v_ints (con_vga c) = flag (con_ser c);
  co_junk : junk = false ∨ flag (con_ser c) = true
}.

Definition shown text c c' : Prop :=
  con_ok c' ∧ vga_display_str junk text (con_vga c) = Ret (tt, con_vga c') ∧ serial_display_string text (con_ser c) = Ret (tt, con_ser c').

Lemma for_each_app {S A} (l1 l2 : list A) (f : A → M S unit) s : for_each (l1 ++ l2) f s = (for_each l1 f ;; for_each l2 f) s.
Proof. revert s. induction l1 as [|x l1 IH]; intros s; [done|]. cbn. unfold bind in *. destruct (f x s) as [[a s1]| |]; [apply IH|done..]. Qed.

Lemma shown_nil c : con_ok c → shown [] c c.
Proof. by intros. Qed.

Lemma shown_app t1 t2 c1 c2 c3 : shown t1 c1 c2 → shown t2 c2 c3 → shown (t1 ++ t2) c1 c3.
Proof.
  intros (_ & V1 & S1) (O & V2 & S2). split; [done|]. unfold vga_display_str, serial_display_string in *. rewrite !for_each_app. unfold bind. by rewrite V1, V2, S1, S2.
Qed.

Lemma set_v_ints_same v : set_v_ints (v_ints v) v = v.
Proof. by destruct v. Qed.

Lemma set_ser_flag_same (s : ser U) b : b = flag s → set_ser_st (set_bb_ints b (ser_st s)) s = s.
Proof. intros ->. by destruct s as [? [] ?]. Qed.

Lemma serial_string_spec text (s : ser U) : ser_inv s → ∃ s', serial_display_string text s = Ret (tt, s') ∧ ser_inv s' ∧ flag s' = flag s.
Proof.
  intros Hs. rewrite serial_display_string_events. set (evs := concat _). destruct (proj1 (wp_iff _ _ _) (ser_run_spec evs false s Hs ltac:(done))) as ([] & s' & E & acc & _ & _ & H1 & H2 & _). eauto.
Qed.

(** The devices' string functions, one after the other. *)
Lemma putstr_spec text c : con_ok c → wp (putstr junk text) c (λ _ c', shown text c c').
Proof.
  intros [H1 H2 H3 H4]. destruct (proj1 (wp_iff _ _ _) (display_str_spec junk text (con_vga c) H1)) as ([] & v' & Ev & V1 & _ & _ & V4).
  destruct (serial_string_spec text (con_ser c) H2) as (s' & Es & S1 & S2).
  assert (v_ints v' = flag (con_ser c)) as Ef by (rewrite V4, H3; unfold ints_after; destruct H4 as [-> | ->]; [apply orb_false_r|done]).
  unfold putstr, wp, bind, on_vga. unfold con_flag. fold (flag (con_ser c)). rewrite <-H3, set_v_ints_same, Ev. unfold on_serial. cbn [con_ser con_vga].
  rewrite set_ser_flag_same by done. rewrite Es. fold (flag s'). rewrite S2, <-Ef, set_v_ints_same.
  split; [|by cbn]. split; cbn [con_vga con_ser]; [done|done|congruence|]. by rewrite S2.
Qed.

Lemma for_each_one {S A} (x : A) (f : A → M S unit) s : for_each [x] f s = f x s.
Proof. cbn. unfold bind. by destruct (f x s) as [[[] ?]| |]. Qed.

Lemma putchar_spec ch c : con_ok c → wp (putchar junk ch) c (λ _ c', shown [char_of ch] c c').
Proof.
  intros Hc. pose proof (putstr_spec [char_of ch] c Hc) as Hp. unfold putchar, putstr, wp, bind, on_vga, on_serial, vga_display_str, serial_display_string in *. rewrite for_each_one in Hp.
  destruct (vga_display_char _ _ _) as [[[] v]| |]; [|done..]. rewrite for_each_one in Hp. by destruct (serial_display_char _ _) as [[[] s]| |].
Qed.

(** ** [print_unsigned] *)

Lemma digit_loop_spec k base : 2 ≤ base ≤ 16 → ∀ n fuel buf i c Q, 0 ≤ n < base ^ Z.of_nat k → (k < fuel)%nat → Z.of_nat i + Z.of_nat k ≤ Z.of_nat (length buf) < 2 ^ 31 →
  (∀ buf', take (i + length (ldigits k base n)) buf' = take i buf ++ (digit_char <$> ldigits k base n) → length buf' = length buf →
     Q (buf', Z.of_nat (i + length (ldigits k base n))) c) →
  wp (digit_loop fuel buf (Z.of_nat i) n base) c Q.
Proof.
  intros Hb. induction k as [|k IH]; intros n fuel buf i c Q Hn Hf Hl HQ; (destruct fuel as [|fuel]; [lia|]); cbn [digit_loop].
  { change (base ^ Z.of_nat 0) with 1 in Hn. replace (0 <? n) with false by lia. cbn [ldigits] in HQ. specialize (HQ buf). cbn in HQ. rewrite Nat.add_0_r, app_nil_r in HQ. by apply wp_ret, HQ. }
  cbn [ldigits] in HQ. destruct (0 <? n) eqn:E.
  2: { specialize (HQ buf). cbn in HQ. rewrite Nat.add_0_r, app_nil_r in HQ. by apply wp_ret, HQ. }
  pose proof (Z.mod_pos_bound n base ltac:(lia)) as Hm. destruct (digit_char_ok (n mod base) ltac:(lia)) as (_ & Hd & _). rewrite Hd. cbn [default].
  wp_step. unfold store_local. rewrite bool_decide_true by lia. apply wp_ret. rewrite Nat2Z.id. rewrite i32_small by lia. replace (Z.of_nat i + 1) with (Z.of_nat (S i)) by lia. apply IH.
  - split; [apply Z.div_pos; lia|]. apply Z.div_lt_upper_bound; [lia|]. rewrite Nat2Z.inj_succ, Z.pow_succ_r in Hn by lia. lia.
  - lia.
  - rewrite length_insert. lia.
  - intros buf' H1 H2. rewrite length_insert in H2. cbn [length] in HQ. rewrite <-Nat.add_succ_comm in HQ. apply HQ; [|done]. rewrite H1. cbn [fmap list_fmap].
    rewrite (take_S_r (<[i:=_]> buf) i (digit_char (n mod base))) by (apply list_lookup_insert_eq; lia). rewrite take_insert_ge by lia. by rewrite <-app_assoc.
Qed.

Lemma emit_loop_spec n buf c : (n ≤ length buf)%nat → Forall (λ ch, char_of ch = ch) (take n buf) → con_ok c → wp (emit_loop junk n buf) c (λ _ c', shown (reverse (take n buf)) c c').
Proof.
  revert c. induction n as [|n IH]; intros c Hn Hc Ho; cbn [emit_loop]; [by apply wp_ret, shown_nil|]. destruct (lookup_lt_is_Some_2 buf n) as [ch Hch]; [lia|]. rewrite Hch. cbn [default].
  rewrite (take_S_r buf n ch Hch) in Hc |- *. apply Forall_app in Hc as [Hc1 Hc2%Forall_cons_1]. destruct Hc2 as [Hc2 _]. change (id ch) with ch.
  wp_step. eapply wp_mono; [by apply putchar_spec|]. cbv beta. intros _ c1 H1. rewrite Hc2 in H1. eapply wp_mono; [apply IH; [lia|done|by destruct H1]|]. cbv beta. intros _ c2 H2.
  rewrite reverse_snoc. exact (shown_app [ch] _ _ _ _ H1 H2).
Qed.

Lemma print_unsigned_spec buf num base c : length buf = BUF_SIZE → 10 ≤ base ≤ 16 → 0 ≤ num < 2 ^ 64 → con_ok c →
  wp (print_unsigned junk buf num base) c (λ _ c', shown (numeral base num) c c').
Proof.
  intros Hl Hb Hn Ho. unfold BUF_SIZE in Hl. unfold print_unsigned, numeral. wp_step. destruct (num =? 0) eqn:E; bool_prop.
  - unfold store_local. wp_step. rewrite bool_decide_true by lia. apply wp_ret. apply wp_ret. cbn [Datatypes.fst Datatypes.snd]. destruct buf as [|b buf]; [done|]. change (Z.to_nat 1) with 1%nat. change (Z.to_nat 0) with 0%nat. cbn [insert list_insert].
    eapply wp_mono; [apply emit_loop_spec; [cbn; lia|by repeat constructor|done]|]. done.
  - apply (digit_loop_spec 20 base ltac:(lia) num 65 buf 0); [by apply base_room|lia|lia|]. intros buf' H1 H2. cbn [take app Nat.add Datatypes.fst Datatypes.snd] in *. rewrite Nat2Z.id.
    pose proof (ldigits_length 20 base num). eapply wp_mono; [apply emit_loop_spec; [lia| |done]|]; rewrite H1; [|done].
    apply Forall_fmap. eapply Forall_impl; [apply (ldigits_range 20 base num); lia|]. cbv beta. intros d Hd. cbn. apply digit_char_ok. lia.
Qed.

(** ** [printk] *)

Lemma print_signed_spec buf z c : length buf = BUF_SIZE → - 2 ^ 63 ≤ z < 2 ^ 63 → con_ok c → wp (print_signed junk buf z) c (λ _ c', shown (decimal z) c c').
Proof.
  intros Hl Hz Ho. unfold print_signed, decimal. destruct (z <? 0) eqn:E; bool_prop.
  - wp_step. eapply wp_mono; [by apply putchar_spec|]. cbv beta. intros _ c1 H1. assert (u64 (i64 (- z)) = - z) as ->.
    { unfold u64, i64. destruct (decide (z = - 2 ^ 63)) as [->|]; [done|]. rewrite (Z.mod_small (- z + _)) by lia. rewrite Z.mod_small; lia. }
    eapply wp_mono; [apply print_unsigned_spec; [done|lia|lia|by destruct H1]|]. cbv beta. intros _ c2 H2. exact (shown_app [45] _ _ _ _ H1 H2).
  - rewrite u64_small by lia. apply print_unsigned_spec; [done|lia|lia|done].
Qed.

Lemma as_signed_range m z : - 2 ^ 63 ≤ as_signed m z < 2 ^ 63.
Proof. unfold as_signed, i64, i32, i16. destruct m; match goal with |- context [?a mod ?b] => pose proof (Z.mod_pos_bound a b ltac:(lia)) end; lia. Qed.

Lemma as_unsigned_range m z : 0 ≤ as_unsigned m z < 2 ^ 64.
Proof. unfold as_unsigned, u64, u32, u16. destruct m; match goal with |- context [?a mod ?b] => pose proof (Z.mod_pos_bound a b ltac:(lia)) end; lia. Qed.

Lemma printk_conv_spec buf m k ap w next c t n ap' (Q : Z → con U → Prop) : length buf = BUF_SIZE → con_ok c → known k = true → render m k ap = Some (t, n, ap') →
  (∀ c', shown t c c' → wp (next ap' (i32 (w + n))) c' Q) → (n = 0 → i32 w = w) → wp (printk_conv junk buf m k ap w next) c Q.
Proof.
  intros Hl Ho Hk Hr Hnext Hw. unfold known in Hk. apply bool_decide_eq_true in Hk. unfold printk_conv.
  assert (n = 0 → next ap' (i32 (w + n)) = next ap' w) as Hn0 by (intros E; rewrite E, Z.add_0_r, Hw by done; done).
  repeat (apply elem_of_cons in Hk as [->|Hk]); [..|by apply elem_of_nil in Hk]; cbn [Z.eqb Pos.eqb] in *; cbn in Hr.
  - injection Hr as <- <- <-. wp_step. eapply wp_mono; [by apply putchar_spec|]. cbv beta. intros _ c1 H1. by apply Hnext.
  - destruct ap as [|[z|] ap]; try done. injection Hr as <- <- <-. cbn [va_int]. wp_step. eapply wp_mono; [by apply putchar_spec|]. cbv beta. intros _ c1 H1. apply Hnext.
    replace (char_of (char_of z)) with (char_of z) in H1; [done|]. unfold char_of. pose proof (Z.mod_pos_bound (z + 2 ^ 7) (2 ^ 8) ltac:(lia)). rewrite (Z.mod_small (_ - _ + _)); lia.
  - destruct ap as [|[|str] ap]; try done. injection Hr as <- <- <-. cbn [va_str]. wp_step. eapply wp_mono; [by apply putstr_spec|]. cbv beta. intros _ c1 H1. by apply Hnext.
  - destruct ap as [|[z|] ap]; try done. injection Hr as <- <- <-. cbn [va_int]. wp_step. eapply wp_mono; [by apply putstr_spec|]. cbv beta. intros _ c1 H1. wp_step.
    eapply wp_mono; [apply print_unsigned_spec; [done|lia|apply u64_range|by destruct H1]|]. cbv beta. intros _ c2 H2. apply Hnext. exact (shown_app [48; 120] _ _ _ _ H1 H2).
  - destruct ap as [|[z|] ap]; try done. injection Hr as <- <- <-. cbn [va_int]. wp_step. eapply wp_mono; [apply print_signed_spec; [done|apply (as_signed_range m)|done]|].
    cbv beta. intros _ c1 H1. rewrite <-Hn0 by done. by apply Hnext.
  - destruct ap as [|[z|] ap]; try done. injection Hr as <- <- <-. cbn [va_int]. wp_step. eapply wp_mono; [apply print_unsigned_spec; [done|lia|apply (as_unsigned_range m)|done]|].
    cbv beta. intros _ c1 H1. rewrite <-Hn0 by done. by apply Hnext.
  - destruct ap as [|[z|] ap]; try done. injection Hr as <- <- <-. cbn [va_int]. wp_step. eapply wp_mono; [by apply putstr_spec|]. cbv beta. intros _ c1 H1. wp_step.
    eapply wp_mono; [apply print_unsigned_spec; [done|lia|apply (as_unsigned_range m)|by destruct H1]|]. cbv beta. intros _ c2 H2. apply Hnext. exact (shown_app [48; 120] _ _ _ _ H1 H2).
Qed.

Lemma i32_idemp z n : i32 (i32 z + n) = i32 (z + n).
Proof.
  unfold i32. f_equal. replace ((z + 2 ^ 31) mod 2 ^ 32 - 2 ^ 31 + n + 2 ^ 31) with ((z + 2 ^ 31) mod 2 ^ 32 + n) by lia. rewrite Z.add_mod_idemp_l by lia. f_equal. lia.
Qed.

Lemma i32_i32 z : i32 (i32 z) = i32 z.
Proof. pose proof (i32_idemp z 0) as E. by rewrite !Z.add_0_r in E. Qed.

Lemma unknown_spec w n c : con_ok c → i32 w = w → n = 0 → wp (putstr junk unknown_str ;; ret w) c (λ r c', r = i32 (w + n) ∧ shown unknown_str c c').
Proof. intros Ho Hw ->. wp_step. eapply wp_mono; [by apply putstr_spec|]. cbv beta. intros _ c1 H1. apply wp_ret. split; [by rewrite Z.add_0_r|done]. Qed.

(** One conversion, known or not, and what follows it. *)
Lemma printk_item_spec buf m k fmt ap w c text n :
  length buf = BUF_SIZE → con_ok c → i32 w = w → format (Conv m k :: items fmt) ap = Some (text, n) →
  (∀ ap w c text n, con_ok c → i32 w = w → format (items fmt) ap = Some (text, n) → wp (printk_loop junk buf fmt ap w) c (λ r c', r = i32 (w + n) ∧ shown text c c')) →
  wp (printk_conv junk buf m k ap w (printk_loop junk buf fmt)) c (λ r c', r = i32 (w + n) ∧ shown text c c').
Proof.
  intros Hl Ho Hw Hf IH. cbn [format] in Hf. destruct (known k) eqn:Ek.
  - destruct (render m k ap) as [[[t n1] ap']|] eqn:Er; [|done]. cbn [mbind option_bind] in Hf. destruct (format (items fmt) ap') as [[text' n2]|] eqn:Ef; [|done]. injection Hf as <- <-.
    eapply printk_conv_spec; [done..| |done]. intros c1 H1. eapply wp_mono; [apply (IH ap' _ c1 text' n2); [by destruct H1|apply i32_i32|done]|].
    cbv beta. intros r c2 [-> H2]. split; [rewrite i32_idemp; f_equal; lia|]. by eapply shown_app.
  - injection Hf as <- <-. replace (printk_conv junk buf m k ap w (printk_loop junk buf fmt)) with (putstr junk unknown_str ;; ret w : M (con U) Z); [by apply unknown_spec|].
    unfold known in Ek. apply bool_decide_eq_false in Ek. unfold printk_conv. rewrite !not_elem_of_cons in Ek. destruct Ek as (? & ? & ? & ? & ? & ? & ? & _).
    by rewrite !(proj2 (Z.eqb_neq _ _)) by done.
Qed.

Lemma printk_loop_spec buf : length buf = BUF_SIZE → ∀ k fmt ap w c text n, (length fmt ≤ k)%nat → con_ok c → i32 w = w → format (items fmt) ap = Some (text, n) →
  wp (printk_loop junk buf fmt ap w) c (λ r c', r = i32 (w + n) ∧ shown text c c').
Proof.
  intros Hl. induction k as [|k IH]; intros fmt ap w c text n Hk Ho Hw Hf.
  { destruct fmt; [|cbn in Hk; lia]. injection Hf as <- <-. apply wp_ret. rewrite Z.add_0_r. split; [done|by apply shown_nil]. }
  destruct fmt as [|p fmt]; [injection Hf as <- <-; apply wp_ret; rewrite Z.add_0_r; split; [done|by apply shown_nil]|].
  cbn [length] in Hk. cbn [items] in Hf. cbn [printk_loop]. destruct (decide (p ≠ 37)) as [Hp|Hp%dec_stable].
  - rewrite (proj2 (Z.eqb_neq _ _) Hp). cbn [negb]. cbn [format] in Hf. destruct (format (items fmt) ap) as [[text' n']|] eqn:Ef; [|done]. injection Hf as <- <-.
    wp_step. eapply wp_mono; [by apply putchar_spec|]. cbv beta. intros _ c1 H1. eapply wp_mono; [apply (IH fmt ap _ c1 text' n'); [lia|by destruct H1|apply i32_i32|done]|].
    cbv beta. intros r c2 [-> H2]. split; [rewrite i32_idemp; f_equal; lia|]. exact (shown_app [char_of p] _ _ _ _ H1 H2).
  - rewrite (proj2 (Z.eqb_eq _ _) Hp). cbn [negb]. destruct fmt as [|ch fmt]; [injection Hf as <- <-; by apply unknown_spec|]. cbn [length] in Hk. fold (as_mod ch).
    destruct (as_mod ch) eqn:Em; [apply printk_item_spec; [done..|intros; apply IH; [lia|done..]]|destruct fmt as [|k2 fmt]; [injection Hf as <- <-; by apply unknown_spec|apply printk_item_spec; [done..|intros; apply IH; [cbn in Hk; lia|done..]]]..].
Qed.

(** For every 64-bit number, in base 10 to 16, [print_unsigned] returns - its digits fit
    the 32-byte buffer - and both devices show one numeral: at most twenty digits of the base, with no leading zero
    unless the number is zero, whose positional value is the number. *)
Theorem print_unsigned_correct buf num base c : length buf = BUF_SIZE → 10 ≤ base ≤ 16 → 0 ≤ num < 2 ^ 64 → con_ok c →
  ∃ str c', print_unsigned junk buf num base c = Ret (tt, c') ∧ con_ok c' ∧
    vga_display_str junk str (con_vga c) = Ret (tt, con_vga c') ∧ serial_display_string str (con_ser c) = Ret (tt, con_ser c') ∧
    value base str = num ∧ Forall (λ ch, 0 ≤ digit_val ch < base) str ∧ (num ≠ 0 → hd_error str ≠ Some 48) ∧ (1 ≤ length str ≤ 20)%nat.
Proof.
  intros Hl Hb Hn Ho. exists (numeral base num). destruct (proj1 (wp_iff _ _ _) (print_unsigned_spec buf num base c Hl Hb Hn Ho)) as ([] & c' & E & H1 & H2 & H3).
  exists c'. split_and!; try done; by apply numeral_correct.
Qed.

(** C36: [printk] of any format, given arguments of the kinds its conversions ask for, shows on
    both devices the text of the reference formatter - literal characters, strings, signed and unsigned numerals of the
    modifier's width, pointers - stopping at an unknown conversion with its message, and returns the
    characters counted outside the numerals. *)
Theorem printk_correct buf fmt ap c text n : length buf = BUF_SIZE → con_ok c → format (items fmt) ap = Some (text, n) →
  ∃ c', printk junk buf fmt ap c = Ret (i32 n, c') ∧ con_ok c' ∧
    vga_display_str junk text (con_vga c) = Ret (tt, con_vga c') ∧ serial_display_string text (con_ser c) = Ret (tt, con_ser c').
Proof.
  intros Hl Ho Hf. destruct (proj1 (wp_iff _ _ _) (printk_loop_spec buf Hl _ fmt ap 0 c text n (le_n _) Ho eq_refl Hf)) as (r & c' & E & -> & H1 & H2 & H3). exists c'. by split_and!.
Qed.
End shown.

Definition demo_con : con uart16550 :=
  Con (Vga 0 0 7 (replicate 2000 0) true) (Ser 0 (Bbm (BBuf (replicate 2048 0) 2048 0 0) true) (Uart [] 3)).

Lemma demo_con_ok : con_ok false demo_con.
Proof.
  split; [split; [cbn; unfold VGA_HEIGHT; lia|cbn; unfold VGA_WIDTH; lia|reflexivity]| |reflexivity|left; reflexivity].
  split; [split; [cbn; lia|reflexivity|cbn; lia|cbn; lia]|reflexivity|reflexivity].
Qed.

Lemma print_unsigned_witness : ∃ str c', print_unsigned false (replicate 32 0) (2 ^ 64 - 1) 10 demo_con = Ret (tt, c') ∧ value 10 str = 2 ^ 64 - 1 ∧ (length str ≤ 20)%nat.
Proof.
  destruct (print_unsigned_correct false (replicate 32 0) (2 ^ 64 - 1) 10 demo_con) as (str & c' & H1 & _ & _ & _ & H2 & _ & _ & H3); [reflexivity|lia|lia|exact demo_con_ok|].
  exists str, c'. split; [exact H1|]. split; [exact H2|]. apply H3.
Defined.

(** ["%hd:%x\n"] of 65535 and 255. *)
Lemma printk_witness : ∃ c', printk false (replicate 32 0) [37; 104; 100; 58; 37; 120; 10] [VInt 65535; VInt 255] demo_con = Ret (4, c') ∧
  vga_display_str false [45; 49; 58; 48; 120; 70; 70; 10] (con_vga demo_con) = Ret (tt, con_vga c').
Proof.
  destruct (printk_correct false (replicate 32 0) [37; 104; 100; 58; 37; 120; 10] [VInt 65535; VInt 255] demo_con [45; 49; 58; 48; 120; 70; 70; 10] 4) as (c' & H1 & _ & H2 & _);
    [reflexivity|exact demo_con_ok|vm_compute; reflexivity|]. exists c'. split; [exact H1|exact H2].
Defined.
