(* ===== verification/Ata.v ===== *)
(** * The disk driver ([src/x86_64/drivers/ata.c])

    Reads of 512-byte blocks through a queue of requests: a caller puts its request into
    the queue and starts the drive when the queue was empty, the interrupt handler moves the data and takes the request
    out, and the caller it wakes starts the next one.  The drive is hardware, behind [AtaDev]. *)

From S2P Require Import Prelude.

Definition REG_DATA : Z := 0.
Definition REG_SEC_COUNT0 : Z := 2.
Definition REG_LBA0 : Z := 3.
Definition REG_LBA1 : Z := 4.
Definition REG_LBA2 : Z := 5.
Definition REG_HDDEVSEL : Z := 6.
Definition REG_STATUS : Z := 7.
Definition REG_COMMAND : Z := 7.
Definition CMD_IDENTIFY : Z := 0xEC.
Definition CMD_READ_PIO_EXT : Z := 0x24.
Definition STATUS_BSY : Z := 0x80.
Definition STATUS_DRQ : Z := 0x08.
Definition STATUS_ERR : Z := 0x01.

(** The ports; [ata_ins] is [rep insw], giving the bytes in memory order. *)
Class AtaDev (D : Type) := {
  ata_out : Z → Z → D → D;
  ata_in : Z → D → Z * D;
  ata_ins : Z → Z → D → list Z * D
}.

(** [struct ata_request] without the queue of waiting threads; [next] is 0 for NULL. *)
Record ata_request := Req { blk_num : Z; buffer : Z; rdone : Z; next : Z }.

Definition set_rdone (v : Z) (r : ata_request) : ata_request := Req (blk_num r) (buffer r) v (next r).
Definition set_next (v : Z) (r : ata_request) : ata_request := Req (blk_num r) (buffer r) (rdone r) v.

(** The driver's part of [struct ata_block_dev], the allocated requests by address, the memory and the drive. *)
Record ata (D : Type) := Ata {
  ata_base : Z; slave : Z; req_head : Z; req_tail : Z;
  reqs : gmap Z ata_request; ram : gmap Z Z; drv : D
}.
Arguments Ata {D}.
Arguments ata_base {D}.
Arguments slave {D}.
Arguments req_head {D}.
Arguments req_tail {D}.
Arguments reqs {D}.
Arguments ram {D}.
Arguments drv {D}.

(** Consecutive bytes. *)
Fixpoint write_ram (a : Z) (bs : list Z) (m : gmap Z Z) : gmap Z Z :=
  match bs with [] => m | b :: bs => write_ram (a + 1) bs (<[a := b]> m) end.

Section ata.
Context {D : Type} {AD : AtaDev D}.
Implicit Types (s : ata D).
#[local] Abbreviation MA := (M (ata D)).

Definition set_req_head v s : ata D := Ata (ata_base s) (slave s) v (req_tail s) (reqs s) (ram s) (drv s).
Definition set_req_tail v s : ata D := Ata (ata_base s) (slave s) (req_head s) v (reqs s) (ram s) (drv s).
Definition set_reqs v s : ata D := Ata (ata_base s) (slave s) (req_head s) (req_tail s) v (ram s) (drv s).
Definition set_ram v s : ata D := Ata (ata_base s) (slave s) (req_head s) (req_tail s) (reqs s) v (drv s).
Definition set_drv v s : ata D := Ata (ata_base s) (slave s) (req_head s) (req_tail s) (reqs s) (ram s) v.

Definition aoutb (port v : Z) : MA unit := modify (λ s, set_drv (ata_out port v (drv s)) s).
Definition ainb (port : Z) : MA Z := λ s, let r := ata_in port (drv s) in Ret (r.1, set_drv r.2 s).

(** Accesses through a request pointer; one that is not allocated stops the model. *)
Definition req_get (p : Z) : MA ata_request := λ s, match reqs s !! p with Some r => Ret (r, s) | None => Halt end.
Definition req_upd (p : Z) (f : ata_request → ata_request) : MA unit :=
  r <- req_get p ;; modify (λ s, set_reqs (<[p := f r]> (reqs s)) s).

Definition insw (port buf cnt : Z) : MA unit := λ s,
  let r := ata_ins port cnt (drv s) in Ret (tt, set_drv r.2 (set_ram (write_ram buf r.1 (ram s)) s)).

Definition ata_delay (base : Z) : MA unit := for_each (seqZ 0 15) (λ _, ainb (base + REG_STATUS) ;; ret tt).

(** [while (inb(base + REG_STATUS) & mask);] *)
Fixpoint poll_clear (fuel : nat) (base mask : Z) : MA unit :=
  match fuel with
  | O => no_fuel
  | S fuel => v <- ainb (base + REG_STATUS) ;; if negb (Z.land v mask =? 0) then poll_clear fuel base mask else ret tt
  end.

Definition ata_start_request (fuel : nat) (req : Z) : MA unit :=
  base <- gets ata_base ;;
  r <- req_get req ;;
  let lba := blk_num r in
  poll_clear fuel base (Z.lor STATUS_BSY STATUS_DRQ) ;;
  sl <- gets slave ;;
  aoutb (base + REG_HDDEVSEL) (u8 (Z.lor 0x40 (Z.shiftl sl 4))) ;;
  ata_delay base ;;
  aoutb (base + REG_SEC_COUNT0) 0 ;;
  aoutb (base + REG_SEC_COUNT0) 1 ;;
  aoutb (base + REG_LBA0) (u8 (Z.land (Z.shiftr lba 24) 0xFF)) ;;
  aoutb (base + REG_LBA0) (u8 (Z.land lba 0xFF)) ;;
  aoutb (base + REG_LBA1) (u8 (Z.land (Z.shiftr lba 32) 0xFF)) ;;
  aoutb (base + REG_LBA1) (u8 (Z.land (Z.shiftr lba 8) 0xFF)) ;;
  aoutb (base + REG_LBA2) (u8 (Z.land (Z.shiftr lba 40) 0xFF)) ;;
  aoutb (base + REG_LBA2) (u8 (Z.land (Z.shiftr lba 16) 0xFF)) ;;
  aoutb (base + REG_COMMAND) CMD_READ_PIO_EXT.

(** [ata_read_block] up to its wait, [req] being what [kmalloc] returned, not NULL. *)
Definition ata_enqueue (fuel : nat) (req blk dst : Z) : MA unit :=
  modify (λ s, set_reqs (<[req := Req blk dst 0 0]> (reqs s)) s) ;;
  head <- gets req_head ;;
  if head =? 0 then
    modify (set_req_head req) ;;
    modify (set_req_tail req) ;;
    ata_start_request fuel req
  else
    tail <- gets req_tail ;;
    req_upd tail (set_next req) ;;
    modify (set_req_tail req).

(** [ata_read_block] after its wait. *)
Definition ata_finish (fuel : nat) (req : Z) : MA unit :=
  head <- gets req_head ;;
  r <- req_get req ;;
  (if negb (head =? 0) && (head =? next r) then ata_start_request fuel head else ret tt) ;;
  modify (λ s, set_reqs (delete req (reqs s)) s).

(** The whole call; [wait req] is what other threads and interrupts do until the request is done. *)
Definition ata_read_block (wait : Z → MA unit) (fuel : nat) (req blk dst : Z) : MA Z :=
  if req =? 0 then ret (-1) else
  ata_enqueue fuel req blk dst ;;
  wait req ;;
  ata_finish fuel req ;;
  ret 0.

(** The threads waiting on the request become runnable; [printk] is left out. *)
Definition ata_isr : MA unit :=
  base <- gets ata_base ;;
  status <- ainb (base + REG_STATUS) ;;
  if status =? 0 then ret tt
  else if Z.land status STATUS_DRQ =? 0 then ret tt
  else
    req <- gets req_head ;;
    if req =? 0 then ret tt
    else
      r <- req_get req ;;
      if buffer r =? 0 then ret tt
      else
        insw (base + REG_DATA) (buffer r) 256 ;;
        req_upd req (set_rdone 1) ;;
        r <- req_get req ;;
        modify (set_req_head (next r)) ;;
        head <- gets req_head ;;
        if head =? 0 then modify (set_req_tail 0) else ret tt.
End ata.
