(* ===== verification/AtaTheorems.v ===== *)
(** * The disk driver's queue

    The laws state the documented behaviour of an ATA drive with 48-bit addresses: the registers of a
    command are two deep, a command makes the drive busy, data are ready when it says so.
    Theorems: over every interleaving of callers, interrupts and the drive's own
    progress, requests are served in order, each from its own block into its own buffer, the drive is never
    given two commands at once, and it is never idle with nobody left to start the next request. *)

From S2P Require Import Prelude Ata.

Inductive drive_state := DIdle | DBusy (lba : Z) | DReady (lba : Z).

(** The address the registers hold: current values below the previous ones. *)
Definition lba48 (reg : Z → Z * Z) : Z :=
  (reg REG_LBA0).1 + 2 ^ 8 * (reg REG_LBA1).1 + 2 ^ 16 * (reg REG_LBA2).1 +
  2 ^ 24 * (reg REG_LBA0).2 + 2 ^ 32 * (reg REG_LBA1).2 + 2 ^ 40 * (reg REG_LBA2).2.

Class AtaLaws (D : Type) {AD : AtaDev D} := {
  ad_base : Z;
  ad_unit : Z;
  drive : D → drive_state;
  disk : D → Z → list Z;
  reg : D → Z → Z * Z;
  selected : D → Z;
  al_unit : ad_unit = 0 ∨ ad_unit = 1;
  al_status d : let '(v, d') := ata_in (ad_base + REG_STATUS) d in
    drive d' = drive d ∧ disk d' = disk d ∧ reg d' = reg d ∧ selected d' = selected d ∧
    match drive d with
    | DIdle => Z.land v (Z.lor STATUS_BSY STATUS_DRQ) = 0
    | DBusy _ => Z.land v STATUS_DRQ = 0
    | DReady _ => Z.land v STATUS_DRQ ≠ 0
    end;
  al_param d r v : r ∈ [REG_SEC_COUNT0; REG_LBA0; REG_LBA1; REG_LBA2] → let d' := ata_out (ad_base + r) v d in
    drive d' = drive d ∧ disk d' = disk d ∧ (∀ x, reg d' x = if decide (x = r) then (v, (reg d x).1) else reg d x) ∧ selected d' = selected d;
  al_select d v : let d' := ata_out (ad_base + REG_HDDEVSEL) v d in
    drive d' = drive d ∧ disk d' = disk d ∧ reg d' = reg d ∧ selected d' = v;
  al_read d : drive d = DIdle → Z.testbit (selected d) 6 = true → Z.b2z (Z.testbit (selected d) 4) = ad_unit → reg d REG_SEC_COUNT0 = (1, 0) →
    let d' := ata_out (ad_base + REG_COMMAND) CMD_READ_PIO_EXT d in drive d' = DBusy (lba48 (reg d)) ∧ disk d' = disk d;
  al_data d lba : drive d = DReady lba → let '(bs, d') := ata_ins (ad_base + REG_DATA) 256 d in
    bs = disk d lba ∧ drive d' = DIdle ∧ disk d' = disk d
}.

Section theorems.
Context {D : Type} {AD : AtaDev D} {AL : AtaLaws D}.
Implicit Types (s : ata D) (d : D).

(** ** Starting a request *)

(** Reading the status changes nothing the driver can see. *)
Definition same_drive d d' : Prop := drive d' = drive d ∧ disk d' = disk d ∧ reg d' = reg d ∧ selected d' = selected d.

Lemma status_spec s Q : ata_base s = ad_base →
  (∀ v d', same_drive (drv s) d' → match drive (drv s) with DIdle => Z.land v (Z.lor STATUS_BSY STATUS_DRQ) = 0 | DBusy _ => Z.land v STATUS_DRQ = 0 | DReady _ => Z.land v STATUS_DRQ ≠ 0 end → Q v (set_drv d' s)) →
  wp (ainb (ata_base s + REG_STATUS)) s Q.
Proof.
  intros Hb HQ. unfold wp, ainb. rewrite Hb. pose proof (al_status (drv s)) as H. destruct (ata_in (ad_base + REG_STATUS) (drv s)) as [v d']. destruct H as (H1 & H2 & H3 & H4 & H5). by apply HQ.
Qed.

Lemma set_drv_twice d d' s : set_drv d (set_drv d' s) = set_drv d s.
Proof. done. Qed.

Lemma ata_delay_spec s : ata_base s = ad_base → wp (ata_delay (ata_base s)) s (λ _ s', ∃ d', s' = set_drv d' s ∧ same_drive (drv s) d').
Proof.
  intros Hb. unfold ata_delay. eapply wp_mono; [apply (wp_for_each (λ _ _ t, ∃ d', t = set_drv d' s ∧ same_drive (drv s) d'))|by cbv beta].
  - exists (drv s). by destruct s.
  - intros _ _ _ t _ (d' & -> & H1). wp_step. change (ata_base s) with (ata_base (set_drv d' s)) at 1. apply status_spec; [done|]. intros v d2 H2 _. apply wp_ret. exists d2. split; [done|].
    destruct H1 as (A1 & A2 & A3 & A4), H2 as (B1 & B2 & B3 & B4). cbn [drv set_drv] in *. split_and!; congruence.
Qed.

(** The bytes of an address below 2^48. *)
Lemma lba_bytes n : 0 ≤ n < 2 ^ 48 →
  u8 (Z.land n 0xFF) + 2 ^ 8 * u8 (Z.land (Z.shiftr n 8) 0xFF) + 2 ^ 16 * u8 (Z.land (Z.shiftr n 16) 0xFF) +
  2 ^ 24 * u8 (Z.land (Z.shiftr n 24) 0xFF) + 2 ^ 32 * u8 (Z.land (Z.shiftr n 32) 0xFF) + 2 ^ 40 * u8 (Z.land (Z.shiftr n 40) 0xFF) = n.
Proof.
  intros Hn. change 0xFF with (Z.ones 8). rewrite !Z.land_ones, !Z.shiftr_div_pow2 by lia. unfold u8. rewrite !Z.mod_mod by lia.
  assert (∀ k, 0 ≤ k → n / 2 ^ k = 2 ^ 8 * (n / 2 ^ (k + 8)) + (n / 2 ^ k) mod 2 ^ 8) as Hs
    by (intros k Hk; rewrite Z.pow_add_r, <-Z.div_div by lia; apply Z.div_mod; lia).
  pose proof (Z.div_mod n (2 ^ 8) ltac:(lia)) as E0. pose proof (Hs 8 ltac:(lia)) as E8. pose proof (Hs 16 ltac:(lia)) as E16. pose proof (Hs 24 ltac:(lia)) as E24. pose proof (Hs 32 ltac:(lia)) as E32.
  change (8 + 8) with 16 in E8. change (16 + 8) with 24 in E16. change (24 + 8) with 32 in E24. change (32 + 8) with 40 in E32. clear Hs.
  rewrite (Z.mod_small (n / 2 ^ 40)) by (split; [apply Z.div_pos; lia|apply Z.div_lt_upper_bound; lia]).
  generalize dependent ((n / 2 ^ 8) mod 2 ^ 8). generalize dependent ((n / 2 ^ 16) mod 2 ^ 8). generalize dependent ((n / 2 ^ 24) mod 2 ^ 8). generalize dependent ((n / 2 ^ 32) mod 2 ^ 8).
  generalize dependent (n mod 2 ^ 8). generalize (n / 2 ^ 8) (n / 2 ^ 16) (n / 2 ^ 24) (n / 2 ^ 32) (n / 2 ^ 40). lia.
Qed.

(** Writing a parameter register of an idle drive. *)
Definition put_reg (f : Z → Z * Z) (r v : Z) : Z → Z * Z := λ x, if decide (x = r) then (v, (f x).1) else f x.

(** The drive after the registers of [f] have been written. *)
Definition params d0 (sel : Z) (f : Z → Z * Z) d : Prop := drive d = DIdle ∧ disk d = disk d0 ∧ selected d = sel ∧ ∀ x, reg d x = f x.

Lemma aoutb_param d0 sel f d r v s Q : r ∈ [REG_SEC_COUNT0; REG_LBA0; REG_LBA1; REG_LBA2] → params d0 sel f d →
  (∀ d', params d0 sel (put_reg f r v) d' → Q tt (set_drv d' s)) → wp (aoutb (ad_base + r) v) (set_drv d s) Q.
Proof.
  intros Hr (P1 & P2 & P3 & P4) HQ. apply wp_modify. cbn [drv set_drv]. rewrite set_drv_twice. apply HQ. destruct (al_param d r v Hr) as (H1 & H2 & H3 & H4).
  split_and!; [congruence..|]. intros x. rewrite H3. unfold put_reg. by rewrite P4.
Qed.

Lemma select_bits : Z.testbit (u8 (Z.lor 0x40 (Z.shiftl ad_unit 4))) 6 = true ∧ Z.b2z (Z.testbit (u8 (Z.lor 0x40 (Z.shiftl ad_unit 4))) 4) = ad_unit.
Proof. by destruct al_unit as [-> | ->]. Qed.

Lemma ata_start_request_spec fuel req r s :
  ata_base s = ad_base → slave s = ad_unit → reqs s !! req = Some r → 0 ≤ blk_num r < 2 ^ 48 → drive (drv s) = DIdle → (0 < fuel)%nat →
  wp (ata_start_request fuel req) s (λ _ s', ∃ d', s' = set_drv d' s ∧ drive d' = DBusy (blk_num r) ∧ disk d' = disk (drv s)).
Proof.
  intros Hb Hsl Hr Hn Hd Hf. unfold ata_start_request. wp_step. apply wp_gets. wp_step. unfold req_get, wp at 1. rewrite Hr. wp_step.
  destruct fuel as [|fuel]; [lia|]. cbn [poll_clear]. wp_step. apply status_spec; [done|]. intros v d1 (A1 & A2 & A3 & A4) Hv. rewrite Hd in Hv. rewrite Hv. cbn [Z.eqb negb]. apply wp_ret.
  wp_step. apply wp_gets. cbn [slave set_drv]. rewrite Hsl. wp_step. apply wp_modify. cbn [drv set_drv]. rewrite set_drv_twice. rewrite Hb. destruct (al_select d1 (u8 (Z.lor 0x40 (Z.shiftl ad_unit 4)))) as (S1 & S2 & S3 & S4).
  set (sel := u8 (Z.lor 0x40 (Z.shiftl ad_unit 4))) in *. set (d2 := ata_out _ sel d1) in *. wp_step. rewrite <-Hb at 1. change (ata_base s) with (ata_base (set_drv d2 s)). eapply wp_mono; [by apply ata_delay_spec|].
  cbv beta. intros _ s3 (d3 & -> & B1 & B2 & B3 & B4). cbn [drv set_drv] in B1, B2, B3, B4. rewrite set_drv_twice.
  assert (∃ f, params (drv s) sel f d3) as [f Hp] by (exists (reg d3); split_and!; [congruence..|done]). clear B1 B2 B3 B4.
  do 8 (wp_step; eapply aoutb_param; [set_solver|exact Hp|]; clear Hp d3; intros d3 Hp).
  destruct Hp as (P1 & P2 & P3 & P4). apply wp_modify. cbn [drv set_drv]. rewrite set_drv_twice. eexists. split; [done|]. destruct select_bits as [Hs1 Hs2]. fold sel in Hs1, Hs2.
  destruct (al_read d3) as [R1 R2]; [done|by rewrite P3|by rewrite P3|by rewrite P4|]. split; [|by rewrite R2]. rewrite R1. f_equal.
  unfold lba48. rewrite !P4. etrans; [|exact (lba_bytes (blk_num r) Hn)]. reflexivity.
Qed.

(** ** The queue *)

(** A request with its block and its buffer. *)
Record job := Job { job_req : Z; job_blk : Z; job_dst : Z }.

(** The requests linked from [h]. *)
Fixpoint chain (rs : gmap Z ata_request) (h : Z) (q : list job) : Prop :=
  match q with
  | [] => h = 0
  | j :: q => h = job_req j ∧ h ≠ 0 ∧ ∃ n, rs !! h = Some (Req (job_blk j) (job_dst j) 0 n) ∧ chain rs n q
  end.

(** [st] is the finished request whose thread has the next one to start. *)
Record inv s (q : list job) (st : option Z) : Prop := {
  iv_base : ata_base s = ad_base;
  iv_slave : slave s = ad_unit;
  iv_chain : chain (reqs s) (req_head s) q;
  iv_tail : req_tail s = default 0 (job_req <$> last q);
  iv_nodup : NoDup (job_req <$> q);
  iv_jobs : Forall (λ j, 0 ≤ job_blk j < 2 ^ 48 ∧ job_dst j ≠ 0) q;
  iv_done r x : reqs s !! r = Some x → r ∉ (job_req <$> q) → rdone x = 1 ∧ next x = if decide (st = Some r) then req_head s else 0;
  iv_drive : match st, q with
    | Some r, _ :: _ => drive (drv s) = DIdle ∧ (r ∉ job_req <$> q) ∧ is_Some (reqs s !! r)
    | Some _, [] => False
    | None, [] => drive (drv s) = DIdle
    | None, j :: _ => drive (drv s) = DBusy (job_blk j) ∨ drive (drv s) = DReady (job_blk j)
    end
}.

Lemma chain_insert rs h q r x : r ∉ (job_req <$> q) → chain rs h q → chain (<[r := x]> rs) h q.
Proof.
  revert h. induction q as [|j q IH]; intros h Hr; [done|]. cbn in Hr. apply not_elem_of_cons in Hr as [Hne Hr]. intros (-> & Hz & n & Hn & Hc).
  split; [done|]. split; [done|]. exists n. split; [by rewrite lookup_insert_ne by done|by apply IH].
Qed.

Lemma chain_delete rs h q r : r ∉ (job_req <$> q) → chain rs h q → chain (delete r rs) h q.
Proof.
  revert h. induction q as [|j q IH]; intros h Hr; [done|]. cbn in Hr. apply not_elem_of_cons in Hr as [Hne Hr]. intros (-> & Hz & n & Hn & Hc).
  split; [done|]. split; [done|]. exists n. split; [by rewrite lookup_delete_ne by done|by apply IH].
Qed.

Lemma chain_lookup rs h q j : j ∈ q → chain rs h q → ∃ n, rs !! job_req j = Some (Req (job_blk j) (job_dst j) 0 n).
Proof.
  revert h. induction q as [|j' q IH]; intros h Hj; [by apply elem_of_nil in Hj|]. intros (-> & Hz & n & Hn & Hc). apply elem_of_cons in Hj as [->|Hj]; eauto.
Qed.

(** Linking a new request behind the last one. *)
Lemma chain_snoc rs h q j0 j : chain rs h q → last q = Some j0 → NoDup (job_req <$> q) → rs !! job_req j = Some (Req (job_blk j) (job_dst j) 0 0) → job_req j ≠ 0 → job_req j ∉ (job_req <$> q) →
  ∃ x, rs !! job_req j0 = Some x ∧ chain (<[job_req j0 := set_next (job_req j) x]> rs) h (q ++ [j]).
Proof.
  revert h. induction q as [|j1 q IH]; intros h Hc Hl Hnd Hj Hz Hin; [done|]. destruct Hc as (-> & Hz1 & n & Hn & Hc). cbn in Hin, Hnd. apply not_elem_of_cons in Hin as [Hne Hin]. apply NoDup_cons in Hnd as [Hnd1 Hnd2].
  destruct q as [|j2 q]; [injection Hl as <-|].
  - eexists. split; [exact Hn|]. cbn. split; [done|]. split; [done|]. eexists. split; [by rewrite lookup_insert_eq|]. split; [done|]. split; [done|]. exists 0. split; [by rewrite lookup_insert_ne|done].
  - rewrite last_cons_cons in Hl. destruct (IH n Hc Hl Hnd2 Hj Hz Hin) as (x & Hx & Hc'). exists x. split; [done|]. rewrite <-app_comm_cons. split; [done|]. split; [done|]. exists n. split; [|done].
    rewrite lookup_insert_ne; [done|]. intros E. apply Hnd1. rewrite <-E. apply list_elem_of_fmap_2, last_Some_elem_of. done.
Qed.

Lemma inv_head s q st : inv s q st → req_head s = default 0 (job_req <$> hd_error q) ∧ (req_head s = 0 ↔ q = []).
Proof. intros [_ _ Hc _ _ _ _ _]. destruct q as [|j q]; cbn in *; [done|]. destruct Hc as (-> & Hz & _). done. Qed.

(** The drive is started on the head of a queue that waits for it. *)
Lemma start_head_spec fuel s j q : ata_base s = ad_base → slave s = ad_unit → chain (reqs s) (req_head s) (j :: q) → 0 ≤ job_blk j < 2 ^ 48 → drive (drv s) = DIdle → (0 < fuel)%nat →
  wp (ata_start_request fuel (req_head s)) s (λ _ s', ∃ d', s' = set_drv d' s ∧ drive d' = DBusy (job_blk j) ∧ disk d' = disk (drv s)).
Proof. intros H1 H2 (Hh & Hz & n & Hn & _) Hb Hd Hf. rewrite Hh in Hn |- *. by apply (ata_start_request_spec fuel _ _ s H1 H2 Hn). Qed.

(** What no step but a completion changes. *)
Definition quiet s s' : Prop := ram s' = ram s ∧ disk (drv s') = disk (drv s).

Lemma ata_enqueue_spec fuel s q st j : inv s q st → job_req j ≠ 0 → reqs s !! job_req j = None → 0 ≤ job_blk j < 2 ^ 48 → job_dst j ≠ 0 → (0 < fuel)%nat →
  wp (ata_enqueue fuel (job_req j) (job_blk j) (job_dst j)) s (λ _ s', inv s' (q ++ [j]) st ∧ quiet s s').
Proof.
  intros Hi Hz Hn Hb Hd Hf. pose proof (inv_head _ _ _ Hi) as [Hh Hnil]. destruct Hi as [I1 I2 I3 I4 I5 I6 I7 I8].
  assert (job_req j ∉ job_req <$> q) as Hnew by (intros (j' & E & Hj')%list_elem_of_fmap; destruct (chain_lookup _ _ _ _ Hj' I3) as [n Hn']; congruence).
  assert (st ≠ Some (job_req j)) as Hst by (intros ->; destruct q; [done|]; destruct I8 as (_ & _ & [x Hx]); congruence).
  unfold ata_enqueue. wp_step. apply wp_modify. wp_step. apply wp_gets. cbn [req_head set_reqs]. destruct (req_head s =? 0) eqn:E; bool_prop.
  - apply Hnil in E as ->. destruct st as [r|]; [done|]. wp_step. apply wp_modify. wp_step. apply wp_modify. set (s1 := set_req_tail _ _).
    assert (chain (reqs s1) (req_head s1) [j]) as Hc by (cbn; split; [done|]; split; [done|]; exists 0; split; [by rewrite lookup_insert_eq|done]).
    eapply wp_mono; [apply (start_head_spec fuel s1 j []); done|]. cbv beta. intros _ s' (d' & -> & Hd1 & Hd2). split; [|by split].
    split; cbn [ata_base slave reqs req_head req_tail set_drv drv]; try done; [by apply NoDup_singleton|by apply Forall_singleton| |by left].
    intros r x Hx Hr. cbn in Hx, Hr. rewrite lookup_insert_ne in Hx by set_solver. by apply I7 in Hx; [|set_solver].
  - destruct (last q) as [j0|] eqn:El; [|apply last_None in El; subst; by destruct E; apply Hnil]. wp_step. apply wp_gets. cbn [req_tail set_reqs]. rewrite I4. cbn [fmap option_fmap option_map default].
    destruct (chain_snoc (<[job_req j := Req (job_blk j) (job_dst j) 0 0]> (reqs s)) (req_head s) q j0 j) as (x & Hx & Hc'); try done; [by apply chain_insert|by rewrite lookup_insert_eq|].
    wp_step. unfold req_upd. wp_step. unfold req_get, wp at 1. cbn [reqs set_reqs]. change (id (job_req j0)) with (job_req j0). rewrite Hx. apply wp_modify. apply wp_modify. split; [|by split].
    assert (job_req j0 ∈ job_req <$> q) as Hj0 by (apply list_elem_of_fmap_2, last_Some_elem_of; done).
    split; cbn [ata_base slave reqs req_head req_tail set_req_tail set_reqs drv]; try done.
    + by rewrite last_snoc.
    + rewrite fmap_app. apply NoDup_app. split; [done|]. split; [set_solver|by apply NoDup_singleton].
    + apply Forall_app. split; [done|by apply Forall_singleton].
    + intros r y Hy Hr. rewrite fmap_app in Hr. cbn in Hr. rewrite !lookup_insert_ne in Hy by set_solver. apply I7; [done|set_solver].
    + destruct q as [|j1 q]; [done|]. cbn [app]. destruct st as [r|]; [|done]. destruct I8 as (D1 & D2 & D3). split; [done|]. split; [rewrite app_comm_cons, fmap_app; cbn [fmap list_fmap] in *; set_solver|].
      destruct D3 as [y Hy]. exists y. rewrite !lookup_insert_ne; [done|congruence|]. intros <-. by apply D2.
Qed.

(** The request a completion hands the next start to. *)
Definition starter (r : Z) (q : list job) : option Z := match q with [] => None | _ => Some r end.

(** The handler either does nothing or completes the head. *)
Lemma ata_isr_spec s q st : inv s q st →
  wp ata_isr s (λ _ s', (inv s' q st ∧ quiet s s' ∧ req_head s' = req_head s) ∨
    ∃ j q', q = j :: q' ∧ drive (drv s) = DReady (job_blk j) ∧ inv s' q' (starter (job_req j) q') ∧ req_head s = job_req j ∧ req_head s' ≠ req_head s ∧
      ram s' = write_ram (job_dst j) (disk (drv s) (job_blk j)) (ram s) ∧ disk (drv s') = disk (drv s)).
Proof.
  intros Hi. pose proof Hi as [I1 I2 I3 I4 I5 I6 I7 I8]. unfold ata_isr. wp_step. apply wp_gets. wp_step. apply status_spec; [done|]. intros v d1 (A1 & A2 & A3 & A4) Hv.
  assert (inv (set_drv d1 s) q st) as Hi1 by (split; cbn; rewrite ?A1; done). assert (quiet s (set_drv d1 s)) as Hq1 by (by split).
  destruct (v =? 0) eqn:E0; [apply wp_ret; by left|]. destruct (Z.land v STATUS_DRQ =? 0) eqn:E1; bool_prop; [apply wp_ret; by left|].
  assert (∃ j q', st = None ∧ q = j :: q' ∧ drive (drv s) = DReady (job_blk j)) as (j & q' & -> & -> & Hdr).
  { destruct (drive (drv s)) as [|b|b] eqn:Ed; [|done|destruct st, q; try done; [by destruct I8|destruct I8; [done|eauto]]]. exfalso. apply E1.
    apply Z.bits_inj'. intros n Hn. apply (f_equal (λ x, Z.testbit x n)) in Hv. rewrite !Z.land_spec, Z.lor_spec, Z.bits_0 in *. destruct (Z.testbit v n); [|done]. cbn in *. by apply orb_false_iff in Hv as [_ ->]. }
  destruct I3 as (Hh & Hz & n & Hn & Hc). apply Forall_cons in I6 as [[_ Hdst] I6']. cbn [fmap list_fmap] in I5. apply NoDup_cons in I5 as [Hnd1 Hnd2].
  wp_step. apply wp_gets. cbn [req_head set_drv]. rewrite (proj2 (Z.eqb_neq _ _) Hz). wp_step. unfold req_get at 1, wp at 1. cbn [reqs set_drv]. rewrite Hn. cbn [buffer].
  rewrite (proj2 (Z.eqb_neq _ _) Hdst). wp_step. unfold insw, wp at 1. cbn [drv set_drv]. rewrite I1. assert (drive d1 = DReady (job_blk j)) as Hd1 by congruence.
  pose proof (al_data d1 _ Hd1) as Hdata. destruct (ata_ins (ad_base + REG_DATA) 256 d1) as [bs d2]. destruct Hdata as (-> & D1 & D2). cbn [Datatypes.fst Datatypes.snd].
  wp_step. unfold req_upd. wp_step. unfold req_get at 1, wp at 1. cbn [reqs set_drv set_ram]. rewrite Hn. apply wp_modify. wp_step. unfold req_get, wp at 1. cbn [reqs set_drv set_ram set_reqs].
  rewrite lookup_insert_eq. wp_step. apply wp_modify. wp_step. apply wp_gets. cbn [req_head set_req_head next set_rdone].
  assert (∀ t, ata_base t = ad_base → slave t = ad_unit → reqs t = <[req_head s := Req (job_blk j) (job_dst j) 1 n]> (reqs s) → req_head t = n → req_tail t = default 0 (job_req <$> last q') →
    drv t = d2 → inv t q' (starter (job_req j) q')) as Hinv.
  { intros t T1 T2 T3 T4 T5 T6. assert (req_head s ∉ job_req <$> q') as Hnin by (by rewrite Hh). split; try done.
    - rewrite T3, T4. by apply chain_insert.
    - intros r x Hx Hr. rewrite T3 in Hx. destruct (decide (r = req_head s)) as [->|Hne].
      + rewrite lookup_insert_eq in Hx. injection Hx as <-. split; [done|]. cbn [next]. rewrite T4, Hh. destruct q'; cbn [starter]; [rewrite decide_False by done; exact Hc|by rewrite decide_True].
      + rewrite lookup_insert_ne in Hx by done. destruct (I7 r x Hx) as [H1 H2]; [cbn; set_solver|]. split; [done|]. rewrite decide_False in H2 by done. rewrite H2.
        destruct q'; cbn [starter]; [by rewrite decide_False|]. rewrite decide_False; [done|congruence].
    - rewrite T6. destruct q' as [|j2 q']; cbn [starter]; [done|]. split; [done|]. split; [done|]. rewrite T3, Hh, lookup_insert_eq. eauto. }
  assert (n ≠ req_head s) as Hnew. { intros ->. destruct q' as [|j2 q']; [by apply Hz|]. destruct Hc as (E & _). apply Hnd1. rewrite <-Hh, E. cbn. left. }
  destruct (n =? 0) eqn:En; bool_prop; [apply wp_modify|apply wp_ret]; right; exists j, q'; split_and!; try done; try (cbn; congruence).
  - apply Hinv; try done. cbn. subst n. destruct q' as [|j2 q']; [done|]. destruct Hc as (_ & ? & _). done.
  - apply Hinv; try done. cbn. rewrite I4. destruct q' as [|j2 q']; [done|]. by rewrite last_cons_cons.
Qed.

Lemma ata_finish_spec fuel s q st r x : inv s q st → reqs s !! r = Some x → rdone x = 1 → (0 < fuel)%nat →
  wp (ata_finish fuel r) s (λ _ s', inv s' q (if decide (st = Some r) then None else st) ∧ quiet s s').
Proof.
  intros Hi Hx Hdone Hf. pose proof (inv_head _ _ _ Hi) as [Hh Hnil]. pose proof Hi as [I1 I2 I3 I4 I5 I6 I7 I8].
  assert (r ∉ job_req <$> q) as Hr by (intros (j & -> & Hj)%list_elem_of_fmap; destruct (chain_lookup _ _ _ _ Hj I3) as [n Hn]; rewrite Hx in Hn; injection Hn as ->; done).
  destruct (I7 r x Hx Hr) as [_ Hnext]. unfold ata_finish. wp_step. apply wp_gets. wp_step. unfold req_get, wp at 1. rewrite Hx. wp_step. rewrite Hnext.
  assert (∀ d', disk d' = disk (drv s) → match (if decide (st = Some r) then None else st), q with
    | Some r', _ :: _ => drive d' = DIdle ∧ (r' ∉ job_req <$> q) ∧ is_Some (reqs s !! r') | Some _, [] => False | None, [] => drive d' = DIdle
    | None, j :: _ => drive d' = DBusy (job_blk j) ∨ drive d' = DReady (job_blk j) end →
    wp (modify (λ s, set_reqs (delete r (reqs s)) s)) (set_drv d' s) (λ _ s', inv s' q (if decide (st = Some r) then None else st) ∧ quiet s s')) as Hend.
  { intros d' Hdisk Hdrive. apply wp_modify. split; [|by split]. split; cbn; try done; [by apply chain_delete| |].
    - intros r' y Hy Hr'. apply lookup_delete_Some in Hy as [Hne Hy]. destruct (I7 r' y Hy Hr') as [H1 H2]. split; [done|]. rewrite H2. destruct (decide (st = Some r)) as [->|]; [by rewrite !decide_False by congruence|done].
    - destruct (decide (st = Some r)) as [->|Hne]; [done|]. destruct st as [r'|]; [|done]. destruct q; [done|]. destruct Hdrive as (H1 & H2 & H3). split_and!; try done. rewrite lookup_delete_ne by congruence. done. }
  destruct (decide (st = Some r)) as [->|Hne].
  - destruct q as [|j q]; [done|]. destruct I8 as (D1 & D2 & D3). assert (negb (req_head s =? 0) && (req_head s =? req_head s) = true) as ->.
    { rewrite Z.eqb_refl, (proj2 (Z.eqb_neq (req_head s) 0)); [done|]. rewrite Hnil. done. }
    apply Forall_cons in I6 as [[Hb _] _]. eapply wp_mono; [by apply (start_head_spec fuel s j q)|]. cbv beta. intros _ s1 (d' & -> & E1 & E2). apply Hend; [done|by left].
  - assert (negb (req_head s =? 0) && (req_head s =? 0) = false) as -> by (by destruct (req_head s =? 0)). apply wp_ret.
    replace s with (set_drv (drv s) s) at 1 by (by destruct s). by apply Hend.
Qed.

(** ** Interleavings *)

Inductive label := Submitted (j : job) | Completed (r : Z) | Quiet.

(** Each step runs with interrupts disabled: a caller's part before and after its wait, the
    handler, and the drive's own progress. *)
Inductive ata_step s : label → ata D → Prop :=
  | step_submit fuel j s' : (0 < fuel)%nat → job_req j ≠ 0 → reqs s !! job_req j = None → 0 ≤ job_blk j < 2 ^ 48 → job_dst j ≠ 0 →
      ata_enqueue fuel (job_req j) (job_blk j) (job_dst j) s = Ret (tt, s') → ata_step s (Submitted j) s'
  | step_irq s' : ata_isr s = Ret (tt, s') → ata_step s (if decide (req_head s' = req_head s) then Quiet else Completed (req_head s)) s'
  | step_drive d' b : drive (drv s) = DBusy b → drive d' = DReady b → disk d' = disk (drv s) → ata_step s Quiet (set_drv d' s)
  | step_finish fuel r x s' : (0 < fuel)%nat → reqs s !! r = Some x → rdone x = 1 → ata_finish fuel r s = Ret (tt, s') → ata_step s Quiet s'.

Inductive ata_trace s0 : list label → ata D → Prop :=
  | trace_nil : ata_trace s0 [] s0
  | trace_snoc ls s l s' : ata_trace s0 ls s → ata_step s l s' → ata_trace s0 (ls ++ [l]) s'.

Definition submitted (ls : list label) : list job := omap (λ l, match l with Submitted j => Some j | _ => None end) ls.
Definition completed (ls : list label) : list Z := omap (λ l, match l with Completed r => Some r | _ => None end) ls.

(** A fresh driver on an idle drive. *)
Definition ata_fresh s : Prop :=
  ata_base s = ad_base ∧ slave s = ad_unit ∧ req_head s = 0 ∧ req_tail s = 0 ∧ reqs s = ∅ ∧ drive (drv s) = DIdle.

Lemma wp_ret_inv {A} (c : M (ata D) A) s a s' Q : wp c s Q → c s = Ret (a, s') → Q a s'.
Proof. intros H E. unfold wp in H. by rewrite E in H. Qed.

Lemma ata_trace_inv s0 ls s : ata_fresh s0 → ata_trace s0 ls s →
  ∃ dn q st, inv s q st ∧ submitted ls = dn ++ q ∧ completed ls = job_req <$> dn ∧ disk (drv s) = disk (drv s0) ∧
    ram s = foldl (λ m j, write_ram (job_dst j) (disk (drv s0) (job_blk j)) m) (ram s0) dn.
Proof.
  intros (F1 & F2 & F3 & F4 & F5 & F6). induction 1 as [|ls s l s' _ (dn & q & st & Hi & Hs & Hc & Hd & Hr) Hstep].
  { exists [], [], None. split; [|done]. split; try done; [by apply NoDup_nil|]. intros r x Hx. by rewrite F5, lookup_empty in Hx. }
  unfold submitted, completed in *. rewrite !omap_app. destruct Hstep as [fuel j s' Hf Hz Hn Hb Hd' E|s' E|d' b D1 D2 D3|fuel r x s' Hf Hx Hdone E].
  - destruct (wp_ret_inv _ _ _ _ _ (ata_enqueue_spec fuel s q st j Hi Hz Hn Hb Hd' Hf) E) as (Hi' & Q1 & Q2). exists dn, (q ++ [j]), st.
    split; [done|]. cbn. rewrite Hs, Hc, app_nil_r, app_assoc. split_and!; [done..|congruence|congruence].
  - destruct (wp_ret_inv _ _ _ _ _ (ata_isr_spec s q st Hi) E) as [(Hi' & (Q1 & Q2) & Hh)|(j & q' & -> & Hdr & Hi' & Hh & Hh' & Q1 & Q2)].
    + rewrite decide_True by done. exists dn, q, st. split; [done|]. cbn. rewrite !app_nil_r. split_and!; [done..|congruence|congruence].
    + rewrite decide_False by done. exists (dn ++ [j]), q', (starter (job_req j) q'). split; [done|]. cbn. rewrite Hs, Hc, app_nil_r, <-app_assoc, fmap_app, foldl_app, Hh. cbn.
      split_and!; [done..|congruence|]. rewrite Q1, Hr, Hd. done.
  - exists dn, q, st. cbn. rewrite !app_nil_r. split_and!; try done; [|congruence]. destruct Hi as [I1 I2 I3 I4 I5 I6 I7 I8]. split; try done. cbn. rewrite D1 in I8. destruct st as [r|], q; try done; [by destruct I8|].
    destruct I8 as [[= ->]|]; [by right|done].
  - destruct (wp_ret_inv _ _ _ _ _ (ata_finish_spec fuel s q st r x Hi Hx Hdone Hf) E) as (Hi' & Q1 & Q2). exists dn, q, (if decide (st = Some r) then None else st).
    cbn. rewrite !app_nil_r. split_and!; [done..|congruence|congruence].
Qed.

End theorems.

(** ** A drive *)

Record toy_drive := Drive { td_state : drive_state; td_reg : Z → Z * Z; td_sel : Z }.

(** Block [n] of its disk is full of the byte [n mod 256]. *)
Definition td_disk (n : Z) : list Z := replicate 512 (u8 n).

#[export] Instance toy_ata : AtaDev toy_drive := {
  ata_out port v d :=
    if port =? 0x1F7 then (if v =? CMD_READ_PIO_EXT then Drive (DBusy (lba48 (td_reg d))) (td_reg d) (td_sel d) else d)
    else if port =? 0x1F6 then Drive (td_state d) (td_reg d) v
    else if (0x1F2 <=? port) && (port <=? 0x1F5) then Drive (td_state d) (put_reg (td_reg d) (port - 0x1F0) v) (td_sel d) else d;
  ata_in port d := (match td_state d with DIdle => 0x40 | DBusy _ => 0x80 | DReady _ => 0x48 end, d);
  ata_ins port cnt d := match td_state d with DReady n => (td_disk n, Drive DIdle (td_reg d) (td_sel d)) | _ => ([], d) end
}.

#[export, program] Instance toy_ata_laws : AtaLaws toy_drive := { ad_base := 0x1F0; ad_unit := 0; drive := td_state; disk _ := td_disk; reg := td_reg; selected := td_sel }.
Next Obligation. by left. Qed.
Next Obligation. intros d. cbn. by destruct (td_state d). Qed.
Next Obligation.
  intros d r v Hr. assert (r ∈ seqZ 2 4) as Hr' by exact Hr. apply elem_of_seqZ in Hr'. cbn -[Z.leb Z.eqb Z.add Z.sub]. rewrite (proj2 (Z.eqb_neq (496 + r) 503)), (proj2 (Z.eqb_neq (496 + r) 502)) by lia.
  replace ((498 <=? 496 + r) && (496 + r <=? 501)) with true by lia. replace (496 + r - 496) with r by lia. by split_and!.
Qed.
Next Obligation. done. Qed.
Next Obligation. done. Qed.
Next Obligation. intros d lba Hd. cbn in *. by rewrite Hd. Qed.

Definition boot_ata : ata toy_drive := Ata 0x1F0 0 0 0 ∅ ∅ (Drive DIdle (λ _, (0, 0)) 0).

