(* ===== verification/IsrAsm.v ===== *)
(** * Interrupt entry and exit ([src/x86_64/interrupts/*.asm])

    The 256 stubs of [generated_interrupts.asm], the common path of [interrupt_asm.asm] around
    the C handler, and what the processor itself pushes and pops.  Theorems: an interrupt is invisible to
    the interrupted code, the frame it leaves is [struct syscall_frame], the frames that the
    kernel builds for new threads start them at their entry points, and the stub of a vector is
    where its gate points, up to vector 128. *)

From S2P Require Import Prelude Kernel KernelExample Interrupts Multitask ProcessSyscalls.

(** ** The processor *)

Inductive gpr := RAX | RCX | RDX | RSI | RDI | R8 | R9 | R10 | R11 | RBX | RBP | R12 | R13 | R14 | R15.
#[export] Instance gpr_dec : EqDecision gpr.
Proof. solve_decision. Defined.

(** Registers, and the 64-bit words of the stacks by address. *)
Record cpu := Cpu { regs : gpr → Z; rsp_ : Z; rip_ : Z; cs_ : Z; rflags_ : Z; ss_ : Z; stk : gmap Z Z }.

Definition set_reg (r : gpr) (v : Z) (c : cpu) : cpu :=
  Cpu (λ x, if decide (x = r) then v else regs c x) (rsp_ c) (rip_ c) (cs_ c) (rflags_ c) (ss_ c) (stk c).
Definition set_rsp_ (v : Z) (c : cpu) : cpu := Cpu (regs c) v (rip_ c) (cs_ c) (rflags_ c) (ss_ c) (stk c).

Definition word (c : cpu) (a : Z) : Z := default 0 (stk c !! u64 a).

Definition push (v : Z) (c : cpu) : cpu :=
  let a := u64 (rsp_ c - 8) in Cpu (regs c) a (rip_ c) (cs_ c) (rflags_ c) (ss_ c) (<[a := v]> (stk c)).

Definition pop (r : gpr) (c : cpu) : cpu := set_rsp_ (u64 (rsp_ c + 8)) (set_reg r (word c (rsp_ c)) c).

(** What the processor does on an interrupt: [top] is where the frame starts, below the
    interrupted stack or at the top of the kernel stack that the task state segment gives. *)
Definition hw_enter (top : Z) (err : option Z) (c : cpu) : cpu :=
  let c1 := push (rip_ c) (push (cs_ c) (push (rflags_ c) (push (rsp_ c) (push (ss_ c) (set_rsp_ top c))))) in
  match err with Some e => push e c1 | None => c1 end.

Definition iretq (c : cpu) : cpu :=
  let a := rsp_ c in Cpu (regs c) (word c (a + 24)) (word c a) (word c (a + 8)) (word c (a + 16)) (word c (a + 32)) (stk c).

(** ** [generated_interrupts.asm] *)

Inductive instr := Push (v : Z) | Nop | Jmp_isr_handler.

(** The vectors for which the processor pushes an error code. *)
Definition err_vectors : list Z := [8; 10; 11; 12; 13; 14; 17; 21; 29; 30].

Definition isr_stub (v : Z) : list instr :=
  if bool_decide (v ∈ err_vectors) then [Push v; Nop; Nop; Jmp_isr_handler] else [Push 0; Push v; Jmp_isr_handler].

(** The encodings: a pushed byte is sign-extended, so 128 and above need four bytes. *)
Definition instr_size (i : instr) : Z :=
  match i with Push v => if (-128 <=? v) && (v <? 128) then 2 else 5 | Nop => 1 | Jmp_isr_handler => 5 end.
Definition stub_size (v : Z) : Z := foldr Z.add 0 (instr_size <$> isr_stub v).

(** Where the stub of [v] is, after those in front of it. *)
Definition stub_addr `{IdtLayout} (v : Z) : Z := isr0_addr + foldr Z.add 0 (stub_size <$> seqZ 0 v).

Definition exec_instr (c : cpu) (i : instr) : cpu := match i with Push v => push v c | _ => c end.

(** ** [interrupt_asm.asm] *)

Definition push_order : list gpr := [RAX; RCX; RDX; RSI; RDI; R8; R9; R10; R11; RBX; RBP; R12; R13; R14; R15].

(** From the stub to the call of [c_isr_handler], with its three arguments. *)
Definition isr_save (c : cpu) : cpu := foldl (λ c r, push (regs c r) c) c push_order.
Definition isr_args (c : cpu) : Z * Z * Z := (word c (rsp_ c + 120), word c (rsp_ c + 128), rsp_ c).

(** [.restore], on the stack pointer chosen by then. *)
Definition isr_restore (c : cpu) : cpu :=
  let c1 := foldl (λ c r, pop r c) c (reverse push_order) in iretq (set_rsp_ (u64 (rsp_ c1 + 16)) c1).

(** From the interrupt to the C handler. *)
Definition isr_enter (top v : Z) (err : option Z) (c : cpu) : cpu := isr_save (foldl exec_instr (hw_enter top err c) (isr_stub v)).

(** ** Frames *)

(** Words from address [a] up. *)
Definition frame_at (m : gmap Z Z) (a : Z) (ws : list Z) : Prop := ∀ i w, ws !! i = Some w → m !! (a + 8 * Z.of_nat i) = Some w.

Definition pushes (ws : list Z) (c : cpu) : cpu := foldl (λ c w, push w c) c ws.

Lemma frame_at_app m a ws1 ws2 : frame_at m a (ws1 ++ ws2) ↔ frame_at m a ws1 ∧ frame_at m (a + 8 * Z.of_nat (length ws1)) ws2.
Proof.
  split.
  - intros H. split; intros i w Hi; [apply H; by apply lookup_app_l_Some|]. replace (a + 8 * Z.of_nat (length ws1) + 8 * Z.of_nat i) with (a + 8 * Z.of_nat (length ws1 + i)) by lia.
    apply H. rewrite lookup_app_r by lia. by replace (length ws1 + i - length ws1)%nat with i by lia.
  - intros [H1 H2] i w [Hi|[Hi Hw]]%lookup_app_Some; [by apply H1|]. apply H2 in Hw. replace (a + 8 * Z.of_nat i) with (a + 8 * Z.of_nat (length ws1) + 8 * Z.of_nat (i - length ws1)) by lia. done.
Qed.

(** Pushing leaves the words in reverse above the new stack pointer, and what was above. *)
Lemma pushes_spec ws c : 8 * Z.of_nat (length ws) ≤ rsp_ c < 2 ^ 64 →
  let c' := pushes ws c in
  rsp_ c' = rsp_ c - 8 * Z.of_nat (length ws) ∧ regs c' = regs c ∧ frame_at (stk c') (rsp_ c') (reverse ws) ∧ (∀ a, rsp_ c ≤ a → stk c' !! a = stk c !! a).
Proof.
  unfold pushes. revert c. induction ws as [|w ws IH]; intros c Hr; cbn [foldl length] in *; [split; [lia|]; by split_and!|].
  assert (rsp_ (push w c) = rsp_ c - 8) as Ep by (cbn; rewrite u64_small by lia; done). destruct (IH (push w c)) as (H1 & H2 & H3 & H4); [lia|]. cbv zeta in *. rewrite Ep in *.
  split; [lia|]. split; [by rewrite H2|]. split.
  - rewrite reverse_cons. apply frame_at_app. split; [done|]. rewrite length_reverse, H1. replace (rsp_ c - 8 - 8 * Z.of_nat (length ws) + 8 * Z.of_nat (length ws)) with (rsp_ c - 8) by lia.
    intros i x [-> ->]%list_lookup_singleton_Some. rewrite Z.add_0_r, H4 by lia. cbn. rewrite u64_small by lia. by rewrite lookup_insert_eq.
  - intros a Ha. rewrite H4 by lia. cbn. rewrite lookup_insert_ne; [done|]. rewrite u64_small by lia. lia.
Qed.

Lemma word_at c a ws i w : frame_at (stk c) a ws → ws !! i = Some w → 0 ≤ a + 8 * Z.of_nat i < 2 ^ 64 → word c (a + 8 * Z.of_nat i) = w.
Proof. intros H Hi Hr. unfold word. rewrite u64_small by done. by rewrite (H _ _ Hi). Qed.

(** Popping registers off a frame. *)
Lemma pops_spec rs ws c : NoDup rs → length ws = length rs → frame_at (stk c) (rsp_ c) ws → 0 ≤ rsp_ c → rsp_ c + 8 * Z.of_nat (length rs) < 2 ^ 64 →
  let c' := foldl (λ c r, pop r c) c rs in
  stk c' = stk c ∧ rsp_ c' = rsp_ c + 8 * Z.of_nat (length rs) ∧ (∀ i r w, rs !! i = Some r → ws !! i = Some w → regs c' r = w) ∧ (∀ r, r ∉ rs → regs c' r = regs c r).
Proof.
  revert ws c. induction rs as [|r rs IH]; intros ws c Hnd Hl Hf H0 Hr; cbn [foldl length] in *; [split; [done|]; split; [lia|]; done|].
  destruct ws as [|w ws]; [done|]. injection Hl as Hl. apply NoDup_cons in Hnd as [Hnin Hnd]. apply (frame_at_app _ _ [w] ws) in Hf as [Hw Hf].
  assert (word c (rsp_ c) = w) as Ew by (rewrite <-(Z.add_0_r (rsp_ c)); apply (word_at c (rsp_ c) [w] 0 w); [done|done|lia]).
  assert (rsp_ (pop r c) = rsp_ c + 8) as Ep by (cbn; rewrite u64_small by lia; done).
  destruct (IH ws (pop r c)) as (H1 & H2 & H3 & H4); [done|done|by rewrite Ep|lia|rewrite Ep; lia|]. cbv zeta in *. rewrite Ep in *.
  split; [done|]. split; [lia|]. split.
  - intros [|i] x y Hx Hy; cbn in Hx, Hy; [|by apply (H3 i)]. injection Hx as <-. injection Hy as <-. rewrite H4 by done. cbn. by rewrite decide_True.
  - intros x [Hx1 Hx2]%not_elem_of_cons. rewrite H4 by done. cbn. by rewrite decide_False.
Qed.

(** The 22 words of a frame, lowest address first, as [struct syscall_frame] has them. *)
Definition frame_words (f : gpr → Z) (v err rip cs rflags rsp ss : Z) : list Z := (f <$> reverse push_order) ++ [v; err; rip; cs; rflags; rsp; ss].

Lemma iretq_frame c a rip cs rflags rsp ss : frame_at (stk c) a [rip; cs; rflags; rsp; ss] → rsp_ c = a → 0 ≤ a → a + 40 ≤ 2 ^ 64 →
  let c' := iretq c in regs c' = regs c ∧ rip_ c' = rip ∧ cs_ c' = cs ∧ rflags_ c' = rflags ∧ rsp_ c' = rsp ∧ ss_ c' = ss.
Proof.
  intros Hf Ea H0 H1.
  assert (∀ k w b, [rip; cs; rflags; rsp; ss] !! k = Some w → b = a + 8 * Z.of_nat k → word c b = w) as Hword
    by (intros k w b Hk ->; assert (k < 5)%nat by (apply lookup_lt_Some in Hk; exact Hk); apply (word_at _ _ _ _ _ Hf Hk); lia).
  unfold iretq. rewrite Ea. cbv zeta. cbn [regs rip_ cs_ rflags_ rsp_ ss_]. split; [done|].
  split_and!; [apply (Hword 0%nat)|apply (Hword 1%nat)|apply (Hword 2%nat)|apply (Hword 3%nat)|apply (Hword 4%nat)]; try reflexivity; lia.
Qed.

(** [isr_restore] loads the registers of the frame at the stack pointer. *)
Lemma isr_restore_spec c f v err rip cs rflags rsp ss : frame_at (stk c) (rsp_ c) (frame_words f v err rip cs rflags rsp ss) → 0 ≤ rsp_ c → rsp_ c + 176 ≤ 2 ^ 64 →
  let c' := isr_restore c in (∀ r, regs c' r = f r) ∧ rip_ c' = rip ∧ cs_ c' = cs ∧ rflags_ c' = rflags ∧ rsp_ c' = rsp ∧ ss_ c' = ss.
Proof.
  intros Hf H0 Hr. apply frame_at_app in Hf as [Hf1 Hf2]. rewrite length_fmap in Hf2.
  pose proof (pops_spec (reverse push_order) (f <$> reverse push_order) c) as Hp. cbv zeta in Hp. unfold isr_restore. revert Hp. generalize (foldl (λ c r, pop r c) c (reverse push_order)).
  intros c1 Hp. change (length (reverse push_order)) with 15%nat in *. destruct Hp as (H1 & H2 & H3 & H4); [by apply (bool_decide_unpack _)|by rewrite length_fmap|done|done|lia|]. cbv zeta.
  apply (frame_at_app _ _ [v; err]) in Hf2 as [_ Hf2]. destruct (iretq_frame (set_rsp_ (u64 (rsp_ c1 + 16)) c1) (rsp_ c + 136) rip cs rflags rsp ss) as (G1 & G); [|cbn; rewrite u64_small; lia|lia|lia|].
  { cbn [stk set_rsp_]. rewrite H1. replace (rsp_ c + 136) with (rsp_ c + 8 * Z.of_nat 15 + 8 * Z.of_nat 2) by lia. exact Hf2. }
  split; [|exact G]. intros r. rewrite G1. cbn [regs set_rsp_]. assert (r ∈ reverse push_order) as [i Hi]%list_elem_of_lookup by (destruct r; apply (bool_decide_unpack _); exact I).
  apply (H3 i r); [done|]. by rewrite list_lookup_fmap, Hi.
Qed.

(** ** Entry *)

Lemma save_pushes rs c : foldl (λ c r, push (regs c r) c) c rs = pushes (regs c <$> rs) c.
Proof. unfold pushes. revert c. induction rs as [|r rs IH]; intros c; [done|]. cbn [foldl fmap list_fmap]. rewrite IH. done. Qed.

Lemma isr_enter_pushes top v err c : (is_Some err ↔ v ∈ err_vectors) →
  isr_enter top v err c = pushes ([ss_ c; rsp_ c; rflags_ c; cs_ c; rip_ c; default 0 err; v] ++ (regs c <$> push_order)) (set_rsp_ top c).
Proof.
  intros Herr. unfold isr_enter, isr_save. rewrite save_pushes. unfold isr_stub, hw_enter, pushes. rewrite foldl_app. destruct err as [e|].
  - rewrite bool_decide_true by (by apply Herr). cbn [foldl exec_instr default]. change (id e) with e. f_equal.
  - rewrite bool_decide_false by (intros [? [=]]%Herr). cbn [foldl exec_instr default]. f_equal.
Qed.

Lemma isr_enter_spec top v err c : (is_Some err ↔ v ∈ err_vectors) → 176 ≤ top < 2 ^ 64 →
  let c' := isr_enter top v err c in
  rsp_ c' = top - 176 ∧ frame_at (stk c') (top - 176) (frame_words (regs c) v (default 0 err) (rip_ c) (cs_ c) (rflags_ c) (rsp_ c) (ss_ c)) ∧ (∀ a, top ≤ a → stk c' !! a = stk c !! a).
Proof.
  intros Herr Ht. rewrite isr_enter_pushes by done. set (ws := _ ++ _). destruct (pushes_spec ws (set_rsp_ top c)) as (H1 & H2 & H3 & H4); [unfold ws; rewrite length_app, length_fmap; cbn [length push_order rsp_ set_rsp_]; lia|].
  cbv zeta in *. assert (rsp_ (pushes ws (set_rsp_ top c)) = top - 176) as Er by (rewrite H1; unfold ws; rewrite length_app, length_fmap; cbn [length push_order rsp_ set_rsp_]; lia).
  split; [done|]. split; [|done]. rewrite Er in H3. unfold ws in H3. rewrite reverse_app, <-fmap_reverse in H3. exact H3.
Qed.

(** The word of a frame for a register, by its field of [struct syscall_frame]. *)
Definition field_of (r : gpr) : Z :=
  match r with R15 => 0 | R14 => 8 | R13 => 16 | R12 => 24 | RBP => 32 | RBX => 40 | R11 => 48 | R10 => F_r10 | R9 => 64 | R8 => 72
  | RDI => F_rdi | RSI => F_rsi | RDX => F_rdx | RCX => 104 | RAX => F_rax end.

Lemma frame_field c f v err rip cs rflags rsp ss r : frame_at (stk c) (rsp_ c) (frame_words f v err rip cs rflags rsp ss) → 0 ≤ rsp_ c → rsp_ c + 176 ≤ 2 ^ 64 →
  word c (rsp_ c + field_of r) = f r.
Proof.
  intros Hf H0 H1. assert (∃ i, frame_words f v err rip cs rflags rsp ss !! i = Some (f r) ∧ field_of r = 8 * Z.of_nat i ∧ (i < 22)%nat) as (i & Hi & -> & Hl).
  { exists (Z.to_nat (field_of r / 8)). destruct r; (split; [reflexivity|split; [reflexivity|apply Nat.ltb_lt; reflexivity]]). }
  apply (word_at _ _ _ _ _ Hf Hi). lia.
Qed.

(** C13: whatever interrupts whatever code, with or without an error code: the C handler is called
    with the vector, the error code (0 if there is none) and the address of a frame in which each register is in its field of
    [struct syscall_frame]; nothing above the frame changes; and returning on that frame, left as it was, at any
    later time and from any state of the registers, gives the interrupted code all its registers, its stack pointer, flags,
    segments and instruction pointer back. *)
Theorem isr_transparent top v err c c2 :
  (is_Some err ↔ v ∈ err_vectors) → 176 ≤ top < 2 ^ 64 →
  let c1 := isr_enter top v err c in
  rsp_ c2 = rsp_ c1 → (∀ a, rsp_ c1 ≤ a < top → stk c2 !! a = stk c1 !! a) →
  isr_args c1 = (v, default 0 err, top - 176) ∧ (∀ r, word c1 (rsp_ c1 + field_of r) = regs c r) ∧ (∀ a, top ≤ a → stk c1 !! a = stk c !! a) ∧
  let c' := isr_restore c2 in
  (∀ r, regs c' r = regs c r) ∧ rip_ c' = rip_ c ∧ cs_ c' = cs_ c ∧ rflags_ c' = rflags_ c ∧ rsp_ c' = rsp_ c ∧ ss_ c' = ss_ c.
Proof.
  intros Herr Ht c1 Hr Hs. destruct (isr_enter_spec top v err c Herr Ht) as (E1 & E2 & E3). cbv zeta in *. fold c1 in E1, E2, E3. rewrite <-E1 in E2. split.
  { unfold isr_args. assert (word c1 (rsp_ c1 + 120) = v ∧ word c1 (rsp_ c1 + 128) = default 0 err) as [-> ->]; [|by rewrite E1].
    split; [apply (word_at _ _ _ 15 v E2 eq_refl)|apply (word_at _ _ _ 16 (default 0 err) E2 eq_refl)]; lia. }
  split; [intros r; apply (frame_field _ _ _ _ _ _ _ _ _ r E2); lia|]. split; [done|]. eapply isr_restore_spec; [|lia|lia].
  rewrite Hr. intros i w Hi. rewrite Hs; [by apply E2|]. apply lookup_lt_Some in Hi. change (length _) with 22%nat in Hi. lia.
Qed.

(** A kernel interrupted on its own stack, by a page fault. *)
Lemma isr_transparent_witness :
  let c := Cpu (λ r, match r with RAX => 7 | R15 => 15 | _ => 1 end) 0x8000 0x100000 8 0x202 0 ∅ in
  let c' := isr_restore (isr_enter 0x8000 14 (Some 2) c) in
  isr_args (isr_enter 0x8000 14 (Some 2) c) = (14, 2, 0x7F50) ∧ regs c' RAX = 7 ∧ regs c' R15 = 15 ∧ rip_ c' = 0x100000 ∧ rsp_ c' = 0x8000.
Proof.
  cbv zeta. set (c := Cpu _ _ _ _ _ _ _).
  destruct (isr_transparent 0x8000 14 (Some 2) c (isr_enter 0x8000 14 (Some 2) c)) as (H1 & _ & _ & H2 & H3 & _ & _ & H4 & _).
  - split; [intros _; apply (bool_decide_unpack _); exact I|intros _; exists 2; reflexivity].
  - lia.
  - reflexivity.
  - intros a _. reflexivity.
  - split; [exact H1|]. split; [exact (H2 RAX)|]. split; [exact (H2 R15)|]. split; [exact H3|exact H4].
Defined.

(** ** New threads *)

Section threads.
Context {E : Type} `{!KernelEnv E, !TaskLayout}.

(** The frames built for new threads are frames of this layout: the first return on a
    kernel thread's frame is to [thread_start] in kernel mode with the entry point and the argument as its two
    arguments, on the top of the thread's stack; on a user thread's frame it is to the entry point in user mode with the
    argument, on the user stack; both with interrupts enabled. *)
Theorem new_thread_starts c sp entry_point arg : 0 ≤ rsp_ c → rsp_ c + 176 ≤ 2 ^ 64 →
  (frame_at (stk c) (rsp_ c) (reverse (kthread_frame sp entry_point arg)) →
     let c' := isr_restore c in rip_ c' = thread_start_addr ∧ regs c' RDI = entry_point ∧ regs c' RSI = arg ∧ rsp_ c' = sp ∧ cs_ c' = Interrupts.KERNEL_CS ∧ Z.testbit (rflags_ c') 9 = true) ∧
  (frame_at (stk c) (rsp_ c) (reverse (uthread_frame sp entry_point arg)) →
     let c' := isr_restore c in rip_ c' = entry_point ∧ regs c' RDI = arg ∧ rsp_ c' = sp ∧ cs_ c' = Z.lor USER_CS 3 ∧ ss_ c' = Z.lor USER_DS 3 ∧ Z.testbit (rflags_ c') 9 = true).
Proof.
  intros H0 H1. split; intros Hf.
  - destruct (isr_restore_spec c (λ r, match r with RDI => entry_point | RSI => arg | _ => 0 end) 0 0 thread_start_addr KERNEL_CS DEFAULT_RFLAGS sp 0) as (G1 & G2 & G3 & G4 & G5 & _); [exact Hf|done|done|].
    cbv zeta. rewrite !G1, G2, G3, G4, G5. done.
  - destruct (isr_restore_spec c (λ r, match r with RDI => arg | _ => 0 end) 0 0 entry_point (Z.lor USER_CS USER_RPL) DEFAULT_RFLAGS sp (Z.lor USER_DS USER_RPL)) as (G1 & G2 & G3 & G4 & G5 & G6); [exact Hf|done|done|].
    cbv zeta. rewrite !G1, G2, G3, G4, G5, G6. done.
Qed.
End threads.

(** ** Stubs and gates *)

Lemma stub_sizes : Forall (λ v, stub_size v = if v <? 128 then 9 else 12) (seqZ 0 256).
Proof. apply (bool_decide_unpack _). vm_compute. exact I. Qed.

Lemma foldr_add_app l x : foldr Z.add 0 (l ++ [x]) = foldr Z.add 0 l + x.
Proof. induction l as [|y l IH]; cbn; lia. Qed.

Lemma stub_offset n : (n ≤ 256)%nat → foldr Z.add 0 (stub_size <$> seqZ 0 (Z.of_nat n)) = 9 * Z.min (Z.of_nat n) 128 + 12 * Z.max 0 (Z.of_nat n - 128).
Proof.
  induction n as [|n IH]; intros Hn; [done|]. replace (Z.of_nat (S n)) with (Z.of_nat n + 1) by lia. rewrite seqZ_app by lia. change (seqZ (0 + Z.of_nat n) 1) with [0 + Z.of_nat n].
  rewrite fmap_app. cbn [fmap list_fmap]. rewrite foldr_add_app, IH by lia. rewrite (proj1 (Forall_forall _ _) stub_sizes) by (apply elem_of_seqZ; lia). destruct (0 + Z.of_nat n <? 128) eqn:E; bool_prop; lia.
Qed.

(** The gate of a vector, nine bytes per stub, leads to that vector's stub exactly for the vectors
    up to 128, the system call's: the stubs from 128 on push a number that does not fit a byte and are
    twelve bytes long. *)
Theorem gate_reaches_stub `{IdtLayout} v : 0 ≤ v < 256 → 0 ≤ isr0_addr < 2 ^ 63 →
  u64 (isr0_addr + v * STUB_SIZE) = stub_addr v ↔ v ≤ 128.
Proof.
  intros Hv Ha. unfold STUB_SIZE, stub_addr. rewrite u64_small by lia.
  pose proof (stub_offset (Z.to_nat v) ltac:(lia)) as Ho. rewrite Z2Nat.id in Ho by lia. lia.
Qed.

Lemma gate_reaches_stub_witness : u64 (@isr0_addr (Build_IdtLayout 0x100500 0 0 0 0 0) + 128 * STUB_SIZE) = @stub_addr (Build_IdtLayout 0x100500 0 0 0 0 0) 128.
Proof. apply (@gate_reaches_stub (Build_IdtLayout 0x100500 0 0 0 0 0) 128); cbn; lia. Defined.

(** The frame of a kernel thread on a stack that ends at 0x9000. *)
Lemma new_thread_witness :
  let c := pushes (kthread_frame 0x9000 0x104000 5) (Cpu (λ _, 3) 0x9000 0 0 0 0 ∅) in regs (isr_restore c) RDI = 0x104000 ∧ regs (isr_restore c) RSI = 5 ∧ rsp_ (isr_restore c) = 0x9000.
Proof.
  cbv zeta. destruct (pushes_spec (kthread_frame 0x9000 0x104000 5) (Cpu (λ _, 3) 0x9000 0 0 0 0 ∅)) as (H1 & _ & H3 & _); [cbn; lia|]. cbv zeta in H1, H3.
  assert (0x9000 - 8 * Z.of_nat (length (kthread_frame 0x9000 0x104000 5)) = 0x8F50) as El by reflexivity. cbn [rsp_] in H1. rewrite El in H1.
  destruct (new_thread_starts (pushes (kthread_frame 0x9000 0x104000 5) (Cpu (λ _, 3) 0x9000 0 0 0 0 ∅)) 0x9000 0x104000 5) as [Hk _]; [rewrite H1; lia|rewrite H1; lia|].
  destruct (Hk H3) as (_ & G2 & G3 & G4 & _). split; [exact G2|]. split; [exact G3|exact G4].
Defined.
