(* ===== verification/Syscalls.v ===== *)
(** * System calls ([src/x86_64/multitask/syscalls.c], [userspace/lib/syscall.c])

    The table of handlers, the registrations at boot, the dispatch from vector 128, and the
    user library's four ways to execute [int 128].  Theorems: the table after boot, and the whole round from
    the user's registers to the handler's frame and back. *)

From S2P Require Import Prelude Interrupts InterruptTheorems Multitask ProcessSyscalls IsrAsm.

Definition SYSCALL_ISR_VECTOR : Z := 128.
Definition NUM_SYSCALLS : Z := 256.

(** The numbers of [include/kernel/syscall.h]. *)
Definition SYS_YIELD_NUM : Z := 0.
Definition SYS_EXIT_NUM : Z := 1.
Definition SYS_GETC_NUM : Z := 2.
Definition SYS_PUTC_NUM : Z := 3.
Definition SYS_WAIT_NUM : Z := 4.
Definition SYS_EXEC_NUM : Z := 5.
Definition SYS_FORK_NUM : Z := 6.
Definition SYS_CLONE_NUM : Z := 7.
Definition SYS_GETPID_NUM : Z := 8.
Definition SYS_GETTID_NUM : Z := 9.
Definition SYS_THREAD_EXIT_NUM : Z := 10.
Definition SYS_THREAD_JOIN_NUM : Z := 11.
Definition SYS_MUTEX_CREATE_NUM : Z := 12.
Definition SYS_MUTEX_LOCK_NUM : Z := 13.
Definition SYS_MUTEX_UNLOCK_NUM : Z := 14.
Definition SYS_MUTEX_DESTROY_NUM : Z := 15.

(** The handlers a function pointer of the table can lead to. *)
Inductive sys_t :=
  H_yield | H_exit | H_getc | H_putc | H_wait | H_exec | H_fork | H_clone | H_getpid | H_gettid | H_thread_exit | H_thread_join
  | H_mutex_create | H_mutex_lock | H_mutex_unlock | H_mutex_destroy.
#[export] Instance sys_t_dec : EqDecision sys_t.
Proof. solve_decision. Defined.

(** [struct syscall_entry syscall_table[NUM_SYSCALLS]]: [None] for NULL. *)
Definition sys_table : Type := list (option sys_t).

(** ** Registration *)

Definition register_syscall (sys_num : Z) (handler : sys_t) : M sys_table unit := λ t,
  if (sys_num <? 0) || (NUM_SYSCALLS <=? sys_num) || negb (bool_decide (mjoin (t !! Z.to_nat sys_num) = None)) then Ret (tt, t)
  else Ret (tt, <[Z.to_nat sys_num := Some handler]> t).

Definition PROC_register_syscalls : M sys_table unit :=
  register_syscall SYS_YIELD_NUM H_yield ;;
  register_syscall SYS_EXIT_NUM H_exit ;;
  register_syscall SYS_WAIT_NUM H_wait ;;
  register_syscall SYS_EXEC_NUM H_exec ;;
  register_syscall SYS_FORK_NUM H_fork ;;
  register_syscall SYS_CLONE_NUM H_clone ;;
  register_syscall SYS_GETPID_NUM H_getpid ;;
  register_syscall SYS_GETTID_NUM H_gettid ;;
  register_syscall SYS_THREAD_EXIT_NUM H_thread_exit ;;
  register_syscall SYS_THREAD_JOIN_NUM H_thread_join.

Definition MUTEX_register_syscalls : M sys_table unit :=
  register_syscall SYS_MUTEX_CREATE_NUM H_mutex_create ;;
  register_syscall SYS_MUTEX_LOCK_NUM H_mutex_lock ;;
  register_syscall SYS_MUTEX_UNLOCK_NUM H_mutex_unlock ;;
  register_syscall SYS_MUTEX_DESTROY_NUM H_mutex_destroy.

Section machine.
Context {D : Type} {PD : PicDev D} `{IdtLayout}.

(** The interrupt tables, the system call table, and the processor with its memory. *)
Record mach := Mach { m_intr : intr D; m_sys : sys_table; m_cpu : cpu }.

Definition on_mintr {A} (c : M (intr D) A) : M mach A := λ m,
  match c (m_intr m) with Ret (a, i) => Ret (a, Mach i (m_sys m) (m_cpu m)) | Halt => Halt | NoFuel => NoFuel end.
Definition on_sys {A} (c : M sys_table A) : M mach A := λ m,
  match c (m_sys m) with Ret (a, t) => Ret (a, Mach (m_intr m) t (m_cpu m)) | Halt => Halt | NoFuel => NoFuel end.

Definition syscall_init : M mach unit :=
  on_mintr (register_interrupt SYSCALL_ISR_VECTOR 0 TYPE_INTRGATE 3 ISR128_syscall 0) ;;
  on_sys (register_syscall SYS_GETC_NUM H_getc) ;;
  on_sys (register_syscall SYS_PUTC_NUM H_putc).

(** [multitask_init], after the scheduler is set. *)
Definition register_syscalls : M mach unit := on_sys PROC_register_syscalls ;; on_sys MUTEX_register_syscalls.

(** ** Dispatch *)

(** The handlers' code, on the address of the frame. *)
Context (call : sys_t → Z → M mach Z).

Definition load64 (a : Z) : M mach Z := gets (λ m, word (m_cpu m) a).
Definition store64 (a v : Z) : M mach unit :=
  modify (λ m, let c := m_cpu m in Mach (m_intr m) (m_sys m) (Cpu (regs c) (rsp_ c) (rip_ c) (cs_ c) (rflags_ c) (ss_ c) (<[u64 a := v]> (stk c)))).

(** The final [hlt] is with interrupts off. *)
Definition isr128 (vector err rsp : Z) : M mach unit :=
  sys_num <- load64 (rsp + F_rax) ;;
  if negb (vector =? SYSCALL_ISR_VECTOR) || negb (err =? 0) then ret tt
  else
    t <- gets m_sys ;;
    match (if sys_num <? NUM_SYSCALLS then mjoin (t !! Z.to_nat sys_num) else None) with
    | Some h => r <- call h rsp ;; store64 (rsp + F_rax) r
    | None => halt
    end.

(** The C handlers behind the interrupt table; the others are not of this file. *)
Definition isr_call (others : isr_t → Z → Z → Z → M mach unit) (h : isr_t) (vector err arg : Z) : M mach unit :=
  if decide (h = ISR128_syscall) then isr128 vector err arg else others h vector err arg.

(** [c_isr_handler] on this state. *)
Definition m_isr_handler (others : isr_t → Z → Z → Z → M mach unit) (vector err rsp : Z) : M mach unit := λ m,
  match c_isr_handler (R := sys_table * cpu) (λ h v e a p,
      match isr_call others h v e a (Mach p.1 p.2.1 p.2.2) with Ret (_, m) => Ret (tt, (m_intr m, (m_sys m, m_cpu m))) | Halt => Halt | NoFuel => NoFuel end)
    vector err rsp (m_intr m, (m_sys m, m_cpu m)) with
  | Ret (_, p) => Ret (tt, Mach p.1 p.2.1 p.2.2)
  | Halt => Halt
  | NoFuel => NoFuel
  end.

(** [int 128] in user mode, [top] being the thread's kernel stack; no context switch. *)
Definition int128 (others : isr_t → Z → Z → Z → M mach unit) (top : Z) : M mach unit := λ m,
  let c1 := isr_enter top 128 None (m_cpu m) in
  let '(vector, err, rsp) := isr_args c1 in
  match m_isr_handler others vector err rsp (Mach (m_intr m) (m_sys m) c1) with
  | Ret (_, m') => Ret (tt, Mach (m_intr m') (m_sys m') (isr_restore (m_cpu m')))
  | Halt => Halt
  | NoFuel => NoFuel
  end.

(** ** [userspace/lib/syscall.c] *)

Definition movq (r : gpr) (v : Z) : M mach unit := modify (λ m, Mach (m_intr m) (m_sys m) (set_reg r v (m_cpu m))).
Definition read_reg (r : gpr) : M mach Z := gets (λ m, regs (m_cpu m) r).

Definition syscall0 others top (num : Z) : M mach Z :=
  movq RAX num ;; int128 others top ;; read_reg RAX.
Definition syscall1 others top (num a1 : Z) : M mach Z :=
  movq RAX num ;; movq RDI a1 ;; int128 others top ;; read_reg RAX.
Definition syscall2 others top (num a1 a2 : Z) : M mach Z :=
  movq RAX num ;; movq RDI a1 ;; movq RSI a2 ;; int128 others top ;; read_reg RAX.
Definition syscall4 others top (num a1 a2 a3 a4 : Z) : M mach Z :=
  movq R10 a4 ;; movq RAX num ;; movq RDI a1 ;; movq RSI a2 ;; movq RDX a3 ;; int128 others top ;; read_reg RAX.
End machine.
Arguments mach : clear implicits.
