(* ===== verification/SyscallTheorems.v ===== *)
(** * The round of a system call

    What boot leaves in the system call table, and that a call of the user library reaches the
    handler of its number with its arguments in the frame and brings the answer back, with
    nothing else changed. *)

From S2P Require Import Prelude Interrupts InterruptTheorems Multitask ProcessSyscalls IsrAsm Syscalls.

Section theorems.
Context {D : Type} {PD : PicDev D} {PL : PicLaws D} `{IdtLayout}.
Implicit Types (m : mach D).

(** ** The table after boot *)

(** Entry [n] is the handler of number [n]. *)
Definition boot_table : sys_table :=
  (Some <$> [H_yield; H_exit; H_getc; H_putc; H_wait; H_exec; H_fork; H_clone; H_getpid; H_gettid; H_thread_exit; H_thread_join;
    H_mutex_create; H_mutex_lock; H_mutex_unlock; H_mutex_destroy]) ++ replicate 240 None.

Lemma boot_table_eq : (register_syscall SYS_GETC_NUM H_getc ;; register_syscall SYS_PUTC_NUM H_putc ;; PROC_register_syscalls ;; MUTEX_register_syscalls) (replicate 256 None) = Ret (tt, boot_table).
Proof. vm_compute. reflexivity. Qed.

(** On tables where vector 128 is free, [syscall_init] and [multitask_init] leave vector 128 with a gate that user
    mode may call, to the system call's handler and to the stub of that vector, and each of the sixteen numbers of
    the header with its own handler, every other number with none. *)
Theorem syscalls_registered m :
  tables_wf (m_intr m) → pic_ready (pic (m_intr m)) → handler_at (m_intr m) 128 = None → m_sys m = replicate 256 None → 0 ≤ isr0_addr < 2 ^ 63 →
  wp (syscall_init ;; register_syscalls) m (λ _ m',
    m_sys m' = boot_table ∧ handler_at (m_intr m') 128 = Some ISR128_syscall ∧ tables_wf (m_intr m') ∧
    ∃ g, idt (m_intr m') !! 128%nat = Some g ∧ gate_DPL g = 3 ∧ gate_type g = TYPE_INTRGATE ∧ gate_pres g = 1 ∧ gate_target g = stub_addr 128).
Proof.
  intros Hwf Hr Hf Ht Ha. unfold syscall_init, register_syscalls.
  assert (wp (register_interrupt SYSCALL_ISR_VECTOR 0 TYPE_INTRGATE 3 ISR128_syscall 0) (m_intr m) (λ _ i, registered (m_intr m) 128 0 TYPE_INTRGATE 3 ISR128_syscall 0 i)) as Hreg.
  { eapply wp_mono; [apply register_interrupt_spec; [done|done|unfold TYPE_INTRGATE; lia..]|]. cbv beta. intros _ i. by rewrite decide_True. }
  unfold wp, bind, on_mintr, on_sys in *. destruct (register_interrupt _ _ _ _ _ _ _) as [[[] i]| |]; [|done..]. cbn [m_sys m_intr m_cpu]. rewrite Ht.
  pose proof boot_table_eq as E. unfold bind in E. destruct (register_syscall SYS_GETC_NUM H_getc _) as [[[] t1]| |]; [|done..]. cbn [m_sys m_intr m_cpu].
  destruct (register_syscall SYS_PUTC_NUM H_putc t1) as [[[] t2]| |]; [|done..]. cbn [m_sys m_intr m_cpu]. destruct (PROC_register_syscalls t2) as [[[] t3]| |]; [|done..]. cbn [m_sys m_intr m_cpu]. rewrite E. cbn [m_sys m_intr].
  destruct Hreg as [G1 (g & Gg & Go) G3 G4 _ _ _ _ _]. split; [done|]. split; [by rewrite (handler_insert (m_intr m) i 128 128 _ _ ltac:(lia) ltac:(lia) (tw_isr _ Hwf) G4)|]. split; [done|].
  exists g. destruct Go as (O1 & _ & _ & O4 & O5 & O6). split_and!; try done. rewrite O1. by apply gate_reaches_stub.
Qed.

(** ** One call *)

Context (call : sys_t → Z → M (mach D) Z) (others : isr_t → Z → Z → Z → M (mach D) unit).

(** The registers with [v] in [r]. *)
Definition upd_reg (f : gpr → Z) (r : gpr) (v : Z) : gpr → Z := λ x, if decide (x = r) then v else f x.

(** Given a frame at [top - 176] that shows the registers [f], the handler returns [res] and leaves the frame alone. *)
Definition handles m (h : sys_t) (f : gpr → Z) (top res : Z) : Prop := ∀ c1,
  rsp_ c1 = top - 176 → (∀ r, word c1 (top - 176 + field_of r) = f r) →
  ∃ m2, call h (top - 176) (Mach (m_intr m) (m_sys m) c1) = Ret (res, m2) ∧ rsp_ (m_cpu m2) = top - 176 ∧ (∀ a, top - 176 ≤ a < top → stk (m_cpu m2) !! a = stk c1 !! a).

(** The user's registers after the call: the answer in rax. *)
Definition back_to_user m (f : gpr → Z) (res : Z) m' : Prop :=
  (∀ r, regs (m_cpu m') r = upd_reg f RAX res r) ∧ rip_ (m_cpu m') = rip_ (m_cpu m) ∧ cs_ (m_cpu m') = cs_ (m_cpu m) ∧
  rflags_ (m_cpu m') = rflags_ (m_cpu m) ∧ rsp_ (m_cpu m') = rsp_ (m_cpu m) ∧ ss_ (m_cpu m') = ss_ (m_cpu m).

(** A vector 128 that is set up, and a number with a handler. *)
Definition ready_call m (num : Z) (h : sys_t) : Prop :=
  length (isr_table (m_intr m)) = 256%nat ∧ isr_table (m_intr m) !! 128%nat = Some (IsrEntry (Some ISR128_syscall) 0) ∧
  0 ≤ num < NUM_SYSCALLS ∧ m_sys m !! Z.to_nat num = Some (Some h).

Lemma frame_set_rax st a f v e rip cs rflags rsp ss res : frame_at st a (frame_words f v e rip cs rflags rsp ss) →
  frame_at (<[a + F_rax := res]> st) a (frame_words (upd_reg f RAX res) v e rip cs rflags rsp ss).
Proof.
  intros Hf i w Hi. destruct (decide (i = 14%nat)) as [->|Hne].
  - injection Hi as <-. unfold F_rax. by rewrite lookup_insert_eq.
  - rewrite lookup_insert_ne by (unfold F_rax; lia). apply Hf. rewrite <-Hi. do 14 (destruct i as [|i]; [reflexivity|]). destruct i as [|i]; [done|]. reflexivity.
Qed.

Lemma eoi_none (s : intr D) : eoi 128 s = s.
Proof. unfold eoi. by destruct s. Qed.

Lemma int128_spec top m h res : 176 ≤ top < 2 ^ 64 → ready_call m (regs (m_cpu m) RAX) h → handles m h (regs (m_cpu m)) top res →
  wp (int128 call others top) m (λ _ m', back_to_user m (regs (m_cpu m)) res m').
Proof.
  intros Ht (R1 & R2 & R3 & R4) Hh. assert (is_Some (@None Z) ↔ 128 ∈ err_vectors) as Herr by (split; [by intros []|intros Hin; by apply (bool_decide_eq_true_2 _) in Hin]).
  destruct (isr_enter_spec top 128 None (m_cpu m) Herr Ht) as (E1 & E2 & E3). cbv zeta in *. unfold wp, int128. cbv zeta. revert E1 E2 E3. generalize (isr_enter top 128 None (m_cpu m)). intros c1 E1 E2 _.
  assert (isr_args c1 = (128, 0, top - 176)) as ->.
  { assert (word c1 (top - 176 + 120) = 128 ∧ word c1 (top - 176 + 128) = 0) as [W1 W2]
      by (split; [apply (word_at _ _ _ 15 128 E2 eq_refl)|apply (word_at _ _ _ 16 0 E2 eq_refl)]; lia).
    unfold isr_args. by rewrite E1, W1, W2. }
  assert (∀ r, word c1 (top - 176 + field_of r) = regs (m_cpu m) r) as Hfield by (intros r; rewrite <-E1 in E2 |- *; apply (frame_field _ _ _ _ _ _ _ _ _ r E2); lia).
  destruct (Hh c1 E1 Hfield) as (m2 & Hc & H2 & H3). unfold m_isr_handler. cbn [m_intr m_sys m_cpu]. rewrite c_isr_handler_eq by done. change (Z.to_nat 128) with 128%nat. rewrite R2.
  unfold deliver. rewrite bool_decide_true by done. cbn [Datatypes.fst Datatypes.snd]. unfold isr_call. rewrite decide_True by done. unfold isr128, bind, load64, gets. cbn [m_cpu m_sys].
  change (top - 176 + F_rax) with (top - 176 + field_of RAX). rewrite Hfield. change (128 =? SYSCALL_ISR_VECTOR) with true. change (0 =? 0) with true. cbn [negb orb].
  rewrite (proj2 (Z.ltb_lt _ _) (proj2 R3)). cbv beta. cbn [m_sys]. rewrite R4. cbn [mjoin option_join]. rewrite Hc. cbn [store64 modify m_intr m_sys m_cpu Datatypes.fst Datatypes.snd]. cbv zeta.
  set (c2 := Cpu _ _ _ _ _ _ _). assert (frame_at (stk c2) (rsp_ c2) (frame_words (upd_reg (regs (m_cpu m)) RAX res) 128 0 (rip_ (m_cpu m)) (cs_ (m_cpu m)) (rflags_ (m_cpu m)) (rsp_ (m_cpu m)) (ss_ (m_cpu m)))) as Hf2.
  { cbn [stk rsp_ c2]. rewrite H2. change (field_of RAX) with F_rax. rewrite (u64_small (top - 176 + F_rax)) by (unfold F_rax; lia). apply frame_set_rax.
    intros i w Hi. rewrite H3; [by apply E2|]. apply lookup_lt_Some in Hi. change (length _) with 22%nat in Hi. lia. }
  pose proof (isr_restore_spec c2 _ _ _ _ _ _ _ _ Hf2) as Hres. change (rsp_ c2) with (rsp_ (m_cpu m2)) in Hres. rewrite H2 in Hres. apply Hres; lia.
Qed.

Lemma wp_movq r v m Q : Q tt (Mach (m_intr m) (m_sys m) (set_reg r v (m_cpu m))) → wp (movq r v) m Q.
Proof. done. Qed.

(** Registers in place, the call answers. *)
Lemma call_spec top m m1 num h res : 176 ≤ top < 2 ^ 64 → m_intr m1 = m_intr m → m_sys m1 = m_sys m → ready_call m num h → regs (m_cpu m1) RAX = num →
  (rip_ (m_cpu m1) = rip_ (m_cpu m) ∧ cs_ (m_cpu m1) = cs_ (m_cpu m) ∧ rflags_ (m_cpu m1) = rflags_ (m_cpu m) ∧ rsp_ (m_cpu m1) = rsp_ (m_cpu m) ∧ ss_ (m_cpu m1) = ss_ (m_cpu m)) →
  handles m h (regs (m_cpu m1)) top res →
  wp (int128 call others top ;; read_reg RAX) m1 (λ r m', r = res ∧ back_to_user m (regs (m_cpu m1)) res m').
Proof.
  intros Ht Ei Es Hr Ea (B1 & B2 & B3 & B4 & B5) Hh. wp_step. eapply wp_mono; [apply (int128_spec top m1 h res); [done| |]|].
  - unfold ready_call. by rewrite Ei, Es, Ea.
  - unfold handles. by rewrite Ei, Es.
  - cbv beta. intros _ m' (G1 & G2 & G3 & G4 & G5 & G6). apply wp_gets. unfold back_to_user. rewrite <-B1, <-B2, <-B3, <-B4, <-B5. split; [rewrite G1; done|done].
Qed.

(** C12: a user program's [syscall1], [syscall2] or [syscall4] of a number with a handler runs that
    handler once, on a frame whose fields hold the number and the arguments, and returns what the handler
    returned; besides rax and the argument registers it set, the program finds every register, its flags, its stack
    and its place as they were, and no interrupt is signalled to the controllers. *)
Theorem syscall_roundtrip top m num h a1 a2 a3 a4 r1 r2 r4 : 176 ≤ top < 2 ^ 64 → ready_call m num h →
  let f := regs (m_cpu m) in
  let f1 := upd_reg (upd_reg f RAX num) RDI a1 in
  let f2 := upd_reg f1 RSI a2 in
  let f4 := upd_reg (upd_reg (upd_reg (upd_reg (upd_reg f R10 a4) RAX num) RDI a1) RSI a2) RDX a3 in
  handles m h f1 top r1 → handles m h f2 top r2 → handles m h f4 top r4 →
  wp (syscall1 call others top num a1) m (λ r m', r = r1 ∧ back_to_user m f1 r1 m') ∧
  wp (syscall2 call others top num a1 a2) m (λ r m', r = r2 ∧ back_to_user m f2 r2 m') ∧
  wp (syscall4 call others top num a1 a2 a3 a4) m (λ r m', r = r4 ∧ back_to_user m f4 r4 m').
Proof.
  intros Ht Hr f f1 f2 f4 H1 H2 H4. split; [|split].
  - unfold syscall1. wp_step. apply wp_movq. wp_step. apply wp_movq. by apply (call_spec top m (Mach (m_intr m) (m_sys m) (set_reg RDI a1 (set_reg RAX num (m_cpu m)))) num h r1).
  - unfold syscall2. wp_step. apply wp_movq. wp_step. apply wp_movq. wp_step. apply wp_movq.
    by apply (call_spec top m (Mach (m_intr m) (m_sys m) (set_reg RSI a2 (set_reg RDI a1 (set_reg RAX num (m_cpu m))))) num h r2).
  - unfold syscall4. wp_step. apply wp_movq. wp_step. apply wp_movq. wp_step. apply wp_movq. wp_step. apply wp_movq. wp_step. apply wp_movq.
    by apply (call_spec top m (Mach (m_intr m) (m_sys m) (set_reg RDX a3 (set_reg RSI a2 (set_reg RDI a1 (set_reg RAX num (set_reg R10 a4 (m_cpu m))))))) num h r4).
Qed.
End theorems.

(** ** Examples *)

Definition user_cpu : cpu := Cpu (λ r, match r with RBX => 11 | _ => 0 end) 0x7FFF00 0x400100 0x1B 0x202 0x23 ∅.

Lemma syscalls_registered_witness :
  wp (syscall_init ;; register_syscalls) (Mach gates_intr (replicate 256 None) user_cpu) (λ _ m', m_sys m' !! 13%nat = Some (Some H_mutex_lock) ∧ m_sys m' !! 16%nat = Some None).
Proof.
  eapply wp_mono; [apply (syscalls_registered (Mach gates_intr (replicate 256 None) user_cpu)); [exact gates_wf|split; reflexivity|reflexivity|reflexivity|cbn; lia]|].
  cbv beta. intros _ m' (Hs & _). rewrite Hs. split; reflexivity.
Defined.

Definition call_mach : mach (chip * chip) :=
  Mach (set_isr_table (<[128%nat := IsrEntry (Some ISR128_syscall) 0]> (replicate 256 (IsrEntry None 0))) boot_intr) boot_table user_cpu.

(** A handler that answers its first argument. *)
Definition echo_call (h : sys_t) (frame : Z) : M (mach (chip * chip)) Z := λ m, Ret (word (m_cpu m) (frame + F_rdi), m).

Lemma echo_handles f top : handles echo_call call_mach H_putc f top (f RDI).
Proof. intros c1 E1 Hf. exists (Mach (m_intr call_mach) (m_sys call_mach) c1). split; [|by split]. rewrite <-(Hf RDI). reflexivity. Qed.

Lemma syscall_roundtrip_witness :
  wp (syscall1 echo_call (λ _ _ _ _ m, Ret (tt, m)) 0x9000 SYS_PUTC_NUM 65) call_mach (λ r m', r = 65 ∧ regs (m_cpu m') RBX = 11 ∧ rip_ (m_cpu m') = 0x400100).
Proof.
  destruct (syscall_roundtrip echo_call (λ _ _ _ _ m, Ret (tt, m)) 0x9000 call_mach SYS_PUTC_NUM H_putc 65 0 0 0 65 65 65) as [Hw _].
  - lia.
  - split; [reflexivity|]. split; [reflexivity|]. split; [unfold SYS_PUTC_NUM, NUM_SYSCALLS; lia|reflexivity].
  - apply (echo_handles (upd_reg (upd_reg (regs user_cpu) RAX SYS_PUTC_NUM) RDI 65)).
  - apply (echo_handles (upd_reg (upd_reg (upd_reg (regs user_cpu) RAX SYS_PUTC_NUM) RDI 65) RSI 0)).
  - apply (echo_handles (upd_reg (upd_reg (upd_reg (upd_reg (upd_reg (regs user_cpu) R10 0) RAX SYS_PUTC_NUM) RDI 65) RSI 0) RDX 0)).
  - eapply wp_mono; [exact Hw|]. cbv beta. intros r m' (H1 & H2 & H3 & _). split; [exact H1|]. split; [exact (H2 RBX)|exact H3].
Defined.
