(* ===== verification/Userlib.v ===== *)
(** * The user library ([userspace/lib/syscall.c])

    The functions that user programs call, on top of the system call instruction of [Syscalls]: here
    [sys num args] is the whole call.  Theorems: [putnum] prints the decimal numeral of
    every number within its buffer, and the library's numbers are those of the kernel's table. *)

From S2P Require Import Prelude Interrupts Syscalls SyscallTheorems Vga Stdio.

Definition SYS_YIELD : Z := 0.
Definition SYS_EXIT : Z := 1.
Definition SYS_GETC : Z := 2.
Definition SYS_PUTC : Z := 3.
Definition SYS_WAIT : Z := 4.
Definition SYS_EXEC : Z := 5.
Definition SYS_FORK : Z := 6.
Definition SYS_CLONE : Z := 7.
Definition SYS_GETPID : Z := 8.
Definition SYS_GETTID : Z := 9.
Definition SYS_THREAD_EXIT : Z := 10.
Definition SYS_THREAD_JOIN : Z := 11.
Definition SYS_MUTEX_CREATE : Z := 12.
Definition SYS_MUTEX_LOCK : Z := 13.
Definition SYS_MUTEX_UNLOCK : Z := 14.
Definition SYS_MUTEX_DESTROY : Z := 15.

Definition CLONE_PROCESS : Z := 0.
Definition CLONE_THREAD : Z := 1.

(** The [id] field of the [mutex_t] at each address, and the rest of the world. *)
Record ust (S : Type) := Ust { ids : gmap Z Z; world : S }.
Arguments Ust {S}.
Arguments ids {S}.
Arguments world {S}.

Section userlib.
Context {S : Type} (sys : Z → list Z → M S Z).
#[local] Abbreviation MU := (M (ust S)).

Definition usys (num : Z) (args : list Z) : MU Z := λ u,
  match sys num args (world u) with Ret (r, w) => Ret (r, Ust (ids u) w) | Halt => Halt | NoFuel => NoFuel end.

Definition putc (c : Z) : MU unit := usys SYS_PUTC [u64 c] ;; ret tt.

(** [s] is the string without its terminator. *)
Definition puts (s : list Z) : MU unit := for_each s putc.

Definition PUTNUM_BUF : nat := 21.

(** The first loop of [putnum]; its buffer bounds it. *)
Fixpoint putnum_digits (fuel : nat) (buf : list Z) (i n : Z) : MU (list Z * Z) :=
  match fuel with
  | O => no_fuel
  | Datatypes.S fuel =>
      if (0 <? n) && (i <? Z.of_nat PUTNUM_BUF) then
        buf <- store_local buf i (char_of (48 + n mod 10)) ;;
        putnum_digits fuel buf (i32 (i + 1)) (n / 10)
      else ret (buf, i)
  end.

Fixpoint putnum_emit (i : nat) (buf : list Z) : MU unit :=
  match i with
  | O => ret tt
  | Datatypes.S i => putc (default 0 (buf !! i)) ;; putnum_emit i buf
  end.

Definition putnum (buf : list Z) (n : Z) : MU unit :=
  if n =? 0 then putc 48 else
  r <- putnum_digits 22 buf 0 n ;;
  putnum_emit (Z.to_nat r.2) r.1.

Definition getc : MU Z := r <- usys SYS_GETC [] ;; ret (char_of r).
Definition uyield : MU unit := usys SYS_YIELD [] ;; ret tt.

(** The endless loop behind a call that does not return. *)
Definition exit (status : Z) : MU unit := usys SYS_EXIT [u64 status] ;; no_fuel.

Definition clone (mode child_stack_top entry arg : Z) : MU Z := usys SYS_CLONE [mode; child_stack_top; entry; arg].
Definition fork : MU Z := clone CLONE_PROCESS 0 0 0.
Definition getpid : MU Z := usys SYS_GETPID [].
Definition gettid : MU Z := usys SYS_GETTID [].

Definition thread_create (stack stack_size entry arg : Z) : MU Z :=
  if (stack =? 0) || (stack_size =? 0) || (entry =? 0) then ret (u64 (-1))
  else clone CLONE_THREAD (u64 (stack + stack_size)) entry arg.
Definition thread_exit (status : Z) : MU unit := usys SYS_THREAD_EXIT [u64 status] ;; no_fuel.
Definition thread_join (tid status : Z) : MU Z := usys SYS_THREAD_JOIN [tid; status].

Definition mutex_id (mutex : Z) : MU Z := gets (λ u, default 0 (ids u !! mutex)).
Definition set_mutex_id (mutex v : Z) : MU unit := modify (λ u, Ust (<[mutex := v]> (ids u)) (world u)).

Definition mutex_init (mutex : Z) : MU Z :=
  if mutex =? 0 then ret (-1) else
  id <- usys SYS_MUTEX_CREATE [] ;;
  if id =? 0 then set_mutex_id mutex 0 ;; ret (-1)
  else set_mutex_id mutex id ;; ret 0.

Definition mutex_lock (mutex : Z) : MU Z :=
  id <- mutex_id mutex ;;
  if (mutex =? 0) || (id =? 0) then ret (-1) else
  r <- usys SYS_MUTEX_LOCK [id] ;; ret (i32 r).

Definition mutex_unlock (mutex : Z) : MU Z :=
  id <- mutex_id mutex ;;
  if (mutex =? 0) || (id =? 0) then ret (-1) else
  r <- usys SYS_MUTEX_UNLOCK [id] ;; ret (i32 r).

Definition mutex_destroy (mutex : Z) : MU Z :=
  id <- mutex_id mutex ;;
  if (mutex =? 0) || (id =? 0) then ret (-1) else
  r <- usys SYS_MUTEX_DESTROY [id] ;;
  (if i32 r =? 0 then set_mutex_id mutex 0 else ret tt) ;;
  ret (i32 r).

Definition uwait (status : Z) : MU Z := usys SYS_WAIT [status].
Definition exec (filename : Z) : MU Z := usys SYS_EXEC [filename].

(** ** [putnum] *)

Lemma putnum_digits_spec k : ∀ n fuel buf i u Q, 0 ≤ n < 10 ^ Z.of_nat k → (k < fuel)%nat → length buf = PUTNUM_BUF → (i + k ≤ PUTNUM_BUF)%nat →
  (∀ buf', take (i + length (ldigits k 10 n)) buf' = take i buf ++ (digit_char <$> ldigits k 10 n) → length buf' = PUTNUM_BUF → Q (buf', Z.of_nat (i + length (ldigits k 10 n))) u) →
  wp (putnum_digits fuel buf (Z.of_nat i) n) u Q.
Proof.
  unfold PUTNUM_BUF. induction k as [|k IH]; intros n fuel buf i u Q Hn Hf Hl Hk HQ; (destruct fuel as [|fuel]; [lia|]); cbn [putnum_digits]; unfold PUTNUM_BUF.
  { change (10 ^ Z.of_nat 0) with 1 in Hn. replace (0 <? n) with false by lia. cbn [andb ldigits] in *. specialize (HQ buf). cbn in HQ. rewrite Nat.add_0_r, app_nil_r in HQ. by apply wp_ret, HQ. }
  cbn [ldigits] in HQ. destruct (0 <? n) eqn:En; cbn [andb].
  2: { specialize (HQ buf). cbn in HQ. rewrite Nat.add_0_r, app_nil_r in HQ. by apply wp_ret, HQ. }
  rewrite (proj2 (Z.ltb_lt (Z.of_nat i) (Z.of_nat 21))) by lia. cbn [andb]. pose proof (Z.mod_pos_bound n 10 ltac:(lia)) as Hm.
  assert (char_of (48 + n mod 10) = digit_char (n mod 10)) as -> by (rewrite <-(proj2 (proj2 (digit_char_ok (n mod 10) ltac:(lia)))); unfold digit_char; by rewrite (proj2 (Z.ltb_lt (n mod 10) 10)) by lia).
  wp_step. unfold store_local. rewrite bool_decide_true by lia. apply wp_ret. rewrite Nat2Z.id. rewrite i32_small by lia. replace (Z.of_nat i + 1) with (Z.of_nat (Datatypes.S i)) by lia. apply IH.
  - split; [apply Z.div_pos; lia|]. apply Z.div_lt_upper_bound; [lia|]. rewrite Nat2Z.inj_succ, Z.pow_succ_r in Hn by lia. lia.
  - lia.
  - by rewrite length_insert.
  - lia.
  - intros buf' H1 H2. cbn [length] in HQ. rewrite <-Nat.add_succ_comm in HQ. apply HQ; [|done]. rewrite H1. cbn [fmap list_fmap].
    rewrite (take_S_r (<[i:=_]> buf) i (digit_char (n mod 10))) by (apply list_lookup_insert_eq; lia). rewrite take_insert_ge by lia. by rewrite <-app_assoc.
Qed.

Lemma putnum_emit_puts i buf u : (i ≤ length buf)%nat → putnum_emit i buf u = puts (reverse (take i buf)) u.
Proof.
  revert u. induction i as [|i IH]; intros u Hi; [done|]. destruct (lookup_lt_is_Some_2 buf i) as [ch Hch]; [lia|]. rewrite (take_S_r buf i ch Hch), reverse_snoc.
  cbn [putnum_emit puts for_each]. rewrite Hch. unfold bind. change (default 0 (Some ch)) with ch. destruct (putc ch u) as [[a u1]| |]; [|done..]. apply IH. lia.
Qed.

(** For every 64-bit number [putnum] makes exactly the calls of [puts] of one string: the number's
    decimal numeral, with no leading zero and of at most twenty characters, one less than its buffer
    holds. *)
Theorem putnum_correct buf n : length buf = PUTNUM_BUF → 0 ≤ n < 2 ^ 64 →
  ∃ str, (∀ u, putnum buf n u = puts str u) ∧ value 10 str = n ∧ Forall (λ ch, 0 ≤ digit_val ch < 10) str ∧ (n ≠ 0 → hd_error str ≠ Some 48) ∧ (1 ≤ length str ≤ 20)%nat.
Proof.
  intros Hl Hn. exists (numeral 10 n). split; [|by apply numeral_correct]. intros u. unfold putnum, numeral. destruct (n =? 0) eqn:E; bool_prop.
  { unfold puts. cbn. unfold bind. by destruct (putc 48 u) as [[[] u1]| |]. }
  assert (wp (putnum_digits 22 buf 0 n) u (λ r u', u' = u ∧ reverse (take (Z.to_nat r.2) r.1) = reverse (digit_char <$> ldigits 20 10 n) ∧ (Z.to_nat r.2 ≤ length r.1)%nat)) as Hd.
  { apply (putnum_digits_spec 20 n 22 buf 0); [by apply base_room|lia|done|unfold PUTNUM_BUF; lia|]. intros buf' H1 H2. cbn [Datatypes.fst Datatypes.snd]. rewrite Nat2Z.id.
    split; [done|]. split; [by rewrite H1|]. rewrite H2. pose proof (ldigits_length 20 10 n). unfold PUTNUM_BUF. lia. }
  apply wp_iff in Hd as ([b i] & u' & Er & -> & Hs & Hi). unfold bind. rewrite Er. cbn [Datatypes.fst Datatypes.snd] in *. by rewrite putnum_emit_puts, Hs.
Qed.
End userlib.

(** The library's numbers lead to the handlers of its functions. *)
Lemma library_numbers :
  (λ n, mjoin (boot_table !! Z.to_nat n)) <$> [SYS_YIELD; SYS_EXIT; SYS_GETC; SYS_PUTC; SYS_WAIT; SYS_EXEC; SYS_FORK; SYS_CLONE; SYS_GETPID; SYS_GETTID; SYS_THREAD_EXIT; SYS_THREAD_JOIN;
    SYS_MUTEX_CREATE; SYS_MUTEX_LOCK; SYS_MUTEX_UNLOCK; SYS_MUTEX_DESTROY] =
  Some <$> [H_yield; H_exit; H_getc; H_putc; H_wait; H_exec; H_fork; H_clone; H_getpid; H_gettid; H_thread_exit; H_thread_join; H_mutex_create; H_mutex_lock; H_mutex_unlock; H_mutex_destroy].
Proof. reflexivity. Qed.

(** A world that records the calls. *)
Definition log_sys (num : Z) (args : list Z) : M (list (Z * list Z)) Z := λ l, Ret (0, l ++ [(num, args)]).

Lemma putnum_witness : ∃ str, putnum log_sys (replicate 21 0) (2 ^ 64 - 1) (Ust ∅ []) = puts log_sys str (Ust ∅ []) ∧ value 10 str = 2 ^ 64 - 1 ∧ (length str ≤ 20)%nat.
Proof.
  destruct (putnum_correct log_sys (replicate 21 0) (2 ^ 64 - 1)) as (str & H1 & H2 & _ & _ & H3); [reflexivity|lia|]. exists str. split; [exact (H1 (Ust ∅ []))|]. split; [exact H2|]. apply H3.
Defined.
