(* ===== verification/Keyboard.v ===== *)
(** * The keyboard ([src/x86_64/drivers/ps2_kbd.c])

    Setting up the controller, the interrupt handler that puts characters into the
    bounded buffer of [Bbuf] and wakes a waiting thread, and the read that consumes or
    blocks.  The controller is hardware, behind [Ps2Dev].  The read is atomic up to its
    block, and starts over when the thread is scheduled again. *)

From S2P Require Import Prelude Bbuf Links Kernel RoundRobin TaskQueue TaskQueueProofs Multitask KernelExample SchedTheorems Interrupts InterruptTheorems.

Class Ps2Dev (D : Type) := {
  ps2_out : Z → Z → D → D;
  ps2_in : Z → D → Z * D
}.

Definition PS2_DATA : Z := 0x60.
Definition PS2_STATUS : Z := 0x64.
Definition PS2_CMD : Z := 0x64.
Definition PS2_STAT_OBF : Z := 0x01.
Definition PS2_STAT_IBF : Z := 0x02.
Definition KBD_ACK : Z := 0xFA.
Definition KBD_BUFFER_SIZE : Z := 16.
Definition KBD_ISR_NUM : Z := 33.

(** The characters of scancode set 1; the cells the source leaves out are zero. *)
Definition kbd_map : list Z :=
  [0; 27; 49; 50; 51; 52; 53; 54; 55; 56; 57; 48; 45; 61; 8;
   9; 113; 119; 101; 114; 116; 121; 117; 105; 111; 112; 91; 93; 10; 0;
   97; 115; 100; 102; 103; 104; 106; 107; 108; 59; 39; 96; 0;
   92; 122; 120; 99; 118; 98; 110; 109; 44; 46; 47; 0; 0; 0;
   32].

(** The kernel, [kbd_st], the interrupt tables and the controller. *)
Record kbd (E P D : Type) := Kbd { kk : kst E; kbd_st : bbuf_st; ktab : intr P; kdev : D }.
Arguments Kbd {E P D}.
Arguments kk {E P D}.
Arguments kbd_st {E P D}.
Arguments ktab {E P D}.
Arguments kdev {E P D}.

(** What a call of [keyboard_getchar] comes to until the thread gives the processor up. *)
Inductive getres := GChar (c : Z) | GBlocked.

Section keyboard.
Context {E P D : Type} {KE : KernelEnv E} {TL : TaskLayout} {PD : PicDev P} {IL : IdtLayout} {DD : Ps2Dev D}.
Implicit Types (s : kbd E P D).
#[local] Abbreviation MB := (M (kbd E P D)).

(** The address of [kbd_wait_queue]. *)
Variable kbd_wait_queue : Z.

Definition on_k {A} (c : M (kst E) A) : MB A := λ s,
  match c (kk s) with Ret (a, k) => Ret (a, Kbd k (kbd_st s) (ktab s) (kdev s)) | Halt => Halt | NoFuel => NoFuel end.

(** The buffer's functions see the one interrupt flag. *)
Definition on_kbuf {A} (c : M bbm A) : MB A := λ s,
  match c (Bbm (kbd_st s) (ke_ints (env (kk s)))) with
  | Ret (a, b) => Ret (a, Kbd (set_env (ke_set_ints (bb_ints b) (env (kk s))) (kk s)) (bb b) (ktab s) (kdev s))
  | Halt => Halt
  | NoFuel => NoFuel
  end.

Definition on_tab (c : M (intr P) unit) : MB unit := λ s,
  match c (set_int_on (ke_ints (env (kk s))) (ktab s)) with
  | Ret (_, i) => Ret (tt, Kbd (set_env (ke_set_ints (int_on i) (env (kk s))) (kk s)) (kbd_st s) i (kdev s))
  | Halt => Halt
  | NoFuel => NoFuel
  end.

Definition koutb (port v : Z) : MB unit := modify (λ s, Kbd (kk s) (kbd_st s) (ktab s) (ps2_out port v (kdev s))).
Definition kinb (port : Z) : MB Z := λ s, let r := ps2_in port (kdev s) in Ret (r.1, Kbd (kk s) (kbd_st s) (ktab s) r.2).

(** ** The controller *)

Fixpoint poll_read (fuel : nat) : MB Z :=
  match fuel with
  | O => no_fuel
  | S fuel => v <- kinb PS2_STATUS ;; if Z.land v PS2_STAT_OBF =? 0 then poll_read fuel else kinb PS2_DATA
  end.

Fixpoint poll_write (fuel : nat) (port data : Z) : MB unit :=
  match fuel with
  | O => no_fuel
  | S fuel => v <- kinb PS2_STATUS ;; if negb (Z.land v PS2_STAT_IBF =? 0) then poll_write fuel port data else koutb port data
  end.

(** The configuration byte that is written back. *)
Definition ps2_cfg (cfg : Z) : Z :=
  let cfg := u8 (Z.lor cfg 1) in
  let cfg := u8 (Z.lor cfg (Z.shiftl 1 4)) in
  let cfg := u8 (Z.land cfg (Z.lnot (Z.shiftl 1 1))) in
  let cfg := u8 (Z.land cfg (Z.lnot (Z.shiftl 1 5))) in
  u8 (Z.lor cfg (Z.shiftl 1 6)).

Definition ps2_init (fuel : nat) : MB unit :=
  poll_write fuel PS2_CMD 0xAD ;;
  poll_write fuel PS2_CMD 0xA7 ;;
  poll_write fuel PS2_CMD 0x20 ;;
  cfg <- poll_read fuel ;;
  poll_write fuel PS2_CMD 0x60 ;;
  poll_write fuel PS2_DATA (ps2_cfg cfg) ;;
  poll_write fuel PS2_CMD 0xAE.

(** [while (inb(PS2_STATUS) & PS2_STAT_OBF) inb(PS2_DATA);] *)
Fixpoint kbd_flush (fuel : nat) : MB unit :=
  match fuel with
  | O => no_fuel
  | S fuel => v <- kinb PS2_STATUS ;; if negb (Z.land v PS2_STAT_OBF =? 0) then kinb PS2_DATA ;; kbd_flush fuel else ret tt
  end.

Definition keyboard_init (fuel : nat) (kbd_buf : list Z) : MB unit :=
  poll_write fuel PS2_DATA 0xFF ;;
  res <- poll_read fuel ;;
  if negb (res =? KBD_ACK) then ret tt else
  res <- poll_read fuel ;;
  if negb (res =? 0xAA) then ret tt else
  kbd_flush fuel ;;
  poll_write fuel PS2_DATA 0xF0 ;;
  poll_write fuel PS2_DATA 0x02 ;;
  res <- poll_read fuel ;;
  if negb (res =? KBD_ACK) then ret tt else
  poll_write fuel PS2_DATA 0xF4 ;;
  poll_read fuel ;;
  on_kbuf (bbuf_init kbd_buf KBD_BUFFER_SIZE) ;;
  on_k (PROC_init_queue (QDriver kbd_wait_queue)) ;;
  on_tab (register_interrupt KBD_ISR_NUM 0 TYPE_INTRGATE 0 ISR33_keyboard_irq 0).

(** ** Characters *)

(** One turn of [wait_event_interruptable], [sp] being the stack pointer that is saved. *)
Definition keyboard_getchar (sp : Z) : MB getres :=
  on_k CLI ;;
  r <- on_kbuf (bbuf_try_consume false) ;;
  if r.1 =? 0 then on_k STI ;; ret (GChar (default 0 r.2))
  else on_k (PROC_block_on (Some (QDriver kbd_wait_queue)) true sp) ;; ret GBlocked.

Definition ISR33_irq : MB unit :=
  sc <- kinb PS2_DATA ;;
  if (sc =? 0xF0) || (sc =? 0xE0) then ret tt
  else if sc <? 0x3A then
    on_kbuf (bbuf_try_add (default 0 (kbd_map !! Z.to_nat sc))) ;;
    on_k (PROC_unblock_head (Some (QDriver kbd_wait_queue)))
  else ret tt.

(** ** [kernel_init] of [src/kernel/main.c]

    The first thread, up to its [kexit]; [ata_test_thread] is the address of that function. *)
Definition kernel_init (fuel : nat) (kbd_buf : list Z) (ata_test_thread : Z) : MB unit :=
  ps2_init fuel ;;
  keyboard_init fuel kbd_buf ;;
  on_k (PROC_create_kthread ata_test_thread 0).
End keyboard.

(** ** What the keyboard promises *)

Section theorems.
Context {E P D : Type} {KE : KernelEnv E} {KL : KernelEnvLaws E} {TL : TaskLayout} {PD : PicDev P} {IL : IdtLayout} {DD : Ps2Dev D}.
Implicit Types (s : kbd E P D) (R : rrq) (Q : qref → list Z).
Variable wq : Z.

Lemma on_k_spec {A} (c : M (kst E) A) s (Post : A → kbd E P D → Prop) :
  wp c (kk s) (λ a k, Post a (Kbd k (kbd_st s) (ktab s) (kdev s))) → wp (on_k c) s Post.
Proof. unfold wp, on_k. by destruct (c (kk s)) as [[a k]| |]. Qed.

(** A call on the buffer is the call on the queue it stands for; the flag is as before. *)
Lemma on_kbuf_call o s (Post : Z * option Z → kbd E P D → Prop) : bb_inv (kbd_st s) →
  (∀ r b, bb_inv b → size b = size (kbd_st s) → queue_call (size (kbd_st s) - 1) o (bb_queue (kbd_st s)) = (r, bb_queue b) → Post r (Kbd (kk s) b (ktab s) (kdev s))) →
  wp (on_kbuf (bb_call o)) s Post.
Proof.
  intros Hb HP. pose proof (bb_call_spec o (Bbm (kbd_st s) (ke_ints (env (kk s)))) Hb) as (r & [b i] & Er & B1 & B2 & B3 & B4)%wp_iff.
  unfold wp, on_kbuf. rewrite Er. cbn in *. subst i. rewrite ke_set_ints_same. replace (set_env (env (kk s)) (kk s)) with (kk s) by (by destruct (kk s)). by apply HP.
Qed.

Lemma on_kbuf_add c s (Post : Z → kbd E P D → Prop) : bb_inv (kbd_st s) →
  (∀ r b, bb_inv b → size b = size (kbd_st s) → queue_call (size (kbd_st s) - 1) (Add c) (bb_queue (kbd_st s)) = ((r, None), bb_queue b) → Post r (Kbd (kk s) b (ktab s) (kdev s))) →
  wp (on_kbuf (bbuf_try_add c)) s Post.
Proof.
  intros Hb HP. pose proof (on_kbuf_call (Add c) s (λ r s', r.2 = None ∧ Post r.1 s') Hb) as H.
  unfold wp, on_kbuf in *. cbn [bb_call] in H. unfold bind, ret in H.
  destruct (bbuf_try_add c _) as [[r b]| |]; apply H; intros [r' o] b' H1 H2 H3; cbn in *; (assert (o = None) as -> by (case_decide; by injection H3)); (split; [done|]); by apply HP.
Qed.

(** The character of a scancode that has one. *)
Definition key_char (sc : Z) : option Z := if decide (sc < 0x3A) then kbd_map !! Z.to_nat sc else None.

(** A key: the character enters the buffer unless it is full, and the first live waiting
    thread, if any, becomes runnable. *)
Definition key_effect s R Q (c : Z) s' : Prop :=
  (∃ r, queue_call (size (kbd_st s) - 1) (Add c) (bb_queue (kbd_st s)) = ((r, None), bb_queue (kbd_st s'))) ∧ task_frame (kk s) (kk s') ∧
  ∃ r, first_awake (kk s) (Q (QDriver wq)) r ∧
    match r with
    | None => tasks (kk s') R (<[QDriver wq := []]> Q)
    | Some (x, l) => tasks (kk s') (q_admit x R) (<[QDriver wq := l]> Q) ∧ run_state <$> thread_at (kk s') !! x = Some PROC_READY
    end.

Lemma ISR33_spec s R Q :
  tasks (kk s) R Q → is_Some (queue_val (kk s) (QDriver wq)) → bb_inv (kbd_st s) → let sc := (ps2_in PS2_DATA (kdev s)).1 in 0 ≤ sc < 256 →
  wp (ISR33_irq wq) s (λ _ s', bb_inv (kbd_st s') ∧ size (kbd_st s') = size (kbd_st s) ∧
    match key_char sc with None => kk s' = kk s ∧ kbd_st s' = kbd_st s | Some c => key_effect s R Q c s' end).
Proof.
  intros Ht Hq Hb sc Hsc. unfold ISR33_irq. wp_step. unfold kinb, wp at 1. fold sc. unfold key_char.
  destruct ((sc =? 0xF0) || (sc =? 0xE0)) eqn:Esc; bool_prop.
  { apply wp_ret. rewrite decide_False by lia. done. }
  destruct (sc <? 0x3A) eqn:Elt; bool_prop; [|apply wp_ret; rewrite decide_False by lia; done]. rewrite decide_True by lia.
  destruct (lookup_lt_is_Some_2 kbd_map (Z.to_nat sc)) as [c Hc]; [cbn; lia|]. rewrite Hc. cbn [default]. change (id c) with c.
  wp_step. apply on_kbuf_add; [done|]. cbn [kbd_st kk ktab kdev]. intros r b B1 B2 B3. apply on_k_spec. unfold PROC_unblock_head. wp_step.
  eapply wp_mono; [by apply PROC_unblock_one_spec|]. cbv beta. intros p k' (Hf & r' & Hfa & Hr). apply wp_ret. cbn [kbd_st kk]. split; [done|]. split; [done|].
  split; [by exists r|]. split; [done|]. exists r'. split; [done|]. destruct r' as [[x l]|]; [|by destruct Hr as (_ & ? & _)]. destruct Hr as (_ & _ & H1 & H2). split; [done|].
  specialize (H2 x). by rewrite decide_True in H2.
Qed.

Lemma keyboard_getchar_spec s R Q sp :
  can_block (kk s) R Q → is_Some (queue_val (kk s) (QDriver wq)) → bb_inv (kbd_st s) →
  wp (keyboard_getchar wq sp) s (λ r s', bb_inv (kbd_st s') ∧ size (kbd_st s') = size (kbd_st s) ∧
    match bb_queue (kbd_st s) with
    | c :: q => r = GChar c ∧ bb_queue (kbd_st s') = q ∧ kk s' = set_env (ke_set_ints true (env (kk s))) (kk s)
    | [] => r = GBlocked ∧ bb_queue (kbd_st s') = [] ∧ blocked (set_env (ke_set_ints false (env (kk s))) (kk s)) R Q (QDriver wq) sp (kk s')
    end).
Proof.
  intros Hcb Hq Hb. unfold keyboard_getchar. wp_step. apply on_k_spec, wp_modify. wp_step. apply (on_kbuf_call Consume); [done|].
  cbn [kbd_st kk ktab kdev]. intros r b B1 B2 B3. cbn [queue_call] in B3. destruct (bb_queue (kbd_st s)) as [|c q]; injection B3 as <- B3; cbn [Datatypes.fst Datatypes.snd Z.eqb default].
  - wp_step. apply on_k_spec. cbn [kk kbd_st]. eapply wp_mono; [apply (PROC_block_on_spec _ R Q (QDriver wq) true sp); [destruct Hcb; split; try done; by apply tasks_env|done]|].
    cbv beta. intros _ k Hk. apply wp_ret. done.
  - wp_step. apply on_k_spec, wp_modify. apply wp_ret. cbn. by rewrite ke_set_ints_set.
Qed.

(** C33: a read of the keyboard answers the oldest character of the buffer and leaves the kernel as it is, with
    interrupts enabled; on an empty buffer - and only then, with interrupts off since it looked - it puts the caller to the
    end of the keyboard's queue and the processor goes to a thread that can run.  An interrupt with a scancode that
    has a character adds it behind the others, drops it when fifteen wait, and makes the first live waiting
    thread runnable; releases, prefixes and other keys change nothing. *)
Theorem keyboard_correct s R Q sp :
  can_block (kk s) R Q → is_Some (queue_val (kk s) (QDriver wq)) → bb_inv (kbd_st s) → size (kbd_st s) = KBD_BUFFER_SIZE → 0 ≤ (ps2_in PS2_DATA (kdev s)).1 < 256 →
  (∃ r s', keyboard_getchar wq sp s = Ret (r, s') ∧ bb_inv (kbd_st s') ∧
    match bb_queue (kbd_st s) with
    | c :: q => r = GChar c ∧ bb_queue (kbd_st s') = q ∧ kk s' = set_env (ke_set_ints true (env (kk s))) (kk s)
    | [] => r = GBlocked ∧ bb_queue (kbd_st s') = [] ∧ blocked (set_env (ke_set_ints false (env (kk s))) (kk s)) R Q (QDriver wq) sp (kk s')
    end) ∧
  (∃ s', ISR33_irq wq s = Ret (tt, s') ∧ bb_inv (kbd_st s') ∧
    match key_char (ps2_in PS2_DATA (kdev s)).1 with
    | None => kk s' = kk s ∧ kbd_st s' = kbd_st s
    | Some c => bb_queue (kbd_st s') = bb_queue (kbd_st s) ++ (if decide (Z.of_nat (length (bb_queue (kbd_st s))) < 15) then [c] else []) ∧
        ∃ r, first_awake (kk s) (Q (QDriver wq)) r ∧
          match r with
          | None => tasks (kk s') R (<[QDriver wq := []]> Q)
          | Some (x, l) => tasks (kk s') (q_admit x R) (<[QDriver wq := l]> Q) ∧ run_state <$> thread_at (kk s') !! x = Some PROC_READY
          end
    end).
Proof.
  intros Hcb Hq Hb Hs Hsc. split.
  - pose proof (keyboard_getchar_spec s R Q sp Hcb Hq Hb) as (r & s' & E1 & H1 & _ & H2)%wp_iff. eauto.
  - pose proof (ISR33_spec s R Q (cb_tasks _ _ _ Hcb) Hq Hb Hsc) as ([] & s' & E1 & H1 & _ & H2)%wp_iff. exists s'. split; [done|]. split; [done|].
    destruct (key_char _) as [c|]; [|done]. destruct H2 as ((r & Hr) & _ & Hw). split; [|done]. rewrite Hs in Hr. cbn [queue_call] in Hr. change (KBD_BUFFER_SIZE - 1) with 15 in Hr.
    case_decide; [by injection Hr|]. injection Hr as _ <-. by rewrite app_nil_r.
Qed.
End theorems.

(** ** A controller with a keyboard *)

(** The bytes to be read, and the last configuration byte; [arg] after command 0x60. *)
Record i8042 := I8042 { replies : list Z; config : Z; arg : bool }.

#[export] Instance i8042_dev : Ps2Dev i8042 := {
  ps2_out port v d :=
    if port =? PS2_CMD then (if v =? 0x20 then I8042 (replies d ++ [config d]) (config d) false else if v =? 0x60 then I8042 (replies d) (config d) true else d)
    else if arg d then I8042 (replies d) v false
    else if v =? 0xFF then I8042 (replies d ++ [0xFA; 0xAA]) (config d) false
    else if (v =? 0x02) || (v =? 0xF4) then I8042 (replies d ++ [0xFA]) (config d) false else d;
  ps2_in port d :=
    if port =? PS2_STATUS then (if bool_decide (replies d = []) then 0 else 1, d)
    else match replies d with [] => (0, d) | b :: bs => (b, I8042 bs (config d) (arg d)) end
}.

(** The configuration: interrupts of port 1, none of port 2, translation to set 1, and the bits 4 and 5
    that stop the clocks of the ports when they are set. *)
Lemma ps2_cfg_bits cfg : 0 ≤ cfg < 256 →
  Z.testbit (ps2_cfg cfg) 0 = true ∧ Z.testbit (ps2_cfg cfg) 1 = false ∧ Z.testbit (ps2_cfg cfg) 6 = true ∧ Z.testbit (ps2_cfg cfg) 4 = true ∧ Z.testbit (ps2_cfg cfg) 5 = false ∧ Z.testbit (ps2_cfg cfg) 2 = Z.testbit cfg 2.
Proof.
  intros Hc. assert (∀ x n, 0 ≤ n < 8 → Z.testbit (u8 x) n = Z.testbit x n) as H8 by (intros x n Hn; unfold u8; by rewrite Z.mod_pow2_bits_low by lia).
  unfold ps2_cfg. cbv zeta. repeat (rewrite ?H8, ?Z.lor_spec, ?Z.land_spec, ?Z.lnot_spec, ?Z.shiftl_1_l, ?Z.pow2_bits_eqb by lia). cbn [Z.eqb Pos.eqb negb].
  rewrite ?orb_true_r, ?andb_true_r, ?andb_false_r, ?orb_false_r. repeat (rewrite ?H8, ?Z.lor_spec, ?Z.land_spec, ?Z.lnot_spec, ?Z.shiftl_1_l, ?Z.pow2_bits_eqb by lia). cbn [Z.eqb Pos.eqb negb].
  by rewrite ?orb_true_r, ?andb_true_r, ?andb_false_r, ?orb_false_r.
Qed.

Section init.
Context {E P : Type} {KE : KernelEnv E} {KL : KernelEnvLaws E} {TL : TaskLayout} {PD : PicDev P} {PL : PicLaws P} {IL : IdtLayout}.

Lemma poll_write_spec fuel port v (k : kst E) b (t : intr P) d (Q : unit → kbd E P i8042 → Prop) :
  Q tt (Kbd k b t (ps2_out port v d)) → wp (poll_write (S fuel) port v) (Kbd k b t d) Q.
Proof.
  intros HQ. cbn [poll_write]. wp_step. unfold kinb, wp at 1. cbn [kdev ps2_in i8042_dev]. change (PS2_STATUS =? PS2_STATUS) with true. cbn [Datatypes.fst Datatypes.snd].
  by case_bool_decide.
Qed.

Lemma poll_read_spec fuel (k : kst E) b (t : intr P) x xs cf ar (Q : Z → kbd E P i8042 → Prop) :
  Q x (Kbd k b t (I8042 xs cf ar)) → wp (poll_read (S fuel)) (Kbd k b t (I8042 (x :: xs) cf ar)) Q.
Proof. intros HQ. cbn [poll_read]. wp_step. exact HQ. Qed.

(** On such a controller [keyboard_init] comes to its end: the buffer and the queue are
    empty, and vector 33 has the handler, its line unmasked. *)
Theorem keyboard_init_correct wq kbd_buf (s : kbd E P i8042) :
  replies (kdev s) = [] → arg (kdev s) = false → length kbd_buf = Z.to_nat KBD_BUFFER_SIZE →
  tables_wf (ktab s) → pic_ready (pic (ktab s)) → handler_at (ktab s) 33 = None →
  wp (keyboard_init wq 1 kbd_buf) s (λ _ s', bb_inv (kbd_st s') ∧ bb_queue (kbd_st s') = [] ∧ queue_at (kk s') !! wq = Some (Queue 0 0) ∧
    handler_at (ktab s') 33 = Some ISR33_keyboard_irq ∧ masked (pic (ktab s')) 1 = false ∧ ke_ints (env (kk s')) = true).
Proof.
  intros Hr Ha Hl Hwf Hp Hf. destruct s as [k b t [rs cf ar]]. cbn in Hr, Ha, Hwf, Hp, Hf. subst rs ar.
  destruct (bb_init_inv kbd_buf KBD_BUFFER_SIZE) as [Hinv Hq]; [unfold KBD_BUFFER_SIZE; lia|by rewrite Hl|].
  unfold keyboard_init. wp_step. apply poll_write_spec. wp_step. apply poll_read_spec. change (negb (0xFA =? KBD_ACK)) with false. cbv iota.
  wp_step. apply poll_read_spec. change (negb (0xAA =? 0xAA)) with false. cbv iota. wp_step. apply wp_ret.
  wp_step. apply poll_write_spec. wp_step. apply poll_write_spec. wp_step. apply poll_read_spec. change (negb (0xFA =? KBD_ACK)) with false. cbv iota.
  wp_step. apply poll_write_spec. wp_step. apply poll_read_spec.
  wp_step. unfold wp at 1, on_kbuf, bbuf_init. change (KBD_BUFFER_SIZE <? 2) with false. cbn [modify set_bb bb_ints kk ktab kbd_st kdev bb]. wp_step. apply on_k_spec, wp_modify. cbn [kk kbd_st ktab kdev].
  set (k1 := set_queue_at _ _). set (i0 := set_int_on (ke_ints (env k1)) t).
  assert (wp (register_interrupt KBD_ISR_NUM 0 TYPE_INTRGATE 0 ISR33_keyboard_irq 0) i0 (λ _ i, registered i0 33 0 TYPE_INTRGATE 0 ISR33_keyboard_irq 0 i)) as Hreg.
  { eapply wp_mono; [apply register_interrupt_spec; [by destruct Hwf|done|unfold TYPE_INTRGATE; lia..]|]. cbv beta. intros _ i. by rewrite decide_True. }
  unfold wp in *. unfold on_tab. cbn [kk ktab]. fold i0. destruct (register_interrupt _ _ _ _ _ _ i0) as [[[] i]| |]; [|done..]. cbn [kk ktab kbd_st].
  destruct Hreg as [G1 G2 G3 G4 G5 G6 G7 G8 G9]. split; [done|]. split; [done|]. split; [cbn; by rewrite lookup_insert_eq|].
  split; [by rewrite (handler_insert i0 i 33 33 _ _ ltac:(lia) ltac:(lia) (tw_isr _ Hwf) G4)|]. split; [by rewrite (G6 1)|]. cbn. rewrite ke_ints_set. done.
Qed.
End init.

(** An idle keyboard at which a thread waits, and a key. *)
Definition toy_kbd : kbd toy (chip * chip) i8042 := Kbd toy_kernel (BBuf (replicate 16 0) 16 0 0) gates_intr (I8042 [0x1E] 0 false).

Lemma keyboard_witness :
  (∃ s', keyboard_getchar 0x6000 0x777 toy_kbd = Ret (GBlocked, s')) ∧ ∃ s', ISR33_irq 0x6000 toy_kbd = Ret (tt, s') ∧ bb_queue (kbd_st s') = [97].
Proof.
  destruct (keyboard_correct 0x6000 toy_kbd toy_ring (λ _, []) 0x777 toy_can_block) as [(r & s1 & E1 & _ & H1) (s2 & E2 & _ & H2)].
  - eexists. reflexivity.
  - split; cbn; lia.
  - reflexivity.
  - cbn. lia.
  - split; [destruct H1 as [H1 _]; subst r; exists s1; exact E1|]. exists s2. split; [exact E2|]. destruct H2 as [H2 _]. exact H2.
Defined.
