(* ===== verification/Mount.v ===== *)
(** * Mounting the disk ([ata_test_thread] of [src/kernel/main.c])

    The partition table is read, the file system registered, the first partition of the
    type found, and its superblock and root directory are read; then the directory tree is
    printed by a recursive walk through the callback of [readdir], whose text is collected.
    Theorems: on a disk with an ext2 volume the root of that volume is what the
    following calls work on, and on a tree of finite depth the walk ends with its lines in order and gives back all
    it has allocated. *)

From stdpp Require Import strings.
From S2P Require Import Prelude Links Bytes Vfs Ext2 Ext2Proofs Ext2File Ext2Inode Ext2Dir Ext2Lookup FsExample MbrTheorems Elf64.

Section mount.
Context {E : Type} {FE : FsEnv E}.
Implicit Types (s : fss E).
#[local] Abbreviation MF := (M (fss E)).

(** The part of [ata_test_thread] between the test of the disk and the listing; 0 where
    the code leaves with [kexit]. *)
Definition mount (hdd : Z) : MF Z :=
  MBR_init hdd ;;
  ext2_init ;;
  part_dev <- blk_find_partiton_fstype EXT2_TYPE ;;
  if part_dev =? 0 then ret 0 else
  fs_probe call_probe part_dev.
End mount.

(** ** The first partition of a type *)

Section find.
Context {E : Type} {FE : FsEnv E} {FL : FsEnvLaws E}.
Implicit Types (s : fss E) (L : list Z).

Definition is_part s (fstype a : Z) : bool :=
  match dev_at s !! a with Some d => bool_decide (dev_type d = PARTITION) && (Vfs.fs_type d =? fstype) | None => false end.

Lemma find_partition_spec s fstype L : ∀ fuel curr, lseg (next_dev s) curr L 0 → (length L < fuel)%nat →
  find_partition_loop fuel fstype curr s = Ret (default 0 (List.find (is_part s fstype) L), s).
Proof.
  induction L as [|a L IH]; intros [|fuel] curr; cbn [lseg length]; try lia; [by intros -> _|].
  intros (-> & Ha & n & Hn & Hl) Hf. unfold next_dev in Hn. apply fmap_Some in Hn as (d & Ed & ->).
  cbn [find_partition_loop List.find]. rewrite (proj2 (Z.eqb_neq a 0)) by done. unfold is_part at 1. rewrite Ed.
  unfold bind, deref. rewrite Ed. destruct (_ && _); [done|]. apply IH; [done|lia].
Qed.

Lemma devices_short s L : devices s L → (length L ≤ size (dev_at s))%nat.
Proof.
  intros [Hl Hnd _]. rewrite <-(size_list_to_set (C := gset Z) L Hnd), <-size_dom. apply subseteq_size.
  intros a Ha. apply elem_of_list_to_set in Ha. destruct (lseg_nonzero _ _ _ _ a Hl Ha) as [_ Hs]. apply fmap_is_Some in Hs. by apply elem_of_dom.
Qed.

Lemma blk_find_spec s fstype L : devices s L →
  wp (blk_find_partiton_fstype fstype) s (λ r s', r = default 0 (List.find (is_part s fstype) L) ∧ s' = s).
Proof.
  intros Hd. unfold blk_find_partiton_fstype, blk_get_head. wp_step. wp_step. wp_step. wp_step.
  eapply wp_of_eq; [apply (find_partition_spec s fstype L); [apply Hd|pose proof (devices_short s L Hd); lia]|done].
Qed.
End find.

(** ** [ext2_probe] *)

(** A volume that holds an ext2 file system: the superblock [sb] in the sectors 2 and 3, blocks of
    [spb] sectors, and the inode [root] of the root directory. *)
Record ext2_volume (vol : volume) (sb : list Z) (spb ipg isz : Z) (root : list Z) : Prop := {
  ev_sb : ∃ b2 b3, vol 2 = Some b2 ∧ vol 3 = Some b3 ∧ sb = b2 ++ b3;
  ev_magic : sb_magic sb = Some EXT2_SIGNATURE;
  ev_log : ∃ log, sb_log_block_size sb = Some log ∧ 0 ≤ log ≤ 6 ∧ spb = 2 * 2 ^ log;
  ev_ipg : sb_inodes_per_group sb = Some ipg ∧ 0 < ipg;
  ev_isz : inode_size_of sb = Some isz ∧ 128 ≤ isz;
  ev_fit : (isz | spb * SECTOR);
  ev_root : inode_raw vol spb sb (if spb =? 2 then 2 else 1) EXT2_ROOT_INODE = Some root;
  ev_small n b : vblock vol spb n = Some b → 0 ≤ n < 2 ^ 33 → n < 2 ^ 32
}.

(** The driver's data for it. *)
Definition driver_of (dev : Z) (sb : list Z) (spb : Z) : ext2_driver := Ext2Driver dev sb (spb * SECTOR) (if spb =? 2 then 2 else 1).

Lemma block_size_of log : 0 ≤ log ≤ 6 → u32 (Z.shiftl 1024 (log mod 32)) = 2 * 2 ^ log * SECTOR.
Proof. intros H. assert (log = 0 ∨ log = 1 ∨ log = 2 ∨ log = 3 ∨ log = 4 ∨ log = 5 ∨ log = 6) as Hc by lia. by destruct Hc as [->|[->|[->|[->|[->|[->| ->]]]]]]. Qed.

(** Nothing is left of one scratch buffer. *)
Lemma scratch_one (L : gmap Z Z) m n a1 n1 a2 n2 a3 n3 a4 n4 :
  L !! m = None → m ≠ a1 → m ≠ a2 → m ≠ a3 → m ≠ a4 →
  delete m (<[a4 := n4]> (<[a3 := n3]> (<[a2 := n2]> (<[a1 := n1]> (<[m := n]> L))))) = <[a4 := n4]> (<[a3 := n3]> (<[a2 := n2]> (<[a1 := n1]> L))).
Proof. intros. apply map_eq. intros x. rewrite !lookup_delete, !lookup_insert. repeat case_decide; congruence. Qed.

Lemma splice_halves (b2 b3 buf : list Z) : blen b2 = SECTOR → blen b3 = SECTOR → blen buf = SUPERBLOCK_SIZE → splice 512 b3 (splice 0 b2 buf) = b2 ++ b3.
Proof.
  unfold blen, SECTOR, SUPERBLOCK_SIZE, splice. intros H2 H3 Hb. rewrite Z2Nat.inj_0, take_0. change ([] ++ ?l) with l.
  rewrite (take_app_length' b2) by lia. rewrite (drop_ge (b2 ++ _)) by (unfold blen; rewrite length_app, length_drop; lia). by rewrite app_nil_r.
Qed.

Section probe.
Context {E : Type} {FE : FsEnv E} {FL : FsEnvLaws E}.
Implicit Types (s : fss E) (e : E) (L : list Z) (vol : volume).

(** What probing the volume on [dev] adds. *)
Record volume_mounted s (dev : Z) vol (sb : list Z) (spb ipg isz : Z) (raw : list Z) (vsb : Z) s' (root priv drv : Z) : Prop := {
  vm_nonzero : vsb ≠ 0 ∧ root ≠ 0;
  vm_sb : sb_at s' = <[vsb := Superblock "ext2"%string root ext2_read_inode_fn drv]> (sb_at s);
  vm_fs : fs_mounted s' vsb (driver_of dev sb spb) vol spb ipg isz;
  vm_root : mounted s' root (vnode_of EXT2_ROOT_INODE vsb priv raw) raw (driver_of dev sb spb) vol spb;
  vm_nodes : inode_at s' = <[root := vnode_of EXT2_ROOT_INODE vsb priv raw]> (inode_at s) ∧ raw_at s' = <[priv := raw]> (raw_at s) ∧ file_at s' = file_at s;
  vm_live : fe_live (fenv s') = <[priv := isz]> (<[root := INODE_SIZE]> (<[drv := DRIVER_SIZE]> (<[vsb := VFS_SUPERBLOCK_SIZE]> (fe_live (fenv s)))));
  vm_avail : fe_avail (fenv s) - (fe_cost DRIVER_SIZE + fe_cost VFS_SUPERBLOCK_SIZE + node_cost isz) ≤ fe_avail (fenv s');
  vm_devices : same_devices s s' ∧ dev_list_head s' = dev_list_head s
}.

(** The superblock is read into the buffer. *)
Lemma read_superblock_spec {A} (k : Z * list Z → Z * list Z → M (fss E) A) s dev vol b2 b3 (Q : A → fss E → Prop) :
  reads s dev vol → vol 2 = Some b2 → vol 3 = Some b3 → fe_cost SUPERBLOCK_SIZE ≤ fe_avail (fenv s) →
  (∀ m buf e1 e3, allocated (fenv s) m SUPERBLOCK_SIZE e1 → keeps_env e1 e3 → wp (k (m, buf) (0, b2 ++ b3)) (set_fenv e3 s) Q) →
  wp (m <- kmalloc_buf SUPERBLOCK_SIZE ;; r2 <- read_block_into dev 2 0 m.2 ;; r3 <- read_block_into dev 3 512 r2.2 ;; k m r3) s Q.
Proof.
  intros Hr H2 H3 Hav Hk. destruct (reads_sector _ _ _ _ _ Hr H2) as [L2 _], (reads_sector _ _ _ _ _ Hr H3) as [L3 _].
  wp_step. apply kmalloc_buf_spec; [done|done|]. intros m buf e1 Hm Hb. cbn [Datatypes.fst Datatypes.snd].
  assert (reads (set_fenv e1 s) dev vol) as Hr1 by (eapply reads_same; [apply same_devices_env, Hm|done]).
  wp_step. eapply wp_mono; [apply (read_block_into_spec (set_fenv e1 s) dev vol 2 0 buf b2 Hr1 H2); rewrite Hb; done|]. cbv beta. intros r s2 (-> & e2 & -> & K2).
  cbn [Datatypes.snd]. cbn [fenv set_fenv] in K2. change (set_fenv e2 (set_fenv e1 s)) with (set_fenv e2 s).
  wp_step. eapply wp_mono; [apply (read_block_into_spec (set_fenv e2 s) dev vol 3 512 _ b3)|].
  - eapply reads_same; [apply same_devices_env|done]. by rewrite (kv_disk _ _ K2), (al_disk _ _ _ _ Hm).
  - done.
  - unfold splice. rewrite Z2Nat.inj_0, take_0. change ([] ++ ?l) with l. rewrite blen_app. unfold blen, SECTOR, SUPERBLOCK_SIZE in *. rewrite length_drop. lia.
  - cbv beta. intros r s3 (-> & e3 & -> & K3). rewrite (splice_halves b2 b3 buf) by done. apply (Hk m buf e1 e3); [done|].
    etrans; [exact K2|exact K3].
Qed.

(** The structures of the new file system, before the root is known. *)
Lemma driver_mounted s e5 dev vol sb spb ipg isz raw d vsb drv :
  ext2_volume vol sb spb ipg isz raw → reads s dev vol → dev_at s !! dev = Some d → blk_size d = SECTOR → fe_kept e5 = fe_kept (fenv s) → drv_ok (set_fenv e5 s) (driver_of dev sb spb) vol spb ∧
  fs_mounted (set_sb_at (<[vsb := Superblock "ext2"%string 0 ext2_read_inode_fn drv]> (sb_at s)) (set_drv_at (<[drv := driver_of dev sb spb]> (drv_at s)) (set_fenv e5 s))) vsb (driver_of dev sb spb) vol spb ipg isz.
Proof.
  intros [_ _ (log & _ & Hlog & Hspb) Hipg Hisz Hfit _ Hsm] Hr Ed Hd Hk.
  assert (drv_ok (set_fenv e5 s) (driver_of dev sb spb) vol spb) as Hok.
  { split; [by exists d|by eapply reads_same; [apply same_devices_env|]|done|]. rewrite Hspb.
    assert (1 ≤ 2 ^ log ≤ 2 ^ 6) by (split; [|apply Z.pow_le_mono_r; lia]; pose proof (Z.pow_pos_nonneg 2 log); lia). lia. }
  split; [done|]. split; [|by eapply drv_ok_same; [|exact Hok]| |exact Hsm].
  - eexists. cbn. split; apply lookup_insert_eq.
  - split; [done|done|done|]. unfold driver_of. cbn. destruct (spb =? 2); lia.
Qed.

(** After the root has been read the buffer goes. *)
Lemma probe_finish s dev vol sb spb ipg isz raw d m e1 e3 vsb e4 drv e5 root priv e6 s6 :
  ext2_volume vol sb spb ipg isz raw → reads s dev vol → dev_at s !! dev = Some d → blk_size d = SECTOR →
  allocated (fenv s) m SUPERBLOCK_SIZE e1 → keeps_env e1 e3 → allocated e3 vsb VFS_SUPERBLOCK_SIZE e4 → allocated e4 drv DRIVER_SIZE e5 →
  node_added (set_sb_at (<[vsb := Superblock "ext2"%string 0 ext2_read_inode_fn drv]> (sb_at s)) (set_drv_at (<[drv := driver_of dev sb spb]> (drv_at s)) (set_fenv e5 s))) EXT2_ROOT_INODE vsb raw isz root priv e6 s6 →
  wp (modify (λ s, set_sb_at (<[vsb := Superblock "ext2"%string root ext2_read_inode_fn drv]> (sb_at s)) s) ;; fcall (fe_kfree m) ;; ret vsb) s6
    (λ r s', r = vsb ∧ volume_mounted s dev vol sb spb ipg isz raw vsb s' root priv drv).
Proof.
  intros Hev Hr Ed Hd [N1 F1 L1 V1 D1] [KL KV KD] [N2 F2 L2 V2 D2] [N3 F3 L3 V3 D3] [-> (N4 & N5 & N45) [F4 F5] L6 V6 D6].
  cbn [fenv set_sb_at set_drv_at set_fenv] in *. rewrite KL, L1 in F2, L2. rewrite L2 in F3, L3. rewrite L3 in F4, F5, L6.
  pose proof F2 as G2. pose proof F3 as G3. rewrite !lookup_insert_None in G2. rewrite !lookup_insert_None in G3. rewrite !lookup_insert_None in F4. rewrite !lookup_insert_None in F5. destruct G2 as [_ G2], G3 as [[_ G3] _], F4 as [[[_ G4] _] _], F5 as [[[_ G5] _] _].
  wp_step. wp_step. wp_step. cbn [fenv set_sb_at set_drv_at set_fenv set_raw_at set_inode_at].
  destruct (fe_kfree_ok e6 m SUPERBLOCK_SIZE N1) as (e7 & E7 & L7 & V7 & D7); [rewrite L6, !lookup_insert_ne, lookup_insert_eq by congruence; done|].
  eapply wp_fcall; [exact E7|]. apply wp_ret. split; [done|].
  assert (fe_kept e7 = fe_kept (fenv s)) as Hk by congruence.
  destruct (driver_mounted s e7 dev vol sb spb ipg isz raw d vsb drv Hev Hr Ed Hd Hk) as [Hok [Hm1 Hm2 Hm3 Hm4]].
  split; cbn [sb_at inode_at raw_at file_at dev_list_head fenv set_sb_at set_drv_at set_fenv set_raw_at set_inode_at].
  - done.
  - by rewrite insert_insert_eq.
  - split; [|by eapply drv_ok_same; [|exact Hok]|done|done]. eexists. cbn. rewrite lookup_insert_eq. split; [done|]. cbn. by rewrite lookup_insert_eq.
  - split; cbn; [apply lookup_insert_eq|apply lookup_insert_eq| |by eapply drv_ok_same; [|exact Hok]]. eexists. rewrite lookup_insert_eq. split; [done|]. cbn. by rewrite lookup_insert_eq.
  - done.
  - rewrite L7, L6. apply scratch_one; congruence.
  - lia.
  - split; [|done]. split; [done|]. split; [done|]. cbn. by rewrite Hk.
Qed.

Lemma ext2_probe_spec s dev vol sb spb ipg isz raw d :
  ext2_volume vol sb spb ipg isz raw → reads s dev vol → dev_at s !! dev = Some d → blk_size d = SECTOR →
  fe_cost SUPERBLOCK_SIZE + fe_cost DRIVER_SIZE + fe_cost VFS_SUPERBLOCK_SIZE + 2 * fe_cost (spb * SECTOR) + node_cost isz ≤ fe_avail (fenv s) →
  wp (ext2_probe dev) s (λ vsb s', ∃ root priv drv, volume_mounted s dev vol sb spb ipg isz raw vsb s' root priv drv).
Proof.
  intros Hev Hr Ed Hd Hav. pose proof Hev as [(b2 & b3 & H2 & H3 & Esb) Hmag (log & Elog & Hlog & Hspb) Hipg Hisz Hfit Hroot Hsm].
  pose proof (fe_cost_nonneg SUPERBLOCK_SIZE). pose proof (fe_cost_nonneg DRIVER_SIZE). pose proof (fe_cost_nonneg VFS_SUPERBLOCK_SIZE).
  pose proof (fe_cost_nonneg (spb * SECTOR)). pose proof (fe_cost_nonneg INODE_SIZE). pose proof (fe_cost_nonneg isz). unfold node_cost in Hav.
  unfold ext2_probe. apply (read_superblock_spec _ s dev vol b2 b3 _ Hr H2 H3 ltac:(lia)). intros m buf e1 e3 Hm K3. cbn [Datatypes.fst Datatypes.snd]. rewrite <-Esb. cbv zeta beta. wp_step. eapply wp_get_some; [exact Hmag|]. rewrite Z.eqb_refl. cbn [negb].
  pose proof (al_avail _ _ _ _ Hm). pose proof (kv_avail _ _ K3).
  wp_step. apply kmalloc_node_spec; [done|cbn; lia|]. cbn [fenv set_fenv]. intros vsb e4 A4. pose proof (al_avail _ _ _ _ A4).
  wp_step. apply kmalloc_node_spec; [done|cbn; lia|]. cbn [fenv set_fenv]. intros drv e5 A5. pose proof (al_avail _ _ _ _ A5).
  destruct (reads_sector _ _ _ _ _ Hr H2) as [L2 _], (reads_sector _ _ _ _ _ Hr H3) as [L3 _].
  wp_step. eapply (wp_get_some _ sb). { unfold bytes_at. rewrite bool_decide_true by (rewrite Esb, blen_app; unfold SECTOR, SUPERBLOCK_SIZE in *; lia). f_equal. unfold slice. rewrite Z2Nat.inj_0, drop_0, take_ge; [done|]. rewrite Esb, length_app. unfold blen, SECTOR, SUPERBLOCK_SIZE in *. lia. }
  wp_step. eapply wp_get_some; [exact Elog|]. rewrite (block_size_of log Hlog), <-Hspb.
  assert ((spb * SECTOR =? 1024) = (spb =? 2)) as -> by (unfold SECTOR; lia).
  wp_step. wp_step. wp_step. wp_step. cbn [sb_at drv_at set_sb_at set_drv_at set_fenv]. change (Ext2Driver dev sb (spb * SECTOR) _) with (driver_of dev sb spb).
  assert (fe_kept e5 = fe_kept (fenv s)) as Hk5 by (rewrite (al_disk _ _ _ _ A5), (al_disk _ _ _ _ A4), (kv_disk _ _ K3); apply Hm).
  wp_step. eapply wp_mono; [apply (ext2_read_inode_spec _ vsb (driver_of dev sb spb) vol spb ipg isz EXT2_ROOT_INODE raw)|].
  - by apply (driver_mounted s e5 dev vol sb spb ipg isz raw d vsb drv).
  - unfold EXT2_ROOT_INODE. lia.
  - exact Hroot.
  - cbn [drv_block_size driver_of fenv set_sb_at set_drv_at set_fenv]. unfold node_cost. lia.
  - cbv beta. intros root s6 (priv & e6 & Ha). eapply wp_mono; [by eapply (probe_finish s dev vol sb spb ipg isz raw d m e1 e3 vsb e4 drv e5 root priv e6)|].
    cbv beta. intros r s' [-> Hv]. eauto.
Qed.
End probe.

(** ** [mount] *)

(** The list has the new devices in reverse order, so the last match is found first. *)
Lemma find_last {A} (R : Z → A → Prop) (P : A → Prop) `{!∀ i, Decision (P i)} (f : Z → bool) new js L i :
  Forall2 R new js → (∀ a j, R a j → f a = bool_decide (P j)) → last (filter P js) = Some i →
  ∃ a, List.find f (reverse new ++ L) = Some a ∧ a ∈ new ∧ R a i.
Proof.
  intros HR Hf. revert new HR. induction js as [|j js IH] using rev_ind; intros new HR; [done|].
  apply Forall2_app_inv_r in HR as (new' & l & HR & Hl & ->). apply Forall2_cons_inv_r in Hl as (a & l' & Ha & Hl' & ->). apply Forall2_nil_inv_r in Hl' as ->.
  rewrite filter_app, reverse_snoc. cbn [app List.find]. rewrite (Hf a j Ha). destruct (decide (P j)) as [Hj|Hj].
  - rewrite bool_decide_true, filter_cons_True, filter_nil, last_snoc by done. intros [= <-]. exists a. split; [done|]. split; [|done]. apply elem_of_app. right. by left.
  - rewrite bool_decide_false, filter_cons_False, filter_nil, app_nil_r by done. intros Hi. destruct (IH new' HR Hi) as (b & Eb & Hb & Rb). exists b. split; [done|]. split; [|done]. apply elem_of_app. by left.
Qed.

Lemma foldl_insert_keep (L : gmap Z Z) n new a : is_Some (L !! a) → is_Some (foldl (λ m a, <[a := n]> m) L new !! a).
Proof. revert L. induction new as [|x new IH]; intros L Ha; [done|]. cbn. apply IH, lookup_insert_is_Some'. by right. Qed.

Section theorem.
Context {E : Type} {FE : FsEnv E} {FL : FsEnvLaws E}.
Implicit Types (s : fss E) (e : E) (L : list Z) (vol : volume).

Definition files_live s : Prop := ∀ a, is_Some (file_at s !! a) → is_Some (fe_live (fenv s) !! a).

(** The heap a volume's structures take. *)
Definition volume_cost (spb isz : Z) : Z :=
  fe_cost SUPERBLOCK_SIZE + fe_cost DRIVER_SIZE + fe_cost VFS_SUPERBLOCK_SIZE + 2 * fe_cost (spb * SECTOR) + node_cost isz.

(** The nodes that were there, and the new one, are blocks of the heap. *)
Lemma mounted_live s dev d mbr L s1 new dev' vol sb spb ipg isz raw vsb s' root priv drv :
  partitioned s dev d mbr L s1 new → nodes_live s → files_live s →
  volume_mounted (set_driver_cbs [ext2_probe_cb] s1) dev' vol sb spb ipg isz raw vsb s' root priv drv → nodes_live s' ∧ files_live s'.
Proof.
  intros [_ _ PL _ _ _ _ (_ & _ & P3 & P4 & P5 & _)] [N1 N2] Hf [_ _ _ _ (V1 & V2 & V3) VL _ _]. cbn [inode_at raw_at file_at fenv set_driver_cbs] in *.
  rewrite P3 in V1. rewrite P4 in V2. rewrite P5 in V3. rewrite PL in VL.
  split; [split|]; intros a; rewrite VL, !lookup_insert_is_Some'; [rewrite V1|rewrite V2|rewrite V3]; rewrite ?lookup_insert_is_Some'; pose proof (foldl_insert_keep (fe_live (fenv s)) PARTITION_DEV_SIZE new a) as Hk.
  - intros [->|Hi]; [by right; left|]. do 4 right. by apply Hk, N1.
  - intros [->|Hi]; [by left|]. do 4 right. by apply Hk, N2.
  - intros Hi. do 4 right. by apply Hk, Hf.
Qed.

(** On a disk whose partition table has an ext2 partition (the last one, if there are several) that holds an
    ext2 volume, mounting returns a superblock whose root is the inode 2 of the volume: superblock, driver data
    and root directory are in memory and describe the sectors of that partition, as reading directories, files
    and programs requires; every node is a live block of the heap. *)
Theorem mount_correct s hdd d L mbr i lba vol sb spb ipg isz raw :
  devices s L → hdd ≠ 0 → dev_at s !! hdd = Some d → blk_size d = SECTOR → vol_of s hdd 0 = Some mbr → mbr_sig mbr = Some MBR_SIGNATURE →
  driver_cbs s = [] → nodes_live s → files_live s →
  last (filter (λ i, part_type i mbr = Some EXT2_TYPE) (seqZ 0 4)) = Some i → part_lba_start i mbr = Some lba →
  (∀ blk bs, vol blk = Some bs → vol_of s hdd (u64 (blk + lba)) = Some bs) → ext2_volume vol sb spb ipg isz raw →
  fe_cost MBR_SIZE + 4 * fe_cost PARTITION_DEV_SIZE + volume_cost spb isz ≤ fe_avail (fenv s) →
  ∃ vsb s' part root priv drv, mount hdd s = Ret (vsb, s') ∧ vsb ≠ 0 ∧ root ≠ 0 ∧
    sb_at s' !! vsb = Some (Superblock "ext2"%string root ext2_read_inode_fn drv) ∧
    fs_mounted s' vsb (driver_of part sb spb) vol spb ipg isz ∧
    mounted s' root (vnode_of EXT2_ROOT_INODE vsb priv raw) raw (driver_of part sb spb) vol spb ∧
    nodes_live s' ∧ files_live s' ∧ part_at s' !! part = Some (PartitionDev hdd lba) ∧
    fe_avail (fenv s) - (4 * fe_cost PARTITION_DEV_SIZE + fe_cost DRIVER_SIZE + fe_cost VFS_SUPERBLOCK_SIZE + node_cost isz) ≤ fe_avail (fenv s').
Proof.
  intros Hdv H0 Ed Hbs Hmbr Hsig Hcb Hn Hf Hi Hlba Hvol Hev Hav.
  assert (0 ≤ volume_cost spb isz) as Hvc.
  { unfold volume_cost, node_cost. pose proof fe_cost_nonneg as C. pose proof (C SUPERBLOCK_SIZE); pose proof (C DRIVER_SIZE); pose proof (C VFS_SUPERBLOCK_SIZE); pose proof (C (spb * SECTOR)); pose proof (C INODE_SIZE); pose proof (C isz). lia. }
  pose proof (fe_cost_nonneg MBR_SIZE). cut (wp (mount hdd) s (λ vsb s', ∃ s1 new part root priv drv, partitioned s hdd d mbr L s1 new ∧ part_at s1 !! part = Some (PartitionDev hdd lba) ∧
    volume_mounted (set_driver_cbs [ext2_probe_cb] s1) part vol sb spb ipg isz raw vsb s' root priv drv)).
  { intros (vsb & s' & Er & s1 & new & part & root & priv & drv & Hp & Hpt & Hv)%wp_iff. pose proof (mounted_live _ _ _ _ _ _ _ _ _ _ _ _ _ _ _ _ _ _ _ Hp Hn Hf Hv) as [Hl1 Hl2].
    pose proof (pt_avail _ _ _ _ _ _ _ Hp). destruct Hv as [[V1 V1'] V2 V3 V4 _ _ V5 [(_ & V6 & _) _]]. exists vsb, s', part, root, priv, drv.
    repeat (split; [first [done|by rewrite V2, lookup_insert_eq]|]). split; [by rewrite V6|]. cbn in V5. lia. }
  unfold mount. wp_step. eapply wp_mono; [by apply (MBR_init_spec s hdd d L mbr MBR_SIGNATURE); try done; lia|]. cbv beta. intros _ s1. rewrite decide_True by done. intros (new & Hp).
  pose proof (pt_nodes _ _ _ _ _ _ _ Hp) as (_ & _ & _ & _ & _ & Pcb). unfold ext2_init, fs_register. wp_step. wp_step. wp_step. rewrite Pcb, Hcb. cbn [length]. change (MAX_NUM_DRIVERS <=? Z.of_nat 0) with false. cbv iota. wp_step.
  cbn [app]. set (s2 := set_driver_cbs [ext2_probe_cb] s1). wp_step.
  destruct (find_last (is_partition s1 hdd d mbr) (λ i, part_type i mbr = Some EXT2_TYPE) (is_part s2 EXT2_TYPE) new (filter (part_used mbr) (seqZ 0 4)) L i) as (part & Ef & Hin & Hpart).
  { apply Hp. }
  { intros a j (ty & cnt & lb & nx & Ety & _ & _ & Ea & _). unfold is_part. change (dev_at s2) with (dev_at s1). rewrite Ea, Ety. cbn. destruct (ty =? EXT2_TYPE) eqn:Et; bool_prop; [by rewrite Et, bool_decide_true|]. rewrite andb_false_r. symmetry. apply bool_decide_false. congruence. }
  { rewrite list_filter_filter_l; [done|]. unfold part_used. intros j ->. done. }
  assert (devices s2 (reverse new ++ L)) as Hd2 by (destruct (pt_devices _ _ _ _ _ _ _ Hp) as [Q1 Q2 Q3]; by split).
  eapply wp_mono; [by apply (blk_find_spec s2 EXT2_TYPE (reverse new ++ L))|]. cbv beta. intros r s' [-> ->]. rewrite Ef. cbn [default id].
  assert (part ≠ 0) as Hp0.
  { refine (proj1 (lseg_nonzero _ _ _ _ part (dv_list _ _ Hd2) _)). apply elem_of_app. left. by apply elem_of_reverse. }
  rewrite (proj2 (Z.eqb_neq part 0)) by done. unfold fs_probe. wp_step. wp_step. change (driver_cbs s2) with [ext2_probe_cb]. cbn [for_ret call_probe]. wp_step. wp_step. wp_step.
  pose proof Hpart as (ty & cnt & lb & nx & _ & _ & Elb & Ea & Ept). assert (lb = lba) as -> by congruence.
  eapply wp_mono; [eapply (ext2_probe_spec s2 part vol sb spb ipg isz raw); [exact Hev| |exact Ea|done|]|].
  - apply (reads_same s1); [done|]. intros blk bs Hb. exact (pt_reads _ _ _ _ _ _ _ Hp part i lba blk bs Hpart Hin Hlba (Hvol _ _ Hb)).
  - pose proof (pt_avail _ _ _ _ _ _ _ Hp). unfold volume_cost in *. cbn. lia.
  - cbv beta. intros vsb s3 (root & priv & drv & Hv). rewrite (proj2 (Z.eqb_neq vsb 0)) by apply Hv. wp_steps. eauto 15.
Qed.
End theorem.

(** A volume without the signature is refused, and nothing is kept of it. *)
Theorem ext2_probe_reject {E} {FE : FsEnv E} {FL : FsEnvLaws E} (s : fss E) dev vol b2 b3 magic :
  reads s dev vol → vol 2 = Some b2 → vol 3 = Some b3 → sb_magic (b2 ++ b3) = Some magic → magic ≠ EXT2_SIGNATURE → fe_cost SUPERBLOCK_SIZE ≤ fe_avail (fenv s) →
  ∃ e', ext2_probe dev s = Ret (0, set_fenv e' s) ∧ keeps_env (fenv s) e'.
Proof.
  intros Hr H2 H3 Hm Hne Hav. cut (wp (ext2_probe dev) s (λ r s', r = 0 ∧ ∃ e', s' = set_fenv e' s ∧ keeps_env (fenv s) e')).
  { intros (r & s' & Er & -> & e' & -> & He)%wp_iff. eauto. }
  unfold ext2_probe. apply (read_superblock_spec _ s dev vol b2 b3 _ Hr H2 H3 Hav). intros m buf e1 e3 Ha K3. cbn [Datatypes.fst Datatypes.snd].
  wp_step. eapply wp_get_some; [exact Hm|]. rewrite (proj2 (Z.eqb_neq magic EXT2_SIGNATURE)) by done. cbn [negb]. wp_step.
  eapply kfree_buf_spec; [exact Ha|exact K3|]. intros e' K. apply wp_ret. eauto.
Qed.

(** ** The listing: [recursive_print_cb] and [ls_recursive] *)

(** Two spaces for each level. *)
Definition indentation (indent : Z) : list Z := mjoin (replicate (Z.to_nat indent) [32; 32]).

Definition DOT : list Z := [46].
Definition DOTDOT : list Z := [46; 46].

Section ls.
Context {E : Type} {FE : FsEnv E}.
#[local] Abbreviation MF := (M (fss E)).

(** [ls] is the recursive call, [indent] what [p] points to, and [out] the text so far. *)
Definition recursive_print_cb (ls : Z → Z → list Z → MF (list Z)) (indent : Z) (name : list Z) (inode : Z) (out : list Z) : MF (Z * list Z) :=
  let out := out ++ indentation indent ++ [45; 32] ++ c_string name in
  n <- deref inode_at inode ;;
  if negb (Z.land (i_mode n) S_IFDIR =? 0) then
    let out := out ++ [47] ++ [10] in
    if negb (bool_decide (c_string name = DOT)) && negb (bool_decide (c_string name = DOTDOT)) then
      out <- ls inode (i32 (indent + 1)) out ;; ret (0, out)
    else ret (0, out)
  else ret (0, out ++ [10]).

Fixpoint ls_recursive (fuel : nat) (dir indent_level : Z) (out : list Z) : MF (list Z) :=
  match fuel with
  | O => no_fuel
  | S fuel =>
      n <- deref inode_at dir ;;
      match i_readdir n with
      | NULL_readdir => halt
      | ext2_readdir_fn => r <- ext2_readdir (recursive_print_cb (ls_recursive fuel) indent_level) dir out ;; ret r.2
      end
  end.
End ls.

(** ** The tree on the disk *)

Section tree.
Context (drv : ext2_driver) (vol : volume) (spb : Z).

(** An inode whose data are the records of [dirs], one list for each block. *)
Record dir_format (raw : list Z) (dirs : list (list dirent)) : Prop := {
  df_dir : Z.land (le (slice 0 2 raw)) S_IFDIR ≠ 0;
  df_size : le (slice 4 4 raw) = Z.of_nat (length dirs) * drv_block_size drv ∧ le (slice 4 4 raw) + drv_block_size drv < 2 ^ 32;
  df_limit : Z.of_nat (length dirs) ≤ double_limit spb;
  df_blocks k ds : dirs !! k = Some ds → dir_block vol spb raw (Z.of_nat k) ds;
  df_ok : Forall dirent_ok (mjoin dirs)
}.

Definition used (d : dirent) : Prop := de_ino d ≠ 0.
#[export] Instance used_dec d : Decision (used d).
Proof. unfold used. apply _. Defined.

(** The lines of an entry: its own, and for a directory below the lines of [sub]. *)
Definition entry_lines (sub : list Z → Z → list Z → Prop) (indent : Z) (d : dirent) (txt : list Z) : Prop :=
  ∃ raw, inode_raw vol spb (drv_sb drv) (drv_block_start drv) (de_ino d) = Some raw ∧
    let name := c_string (de_name d ++ [0]) in let line := indentation indent ++ [45; 32] ++ name in
    if decide (Z.land (le (slice 0 2 raw)) S_IFDIR = 0) then txt = line ++ [10]
    else if decide (name = DOT ∨ name = DOTDOT) then txt = line ++ [47; 10]
    else ∃ below, sub raw (indent + 1) below ∧ txt = line ++ [47; 10] ++ below.

(** The directory with the inode [raw] has at most [depth] levels below, and its lines are [txt]. *)
Fixpoint lists (depth : nat) (raw : list Z) (indent : Z) (txt : list Z) : Prop :=
  match depth with
  | O => False
  | S depth => ∃ dirs lines, dir_format raw dirs ∧ Forall2 (entry_lines (lists depth) indent) (filter used (mjoin dirs)) lines ∧ txt = mjoin lines
  end.
End tree.

Section theorem.
Context {E : Type} {FE : FsEnv E} {FL : FsEnvLaws E}.
Implicit Types (s : fss E) (e : E) (vol : volume).
#[local] Abbreviation MF := (M (fss E)).

(** A buffer and a node for each level, and two buffers to read an inode. *)
Definition walk_cost (bs isz : Z) (depth : nat) : Z := Z.of_nat depth * (fe_cost bs + node_cost isz) + 2 * fe_cost bs.

(** What the recursive call does. *)
Definition ls_ok (drv : ext2_driver) vol (spb ipg isz : Z) (depth : nat) (ls : Z → Z → list Z → MF (list Z)) : Prop :=
  ∀ raw indent txt s dir num sb priv out, lists drv vol spb depth raw indent txt → 0 ≤ indent → indent + Z.of_nat depth < 2 ^ 31 →
    mounted s dir (vnode_of num sb priv raw) raw drv vol spb → fs_mounted s sb drv vol spb ipg isz → nodes_live s →
    walk_cost (drv_block_size drv) isz depth ≤ fe_avail (fenv s) →
    wp (ls dir indent out) s (λ r s', r = out ++ txt ∧ ∃ e', s' = set_fenv e' s ∧ keeps_env (fenv s) e').

(** The callback prints the lines of its entry. *)
Lemma print_cb_spec drv vol spb ipg isz depth ls indent d txt raw s child sb priv out :
  ls_ok drv vol spb ipg isz depth ls → entry_lines drv vol spb (lists drv vol spb depth) indent d txt → inode_raw vol spb (drv_sb drv) (drv_block_start drv) (de_ino d) = Some raw →
  0 ≤ indent → indent + Z.of_nat (S depth) < 2 ^ 31 →
  mounted s child (vnode_of (de_ino d) sb priv raw) raw drv vol spb → fs_mounted s sb drv vol spb ipg isz → nodes_live s →
  walk_cost (drv_block_size drv) isz depth ≤ fe_avail (fenv s) →
  wp (recursive_print_cb ls indent (de_name d ++ [0]) child out) s (λ q s', q = (0, out ++ txt) ∧ ∃ e', s' = set_fenv e' s ∧ keeps_env (fenv s) e').
Proof.
  intros Hls (raw' & Hr' & Htxt) Hr H0 Hind Hmo Hfs Hn Hav. assert (raw' = raw) as -> by congruence. cbv zeta in Htxt.
  assert (∀ q, q = (0, out ++ txt) → q = (0, out ++ txt) ∧ ∃ e', s = set_fenv e' s ∧ keeps_env (fenv s) e') as Hstay.
  { intros q ->. split; [done|]. exists (fenv s). rewrite set_fenv_same. split; [done|reflexivity]. }
  unfold recursive_print_cb. wp_step. eapply wp_deref; [apply Hmo|]. cbn [i_mode vnode_of]. case_decide as Hdir.
  { rewrite Hdir. cbn [Z.eqb negb]. apply wp_ret, Hstay. by rewrite Htxt, <-!(assoc_L app). }
  rewrite (proj2 (Z.eqb_neq _ 0)) by done. cbn [negb]. cbv zeta. set (name := c_string (de_name d ++ [0])) in *. case_decide as Hdot.
  { assert (negb (bool_decide (name = DOT)) && negb (bool_decide (name = DOTDOT)) = false) as ->.
    { destruct Hdot as [Hx|Hx]; rewrite (bool_decide_true _ Hx); [done|by rewrite andb_false_r]. }
    apply wp_ret, Hstay. by rewrite Htxt, <-!(assoc_L app). }
  rewrite !bool_decide_false by tauto. cbn [negb andb]. destruct Htxt as (below & Hsub & ->). wp_step.
  assert (i32 (indent + 1) = indent + 1) as -> by (by rewrite i32_small by lia).
  eapply wp_mono; [apply (Hls raw (indent + 1) below s child (de_ino d) sb priv); try done; lia|]. cbv beta. intros r s' (-> & He). apply wp_ret. split; [|done].
  by rewrite <-!(assoc_L app).
Qed.

(** The lines of the entries [ds] have been printed. *)
Definition printed s (lines : list (list Z)) (out : list Z) (ds : list dirent) (out' : list Z) s' : Prop :=
  out' = out ++ mjoin (take (length (filter used ds)) lines) ∧ ∃ e', s' = set_fenv e' s ∧ keeps_env (fenv s) e'.

Lemma print_steps drv vol spb ipg isz depth ls indent all lines s sb out :
  ls_ok drv vol spb ipg isz depth ls → Forall2 (entry_lines drv vol spb (lists drv vol spb depth) indent) (filter used all) lines → Forall dirent_ok all →
  0 ≤ indent → indent + Z.of_nat (S depth) < 2 ^ 31 → fs_mounted s sb drv vol spb ipg isz → nodes_live s →
  node_cost isz + walk_cost (drv_block_size drv) isz depth ≤ fe_avail (fenv s) →
  walk_steps (recursive_print_cb ls indent) sb all (printed s lines out) (λ _ _, False).
Proof.
  intros Hls Hl Hok H0 Hind Hfs Hn Hav ds d rest p s1 Hall (-> & e1 & -> & K1). unfold printed. rewrite filter_app, length_app. case_decide as E0.
  { rewrite filter_cons_False by (unfold used; tauto). cbn [length filter list_filter]. rewrite Nat.add_0_r. eauto. }
  rewrite filter_cons_True by done. cbn [length filter list_filter]. rewrite Nat.add_1_r.
  assert (filter used all !! length (filter used ds) = Some d) as Hd by (rewrite Hall, filter_app, filter_cons_True, list_lookup_middle by done; done).
  destruct (Forall2_lookup_l _ _ _ _ _ Hl Hd) as (line & Hline & Hent). rewrite (take_S_r _ _ _ Hline), join_app. cbn [mjoin list_join]. rewrite app_nil_r, (assoc_L app).
  assert (dirent_ok d) as [Hi _] by (rewrite Hall in Hok; apply Forall_app in Hok as [_ Hok]; by apply Forall_cons in Hok as [? _]).
  pose proof Hent as (raw & Hraw & _). pose proof (kv_avail _ _ K1) as V1. pose proof (fe_cost_nonneg (drv_block_size drv)) as C0. pose proof (fe_cost_nonneg INODE_SIZE) as C1. pose proof (fe_cost_nonneg isz) as C2.
  assert (fs_mounted (set_fenv e1 s) sb drv vol spb ipg isz) as Hfs1 by (apply fs_mounted_env; [apply K1|done]).
  assert (nodes_live (set_fenv e1 s)) as Hn1 by (by apply nodes_live_env).
  eapply wp_mono; [apply (visit_on_spec _ (set_fenv e1 s) sb drv vol spb ipg isz d raw _ (out ++ mjoin (take (length (filter used ds)) lines) ++ line)); try done|].
  - cbn. unfold walk_cost, node_cost in *. nia.
  - lia.
  - intros child priv e2 s2 Ha. destruct (node_added_mounted _ _ _ _ _ _ _ _ _ _ _ _ _ Hfs1 Hn1 Ha) as (Hfs2 & Hn2 & Hmo2). rewrite (assoc_L app).
    eapply (print_cb_spec drv vol spb ipg isz depth ls indent d line raw); try done.
    pose proof (na_avail _ _ _ _ _ _ _ _ _ Ha) as V2. rewrite (na_state _ _ _ _ _ _ _ _ _ Ha). cbn in *. lia.
  - cbv beta. intros r s' (-> & e2 & -> & K2). split; [by rewrite (assoc_L app)|]. exists e2. split; [done|]. by etrans.
Qed.

(** The walk over a tree of [depth] levels ends with the lines of the tree behind the text so far,
    and the heap is as before. *)
Lemma ls_recursive_spec drv vol spb ipg isz depth : ∀ fuel, (depth ≤ fuel)%nat → ls_ok drv vol spb ipg isz depth (ls_recursive fuel).
Proof.
  induction depth as [|depth IH]; intros fuel Hfuel raw indent txt s dir num sb priv out Hl H0 Hind Hmo Hfs Hn Hav; [done|].
  destruct fuel as [|fuel]; [lia|]. specialize (IH fuel ltac:(lia)). cbn [lists] in Hl. destruct Hl as (dirs & lines & [D1 [D2 D3] D4 D5 D6] & Hlines & ->).
  pose proof (fe_cost_nonneg (drv_block_size drv)) as C0. pose proof (fe_cost_nonneg INODE_SIZE) as C1. pose proof (fe_cost_nonneg isz) as C2.
  cbn [ls_recursive]. wp_step. eapply wp_deref; [apply Hmo|]. cbn [i_readdir vnode_of]. wp_step.
  apply (ext2_readdir_inv _ (λ e1, printed (set_fenv e1 s) lines out) (λ _ _ _, False) s dir (vnode_of num sb priv raw) raw drv vol spb dirs out); try done.
  { unfold walk_cost, node_cost in Hav. nia. }
  intros a e1 Ha. pose proof (al_avail _ _ _ _ Ha) as Va. split_and!.
  - split.
    + intros ds q s1 (_ & e2 & -> & K2). pose proof (kv_avail _ _ K2). cbn [fenv set_fenv] in *. split; [|unfold walk_cost, node_cost in Hav; nia].
      apply (mounted_env s e2); [|done]. by rewrite (kv_disk _ _ K2), (al_disk _ _ _ _ Ha).
    + intros ds q s1 e3 (Hp & e2 & -> & K2) K3. cbn [fenv set_fenv] in *. split; [done|]. exists e3. split; [done|]. by etrans.
  - eapply print_steps; try done.
    + apply fs_mounted_env; [apply Ha|done].
    + by eapply nodes_live_alloc.
    + cbn. unfold walk_cost, node_cost in *. nia.
  - split; [by rewrite app_nil_r|]. exists e1. split; [done|reflexivity].
  - intros p' s' [[]|(-> & e2 & -> & K2)]. eapply kfree_buf_spec; [exact Ha|exact K2|]. intros e3 K3. wp_step. cbn [Datatypes.snd].
    apply Forall2_length in Hlines. rewrite take_ge by lia. eauto.
Qed.
End theorem.

(** ** The disk of the examples *)

Lemma toy_volume : ext2_volume (λ blk, vol_of toy_disk 0x1000 (u64 (blk + 1))) (part_sector 2 ++ part_sector 3) 2 8 128 raw_root.
Proof.
  split.
  - exists (part_sector 2), (part_sector 3). split; [vm_compute; reflexivity|]. split; [vm_compute; reflexivity|done].
  - vm_compute. reflexivity.
  - exists 0. split; [vm_compute; reflexivity|]. split; [lia|done].
  - split; [vm_compute; reflexivity|done].
  - split; [vm_compute; reflexivity|done].
  - by exists 8.
  - vm_compute. reflexivity.
  - intros n b Hb Hn. unfold vblock in Hb. apply fmap_Some in Hb as (l & Hl & _).
    change (seqZ 0 2) with [0; 1] in Hl. cbn [mapM] in Hl. apply bind_Some in Hl as (x & Hx & _).
    change (fe_sectors (fe_kept (fenv toy_disk)) 0x1000 (u64 (u64 (n * 2 + 0) + 1)) = Some x) in Hx. cbn in Hx.
    rewrite (u64_small (n * 2 + 0)), u64_small in Hx by lia. case_bool_decide; [lia|done].
Qed.

Lemma mount_witness :
  ∃ vsb s' root, mount 0x1000 toy_disk = Ret (vsb, s') ∧ root_inode <$> sb_at s' !! vsb = Some root ∧
    (λ n, (ino_num n, i_size n, i_mode n)) <$> inode_at s' !! root = Some (2, 1024, 0x41ED).
Proof.
  destruct (mount_correct toy_disk 0x1000 (BlockDev 64 ata_read_block_fn 512 MASS_STORAGE "ATA"%string 0 0) [0x1000] (disk_sector 0) 0 1 (λ blk, vol_of toy_disk 0x1000 (u64 (blk + 1))) (part_sector 2 ++ part_sector 3) 2 8 128 raw_root
    toy_disk_devices) as (vsb & s' & part & root & priv & drv & Er & _ & _ & Esb & _ & Hroot & _).
  - done.
  - reflexivity.
  - reflexivity.
  - reflexivity.
  - vm_compute. reflexivity.
  - reflexivity.
  - split; intros a [x Hx]; [change (inode_at toy_disk) with (∅ : gmap Z inode) in Hx|change (raw_at toy_disk) with (∅ : gmap Z (list Z)) in Hx]; by rewrite lookup_empty in Hx.
  - intros a [x Hx]. change (file_at toy_disk) with (∅ : gmap Z file) in Hx. by rewrite lookup_empty in Hx.
  - vm_compute. reflexivity.
  - vm_compute. reflexivity.
  - done.
  - exact toy_volume.
  - vm_compute. discriminate.
  - exists vsb, s', root. split; [exact Er|]. rewrite Esb. split; [reflexivity|]. rewrite (mo_inode _ _ _ _ _ _ _ Hroot). vm_compute. reflexivity.
Defined.
