(* ===== verification/AtaProbe.v ===== *)
(** * Finding a disk ([ata_probe] of [src/x86_64/drivers/ata.c])

    The IDENTIFY command, the checks on the answer, and the registration of the device with
    the interrupt table and the list of block devices.  The drive is hardware, behind [AtaDev];
    [printk] is left out.  Theorem: on a drive that keeps the protocol of the command, exactly
    a disk with 48-bit addresses is registered. *)

From stdpp Require Import strings.
From S2P Require Import Prelude Links Bytes Vfs Ext2 Ext2Proofs FsExample MbrTheorems Interrupts InterruptTheorems Ata.

(** [sizeof(ata_block_dev)]. *)
Definition ATA_BLOCK_DEV_SIZE : Z := 72.

(** The fields of [struct ata_block_dev] behind its [block_dev]. *)
Record ata_block_dev := AtaBlockDev { a_base : Z; a_master : Z; a_slave : Z; a_irq : Z; a_head : Z; a_tail : Z }.

(** The drive, the interrupt tables, the block devices, and the driver's structures by address. *)
Record probe (D P E : Type) := Probe { p_drv : D; p_tab : intr P; p_fs : fss E; p_ata : gmap Z ata_block_dev }.
Arguments Probe {D P E}.
Arguments p_drv {D P E}.
Arguments p_tab {D P E}.
Arguments p_fs {D P E}.
Arguments p_ata {D P E}.

Section probe.
Context {D P E : Type} {AD : AtaDev D} {PD : PicDev P} {IL : IdtLayout} {FE : FsEnv E}.
Implicit Types (s : probe D P E).
#[local] Abbreviation MP := (M (probe D P E)).

Definition poutb (port v : Z) : MP unit := modify (λ s, Probe (ata_out port v (p_drv s)) (p_tab s) (p_fs s) (p_ata s)).
Definition pinb (port : Z) : MP Z := λ s, let r := ata_in port (p_drv s) in Ret (r.1, Probe r.2 (p_tab s) (p_fs s) (p_ata s)).
Definition pinsw (port cnt : Z) : MP (list Z) := λ s, let r := ata_ins port cnt (p_drv s) in Ret (r.1, Probe r.2 (p_tab s) (p_fs s) (p_ata s)).

Definition on_ptab {A} (c : M (intr P) A) : MP A := λ s,
  match c (p_tab s) with Ret (a, i) => Ret (a, Probe (p_drv s) i (p_fs s) (p_ata s)) | Halt => Halt | NoFuel => NoFuel end.
Definition on_pfs {A} (c : M (fss E) A) : MP A := λ s,
  match c (p_fs s) with Ret (a, f) => Ret (a, Probe (p_drv s) (p_tab s) f (p_ata s)) | Halt => Halt | NoFuel => NoFuel end.

(** [while (inb(base + REG_STATUS) & STATUS_BSY);] *)
Fixpoint wait_busy (fuel : nat) (base : Z) : MP unit :=
  match fuel with
  | O => no_fuel
  | S fuel => v <- pinb (base + REG_STATUS) ;; if negb (Z.land v STATUS_BSY =? 0) then wait_busy fuel base else ret tt
  end.

(** The loop that ends with data, [true], or an error. *)
Fixpoint wait_drq (fuel : nat) (base : Z) : MP bool :=
  match fuel with
  | O => no_fuel
  | S fuel =>
      status <- pinb (base + REG_STATUS) ;;
      if negb (Z.land status STATUS_ERR =? 0) then ret false
      else if negb (Z.land status STATUS_DRQ =? 0) then ret true
      else wait_drq fuel base
  end.

(** The words of the answer: [identity[83]], and [identity[100]] to [identity[103]] as one number. *)
Definition id_features (bs : list Z) : option Z := field (2 * 83) 2 bs.
Definition id_sectors (bs : list Z) : option Z := field (2 * 100) 8 bs.

(** Everything after the answer has been read. *)
Definition ata_attach (base master slave : Z) (name : string) (irq : Z) (identity : list Z) : MP Z :=
  feat <- on_pfs (get_some (id_features identity)) ;;
  if Z.land feat (Z.shiftl 1 10) =? 0 then ret 0 else
  total_sectors <- on_pfs (get_some (id_sectors identity)) ;;
  m <- on_pfs (fcall (fe_kmalloc ATA_BLOCK_DEV_SIZE)) ;;
  let ata := m.1 in
  if ata =? 0 then ret 0 else
  modify (λ s, Probe (p_drv s) (p_tab s) (p_fs s) (<[ata := AtaBlockDev base master slave irq 0 0]> (p_ata s))) ;;
  on_pfs (modify (λ f, set_dev_at (<[ata := BlockDev total_sectors ata_read_block_fn 512 MASS_STORAGE name 0 0]> (dev_at f)) f)) ;;
  on_ptab (register_interrupt irq 0 TYPE_INTRGATE 0 ISR_ata_handler ata) ;;
  on_pfs (blk_register ata) ;;
  ret ata.

Definition ata_probe (fuel : nat) (base master slave : Z) (name : string) (irq : Z) : MP Z :=
  v <- pinb (base + REG_STATUS) ;;
  if v =? 0xFF then ret 0 else
  poutb (base + REG_SEC_COUNT0) 0 ;;
  poutb (base + REG_LBA0) 0 ;;
  poutb (base + REG_LBA1) 0 ;;
  poutb (base + REG_LBA2) 0 ;;
  poutb (base + REG_COMMAND) CMD_IDENTIFY ;;
  v <- pinb (base + REG_STATUS) ;;
  if v =? 0 then ret 0 else
  wait_busy fuel base ;;
  mid <- pinb (base + REG_LBA1) ;;
  hi <- pinb (base + REG_LBA2) ;;
  if negb (mid =? 0) || negb (hi =? 0) then ret 0 else
  ok <- wait_drq fuel base ;;
  if negb ok then ret 0 else
  identity <- pinsw (base + REG_DATA) 256 ;;
  ata_attach base master slave name irq identity.
End probe.

(** ** The protocol of IDENTIFY *)

(** What answers at the ports: nothing, no drive, a packet or serial device with its signature, an
    error, or a disk with 512 bytes of identification. *)
Inductive ident := NoBus | NoDrive | NotAta (mid hi : Z) | Failed | Disk (bs : list Z).
#[export] Instance ident_dec : EqDecision ident.
Proof. solve_decision. Defined.

(** [ai_wait n], [ai_drq n]: the command is being executed and [n] more status reads show a
    busy drive, respectively one without data; [ai_bound] bounds them. *)
Class IdentLaws (D : Type) {AD : AtaDev D} (base : Z) := {
  ai_kind : D → ident;
  ai_bound : nat;
  ai_wait : nat → ident → D → Prop;
  ai_drq : nat → ident → D → Prop;
  ai_floating d : let '(v, d') := ata_in (base + REG_STATUS) d in (v = 0xFF ↔ ai_kind d = NoBus) ∧ ai_kind d' = ai_kind d;
  ai_command d : ai_kind d ≠ NoBus →
    let d1 := foldl (λ d w, ata_out (base + w.1) w.2 d) d [(REG_SEC_COUNT0, 0); (REG_LBA0, 0); (REG_LBA1, 0); (REG_LBA2, 0); (REG_COMMAND, CMD_IDENTIFY)] in
    let '(v, d2) := ata_in (base + REG_STATUS) d1 in
    if decide (ai_kind d = NoDrive) then v = 0 else v ≠ 0 ∧ ∃ n, (n ≤ ai_bound)%nat ∧ ai_wait n (ai_kind d) d2;
  ai_busy n k d : ai_wait (S n) k d → let '(v, d') := ata_in (base + REG_STATUS) d in Z.land v STATUS_BSY ≠ 0 ∧ ai_wait n k d';
  ai_free k d : ai_wait 0 k d → let '(v, d1) := ata_in (base + REG_STATUS) d in Z.land v STATUS_BSY = 0 ∧
    let '(mid, d2) := ata_in (base + REG_LBA1) d1 in let '(hi, d3) := ata_in (base + REG_LBA2) d2 in
    match k with NotAta m h => mid = m ∧ hi = h ∧ (m ≠ 0 ∨ h ≠ 0) | _ => mid = 0 ∧ hi = 0 ∧ ∃ n, (n ≤ ai_bound)%nat ∧ ai_drq n k d3 end;
  ai_nodata n k d : ai_drq (S n) k d → let '(v, d') := ata_in (base + REG_STATUS) d in
    Z.land v STATUS_ERR = 0 ∧ Z.land v STATUS_DRQ = 0 ∧ ai_drq n k d';
  ai_end k d : ai_drq 0 k d → let '(v, d') := ata_in (base + REG_STATUS) d in
    match k with
    | Disk bs => Z.land v STATUS_ERR = 0 ∧ Z.land v STATUS_DRQ ≠ 0 ∧ (ata_ins (base + REG_DATA) 256 d').1 = bs ∧ blen bs = 512
    | _ => Z.land v STATUS_ERR ≠ 0
    end
}.

Section theorems.
Context {D P E : Type} {AD : AtaDev D} (base : Z) {AL : IdentLaws D base} {PD : PicDev P} {PL : PicLaws P} {IL : IdtLayout} {FE : FsEnv E} {FL : FsEnvLaws E}.
Implicit Types (s : probe D P E).

Lemma pinb_spec port s (Q : Z → probe D P E → Prop) : (∀ v d, ata_in port (p_drv s) = (v, d) → Q v (Probe d (p_tab s) (p_fs s) (p_ata s))) → wp (pinb port) s Q.
Proof. intros HQ. unfold wp, pinb. destruct (ata_in port (p_drv s)) as [v d]. by apply HQ. Qed.

Lemma wait_busy_spec n : ∀ fuel k s (Q : unit → probe D P E → Prop), ai_wait n k (p_drv s) → (n < fuel)%nat →
  (∀ d v d0, ai_wait 0 k d0 → ata_in (base + REG_STATUS) d0 = (v, d) → Q tt (Probe d (p_tab s) (p_fs s) (p_ata s))) → wp (wait_busy fuel base) s Q.
Proof.
  induction n as [|n IH]; intros [|fuel] k s Q Hw Hf HQ; [lia| |lia|]; cbn [wait_busy]; wp_step; apply pinb_spec; intros v d E1.
  - pose proof (ai_free k _ Hw) as Hl. rewrite E1 in Hl. destruct Hl as [Hl _]. rewrite (proj2 (Z.eqb_eq _ 0)) by done. apply wp_ret. by eapply HQ.
  - pose proof (ai_busy n k _ Hw) as Hl. rewrite E1 in Hl. destruct Hl as [Hl Hw']. rewrite (proj2 (Z.eqb_neq _ 0)) by done. apply (IH fuel k); [done|lia|done].
Qed.

Lemma wait_drq_spec n : ∀ fuel k s (Q : bool → probe D P E → Prop), ai_drq n k (p_drv s) → (n < fuel)%nat →
  (∀ d, (match k with Disk bs => (ata_ins (base + REG_DATA) 256 d).1 = bs ∧ blen bs = 512 | _ => True end) →
    Q (match k with Disk _ => true | _ => false end) (Probe d (p_tab s) (p_fs s) (p_ata s))) → wp (wait_drq fuel base) s Q.
Proof.
  induction n as [|n IH]; intros [|fuel] k s Q Hw Hf HQ; [lia| |lia|]; cbn [wait_drq]; wp_step; apply pinb_spec; intros v d E1.
  - pose proof (ai_end k _ Hw) as Hl. rewrite E1 in Hl. destruct k.
    1-4: rewrite (proj2 (Z.eqb_neq _ 0)) by done; apply wp_ret; by apply HQ.
    destruct Hl as (H1 & H2 & H3). rewrite (proj2 (Z.eqb_eq _ 0)), (proj2 (Z.eqb_neq (Z.land v STATUS_DRQ) 0)) by done. apply wp_ret. by apply HQ.
  - pose proof (ai_nodata n k _ Hw) as Hl. rewrite E1 in Hl. destruct Hl as (H1 & H2 & Hw'). rewrite !(proj2 (Z.eqb_eq _ 0)) by done. cbn [negb]. apply (IH fuel k); [done|lia|done].
Qed.

(** A disk with 48-bit addresses. *)
Definition lba48_disk (k : ident) : option Z :=
  match k with Disk bs => if decide (Z.land (default 0 (id_features bs)) (Z.shiftl 1 10) ≠ 0) then id_sectors bs else None | _ => None end.

(** The device [a] is in front of the list, its handler in the table with [a] for its argument,
    and its line open. *)
Record attached s (master slave : Z) (name : string) (irq : Z) (L : list Z) (n a : Z) s' : Prop := {
  at_dev : dev_at (p_fs s') = <[a := BlockDev n ata_read_block_fn 512 MASS_STORAGE name 0 (dev_list_head (p_fs s))]> (dev_at (p_fs s));
  at_list : devices (p_fs s') (a :: L) ∧ part_at (p_fs s') = part_at (p_fs s);
  at_new : allocated (fenv (p_fs s)) a ATA_BLOCK_DEV_SIZE (fenv (p_fs s'));
  at_queue : p_ata s' = <[a := AtaBlockDev base master slave irq 0 0]> (p_ata s);
  at_handler : InterruptTheorems.registered (p_tab s) irq 0 TYPE_INTRGATE 0 ISR_ata_handler a (p_tab s');
  at_nodes : same_nodes (p_fs s) (p_fs s')
}.

Lemma on_pfs_spec {A} (c : M (fss E) A) s Q : wp c (p_fs s) (λ a f, Q a (Probe (p_drv s) (p_tab s) f (p_ata s))) → wp (on_pfs c) s Q.
Proof. unfold wp, on_pfs. by destruct (c (p_fs s)) as [[a f]| |]. Qed.

Lemma on_ptab_spec {A} (c : M (intr P) A) s Q : wp c (p_tab s) (λ a i, Q a (Probe (p_drv s) i (p_fs s) (p_ata s))) → wp (on_ptab c) s Q.
Proof. unfold wp, on_ptab. by destruct (c (p_tab s)) as [[a f]| |]. Qed.

Lemma devices_front f a d e L : devices f L → allocated (fenv f) a ATA_BLOCK_DEV_SIZE e → dev_next d = dev_list_head f →
  devices (set_dev_list_head a (set_dev_at (<[a := d]> (dev_at f)) (set_fenv e f))) (a :: L).
Proof.
  intros [Hl Hnd Hlv] [N1 F1 A1 _ _] Hd. assert (a ∉ L) as Hna.
  { intros Hin. destruct (lseg_nonzero _ _ _ _ a Hl Hin) as [_ Hs]. unfold next_dev in Hs. apply fmap_is_Some in Hs. destruct (Hlv a) as [? Hy]; [auto|congruence]. }
  split.
  - cbn [dev_list_head set_dev_list_head]. eapply lseg_ext; [|apply (lseg_push (next_dev f) _ L 0 a N1 Hna Hl)].
    intros p Hp. unfold next_dev, upd. cbn. destruct (decide (p = a)) as [->|]; [by rewrite lookup_insert_eq; cbn; rewrite Hd|by rewrite lookup_insert_ne].
  - by constructor.
  - intros x. cbn. rewrite A1, !lookup_insert_is_Some'. naive_solver.
Qed.

Lemma ata_attach_spec master slave name irq bs L s :
  blen bs = 512 → devices (p_fs s) L → fe_cost ATA_BLOCK_DEV_SIZE ≤ fe_avail (fenv (p_fs s)) → tables_wf (p_tab s) → pic_ready (pic (p_tab s)) → 0 ≤ irq < 256 → handler_at (p_tab s) irq = None →
  wp (ata_attach base master slave name irq bs) s (λ r s', match lba48_disk (Disk bs) with
    | Some n => r ≠ 0 ∧ attached s master slave name irq L n r s' | None => r = 0 ∧ s' = s end).
Proof.
  intros Hl Hd Hav Hwf Hp Hi Hf. unfold ata_attach, lba48_disk. unfold id_features, id_sectors. rewrite !field_some by lia. cbn [default id].
  wp_step. apply on_pfs_spec, wp_ret. destruct (Z.land _ _ =? 0) eqn:Ez; bool_prop.
  { apply wp_ret. rewrite decide_False by (by intros []). by destruct s. }
  rewrite decide_True by done. wp_step. apply on_pfs_spec, wp_ret. wp_step.
  destruct (fe_kmalloc_ok (fenv (p_fs s)) ATA_BLOCK_DEV_SIZE ltac:(done) Hav) as (a & junk & e' & Er & Ha & Hfr & _ & Hv & Hav' & Hdk).
  apply on_pfs_spec. eapply wp_fcall; [exact Er|]. cbn [Datatypes.fst p_fs]. rewrite (proj2 (Z.eqb_neq a 0)) by done.
  wp_step. apply wp_modify. wp_step. apply on_pfs_spec, wp_modify. wp_step. apply on_ptab_spec. cbn [p_tab p_drv p_fs p_ata].
  eapply wp_mono; [apply register_interrupt_spec; [done|done|unfold TYPE_INTRGATE; lia..]|]. cbv beta. intros _ i. rewrite decide_True by done. intros Hreg.
  wp_step. apply on_pfs_spec. unfold blk_register. rewrite (proj2 (Z.eqb_neq a 0)) by done. cbn [p_fs].
  wp_step. eapply wp_deref; [apply lookup_insert_eq|]. wp_steps. split; [done|]. cbn. rewrite insert_insert_eq.
  split; [done| |by split|done|done|done]. split; [|done]. by apply (devices_front (p_fs s) a _ e').
Qed.

(** Probing comes to an end on every drive that keeps the protocol, and registers a device exactly when a
    disk with 48-bit addresses answers: a new block in front of the list of devices, with the disk's number of
    sectors, blocks of 512 bytes and an empty queue, whose handler is in the free vector [irq] with the device as its argument and its line
    open.  On a floating bus, without a drive, on another kind of device, on an error and on a disk without 48-bit addresses the answer is
    NULL and neither the tables nor the devices have changed. *)
Theorem ata_probe_correct fuel master slave name irq L s :
  (ai_bound < fuel)%nat → devices (p_fs s) L → fe_cost ATA_BLOCK_DEV_SIZE ≤ fe_avail (fenv (p_fs s)) →
  tables_wf (p_tab s) → pic_ready (pic (p_tab s)) → 0 ≤ irq < 256 → handler_at (p_tab s) irq = None →
  ∃ r s', ata_probe fuel base master slave name irq s = Ret (r, s') ∧
    match lba48_disk (ai_kind (p_drv s)) with
    | Some n => r ≠ 0 ∧ attached s master slave name irq L n r s'
    | None => r = 0 ∧ p_tab s' = p_tab s ∧ p_fs s' = p_fs s ∧ p_ata s' = p_ata s
    end.
Proof.
  intros Hfuel Hd Hav Hwf Hp Hi Hf. apply wp_iff. unfold ata_probe. wp_step. apply pinb_spec. intros v d E1.
  pose proof (ai_floating (p_drv s)) as Hl. rewrite E1 in Hl. destruct Hl as [Hv Hk]. destruct (v =? 0xFF) eqn:Ev; bool_prop.
  { apply wp_ret. rewrite (proj1 Hv Ev). done. }
  do 5 (wp_step; apply wp_modify). wp_step. apply pinb_spec. cbn [p_drv p_tab p_fs p_ata]. intros v1 d1 E2.
  assert (ai_kind d ≠ NoBus) as Hnb by (intros Hx; apply Ev, Hv; congruence). pose proof (ai_command d Hnb) as Hc. cbn [foldl Datatypes.fst Datatypes.snd] in Hc. rewrite E2 in Hc.
  rewrite <-Hk. set (k := ai_kind d) in *. case_decide as Hno; [rewrite Hc, Hno; by apply wp_ret|]. destruct Hc as [Hv1 (n & Hn & Hw)].
  rewrite (proj2 (Z.eqb_neq v1 0)) by done. wp_step. apply (wait_busy_spec n fuel k); [exact Hw|lia|]. cbn [p_drv p_tab p_fs p_ata]. intros d2 v2 d2' Hw0 E3.
  pose proof (ai_free k d2' Hw0) as Hl. rewrite E3 in Hl. destruct Hl as [_ Hl].
  wp_step. apply pinb_spec. cbn [p_drv p_tab p_fs p_ata]. intros mid d3 E4. wp_step. apply pinb_spec. cbn [p_drv p_tab p_fs p_ata]. intros hi d4 E5. rewrite E4, E5 in Hl.
  assert ((∃ m h, k = NotAta m h) ∨ ∀ m h, k ≠ NotAta m h) as [(m & h & Ek)|Hna] by (destruct k; eauto; by right).
  { rewrite Ek in Hl. destruct Hl as (-> & -> & Hmh). assert (negb (m =? 0) || negb (h =? 0) = true) as -> by lia. apply wp_ret. by rewrite Ek. }
  assert (mid = 0 ∧ hi = 0 ∧ ∃ n, (n ≤ ai_bound)%nat ∧ ai_drq n k d4) as (-> & -> & n' & Hn' & Hq) by (destruct k; try done; by destruct (Hna mid0 hi0)).
  cbn [Z.eqb negb orb]. wp_step. apply (wait_drq_spec n' fuel k); [exact Hq|lia|]. cbn [p_drv p_tab p_fs p_ata]. intros d5 Hend.
  destruct k as [| | | |bs] eqn:Ek; try (apply wp_ret; done). destruct Hend as [Hbs Hlen]. cbn [negb]. wp_step. unfold pinsw, wp at 1. cbn [p_drv p_tab p_fs p_ata]. rewrite Hbs.
  eapply wp_mono; [apply (ata_attach_spec master slave name irq bs L); [done|exact Hd|exact Hav|exact Hwf|exact Hp|exact Hi|exact Hf]|]. cbv beta. intros r s'.
  destruct (lba48_disk (Disk bs)) as [n0|]; [|by intros [-> ->]]. intros [Hr [A1 A2 A3 A4 A5 A6]]. split; [done|]. by split.
Qed.
End theorems.

(** ** A drive that is busy for a while *)

Inductive ide_phase := PIdle | PCommand | PBusy (n : nat) | PDrq (n : nat) | PData.
Record ide := Ide { ide_raw : ident; ide_phase_of : ide_phase }.

(** A signature is not zero, and a disk identifies itself with 512 bytes; the rest is no drive. *)
Definition norm (k : ident) : ident :=
  match k with NotAta m h => if (m =? 0) && (h =? 0) then NoDrive else k | Disk bs => if blen bs =? 512 then k else NoDrive | _ => k end.
Definition ide_kind (d : ide) : ident := norm (ide_raw d).

Lemma norm_norm k : norm (norm k) = norm k.
Proof. destruct k as [| |m h| |bs]; try done; cbn. - destruct ((m =? 0) && (h =? 0)) eqn:E; [done|]. cbn. by rewrite E. - destruct (blen bs =? 512) eqn:E; [|done]. cbn. by rewrite E. Qed.

Definition ide_status (d : ide) : Z * ide :=
  match ide_kind d, ide_phase_of d with
  | NoBus, _ => (0xFF, d)
  | NoDrive, _ => (0, d)
  | _, PIdle => (0x40, d)
  | k, PCommand => (0x80, Ide k (PBusy 2))
  | k, PBusy (S n) => (0x80, Ide k (PBusy n))
  | k, PBusy O => (0x40, Ide k (PDrq 3))
  | k, PDrq (S n) => (0x40, Ide k (PDrq n))
  | Disk bs, PDrq O => (0x48, Ide (Disk bs) PData)
  | k, PDrq O => (0x41, Ide k PData)
  | k, PData => (0x48, Ide k PData)
  end.

#[export] Instance ide_dev : AtaDev ide := {
  ata_out port v d := if (port =? 0x1F0 + REG_COMMAND) && (v =? CMD_IDENTIFY) then Ide (ide_raw d) PCommand else d;
  ata_in port d :=
    if port =? 0x1F0 + REG_STATUS then ide_status d
    else (match ide_kind d with NotAta m h => if port =? 0x1F0 + REG_LBA1 then m else h | _ => 0 end, d);
  ata_ins _ _ d := (match ide_kind d with Disk bs => bs | _ => [] end, d)
}.

Lemma ide_signature d : ata_in (0x1F0 + REG_LBA1) d = (match ide_kind d with NotAta m h => m | _ => 0 end, d) ∧ ata_in (0x1F0 + REG_LBA2) d = (match ide_kind d with NotAta m h => h | _ => 0 end, d).
Proof. split; cbn; by destruct (ide_kind d). Qed.

#[export, program] Instance ide_laws : IdentLaws ide 0x1F0 := {
  ai_kind := ide_kind;
  ai_bound := 3;
  ai_wait n k d := d = Ide k (PBusy n) ∧ norm k = k ∧ k ≠ NoBus ∧ k ≠ NoDrive;
  ai_drq n k d := d = Ide k (PDrq n) ∧ norm k = k ∧ k ≠ NoBus ∧ k ≠ NoDrive ∧ ∀ m h, k ≠ NotAta m h
}.
Next Obligation.
  intros [k ph]. change (ata_in (0x1F0 + REG_STATUS) (Ide k ph)) with (ide_status (Ide k ph)). unfold ide_status. pose proof (norm_norm k) as Hn. unfold ide_kind in *. cbn [ide_raw ide_phase_of].
  destruct (norm k) eqn:E, ph as [| |[|n]|[|n]|]; cbn [ide_raw] in *; rewrite ?E, ?Hn; (split; [|done]); split; intros; (done || lia).
Qed.
Next Obligation.
  intros [k ph] Hk. change (foldl _ _ _) with (Ide k PCommand). cbv zeta. change (ata_in (0x1F0 + REG_STATUS) (Ide k PCommand)) with (ide_status (Ide k PCommand)).
  unfold ide_status. pose proof (norm_norm k) as Hn. unfold ide_kind in *. cbn [ide_raw ide_phase_of] in *. case_decide as E; [by rewrite E|].
  destruct (norm k) eqn:Ek; try done; (split; [done|]); exists 2%nat; (split; [lia|done]).
Qed.
Next Obligation.
  intros n k d (-> & Hn & H1 & H2). change (ata_in (0x1F0 + REG_STATUS) ?d) with (ide_status d). unfold ide_status, ide_kind. cbn [ide_raw ide_phase_of]. rewrite Hn. by destruct k.
Qed.
Next Obligation.
  intros k d (-> & Hn & H1 & H2). change (ata_in (0x1F0 + REG_STATUS) ?d) with (ide_status d). unfold ide_status, ide_kind. cbn [ide_raw ide_phase_of]. rewrite Hn.
  assert (∀ ph, let '(mid, d2) := ata_in (0x1F0 + REG_LBA1) (Ide k ph) in let '(hi, d3) := ata_in (0x1F0 + REG_LBA2) d2 in
    mid = (match k with NotAta m h => m | _ => 0 end) ∧ hi = (match k with NotAta m h => h | _ => 0 end) ∧ d3 = Ide k ph) as Hs.
  { intros ph. rewrite (proj1 (ide_signature _)), (proj2 (ide_signature _)). unfold ide_kind. cbn [ide_raw]. by rewrite Hn. }
  specialize (Hs (PDrq 3)). destruct k as [| |m h| |bs]; [done|done|..]; (split; [done|]); destruct (ata_in _ _) as [mid d2], (ata_in _ d2) as [hi d3]; destruct Hs as (-> & -> & ->); (split; [done|]); (split; [done|]).
  - cbn in Hn. destruct ((m =? 0) && (h =? 0)) eqn:E; [done|]. lia.
  - exists 3%nat. by split_and!.
  - exists 3%nat. by split_and!.
Qed.
Next Obligation.
  intros n k d (-> & Hn & H1 & H2 & H3). change (ata_in (0x1F0 + REG_STATUS) ?d) with (ide_status d). unfold ide_status, ide_kind. cbn [ide_raw ide_phase_of]. rewrite Hn. by destruct k; [done|done|destruct (H3 mid hi)|..].
Qed.
Next Obligation.
  intros k d (-> & Hn & H1 & H2 & H3). change (ata_in (0x1F0 + REG_STATUS) ?d) with (ide_status d). unfold ide_status, ide_kind. cbn [ide_raw ide_phase_of]. rewrite Hn.
  destruct k as [| |m h| |bs]; [done|done|by destruct (H3 m h)|done|]. split; [done|]. split; [done|]. cbn in Hn. destruct (blen bs =? 512) eqn:E; [|done].
  split; [|by bool_prop]. cbn. unfold ide_kind. cbn. by rewrite E.
Qed.

(** A disk of 64 sectors next to the one that is there. *)
Definition toy_ident : list Z := replicate 166 0 ++ [0; 4] ++ replicate 32 0 ++ le_bytes 8 64 ++ replicate 304 0.
Definition toy_probe : probe ide (chip * chip) tfs := Probe (Ide (Disk toy_ident) PIdle) gates_intr toy_disk ∅.

Lemma ata_probe_witness :
  ∃ r s', ata_probe 4 0x1F0 0xA0 0 "ATA PRIMARY MASTER"%string 46 toy_probe = Ret (r, s') ∧ devices (p_fs s') [r; 0x1000] ∧ masked (pic (p_tab s')) 14 = false ∧ tot_length <$> dev_at (p_fs s') !! r = Some 64.
Proof.
  destruct (ata_probe_correct 0x1F0 4 0xA0 0 "ATA PRIMARY MASTER"%string 46 [0x1000] toy_probe) as (r & s' & E & H).
  - cbn. lia.
  - exact toy_disk_devices.
  - vm_compute. discriminate.
  - exact gates_wf.
  - split; reflexivity.
  - lia.
  - reflexivity.
  - assert (lba48_disk (ai_kind (p_drv toy_probe)) = Some 64) as Hk by (vm_compute; reflexivity). rewrite Hk in H. destruct H as [Hr [A1 [A2 _] A3 A4 A5 _]].
    exists r, s'. split; [exact E|]. split; [exact A2|]. split; [rewrite (rg_masked _ _ _ _ _ _ _ _ A5 14) by lia; reflexivity|]. rewrite A1, lookup_insert_eq. reflexivity.
Defined.
