(* ===== verification/Storage.v ===== *)
(** * From the disk to the root directory ([ata_test_thread] of [src/kernel/main.c])

    The thread that brings up the storage: the drive is probed, three of its blocks are
    read, the partition and its file system are mounted, the tree is listed, and the first
    program is loaded.  [printk]'s text other than the listing is left out.  Theorem: what
    the thread has when it loads the program is the root of the volume on the disk. *)

From stdpp Require Import strings.
From S2P Require Import Prelude Links Bytes Vfs Ext2 Ext2Proofs Ext2File Ext2Inode Ext2Dir Ext2Lookup FsExample Kernel Elf64 MbrTheorems.
From S2P Require Import Interrupts InterruptTheorems Ata Mount AtaProbe.

Definition ATA_PRIMARY_IO : Z := 0x1F0.
Definition ATA_PRIMARY_ISR : Z := 14 + 32.
Definition ATA_MASTER : Z := 0xA0.

(** ["init.elf"] *)
Definition init_name : list Z := [105; 110; 105; 116; 46; 101; 108; 102; 0].

Section thread.
Context {D P E : Type} {AD : AtaDev D} {PD : PicDev P} {IL : IdtLayout} {FE : FsEnv E} {UE : UserEnv E}.
#[local] Abbreviation MP := (M (probe D P E)).

(** One block of the test; the bytes are printed, and a failure too. *)
Definition test_block (hdd blk : Z) (buf : list Z) : MP (list Z) :=
  r <- on_pfs (read_block_into hdd blk 0 buf) ;; ret r.2.

(** From the partition table to [PROC_set_root]; the answer is the root that call stores,
    0 where it is not reached, and the listing. *)
Definition mount_list (fuel : nat) (hdd : Z) : M (fss E) (Z * list Z) :=
  sb <- mount hdd ;;
  if sb =? 0 then ret (0, []) else
  v <- deref sb_at sb ;;
  out <- ls_recursive fuel (root_inode v) 0 [] ;;
  ret (root_inode v, out).

Definition attach_root (fuel : nat) : MP (Z * list Z) :=
  hdd <- ata_probe fuel ATA_PRIMARY_IO ATA_MASTER 0 "ATA PRIMARY MASTER"%string ATA_PRIMARY_ISR ;;
  if hdd =? 0 then ret (0, []) else
  m <- on_pfs (fcall (fe_kmalloc 512)) ;;
  if m.1 =? 0 then ret (0, []) else
  let buf := replicate 512 0xCC in
  buf <- test_block hdd 0 buf ;;
  buf <- test_block hdd 32 buf ;;
  test_block hdd 64 buf ;;
  on_pfs (mount_list fuel hdd).

(** The whole thread; [image] and [ph] are what [elf_load]'s local variables hold. *)
Definition ata_test_thread (fuel : nat) (image : elf_image) (ph : list Z) : MP Z :=
  r <- attach_root fuel ;;
  if r.1 =? 0 then ret 0 else
  on_pfs (elf_load r.1 (Some init_name) image ph) ;;
  ret r.1.
End thread.

Section theorem.
Context {D P E : Type} {AD : AtaDev D} {AL : IdentLaws D ATA_PRIMARY_IO} {PD : PicDev P} {PL : PicLaws P} {IL : IdtLayout} {FE : FsEnv E} {FL : FsEnvLaws E}.
Implicit Types (s : probe D P E) (f : fss E) (vol : volume).

(** What of the file system state survives a change of the environment. *)
Record fs_ready f (L : list Z) : Prop := {
  fr_devices : devices f L;
  fr_nodes : nodes_live f;
  fr_files : files_live f;
  fr_drivers : driver_cbs f = []
}.

Lemma fs_ready_env f e' L : (∀ a, is_Some (fe_live (fenv f) !! a) → is_Some (fe_live e' !! a)) → fs_ready f L → fs_ready (set_fenv e' f) L.
Proof.
  intros Hl [[D1 D2 D3] [N1 N2] Hf Hc]. split; [split; [done|done|]|split|..|done]; intros a; cbn; eauto.
Qed.

Lemma fs_ready_alloc f a n e' L : allocated (fenv f) a n e' → fs_ready f L → fs_ready (set_fenv e' f) L.
Proof. intros Ha. apply fs_ready_env. intros x Hx. rewrite (al_live _ _ _ _ Ha). apply lookup_insert_is_Some'. by right. Qed.
Lemma fs_ready_keep f e' L : keeps_env (fenv f) e' → fs_ready f L → fs_ready (set_fenv e' f) L.
Proof. intros K. apply fs_ready_env. intros x Hx. by rewrite (kv_live _ _ K). Qed.

(** A drive with its device reads the sectors of the disk. *)
Lemma disk_volume f a d (dsk : volume) : dev_at f !! a = Some d → read_block d = ata_read_block_fn → (∀ blk, fe_sectors (fe_kept (fenv f)) a blk = dsk blk) → ∀ blk, vol_of f a blk = dsk blk.
Proof. intros Ed Hd Hs blk. unfold vol_of. cbn. rewrite Ed. cbn. by rewrite Hd. Qed.

Lemma test_block_spec (dsk : volume) hdd blk bs buf s (Q : list Z → probe D P E → Prop) :
  (∀ blk, vol_of (p_fs s) hdd blk = dsk blk) → dsk blk = Some bs → blen buf = 512 →
  (∀ buf' e', blen buf' = 512 → keeps_env (fenv (p_fs s)) e' → Q buf' (Probe (p_drv s) (p_tab s) (set_fenv e' (p_fs s)) (p_ata s))) → wp (test_block hdd blk buf) s Q.
Proof.
  intros Hv Hb Hl HQ. assert (reads (p_fs s) hdd dsk) as Hr by (intros x y; by rewrite Hv). destruct (reads_sector _ _ _ _ _ Hr Hb) as [Hlb _].
  unfold test_block. wp_step. apply on_pfs_spec. eapply wp_mono; [apply (read_block_into_spec _ hdd dsk blk 0 buf bs Hr Hb); rewrite Hl; done|].
  cbv beta. intros r s' (-> & e' & -> & K). apply wp_ret. cbn [Datatypes.snd]. apply HQ; [|done].
  unfold splice. rewrite Z2Nat.inj_0, take_0. change ([] ++ ?l) with l. rewrite blen_app. unfold blen, SECTOR in *. rewrite length_drop. lia.
Qed.

(** The disk: its partition table, and the ext2 volume in the partition [i] at [lba]. *)
Record disk_format (dsk : volume) (lba : Z) (sb : list Z) (spb ipg isz : Z) (raw : list Z) : Prop := {
  dk_table : ∃ mbr i, dsk 0 = Some mbr ∧ mbr_sig mbr = Some MBR_SIGNATURE ∧
    last (filter (λ i, part_type i mbr = Some EXT2_TYPE) (seqZ 0 4)) = Some i ∧ part_lba_start i mbr = Some lba;
  dk_test : is_Some (dsk 32) ∧ is_Some (dsk 64);
  dk_volume : ext2_volume (λ blk, dsk (u64 (blk + lba))) sb spb ipg isz raw
}.

(** The root of the volume is mounted. *)
Record rooted f (dsk : volume) (lba : Z) (sb : list Z) (spb ipg isz : Z) (raw : list Z) (root : Z) : Prop := {
  rt_root : ∃ vsb part priv, root ≠ 0 ∧ mounted f root (vnode_of EXT2_ROOT_INODE vsb priv raw) raw (driver_of part sb spb) (λ blk, dsk (u64 (blk + lba))) spb ∧
    fs_mounted f vsb (driver_of part sb spb) (λ blk, dsk (u64 (blk + lba))) spb ipg isz;
  rt_nodes : nodes_live f ∧ files_live f
}.

(** The heap the thread takes. *)
Definition storage_cost (spb isz : Z) (depth : nat) : Z :=
  fe_cost ATA_BLOCK_DEV_SIZE + fe_cost 512 + fe_cost MBR_SIZE + 4 * fe_cost PARTITION_DEV_SIZE + volume_cost spb isz + walk_cost (spb * SECTOR) isz depth.

(** From the registered disk to the root. *)
Lemma mount_list_spec fuel f hdd d L dsk lba sb spb ipg isz raw depth txt (Q : Z * list Z → fss E → Prop) :
  (depth ≤ fuel)%nat → Z.of_nat depth < 2 ^ 31 → disk_format dsk lba sb spb ipg isz raw → (∀ part, lists (driver_of part sb spb) (λ blk, dsk (u64 (blk + lba))) spb depth raw 0 txt) →
  fs_ready f L → hdd ≠ 0 → dev_at f !! hdd = Some d → blk_size d = SECTOR → (∀ blk, vol_of f hdd blk = dsk blk) →
  fe_cost MBR_SIZE + 4 * fe_cost PARTITION_DEV_SIZE + volume_cost spb isz + walk_cost (spb * SECTOR) isz depth ≤ fe_avail (fenv f) →
  (∀ root f', rooted f' dsk lba sb spb ipg isz raw root → Q (root, txt) f') →
  wp (mount_list fuel hdd) f Q.
Proof.
  intros Hfuel Hdepth [(mbr & i & Hmbr & Hsig & Hi & Hlba) _ Hvol] Hls [F1 F2 F3 F4] H0 Ed Hbs Hdsk Hav HQ.
  pose proof fe_cost_nonneg as C. pose proof (C MBR_SIZE). pose proof (C PARTITION_DEV_SIZE). pose proof (C SUPERBLOCK_SIZE). pose proof (C (spb * SECTOR)). pose proof (C INODE_SIZE). pose proof (C isz). unfold mount_list.
  assert (0 ≤ walk_cost (spb * SECTOR) isz depth) as Hw by (unfold walk_cost, node_cost; nia).
  destruct (mount_correct f hdd d L mbr i lba (λ blk, dsk (u64 (blk + lba))) sb spb ipg isz raw) as (vsb & f' & part & root & priv & drv & Er & N1 & N2 & Esb & Hfs & Hmo & Hl1 & Hl2 & _ & V); try done; [by rewrite Hdsk|intros ? ?; by rewrite Hdsk|lia|].
  wp_step. eapply wp_of_eq; [exact Er|]. rewrite (proj2 (Z.eqb_neq vsb 0)) by done. wp_step. eapply wp_deref; [exact Esb|]. cbn [root_inode].
  wp_step.
  eapply wp_mono; [eapply (ls_recursive_spec (driver_of part sb spb) _ spb ipg isz depth fuel Hfuel raw 0 txt f' root EXT2_ROOT_INODE vsb priv []); try done|].
  { cbn [drv_block_size driver_of]. unfold volume_cost in Hav. lia. }
  cbv beta. intros r f'' (-> & e' & -> & K). apply wp_ret. cbn [app]. apply HQ. split.
  - exists vsb, part, priv. split; [done|]. split; [by apply mounted_env; [apply K|]|by apply fs_mounted_env; [apply K|]].
  - split; [by apply nodes_live_env|]. intros a Ha. cbn. rewrite (kv_live _ _ K). by apply Hl2.
Qed.

(** The blocks of the test, and then the rest. *)
Lemma test_mount_spec fuel s hdd d L dsk lba sb spb ipg isz raw depth txt (Q : Z * list Z → probe D P E → Prop) :
  (depth ≤ fuel)%nat → Z.of_nat depth < 2 ^ 31 → disk_format dsk lba sb spb ipg isz raw → (∀ part, lists (driver_of part sb spb) (λ blk, dsk (u64 (blk + lba))) spb depth raw 0 txt) →
  fs_ready (p_fs s) L → hdd ≠ 0 → dev_at (p_fs s) !! hdd = Some d → blk_size d = SECTOR → read_block d = ata_read_block_fn →
  (∀ blk, fe_sectors (fe_kept (fenv (p_fs s))) hdd blk = dsk blk) →
  fe_cost MBR_SIZE + 4 * fe_cost PARTITION_DEV_SIZE + volume_cost spb isz + walk_cost (spb * SECTOR) isz depth ≤ fe_avail (fenv (p_fs s)) →
  (∀ root f', rooted f' dsk lba sb spb ipg isz raw root → Q (root, txt) (Probe (p_drv s) (p_tab s) f' (p_ata s))) →
  wp (buf <- test_block hdd 0 (replicate 512 0xCC) ;; buf <- test_block hdd 32 buf ;; test_block hdd 64 buf ;; on_pfs (mount_list fuel hdd)) s Q.
Proof.
  intros Hfuel Hdepth Hdk Hls Hfr H0 Ed Hbs Hrd Hsec Hav HQ. pose proof Hdk as [(mbr & _ & H0' & _) [[b32 H32] [b64 H64]] _].
  assert (∀ e, fe_kept e = fe_kept (fenv (p_fs s)) → ∀ blk, vol_of (set_fenv e (p_fs s)) hdd blk = dsk blk) as Hvol.
  { intros e He. apply (disk_volume (set_fenv e (p_fs s)) hdd d dsk Ed Hrd). intros blk. cbn. by rewrite He. }
  wp_step. eapply (test_block_spec dsk hdd 0 mbr); [rewrite <-(set_fenv_same (p_fs s)); by apply Hvol|done|done|]. intros buf1 e1 L1 K1.
  wp_step. eapply (test_block_spec dsk hdd 32 b32); [apply Hvol, K1|done|done|]. cbn [p_fs p_drv p_tab p_ata fenv set_fenv]. intros buf2 e2 L2 K2.
  wp_step. eapply (test_block_spec dsk hdd 64 b64); [apply Hvol; by rewrite (kv_disk _ _ K2), (kv_disk _ _ K1)|done|done|]. cbn [p_fs p_drv p_tab p_ata fenv set_fenv]. intros buf3 e3 _ K3.
  assert (keeps_env (fenv (p_fs s)) e3) as K by (etrans; [exact K1|]; by etrans). change (set_fenv e3 _) with (set_fenv e3 (p_fs s)).
  apply on_pfs_spec. cbn [p_fs p_drv p_tab p_ata]. eapply (mount_list_spec fuel (set_fenv e3 (p_fs s)) hdd d L dsk); try done.
  - by apply fs_ready_keep.
  - apply Hvol, K.
  - pose proof (kv_avail _ _ K). cbn. lia.
Qed.

Lemma attached_ready s master slave name irq L n a s' : fs_ready (p_fs s) L → attached ATA_PRIMARY_IO s master slave name irq L n a s' → fs_ready (p_fs s') (a :: L).
Proof.
  intros [F1 [F2 F2'] F3 F4] [_ [A2 _] A3 _ _ (_ & _ & B1 & B2 & B3 & B4)].
  assert (∀ x, is_Some (fe_live (fenv (p_fs s)) !! x) → is_Some (fe_live (fenv (p_fs s')) !! x)) as Hl by (intros x Hx; rewrite (al_live _ _ _ _ A3); apply lookup_insert_is_Some'; by right).
  split; [done|split|..]; [intros x; rewrite B1; eauto|intros x; rewrite B2; eauto|intros x; rewrite B3; eauto|congruence].
Qed.

End theorem.

(** ** The disk of the examples *)

Definition toy_sectors : volume := vol_of toy_disk 0x1000.

Lemma toy_format : disk_format toy_sectors 1 (part_sector 2 ++ part_sector 3) 2 8 128 raw_root.
Proof.
  split.
  - exists (disk_sector 0), 0. split; [reflexivity|]. split; [reflexivity|]. split; vm_compute; reflexivity.
  - split; eexists; reflexivity.
  - exact toy_volume.
Qed.

(** The lines ["- ./"], ["- ../"] and ["- a.elf"]. *)
Definition toy_lines : list (list Z) := [[45; 32; 46; 47; 10]; [45; 32; 46; 46; 47; 10]; [45; 32; 97; 46; 101; 108; 102; 10]].

Lemma toy_listing part : lists (driver_of part (part_sector 2 ++ part_sector 3) 2) (λ blk, toy_sectors (u64 (blk + 1))) 2 1 raw_root 0 (mjoin toy_lines).
Proof.
  exists toy_dirs, toy_lines. split; [|split; [|reflexivity]].
  - split.
    + vm_compute. discriminate.
    + split; vm_compute; reflexivity.
    + vm_compute. discriminate.
    + intros k ds. destruct k as [|k]; [|done]. intros [= <-]. right. exists 4. split; [done|]. split; vm_compute; reflexivity.
    + apply (bool_decide_unpack _). vm_compute. exact I.
  - assert (filter used (mjoin toy_dirs) = take 3 (mjoin toy_dirs)) as -> by (vm_compute; reflexivity).
    repeat constructor; [exists raw_root|exists raw_root|exists raw_elf]; (split; [vm_compute; reflexivity|]); vm_compute; reflexivity.
Qed.

