(* ===== verification/Boot.v ===== *)
(** * Kernel start ([src/kernel/main.c], [src/x86_64/drivers/pit.c], [MMU_init])

    The machine is the state of every component; there is one interrupt flag, the one of
    the virtual memory manager's registers, and a component sees it as its own.
    [kernel_start] is [kernel_main] up to the creation of its first thread, [idle_step] one round of
    its loop.  The timer chip is the sequence of bytes written to its ports.

    After [kernel_start] the invariants that the theorems on the components assume hold together: the
    interrupt tables with every handler in place, the system call table, the empty heap over
    the frames the loader reported, the identity map, the empty scheduler with the main thread, and the console. *)

From S2P Require Import Prelude Memory Bbuf Frames Vpages Bits PageTree VpagesMap VpagesPages VpagesClone VpagesKernel Kmalloc KmallocProofs KmallocTheorems VpagesHeap.
From S2P Require Import Kernel KernelExample KernelInstance RoundRobin TaskQueue TaskQueueProofs ProcessTree ProcessTreeProofs Multitask MutexSystem.
From S2P Require Import Interrupts InterruptTheorems Serial Vga Stdio IsrAsm Syscalls SyscallTheorems.

Definition PIT_DIVISOR : Z := 11932.
Definition MODE_PORT : Z := 0x43.
Definition CHAN0_PORT : Z := 0x40.
Definition TYPE_TRAPGATE : Z := 0xF.

(** The console, the interrupt and system call tables, the tasks over heap and memory,
    and the writes to the timer, oldest first. *)
Record machine (P U : Type) := Machine { b_con : con U; b_mach : mach P; b_k : kst (heap mst); b_pit : list (Z * Z) }.
Arguments Machine {P U}.
Arguments b_con {P U}.
Arguments b_mach {P U}.
Arguments b_k {P U}.
Arguments b_pit {P U}.

Section boot.
Context {P U : Type} {PD : PicDev P} {IL : IdtLayout} {UD : UartDev U} {KY : KLayout} {HL : HeapLayout} {TL : TaskLayout}.
Implicit Types (m : machine P U).
#[local] Abbreviation MB := (M (machine P U)).

(** ** One interrupt flag *)

Definition b_mem m : mst := vm (env (b_k m)).
Definition b_flag m : bool := ke_ints (env (b_k m)).
Definition set_b_mem (st : mst) m : machine P U := Machine (b_con m) (b_mach m) (set_env (Heap st (pools (env (b_k m)))) (b_k m)) (b_pit m).
Definition set_b_flag (b : bool) m : machine P U := Machine (b_con m) (b_mach m) (set_env (ke_set_ints b (env (b_k m))) (b_k m)) (b_pit m).

(** [c] on a component, which is read out of the machine and put back with the flag. *)
Definition on_part {S A} (get : machine P U → S) (put : S → machine P U → machine P U) (c : M S A) : MB A := λ m,
  match c (get m) with Ret (a, s) => Ret (a, put s m) | Halt => Halt | NoFuel => NoFuel end.

Definition get_vga m : vga := set_v_ints (b_flag m) (con_vga (b_con m)).
Definition put_vga (v : vga) m : machine P U := set_b_flag (v_ints v) (Machine (Con v (con_ser (b_con m))) (b_mach m) (b_k m) (b_pit m)).

Definition get_mach m : mach P := Mach (set_int_on (b_flag m) (m_intr (b_mach m))) (m_sys (b_mach m)) (m_cpu (b_mach m)).
Definition put_mach (x : mach P) m : machine P U := set_b_flag (int_on (m_intr x)) (Machine (b_con m) x (b_k m) (b_pit m)).

Definition get_ser m : ser U := let s := con_ser (b_con m) in set_ser_st (set_bb_ints (b_flag m) (ser_st s)) s.
Definition get_intr_ser m : intr P * ser U := (m_intr (get_mach m), get_ser m).
Definition put_intr_ser (p : intr P * ser U) m : machine P U :=
  set_b_flag (bb_ints (ser_st p.2)) (Machine (Con (con_vga (b_con m)) p.2) (Mach p.1 (m_sys (b_mach m)) (m_cpu (b_mach m))) (b_k m) (b_pit m)).

Definition get_con m : con U := Con (get_vga m) (get_ser m).
Definition put_con (c : con U) m : machine P U := set_b_flag (con_flag c) (Machine c (b_mach m) (b_k m) (b_pit m)).

Definition put_k (k : kst (heap mst)) m : machine P U := Machine (b_con m) (b_mach m) k (b_pit m).

Definition b_register (vector IST type DPL : Z) (h : isr_t) : MB unit := on_part get_mach put_mach (on_mintr (register_interrupt vector IST type DPL h 0)).

(** ** The timer *)

Definition pit_out (port v : Z) : MB unit := modify (λ m, Machine (b_con m) (b_mach m) (b_k m) (b_pit m ++ [(port, u8 v)])).

Definition pit_init : MB unit :=
  enable <- gets b_flag ;;
  modify (set_b_flag false) ;;
  pit_out MODE_PORT 0x34 ;;
  pit_out CHAN0_PORT (Z.land PIT_DIVISOR 0xFF) ;;
  pit_out CHAN0_PORT (Z.shiftr (Z.land PIT_DIVISOR 0xFF00) 8) ;;
  b_register 32 0 TYPE_INTRGATE 0 ISR32_pit ;;
  if enable : bool then modify (set_b_flag true) else ret tt.

(** The handler; the context switch follows it in the stub. *)
Definition ISR32_pit_handler : M (kst (heap mst)) unit := PROC_reschedule.

(** ** The kernel *)

Definition MMU_init : MB unit :=
  on_part b_mem set_b_mem make_identity_map ;;
  on_part b_mem set_b_mem (modify (set_kernel_va VA_KHEAP_BASE)) ;;
  b_register 14 0 TYPE_TRAPGATE 0 ISR14_PAGE_FAULT.

(** [yield] is a software interrupt: the return from it restores the caller's flag. *)
Definition b_PROC_run (sp : Z) : MB unit :=
  e <- gets b_flag ;;
  on_part b_k put_k (PROC_run sp) ;;
  modify (set_b_flag e).

(** "pre-multitasking kernel initialization finished" and a newline. *)
Definition boot_message : list Z :=
  [112; 114; 101; 45; 109; 117; 108; 116; 105; 116; 97; 115; 107; 105; 110; 103; 32; 107; 101; 114; 110; 101; 108; 32;
   105; 110; 105; 116; 105; 97; 108; 105; 122; 97; 116; 105; 111; 110; 32; 102; 105; 110; 105; 115; 104; 101; 100; 10].

(** [junk] and [buf] are the uninitialised locals of the console's functions, [ser_buf] the
    array of the serial driver, [fuel] bounds the loop over the tags. *)
Definition kernel_start (junk : bool) (buf ser_buf : list Z) (fuel : nat) (mboot_header sp : Z) : MB unit :=
  on_part get_vga put_vga (vga_clear junk) ;;
  on_part get_mach put_mach (on_mintr interrupts_init) ;;
  on_part get_intr_ser put_intr_ser (serial_init ser_buf) ;;
  on_part get_mach put_mach syscall_init ;;
  on_part b_mem set_b_mem (parse_mboot_tags fuel mboot_header) ;;
  MMU_init ;;
  on_part get_mach put_mach register_syscalls ;;
  b_PROC_run sp ;;
  pit_init ;;
  on_part get_con put_con (printk junk buf boot_message []) ;;
  ret tt.

Definition kernel_main (junk : bool) (buf ser_buf : list Z) (fuel : nat) (mboot_header sp kernel_init : Z) : MB unit :=
  kernel_start junk buf ser_buf fuel mboot_header sp ;;
  on_part b_k put_k (PROC_create_kthread kernel_init 0).
End boot.

(** One round of the idle loop: the processor halts, or the rest of the quantum is given up. *)
Inductive idle := Halted | Yielded.

Definition idle_step {E} `{!KernelEnv E, !TaskLayout} (sp : Z) : M (kst E) idle :=
  CLI ;;
  n <- num_proc_runnable ;;
  if n =? 0 then STI ;; ret Halted
  else STI ;; yield sp ;; ret Yielded.

(** ** The first thread *)

Section run.
Context {E : Type} {KE : KernelEnv E} {KL : KernelEnvLaws E} {TL : TaskLayout}.
Implicit Types (s : kst E).

(** The kernel's variables before [PROC_run]: nothing but zeros. *)
Record fresh s : Prop := {
  fr_threads : thread_at s = ∅;
  fr_processes : process_at s = ∅;
  fr_mutexes : mutex_at s = ∅ ∧ mutex_list s = 0;
  fr_queues : map_Forall (λ _ v, v = Queue 0 0) (queue_at s);
  fr_ring : Head s = 0 ∧ Tail s = 0 ∧ Current s = 0 ∧ Count s = 0;
  fr_started : multitask_started s = false
}.

(** The one process and the one thread there are. *)
Definition first_process (p4 : Z) : process_st := Process 0 p4 0 0 0 main_thread 1 0 0 0 (Queue 0 0) (Queue 0 0).
Definition first_thread : thread_st := Thread NO_THREAD 0 0 DEFAULT_STACK_BYTES kernel_process 0 PROC_RUNNING 0 0 0 0 0 0 0.

Definition running_first s s' : Prop :=
  thread_at s' = {[ main_thread := first_thread ]} ∧ process_at s' = {[ kernel_process := first_process (ke_kernel_p4 (env s)) ]} ∧
  mutex_at s' = mutex_at s ∧ mutex_list s' = mutex_list s ∧ queue_at s' = queue_at s ∧ Head s' = Head s ∧ Tail s' = Tail s ∧ Current s' = Current s ∧ Count s' = Count s ∧
  curr_proc s' = main_thread ∧ next_proc s' = main_thread ∧ next_pid s' = 1 ∧ multitask_started s' = true.

(** With nothing to run, the main thread yields to itself. *)
Lemma yield_alone s sp : Head s = 0 → multitask_started s = true → curr_proc s = main_thread → main_thread ≠ 0 →
  yield sp s = Ret (sp, set_next_proc main_thread (set_env (ke_set_ints false (env s)) s)).
Proof.
  intros H1 H2 H3 H4. unfold yield, CLI, PROC_reschedule, rr_next, are_interrupts_enabled, isr_return, cli_if, sti_if, CLI, STI, bind, modify, gets, ret.
  destruct s as [ts ps ms qs hd tl cu n cp np pd td st ml mi r0 e]. cbn in *. subst. cbn. rewrite ke_ints_set. cbn.
  rewrite (proj2 (Z.eqb_neq main_thread 0)), Z.eqb_refl by done. done.
Qed.

Lemma PROC_run_spec s sp : fresh s → main_thread ≠ 0 → kernel_process ≠ 0 →
  wp (PROC_run sp) s (λ r s', r = sp ∧ running_first s s' ∧ env s' = ke_set_ints false (env s)).
Proof.
  intros [F1 F2 [F3 F3'] F4 (R1 & R2 & R3 & R4) F5] Hm Hp. destruct s as [ts ps ms qs hd tl cu n cp np pd td st ml mi r0 e]. cbn in *. subst.
  unfold PROC_run. wp_step. apply wp_gets. cbn. wp_step.
  unfold zero_process_at, zero_thread_at, PROC_init_process, PROC_init_thread, PROC_init_queue, put_queue, PROC_link_thread.
  rewrite (proj2 (Z.eqb_neq main_thread 0)), (proj2 (Z.eqb_neq kernel_process 0)) by done. cbn [orb].
  repeat put_step. eapply wp_of_eq; [by apply yield_alone|]. split; [done|]. split; [|done]. by split_and!.
Qed.

(** From there on the theorems on tasks and mutexes apply. *)
Lemma running_first_start s s' : fresh s → running_first s s' → main_thread ≠ 0 → mstart s' (RRQ [] []) (λ _, []).
Proof.
  intros [_ _ [F3 F3'] F4 (R1 & R2 & R3 & R4) _] (T1 & T2 & T3 & T4 & T5 & T6 & T7 & T8 & T9 & T10 & T11 & T12 & T13) Hm.
  split; [|done|split; [done|]; split; [rewrite T1, lookup_singleton_eq; by eexists|by split; [apply not_elem_of_nil|intros q; apply not_elem_of_nil]]|by left| |split; congruence].
  - apply tasks_quiet; rewrite ?T1, ?T2, ?T3, ?T5, ?F3.
    + split; rewrite ?T6, ?T7, ?T8, ?T9; [constructor|done|done|done|done|cbn; lia|]. rewrite R1. by constructor.
    + by apply map_Forall_singleton.
    + apply map_Forall_empty.
    + done.
    + constructor.
    + apply map_Forall_singleton. right. cbn. rewrite lookup_singleton_eq. by eexists.
    + rewrite map_size_singleton. lia.
    + by rewrite lookup_singleton_ne.
  - intros p o. rewrite T2. by intros [<- <-]%lookup_singleton_Some.
Qed.

(** ** The idle loop *)

(** The processor halts exactly when no thread is ready, with interrupts enabled; otherwise
    the loop gives way to the next ready thread. *)
Theorem idle_step_correct s R Q sp :
  tasks s R Q → multitask_started s = true → main_thread ≠ 0 → is_Some (thread_at s !! main_thread) → curr_proc s = main_thread →
  wp (idle_step sp) s (λ r s', let s1 := set_env (ke_set_ints true (env s)) s in
    if decide (rr_list R = []) then r = Halted ∧ s' = s1 else r = Yielded ∧ ∃ sp', yielded s1 R Q sp sp' s').
Proof.
  intros Ht Hs Hm Hm' Hc. unfold idle_step, num_proc_runnable, rr_qlen. wp_step. apply wp_modify. wp_step. apply wp_gets. cbn [Count set_env].
  destruct (ra_count _ _ _ _ _ _ (tk_ring _ _ _ Ht)) as [-> _]. case_decide as Er.
  - rewrite Er. change (Z.of_nat (length []) =? 0) with true. cbv iota. wp_step. apply wp_modify, wp_ret. split; [done|]. cbn. by rewrite ke_set_ints_set.
  - destruct (rr_list R) as [|x l] eqn:El; [done|]. rewrite (proj2 (Z.eqb_neq _ 0)) by (cbn; lia). wp_step. apply wp_modify.
    change (set_env _ (set_env _ s)) with (set_env (ke_set_ints true (ke_set_ints false (env s))) s). rewrite ke_set_ints_set. wp_step.
    eapply wp_mono; [apply yield_spec; [by apply tasks_env|done|done|done|cbn; congruence|cbn; by rewrite Hc]|]. cbv beta. intros sp' s' Hy. apply wp_ret. eauto.
Qed.
End run.

(** ** Tables *)

(** A vector's stack, gate type, privilege and handler. *)
Record vec := Vec { v_ist : Z; v_type : Z; v_dpl : Z; v_handler : isr_t }.

(** The vectors [interrupts_init] takes, those the devices take, and with them those of the page
    fault and the timer. *)
#[local] Abbreviation init_vecs := {[ 8 := Vec 1 TYPE_INTRGATE 0 ISR8_double_fault; 13 := Vec 2 TYPE_INTRGATE 0 ISR13_general_protection ]}.
#[local] Abbreviation dev_vecs := (<[128 := Vec 0 TYPE_INTRGATE 3 ISR128_syscall]> (<[36 := Vec 0 TYPE_INTRGATE 0 ISR36_IRQ4_serial]> init_vecs)).
Definition boot_vecs : gmap Z vec := <[32 := Vec 0 TYPE_INTRGATE 0 ISR32_pit]> (<[14 := Vec 0 TYPE_TRAPGATE 0 ISR14_PAGE_FAULT]> dev_vecs).

Section tables.
Context {P : Type} {PD : PicDev P} {PL : PicLaws P} {IL : IdtLayout}.
Implicit Types (i : intr P).

(** The vectors of [T] have their gates and handlers, the others lead to the stub with none; of
    the lines, those of the vectors, the cascade and line 15 are open. *)
Record tab_state (T : gmap Z vec) i : Prop := {
  ts_wf : tables_wf i;
  ts_ready : pic_ready (pic i);
  ts_vec v : 0 ≤ v < 256 → match T !! v with
    | Some (Vec ist type dpl h) => gate_at i v ist type dpl ∧ handler_at i v = Some h
    | None => gate_at i v 0 TYPE_INTRGATE 0 ∧ handler_at i v = None
    end;
  ts_mask l : 0 ≤ l < 16 → masked (pic i) l = (l <? 15) && negb (l =? 2) && bool_decide (T !! (l + 32) = None);
  ts_base : pic_base (pic i) PIC1_DATA = PIC1_VECTOR ∧ pic_base (pic i) PIC2_DATA = PIC2_VECTOR;
  ts_tss : tss_ok i
}.

Lemma tab_int_on T b i : tab_state T i → tab_state T (set_int_on b i).
Proof. intros [[W1 W2 W3] H2 H3 H4 H5 H6]. by split; [split|..]. Qed.

Lemma tab_register T i v ist type dpl h : tab_state T i → 0 ≤ v < 256 → 0 ≤ ist < 8 → 0 ≤ type < 16 → 0 ≤ dpl < 4 → T !! v = None →
  wp (register_interrupt v ist type dpl h 0) i (λ _ i', tab_state (<[v := Vec ist type dpl h]> T) i' ∧ int_on i' = true).
Proof.
  intros [H1 H2 H3 H4 H5 H6] Hv Hi Ht Hd Hn. eapply wp_mono; [by apply register_interrupt_spec|]. cbv beta. intros _ i'.
  pose proof (H3 v Hv) as Hf. rewrite Hn in Hf. rewrite decide_True by (split; [done|apply Hf]). intros [G1 G2 G3 G4 G5 G6 G7 G8 (G9 & G10 & G11)].
  split; [|done]. split; [done|done| | |by rewrite !G7|unfold tss_ok; by rewrite G9, G10, G11].
  - intros x Hx. rewrite (handler_insert i i' v x _ _ Hv Hx (tw_isr _ H1) G4). destruct (decide (x = v)) as [->|Hne]; [by rewrite lookup_insert_eq|].
    rewrite lookup_insert_ne by done. specialize (H3 x Hx). destruct (T !! x) as [[a b c d]|]; (split; [apply G3; [done|done|apply H3]|apply H3]).
  - intros l Hl. rewrite G6, H4 by done. destruct (decide (v = l + 32)) as [->|Hne].
    + rewrite lookup_insert_eq, bool_decide_false by done. by rewrite andb_false_r.
    + by rewrite lookup_insert_ne by done.
Qed.

Lemma tab_init i : length (isr_table i) = 256%nat → length (idt i) = 256%nat → (∀ v, 0 ≤ v < 256 → handler_at i v = None) → 0 ≤ tss_addr < 2 ^ 64 →
  wp interrupts_init i (λ _ i', tab_state init_vecs i' ∧ int_on i' = true).
Proof.
  intros H1 H2 H3 H4. eapply wp_mono; [by apply interrupts_init_correct|]. cbv beta. intros _ i' (W & G & Hh & Ts & R & B1 & B2 & Hm & On).
  split; [|done]. split; [done|done| | |done|done].
  - intros v Hv. specialize (G v Hv). specialize (Hh v Hv). destruct (decide (v = 8)) as [->|]; [by rewrite lookup_insert_eq|]. rewrite lookup_insert_ne by done.
    destruct (decide (v = 13)) as [->|]; [by rewrite lookup_singleton_eq|by rewrite lookup_singleton_ne].
  - intros l Hl. rewrite Hm by done. rewrite bool_decide_true; [by rewrite andb_true_r|]. rewrite lookup_insert_ne, lookup_singleton_ne by lia. done.
Qed.
End tables.

(** ** Memory *)

Section memory.
Context {KY : KLayout}.

(** The heap before its first page: no frame in use, the whole range left. *)
Lemma kernel_map_spec st p : VpagesKernel.layout_ok → frames_inv st p → ptable_p4 ∉ p → ptable_p3_identity ∉ p →
  wp make_identity_map st (λ _ st', let st' := set_kernel_va VA_KHEAP_BASE st' in
    identity_mapped 512 (pmem st') ptable_p4 ∧ Frames.cr3 st' = ptable_p4 ∧ kernel_cr3 st' = ptable_p4 ∧ kernel_va st' = VA_KHEAP_BASE ∧ space st' ptable_p4 2 28 p).
Proof.
  intros Hl Hf H4 H3. eapply wp_mono; [by apply make_identity_map_spec|]. cbv beta zeta. intros _ st' (Hun & Hid & _ & Hz & C1 & C2 & _ & F & Rg).
  pose proof (lay_p4 Hl) as L4. pose proof (lay_p3 Hl) as L3.
  assert (frames_inv st' p) as Hf'.
  { eapply (frames_inv_unchanged st); [done..|constructor; [done|by constructor]|]. intros g Hg [->|[->|[]%elem_of_nil]%elem_of_cons]%elem_of_cons; done. }
  cbn. split_and!; try done. assert (slots (pmem st') ptable_p4 2 28 = []) as Es.
  { destruct (slots _ _ _ _) as [|x l] eqn:Ex; [done|]. assert (x ∈ slots (pmem st') ptable_p4 2 28) as (i & Hi & Hx)%elem_of_entries by (rewrite Ex; left).
    rewrite Hz, child_nil in Hx by (done || lia). by apply elem_of_nil in Hx. }
  split; cbn; rewrite ?Es; [exact Hf'|done|lia|lia| |by intros ? ? ? ?%elem_of_nil].
  cbn. apply NoDup_cons. split; [done|]. by apply frames_inv_NoDup in Hf.
Qed.
End memory.

(** ** The whole start *)

Section start.
Context {P U : Type} {PD : PicDev P} {PL : PicLaws P} {IL : IdtLayout} {UD : UartDev U} {UL : UartLaws U} {KY : KLayout} {HL : HeapLayout} {TL : TaskLayout}.
Implicit Types (m : machine P U).

(** The static variables as the loader leaves them; the flag is off or on. *)
Record at_reset m : Prop := {
  ar_vga : vga_inv (con_vga (b_con m));
  ar_isr : length (isr_table (m_intr (b_mach m))) = 256%nat;
  ar_idt : length (idt (m_intr (b_mach m))) = 256%nat;
  ar_none v : 0 ≤ v < 256 → handler_at (m_intr (b_mach m)) v = None;
  ar_sys : m_sys (b_mach m) = replicate 256 None;
  ar_tasks : fresh (b_k m);
  ar_pools : pools (env (b_k m)) = pools_init;
  ar_frames : free_frames (b_mem m) = INVALID_FRAME_ADDR ∧ frames_inv (b_mem m) [];
  ar_pit : b_pit m = []
}.

Lemma on_part_spec {S A} (get : machine P U → S) put (c : M S A) m Q : wp c (get m) (λ a s, Q a (put s m)) → wp (on_part get put c) m Q.
Proof. unfold wp, on_part. by destruct (c (get m)) as [[a s]| |]. Qed.

Lemma on_mintr_spec {A} (c : M (intr P) A) (x : mach P) Q : wp c (m_intr x) (λ a i, Q a (Mach i (m_sys x) (m_cpu x))) → wp (on_mintr c) x Q.
Proof. unfold wp, on_mintr. by destruct (c (m_intr x)) as [[a i]| |]. Qed.

Lemma serial_init_spec T ser_buf (i : intr P) (s : ser U) : tab_state T i → T !! 36 = None → length ser_buf = Z.to_nat SER_BUFFER_SIZE →
  wp (serial_init ser_buf) (i, s) (λ _ p, tab_state (<[36 := Vec 0 TYPE_INTRGATE 0 ISR36_IRQ4_serial]> T) p.1 ∧ ser_inv p.2 ∧ waiting p.2 = [] ∧ flag p.2 = true ∧ wire (uart p.2) = wire (uart s)).
Proof.
  intros Ht Hn Hl. unfold serial_init. wp_step. apply uart_setup_spec; [done|]. intros s1 I1 W1 F1 U1 _. wp_step.
  pose proof (tab_register T (set_int_on (flag s1) i) 36 0 TYPE_INTRGATE 0 ISR36_IRQ4_serial (tab_int_on _ _ _ Ht) ltac:(lia) ltac:(lia) ltac:(unfold TYPE_INTRGATE; lia) ltac:(lia) Hn) as Hr.
  unfold wp at 1, ser_register. cbn [Datatypes.fst Datatypes.snd]. fold (flag s1). unfold wp in Hr. destruct (register_interrupt _ _ _ _ _ _ _) as [[[] i']| |]; [|done..]. destruct Hr as [Hr On].
  apply wp_ret. cbn [Datatypes.fst Datatypes.snd]. split; [done|]. destruct I1 as [J1 J2 J3]. by split; [split|].
Qed.

(** A registration on the machine. *)
Lemma b_register_spec T v ist type dpl h m : tab_state T (m_intr (b_mach m)) → 0 ≤ v < 256 → 0 ≤ ist < 8 → 0 ≤ type < 16 → 0 ≤ dpl < 4 → T !! v = None →
  wp (b_register v ist type dpl h) m (λ _ m', ∃ i, m' = set_b_flag true (Machine (b_con m) (Mach i (m_sys (b_mach m)) (m_cpu (b_mach m))) (b_k m) (b_pit m)) ∧ tab_state (<[v := Vec ist type dpl h]> T) i).
Proof.
  intros Ht H1 H2 H3 H4 H5. apply on_part_spec, on_mintr_spec. eapply wp_mono; [apply (tab_register T _ v ist type dpl h (tab_int_on T (b_flag m) _ Ht) H1 H2 H3 H4 H5)|].
  cbv beta. intros _ i [Hr On]. exists i. split; [|exact Hr]. unfold put_mach. cbn [m_intr m_sys m_cpu get_mach]. by rewrite On.
Qed.

(** A blank screen, and a port that has sent nothing. *)
Record blank_con (col : Z) (c : con U) : Prop := {
  bc_vga : vga_inv (con_vga c) ∧ vga_pos (con_vga c) = 0 ∧ vga_buff (con_vga c) = replicate 2000 (u16 (Z.lor (Z.shiftl col 8) SPACE));
  bc_ser : ser_inv (con_ser c) ∧ waiting (con_ser c) = []
}.

Lemma syscall_init_spec T (x : mach P) : tab_state T (m_intr x) → T !! 128 = None → m_sys x = replicate 256 None →
  wp syscall_init x (λ _ x', tab_state (<[128 := Vec 0 TYPE_INTRGATE 3 ISR128_syscall]> T) (m_intr x') ∧ int_on (m_intr x') = true ∧
    (PROC_register_syscalls ;; MUTEX_register_syscalls) (m_sys x') = Ret (tt, boot_table)).
Proof.
  intros Ht Hn Hs. pose proof (tab_register T (m_intr x) 128 0 TYPE_INTRGATE 3 ISR128_syscall Ht ltac:(lia) ltac:(lia) ltac:(unfold TYPE_INTRGATE; lia) ltac:(lia) Hn) as Hr.
  unfold syscall_init. unfold wp, bind, on_mintr, on_sys, SYSCALL_ISR_VECTOR in *. destruct (register_interrupt _ _ _ _ _ _ _) as [[[] i]| |]; [|done..]. cbn [m_sys m_intr m_cpu]. rewrite Hs.
  pose proof boot_table_eq as E. unfold bind in E. destruct (register_syscall SYS_GETC_NUM H_getc _) as [[[] t1]| |]; [|done..]. cbn [m_sys m_intr m_cpu].
  destruct (register_syscall SYS_PUTC_NUM H_putc t1) as [[[] t2]| |]; [|done..]. cbn [m_sys m_intr m_cpu]. destruct Hr as [Hr On]. by split_and!.
Qed.

(** The devices: screen, tables, serial port, system calls. *)
Lemma boot_devices junk ser_buf m (next : M (machine P U) unit) Q : at_reset m → 0 ≤ tss_addr < 2 ^ 64 → length ser_buf = Z.to_nat SER_BUFFER_SIZE →
  (∀ c x, tab_state dev_vecs (m_intr x) → (PROC_register_syscalls ;; MUTEX_register_syscalls) (m_sys x) = Ret (tt, boot_table) →
    blank_con (color (con_vga (b_con m))) c → wp next (set_b_flag true (Machine c x (b_k m) (b_pit m))) Q) →
  wp (on_part get_vga put_vga (vga_clear junk) ;;
      on_part get_mach put_mach (on_mintr interrupts_init) ;;
      on_part get_intr_ser put_intr_ser (serial_init ser_buf) ;;
      on_part get_mach put_mach syscall_init ;; next) m Q.
Proof.
  intros [R1 R2 R3 R4 R5 R6 R7 R8 R9] Ha Hl HQ. wp_step. apply on_part_spec.
  destruct (vga_clear_correct junk (get_vga m)) as (v & Ev & V1 & V2 & V3); [by destruct R1|]. eapply wp_of_eq; [exact Ev|]. cbn [color get_vga set_v_ints] in V3.
  wp_step. apply on_part_spec. set (m1 := put_vga v m).
  apply on_mintr_spec. eapply wp_mono; [apply (tab_init (m_intr (get_mach m1))); [exact R2|exact R3|exact R4|exact Ha]|]. cbv beta. intros _ i1 [Hi On1].
  wp_step. apply on_part_spec. eapply wp_mono; [apply (serial_init_spec _ ser_buf _ _ (tab_int_on _ _ _ Hi)); [by vm_compute|done]|]. cbv beta. intros _ [i2 s2] (Hi2 & S1 & S2 & S3 & _). cbn [Datatypes.fst Datatypes.snd] in *.
  wp_step. apply on_part_spec. eapply wp_mono; [eapply syscall_init_spec; [apply tab_int_on, Hi2|by vm_compute|exact R5]|]. cbv beta. intros _ x (Hx & On & Hs).
  unfold put_mach. rewrite On. apply (HQ (Con v s2) x Hx Hs). exact (Build_blank_con _ (Con v s2) (conj V1 (conj V2 V3)) (conj S1 S2)).
Qed.

(** A multiboot structure: the memory map before the sections of the kernel, one of which
    covers each of the two static page tables. *)
Record loaded (mm : mem) (h mp el : Z) (fuel : nat) : Prop := {
  ld_tags : ∃ pre mid post, let ts := pre ++ (TAG_TYPE_MMAP, mp) :: mid ++ (TAG_TYPE_ELF, el) :: post in
    tag_seq mm (h + 8) (h + rd32 mm h) ts ∧ Forall other_tag (pre ++ mid ++ post) ∧ (length ts < fuel)%nat;
  ld_map : mmap_ok mm mp;
  ld_sections : sections_ok mm el;
  ld_tables f : f = ptable_p4 ∨ f = ptable_p3_identity → ∃ i, 0 ≤ i < sect_count mm el ∧ frame_overlaps (sect_start mm el i) (sect_end mm el i) f
}.

(** The frames that can be handed out. *)
Definition usable_frame (mm : mem) (mp el f : Z) : Prop :=
  (∃ i, 0 ≤ i < ent_count mm mp ∧ ent_page mm mp i f) ∧ ∀ i, 0 ≤ i < sect_count mm el → ¬ frame_overlaps (sect_start mm el i) (sect_end mm el i) f.

(** Memory: the tags, then the kernel's page tables and the page-fault handler. *)
Lemma boot_memory fuel h mp el T m (next : M (machine P U) unit) Q :
  VpagesKernel.layout_ok → free_frames (b_mem m) = INVALID_FRAME_ADDR → frames_inv (b_mem m) [] → loaded (pmem (b_mem m)) h mp el fuel →
  tab_state T (m_intr (b_mach m)) → T !! 14 = None →
  (∀ i st p, tab_state (<[14 := Vec 0 TYPE_TRAPGATE 0 ISR14_PAGE_FAULT]> T) i → (∀ f, f ∈ p → usable_frame (pmem (b_mem m)) mp el f) →
    identity_mapped 512 (pmem st) ptable_p4 → Frames.cr3 st = ptable_p4 → kernel_cr3 st = ptable_p4 → kernel_va st = VA_KHEAP_BASE → space st ptable_p4 2 28 p →
    wp next (set_b_flag true (Machine (b_con m) (Mach i (m_sys (b_mach m)) (m_cpu (b_mach m))) (set_env (Heap st (pools (env (b_k m)))) (b_k m)) (b_pit m))) Q) →
  wp (on_part b_mem set_b_mem (parse_mboot_tags fuel h) ;; MMU_init ;; next) m Q.
Proof.
  intros Hlay Hff Hfi [(pre & mid & post & L1 & L2 & L3) Lm Ls Lt] Ht Hn HQ. wp_step. apply on_part_spec.
  eapply wp_mono; [by apply (parse_mboot_tags_spec (b_mem m) h pre mp mid el post fuel)|]. cbv beta. intros _ st1 (_ & p & Hp & Hu).
  assert (∀ f, f = ptable_p4 ∨ f = ptable_p3_identity → f ∉ p) as Hnin by (intros f Hf Hin; destruct (Lt f Hf) as (i & Hi & Ho); by apply (proj2 (Hu f Hin) i Hi)).
  unfold MMU_init. wp_step. wp_step. apply on_part_spec. eapply wp_mono; [apply (kernel_map_spec st1 p Hlay Hp); apply Hnin; auto|]. cbv beta zeta. intros _ st2 (I1 & I2 & I3 & I4 & I5).
  wp_step. apply on_part_spec, wp_modify. eapply wp_mono; [apply (b_register_spec T); [exact Ht|lia|lia|unfold TYPE_TRAPGATE; lia|lia|exact Hn]|]. cbv beta. intros _ m' (i & -> & Hi).
  exact (HQ i (set_kernel_va VA_KHEAP_BASE st2) p Hi Hu I1 I2 I3 I4 I5).
Qed.

Lemma register_syscalls_spec (x : mach P) (t : sys_table) Q :
  (PROC_register_syscalls ;; MUTEX_register_syscalls) (m_sys x) = Ret (tt, t) → Q tt (Mach (m_intr x) t (m_cpu x)) → wp register_syscalls x Q.
Proof.
  intros E HQ. unfold wp, register_syscalls, bind, on_sys in *. destruct (PROC_register_syscalls (m_sys x)) as [[[] t1]| |]; [|done..]. cbn [m_sys m_intr m_cpu].
  destruct (MUTEX_register_syscalls t1) as [[[] t2]| |]; [|done..]. by injection E as ->.
Qed.

(** The timer: mode 2 on channel 0, and the divisor, low byte first. *)
Definition pit_writes : list (Z * Z) := [(MODE_PORT, 0x34); (CHAN0_PORT, PIT_DIVISOR mod 2 ^ 8); (CHAN0_PORT, PIT_DIVISOR / 2 ^ 8)].

Lemma pit_init_spec T m : tab_state T (m_intr (b_mach m)) → T !! 32 = None →
  wp pit_init m (λ _ m', ∃ i, m' = set_b_flag true (Machine (b_con m) (Mach i (m_sys (b_mach m)) (m_cpu (b_mach m))) (b_k m) (b_pit m ++ pit_writes)) ∧
    tab_state (<[32 := Vec 0 TYPE_INTRGATE 0 ISR32_pit]> T) i).
Proof.
  intros Ht Hn. unfold pit_init. wp_step. apply wp_gets. do 4 (wp_step; apply wp_modify). wp_step.
  eapply wp_mono; [apply (b_register_spec T); [exact Ht|lia|lia|unfold TYPE_INTRGATE; lia|lia|exact Hn]|]. cbv beta. intros _ m' (i & -> & Hi).
  cbn [b_con b_mach b_k b_pit set_b_flag m_sys m_cpu]. rewrite <-!(assoc_L app).
  destruct (b_flag m); [apply wp_modify|apply wp_ret]; exists i; (split; [reflexivity|exact Hi]).
Qed.

Lemma blank_get col m : blank_con col (b_con m) → b_flag m = true → ∀ junk, con_ok junk (get_con m) ∧ blank_con col (get_con m).
Proof.
  intros [(V1 & V2 & V3) ([S1 S2 S3] & S4)] Hf junk. split.
  - split; [by destruct V1|by split|done|right; exact Hf].
  - split; [split; [by destruct V1|split; [exact V2|exact V3]]|split; [by split|exact S4]].
Qed.

Lemma printk_text junk buf msg text n c : length buf = BUF_SIZE → con_ok junk c → format (items msg) [] = Some (text, n) →
  wp (printk junk buf msg []) c (λ _ c', shown junk text c c').
Proof.
  intros Hl Hc Hf. unfold printk. eapply wp_mono; [apply (printk_loop_spec junk buf Hl (length msg) msg [] 0 c text n); [reflexivity|exact Hc|reflexivity|exact Hf]|].
  cbv beta. intros r c' [_ H]. exact H.
Qed.

Lemma boot_message_format : format (items boot_message) [] = Some (boot_message, 48).
Proof. vm_compute. reflexivity. Qed.

Lemma mstart_env {E} `{!KernelEnv E, !KernelEnvLaws E} (s : kst E) R Q e : mstart s R Q → mstart (set_env e s) R Q.
Proof. intros [H1 H2 H3 H4 H5 H6]. split; try done. by apply tasks_env. Qed.

Lemma fresh_env {E} (s : kst E) e : fresh s → fresh (set_env e s).
Proof. intros [H1 H2 H3 H4 H5 H6]. by split. Qed.

(** Everything the theorems on the components assume of the running system. *)
Record booted junk m mp el m' : Prop := {
  bo_tables : tab_state boot_vecs (m_intr (b_mach m'));
  bo_syscalls : m_sys (b_mach m') = boot_table;
  bo_frames : ∃ p, (∀ f, f ∈ p → usable_frame (pmem (b_mem m)) mp el f) ∧ space (b_mem m') ptable_p4 2 28 p ∧
    heap_inv (env (b_k m')) (replicate 6 []) [] (Z.of_nat (length p)) (28 * 2 ^ 27);
  bo_map : Frames.cr3 (b_mem m') = ptable_p4 ∧ kernel_cr3 (b_mem m') = ptable_p4 ∧ identity_mapped 512 (pmem (b_mem m')) ptable_p4;
  bo_tasks : mstart (b_k m') (RRQ [] []) (λ _, []) ∧ curr_proc (b_k m') = main_thread ∧ process_at (b_k m') = {[ kernel_process := first_process ptable_p4 ]};
  bo_console : ∃ c, blank_con (color (con_vga (b_con m))) c ∧ shown junk boot_message c (b_con m');
  bo_timer : b_pit m' = pit_writes;
  bo_flag : b_flag m' = true
}.

Lemma heap_start st p b : space st ptable_p4 2 28 p → Frames.cr3 st = ptable_p4 → kernel_va st = VA_KHEAP_BASE →
  space (set_int_flag b st) ptable_p4 2 28 p ∧ heap_inv (Heap (set_int_flag b st) pools_init) (replicate 6 []) [] (Z.of_nat (length p)) (28 * 2 ^ 27).
Proof.
  intros Hs Hc Hv. assert (space (set_int_flag b st) ptable_p4 2 28 p) as Hs' by (by apply space_int_flag). split; [done|]. split; [|apply heap_data_init].
  exists p. cbn [vm Frames.cr3 kernel_va set_int_flag]. rewrite Hc, Hv. split; [done|]. split; [done|]. by split_and!.
Qed.

(** Tasks, timer and message. *)
Lemma boot_tasks junk buf sp T col m h : tab_state T (m_intr (b_mach m)) → T !! 32 = None →
  (PROC_register_syscalls ;; MUTEX_register_syscalls) (m_sys (b_mach m)) = Ret (tt, boot_table) → blank_con col (b_con m) → fresh (b_k m) → env (b_k m) = h → b_flag m = true →
  main_thread ≠ 0 → kernel_process ≠ 0 → length buf = BUF_SIZE →
  wp (on_part get_mach put_mach register_syscalls ;; b_PROC_run sp ;; pit_init ;; on_part get_con put_con (printk junk buf boot_message []) ;; ret tt) m (λ _ m',
    tab_state (<[32 := Vec 0 TYPE_INTRGATE 0 ISR32_pit]> T) (m_intr (b_mach m')) ∧ m_sys (b_mach m') = boot_table ∧ env (b_k m') = h ∧
    mstart (b_k m') (RRQ [] []) (λ _, []) ∧ curr_proc (b_k m') = main_thread ∧ process_at (b_k m') = {[ kernel_process := first_process (ke_kernel_p4 h) ]} ∧
    (∃ c, blank_con col c ∧ shown junk boot_message c (b_con m')) ∧ b_pit m' = b_pit m ++ pit_writes).
Proof.
  intros Ht Hn Hsys Hc Hk Hh Hf Hm Hp Hb. assert (ke_set_ints true h = h) as Eh by (rewrite <-Hf; unfold b_flag; rewrite Hh; apply ke_set_ints_same).
  wp_step. apply on_part_spec. eapply register_syscalls_spec; [exact Hsys|]. unfold put_mach. cbn [m_intr int_on get_mach set_int_on m_cpu]. rewrite Hf.
  wp_step. unfold b_PROC_run. wp_step. apply wp_gets. wp_step. apply on_part_spec. cbn [b_k set_b_flag].
  eapply wp_mono; [apply (PROC_run_spec _ sp (fresh_env _ _ Hk) Hm Hp)|]. cbv beta. intros _ k1 (_ & Hr1 & He1). cbn [env set_env] in He1. rewrite Hh, Eh in He1.
  apply wp_modify. set (m1 := set_b_flag _ _).
  assert (mstart (b_k m1) (RRQ [] []) (λ _, []) ∧ curr_proc (b_k m1) = main_thread ∧ process_at (b_k m1) = {[ kernel_process := first_process (ke_kernel_p4 h) ]} ∧ env (b_k m1) = h) as (K1 & K2 & K3 & K4).
  { split; [apply mstart_env, (running_first_start _ _ (fresh_env _ _ Hk) Hr1 Hm)|]. destruct Hr1 as (_ & P1 & _ & _ & _ & _ & _ & _ & _ & P2 & _).
    split; [exact P2|]. split; [etransitivity; [exact P1|]; cbn [env set_env]; by rewrite Hh, Eh|]. cbn [m1 b_k set_b_flag env set_env put_k]. rewrite He1, ke_set_ints_set. exact Eh. }
  assert (b_flag m1 = true) as F1 by (unfold b_flag; rewrite K4, <-Eh; apply ke_ints_set).
  wp_step. eapply wp_mono; [apply (pit_init_spec T m1); [by apply tab_int_on|exact Hn]|]. cbv beta. intros _ m2 (i & -> & Hi). set (m2 := set_b_flag _ _).
  wp_step. apply on_part_spec. destruct (blank_get col m2 Hc (ke_ints_set _ _) junk) as [C1 C2].
  eapply wp_mono; [apply (printk_text junk buf boot_message _ _ _ Hb C1 boot_message_format)|]. cbv beta. intros _ c Hc'. apply wp_ret.
  assert (con_flag c = true) as Fc.
  { destruct (serial_string_spec boot_message (con_ser (get_con m2)) (co_ser _ _ C1)) as (s' & Es & _ & Ef). destruct Hc' as (_ & _ & Es'). rewrite Es in Es'. injection Es' as ->. exact Ef. }
  split; [exact Hi|]. split; [reflexivity|]. split; [|split; [by apply mstart_env, mstart_env|split; [exact K2|split; [exact K3|split; [by exists (get_con m2)|reflexivity]]]]].
  unfold put_con. rewrite Fc. cbn [b_k set_b_flag env set_env m2]. rewrite K4, !Eh. reflexivity.
Qed.

(** C6: from zeroed static variables and a well-formed multiboot structure, the start of the kernel comes to its end,
    and the running system is as the components assume: the six vectors of the kernel with their gates, stacks and
    handlers and no other, the system call gate open to user mode; only the lines of the timer, the serial port and the
    cascade (and line 15) unmasked; the table of the sixteen system calls; a pool of
    usable frames outside of the kernel's sections under an empty heap; the identity map in CR3; the scheduler with the main
    thread of process 0 and nothing else; the message on both consoles; the timer programmed with its divisor; interrupts on. *)
Theorem kernel_start_correct junk buf ser_buf fuel h mp el sp m :
  at_reset m → loaded (pmem (b_mem m)) h mp el fuel → VpagesKernel.layout_ok → 0 ≤ tss_addr < 2 ^ 64 → main_thread ≠ 0 → kernel_process ≠ 0 →
  length buf = BUF_SIZE → length ser_buf = Z.to_nat SER_BUFFER_SIZE →
  ∃ m', kernel_start junk buf ser_buf fuel h sp m = Ret (tt, m') ∧ booted junk m mp el m'.
Proof.
  intros Hr Hld Hlay Ha Hm Hk Hb Hs. cut (wp (kernel_start junk buf ser_buf fuel h sp) m (λ _ m', booted junk m mp el m')); [intros ([] & m' & ? & ?)%wp_iff; eauto|].
  pose proof Hr as [R1 R2 R3 R4 R5 R6 R7 [R8 R8'] R9]. unfold kernel_start. apply boot_devices; [done..|]. intros c x Hx Hsys Hc.
  apply (boot_memory fuel h mp el dev_vecs); [exact Hlay|exact R8|by eapply frames_inv_state|exact Hld|exact Hx|by vm_compute|].
  intros i st p Hi Hu I1 I2 I3 I4 I5. destruct (heap_start st p true I5 I2 I4) as [Sp Hh]. rewrite <-R7 in Hh.
  eapply wp_mono; [eapply boot_tasks; [exact Hi|by vm_compute|exact Hsys|exact Hc|apply fresh_env, fresh_env, fresh_env, R6|reflexivity|reflexivity|exact Hm|exact Hk|exact Hb]|].
  cbv beta. intros _ m' (B1 & B2 & B3 & B4 & B5 & B6 & B7 & B8). cbn [env set_env b_k set_b_flag pools ke_set_ints heap_env vm] in B3, B6.
  assert (b_mem m' = set_int_flag true st) as Em by (unfold b_mem; rewrite B3; reflexivity).
  split; [exact B1|exact B2| | |split; [exact B4|split; [exact B5|]]|exact B7| |].
  - exists p. split; [exact Hu|]. rewrite Em, B3. split; [exact Sp|exact Hh].
  - rewrite Em. exact (conj I2 (conj I3 I1)).
  - rewrite B6. cbn. by rewrite I3.
  - etransitivity; [exact B8|]. cbn. by rewrite R9.
  - unfold b_flag. rewrite B3. reflexivity.
Qed.
End start.

(** ** A machine at reset *)

(** Usable memory of 16 KiB at 1 MiB, of which the kernel's section holds the two page tables. *)
Definition reset_mem : mem :=
  let a := 0x9030 in
  wr64 (wr64 (wr32 (wr32 (wr32 (put_mmap_tag 0x9008 (wr32 ∅ 0x9000 136)) a TAG_TYPE_ELF) (a + 4) 84) (a + 8) 1) (a + 36) 0x101000) (a + 52) 0x2000.

#[local] Instance reset_layout : KLayout := {| ptable_p4 := 0x101000; ptable_p3_identity := 0x102000 |}.
#[local] Instance reset_heap : HeapLayout := {| pools_addr := 0x103000 |}.

Definition reset_machine : machine (chip * chip) uart16550 :=
  Machine (Con (Vga 0 0 7 (replicate 2000 0) false) (Ser 0 (Bbm (BBuf [] 0 0 0) false) (Uart [] 0))) (Mach boot_intr (replicate 256 None) user_cpu)
    (KState ∅ ∅ ∅ ∅ 0 0 0 0 0 0 1 1 false 0 1 0 (Heap (boot_mst reset_mem unused_region) pools_init)) [].

Lemma reset_loaded : loaded reset_mem 0x9000 0x9008 0x9030 5.
Proof.
  assert (ent_count reset_mem 0x9008 = 1) as Hc by (vm_compute; reflexivity). assert (sect_count reset_mem 0x9030 = 1) as Hs by (vm_compute; reflexivity). split.
  - exists [], [], []. split; [vm_compute; repeat split; discriminate|]. split; [constructor|cbn; lia].
  - split; [vm_compute; discriminate|]. rewrite Hc. split; [|lia]. intros i Hi _. replace i with 0 by lia. vm_compute. discriminate.
  - intros i Hi. rewrite Hs in Hi. replace i with 0 by lia. vm_compute. reflexivity.
  - intros f Hf. exists 0. rewrite Hs. split; [lia|]. destruct Hf as [->| ->]; vm_compute; split; reflexivity.
Qed.

Lemma reset_ok : at_reset reset_machine.
Proof.
  split; [split; [cbn; unfold VGA_HEIGHT; lia|cbn; unfold VGA_WIDTH; lia|by vm_compute]|apply length_replicate|apply length_replicate|exact boot_handlers|reflexivity| |reflexivity| |reflexivity].
  - split; try done.
  - split; [reflexivity|]. by apply (boot_mst_inv reset_mem unused_region).
Qed.

Lemma kernel_start_witness :
  ∃ m', kernel_start true (replicate 32 0) (replicate 2048 0) 5 0x9000 0x7000 reset_machine = Ret (tt, m') ∧
    handler_at (m_intr (b_mach m')) 32 = Some ISR32_pit ∧ masked (pic (m_intr (b_mach m'))) 0 = false ∧ masked (pic (m_intr (b_mach m'))) 1 = true ∧ b_flag m' = true.
Proof.
  destruct (kernel_start_correct true (replicate 32 0) (replicate 2048 0) 5 0x9000 0x9008 0x9030 0x7000 reset_machine) as (m' & E & [[_ _ Hv Hm _ _] _ _ _ _ _ _ Hf]).
  - exact reset_ok.
  - exact reset_loaded.
  - split; [split; [|split]; vm_compute; (reflexivity || discriminate)..|discriminate].
  - cbn. lia.
  - discriminate.
  - discriminate.
  - reflexivity.
  - apply length_replicate.
  - exists m'. split; [exact E|]. split; [exact (proj2 (Hv 32 ltac:(lia)))|]. rewrite !Hm by lia. split; [reflexivity|]. split; [reflexivity|exact Hf].
Defined.
