(* ===== verification/Counter.v ===== *)
(** * Counting under a mutex ([counter_thread] of [userspace/init.c])

    The threads of the demonstration run on the kernel of [MutexSystem]: each goes through its
    loop one access at a time, the current thread makes the next step, and the timer may
    switch between any two of them.  Both counters are variables of the process; the threads' output is
    left out. *)

From S2P Require Import Prelude Kernel KernelExample RoundRobin TaskQueue TaskQueueProofs Mutex MutexProofs MutexSystem MutexTheorems.

Definition THREAD_COUNT : Z := 3.
Definition THREAD_ITERS : Z := 100000.
Definition RACE_YIELD_EVERY : Z := 8.

(** Where a thread is in turn [i] of its loop: at the loop's test; with the unlocked counter read;
    before its store; before [mutex_lock]; waiting in it; before the read and the write under the lock; before
    [mutex_unlock]; or at [thread_exit], with [n] turns done. *)
Inductive pc :=
  | P_loop (i : Z) | P_snap (i v : Z) | P_store (i v : Z) | P_lock (i : Z) | P_wait (i : Z)
  | P_read (i : Z) | P_write (i v : Z) | P_unlock (i : Z) | P_exit (n status : Z).
#[export] Instance pc_dec : EqDecision pc.
Proof. solve_decision. Defined.

(** A step on the counters: the new place and the two counters. *)
Definition counter_step (status : Z) (p : pc) (shared locked : Z) : option (pc * Z * Z) :=
  match p with
  | P_loop i => Some (if i <? THREAD_ITERS then P_snap i shared else P_exit i status, shared, locked)
  | P_snap i v => if i mod RACE_YIELD_EVERY =? 0 then None else Some (P_store i v, shared, locked)
  | P_store i v => Some (P_lock i, u64 (v + 1), locked)
  | P_read i => Some (P_write i locked, shared, locked)
  | P_write i v => Some (P_unlock i, shared, u64 (v + 1))
  | _ => None
  end.

(** After a lock, and after an unlock, whose results are C [int]s. *)
Definition after_lock (i : Z) (r : sysres) : pc :=
  match r with SDone v => if i32 v <? 0 then P_exit i 90 else P_read i | SBlocked _ => P_wait i end.
Definition after_unlock (i r : Z) : pc := if i32 r <? 0 then P_exit (i + 1) 91 else P_loop (i + 1).

(** The kernel, the threads of the demonstration, and the counters. *)
Record prog (E : Type) := Prog { p_conf : mconf (E := E); p_pc : gmap Z pc; p_shared : Z; p_locked : Z }.
Arguments Prog {E}.
Arguments p_conf {E}.
Arguments p_pc {E}.
Arguments p_shared {E}.
Arguments p_locked {E}.

Section counter.
Context {E : Type} {KE : KernelEnv E} {KL : KernelEnvLaws E} {TL : TaskLayout}.
Implicit Types (c : mconf (E := E)) (T : gmap Z pc).

(** [targ->status] of each thread, [counter_mutex.id], and the process. *)
Variable status : Z → Z.
Variable mid : Z.
Variable pr : Z.

Definition running c : Z := curr_proc (mc_kernel c).

(** Threads stay in their processes, and nobody else destroys the mutex. *)
Definition leaves c c' : Prop :=
  keeps owner (thread_at (mc_kernel c)) (thread_at (mc_kernel c')) ∧
  ∀ m x, is_mutex (mc_kernel c) pr mid m x → ∃ x', is_mutex (mc_kernel c') pr mid m x'.

Inductive cstep : prog E → prog E → Prop :=
  | c_local c T sh lk p p' sh' lk' : T !! running c = Some p → mc_cont c !! running c = None → counter_step (status (running c)) p sh lk = Some (p', sh', lk') →
      cstep (Prog c T sh lk) (Prog c (<[running c := p']> T) sh' lk')
  | c_yield s C H T sh lk i v sp r s' : T !! curr_proc s = Some (P_snap i v) → i mod RACE_YIELD_EVERY = 0 → yield sp s = Ret (r, s') →
      cstep (Prog (MConf s C H) T sh lk) (Prog (MConf s' C H) (<[curr_proc s := P_store i v]> T) sh lk)
  | c_lock s C H T sh lk i sp r s' : T !! curr_proc s = Some (P_lock i) → curr_proc s ≠ main_thread → C !! curr_proc s = None → syscall_mutex_lock mid sp s = Ret (r, s') →
      cstep (Prog (MConf s C H) T sh lk) (Prog (MConf s' (call_conts (curr_proc s) r C) (call_holds (curr_proc s) mid r H)) (<[curr_proc s := after_lock i r]> T) sh lk)
  | c_resume s C H T sh lk i m sp r s' : T !! curr_proc s = Some (P_wait i) → curr_proc s ≠ main_thread → C !! curr_proc s = Some (KLock mid m) → lock_resume mid m sp s = Ret (r, s') →
      cstep (Prog (MConf s C H) T sh lk) (Prog (MConf s' (call_conts (curr_proc s) r C) (call_holds (curr_proc s) mid r H)) (<[curr_proc s := after_lock i r]> T) sh lk)
  | c_unlock s C H T sh lk i r s' : T !! curr_proc s = Some (P_unlock i) → curr_proc s ≠ main_thread → C !! curr_proc s = None → syscall_mutex_unlock mid s = Ret (r, s') →
      cstep (Prog (MConf s C H) T sh lk) (Prog (MConf s' C (if r =? 0 then H ∖ {[ (curr_proc s, mid) ]} else H)) (<[curr_proc s := after_unlock i r]> T) sh lk)
  | c_preempt s C H T sh lk sp r s' : yield sp s = Ret (r, s') → cstep (Prog (MConf s C H) T sh lk) (Prog (MConf s' C H) T sh lk)
  | c_other c c' T sh lk : T !! running c = None → mstep c c' → leaves c c' → cstep (Prog c T sh lk) (Prog c' T sh lk).

(** The mutex belongs to the process of the threads. *)
Definition ours c T : Prop :=
  pr ≠ 0 ∧ mid ≠ 0 ∧ (∃ m x, is_mutex (mc_kernel c) pr mid m x) ∧ map_Forall (λ t _, owner <$> thread_at (mc_kernel c) !! t = Some pr) T.

(** The threads start at their loops, with both counters zero and the mutex free of them. *)
Record cstart (x : prog E) : Prop := {
  cs_reach : mreach (p_conf x);
  cs_zero : p_shared x = 0 ∧ p_locked x = 0;
  cs_threads : map_Forall (λ t p, p = P_loop 0 ∧ (t, mid) ∉ mc_holds (p_conf x)) (p_pc x);
  cs_few : Z.of_nat (size (p_pc x)) * THREAD_ITERS < 2 ^ 64;
  cs_ours : ours (p_conf x) (p_pc x)
}.

Definition creach (x : prog E) : Prop := ∃ x0, cstart x0 ∧ rtc cstep x0 x.

(** ** Increments *)

(** The increments of the locked counter a thread has made. *)
Definition incs (p : pc) : Z :=
  match p with
  | P_loop i | P_snap i _ | P_store i _ | P_lock i | P_wait i | P_read i | P_write i _ => i
  | P_unlock i => i + 1
  | P_exit n _ => n
  end.

Definition total T : Z := map_fold (λ _ p n, incs p + n) 0 T.

(** Between the lock and the unlock. *)
Definition inside (p : pc) : bool := match p with P_read _ | P_write _ _ | P_unlock _ => true | _ => false end.

Lemma total_update T t p p' : T !! t = Some p → total (<[t := p']> T) = total T - incs p + incs p'.
Proof.
  intros Hp. unfold total. rewrite (map_fold_delete_L (λ _ p n, incs p + n) 0 t p T) by (done || (intros; lia)).
  rewrite <-insert_delete_eq, map_fold_insert_L by (rewrite ?lookup_delete_eq; done || (intros; lia)). lia.
Qed.

Lemma total_bound T : map_Forall (λ _ p, 0 ≤ incs p ≤ THREAD_ITERS) T → 0 ≤ total T ≤ Z.of_nat (size T) * THREAD_ITERS.
Proof.
  induction T as [|t p T Hn IH] using map_ind; [by intros _; rewrite map_size_empty|]. intros [H1 H2]%map_Forall_insert; [|done]. specialize (IH H2).
  unfold total in *. rewrite map_fold_insert_L, map_size_insert_None by (done || (intros; lia)). unfold THREAD_ITERS in *. lia.
Qed.

(** A thread's place, given the locked counter and who holds the mutex. *)
Definition turn_ok (p : pc) : Prop :=
  match p with
  | P_loop i => 0 ≤ i ≤ THREAD_ITERS
  | P_snap i _ | P_store i _ | P_lock i | P_wait i | P_read i | P_write i _ | P_unlock i => 0 ≤ i < THREAD_ITERS
  | P_exit n _ => 0 ≤ n ≤ THREAD_ITERS
  end.

Record pc_ok c (lk t : Z) (p : pc) : Prop := {
  po_turn : turn_ok p;
  po_holds : inside p = true ↔ (t, mid) ∈ mc_holds c;
  po_snap i v : p = P_write i v → v = lk;
  po_exit n st : p = P_exit n st → n = THREAD_ITERS ∧ st = status t
}.

Record cinv (x : prog E) : Prop := {
  ci_good : mgood (p_conf x);
  ci_few : Z.of_nat (size (p_pc x)) * THREAD_ITERS < 2 ^ 64;
  ci_total : p_locked x = total (p_pc x);
  ci_pc t p : p_pc x !! t = Some p → pc_ok (p_conf x) (p_locked x) t p;
  ci_ours : ours (p_conf x) (p_pc x)
}.

Lemma turn_incs p : turn_ok p → 0 ≤ incs p ≤ THREAD_ITERS.
Proof. destruct p; cbn; lia. Qed.

(** One thread at a time holds the mutex. *)
Lemma holds_one c t t' : mgood c → (t, mid) ∈ mc_holds c → (t', mid) ∈ mc_holds c → t = t'.
Proof.
  intros (R & Q & L & Hi) H1 H2. pose proof (mi_links _ _ _ _ _ _ Hi) as Hl. apply (ml_holds _ _ _ _ _ Hl) in H1 as (_ & m1 & V1), H2 as (_ & m2 & V2).
  pose proof (ml_unique _ _ _ _ _ Hl m1 m2 mid t t' V1 V2) as <-. congruence.
Qed.

(** The other threads keep what they hold. *)
Lemma pc_ok_holds c c' lk t p : ((t, mid) ∈ mc_holds c' ↔ (t, mid) ∈ mc_holds c) → pc_ok c lk t p → pc_ok c' lk t p.
Proof. intros Hh [H1 H2 H3 H4]. split; [done|by rewrite Hh|done|done]. Qed.

Lemma leaves_ours c c' T T' : ours c T → leaves c c' → dom T' = dom T → ours c' T'.
Proof.
  intros (H1 & H2 & (m & x & Hm) & H3) [L1 L2] Hd. split; [done|]. split; [done|]. split; [exists m; by apply (L2 m x)|].
  intros t p Hp. rewrite (L1 t). assert (t ∈ dom T) as [q Hq]%elem_of_dom by (rewrite <-Hd; apply elem_of_dom; eauto). by apply (H3 t q).
Qed.

Lemma leaves_refl c : leaves c c.
Proof. split; [done|]. eauto. Qed.

(** One thread moves without an increment. *)
Lemma cinv_move c c' T sh lk sh' t p p' :
  cinv (Prog c T sh lk) → mgood c' → leaves c c' → T !! t = Some p → incs p' = incs p → pc_ok c' lk t p' →
  (∀ t', t' ≠ t → (t', mid) ∈ mc_holds c' ↔ (t', mid) ∈ mc_holds c) → cinv (Prog c' (<[t := p']> T) sh' lk).
Proof.
  intros [H1 H2 H3 H4 H5] Hg Hl Hp Hi Hok Hh. cbn in *. split; cbn; [done|rewrite map_size_insert_Some by eauto; done|rewrite (total_update T t p p' Hp); lia| |].
  - intros t' q [[<- <-]|[Hne Hq]]%lookup_insert_Some; [done|]. eapply pc_ok_holds; [|by apply H4]. by apply Hh.
  - eapply leaves_ours; [done|done|]. apply dom_insert_lookup_L. eauto.
Qed.

Lemma cinv_others c c' T sh lk : cinv (Prog c T sh lk) → mgood c' → leaves c c' → (∀ t, is_Some (T !! t) → (t, mid) ∈ mc_holds c' ↔ (t, mid) ∈ mc_holds c) → cinv (Prog c' T sh lk).
Proof.
  intros [H1 H2 H3 H4 H5] Hg Hl Hh. split; [done..| |by eapply leaves_ours]. cbn in *. intros t p Hp. eapply pc_ok_holds; [|by apply H4]. apply Hh. eauto.
Qed.

Lemma cinv_write c T sh t i v : cinv (Prog c T sh v) → T !! t = Some (P_write i v) → cinv (Prog c (<[t := P_unlock i]> T) sh (u64 (v + 1))).
Proof.
  intros [H1 H2 H3 H4 H5] Hp. cbn in *. pose proof (H4 t _ Hp) as [Ht Hh _ _].
  assert (total (<[t := P_unlock i]> T) = v + 1) as Et by (rewrite (total_update T t _ _ Hp); cbn; lia).
  assert (Z.of_nat (size (<[t := P_unlock i]> T)) * THREAD_ITERS < 2 ^ 64) as Hs by (rewrite map_size_insert_Some by eauto; done).
  assert (0 ≤ v + 1 < 2 ^ 64) as Hv.
  { rewrite <-Et. destruct (total_bound (<[t := P_unlock i]> T)) as [Hb1 Hb2]; [|lia].
    intros t' q [[<- <-]|[_ Hq]]%lookup_insert_Some; apply turn_incs; [exact Ht|]. by apply (H4 t'). }
  rewrite u64_small by done. split; cbn; [done|done|done| |eapply leaves_ours; [done|apply leaves_refl|apply dom_insert_lookup_L; eauto]]. intros t' q [[<- <-]|[Hne Hq]]%lookup_insert_Some.
  - by split.
  - destruct (H4 t' q Hq) as [Q1 Q2 Q3 Q4]. split; [done|done| |done]. intros i' v' ->. destruct Hne. by apply (holds_one c t t' H1); [apply Hh|apply Q2].
Qed.

Lemma cinv_local c T sh lk p p' sh' lk' :
  cinv (Prog c T sh lk) → T !! running c = Some p → counter_step (status (running c)) p sh lk = Some (p', sh', lk') → cinv (Prog c (<[running c := p']> T) sh' lk').
Proof.
  intros Hi Hp Hs. pose proof (ci_pc _ Hi _ _ Hp) as [K1 K2 K3 K4]. cbn in K2, K3.
  assert (∀ q sh', incs q = incs p → turn_ok q → inside q = inside p → (∀ i v, q = P_write i v → v = lk) →
    (∀ n st, q = P_exit n st → n = THREAD_ITERS ∧ st = status (running c)) → cinv (Prog c (<[running c := q]> T) sh' lk)) as Hmv.
  { intros q sh1 Hq Ht Hin Hw He. eapply (cinv_move c c T sh lk sh1 _ p q Hi (ci_good _ Hi) (leaves_refl c) Hp Hq); [|done]. split; [done| |done|done]. by rewrite Hin. }
  destruct p as [i|i v|i v|i|i|i|i v|i|n st]; cbn in Hs; try done; [| | | |].
  - injection Hs as <- <- <-. destruct (i <? THREAD_ITERS) eqn:Ei; bool_prop; cbn in K1; apply Hmv; try done; cbn; [lia|]. intros n st [= <- <-]. split; [lia|done].
  - destruct (i mod RACE_YIELD_EVERY =? 0); [done|]. injection Hs as <- <- <-. by apply Hmv.
  - injection Hs as <- <- <-. by apply Hmv.
  - injection Hs as <- <- <-. apply Hmv; try done. by intros i' v' [= _ <-].
  - injection Hs as <- <- <-. pose proof (K3 i v eq_refl) as ->. by apply cinv_write.
Qed.

(** ** The kernel's calls *)

Lemma leaves_frame s s' C H C' H' : keeps owner (thread_at s) (thread_at s') → (∀ m, owner_process <$> mutex_at s' !! m = owner_process <$> mutex_at s !! m) →
  (∀ m, mutex_id <$> mutex_at s' !! m = mutex_id <$> mutex_at s !! m) → leaves (MConf s C H) (MConf s' C' H').
Proof.
  intros Ho Hp Hm. split; [done|]. intros m x (H0 & Ex & H1 & H2). cbn in *. specialize (Hp m). specialize (Hm m). rewrite Ex in Hp, Hm.
  destruct (mutex_at s' !! m) as [x'|] eqn:Ex'; [|done]. cbn in *. exists x'. split; [done|]. split; [done|]. injection Hp as ->. by injection Hm as ->.
Qed.

Lemma leaves_block s s' C H C' H' : block_frame s s' → leaves (MConf s C H) (MConf s' C' H').
Proof.
  intros [B1 _ B3 _ _]. apply leaves_frame.
  - intros t. specialize (B1 t). destruct (thread_at s' !! t), (thread_at s !! t); try done. cbn in *. injection B1. congruence.
  - intros m. specialize (B3 m). destruct (mutex_at s' !! m), (mutex_at s !! m); try done. cbn in *. injection B3. congruence.
  - intros m. specialize (B3 m). destruct (mutex_at s' !! m), (mutex_at s !! m); try done. cbn in *. injection B3. congruence.
Qed.

Lemma leaves_env s e C H C' H' : leaves (MConf s C H) (MConf (set_env e s) C' H').
Proof. by apply leaves_frame. Qed.

Lemma leaves_holder s m x p e C H C' H' : mutex_at s !! m = Some x → leaves (MConf s C H) (MConf (set_env e (set_mutex_at (<[m := set_owner_thread p x]> (mutex_at s)) s)) C' H').
Proof.
  intros Ex. apply leaves_frame; [done|..]; intros m'; cbn; (destruct (decide (m' = m)) as [->|]; [by rewrite lookup_insert_eq, Ex|by rewrite lookup_insert_ne]).
Qed.

(** The running thread of the process, and the mutex by its number. *)
Lemma ours_curr c T p : ours c T → T !! running c = Some p → ∃ t, thread_at (mc_kernel c) !! running c = Some t ∧ owner t = pr.
Proof. intros (_ & _ & _ & H) Hp. specialize (H _ _ Hp). cbn in H. apply fmap_Some in H as (t & ? & ?). eauto. Qed.

Lemma lock_works s C H R Q L T p sp :
  minv s C H R Q L → ours (MConf s C H) T → T !! curr_proc s = Some p → curr_proc s ≠ main_thread → C !! curr_proc s = None → (curr_proc s, mid) ∉ H →
  wp (syscall_mutex_lock mid sp) s (λ r s', (r = SDone 0 ∨ ∃ k, r = SBlocked k) ∧ ∀ C' H', leaves (MConf s C H) (MConf s' C' H')).
Proof.
  intros Hi Ho Hp Hne HC Hh. destruct (ours_curr _ _ _ Ho Hp) as (t & Et & Eo). cbn in Et. destruct Ho as (P1 & P2 & (m0 & x0 & Hm0) & _). cbn in Hm0.
  destruct (minv_curr _ _ _ _ _ _ Hi Hne) as (Hc & Hc0 & _). unfold syscall_mutex_lock, caller_process. wp_step. wp_step. apply wp_gets. rewrite (proj2 (Z.eqb_neq _ 0)) by done.
  wp_step. eapply wp_thread; [exact Et|]. rewrite Eo, (proj2 (Z.eqb_neq pr 0)), (proj2 (Z.eqb_neq mid 0)) by done. cbn [orb]. apply wp_ret.
  eapply wp_mono; [apply (lock_turn_spec s R Q L t mid sp); [by eapply minv_can_block|apply Hi|done]|].
  cbv beta. intros r s' Hr. destruct Hr as [e Hno|m x e Hx Ho' _|m x e Hx Ho'|m x s' Hx Ho' Hoc Hb].
  - destruct (Hno m0 x0). by rewrite Eo.
  - pose proof (is_mutex_view _ _ _ _ _ Hx) as Hv. rewrite Ho' in Hv. destruct (ml_owner _ _ _ _ _ (mi_links _ _ _ _ _ _ Hi) m mid _ Hv Hc0) as [?|[? _]]; [done|congruence].
  - split; [by left|]. intros C' H'. by apply leaves_holder; destruct Hx as (_ & ? & _).
  - split; [right; eauto|]. intros C' H'. by apply leaves_block, Hb.
Qed.

Lemma resume_works s C H R Q L m sp : minv s C H R Q L → curr_proc s ≠ main_thread → C !! curr_proc s = Some (KLock mid m) →
  wp (lock_resume mid m sp) s (λ r s', r = SDone 0 ∧ ∀ C' H', leaves (MConf s C H) (MConf s' C' H')).
Proof.
  intros Hi Hne HC. destruct (minv_curr _ _ _ _ _ _ Hi Hne) as (Hc & Hc0 & t & Et). pose proof (mi_tasks _ _ _ _ _ _ Hi) as Ht.
  destruct (ml_cont _ _ _ _ _ (mi_links _ _ _ _ _ _ Hi) _ _ HC) as (_ & id' & m' & o & [= <- <-] & Hv & Ho).
  destruct Ho as [Ho| ->]; [by destruct (tasks_apart _ _ _ _ _ Ht Hc Ho)|]. pose proof Hv as (x & Ex & [= Hid Hox])%fmap_Some.
  unfold lock_resume. wp_step. apply wp_modify. wp_step. eapply wp_mutex; [exact Ex|]. wp_step. apply wp_gets. cbn [curr_proc set_env].
  rewrite <-Hox, Z.eqb_refl. wp_step. apply wp_modify, wp_ret. split; [done|]. intros C' H'. exact (leaves_env s _ C H C' H').
Qed.

Lemma leaves_handed s R Q m s' C H C' H' : handed_over s R Q m s' → leaves (MConf s C H) (MConf s' C' H').
Proof.
  intros (s1 & r & e & [F1 _ F3 _ _ _] & _ & -> & _). apply leaves_frame.
  - intros t. specialize (F1 t). cbn in *. destruct (thread_at s1 !! t), (thread_at s !! t); try done. cbn in *. injection F1. congruence.
  - intros m'. specialize (F3 m'). cbn in *. destruct (decide (m' = m)) as [->|]; [rewrite lookup_alter_eq|rewrite lookup_alter_ne by done];
      destruct (mutex_at s1 !! _), (mutex_at s !! _); try done; cbn in *; injection F3; congruence.
  - intros m'. specialize (F3 m'). cbn in *. destruct (decide (m' = m)) as [->|]; [rewrite lookup_alter_eq|rewrite lookup_alter_ne by done];
      destruct (mutex_at s1 !! _), (mutex_at s !! _); try done; cbn in *; injection F3; congruence.
Qed.

Lemma unlock_works s C H R Q L T p :
  minv s C H R Q L → ours (MConf s C H) T → T !! curr_proc s = Some p → curr_proc s ≠ main_thread → (curr_proc s, mid) ∈ H →
  wp (syscall_mutex_unlock mid) s (λ r s', r = 0 ∧ ∀ C' H', leaves (MConf s C H) (MConf s' C' H')).
Proof.
  intros Hi Ho Hp Hne Hh. destruct (ours_curr _ _ _ Ho Hp) as (t & Et & Eo). cbn in Et. destruct Ho as (P1 & P2 & (m0 & x0 & Hm0) & _). cbn in Hm0.
  destruct (minv_curr _ _ _ _ _ _ Hi Hne) as (Hc & Hc0 & _). pose proof (mi_links _ _ _ _ _ _ Hi) as Hl. destruct (ml_holds _ _ _ _ _ Hl _ _ Hh) as (_ & m & Hv).
  assert (m = m0) as -> by (eapply (ml_unique _ _ _ _ _ Hl); [exact Hv|by apply is_mutex_view in Hm0]).
  eapply wp_mono; [apply (unlock_spec s R Q L t mid); [apply Hi|apply Hi|done|done]|]. cbv beta. intros r s' [(_ & Hno & _)|(-> & m & x & _ & _ & Hho)].
  - exfalso. apply (Hno m0 x0); [by rewrite Eo|by rewrite Eo|done|]. apply is_mutex_view in Hm0. rewrite Hv in Hm0. by injection Hm0.
  - split; [done|]. intros C' H'. by eapply leaves_handed.
Qed.

Lemma yield_leaves s C H sp r s' : mgood (MConf s C H) → yield sp s = Ret (r, s') → leaves (MConf s C H) (MConf s' C H).
Proof.
  intros (R & Q & L & Hi) Er. cbn in Hi. destruct (mi_main _ _ _ _ _ _ Hi) as (M1 & M2 & _).
  assert (curr_proc s ≠ 0 ∧ is_Some (thread_at s !! curr_proc s)) as [Hc0 Hc].
  { destruct (mi_curr _ _ _ _ _ _ Hi) as [->|Hc]; [done|]. destruct (ring_thread s R _ (tk_ring _ _ _ (mi_tasks _ _ _ _ _ _ Hi)) Hc) as (? & t & ?). eauto. }
  pose proof (wp_result _ _ _ _ _ (yield_spec s R Q sp (mi_tasks _ _ _ _ _ _ Hi) (mi_started _ _ _ _ _ _ Hi) M1 M2 Hc0 Hc) Er) as Hy. apply leaves_block, Hy.
Qed.

(** The calls of other threads are about what they hold themselves. *)
Lemma mstep_holds c c' t : mstep c c' → t ≠ running c → (t, mid) ∈ mc_holds c' ↔ (t, mid) ∈ mc_holds c.
Proof.
  intros Hs Hne. destruct Hs as [s C H id sp r s' _ _ _|s C H id m sp r s' _ _ _|s C H id r s' _ _ _|s C H m e r s' _ _ _ _ _ _|s C H id r s' _ _ _ _|s C H sp r s' _]; cbn in *; try done.
  - unfold call_holds. destruct r as [v|]; [destruct (v =? 0)|]; set_solver.
  - unfold call_holds. destruct r as [v|]; [destruct (v =? 0)|]; set_solver.
  - destruct (r =? 0); set_solver.
Qed.

Lemma cinv_locked s C H T sh lk i p r s' :
  cinv (Prog (MConf s C H) T sh lk) → T !! curr_proc s = Some p → p = P_lock i ∨ p = P_wait i → r = SDone 0 ∨ (∃ k, r = SBlocked k) →
  (∀ C' H', leaves (MConf s C H) (MConf s' C' H')) → mgood (MConf s' (call_conts (curr_proc s) r C) (call_holds (curr_proc s) mid r H)) →
  cinv (Prog (MConf s' (call_conts (curr_proc s) r C) (call_holds (curr_proc s) mid r H)) (<[curr_proc s := after_lock i r]> T) sh lk).
Proof.
  intros Hi Hp Hpc Hr Hl Hg. pose proof (ci_pc _ Hi _ _ Hp) as [K1 K2 _ _]. cbn in K2. assert (incs p = i ∧ 0 ≤ i < THREAD_ITERS ∧ inside p = false) as (Hinc & Ht & Hin) by (destruct Hpc as [->| ->]; done).
  eapply (cinv_move _ _ T sh lk sh _ p _ Hi Hg (Hl _ _) Hp).
  - rewrite Hinc. destruct Hr as [->|[k ->]]; done.
  - destruct Hr as [->|[k ->]]; cbn; (split; [done| |done|done]); cbn; [set_solver|]. by rewrite <-K2, Hin.
  - intros t' Hne. destruct Hr as [->|[k ->]]; cbn; [|done]. set_solver.
Qed.

Lemma cstep_inv x x' : cstep x x' → cinv x → cinv x'.
Proof.
  intros Hs Hi. pose proof (ci_good _ Hi) as Hg. pose proof Hg as (R & Q & L & Hm). pose proof (ci_ours _ Hi) as Ho.
  destruct Hs as [c T sh lk p p' sh' lk' Hp _ Hc|s C H T sh lk i v sp r s' Hp Hy Er|s C H T sh lk i sp r s' Hp Hne HC Er|s C H T sh lk i m sp r s' Hp Hne HC Er
    |s C H T sh lk i r s' Hp Hne HC Er|s C H T sh lk sp r s' Er|c c' T sh lk Hn Hs Hl]; cbn in Hg, Hm, Ho.
  - by eapply cinv_local.
  - assert (mgood (MConf s' C H)) as Hg' by (eapply mstep_good; [by eapply step_yield|done]). destruct (ci_pc _ Hi _ _ Hp) as [K1 K2 K3 K4].
    eapply (cinv_move _ _ T sh lk sh _ _ _ Hi Hg'); [by eapply yield_leaves|exact Hp|done| |done]. by split.
  - assert (mgood (MConf s' (call_conts (curr_proc s) r C) (call_holds (curr_proc s) mid r H))) as Hg' by (eapply mstep_good; [by eapply step_lock|done]).
    destruct (ci_pc _ Hi _ _ Hp) as [_ K2 _ _]. cbn in K2. assert ((curr_proc s, mid) ∉ H) as Hh by (rewrite <-K2; done).
    destruct (wp_result _ _ _ _ _ (lock_works s C H R Q L T _ sp Hm Ho Hp Hne HC Hh) Er) as [Hr Hl]. eapply cinv_locked; eauto.
  - assert (mgood (MConf s' (call_conts (curr_proc s) r C) (call_holds (curr_proc s) mid r H))) as Hg' by (eapply mstep_good; [by eapply step_resume|done]).
    destruct (wp_result _ _ _ _ _ (resume_works s C H R Q L m sp Hm Hne HC) Er) as [Hr Hl]. eapply cinv_locked; eauto.
  - assert (mgood (MConf s' C (if r =? 0 then H ∖ {[ (curr_proc s, mid) ]} else H))) as Hg' by (eapply mstep_good; [by eapply step_unlock|done]).
    destruct (ci_pc _ Hi _ _ Hp) as [K1 K2 _ _]. cbn in K1, K2. destruct (wp_result _ _ _ _ _ (unlock_works s C H R Q L T _ Hm Ho Hp Hne (proj1 K2 eq_refl)) Er) as [-> Hl].
    change (0 =? 0) with true in Hg' |- *. change (after_unlock i 0) with (P_loop (i + 1)). eapply (cinv_move _ _ T sh lk sh _ _ _ Hi Hg' (Hl _ _) Hp); [done| |cbn; set_solver]. split; [cbn; lia|cbn; set_solver|done|done].
  - assert (mgood (MConf s' C H)) as Hg' by (eapply mstep_good; [by eapply step_yield|done]). eapply cinv_others; [exact Hi|exact Hg'|by eapply yield_leaves|done].
  - eapply cinv_others; [exact Hi|by eapply mstep_good|exact Hl|]. intros t [p Hp]. apply mstep_holds; [done|]. intros ->. congruence.
Qed.

Lemma cstart_inv x : cstart x → cinv x.
Proof.
  intros [H1 [_ H2] H3 H4 H5]. split; [by apply mreach_good|done| | |done].
  - rewrite H2. clear -H3. destruct x as [c T sh lk]. cbn in *. induction T as [|t p T Hn IH] using map_ind; [done|]. apply map_Forall_insert in H3 as [[-> _] H3]; [|done].
    unfold total in *. rewrite map_fold_insert_L by (done || (intros; lia)). rewrite <-IH by done. done.
  - intros t p Hp. destruct (H3 t p Hp) as [-> Hh]. split; [cbn; unfold THREAD_ITERS; lia|by cbn; split|done|done].
Qed.

Lemma creach_inv x : creach x → cinv x.
Proof. intros (x0 & H0 & Hr). apply cstart_inv in H0. induction Hr as [|x1 x2 x3 Hs Hr IH]; [done|]. eauto using cstep_inv. Qed.

Lemma total_const T n : map_Forall (λ _ p, incs p = n) T → total T = Z.of_nat (size T) * n.
Proof.
  induction T as [|t p T Hn IH] using map_ind; [by intros _; rewrite map_size_empty|]. intros [H1 H2]%map_Forall_insert; [|done].
  unfold total in *. rewrite map_fold_insert_L, map_size_insert_None by (done || (intros; lia)). rewrite IH by done. lia.
Qed.

(** C8: however the timer interleaves the threads with each other and with the rest of the system, the locked counter is the
    number of increments that have been made under the lock, at most one thread is between its lock and its unlock, and no call on the mutex fails:
    a thread ends only after all its turns and with its own status.  So when all have ended, the counter is the number of threads times
    100000: the demonstration prints the value it expects. *)
Theorem locked_counter_correct x :
  creach x →
  p_locked x = total (p_pc x) ∧
  (∀ t t' p p', p_pc x !! t = Some p → p_pc x !! t' = Some p' → inside p = true → inside p' = true → t = t') ∧
  (∀ t n st, p_pc x !! t = Some (P_exit n st) → n = THREAD_ITERS ∧ st = status t) ∧
  (map_Forall (λ _ p, ∃ n st, p = P_exit n st) (p_pc x) → p_locked x = Z.of_nat (size (p_pc x)) * THREAD_ITERS).
Proof.
  intros [H1 H2 H3 H4 _]%creach_inv. split; [done|]. split; [|split].
  - intros t t' p p' Hp Hp' I1 I2. apply (holds_one (p_conf x)); [done|by apply (H4 t p Hp)|by apply (H4 t' p' Hp')].
  - intros t n st Hp. by apply (po_exit _ _ _ _ (H4 t _ Hp) n st).
  - intros Hall. rewrite H3. apply total_const. intros t p Hp. destruct (Hall t p Hp) as (n & st & ->). by destruct (po_exit _ _ _ _ (H4 t _ Hp) n st eq_refl) as [-> _].
Qed.
End counter.

(** ** A run of two threads *)

Inductive cop := CLocal | CYield | CLock | CResume | CUnlock | CPreempt.

Definition cdo (status : Z → Z) (mid : Z) (op : cop) (x : prog toy) : option (prog toy) :=
  let '(Prog (MConf s C H) T sh lk) := x in
  let t := curr_proc s in
  let free := bool_decide (t ≠ main_thread) && bool_decide (C !! t = None) in
  match op, T !! t with
  | CLocal, Some p => if bool_decide (C !! t = None) then
      match counter_step (status t) p sh lk with Some (p', sh', lk') => Some (Prog (MConf s C H) (<[t := p']> T) sh' lk') | None => None end else None
  | CYield, Some (P_snap i v) => if i mod RACE_YIELD_EVERY =? 0 then
      match yield 0 s with Ret (_, s') => Some (Prog (MConf s' C H) (<[t := P_store i v]> T) sh lk) | _ => None end else None
  | CLock, Some (P_lock i) => if free then
      match syscall_mutex_lock mid 0 s with Ret (r, s') => Some (Prog (MConf s' (call_conts t r C) (call_holds t mid r H)) (<[t := after_lock i r]> T) sh lk) | _ => None end else None
  | CResume, Some (P_wait i) =>
      match C !! t with
      | Some (KLock id m) => if bool_decide (t ≠ main_thread) && (id =? mid) then
          match lock_resume mid m 0 s with Ret (r, s') => Some (Prog (MConf s' (call_conts t r C) (call_holds t mid r H)) (<[t := after_lock i r]> T) sh lk) | _ => None end else None
      | _ => None
      end
  | CUnlock, Some (P_unlock i) => if free then
      match syscall_mutex_unlock mid s with Ret (r, s') => Some (Prog (MConf s' C (if r =? 0 then H ∖ {[ (t, mid) ]} else H)) (<[t := after_unlock i r]> T) sh lk) | _ => None end else None
  | CPreempt, _ => match yield 0 s with Ret (_, s') => Some (Prog (MConf s' C H) T sh lk) | _ => None end
  | _, _ => None
  end.

Lemma cdo_step status mid pr op x x' : cdo status mid op x = Some x' → cstep status mid pr x x'.
Proof.
  destruct x as [[s C H] T sh lk]. destruct op; unfold cdo; destruct (T !! curr_proc s) as [p|] eqn:Hp; try done.
  - case_bool_decide as E1; [|done]. destruct (counter_step _ p sh lk) as [[[p' sh'] lk']|] eqn:Es; [|done]. intros [= <-]. by eapply (c_local status mid pr (MConf s C H)).
  - destruct p; try done. destruct (i mod RACE_YIELD_EVERY =? 0) eqn:Ei; [|done]. bool_prop. destruct (yield 0 s) as [[r s']| |] eqn:Er; [|done..]. intros [= <-]. by eapply c_yield.
  - destruct p; try done. destruct (bool_decide _ && _) eqn:Eb; [|done]. apply andb_true_iff in Eb as [E1%bool_decide_eq_true E2%bool_decide_eq_true].
    destruct (syscall_mutex_lock mid 0 s) as [[r s']| |] eqn:Er; [|done..]. intros [= <-]. by eapply c_lock.
  - destruct p; try done. destruct (C !! curr_proc s) as [[id m| |]|] eqn:Ec; [|done..]. destruct (bool_decide _ && _) eqn:Eb; [|done].
    apply andb_true_iff in Eb as [E1%bool_decide_eq_true E2%Z.eqb_eq]. subst id. destruct (lock_resume mid m 0 s) as [[r s']| |] eqn:Er; [|done..]. intros [= <-]. by eapply c_resume.
  - destruct p; try done. destruct (bool_decide _ && _) eqn:Eb; [|done]. apply andb_true_iff in Eb as [E1%bool_decide_eq_true E2%bool_decide_eq_true].
    destruct (syscall_mutex_unlock mid s) as [[r s']| |] eqn:Er; [|done..]. intros [= <-]. by eapply c_unlock.
  - destruct (yield 0 s) as [[r s']| |] eqn:Er; [|done..]. intros [= <-]. by eapply c_preempt.
  - destruct (yield 0 s) as [[r s']| |] eqn:Er; [|done..]. intros [= <-]. by eapply c_preempt.
Qed.

Fixpoint cdos (status : Z → Z) (mid : Z) (ops : list cop) (x : prog toy) : option (prog toy) :=
  match ops with [] => Some x | op :: ops => match cdo status mid op x with Some x => cdos status mid ops x | None => None end end.

(** Mutex 1 of the process, and two threads. *)
Definition demo_status (t : Z) : Z := if t =? 0x1000 then 20 else 21.
Definition demo_start : prog toy := Prog (after [OCreate]) {[ 0x1000 := P_loop 0; 0x2000 := P_loop 0 ]} 0 0.

Lemma demo_cstart : cstart 1 0x5000 demo_start.
Proof.
  split; [apply (mdos_reach [OCreate]); vm_compute; reflexivity|done| | |].
  - apply (bool_decide_unpack _). vm_compute. exact I.
  - vm_compute. reflexivity.
  - split; [done|]. split; [done|]. split; [|apply (bool_decide_unpack _); vm_compute; exact I].
    eexists 0x20000, _. split; [done|]. split; [vm_compute; reflexivity|]. split; reflexivity.
Qed.

Lemma cdos_reach ops x : cdos demo_status 1 ops demo_start = Some x → creach demo_status 1 0x5000 x.
Proof.
  intros Hd. exists demo_start. split; [apply demo_cstart|]. revert Hd. generalize demo_start. induction ops as [|op ops IH]; intros x0; cbn [cdos]; [by intros [= ->]|].
  destruct (cdo _ _ op x0) as [x1|] eqn:E1; [|done]. intros Hd. eapply rtc_l; [by eapply cdo_step|auto].
Qed.

(** Both threads read the unlocked counter before either writes it, and one of the two increments is lost. *)
Definition race : list cop := [CLocal; CYield; CLocal; CYield; CLocal; CPreempt; CLocal].

Theorem shared_counter_race : ∃ x, creach demo_status 1 0x5000 x ∧ p_pc x = {[ 0x1000 := P_lock 0; 0x2000 := P_lock 0 ]} ∧ p_shared x = 1.
Proof.
  destruct (cdos demo_status 1 race demo_start) as [x|] eqn:E; [|vm_compute in E; discriminate]. exists x. split; [by eapply cdos_reach|].
  assert ((λ x, (p_pc x, p_shared x)) <$> cdos demo_status 1 race demo_start = Some ({[ 0x1000 := P_lock 0; 0x2000 := P_lock 0 ]}, 1)) as Hx by (vm_compute; reflexivity).
  rewrite E in Hx. injection Hx as H1 H2. exact (conj H1 H2).
Qed.

(** The second thread waits for the first. *)
Definition taking_turns : list cop := race ++ [CLock; CLocal; CPreempt; CLock; CLocal; CUnlock; CPreempt; CResume; CLocal; CLocal].

Lemma locked_counter_witness : ∃ x, creach demo_status 1 0x5000 x ∧ p_locked x = 2 ∧ total (p_pc x) = 2.
Proof.
  assert (is_Some (cdos demo_status 1 taking_turns demo_start)) as [x E] by (vm_compute; eexists; reflexivity).
  assert (creach demo_status 1 0x5000 x) as Hr by exact (cdos_reach taking_turns x E).
  destruct (locked_counter_correct demo_status 1 0x5000 x Hr) as [Ht _]. exists x. split; [exact Hr|].
  assert (p_locked <$> cdos demo_status 1 taking_turns demo_start = Some 2) as Hx by (vm_compute; reflexivity). rewrite E in Hx. injection Hx as Hx.
  split; [exact Hx|]. rewrite <-Ht. exact Hx.
Defined.
