(* ===== verification/Programs.v ===== *)
(** * User programs ([userspace/echo.c], [userspace/init.c], [userspace/lib/crt0.c])

    The programs' [main] functions on the user library of [Userlib], and the two system calls behind their
    terminal, [sys_getc] and [sys_putc] of [multitask/syscalls.c].  The threads of [init.c] are in
    [Counter].  Theorems: what [echo] shows and returns, and that [sys_putc] and [sys_getc] are the terminal
    the programs see. *)

From stdpp Require Import strings.
From S2P Require Import Prelude Bbuf Kernel TaskQueue TaskQueueProofs Interrupts Serial Vga Stdio Keyboard Userlib Counter.

(** ** The system calls *)

Section calls.
Context {E P D U : Type} {KE : KernelEnv E} {TL : TaskLayout} {PD : PicDev P} {IL : IdtLayout} {DD : Ps2Dev D} {UD : UartDev U}.

(** The character is widened with its sign; a thread that has to wait makes the call again. *)
Definition sys_getc (kbd_wait_queue sp : Z) : M (kbd E P D) (option Z) :=
  r <- keyboard_getchar kbd_wait_queue sp ;;
  ret (match r with GChar c => Some (u64 (char_of c)) | GBlocked => None end).

(** [buf] is the uninitialised array of [printk]; the format is "%c". *)
Definition sys_putc (junk : bool) (buf : list Z) (rdi : Z) : M (con U) Z :=
  printk junk buf [37; 99] [VInt (char_of rdi)] ;;
  ret 0.
End calls.

(** ** [echo.c] *)

(** The characters of a string literal. *)
Definition text (s : string) : list Z := (λ a, Z.of_N (Ascii.N_of_ascii a)) <$> String.list_ascii_of_string s.

Section programs.
Context {S : Type} (sys : Z → list Z → M S Z).
#[local] Abbreviation MU := (M (ust S)).

Definition echo_ready : list Z := (text "echo.elf ready, type q to exit" ++ [10]).
Definition echo_exit : list Z := ([10] ++ text "echo.elf exiting with status 7" ++ [10]).

(** One turn per character. *)
Fixpoint echo_loop (fuel : nat) : MU Z :=
  match fuel with
  | O => no_fuel
  | Datatypes.S fuel =>
      c <- getc sys ;;
      if c =? 113 then puts sys echo_exit ;; ret 7
      else putc sys c ;; echo_loop fuel
  end.

Definition echo_main (fuel : nat) : MU Z := puts sys echo_ready ;; echo_loop fuel.

(** [_start] of [crt0.c]. *)
Definition start (main : MU Z) : MU unit := status <- main ;; exit sys status.

(** ** [init.c] *)

(** The counters are variables that other threads write, [status] one that the kernel writes: they
    are read through [peek]. *)
Context (peek : Z → MU Z) (poke : Z → Z → MU unit).
Variables (shared_counter locked_counter status_var counter_mutex echo_name : Z) (thread_stacks thread_args : Z → Z) (counter_thread : Z) (nbuf : list Z).

Definition print (msg : list Z) : MU unit := puts sys msg.
Definition num (n : Z) : MU unit := putnum sys nbuf n.

Definition test_fork_exec_wait : MU unit :=
  poke status_var (-1) ;;
  print ([10] ++ text "init: forking child" ++ [10]) ;;
  pid <- fork sys ;;
  (if pid =? 0 then
     print (text "child: exec echo.elf" ++ [10]) ;;
     r <- exec sys echo_name ;;
     if r =? u64 (-1) then print (text "child: exec failed" ++ [10]) ;; exit sys 1 else ret tt
   else ret tt) ;;
  print (text "init: waiting for child ") ;;
  num pid ;;
  putc sys 10 ;;
  waited <- uwait sys status_var ;;
  print (text "init: wait returned pid ") ;;
  num waited ;;
  print (text " status ") ;;
  status <- peek status_var ;;
  num (u64 status) ;;
  putc sys 10.

(** The first loop of [test_threads], with the thread numbers. *)
Fixpoint create_threads (js : list Z) : MU (list Z) :=
  match js with
  | [] => ret []
  | i :: js =>
      poke (thread_args i) i ;;
      poke (thread_args i + 4) (20 + i) ;;
      tid <- thread_create sys (thread_stacks i) (512 * 8) counter_thread (thread_args i) ;;
      print (text "init: clone thread returned ") ;;
      num tid ;;
      putc sys 10 ;;
      tids <- create_threads js ;;
      ret (tid :: tids)
  end.

Definition join_thread (tid : Z) : MU unit :=
  poke status_var (-1) ;;
  joined <- thread_join sys tid status_var ;;
  print (text "init: joined tid ") ;;
  num joined ;;
  print (text " status ") ;;
  status <- peek status_var ;;
  num (u64 status) ;;
  putc sys 10.

Definition report (msg : list Z) (counter : Z) : MU unit :=
  print msg ;;
  n <- peek counter ;;
  num n ;;
  print (text " with an expected value of ") ;;
  num (THREAD_COUNT * THREAD_ITERS) ;;
  print [10; 10].

Definition test_threads : MU unit :=
  print ([10] ++ text "init: pid ") ;;
  p <- getpid sys ;;
  num p ;;
  print (text " tid ") ;;
  t <- gettid sys ;;
  num t ;;
  putc sys 10 ;;
  poke shared_counter 0 ;;
  poke locked_counter 0 ;;
  r <- mutex_init sys counter_mutex ;;
  if r <? 0 then print (text "init: mutex_init failed" ++ [10]) else
  tids <- create_threads (seqZ 0 THREAD_COUNT) ;;
  for_each tids join_thread ;;
  report (text "init: shared counter final value: ") shared_counter ;;
  report (text "init: locked counter final value: ") locked_counter ;;
  r <- mutex_destroy sys counter_mutex ;;
  if r <? 0 then print (text "init: mutex_destroy failed" ++ [10]) else ret tt.

Fixpoint init_loop (fuel : nat) : MU Z :=
  match fuel with
  | O => no_fuel
  | Datatypes.S fuel =>
      c <- getc sys ;;
      (if c =? 49 then test_fork_exec_wait
       else if c =? 50 then test_threads
       else putc sys c) ;;
      init_loop fuel
  end.

Definition init_main (fuel : nat) : MU Z :=
  print (text "init.elf ready" ++ [10]) ;;
  print (text "press 1 to test fork, exec, and wait" ++ [10]) ;;
  print (text "press 2 to test thread creation and management" ++ [10; 10]) ;;
  init_loop fuel.
End programs.

(** ** The terminal *)

(** What is typed next, and what has been shown. *)
Class Terminal (S : Type) (sys : Z → list Z → M S Z) := {
  t_in : S → list Z;
  t_out : S → list Z;
  t_getc w c l : t_in w = c :: l → ∃ w', sys SYS_GETC [] w = Ret (u64 (char_of c), w') ∧ t_in w' = l ∧ t_out w' = t_out w;
  t_putc w v : ∃ w', sys SYS_PUTC [v] w = Ret (0, w') ∧ t_in w' = t_in w ∧ t_out w' = t_out w ++ [char_of v]
}.

Lemma char_u64 z : char_of (u64 z) = char_of z.
Proof.
  unfold char_of, u64. f_equal. rewrite <-(Zplus_mod_idemp_l (z mod 2 ^ 64)), Z.mod_mod_divide, Zplus_mod_idemp_l; [done|]. exists (2 ^ 56). lia.
Qed.

Lemma char_char z : char_of (char_of z) = char_of z.
Proof. unfold char_of. rewrite Z.sub_add, Zmod_mod. done. Qed.

Section echo.
Context {S : Type} {sys : Z → list Z → M S Z} {TM : Terminal S sys}.
Implicit Types (u : ust S).

Definition typed u : list Z := t_in (world u).
Definition shown_text u : list Z := t_out (world u).

Lemma putc_spec c u (Q : unit → ust S → Prop) :
  (∀ u', typed u' = typed u → shown_text u' = shown_text u ++ [char_of c] → ids u' = ids u → Q tt u') → wp (putc sys c) u Q.
Proof.
  intros HQ. unfold putc. wp_step. destruct (t_putc (world u) (u64 c)) as (w & Ew & W1 & W2). unfold wp, usys. rewrite Ew. apply HQ; [done|by rewrite <-char_u64|done].
Qed.

Lemma puts_spec str : ∀ u (Q : unit → ust S → Prop),
  (∀ u', typed u' = typed u → shown_text u' = shown_text u ++ (char_of <$> str) → ids u' = ids u → Q tt u') → wp (puts sys str) u Q.
Proof.
  induction str as [|c str IH]; intros u Q HQ; cbn [puts for_each]; [apply wp_ret, HQ; [done|by rewrite app_nil_r|done]|]. wp_step. apply putc_spec. intros u1 T1 O1 I1.
  apply IH. intros u2 T2 O2 I2. apply HQ; [congruence| |congruence]. rewrite O2, O1, <-app_assoc. done.
Qed.

Lemma getc_spec c l u (Q : Z → ust S → Prop) : typed u = c :: l →
  (∀ u', typed u' = l → shown_text u' = shown_text u → ids u' = ids u → Q (char_of c) u') → wp (getc sys) u Q.
Proof.
  intros Hc HQ. unfold getc. wp_step. destruct (t_getc (world u) c l Hc) as (w & Ew & W1 & W2). unfold wp, usys. rewrite Ew, char_u64, char_char. by apply HQ.
Qed.

Lemma echo_loop_spec xs : ∀ fuel q rest u (Q : Z → ust S → Prop),
  typed u = xs ++ q :: rest → Forall (λ c, char_of c ≠ 113) xs → char_of q = 113 → (length xs < fuel)%nat →
  (∀ u', typed u' = rest → shown_text u' = shown_text u ++ (char_of <$> xs ++ echo_exit) → ids u' = ids u → Q 7 u') → wp (echo_loop sys fuel) u Q.
Proof.
  induction xs as [|c xs IH]; intros [|fuel] q rest u Q Ht Hx Hq Hf HQ; [cbn in Hf; lia| |cbn in Hf; lia|]; cbn [echo_loop]; wp_step; (eapply getc_spec; [exact Ht|]); intros u1 T1 O1 I1.
  - rewrite Hq. cbn [Z.eqb Pos.eqb]. wp_step. apply puts_spec. intros u2 T2 O2 I2. apply wp_ret, HQ; [congruence| |congruence]. rewrite O2, O1. done.
  - apply Forall_cons in Hx as [Hc Hx]. rewrite (proj2 (Z.eqb_neq _ 113)) by done. wp_step. apply putc_spec. intros u2 T2 O2 I2.
    eapply (IH fuel q rest); [by rewrite T2, T1|done|done|cbn in Hf; lia|]. intros u3 T3 O3 I3. apply HQ; [done| |congruence]. rewrite O3, O2, O1, char_char, <-app_assoc. done.
Qed.

(** C34: [echo] shows its banner, then every character typed before the first q, in order, then its farewell, and
    returns 7; what is typed after the q is left for the next reader. *)
Theorem echo_correct fuel xs q rest u :
  typed u = xs ++ q :: rest → Forall (λ c, char_of c ≠ 113) xs → char_of q = 113 → (length xs < fuel)%nat →
  ∃ u', echo_main sys fuel u = Ret (7, u') ∧ typed u' = rest ∧ shown_text u' = shown_text u ++ (char_of <$> echo_ready ++ xs ++ echo_exit).
Proof.
  intros Ht Hx Hq Hf. cut (wp (echo_main sys fuel) u (λ r u', r = 7 ∧ typed u' = rest ∧ shown_text u' = shown_text u ++ (char_of <$> echo_ready ++ xs ++ echo_exit))).
  { intros (r & u' & E & -> & H)%wp_iff. eauto. }
  unfold echo_main. wp_step. apply puts_spec. intros u1 T1 O1 I1. eapply (echo_loop_spec xs fuel q rest); [by rewrite T1|done|done|done|]. intros u2 T2 O2 I2.
  split; [done|]. split; [done|]. rewrite O2, O1, <-app_assoc, <-fmap_app. done.
Qed.
End echo.

(** The kernel's side of the terminal. *)
Section kernel_side.
Context {E P D U : Type} {KE : KernelEnv E} {KL : KernelEnvLaws E} {TL : TaskLayout} {PD : PicDev P} {IL : IdtLayout} {DD : Ps2Dev D} {UD : UartDev U} {UL : UartLaws U}.

(** Both consoles show the one character. *)
Theorem sys_putc_correct junk buf rdi (c : con U) : length buf = BUF_SIZE → con_ok junk c →
  wp (sys_putc junk buf rdi) c (λ r c', r = 0 ∧ shown junk [char_of rdi] c c').
Proof.
  intros Hl Hc. unfold sys_putc, printk. wp_step.
  eapply wp_mono; [apply (printk_loop_spec junk buf Hl 2 [37; 99] [VInt (char_of rdi)] 0 c [char_of rdi] 1); [cbn; lia|exact Hc|reflexivity|]|].
  - change (format (items [37; 99]) [VInt (char_of rdi)]) with (Some ([char_of (char_of rdi)], 1)). by rewrite char_char.
  - cbv beta. intros _ c' [_ Hs]. apply wp_ret. done.
Qed.

(** The oldest character of the keyboard's buffer, or the caller waits. *)
Theorem sys_getc_correct wq sp (s : kbd E P D) R Q :
  can_block (kk s) R Q → is_Some (queue_val (kk s) (QDriver wq)) → bb_inv (kbd_st s) →
  wp (sys_getc wq sp) s (λ r s', match bb_queue (kbd_st s) with
    | c :: q => r = Some (u64 (char_of c)) ∧ bb_queue (kbd_st s') = q
    | [] => r = None ∧ blocked (set_env (ke_set_ints false (env (kk s))) (kk s)) R Q (QDriver wq) sp (kk s') end).
Proof.
  intros H1 H2 H3. unfold sys_getc. wp_step. eapply wp_mono; [by apply (keyboard_getchar_spec wq s R Q sp)|]. cbv beta. intros r s' (_ & _ & H). apply wp_ret.
  destruct (bb_queue (kbd_st s)) as [|c q]; destruct H as (-> & H4 & H5); done.
Qed.
End kernel_side.

(** A terminal that is two lists. *)
Definition tty_sys (n : Z) (args : list Z) : M (list Z * list Z) Z := λ w,
  if n =? SYS_GETC then match w.1 with c :: l => Ret (u64 (char_of c), (l, w.2)) | [] => NoFuel end
  else match args with v :: _ => Ret (0, (w.1, w.2 ++ [char_of v])) | [] => Halt end.

#[export, program] Instance tty_terminal : Terminal (list Z * list Z) tty_sys := { t_in := fst; t_out := snd }.
Next Obligation. intros [i o] c l H. cbn in H. subst i. eexists. by split_and!. Qed.
Next Obligation. intros [i o] v. eexists. by split_and!. Qed.

Lemma echo_witness : ∃ u', echo_main tty_sys 5 (Ust ∅ ([104; 105; 113; 120], [])) = Ret (7, u') ∧ typed u' = [120].
Proof.
  destruct (echo_correct (sys := tty_sys) 5 [104; 105] 113 [120] (Ust ∅ ([104; 105; 113; 120], []))) as (u' & E & T & _).
  - reflexivity.
  - repeat constructor; discriminate.
  - reflexivity.
  - cbn. lia.
  - exists u'. split; [exact E|exact T].
Defined.
